(* ===== verification/_CoqProject ===== *)
-Q . S2P
Prelude.v
Amount.v
Hex.v
Nuts.v
KeysetId.v
Bdhke.v
Conditions.v
Concrete.v
Spending.v
States.v
MintDb.v
MintDbFacts.v
MintDbSpec.v
Mint.v
MintFacts.v
Keysets.v
KeysetFacts.v
RotationFacts.v
ConcreteCurve.v
Secrets.v
SecretsFacts.v
Swap.v
SwapFacts.v
SwapConcurrency.v
Issue.v
IssueFacts.v
ProofWriter.v
Melt.v
MeltFacts.v
MeltRuns.v
Safety.v
QueryFacts.v
Posts.v
Auth.v
Http.v
AuthFacts.v
HttpFacts.v
ConcreteAuth.v
Selection.v
SelectionFacts.v
MintUrl.v
WalletDb.v
WalletDbFacts.v
Checker.v
CheckerFacts.v
CheckerMint.v
ConcreteChecker.v
WalletStore.v
BrowserStore.v
Token.v
TokenFacts.v
Wallet.v
WalletFacts.v
WalletPay.v
WalletPayFacts.v
AuthWallet.v
AuthWalletFacts.v
PayRequest.v
PayRequestFacts.v
MultiMint.v
MultiMintFacts.v
Stmt.v
StmtFacts.v
Pool.v
PoolFacts.v
Conn.v
ConnFacts.v
PubSub.v
PubSubFacts.v
Remote.v
RemoteFacts.v
RedbWallet.v
RedbWalletFacts.v
SqlWallet.v
SqlWalletFacts.v
WalletEnds.v
WalletMint.v
ConcreteWallet.v
ConcreteServed.v
ConcreteAuthWallet.v
