(* ===== verification/Prelude.v ===== *)
(** * The Cashu Development Kit and the NUT-10 checker, verified

    A Cashu mint issues bearer tokens.  A token (a _proof_) is a secret with
    the mint's signature on the point [Y = hash_to_curve(secret)].  The mint
    never sees a token before it is spent: it signs blinded messages and, when
    a proof comes back, checks its own signature and records [Y] as spent.
    Everything that makes the currency sound is in the mint's request handlers,
    its database and its signatory: a proof is spent once, signatures are worth
    what was paid for them, and no crash or failed call loses or creates value.

    The repository is the Rust workspace src/crates with the mint and the
    wallet library, and the web page src/web/nut-10-checker, which tests how a
    mint treats locked proofs.  The parts modelled here and how they call one
    another:

      web/nut-10-checker: lib.rs,            crates/cdk/src/wallet: swap, send,
      lib_helpers.rs, test_context.rs        receive, mint, melt, restore, tokens
         |        |                             |             |
         |        v  store: wallet_db.rs        v             |
         |           (browser)                cdk-sql-common  |
         | swap, check state                  wallet store    | interface
         | (interface MintConnector)                          | WalletConnector
         v                                                    v
      crates/cdk-axum: HTTP handlers, authentication, cache of answers
                                      |
                                      v
      crates/cdk/src/mint: process_swap_request, process_mint_request, melt,
                           check_state, restore, start-up checks
         |          |               |                |             |
         v          v               v                v             v
      cashu types,  verification    cdk-sql-common   signatory:    payment
      conditions,   fees            transactions     keysets,      backends
      amounts, ids                                   signing       (interface)

    ** Files

    - [Prelude.v]: outcomes [Ok | Err | Panic] and the [?] operator, machine
      integers, the state-and-error monad [M] with its tactics and hints, and
      shared lemmas on lists, maps and sums.
    - [Amount.v], Module Amount: crates/cashu/src/amount.rs.
    - [Hex.v], Module Hex: crates/cashu/src/util/hex.rs.
    - [Nuts.v], Modules Nut10, Nut01, Dhke, Nut00, Nut07, Requests: the protocol
      types and their methods in crates/cashu/src/nuts (nut00/mod.rs,
      nut01/public_key.rs, nut03, nut04, nut05, nut07, nut10, nut20) and
      [hash_to_curve] of dhke.rs.
    - [KeysetId.v], Module KeysetId: keyset ids of nuts/nut02.rs.
    - [Bdhke.v], Modules Bdhke, BdhkeFacts: blind signatures (dhke.rs) and DLEQ
      proofs (nut12.rs) over an abstract group.
    - [Conditions.v], Module Nut11: tags, [Conditions] and [SpendingConditions]
      of nuts/nut11/mod.rs.
    - [Spending.v], Module Spending: signing and verification of locked proofs
      in nut11/mod.rs and nut14/mod.rs, SIG_ALL of requests, and
      [validate_sig_flag] of cdk/src/mint/swap/mod.rs.
    - [Concrete.v]: instances of the library interfaces that satisfy their
      laws, on which witnesses are evaluated.
    - [States.v], Modules StateRules, MintTypes, Fees: cdk-common/src/state.rs
      and mint.rs, cdk/src/fees.rs.
    - [MintDb.v], Module MintDb: the transaction methods of
      cdk-sql-common/src/mint/mod.rs over tables with the constraints of its
      migrations.  [MintDbFacts.v]: invariants over sequences of calls.
      [MintDbSpec.v]: the effect of each call as one equation on the tables.
    - [Mint.v], Module Mint: transactions with faults, the interface to the
      signatory, and the checks of cdk/src/mint/verification.rs, mint/mod.rs,
      check_spendable.rs.  [MintFacts.v]: the program logic of handlers.
    - [Keysets.v], Module Keysets: the signatory (cdk-signatory/src), the keyset
      tables of cdk-sql-common and [Mint::rotate_keyset].  [KeysetFacts.v] and
      [RotationFacts.v]: its theorems.  [ConcreteCurve.v]: a group of 256
      elements on which they are evaluated.
    - [Secrets.v], Module Secrets: secrets derived from a seed (nuts/nut13.rs) and
      the outputs made of them ([PreMintSecrets] of nut00/mod.rs), blank outputs
      among them.
      [SecretsFacts.v]: restoring them, and telling them apart.
    - [Swap.v], Module Swap: mint/swap (the saga, its compensation, the handler)
      and recovery in start_up_check.rs.  [SwapFacts.v]: one swap under faults.
      [SwapConcurrency.v]: many swaps interleaved with restarts.
    - [Issue.v], Module Issue: mint/issue/mod.rs, ln.rs and the notification
      path in mint/mod.rs.  [IssueFacts.v]: its theorems.
    - [ProofWriter.v], Module ProofWriter: mint/proof_writer.rs.
    - [Melt.v], Module Melt: mint/melt.rs, [handle_internal_melt_mint] of
      mint/mod.rs, the check of pending quotes in start_up_check.rs.
      [MeltFacts.v]: theorems for every run.  [MeltRuns.v]: runs that lose
      track of their inputs.
    - [Safety.v], Module Safety: histories of all handlers.
    - [QueryFacts.v]: the state check and restore.
    - [Auth.v], Modules Nut21, Nut21Settings, Nut22, TokenText, Oidc, AuthDb, Auth:
      authentication at the mint (crates/cashu/src/nuts/auth,
      cdk/src/oidc_client.rs, cdk/src/mint/auth, issue/auth.rs and
      keysets/auth.rs, the database of cdk-sql-common/src/mint/auth, the
      configuration in cdk-mintd/src/lib.rs).  [AuthFacts.v]: its theorems.
    - [Http.v], Modules ErrorCodes, Http: the handlers, headers and cache of
      cdk-axum/src and the error codes of cdk-common/src/error.rs.
      [HttpFacts.v]: its theorems.  [ConcreteAuth.v]: runs of both.
    - [Selection.v], Module Selection: the choice of proofs in
      cdk/src/wallet/proofs.rs.  [SelectionFacts.v]: its theorems.
    - [MintUrl.v], Module MintUrl: crates/cashu/src/mint_url.rs.
    - [WalletDb.v], Module WalletDb: wallet_db.rs of the checker with the types
      it stores (cdk-common/src/common.rs and wallet.rs).  [WalletDbFacts.v]:
      the store as a map, persistence and lost updates.
    - [Checker.v], Module Checker: lib.rs, lib_helpers.rs and test_context.rs of
      the checker.  [CheckerFacts.v]: its theorems for every mint.
      [CheckerMint.v]: the checker against the mint of this development.
      [ConcreteChecker.v]: runs of it.
    - [Posts.v]: relations that a computation keeps between the states before
      and after it, and errors that it never returns, with their proof rules.
    - [WalletStore.v], class WalletStore with WalletStoreLaws: the trait
      [Database] of cdk-common/src/database/wallet.rs and what the wallet
      relies on.  [BrowserStore.v] implements it with the store of the checker.
    - [SqlWallet.v], Module SqlWallet: the store of
      cdk-sql-common/src/wallet/mod.rs over its tables.  [SqlWalletFacts.v]: it
      implements the class; what does not survive being stored.
    - [RedbWallet.v], Module RedbWallet: the store of cdk-redb/src/wallet over
      the tables of a redb file, its migrations and opening.
      [RedbWalletFacts.v]: it implements the class; what the migrations keep.
    - [Stmt.v], Module Stmt: cdk-sql-common/src/stmt.rs, the statements that the
      SQL stores hand to their engine.  [StmtFacts.v]: its theorems.
    - [Pool.v], Module Pool: cdk-sql-common/src/pool.rs, the connections that
      the stores share, step by step.  [PoolFacts.v]: its theorems.
    - [Conn.v], Module Conn: transactions and migrations (database.rs and
      common.rs of cdk-sql-common) and the connections of cdk-sqlite and
      cdk-postgres.  [ConnFacts.v]: its theorems.
    - [PubSub.v], Modules PubSub, WsServer: cdk-common/src/pub_sub and the web
      sockets of cdk-axum/src/ws.  [PubSubFacts.v]: its theorems.
    - [Remote.v], Module Remote: pub_sub/remote_consumer.rs, the wallet's end of
      subscriptions.  [RemoteFacts.v]: its theorems.
    - [Token.v], Modules Token, TokenOps: nuts/nut00/token.rs and the proofs of
      tokens in nut00/mod.rs.  [TokenFacts.v]: its theorems.
    - [Wallet.v], Module Wallet: mod.rs, keysets.rs, swap.rs, proofs.rs,
      balance.rs and transactions.rs of cdk/src/wallet.  [WalletFacts.v]: its
      theorems for every store and every mint.
    - [WalletPay.v], Module WalletPay: send.rs, receive.rs, issue/ and melt/ of
      cdk/src/wallet, and the checks of tokens in mod.rs.
      [WalletPayFacts.v]: its theorems.
    - [AuthWallet.v], Module AuthWallet: the wallet's side of authentication
      (cdk/src/wallet/auth, [AuthHttpClient] in mint_connector/http_client.rs,
      the refresh in oidc_client.rs).  [AuthWalletFacts.v]: its theorems.
      [ConcreteAuthWallet.v]: runs.
    - [PayRequest.v], Modules Nut18, PayRequest: payment requests
      (crates/cashu/src/nuts/nut18, cdk/src/wallet/payment_request.rs).
      [PayRequestFacts.v]: its theorems.
    - [MultiMint.v], Module MultiMint: cdk/src/wallet/multi_mint_wallet.rs, the
      wallets of several mints used as one.  [MultiMintFacts.v]: its theorems.
    - [WalletEnds.v]: the loops of the wallet's operations end.
    - [WalletMint.v]: the wallet at the mint of this development.
    - [ConcreteWallet.v]: a wallet with the SQL store at a concrete mint, and
      the theorems applied to its runs.  [ConcreteServed.v]: the same with a
      mint that runs the handlers of [Swap.v] and [Issue.v].

    ** How code becomes definitions

    A Rust function that returns [Result<T, E>] is a function into [res E T],
    which has a third constructor for a panic ([unwrap], an index out of
    range, an [expect], an overflowing operator of [Amount]).  A [u64] is an
    [N] with the range checks of the code; where the code adds or multiplies
    without a check, the result wraps, as in a release build ([calculate_fee],
    the [i32] counter of [select_proofs], the balances of the checker).  Hash
    maps and sets are [gmap] and [gset], vectors are lists; where the order in
    which a set is read can matter, it is an argument.  The clock is an argument
    [now]; a fresh uuid, nonce, secret or blinding factor is an argument of the
    operation that draws it.

    A database method is a computation in the monad [M] over the tables.  A
    failing statement keeps what the method wrote before it; it is the caller
    who rolls back, as in the code.  A handler runs over a [World]: the committed
    tables, the tables of the open transaction, the notifications sent, and a
    schedule of faults.  Each call to the database takes one boolean from the
    schedule and fails when it is [true]; the theorems quantify over all
    schedules, so they cover a failure of any call, any number of times.  A
    transaction that is neither committed nor rolled back is discarded when
    the handler opens the next one or ends, as when it is dropped.  The
    signatory runs in the same way over its own tables and its keysets in
    memory ([KWorld]).  A call of the web page runs over a [Page]: its copy of
    the wallet, the browser's storage with its own schedule of faults, and the
    mint at the other end.  An operation of the wallet library runs over a
    [Client]: any state of a store that keeps the laws of its class, and any
    state of a mint; the SQL store has a schedule of faults of its own.

    ** Interfaces

    Code outside the repository, or behind a trait of it, is a class:

    - [Crypto] (secp256k1 and SHA-256) and [Serde] (the JSON form of a NUT-10
      secret), with their laws in [CryptoLaws] and [SerdeLaws]: encodings read
      back, a signature made with a key verifies under it.  No theorem assumes
      that signatures cannot be forged: the theorems say which signatures
      were checked.
    - [Curve] with [CurveModel] and [CurveLaws]: the operations on points and
      scalars, read as multiplication in a group of prime order.
    - [Bip32] and [SeedKdf]: derivation of keys and secrets from a seed.  Nothing
      is assumed of them.
    - [Signatory] with [SignatoryLaws]: the trait of
      cdk-signatory/src/signatory.rs.  Signing returns one signature per
      message, for the amount and keyset of the message; C17 discharges the
      law for the signatory of [Keysets.v].
    - [Payments] and [Outgoing]: the trait [MintPayment] of cdk-common, for
      incoming and outgoing payments.  Nothing is assumed of them.
    - [StateJson] with [StateJsonLaws]: the JSON form of a stored wallet, which is
      read back when its URLs, units and payment methods are in the form in
      which they are printed.
    - [TokenCodec] with [TokenCodecLaws]: JSON, CBOR and base64 of tokens.
    - [WalletStore] with [WalletView] and [WalletStoreLaws]: the store of a wallet,
      read as a list of proofs and a counter per keyset.  Storing proofs adds
      and removes exactly the given ones, changing states changes exactly
      theirs, removing a mint can only remove counters, a change of URL keeps
      all but URLs, and no other call touches proofs or counters; C25 discharges
      the laws for the browser's store, the SQL store and the redb store.
    - [WalletConnector]: the trait [MintConnector] of cdk/src/wallet.  Nothing is
      assumed of it but, where a theorem says so, that the mint signs the
      amounts it is asked to sign ([signs_swaps], [signs_mints]); in
      [WalletMint.v], that it is the mint of this development ([Served]).
    - [RegexLib], [OidcLib], [AuthCodec] with [AuthCodecLaws], and [Json]: the
      crates regex, jsonwebtoken, base64 and serde_json where authentication
      and the HTTP handlers use them.
    - [AuthConnector], implemented by [http_connector] over [AuthTransport];
      [TokenEndpoint] and [MintAuthView]: what a wallet asks of a mint and of
      a provider to authenticate.  Nothing is assumed of them.
    - [RequestCodec] with [RequestCodecLaws]: the CBOR form of payment requests.
    - [Driver] with [DriverLaws]: the statements of an SQL engine that begin and
      end transactions and run migrations.
    - [MintInfoView] and [KeyJson]: what is read of a mint's information, and the
      JSON form of a key in it.
    - [MintConnector]: what the web page asks of a mint; [CheckerMint.v]
      implements it with the mint of this development.

    The theorems are proved against the interfaces; [Concrete.v],
    [MintFacts.v], [IssueFacts.v], [MeltRuns.v], [ConcreteCurve.v],
    [ConcreteChecker.v], [ConcreteWallet.v], [ConcreteServed.v], [ConcreteAuth.v]
    and [ConcreteAuthWallet.v] instantiate them.

    ** What the theorems show

    - The mint as a whole (C1, C2, C6, C7): in every history of requests,
      payments, faults and restarts, spent proofs stay spent, signatures and
      paid quotes are final and every mint quote accounts for what it was paid
      and what it issued; concurrent swaps never share an input.
    - Each handler (C3 to C5, C8 to C10): what a swap, mint or melt that
      answers has done to the tables and to the value in circulation; what one
      that fails has left behind; that recovery undoes interrupted swaps, any
      number of them.
    - In front of the handlers (C21, C35, C40): a protected route acts only for
      an authorised request (an answer that is in the cache is given to anyone
      who sends its request), a blind token is good for one, and a repeated swap
      is answered from the cache while its answer is there, and refused after.
    - The signatory (C13 to C17): one active keyset per unit in every
      history, under the id of its keys, what a rotation does, with the index
      and the path of the new keyset, correctness of blind signatures, that
      issued proofs are accepted.
    - Spending conditions (C11, C12, C27): verification of P2PK is sound for a
      specification written from NUT-11, and complete for proofs that are signed
      plainly (no key twice, a readable witness); soundness of HTLC verification, the
      2-of-2 lock of the checker.
    - Secrets, keyset ids, amounts and the choice of proofs (C18, C32, C33):
      that a wallet is restored from its seed, which strings are read as ids,
      and that the wallet covers an amount below 2^31 that it has in powers of
      two.
    - The wallet (C20, C24, C28 to C30, C34, C36 to C38): what a swap, a
      receive, a mint and a melt that return have done to the stored proofs
      and their worth, with the fee that the wallet works out, that two swaps
      derive all their outputs at different counters, that a cancelled send
      leaves no trace and a confirmed one hands out what it stores as handed
      out, that the blank outputs of a melt are enough for its change, and
      that the loops of all operations end.
    - The wallet at the mint (C31): a swap spends its inputs at the mint and
      the value of both together changes by the fee only.
    - Tokens and stores (C25, C39): a token carries the proofs it was made of;
      all three stores keep the contract that the theorems on the wallet rely on.
    - The checker (C19, C22, C23, C26): what a swap leaves in memory and in the
      browser's storage for each outcome, that after a refused swap a state check
      gives every proof the state that the mint reports, and that the list of
      stored proofs implements a map.

    The other theorems of the files are of the same kind: those on the stores'
    connections and statements, on subscriptions at both ends and on the
    multi-mint wallet hold for every interleaving of their steps.  Among them are
    deviations from what the code or its comments intend, each with a run or a
    general statement that shows it.

    ** Bounds and fuel

    [hash_to_curve] tries 2^16 counters, as the code does.  The [while] loops of
    [split_targeted], [split_with_fee] and [select_denominations] take fuel;
    [split_targeted_exact], [split_with_fee_covers] and [select_denominations_spec] prove that [self],
    [U64_MAX - self] and [target] rounds are enough, and that for a zero target
    or denomination no fuel is.  The operations of the wallet pass fuel on to
    [split_targeted] and [split_with_fee]; running out of it is an error of its
    own, so a theorem about a run that returns is about a run that had enough.
    C36 shows that more than [U64_MAX] rounds are enough for every operation,
    except for a target value that is zero or a keyset without a denomination of
    one, for which the loop of the code need not end
    ([split_targeted_zero_diverges], [split_targeted_without_one_diverges]).
    [restore] of the wallet takes a number of rounds per keyset: the loop of
    the code ends when the mint has no more signatures.  The halving loop of [select_proofs] has 64 rounds, after which any
    64-bit amount is zero; [select_least_amount_over] recurses on shorter lists
    with their length as fuel, and each round of the
    search for halves takes another proof: C36 shows that more rounds change
    nothing and that the recursion never runs out.  All other
    recursion is structural.

    ** Limits of the model

    - A transaction is atomic and serialisable; interleaving is at the
      granularity of transactions.  Swaps are verified under interleaving,
      melts and mints for sequences of whole requests, apart from the
      interleaved melts of [MeltRuns.v].
    - A fault means that the call had no effect; a commit that takes effect
      and reports an error is not modelled.
    - The rollback task of a dropped proof writer runs right after its
      handler, except in [late_rollback_frees_inputs_of_paid_melt], where it
      runs later.
    - Rows come in the enumeration order of the map where a query has no
      [ORDER BY].
    - Calls of the web page do not overlap; a copy of the wallet that lives
      across calls is treated in [old_copy_overwrites].
    - The number of blank outputs is computed in floating point by the code;
      [blank_count] is the exact logarithm, with which it agrees for amounts up
      to 2^48.
    - The calls of a wallet to its store and to the mint do not overlap with
      those of another wallet on the same store.
    - The authentication database is the one of SQLite, where a failed
      statement leaves the transaction open; on PostgreSQL the calls after it
      fail too.  An answer leaves the cache between requests, at any time.
    - The tasks that the multi-mint wallet starts together run one after the
      other, in any order; the notices of a subscription are an input.  Its
      authentication settings and the stream of a mint quote are left out.
    - The two transactions with which a failed swap is compensated are one step of
      the interleaving in [SwapConcurrency.v].
    - [PublicKey::verify] checks a signature under the x-coordinate of the key;
      that conversion is part of the parameter [verify_schnorr].
    - A redb transaction is atomic and reads see the snapshot they opened.
    - The handlers of the mint record which notifications they send; how these
      are delivered is the subject of [PubSub.v] and [Remote.v], for any topics
      and events.  Waiting calls of the pool wake at any time.
    - Not modelled: the contents of notifications, waiting for a payment over
      Nostr, routing and the JSON of web sockets, the conversion of values of
      the database drivers, the lightning backends, the configuration besides
      that of authentication and of databases, bindings and metrics.  Of the
      checker, the operations that only call the wallet library. *)
From Stdlib Require Import Ascii DecimalString DecimalN DecimalPos.
From stdpp Require Import base numbers list sorting strings gmap.

Local Open Scope N_scope.

(** ** Outcomes

    A Rust call returns [Ok], returns [Err], or panics ([unwrap] on an error,
    a slice index out of range, an arithmetic [expect]).  Panics are kept
    apart from errors because the callers can recover only from the latter. *)

Inductive res (E A : Type) : Type :=
| Ok (a : A)
| Err (e : E)
| Panic.
Arguments Ok {E A} a.
Arguments Err {E A} e.
Arguments Panic {E A}.

Declare Scope res_scope.
Delimit Scope res_scope with res.

(** The [?] operator of Rust: continue on [Ok], return early otherwise. *)
Notation "'let?' x := c 'in' k" :=
  (match c with Ok x => k | Err e => Err e | Panic => Panic end)
  (at level 10, x pattern, c at level 100, k at level 200, only parsing) : res_scope.

Definition ok_or {E A} (e : E) (o : option A) : res E A :=
  match o with Some a => Ok a | None => Err e end.

Definition map_err {E F A} (f : E -> F) (r : res E A) : res F A :=
  match r with Ok a => Ok a | Err e => Err (f e) | Panic => Panic end.

(** [Result::ok]: an error becomes [None]; a panic is still a panic. *)
Definition res_ok {E F A} (r : res E A) : res F (option A) :=
  match r with Ok a => Ok (Some a) | Err _ => Ok None | Panic => Panic end.

(** [Result::unwrap]. *)
Definition unwrap {E F A} (r : res E A) : res F A :=
  match r with Ok a => Ok a | Err _ => Panic | Panic => Panic end.

(** [Option::expect] and [Option::unwrap]. *)
Definition expect {E A} (o : option A) : res E A :=
  match o with Some a => Ok a | None => Panic end.

(** [ensure_cdk!(cond, err)]. *)
Definition ensure {E} (b : bool) (e : E) : res E unit :=
  if b then Ok tt else Err e.

(** [iter.map(f).collect::<Result<Vec<_>, _>>()]: stops at the first error. *)
Fixpoint collect {E A B} (f : A -> res E B) (l : list A) : res E (list B) :=
  match l with
  | [] => Ok []
  | x :: l' =>
      match f x with
      | Ok y => match collect f l' with
                | Ok ys => Ok (y :: ys) | Err e => Err e | Panic => Panic end
      | Err e => Err e
      | Panic => Panic
      end
  end.

(** ** Machine integers

    A [u64] is an [N] together with the range checks the code performs.  The
    arithmetic traits of Rust are written out: [checked_*] returns [None] out
    of range, the plain operators of a release build wrap modulo 2^64. *)

Definition U64_MAX : N := 18446744073709551615.
Definition I64_MAX : N := 9223372036854775807.

Definition u64 (n : N) : Prop := n <= U64_MAX.

Definition u64_checked_add (a b : N) : option N :=
  if a + b <=? U64_MAX then Some (a + b) else None.
Definition u64_checked_sub (a b : N) : option N :=
  if b <=? a then Some (a - b) else None.
Definition u64_checked_mul (a b : N) : option N :=
  if a * b <=? U64_MAX then Some (a * b) else None.
Definition u64_checked_div (a b : N) : option N :=
  if b =? 0 then None else Some (a / b).
Definition u64_wrapping_mul (a b : N) : N := (a * b) mod (U64_MAX + 1).
(** [u64::div_ceil]. *)
Definition div_ceil (a b : N) : N := (a + (b - 1)) / b.

(** [u64::to_string] and [str::parse::<u64>]: decimal digits, an optional
    leading plus sign, at least one digit, and the range check. *)
Definition u64_to_string (n : N) : string := NilZero.string_of_uint (N.to_uint n).

Definition u64_parse (s : string) : option N :=
  let digits := match s with String "+"%char s' => s' | _ => s end in
  match digits with
  | EmptyString => None
  | _ => match NilEmpty.uint_of_string digits with
         | Some d => if N.of_uint d <=? U64_MAX then Some (N.of_uint d) else None
         | None => None
         end
  end.

(** [str::to_uppercase] on the ASCII range. *)
Definition ascii_upper (a : ascii) : ascii :=
  let n := N_of_ascii a in
  if (97 <=? n) && (n <=? 122) then ascii_of_N (n - 32) else a.
Fixpoint to_uppercase (s : string) : string :=
  match s with EmptyString => EmptyString | String a s' => String (ascii_upper a) (to_uppercase s') end.

(** [str::to_lowercase] on the ASCII range. *)
Definition ascii_lower (a : ascii) : ascii :=
  let n := N_of_ascii a in
  if (65 <=? n) && (n <=? 90) then ascii_of_N (n + 32) else a.
Fixpoint to_lowercase (s : string) : string :=
  match s with EmptyString => EmptyString | String a s' => String (ascii_lower a) (to_lowercase s') end.

(** ** Sums *)

Definition sumN (l : list N) : N := foldr N.add 0 l.

(** ** State-passing computations

    [M S E A] is a computation over a store [S] that may fail: the store is
    returned in every outcome, so what a failing call leaves behind is part of
    the model. *)

Definition M (S E A : Type) : Type := S -> res E A * S.

Definition mret {S E A} (a : A) : M S E A := fun s => (Ok a, s).
Definition mfail {S E A} (e : E) : M S E A := fun s => (Err e, s).
Definition mpanic {S E A} : M S E A := fun s => (Panic, s).
Definition mlift {S E A} (r : res E A) : M S E A := fun s => (r, s).
Definition mgets {S E A} (f : S -> A) : M S E A := fun s => (Ok (f s), s).
Definition mmodify {S E} (f : S -> S) : M S E unit := fun s => (Ok tt, f s).
Definition mseq {S E A B} (c : M S E A) (k : A -> M S E B) : M S E B :=
  fun s => match c s with
           | (Ok a, s') => k a s'
           | (Err e, s') => (Err e, s')
           | (Panic, s') => (Panic, s')
           end.
Definition mmap_err {S E F A} (f : E -> F) (c : M S E A) : M S F A :=
  fun s => (map_err f (fst (c s)), snd (c s)).
(** [match call { Ok(..) => .., Err(..) => .. }]: the error is reified. *)
Definition mtry {S E F A} (c : M S E A) : M S F (A + E) :=
  fun s => match c s with
           | (Ok a, s') => (Ok (inl a), s')
           | (Err e, s') => (Ok (inr e), s')
           | (Panic, s') => (Panic, s')
           end.

Declare Scope mint_scope.
Delimit Scope mint_scope with mint.
Notation "'do' x <- c ; k" := (mseq c (fun x => k))
  (at level 10, x pattern, c at level 100, k at level 200) : mint_scope.
Notation "'do_' c ; k" := (mseq c (fun _ => k))
  (at level 10, c at level 100, k at level 200) : mint_scope.

(** A [for] loop over a list, stopping at the first error. *)
Fixpoint mfor {S E A} (f : A -> M S E unit) (l : list A) : M S E unit :=
  match l with
  | [] => mret tt
  | x :: l' => mseq (f x) (fun _ => mfor f l')
  end.

(** ** Proof automation *)

Create HintDb cdk discriminated.
Create Rewrite HintDb cdk.

(** Case analysis on the scrutinee of a [match] in a hypothesis. *)
Ltac case_in H :=
  match type of H with
  | context [match ?x with _ => _ end] =>
      lazymatch x with
      | context [match _ with _ => _ end] => fail
      | _ => let E := fresh "E" in destruct x eqn:E
      end
  end.

(** Split a hypothesis [run = result] along every early return of [run]. *)
Ltac inv_res H := repeat (case_in H; simplify_eq/=).

(** ** Shared lemmas *)

Lemma u64_checked_add_Some a b c :
  u64_checked_add a b = Some c <-> c = a + b /\ a + b <= U64_MAX.
Proof. unfold u64_checked_add. destruct (N.leb_spec (a + b) U64_MAX); (split; [intros; simplify_eq|intros [-> ?]]); (done || lia). Qed.

Lemma u64_checked_sub_Some a b c :
  u64_checked_sub a b = Some c <-> c = a - b /\ b <= a.
Proof. unfold u64_checked_sub. destruct (N.leb_spec b a); (split; [intros; simplify_eq|intros [-> ?]]); (done || lia). Qed.

Lemma u64_checked_mul_Some a b c :
  u64_checked_mul a b = Some c <-> c = a * b /\ a * b <= U64_MAX.
Proof. unfold u64_checked_mul. destruct (N.leb_spec (a * b) U64_MAX); (split; [intros; simplify_eq|intros [-> ?]]); (done || lia). Qed.

Lemma div_ceil_spec a b : 0 < b -> a <= div_ceil a b * b < a + b.
Proof.
  intros Hb. unfold div_ceil.
  pose proof (N.div_mod (a + (b - 1)) b ltac:(lia)).
  pose proof (N.mod_lt (a + (b - 1)) b ltac:(lia)).
  revert H H0. generalize ((a + (b - 1)) / b) ((a + (b - 1)) mod b). intros q r. nia.
Qed.

Lemma div_ceil_mono a a' b : 0 < b -> a <= a' -> div_ceil a b <= div_ceil a' b.
Proof. intros Hb Ha. unfold div_ceil. apply N.Div0.div_le_mono. lia. Qed.

Lemma sumN_app l1 l2 : sumN (l1 ++ l2) = sumN l1 + sumN l2.
Proof. unfold sumN. induction l1 as [|x l1 IH]; simpl; [done|]. rewrite IH. lia. Qed.

Lemma sumN_nil : sumN [] = 0.
Proof. done. Qed.

Lemma sumN_cons x l : sumN (x :: l) = x + sumN l.
Proof. done. Qed.

Lemma sumN_permutation l1 l2 : l1 ≡ₚ l2 -> sumN l1 = sumN l2.
Proof. unfold sumN. induction 1; simpl; lia. Qed.

#[export] Instance sumN_proper : Proper ((≡ₚ) ==> (=)) sumN.
Proof. exact sumN_permutation. Qed.

Lemma sumN_elem_of x l : x ∈ l -> x <= sumN l.
Proof.
  unfold sumN. induction 1 as [x l|x y l _ IH]; simpl; lia.
Qed.

Lemma collect_Ok {E A B} (f : A -> res E B) l ys :
  collect f l = Ok ys <-> Forall2 (fun x y => f x = Ok y) l ys.
Proof.
  split.
  - revert ys. induction l as [|x l IH]; intros ys H; simpl in H; simplify_eq; [constructor|].
    destruct (f x) eqn:Ef, (collect f l) eqn:Ec; simplify_eq. constructor; eauto.
  - induction 1 as [|x y l ys Hx _ IH]; simpl; [done|]. by rewrite Hx, IH.
Qed.

Lemma collect_length {E A B} (f : A -> res E B) l ys :
  collect f l = Ok ys -> length ys = length l.
Proof. intros H%collect_Ok. symmetry. by eapply Forall2_length. Qed.

Lemma collect_ext {E A B} (f g : A -> res E B) l :
  (forall x, x ∈ l -> f x = g x) -> collect f l = collect g l.
Proof.
  induction l as [|x l IH]; intros H; simpl; [done|].
  rewrite (H x) by set_solver. rewrite IH; [done|]. intros; apply H; set_solver.
Qed.

Lemma collect_pure {E A B} (f : A -> res E B) (g : A -> B) l :
  (forall x, x ∈ l -> f x = Ok (g x)) -> collect f l = Ok (map g l).
Proof.
  induction l as [|x l IH]; intros H; simpl; [done|].
  rewrite (H x) by set_solver. rewrite IH; [done|]. intros; apply H; set_solver.
Qed.

Lemma collect_app {E A B} (f : A -> res E B) l1 l2 :
  collect f (l1 ++ l2) =
  match collect f l1 with
  | Ok ys1 => match collect f l2 with Ok ys2 => Ok (ys1 ++ ys2) | Err e => Err e | Panic => Panic end
  | Err e => Err e | Panic => Panic
  end.
Proof.
  induction l1 as [|x l1 IH]; simpl; [by destruct (collect f l2)|].
  destruct (f x); [|done..]. rewrite IH.
  destruct (collect f l1), (collect f l2); done.
Qed.

Lemma filter_none {A} (P : A -> Prop) `{forall x, Decision (P x)} (l : list A) :
  (forall x, x ∈ l -> ~ P x) -> filter P l = [].
Proof.
  induction l as [|x l IH]; intros Hn; [done|]. rewrite filter_cons, decide_False by (apply Hn; set_solver).
  apply IH. intros; apply Hn; set_solver.
Qed.

Lemma filter_all {A} (P : A -> Prop) `{forall x, Decision (P x)} (l : list A) :
  (forall x, x ∈ l -> P x) -> filter P l = l.
Proof.
  induction l as [|x l IH]; intros Ha; [done|]. rewrite filter_cons, decide_True by (apply Ha; set_solver).
  f_equal. apply IH. intros y Hy. apply Ha. set_solver.
Qed.

Lemma NoDup_map_filter {A B} (f : A -> B) (P : A -> Prop) `{forall x, Decision (P x)} (l : list A) :
  NoDup (map f l) -> NoDup (map f (filter P l)).
Proof.
  induction l as [|x l IH]; [done|]. cbn [map]. rewrite NoDup_cons, filter_cons. intros [Hx Hl].
  case_decide; [|auto]. cbn [map]. apply NoDup_cons. split; [|auto]. intros Hin. apply Hx.
  apply list_elem_of_fmap in Hin as (z & -> & Hz). apply list_elem_of_filter in Hz as [_ Hz].
  by apply list_elem_of_fmap_2.
Qed.

Lemma size_list_to_set_le `{Countable K} (l : list K) : (size (list_to_set l : gset K) <= length l)%nat.
Proof.
  induction l as [|k l IH]; cbn; [by rewrite size_empty|]. rewrite size_union_alt, size_singleton.
  pose proof (subseteq_size (C:=gset K) (list_to_set l ∖ {[k]}) (list_to_set l) ltac:(set_solver)). lia.
Qed.

(** A list of keys counts as many entries as it has elements exactly when it
    has no repetition and every key is present. *)
Lemma size_list_to_set_NoDup `{Countable K} (ks : list K) :
  size (list_to_set ks : gset K) = length ks -> NoDup ks.
Proof.
  induction ks as [|k ks IH]; cbn; [constructor|]. intros Hs. pose proof (size_list_to_set_le ks).
  destruct (decide (k ∈ ks)) as [Hin|Hin].
  - rewrite subseteq_union_1_L in Hs by set_solver. lia.
  - rewrite size_union, size_singleton in Hs by set_solver. constructor; [done|]. apply IH. lia.
Qed.

Lemma keys_cover `{Countable K} {A} (m : gmap K A) (ks : list K) :
  (forall k, is_Some (m !! k) -> k ∈ ks) ->
  size m = length ks <-> NoDup ks /\ forall k, k ∈ ks -> is_Some (m !! k).
Proof.
  intros Hsub. rewrite <- size_dom. split.
  - intros Hs. assert (Hd : dom m ⊆ list_to_set ks).
    { intros k Hk. apply elem_of_list_to_set, Hsub. by apply elem_of_dom. }
    pose proof (subseteq_size _ _ Hd) as Hle.
    assert (Hn : NoDup ks).
    { apply size_list_to_set_NoDup, Nat.le_antisymm; [apply size_list_to_set_le|lia]. }
    split; [done|]. intros k Hk. apply elem_of_dom.
    rewrite (set_subseteq_size_eq (dom m) (list_to_set ks)); [by apply elem_of_list_to_set|done|].
    rewrite size_list_to_set by done. lia.
  - intros [Hn Hk]. rewrite <- (size_list_to_set (C:=gset K) ks) by done. f_equal. apply set_eq. intros k.
    rewrite elem_of_dom, elem_of_list_to_set. split; auto.
Qed.

Lemma elem_of_zip_map {A B K} (f : A -> K) (l : list A) (l' : list B) x y :
  (x, y) ∈ zip l l' -> (f x, y) ∈ zip (map f l) l'.
Proof.
  revert l'. induction l as [|z l IH]; intros [|z' l']; cbn; [by intros ?%not_elem_of_nil..|].
  rewrite !elem_of_cons. intros [[= -> ->]|Hin]; auto.
Qed.

Lemma lookup_zip_map {A B} `{Countable K} (f : A -> K) (l : list A) (l' : list B) x y :
  NoDup (map f l) -> length l = length l' -> (x, y) ∈ zip l l' ->
  (list_to_map (zip (map f l) l') : gmap K B) !! f x = Some y.
Proof.
  intros Hnd Hl Hin. apply elem_of_list_to_map_1; [|by apply elem_of_zip_map].
  rewrite fst_zip; [done|]. rewrite length_map. lia.
Qed.

Lemma Forall2_elem_of_zip {A B} (P : A -> B -> Prop) l l' x y : Forall2 P l l' -> (x, y) ∈ zip l l' -> P x y.
Proof.
  induction 1 as [|a b l l' Hab _ IH]; cbn; [by intros ?%not_elem_of_nil|].
  rewrite elem_of_cons. intros [[= -> ->]|Hin]; auto.
Qed.

Lemma string_app_nil_r (s : string) : (s ++ "")%string = s.
Proof. induction s as [|ch s IH]; [done|]. exact (f_equal (String ch) IH). Qed.

Lemma string_app_assoc (a b c : string) : ((a ++ b) ++ c)%string = (a ++ b ++ c)%string.
Proof. induction a as [|ch a IH]; [done|]. exact (f_equal (String ch) IH). Qed.

(** Two strings that start with words of the same length. *)
Lemma string_app_inj (a1 a2 b1 b2 : string) :
  String.length a1 = String.length a2 -> (a1 ++ b1)%string = (a2 ++ b2)%string -> a1 = a2 /\ b1 = b2.
Proof.
  revert a2. induction a1 as [|ch a1 IH]; intros [|ch' a2] Hl H; [done..|].
  unfold String.append in H; fold String.append in H. injection Hl as Hl. injection H as -> H.
  by destruct (IH a2 Hl H) as [-> ->].
Qed.

(** Printing a number in decimal and reading it back. *)
Lemma string_of_uint_cons (d : Decimal.uint) :
  d <> Decimal.Nil ->
  exists c s, NilEmpty.string_of_uint d = String c s /\ c <> "+"%char.
Proof. destruct d; try done; intros _; eexists _, _; (split; [reflexivity|done]). Qed.

Lemma u64_parse_to_string n : u64 n -> u64_parse (u64_to_string n) = Some n.
Proof.
  intros Hn. unfold u64_parse, u64_to_string.
  assert (Hne : N.to_uint n <> Decimal.Nil) by (destruct n as [|p]; [done|apply DecimalPos.Unsigned.to_uint_nonnil]).
  assert (Hs : NilZero.string_of_uint (N.to_uint n) = NilEmpty.string_of_uint (N.to_uint n))
    by (unfold NilZero.string_of_uint; by destruct (N.to_uint n)).
  rewrite Hs. destruct (string_of_uint_cons _ Hne) as (c & s & Heq & Hc).
  assert (Hd : (match String c s with String "+"%char s' => s' | _ => String c s end) = String c s).
  { destruct c as [[] [] [] [] [] [] [] []]; try done. }
  rewrite Heq, Hd. rewrite <- Heq, NilEmpty.usu, DecimalN.Unsigned.of_to.
  by rewrite (proj2 (N.leb_le n U64_MAX) Hn).
Qed.

Lemma u64_parse_u64 s n : u64_parse s = Some n -> u64 n.
Proof.
  unfold u64_parse. intros H. inv_res H; by apply N.leb_le.
Qed.

#[export] Hint Resolve u64_parse_u64 : cdk.

(** ** Counters

    [AtomicUsize::fetch_add] and [fetch_sub] by one wrap around. *)
Definition fetch_add (n : N) : N := (n + 1) mod (U64_MAX + 1).
Definition fetch_sub (n : N) : N := (n + U64_MAX) mod (U64_MAX + 1).

Lemma fetch_add_mod n : fetch_add (n mod (U64_MAX + 1)) = (n + 1) mod (U64_MAX + 1).
Proof. unfold fetch_add. by rewrite N.Div0.add_mod_idemp_l. Qed.
Lemma fetch_sub_mod n : fetch_sub ((n + 1) mod (U64_MAX + 1)) = n mod (U64_MAX + 1).
Proof.
  unfold fetch_sub. rewrite N.Div0.add_mod_idemp_l.
  replace (n + 1 + U64_MAX) with (n + 1 * (U64_MAX + 1)) by lia. apply N.Div0.mod_add.
Qed.

(** ** Sums over the values of a map *)

Section map_sum.
Context `{Countable K} {V : Type} (f : V -> N).
Implicit Types (m : gmap K V).

Definition map_sum (m : gmap K V) : N := map_fold (fun _ v n => f v + n) 0 m.

Lemma map_sum_insert m i v : m !! i = None -> map_sum (<[i := v]> m) = f v + map_sum m.
Proof. intros Hi. unfold map_sum. apply (map_fold_insert_L (fun _ v n => f v + n)); [intros; lia|done]. Qed.
Lemma map_sum_delete m i v : m !! i = Some v -> map_sum m = f v + map_sum (delete i m).
Proof. intros Hi. unfold map_sum. apply (map_fold_delete_L (fun _ v n => f v + n)); [intros; lia|done]. Qed.
Lemma map_sum_replace m i v w : m !! i = Some v -> map_sum (<[i := w]> m) + f v = map_sum m + f w.
Proof.
  intros Hi. rewrite <- insert_delete_eq, map_sum_insert by apply lookup_delete_eq. rewrite (map_sum_delete m i v Hi). lia.
Qed.
Lemma map_sum_same m i v w : m !! i = Some v -> f v = f w -> map_sum (<[i := w]> m) = map_sum m.
Proof. intros Hi E. pose proof (map_sum_replace m i v w Hi). lia. Qed.
Lemma map_sum_new m i v : m !! i = None -> f v = 0 -> map_sum (<[i := v]> m) = map_sum m.
Proof. intros Hi E. rewrite map_sum_insert by done. lia. Qed.
End map_sum.

Lemma map_sum_plus `{Countable K} {V} (f g h : V -> N) (m : gmap K V) :
  (forall v, h v = f v + g v) -> map_sum h m = map_sum f m + map_sum g m.
Proof.
  intros Hh. induction m as [|i v m Hi IH] using map_ind; [done|]. rewrite !map_sum_insert by done. rewrite Hh. lia.
Qed.
