(* ===== verification/Amount.v ===== *)
(** * Amounts (crates/cashu/src/amount.rs)

    [Amount] wraps a [u64]: checked arithmetic, overflow-checked sums, the
    decomposition of an amount into the denominations of a keyset ([split],
    [split_targeted], [split_with_fee]) and conversion between units. *)
From stdpp Require Import base numbers list sorting strings gmap.
From S2P Require Import Prelude.

Local Open Scope N_scope.
Local Open Scope res_scope.

Module Amount.

Inductive Error :=
| SplitValuesGreater
| AmountOverflow
| CannotConvertUnits
| InvalidAmount (s : string)
| AmountUndefined.

#[global] Instance Error_eq_dec : EqDecision Error.
Proof. solve_decision. Defined.

(** The currency units of crates/cashu/src/nuts/nut00/mod.rs. *)
Inductive CurrencyUnit :=
| Sat | Msat | Usd | Eur | Auth
| Custom (name : string).

#[global] Instance CurrencyUnit_eq_dec : EqDecision CurrencyUnit.
Proof. solve_decision. Defined.

#[global] Instance CurrencyUnit_countable : Countable CurrencyUnit.
Proof.
  refine (inj_countable'
    (fun u => match u with
              | Sat => inl 0%nat | Msat => inl 1%nat | Usd => inl 2%nat
              | Eur => inl 3%nat | Auth => inl 4%nat | Custom s => inr s end)
    (fun c : nat + string => match c with
              | inl 0%nat => Sat | inl 1%nat => Msat | inl 2%nat => Usd
              | inl 3%nat => Eur | inl _ => Auth | inr s => Custom s end) _).
  by intros [].
Defined.

Record FeeAndAmounts := mkFeeAndAmounts { fee : N; amounts : list N }.

Inductive SplitTarget :=
| STNone
| STValue (amount : N)
| STValues (values : list N).

Definition ZERO : N := 0.
Definition ONE : N := 1.

Definition from_str (s : string) : res Error N := ok_or (InvalidAmount s) (u64_parse s).

Definition checked_add (self other : N) : option N := u64_checked_add self other.
Definition checked_sub (self other : N) : option N := u64_checked_sub self other.
Definition checked_mul (self other : N) : option N := u64_checked_mul self other.
Definition checked_div (self other : N) : option N := u64_checked_div self other.

(** The arithmetic operators panic out of range. *)
Definition add (self rhs : N) : res Error N := expect (checked_add self rhs).
Definition sub (self rhs : N) : res Error N := expect (checked_sub self rhs).
Definition mul (self rhs : N) : res Error N := expect (checked_mul self rhs).
Definition div (self rhs : N) : res Error N := expect (checked_div self rhs).

Definition to_i64 (self : N) : option N := if self <=? I64_MAX then Some self else None.
Definition from_i64 (value : Z) : option N := if (0 <=? value)%Z then Some (Z.to_N value) else None.

Fixpoint try_fold_add (acc : N) (l : list N) : res Error N :=
  match l with
  | [] => Ok acc
  | x :: l' => let? acc' := ok_or AmountOverflow (checked_add acc x) in try_fold_add acc' l'
  end.

Definition try_sum (l : list N) : res Error N := try_fold_add ZERO l.

(** One step of the fold of [split]; [total % amount] panics on zero. *)
Definition split_step (st : res Error (list N * N)) (amount : N) : res Error (list N * N) :=
  let? (acc, total) := st in
  let acc' := if amount <=? total then acc ++ [amount] else acc in
  if amount =? 0 then Panic else Ok (acc', total mod amount).

Definition split (self : N) (fa : FeeAndAmounts) : res Error (list N) :=
  let? (acc, _) := fold_left split_step (rev (amounts fa)) (Ok ([], self)) in Ok acc.

(** The [for part in parts_of_value] loop of [split_targeted]. *)
Fixpoint split_value_for (self : N) (fa : FeeAndAmounts) (parts_of_value : list N)
    (parts : list N) (parts_total : N) : res Error (list N * N) :=
  match parts_of_value with
  | [] => Ok (parts, parts_total)
  | part :: rest =>
      let? s := add part parts_total in
      let? parts' :=
        (if s <=? self then Ok (parts ++ [part])
         else let? amount_left := sub self parts_total in
              let? left_parts := split amount_left fa in
              Ok (parts ++ left_parts)) in
      let? parts_total' := try_sum parts' in
      if parts_total' =? self then Ok (parts', parts_total')
      else split_value_for self fa rest parts' parts_total'
  end.

(** The [while parts_total.lt(self)] loop; [None] when the fuel runs out. *)
Fixpoint split_value_while (fuel : nat) (self : N) (fa : FeeAndAmounts)
    (parts_of_value parts : list N) (parts_total : N) : option (res Error (list N)) :=
  if self <=? parts_total then Some (Ok parts)
  else match fuel with
       | O => None
       | S fuel' =>
           match split_value_for self fa parts_of_value parts parts_total with
           | Ok (parts', parts_total') =>
               split_value_while fuel' self fa parts_of_value parts' parts_total'
           | Err e => Some (Err e)
           | Panic => Some Panic
           end
       end.

Definition sort_amounts (parts : list N) : list N := merge_sort N.le parts.

Definition split_targeted (fuel : nat) (self : N) (target : SplitTarget) (fa : FeeAndAmounts)
    : option (res Error (list N)) :=
  match target with
  | STNone => Some (let? parts := split self fa in Ok (sort_amounts parts))
  | STValue amount =>
      if self <=? amount then Some (split self fa)
      else match split amount fa with
           | Ok parts_of_value =>
               match split_value_while fuel self fa parts_of_value [] ZERO with
               | Some (Ok parts) => Some (Ok (sort_amounts parts))
               | r => r
               end
           | Err e => Some (Err e)
           | Panic => Some Panic
           end
  | STValues values =>
      Some (let? values_total := try_sum values in
            match self ?= values_total with
            | Eq => Ok (sort_amounts values)
            | Lt => Err SplitValuesGreater
            | Gt => let? extra := sub self values_total in
                    let? extra_amount := split extra fa in
                    Ok (sort_amounts (values ++ extra_amount))
            end)
  end.

(** One round of [split_with_fee]: [Some parts] to return, [None] to retry
    with the next amount. *)
Definition split_with_fee_round (self : N) (fa : FeeAndAmounts) : res Error (option (list N)) :=
  let? without_fee_amounts := split self fa in
  let? total_fee_ppk :=
    ok_or AmountOverflow (u64_checked_mul (fee fa) (N.of_nat (length without_fee_amounts))) in
  let fee_amount := div_ceil total_fee_ppk 1000 in
  let? new_amount := ok_or AmountOverflow (checked_add self fee_amount) in
  let? split_parts := split new_amount fa in
  let? split_fee_ppk :=
    ok_or AmountOverflow (u64_checked_mul (N.of_nat (length split_parts)) (fee fa)) in
  let split_fee := div_ceil split_fee_ppk 1000 in
  match checked_sub new_amount split_fee with
  | Some net_amount => if self <=? net_amount then Ok (Some split_parts) else Ok None
  | None => Ok None
  end.

Fixpoint split_with_fee (fuel : nat) (self : N) (fa : FeeAndAmounts) : option (res Error (list N)) :=
  match split_with_fee_round self fa with
  | Ok (Some parts) => Some (Ok parts)
  | Ok None =>
      match checked_add self ONE with
      | None => Some (Err AmountOverflow)
      | Some next => match fuel with O => None | S fuel' => split_with_fee fuel' next fa end
      end
  | Err e => Some (Err e)
  | Panic => Some Panic
  end.

Definition MSAT_IN_SAT : N := 1000.

Definition to_unit (amount : N) (current_unit target_unit : CurrencyUnit) : res Error N :=
  match current_unit, target_unit with
  | Sat, Sat => Ok amount
  | Msat, Msat => Ok amount
  | Sat, Msat => ok_or AmountOverflow (u64_checked_mul amount MSAT_IN_SAT)
  | Msat, Sat => Ok (amount / MSAT_IN_SAT)
  | Usd, Usd => Ok amount
  | Eur, Eur => Ok amount
  | _, _ => Err CannotConvertUnits
  end.

Definition convert_unit (self : N) (current_unit target_unit : CurrencyUnit) : res Error N :=
  to_unit self current_unit target_unit.

(** The denominations [2^0 .. 2^(k-1)] of a keyset of [k] keys. *)
Definition pow2_amounts (k : nat) : list N := map (fun i => 2 ^ N.of_nat i) (seq 0 k).

(** ** Sums *)

Lemma try_fold_add_spec l acc :
  acc <= U64_MAX ->
  try_fold_add acc l =
  if acc + sumN l <=? U64_MAX then Ok (acc + sumN l) else Err AmountOverflow.
Proof.
  unfold sumN. revert acc. induction l as [|x l IH]; intros acc Hacc; simpl.
  - rewrite N.add_0_r. by rewrite (proj2 (N.leb_le _ _) Hacc).
  - unfold checked_add, u64_checked_add.
    destruct (N.leb_spec (acc + x) U64_MAX); simpl.
    + rewrite IH by done. by rewrite N.add_assoc.
    + destruct (N.leb_spec (acc + (x + foldr N.add 0 l)) U64_MAX); [lia|done].
Qed.

Lemma try_sum_Ok l s : try_sum l = Ok s <-> s = sumN l /\ sumN l <= U64_MAX.
Proof.
  unfold try_sum. rewrite try_fold_add_spec by (unfold ZERO, U64_MAX; lia).
  unfold ZERO. rewrite N.add_0_l. destruct (N.leb_spec (sumN l) U64_MAX); naive_solver lia.
Qed.

(** ** Greedy decomposition: the reference the fold of [split] computes *)

Fixpoint greedy (denoms : list N) (total : N) : list N :=
  match denoms with
  | [] => []
  | a :: ds => (if a <=? total then [a] else []) ++ greedy ds (total mod a)
  end.

Lemma fold_split_step ds acc total :
  Forall (fun a => 0 < a) ds ->
  exists rest, fold_left split_step ds (Ok (acc, total)) = Ok (acc ++ greedy ds total, rest).
Proof.
  intros H. revert acc total. induction H as [|a ds Ha _ IH]; intros acc total; simpl.
  - eexists. by rewrite app_nil_r.
  - destruct (N.eqb_spec a 0); [lia|].
    edestruct IH as [rest Hr]. exists rest. rewrite Hr.
    destruct (a <=? total); simpl; by rewrite <- ?app_assoc.
Qed.

Lemma split_greedy n fa :
  Forall (fun a => 0 < a) (amounts fa) -> split n fa = Ok (greedy (rev (amounts fa)) n).
Proof.
  intros H. unfold split.
  destruct (fold_split_step (rev (amounts fa)) [] n) as [rest ->]; [|done].
  by apply Forall_rev.
Qed.

Lemma greedy_sum_le ds n : Forall (fun a => 0 < a) ds -> sumN (greedy ds n) <= n.
Proof.
  intros H. revert n. induction H as [|a ds Ha _ IH]; intros n; simpl; [unfold sumN; simpl; lia|].
  rewrite sumN_app. specialize (IH (n mod a)).
  destruct (N.leb_spec a n); unfold sumN at 1; simpl.
  - pose proof (N.div_mod n a ltac:(lia)) as Hdm.
    assert (1 <= n / a) by (apply N.div_le_lower_bound; lia). nia.
  - rewrite N.mod_small in IH |- * by lia. lia.
Qed.

Lemma fold_split_step_Panic ds : fold_left split_step ds Panic = Panic.
Proof. by induction ds. Qed.

Lemma fold_split_step_pos ds st r : fold_left split_step ds (Ok st) = Ok r -> Forall (fun a => 0 < a) ds.
Proof.
  revert st. induction ds as [|d ds IH]; intros [acc t]; cbn [fold_left split_step]; [constructor|].
  destruct (N.eqb_spec d 0); [by rewrite fold_split_step_Panic|]. intros H%IH. constructor; [lia|done].
Qed.

(** Whatever the denominations, a split that returns does not exceed the amount. *)
Lemma split_Ok_le n fa parts : split n fa = Ok parts -> sumN parts <= n.
Proof.
  intros H. assert (Hpos : Forall (fun a => 0 < a) (rev (amounts fa))).
  { unfold split in H. destruct (fold_left _ _ _) as [r| |] eqn:E; [|done..]. by eapply fold_split_step_pos. }
  rewrite split_greedy in H by (by rewrite <- (rev_involutive (amounts fa)); apply Forall_rev).
  injection H as <-. by apply greedy_sum_le.
Qed.

Lemma greedy_subset ds n x : x ∈ greedy ds n -> x ∈ ds.
Proof.
  revert n. induction ds as [|a ds IH]; intros n; simpl; [done|].
  intros [H|H]%elem_of_app; [destruct (a <=? n); set_solver|]. apply IH in H. set_solver.
Qed.

Lemma greedy_zero ds : Forall (fun a => 0 < a) ds -> greedy ds 0 = [].
Proof.
  induction 1 as [|a ds Ha _ IH]; simpl; [done|].
  destruct (N.leb_spec a 0); [lia|]. by rewrite N.Div0.mod_0_l.
Qed.

Lemma greedy_pos ds n x : Forall (fun a => 0 < a) ds -> x ∈ greedy ds n -> 0 < x.
Proof. intros H Hx%greedy_subset. by eapply (proj1 (Forall_forall _ _) H). Qed.

(** ** Powers of two *)

Lemma rev_pow2_amounts_S k :
  rev (pow2_amounts (S k)) = 2 ^ N.of_nat k :: rev (pow2_amounts k).
Proof. unfold pow2_amounts. by rewrite seq_S, map_app, rev_app_distr. Qed.

Lemma pow2_amounts_pos k : Forall (fun a => 0 < a) (pow2_amounts k).
Proof.
  unfold pow2_amounts. apply Forall_map, Forall_forall. intros i _; simpl.
  apply N.neq_0_lt_0, N.pow_nonzero. lia.
Qed.

Lemma pow2_amounts_lt k x : x ∈ rev (pow2_amounts k) -> x < 2 ^ N.of_nat k.
Proof.
  rewrite list_elem_of_In, <- in_rev. unfold pow2_amounts.
  intros (i & <- & Hi%in_seq)%in_map_iff. apply N.pow_lt_mono_r; lia.
Qed.

Lemma pow2_S k : 2 ^ N.of_nat (S k) = 2 * 2 ^ N.of_nat k.
Proof. rewrite Nat2N.inj_succ. apply N.pow_succ_r'. Qed.

Lemma greedy_pow2_sum k n :
  n < 2 ^ N.of_nat k -> sumN (greedy (rev (pow2_amounts k)) n) = n.
Proof.
  revert n. induction k as [|k IH]; intros n Hn.
  - simpl in *. unfold sumN; simpl. lia.
  - rewrite rev_pow2_amounts_S. simpl. rewrite sumN_app.
    rewrite pow2_S in Hn.
    assert (0 < 2 ^ N.of_nat k) by (apply N.neq_0_lt_0, N.pow_nonzero; lia).
    rewrite IH by (apply N.mod_lt; lia).
    destruct (N.leb_spec (2 ^ N.of_nat k) n); unfold sumN; simpl.
    + replace n with (n - 2 ^ N.of_nat k + 1 * 2 ^ N.of_nat k) at 1 by lia.
      rewrite N.Div0.mod_add, N.mod_small by lia. lia.
    + rewrite N.mod_small; lia.
Qed.

Lemma greedy_pow2_sum_lt k n : sumN (greedy (rev (pow2_amounts k)) n) < 2 ^ N.of_nat k.
Proof.
  revert n. induction k as [|k IH]; intros n; [unfold sumN; simpl; lia|].
  rewrite rev_pow2_amounts_S, pow2_S. simpl. rewrite sumN_app.
  specialize (IH (n mod 2 ^ N.of_nat k)).
  destruct (2 ^ N.of_nat k <=? n); unfold sumN at 1; simpl; lia.
Qed.

Lemma greedy_pow2_sorted k n : StronglySorted N.gt (greedy (rev (pow2_amounts k)) n).
Proof.
  revert n. induction k as [|k IH]; intros n; [constructor|].
  rewrite rev_pow2_amounts_S. simpl.
  destruct (2 ^ N.of_nat k <=? n); simpl; [|apply IH].
  constructor; [apply IH|]. apply Forall_forall. intros x Hx%greedy_subset%pow2_amounts_lt. lia.
Qed.

(** ** Targeted splits *)

Lemma sort_amounts_sum l : sumN (sort_amounts l) = sumN l.
Proof. unfold sort_amounts. by rewrite merge_sort_Permutation. Qed.

Section value_loop.
Context (k : nat) (ppk self : N) (pv : list N).
Hypothesis Hk : (k <= 63)%nat.
Hypothesis Hself : self < 2 ^ N.of_nat k.
Hypothesis Hpv : Forall (fun p => 0 < p <= self) pv.

Let fa : FeeAndAmounts := mkFeeAndAmounts ppk (pow2_amounts k).

Lemma self_bound : 2 * self <= U64_MAX.
Proof.
  assert (2 ^ N.of_nat k <= 2 ^ 63) by (apply N.pow_le_mono_r; lia).
  change (2 ^ 63) with 9223372036854775808 in H. unfold U64_MAX. lia.
Qed.

(** One pass of the [for] loop keeps the running total equal to the sum of
    the parts and at most [self], and a non-empty pass makes progress. *)
Lemma split_value_for_progress l parts :
  Forall (fun p => 0 < p <= self) l -> sumN parts < self ->
  exists parts',
    split_value_for self fa l parts (sumN parts) = Ok (parts', sumN parts') /\
    sumN parts' <= self /\ sumN parts <= sumN parts' /\ (l <> [] -> sumN parts < sumN parts').
Proof.
  intros Hl. revert parts. induction Hl as [|p l [Hp Hps] Hl IH]; intros parts Hlt; simpl.
  - exists parts. repeat split; try lia. done.
  - pose proof self_bound. unfold add, checked_add, u64_checked_add.
    destruct (N.leb_spec (p + sumN parts) U64_MAX); [|lia]. simpl.
    set (r := if p + sumN parts <=? self then _ else _).
    assert (exists parts1, r = Ok parts1 /\ sumN parts1 <= self /\ sumN parts < sumN parts1)
      as (parts1 & Hr & Hle & Hgt).
    { subst r. destruct (N.leb_spec (p + sumN parts) self) as [Hle|Hgt].
      - eexists. split; [done|]. rewrite sumN_app, sumN_cons, sumN_nil. lia.
      - unfold sub, checked_sub, u64_checked_sub.
        destruct (N.leb_spec (sumN parts) self); [|lia]. simpl.
        rewrite split_greedy by apply pow2_amounts_pos. eexists. split; [done|].
        unfold fa; simpl. rewrite sumN_app, greedy_pow2_sum by lia. lia. }
    rewrite Hr, (proj2 (try_sum_Ok parts1 _)) by (split; [done|lia]).
    destruct (N.eqb_spec (sumN parts1) self) as [Heq|Hne].
    + exists parts1. repeat split; lia.
    + destruct (IH parts1) as (parts2 & -> & ? & ? & _); [lia|].
      exists parts2. repeat split; lia.
Qed.

Lemma split_value_while_exact fuel parts :
  pv <> [] -> sumN parts <= self -> self - sumN parts <= N.of_nat fuel ->
  exists parts', split_value_while fuel self fa pv parts (sumN parts) = Some (Ok parts') /\
                 sumN parts' = self.
Proof.
  intros Hne. revert parts. induction fuel as [|fuel IH]; intros parts Hle Hf; simpl.
  - destruct (N.leb_spec self (sumN parts)); [|lia]. exists parts. split; [done|lia].
  - destruct (N.leb_spec self (sumN parts)); [exists parts; split; [done|lia]|].
    destruct (split_value_for_progress pv parts) as (parts1 & -> & ? & ? & Hp); [done|lia|].
    apply IH; [lia|]. specialize (Hp Hne). lia.
Qed.
End value_loop.

Lemma split_value_parts k v self :
  0 < v -> v < self -> self < 2 ^ N.of_nat k ->
  greedy (rev (pow2_amounts k)) v <> [] /\
  Forall (fun p => 0 < p <= self) (greedy (rev (pow2_amounts k)) v).
Proof.
  intros Hv Hvs Hs. pose proof (greedy_pow2_sum k v ltac:(lia)) as Hsum. split.
  - intros Hnil. rewrite Hnil in Hsum. unfold sumN in Hsum; simpl in Hsum. lia.
  - apply Forall_forall. intros p Hp. split.
    + eapply greedy_pos; [|done]. apply Forall_rev, pow2_amounts_pos.
    + apply sumN_elem_of in Hp. lia.
Qed.

(** ** Fee-aware splits *)

Lemma split_with_fee_round_no_panic self fa :
  Forall (fun a => 0 < a) (amounts fa) -> split_with_fee_round self fa <> Panic.
Proof.
  intros Hpos. unfold split_with_fee_round. rewrite split_greedy by done. simpl.
  destruct (u64_checked_mul _ _); simpl; [|done].
  destruct (checked_add _ _); simpl; [|done]. rewrite split_greedy by done. simpl.
  destruct (u64_checked_mul _ _); simpl; [|done].
  destruct (checked_sub _ _); simpl; [|done]. by destruct (self <=? _).
Qed.

Lemma split_with_fee_round_Some self fa parts :
  split_with_fee_round self fa = Ok (Some parts) ->
  exists m, split m fa = Ok parts /\ m <= U64_MAX /\
            self + div_ceil (N.of_nat (length parts) * fee fa) 1000 <= m.
Proof.
  unfold split_with_fee_round. intros H.
  destruct (split self fa) as [l| |]; simpl in H; simplify_eq.
  destruct (u64_checked_mul (fee fa) _) as [x|]; simpl in H; simplify_eq.
  destruct (checked_add self _) as [m|] eqn:Hadd; simpl in H; simplify_eq.
  destruct (split m fa) as [l2| |] eqn:Hs; simpl in H; simplify_eq.
  destruct (u64_checked_mul (N.of_nat _) _) as [y|] eqn:Hm; simpl in H; simplify_eq.
  destruct (checked_sub m _) as [net|] eqn:Hsub; simplify_eq.
  destruct (N.leb_spec self net); simplify_eq.
  apply u64_checked_add_Some in Hadd as [-> ?].
  apply u64_checked_mul_Some in Hm as [-> ?].
  apply u64_checked_sub_Some in Hsub as [-> ?].
  eexists. split; [exact Hs|]. split; [done|]. lia.
Qed.

Lemma split_with_fee_Ok fuel self fa parts :
  split_with_fee fuel self fa = Some (Ok parts) ->
  exists m, split m fa = Ok parts /\ m <= U64_MAX /\
            self + div_ceil (N.of_nat (length parts) * fee fa) 1000 <= m.
Proof.
  revert self. induction fuel as [|fuel IH]; intros self; simpl;
    destruct (split_with_fee_round self fa) as [[l|]| |] eqn:Hr; intros H; simplify_eq;
    eauto using split_with_fee_round_Some.
  - by destruct (checked_add self ONE).
  - destruct (checked_add self ONE) as [next|] eqn:Ha; simplify_eq.
    apply IH in H as (m & ? & ? & ?). exists m. split; [done|]. split; [done|].
    apply u64_checked_add_Some in Ha as [-> _]. lia.
Qed.

(** ** Properties *)

(** [Amount::try_sum] is the exact sum when it fits in a [u64] and the
    overflow error otherwise; in particular it does not depend on the order
    of the addends. *)
Theorem try_sum_exact l :
  try_sum l = if sumN l <=? U64_MAX then Ok (sumN l) else Err AmountOverflow.
Proof. unfold try_sum. rewrite try_fold_add_spec; [done|]. unfold ZERO, U64_MAX. lia. Qed.

(** Over the denominations [1, 2, .., 2^(k-1)] of a keyset, [Amount::split]
    returns strictly decreasing denominations of the keyset whose sum is the
    amount exactly when the amount is below [2^k]: a larger amount is split
    into parts that add up to less than it. *)
Theorem split_pow2_exact k ppk n :
  exists parts,
    split n (mkFeeAndAmounts ppk (pow2_amounts k)) = Ok parts /\
    (sumN parts = n <-> n < 2 ^ N.of_nat k) /\
    StronglySorted N.gt parts /\
    (forall p, p ∈ parts -> p ∈ pow2_amounts k).
Proof.
  exists (greedy (rev (pow2_amounts k)) n). rewrite split_greedy by apply pow2_amounts_pos.
  split; [done|]. split; [|split].
  - split; [intros <-; apply greedy_pow2_sum_lt|apply greedy_pow2_sum].
  - apply greedy_pow2_sorted.
  - intros p Hp%greedy_subset. simpl in Hp. by rewrite list_elem_of_In, <- in_rev, <- list_elem_of_In in Hp.
Qed.

(** For every keyset without a zero denomination, [Amount::split] does not
    panic and never creates value: the parts add up to at most the amount. *)
Theorem split_no_inflation n fa (Hpos : Forall (fun a => 0 < a) (amounts fa)) :
  exists parts, split n fa = Ok parts /\ sumN parts <= n.
Proof.
  eexists. split; [by apply split_greedy|]. by apply greedy_sum_le, Forall_rev.
Qed.

Lemma split_no_inflation_witness :
  exists parts, split 1000 (mkFeeAndAmounts 0 [1; 10; 100]) = Ok parts /\ sumN parts <= 1000.
Proof. apply split_no_inflation. simpl. repeat constructor. Defined.

(** [Amount::split_targeted] terminates (within [self] rounds of its
    [while] loop) and returns parts that add up to exactly the amount, for
    each kind of target, over power-of-two denominations above the amount. *)
Theorem split_targeted_exact k ppk self target
    (Hk : (k <= 63)%nat) (Hself : self < 2 ^ N.of_nat k)
    (Hvalue : forall v, target = STValue v -> 0 < v)
    (Hvalues : forall vs, target = STValues vs -> sumN vs <= self) :
  exists parts,
    split_targeted (N.to_nat self) self target (mkFeeAndAmounts ppk (pow2_amounts k)) = Some (Ok parts) /\
    sumN parts = self.
Proof.
  pose proof (self_bound k self Hk Hself) as Hb.
  destruct target as [|v|vs]; simpl.
  - rewrite split_greedy by apply pow2_amounts_pos. eexists. split; [done|].
    rewrite sort_amounts_sum. by apply greedy_pow2_sum.
  - specialize (Hvalue v eq_refl). destruct (N.leb_spec self v).
    + rewrite split_greedy by apply pow2_amounts_pos. eexists. split; [done|].
      by apply greedy_pow2_sum.
    + rewrite split_greedy by apply pow2_amounts_pos. simpl.
      destruct (split_value_parts k v self) as [Hne Hall]; [lia..|].
      destruct (split_value_while_exact k ppk self _ Hk Hself Hall (N.to_nat self) []) as (parts & Hw & Hs);
        [done|unfold sumN; simpl; lia..|].
      unfold ZERO. simpl in Hw. rewrite Hw. eexists. split; [done|]. by rewrite sort_amounts_sum.
  - specialize (Hvalues vs eq_refl).
    rewrite (proj2 (try_sum_Ok vs _)) by (split; [done|lia]).
    destruct (N.compare_spec self (sumN vs)) as [Heq|Hlt|Hgt]; [|lia|].
    + eexists. split; [done|]. by rewrite sort_amounts_sum.
    + unfold sub, checked_sub, u64_checked_sub.
      destruct (N.leb_spec (sumN vs) self); [|lia]. simpl.
      rewrite split_greedy by apply pow2_amounts_pos. eexists. split; [done|].
      simpl. rewrite sort_amounts_sum, sumN_app, greedy_pow2_sum by lia. lia.
Qed.

Lemma split_targeted_exact_witness :
  exists parts,
    split_targeted (N.to_nat 64) 64 (STValue 50) (mkFeeAndAmounts 0 (pow2_amounts 32)) = Some (Ok parts) /\
    sumN parts = 64.
Proof. apply split_targeted_exact; [lia|reflexivity|intros v [= <-]; lia|done]. Defined.

(** A target value of zero makes the [while] loop of
    [Amount::split_targeted] spin for ever: no amount of fuel is enough. *)
Theorem split_targeted_zero_diverges fuel self fa
    (Hpos : Forall (fun a => 0 < a) (amounts fa)) (Hself : 0 < self) :
  split_targeted fuel self (STValue 0) fa = None.
Proof.
  simpl. destruct (N.leb_spec self 0); [lia|].
  rewrite split_greedy, greedy_zero by (done || by apply Forall_rev). simpl.
  assert (split_value_while fuel self fa [] [] ZERO = None) as ->; [|done].
  unfold ZERO. induction fuel as [|fuel IH]; simpl; destruct (N.leb_spec self 0); (lia || done).
Qed.

Lemma split_targeted_zero_diverges_witness :
  split_targeted 1000 5 (STValue 0) (mkFeeAndAmounts 0 (pow2_amounts 8)) = None.
Proof. apply split_targeted_zero_diverges; [apply pow2_amounts_pos|lia]. Defined.

(** [Amount::split_with_fee] terminates on every [u64] amount, and the
    parts it returns are the split of an amount [m] from which the swap fee of
    the parts can be paid with at least [self] left. *)
Theorem split_with_fee_covers self fa
    (Hpos : Forall (fun a => 0 < a) (amounts fa)) (Hself : u64 self) :
  exists r, split_with_fee (N.to_nat (U64_MAX - self)) self fa = Some r /\
    r <> Panic /\
    (forall parts, r = Ok parts ->
       exists m, split m fa = Ok parts /\ m <= U64_MAX /\
                 self + div_ceil (N.of_nat (length parts) * fee fa) 1000 <= m).
Proof.
  assert (Hterm : forall fuel n, u64 n -> U64_MAX - n <= N.of_nat fuel ->
            exists r, split_with_fee fuel n fa = Some r /\ r <> Panic).
  { induction fuel as [|fuel IH]; intros n Hn Hf; simpl;
      pose proof (split_with_fee_round_no_panic n fa Hpos) as Hnp;
      destruct (split_with_fee_round n fa) as [[l|]| |]; try done; try (eexists; split; done);
      destruct (checked_add n ONE) as [next|] eqn:Ha; try (eexists; split; done);
      apply u64_checked_add_Some in Ha as [-> Ha]; unfold ONE, u64 in *; [lia|].
    apply IH; [done|lia]. }
  destruct (Hterm (N.to_nat (U64_MAX - self)) self) as (r & Hr & Hnp); [done|lia|].
  exists r. split; [done|]. split; [done|]. intros parts ->. by eapply split_with_fee_Ok.
Qed.

Lemma split_with_fee_covers_witness :
  exists r, split_with_fee (N.to_nat (U64_MAX - (U64_MAX - 3))) (U64_MAX - 3)
              (mkFeeAndAmounts 100 (pow2_amounts 8)) = Some r /\
    r <> Panic /\
    (forall parts, r = Ok parts ->
       exists m, split m (mkFeeAndAmounts 100 (pow2_amounts 8)) = Ok parts /\ m <= U64_MAX /\
                 (U64_MAX - 3) + div_ceil (N.of_nat (length parts) * 100) 1000 <= m).
Proof.
  apply (split_with_fee_covers (U64_MAX - 3) (mkFeeAndAmounts 100 (pow2_amounts 8)));
    [apply pow2_amounts_pos|unfold u64, U64_MAX; lia].
Defined.

(** Converting satoshis to millisatoshis and back is the identity whenever
    the first conversion succeeds, and it succeeds exactly when the product
    fits; converting millisatoshis to satoshis rounds down by less than one. *)
Theorem to_unit_sat_msat n :
  (to_unit n Sat Msat = if n * 1000 <=? U64_MAX then Ok (n * 1000) else Err AmountOverflow) /\
  (forall m, to_unit n Sat Msat = Ok m -> to_unit m Msat Sat = Ok n) /\
  (exists s, to_unit n Msat Sat = Ok s /\ s * 1000 <= n < (s + 1) * 1000).
Proof.
  unfold to_unit, MSAT_IN_SAT. split; [|split].
  - unfold u64_checked_mul. by destruct (n * 1000 <=? U64_MAX).
  - intros m H. destruct (u64_checked_mul n 1000) as [x|] eqn:E; simplify_eq/=.
    apply u64_checked_mul_Some in E as [-> _]. by rewrite N.div_mul.
  - eexists. split; [done|]. pose proof (N.div_mod n 1000 ltac:(lia)).
    pose proof (N.mod_lt n 1000 ltac:(lia)).
    revert H H0. generalize (n / 1000) (n mod 1000). lia.
Qed.

End Amount.
