(* ===== verification/Hex.v ===== *)
(** * Hexadecimal strings (crates/cashu/src/util/hex.rs)

    Bytes and characters are both kept as [string]s of 8-bit [ascii]
    characters, as elsewhere in the development. *)
From Stdlib Require Import Ascii.
From stdpp Require Import base numbers list strings.
From S2P Require Import Prelude.

Local Open Scope N_scope.
Local Open Scope res_scope.

Module Hex.

Inductive Error :=
| InvalidHexCharacter (c : ascii) (index : nat)
| OddLength.

Definition from_digit (num : N) : ascii :=
  if num <? 10 then ascii_of_N (48 + num) else ascii_of_N (97 + num - 10).

Fixpoint encode (bytes : string) : string :=
  match bytes with
  | EmptyString => EmptyString
  | String b rest =>
      String (from_digit (N.shiftr (N_of_ascii b) 4))
        (String (from_digit (N.land (N_of_ascii b) 15)) (encode rest))
  end.

(** [A..=F], [a..=f] and [0..=9]. *)
Definition val (c : ascii) (idx : nat) : res Error N :=
  let n := N_of_ascii c in
  if (65 <=? n) && (n <=? 70) then Ok (n - 65 + 10)
  else if (97 <=? n) && (n <=? 102) then Ok (n - 97 + 10)
  else if (48 <=? n) && (n <=? 57) then Ok (n - 48)
  else Err (InvalidHexCharacter c idx).

(** The loop over [(0..len).step_by(2)], at index [i]. *)
Fixpoint decode_loop (hex : string) (i : nat) : res Error string :=
  match hex with
  | String h (String l rest) =>
      let? high := val h i in
      let? low := val l (S i) in
      let? bytes := decode_loop rest (S (S i)) in
      Ok (String (ascii_of_N (N.lor (N.shiftl high 4) low)) bytes)
  | _ => Ok EmptyString
  end.

Definition decode (hex : string) : res Error string :=
  if Nat.eqb (Nat.modulo (String.length hex) 2) 0 then decode_loop hex 0 else Err OddLength.

(** ** Specification *)

Lemma byte_digits b i j :
  exists high low,
    val (from_digit (N.shiftr (N_of_ascii b) 4)) i = Ok high /\
    val (from_digit (N.land (N_of_ascii b) 15)) j = Ok low /\
    ascii_of_N (N.lor (N.shiftl high 4) low) = b.
Proof.
  destruct b as [[] [] [] [] [] [] [] []]; eexists _, _; (split; [reflexivity|]); (split; [reflexivity|]); reflexivity.
Qed.

Lemma digits_byte h l i j high low :
  val h i = Ok high -> val l j = Ok low ->
  from_digit (N.shiftr (N_of_ascii (ascii_of_N (N.lor (N.shiftl high 4) low))) 4) = ascii_lower h /\
  from_digit (N.land (N_of_ascii (ascii_of_N (N.lor (N.shiftl high 4) low))) 15) = ascii_lower l.
Proof.
  assert (Hv : forall (c : ascii) k v, val c k = Ok v -> ascii_lower c = from_digit v /\ v < 16).
  { intros [[] [] [] [] [] [] [] []] k v [= <-]; done. }
  intros [-> Hh]%Hv [-> Hl]%Hv. revert high low Hh Hl.
  assert (Hall : forallb (fun h => forallb (fun l =>
      let b := ascii_of_N (N.lor (N.shiftl (N.of_nat h) 4) (N.of_nat l)) in
      Ascii.eqb (from_digit (N.shiftr (N_of_ascii b) 4)) (from_digit (N.of_nat h)) &&
      Ascii.eqb (from_digit (N.land (N_of_ascii b) 15)) (from_digit (N.of_nat l))) (seq 0 16)) (seq 0 16) = true)
    by (vm_compute; reflexivity).
  intros high low Hh Hl. rewrite forallb_forall in Hall.
  specialize (Hall (N.to_nat high)). rewrite in_seq in Hall. specialize (Hall ltac:(lia)).
  rewrite forallb_forall in Hall. specialize (Hall (N.to_nat low)). rewrite in_seq in Hall.
  specialize (Hall ltac:(lia)). rewrite !N2Nat.id in Hall. cbv zeta in Hall.
  apply andb_prop in Hall as [H1%Ascii.eqb_eq H2%Ascii.eqb_eq]. done.
Qed.

Lemma length_encode b : String.length (encode b) = (2 * String.length b)%nat.
Proof. induction b as [|c b IH]; simpl; [done|]. rewrite IH. lia. Qed.

Lemma decode_loop_encode b i : decode_loop (encode b) i = Ok b.
Proof.
  revert i. induction b as [|c b IH]; intros i; [done|]. cbn [encode decode_loop].
  destruct (byte_digits c i (S i)) as (h & l & -> & -> & Hb). by rewrite IH, Hb.
Qed.

Lemma decode_encode b : decode (encode b) = Ok b.
Proof.
  unfold decode. rewrite length_encode, Nat.mul_comm, Nat.Div0.mod_mul. simpl. apply decode_loop_encode.
Qed.

(** Induction in steps of two characters. *)
Lemma string_ind2 (P : string -> Prop) :
  P EmptyString -> (forall c, P (String c EmptyString)) ->
  (forall c d s, P s -> P (String c (String d s))) -> forall s, P s.
Proof.
  intros H0 H1 H2. fix IH 1. intros [|c [|d s]]; [exact H0|apply H1|]. apply H2, IH.
Qed.

Lemma decode_loop_Ok hex i b :
  Nat.modulo (String.length hex) 2 = 0%nat -> decode_loop hex i = Ok b -> encode b = to_lowercase hex.
Proof.
  revert i b. induction hex as [|c|h l rest IH] using string_ind2; intros i b Hm H; [by injection H as <-|done|].
  cbn [decode_loop] in H. destruct (val h i) as [high| |] eqn:Hh; [|done..].
  destruct (val l (S i)) as [low| |] eqn:Hl; [|done..].
  destruct (decode_loop rest (S (S i))) as [bytes| |] eqn:Hr; [|done..]. injection H as <-.
  cbn [encode to_lowercase]. destruct (digits_byte _ _ _ _ _ _ Hh Hl) as [-> ->].
  do 2 f_equal. eapply IH; [|done]. cbn [String.length] in Hm.
  replace (S (S (String.length rest))) with (String.length rest + 1 * 2)%nat in Hm by lia.
  by rewrite Nat.Div0.mod_add in Hm.
Qed.

(** What [decode] accepts is the encoding of what it returns, up to case. *)
Lemma decode_Ok hex b : decode hex = Ok b -> encode b = to_lowercase hex.
Proof.
  unfold decode. destruct (Nat.eqb_spec (Nat.modulo (String.length hex) 2) 0) as [Hm|]; [|done].
  by apply decode_loop_Ok.
Qed.

Lemma val_no_panic c i : val c i <> Panic.
Proof. unfold val. by repeat case_match. Qed.

Lemma decode_no_panic hex : decode hex <> Panic.
Proof.
  unfold decode. destruct (Nat.eqb _ _); [|done]. generalize 0%nat.
  induction hex as [|c|h l rest IH] using string_ind2; intros i; [done..|]. cbn [decode_loop].
  pose proof (val_no_panic h i). pose proof (val_no_panic l (S i)). pose proof (IH (S (S i))).
  by destruct (val h i), (val l (S i)), (decode_loop rest (S (S i))).
Qed.

Lemma to_lowercase_idem s : to_lowercase (to_lowercase s) = to_lowercase s.
Proof. induction s as [|[[] [] [] [] [] [] [] []] s IH]; cbn [to_lowercase]; f_equal; done. Qed.

Lemma to_lower_app a b : to_lowercase (a ++ b)%string = (to_lowercase a ++ to_lowercase b)%string.
Proof. induction a as [|c a IH]; [done|]. exact (f_equal (String (ascii_lower c)) IH). Qed.

Lemma length_to_lowercase s : String.length (to_lowercase s) = String.length s.
Proof. induction s as [|c s IH]; cbn; congruence. Qed.

Lemma decode_length hex b : decode hex = Ok b -> String.length hex = (2 * String.length b)%nat.
Proof. intros H%decode_Ok. by rewrite <- length_encode, H, length_to_lowercase. Qed.

(** Reading does not look at the case of the digits. *)
Lemma decode_loop_lower hex : forall i b, decode_loop (to_lowercase hex) i = Ok b -> decode_loop hex i = Ok b.
Proof.
  assert (Hv : forall (c : ascii) k v, val (ascii_lower c) k = Ok v -> val c k = Ok v)
    by (intros [[] [] [] [] [] [] [] []] k v [= <-]; done).
  induction hex as [|c|h l rest IH] using string_ind2; intros i b H; [done..|]. cbn [to_lowercase decode_loop] in *.
  destruct (val (ascii_lower h) i) as [vh| |] eqn:Hh; [|done..]. destruct (val (ascii_lower l) (S i)) as [vl| |] eqn:Hl; [|done..].
  rewrite (Hv _ _ _ Hh), (Hv _ _ _ Hl). destruct (decode_loop (to_lowercase rest) (S (S i))) as [bs| |] eqn:Hr; [|done..].
  by rewrite (IH _ _ Hr).
Qed.

Lemma decode_lower hex b : decode (to_lowercase hex) = Ok b -> decode hex = Ok b.
Proof. unfold decode. rewrite length_to_lowercase. destruct (Nat.eqb _ _); [apply decode_loop_lower|done]. Qed.

End Hex.
