(* ===== verification/Nuts.v ===== *)
(** * Protocol data (crates/cashu/src/nuts, secret.rs, dhke.rs)

    The cryptographic library (secp256k1, SHA-256) and the JSON reader are
    parameters, collected in the classes [Crypto] and [Serde]; their laws are
    separate classes, assumed only where a theorem needs them.  The protocol
    types, the proof and witness helpers of NUT-00, the public key wrapper of
    NUT-01, [hash_to_curve], and the request messages of NUT-03, NUT-04 and
    NUT-05 are defined over them. *)
From stdpp Require Import base numbers list sorting strings gmap.
From S2P Require Import Prelude Amount.

Local Open Scope N_scope.
Local Open Scope res_scope.

(** Interface to secp256k1 and SHA-256 ([bitcoin] crate). *)
Class Crypto := {
  pubkey : Type;
  pubkey_eq_dec :: EqDecision pubkey;
  pubkey_countable :: Countable pubkey;
  seckey : Type;
  signature : Type;
  digest : Type;
  digest_eq_dec :: EqDecision digest;
  (** [secp256k1::PublicKey::from_str], [Display] and [serialize] *)
  secp_pubkey_from_str : string -> option pubkey;
  secp_pubkey_to_string : pubkey -> string;
  secp_pubkey_serialize : pubkey -> string;
  (** [XOnlyPublicKey::from_slice] followed by [from_x_only_public_key(_, Even)] *)
  xonly_even : digest -> option pubkey;
  seckey_public_key : seckey -> pubkey;
  (** [Sha256Hash::hash], [to_byte_array], [from_str] and [Display] *)
  sha256 : string -> digest;
  digest_bytes : digest -> string;
  digest_from_str : string -> option digest;
  digest_to_string : digest -> string;
  (** [schnorr] signatures *)
  verify_schnorr : signature -> digest -> pubkey -> bool;
  sign_schnorr : seckey -> digest -> signature;
  signature_from_str : string -> option signature;
  signature_to_string : signature -> string;
}.

(** Documented behaviour of the library: a printed key, signature or digest
    parses back to itself, a compressed public key prints as 66 characters and
    a signature made with a secret key verifies under its public key. *)
Class CryptoLaws (CR : Crypto) : Prop := {
  secp_pubkey_roundtrip k : secp_pubkey_from_str (secp_pubkey_to_string k) = Some k;
  secp_pubkey_length k : String.length (secp_pubkey_to_string k) = 66%nat;
  signature_roundtrip s : signature_from_str (signature_to_string s) = Some s;
  digest_roundtrip d : digest_from_str (digest_to_string d) = Some d;
  sign_verify sk d : verify_schnorr (sign_schnorr sk d) d (seckey_public_key sk) = true;
}.

Module Nut10.

(** NUT-10 secret kinds and data; both are plain data, without keys. *)
Inductive Kind := P2PK | HTLC.

#[global] Instance Kind_eq_dec : EqDecision Kind.
Proof. solve_decision. Defined.

Record SecretData := mkSecretData {
  nonce : string;
  data : string;
  tags : option (list (list string));
}.

Record Secret := mkSecret { kind : Kind; secret_data : SecretData }.

#[global] Instance SecretData_eq_dec : EqDecision SecretData.
Proof. solve_decision. Defined.
#[global] Instance Secret_eq_dec : EqDecision Secret.
Proof. solve_decision. Defined.

(** [SecretData::new] and [Secret::new]; the random nonce is an argument. *)
Definition SecretData_new (fresh_nonce data : string) (tags : option (list (list string))) : SecretData :=
  mkSecretData fresh_nonce data tags.

Definition Secret_new (fresh_nonce : string) (kind : Kind) (data : string)
    (tags : option (list (list string))) : Secret :=
  mkSecret kind (SecretData_new fresh_nonce data tags).

End Nut10.

(** Interface to [serde_json] for NUT-10 secrets. *)
Class Serde := {
  nut10_from_json : string -> option Nut10.Secret;
  nut10_to_json : Nut10.Secret -> string;
}.

Class SerdeLaws (SD : Serde) : Prop := {
  nut10_json_roundtrip s : nut10_from_json (nut10_to_json s) = Some s;
}.

Module Nut01.
Section defs.
Context {CR : Crypto}.

Inductive Error :=
| InvalidPublicKeySize (expected found : nat)
| Secp256k1.

(** [PublicKey::from_hex]: the length is checked before the library parses. *)
Definition from_hex (hex : string) : res Error pubkey :=
  if negb (String.length hex =? 33 * 2)%nat
  then Err (InvalidPublicKeySize 33 (String.length hex / 2)%nat)
  else ok_or Secp256k1 (secp_pubkey_from_str hex).

Definition from_str (hex : string) : res Error pubkey := from_hex hex.
Definition to_hex (self : pubkey) : string := secp_pubkey_to_string self.
Definition to_bytes (self : pubkey) : string := secp_pubkey_serialize self.

(** [PublicKey::verify] and [SecretKey::sign] hash the message first; the
    digest has the 32 bytes [Message::from_digest_slice] asks for. *)
Definition verify (self : pubkey) (msg : string) (sig : signature) : bool :=
  verify_schnorr sig (sha256 msg) self.
Definition sign (self : seckey) (msg : string) : signature := sign_schnorr self (sha256 msg).

End defs.
End Nut01.

Module Dhke.
Section defs.
Context {CR : Crypto}.

Inductive Error :=
| TokenNotVerified
| NoValidPoint
| DSecp256k1
| Custom (message : string).

Definition DOMAIN_SEPARATOR : string := "Secp256k1_HashToCurve_Cashu_".

(** [u32::to_le_bytes]. *)
Definition u32_le_bytes (n : N) : string :=
  let byte i := Ascii.ascii_of_N ((n / 2 ^ (8 * i)) mod 256) in
  String (byte 0) (String (byte 1) (String (byte 2) (String (byte 3) EmptyString))).

(** The [while counter < 2^16] loop; [rounds] is what is left of it. *)
Fixpoint hash_to_curve_loop (rounds : nat) (counter : N) (msg_hash : digest) : res Error pubkey :=
  match rounds with
  | O => Err NoValidPoint
  | S rounds' =>
      let bytes_to_hash := (digest_bytes msg_hash ++ u32_le_bytes counter)%string in
      match xonly_even (sha256 bytes_to_hash) with
      | Some pk => Ok pk
      | None => hash_to_curve_loop rounds' (counter + 1) msg_hash
      end
  end.

Definition hash_to_curve (message : string) : res Error pubkey :=
  hash_to_curve_loop (Nat.pow 2 16) 0 (sha256 (DOMAIN_SEPARATOR ++ message)).

End defs.
End Dhke.

Module Nut00.
Section defs.
Context {CR : Crypto}.

(** Keyset ids are kept as the strings they are displayed and stored as. *)
Definition Id := string.

(** [CurrencyUnit::from_str]. *)
Definition currency_from_str (value : string) : Amount.CurrencyUnit :=
  let upper_value := to_uppercase value in
  if String.eqb upper_value "SAT" then Amount.Sat
  else if String.eqb upper_value "MSAT" then Amount.Msat
  else if String.eqb upper_value "USD" then Amount.Usd
  else if String.eqb upper_value "EUR" then Amount.Eur
  else if String.eqb upper_value "AUTH" then Amount.Auth
  else Amount.Custom value.

(** [Display] for [CurrencyUnit]. *)
Definition unit_to_string (u : Amount.CurrencyUnit) : string :=
  to_lowercase (match u with
                | Amount.Sat => "SAT" | Amount.Msat => "MSAT" | Amount.Usd => "USD"
                | Amount.Eur => "EUR" | Amount.Auth => "AUTH" | Amount.Custom s => s
                end).

Record P2PKWitness := mkP2PKWitness { p2pk_signatures : list string }.
Record HTLCWitness := mkHTLCWitness { preimage : string; htlc_signatures : option (list string) }.

Inductive Witness :=
| WHTLC (w : HTLCWitness)
| WP2PK (w : P2PKWitness).

Record ProofDleq := mkProofDleq { dleq_e : seckey; dleq_s : seckey; dleq_r : seckey }.
Record BlindSignatureDleq := mkBlindSignatureDleq { bs_e : seckey; bs_s : seckey }.

Record BlindedMessage := mkBlindedMessage {
  bm_amount : N;
  bm_keyset_id : Id;
  blinded_secret : pubkey;
  bm_witness : option Witness;
}.

Record BlindSignature := mkBlindSignature {
  bs_amount : N;
  bs_keyset_id : Id;
  bs_c : pubkey;
  bs_dleq : option BlindSignatureDleq;
}.

Record Proof := mkProof {
  amount : N;
  keyset_id : Id;
  secret : string;
  c : pubkey;
  witness : option Witness;
  dleq : option ProofDleq;
}.

Definition BlindedMessage_new (amount : N) (keyset_id : Id) (blinded : pubkey) : BlindedMessage :=
  mkBlindedMessage amount keyset_id blinded None.

Definition Proof_new (amount : N) (keyset_id : Id) (secret : string) (c : pubkey) : Proof :=
  mkProof amount keyset_id secret c None None.

Definition set_witness (p : Proof) (w : option Witness) : Proof :=
  mkProof (amount p) (keyset_id p) (secret p) (c p) w (dleq p).
Definition set_bm_witness (m : BlindedMessage) (w : option Witness) : BlindedMessage :=
  mkBlindedMessage (bm_amount m) (bm_keyset_id m) (blinded_secret m) w.
Definition set_bm_amount (m : BlindedMessage) (a : N) : BlindedMessage :=
  mkBlindedMessage a (bm_keyset_id m) (blinded_secret m) (bm_witness m).

(** [Witness::add_signatures]: on an HTLC witness the signatures are appended
    through [Option::map], so nothing is added when there is no list yet. *)
Definition add_signatures (self : Witness) (sigs : list string) : Witness :=
  match self with
  | WP2PK w => WP2PK (mkP2PKWitness (p2pk_signatures w ++ sigs))
  | WHTLC w => WHTLC (mkHTLCWitness (preimage w) ((fun l => l ++ sigs) <$> htlc_signatures w))
  end.

Definition signatures (self : Witness) : option (list string) :=
  match self with
  | WP2PK w => Some (p2pk_signatures w)
  | WHTLC w => htlc_signatures w
  end.

Definition get_preimage (self : Witness) : option string :=
  match self with
  | WP2PK _ => None
  | WHTLC w => Some (preimage w)
  end.

(** [add_signatures] on an optional witness, creating a P2PK witness. *)
Definition witness_with_signatures (w : option Witness) (sigs : list string) : option Witness :=
  match w with
  | Some w => Some (add_signatures w sigs)
  | None => Some (add_signatures (WP2PK (mkP2PKWitness [])) sigs)
  end.

Definition add_preimage (self : Proof) (preimage : string) : Proof :=
  let sigs := match witness self with Some w => signatures w | None => None end in
  set_witness self (Some (WHTLC (mkHTLCWitness preimage sigs))).

Definition y (self : Proof) : res Dhke.Error pubkey := Dhke.hash_to_curve (secret self).
Definition ys (proofs : list Proof) : res Dhke.Error (list pubkey) := collect y proofs.

Definition total_amount (proofs : list Proof) : res Amount.Error N :=
  Amount.try_sum (map amount proofs).

Definition without_dleqs (proofs : list Proof) : list Proof :=
  map (fun p => mkProof (amount p) (keyset_id p) (secret p) (c p) (witness p) None) proofs.

Definition is_active (self : Proof) (active_keyset_ids : list Id) : bool :=
  bool_decide (keyset_id self ∈ active_keyset_ids).

(** [*counts.entry(id).or_insert(0) += 1]. *)
Definition count_step (counts : gmap Id N) (p : Proof) : gmap Id N :=
  <[keyset_id p := default 0 (counts !! keyset_id p) + 1]> counts.
Definition count_by_keyset (proofs : list Proof) : gmap Id N := fold_left count_step proofs ∅.

(** [*sums.entry(id).or_insert(ZERO) += amount]: [AddAssign] panics on overflow. *)
Fixpoint sum_by_keyset_loop (sums : gmap Id N) (proofs : list Proof) : res Amount.Error (gmap Id N) :=
  match proofs with
  | [] => Ok sums
  | p :: ps =>
      let? s := Amount.add (default 0 (sums !! keyset_id p)) (amount p) in
      sum_by_keyset_loop (<[keyset_id p := s]> sums) ps
  end.
Definition sum_by_keyset (proofs : list Proof) : res Amount.Error (gmap Id N) :=
  sum_by_keyset_loop ∅ proofs.

End defs.
End Nut00.

Module Nut07.

(** The states of a proof. *)
Inductive State := Spent | Unspent | Pending | Reserved | PendingSpent.

#[global] Instance State_eq_dec : EqDecision State.
Proof. solve_decision. Defined.

Definition to_string (s : State) : string :=
  match s with
  | Spent => "SPENT" | Unspent => "UNSPENT" | Pending => "PENDING"
  | Reserved => "RESERVED" | PendingSpent => "PENDING_SPENT"
  end.

Definition from_str (s : string) : option State :=
  if String.eqb s "SPENT" then Some Spent
  else if String.eqb s "UNSPENT" then Some Unspent
  else if String.eqb s "PENDING" then Some Pending
  else if String.eqb s "RESERVED" then Some Reserved
  else if String.eqb s "PENDING_SPENT" then Some PendingSpent
  else None.

Record ProofState `{Crypto} := mkProofState {
  ps_y : pubkey; ps_state : State; ps_witness : option Nut00.Witness }.

End Nut07.

(** Quote ids and operation ids are kept in the form they are stored in. *)
Definition QuoteId := string.
Definition Uuid := N.

Module Requests.
Section defs.
Context {CR : Crypto}.
Import Nut00.

(** NUT-03 *)
Record SwapRequest := mkSwapRequest {
  swap_inputs : list Proof;
  swap_outputs : list BlindedMessage;
}.

Definition SwapRequest_new (inputs : list Proof) (outputs : list BlindedMessage) : SwapRequest :=
  mkSwapRequest (without_dleqs inputs) outputs.

Definition input_amount (self : SwapRequest) : res Amount.Error N :=
  Amount.try_sum (map amount (swap_inputs self)).
Definition output_amount (self : SwapRequest) : res Amount.Error N :=
  Amount.try_sum (map bm_amount (swap_outputs self)).

(** NUT-05 *)
Record MeltRequest := mkMeltRequest {
  melt_quote : QuoteId;
  melt_inputs : list Proof;
  melt_outputs : option (list BlindedMessage);
}.

Definition inputs_amount (self : MeltRequest) : res Amount.Error N :=
  map_err (fun _ => Amount.AmountOverflow) (Amount.try_sum (map amount (melt_inputs self))).

(** NUT-04 and NUT-20 *)
Record MintRequest := mkMintRequest {
  mint_quote_id : QuoteId;
  mint_outputs : list BlindedMessage;
  mint_signature : option string;
}.

Definition mint_total_amount (self : MintRequest) : res Amount.Error N :=
  map_err (fun _ => Amount.AmountOverflow) (Amount.try_sum (map bm_amount (mint_outputs self))).

Inductive Nut20Error := SignatureMissing | InvalidSignature | NUT01.

Definition msg_to_sign (self : MintRequest) : string :=
  fold_left (fun msg output => msg ++ Nut01.to_hex (blinded_secret output))%string
            (mint_outputs self) (mint_quote_id self).

Definition mint_sign (self : MintRequest) (sk : seckey) : MintRequest :=
  mkMintRequest (mint_quote_id self) (mint_outputs self)
    (Some (signature_to_string (Nut01.sign sk (msg_to_sign self)))).

Definition verify_signature (self : MintRequest) (pk : pubkey) : res Nut20Error unit :=
  let? s := ok_or SignatureMissing (mint_signature self) in
  let? sig := ok_or InvalidSignature (signature_from_str s) in
  if Nut01.verify pk (msg_to_sign self) sig then Ok tt else Err NUT01.

End defs.
End Requests.

(** ** Lemmas *)

Module NutsFacts.
Section facts.
Context {CR : Crypto}.

Lemma ys_length proofs l : Nut00.ys proofs = Ok l -> length l = length proofs.
Proof. apply collect_length. Qed.

Lemma from_str_to_string (s : Nut07.State) : Nut07.from_str (Nut07.to_string s) = Some s.
Proof. by destruct s. Qed.

Context {CL : CryptoLaws CR}.

Lemma from_hex_to_hex (k : pubkey) : Nut01.from_hex (Nut01.to_hex k) = Ok k.
Proof.
  unfold Nut01.from_hex, Nut01.to_hex. rewrite secp_pubkey_length. simpl.
  by rewrite secp_pubkey_roundtrip.
Qed.

Lemma verify_sign sk msg : Nut01.verify (seckey_public_key sk) msg (Nut01.sign sk msg) = true.
Proof. apply sign_verify. Qed.

(** Counting proofs per keyset. *)
Lemma count_step_lookup counts (p : Nut00.Proof) id :
  default 0 (Nut00.count_step counts p !! id) =
  default 0 (counts !! id) + (if decide (Nut00.keyset_id p = id) then 1 else 0).
Proof.
  unfold Nut00.count_step. rewrite lookup_insert.
  repeat case_decide; subst; simpl; (done || lia).
Qed.

End facts.
End NutsFacts.

#[export] Hint Rewrite @NutsFacts.from_hex_to_hex using typeclasses eauto : cdk.
