(* ===== verification/KeysetId.v ===== *)
(** * Keyset ids (crates/cashu/src/nuts/nut02.rs)

    A keyset id is a version byte and the first bytes of a hash of the public
    keys of the keyset.  It travels as a hexadecimal string, and in tokens of
    version 4 in a short form.  Byte arrays are strings; [wf] says that they
    have the length of the array. *)
From Stdlib Require Import Ascii.
From stdpp Require Import base numbers list sorting strings gmap.
From S2P Require Import Prelude Amount Nuts Hex.

Local Open Scope N_scope.
Local Open Scope res_scope.

Module KeysetId.

Inductive Error :=
| HexError (e : Hex.Error)
| Length
| UnknownVersion
| IncorrectKeysetId
| UnknownShortKeysetId
| MalformedShortKeysetId
| Slice.

Inductive KeySetVersion := Version00 | Version01.

Definition to_byte (self : KeySetVersion) : ascii :=
  match self with Version00 => ascii_of_N 0 | Version01 => ascii_of_N 1 end.

Definition from_byte (byte : ascii) : res Error KeySetVersion :=
  match N_of_ascii byte with 0 => Ok Version00 | 1 => Ok Version01 | _ => Err UnknownVersion end.

Definition version_to_string (self : KeySetVersion) : string :=
  match self with Version00 => "00" | Version01 => "01" end.

Inductive IdBytes := V1 (bytes : string) | V2 (bytes : string).

Definition to_vec (self : IdBytes) : string := match self with V1 b => b | V2 b => b end.

Record KeyId := mkKeyId { version : KeySetVersion; id : IdBytes }.

#[global] Instance KeySetVersion_eq_dec : EqDecision KeySetVersion.
Proof. solve_decision. Defined.
#[global] Instance IdBytes_eq_dec : EqDecision IdBytes.
Proof. solve_decision. Defined.
#[global] Instance KeyId_eq_dec : EqDecision KeyId.
Proof. solve_decision. Defined.

Definition STRLEN_V1 : nat := 14.
Definition BYTELEN_V1 : nat := 7.
Definition STRLEN_V2 : nat := 64.
Definition BYTELEN_V2 : nat := 32.

Definition id_to_bytes (self : KeyId) : string := String (to_byte (version self)) (to_vec (id self)).

(** [slice.try_into::<[u8; n]>()]. *)
Definition to_array (n : nat) (e : Error) (bytes : string) : res Error string :=
  if Nat.eqb (String.length bytes) n then Ok bytes else Err e.

(** [Id::from_bytes]: [bytes[0]] panics on an empty slice. *)
Definition id_from_bytes (bytes : string) : res Error KeyId :=
  match bytes with
  | EmptyString => Panic
  | String b rest =>
      let? version := from_byte b in
      match version with
      | Version00 => let? a := to_array BYTELEN_V1 Slice rest in Ok (mkKeyId version (V1 a))
      | Version01 => let? a := to_array BYTELEN_V2 Slice rest in Ok (mkKeyId version (V2 a))
      end
  end.

Definition id_to_string (self : KeyId) : string :=
  (version_to_string (version self) ++ Hex.encode (to_vec (id self)))%string.

(** [s[..n]] and [s[n..]] on a [str] panic unless the index [n] is at the start
    of a character, that is, not at a continuation byte of its encoding. *)
Definition continuation (b : ascii) : bool := N.land (N_of_ascii b) 192 =? 128.

Definition split_str (n : nat) (s : string) : res Error (string * string) :=
  match String.get n s with
  | Some b => if continuation b then Panic
              else Ok (String.substring 0 n s, String.substring n (String.length s - n) s)
  | None => if Nat.eqb (String.length s) n then Ok (s, EmptyString) else Panic
  end.

(** [hex::decode(&s[..2])?[0]] *)
Definition version_of_hex (s : string) : res Error KeySetVersion :=
  let? bytes := map_err HexError (Hex.decode s) in
  let? b := expect (String.get 0 bytes) in
  from_byte b.

(** [TryFrom<String> for Id]. *)
Definition id_try_from (s : string) : res Error KeyId :=
  let? _ := ensure (Nat.eqb (String.length s) (STRLEN_V1 + 2) || Nat.eqb (String.length s) (STRLEN_V2 + 2)) Length in
  let? (prefix, rest) := split_str 2 s in
  let? version := version_of_hex prefix in
  let? bytes := map_err HexError (Hex.decode rest) in
  match version with
  | Version00 => let? a := to_array BYTELEN_V1 Length bytes in Ok (mkKeyId version (V1 a))
  | Version01 => let? a := to_array BYTELEN_V2 Length bytes in Ok (mkKeyId version (V2 a))
  end.

(** [u64::from_be_bytes], and [From<Id> for u32]. *)
Definition from_be_bytes (bytes : string) : N :=
  fold_left (fun acc b => acc * 256 + N_of_ascii b) (String.list_ascii_of_string bytes) 0.

Definition id_to_u32 (self : KeyId) : N :=
  from_be_bytes (String.substring 0 8 (id_to_bytes self)) mod (2 ^ 31 - 1).

(** ** Short ids *)

Record ShortKeysetId := mkShort { sh_version : KeySetVersion; prefix : string }.

Definition short_to_bytes (self : ShortKeysetId) : string := String (to_byte (sh_version self)) (prefix self).

Definition short_from_bytes (bytes : string) : res Error ShortKeysetId :=
  match bytes with
  | EmptyString => Panic
  | String b rest => let? version := from_byte b in Ok (mkShort version rest)
  end.

(** [From<Id> for ShortKeysetId]; the two panics are for an id whose bytes are
    of the other version. *)
Definition short_of_id (self : KeyId) : res Error ShortKeysetId :=
  match version self, id self with
  | Version00, V1 b => Ok (mkShort Version00 b)
  | Version01, V2 b => Ok (mkShort Version01 (String.substring 0 7 b))
  | _, _ => Panic
  end.

Definition short_to_string (self : ShortKeysetId) : string :=
  (version_to_string (sh_version self) ++ Hex.encode (prefix self))%string.

Definition short_try_from (s : string) : res Error ShortKeysetId :=
  let? _ := ensure (Nat.eqb (String.length s) 16) Length in
  let? (p, rest) := split_str 2 s in
  let? version := version_of_hex p in
  let? bytes := map_err HexError (Hex.decode rest) in
  Ok (mkShort version bytes).

(** The loop of [from_short_keyset_id]: [to_vec()[..len]] panics on an id that
    is shorter than the prefix. *)
Fixpoint find_short (p : string) (infos : list KeyId) : res Error KeyId :=
  match infos with
  | [] => Err UnknownShortKeysetId
  | i :: infos' =>
      if Nat.ltb (String.length (to_vec (id i))) (String.length p) then Panic
      else if String.eqb (String.substring 0 (String.length p) (to_vec (id i))) p then Ok i
      else find_short p infos'
  end.

Definition from_short_keyset_id (short_id : ShortKeysetId) (infos : list KeyId) : res Error KeyId :=
  let len := String.length (prefix short_id) in
  if Nat.ltb len BYTELEN_V1 || Nat.ltb BYTELEN_V2 len then Err MalformedShortKeysetId
  else match sh_version short_id with
       | Version00 => Ok (mkKeyId Version00 (V1 (String.substring 0 BYTELEN_V1 (prefix short_id))))
       | Version01 => find_short (prefix short_id) infos
       end.

(** ** Ids of keysets *)
Section derive.
Context {CR : Crypto}.

Definition Keys := gmap N pubkey.

Record KeySet := mkKeySet {
  kset_id : KeyId;
  kset_unit : Amount.CurrencyUnit;
  kset_keys : Keys;
  kset_final_expiry : option N;
}.

#[global] Instance by_amount_dec : RelDecision (fun x y : N * pubkey => fst x <= fst y).
Proof. intros x y. apply N.le_dec. Defined.

(** [keys.sort_by_key(|(amt, _)| *amt)], then the concatenated encodings. *)
Definition pubkeys_concat (map : Keys) : string :=
  String.concat "" (Nut01.to_bytes <$> (merge_sort (fun x y => fst x <= fst y) (map_to_list map)).*2).

(** [&hex_of_hash[0..n]], decoded and checked for its length; the string is
    hexadecimal, so every index is at a character. *)
Definition hash_prefix (strlen bytelen : nat) (hash : digest) : res Error string :=
  let hex_of_hash := Hex.encode (digest_bytes hash) in
  if Nat.ltb (String.length hex_of_hash) strlen then Panic
  else let? bytes := unwrap (Hex.decode (String.substring 0 strlen hex_of_hash)) in
       unwrap (to_array bytelen Length bytes).

Definition v1_from_keys (map : Keys) : res Error KeyId :=
  let? bytes := hash_prefix STRLEN_V1 BYTELEN_V1 (sha256 (pubkeys_concat map)) in
  Ok (mkKeyId Version00 (V1 bytes)).

Definition v2_from_data (map : Keys) (unit : Amount.CurrencyUnit) (expiry : option N) : res Error KeyId :=
  let data := (pubkeys_concat map ++ "unit:" ++ to_lowercase (Nut00.unit_to_string unit) ++
               match expiry with Some e => "final_expiry:" ++ u64_to_string e | None => "" end)%string in
  let? bytes := hash_prefix STRLEN_V2 BYTELEN_V2 (sha256 data) in
  Ok (mkKeyId Version01 (V2 bytes)).

Definition derived_id (version : KeySetVersion) (keys : Keys) (unit : Amount.CurrencyUnit) (expiry : option N)
    : res Error KeyId :=
  match version with Version00 => v1_from_keys keys | Version01 => v2_from_data keys unit expiry end.

Definition verify_id (self : KeySet) : res Error unit :=
  let? keys_id := derived_id (version (kset_id self)) (kset_keys self) (kset_unit self) (kset_final_expiry self) in
  let? _ := ensure (id_to_u32 keys_id =? id_to_u32 (kset_id self)) IncorrectKeysetId in
  ensure (bool_decide (keys_id = kset_id self)) IncorrectKeysetId.

End derive.

(** ** Lemmas *)

Lemma substring_0_0 s : String.substring 0 0 s = EmptyString.
Proof. by destruct s. Qed.

Lemma substring_all s : String.substring 0 (String.length s) s = s.
Proof. induction s as [|c s IH]; cbn; [done|]. by rewrite IH. Qed.

Lemma substring_encode n b :
  String.substring 0 (2 * n) (Hex.encode b) = Hex.encode (String.substring 0 n b).
Proof.
  revert b. induction n as [|n IH]; intros [|c b]; [done| |done|]; [by rewrite !substring_0_0|].
  replace (2 * S n)%nat with (S (S (2 * n))) by lia. cbn [Hex.encode String.substring].
  by rewrite IH.
Qed.

Lemma length_substring n s : (n <= String.length s)%nat -> String.length (String.substring 0 n s) = n.
Proof.
  revert n. induction s as [|c s IH]; intros [|n] H; cbn in *; try lia. rewrite IH; lia.
Qed.

Lemma split_str_2 a b c s :
  continuation c = false ->
  split_str 2 (String a (String b (String c s))) = Ok (String a (String b EmptyString), String c s).
Proof.
  intros Hc. unfold split_str. cbn [String.get]. rewrite Hc. cbn [String.length Nat.sub String.substring].
  by rewrite substring_all.
Qed.

Lemma hex_no_continuation n : n < 16 -> continuation (Hex.from_digit n) = false.
Proof.
  intros Hn. assert (Hall : forallb (fun i => negb (continuation (Hex.from_digit (N.of_nat i)))) (seq 0 16) = true)
    by (vm_compute; reflexivity).
  rewrite forallb_forall in Hall. specialize (Hall (N.to_nat n)). rewrite in_seq, N2Nat.id in Hall.
  apply negb_true_iff, Hall. lia.
Qed.

(** Ids as the Rust type has them: the array has the length of its version. *)
Definition wf (i : KeyId) : Prop :=
  match version i, id i with
  | Version00, V1 b => String.length b = BYTELEN_V1
  | Version01, V2 b => String.length b = BYTELEN_V2
  | _, _ => False
  end.

Lemma to_array_Ok n e b a : to_array n e b = Ok a <-> a = b /\ String.length b = n.
Proof. unfold to_array. destruct (Nat.eqb_spec (String.length b) n); naive_solver. Qed.

Lemma version_of_hex_to_string v : version_of_hex (version_to_string v) = Ok v.
Proof. by destruct v. Qed.

(** A version and an encoding of at least one byte are split where they were joined. *)
Lemma split_printed v b :
  b <> EmptyString ->
  split_str 2 (version_to_string v ++ Hex.encode b)%string = Ok (version_to_string v, Hex.encode b).
Proof.
  destruct b as [|c b]; [done|]. intros _.
  assert (Hc : continuation (Hex.from_digit (N.shiftr (N_of_ascii c) 4)) = false).
  { apply hex_no_continuation. by destruct c as [[] [] [] [] [] [] [] []]. }
  destruct v; cbn [version_to_string Hex.encode]; by apply split_str_2.
Qed.

Lemma length_printed v b :
  String.length (version_to_string v ++ Hex.encode b)%string = (2 + 2 * String.length b)%nat.
Proof. rewrite <- Hex.length_encode. by destruct v. Qed.

Lemma id_try_from_to_string i : wf i -> id_try_from (id_to_string i) = Ok i.
Proof.
  destruct i as [v b]. unfold id_try_from, id_to_string. cbn [version id].
  intros Hwf. assert (Hlen : String.length (to_vec b) = match v with Version00 => BYTELEN_V1 | _ => BYTELEN_V2 end).
  { by destruct v, b. }
  rewrite length_printed, Hlen.
  rewrite (split_printed v (to_vec b)) by (intros Hb; rewrite Hb in Hlen; by destruct v).
  destruct v, b; try done; cbn [BYTELEN_V1 BYTELEN_V2 to_vec] in *;
    rewrite version_of_hex_to_string, Hex.decode_encode; cbn [map_err];
    rewrite (proj2 (to_array_Ok _ _ _ _) (conj eq_refl Hlen)); done.
Qed.

Lemma id_from_bytes_to_bytes i : wf i -> id_from_bytes (id_to_bytes i) = Ok i.
Proof.
  destruct i as [[] [b|b]]; try done; intros Hwf; unfold id_to_bytes, id_from_bytes; cbn -[to_array];
    by rewrite (proj2 (to_array_Ok _ _ _ _) (conj eq_refl Hwf)).
Qed.

(** A string is cut in two words that joined give it back. *)
Lemma substring_app n s : (n <= String.length s)%nat ->
  s = (String.substring 0 n s ++ String.substring n (String.length s - n) s)%string.
Proof.
  revert n. induction s as [|c s IH]; intros [|n] H; cbn in *; try lia; try done.
  - by rewrite substring_all.
  - exact (f_equal (String c) (IH n ltac:(lia))).
Qed.

Lemma get_Some n s : (n < String.length s)%nat -> exists b, String.get n s = Some b.
Proof.
  revert n. induction s as [|c s IH]; intros [|n] H; cbn in *; try lia; eauto. apply IH. lia.
Qed.

Lemma from_byte_Ok b v : from_byte b = Ok v -> b = to_byte v.
Proof. destruct b as [[] [] [] [] [] [] [] []]; try done; by intros [= <-]. Qed.

Lemma version_of_hex_Ok p v :
  String.length p = 2%nat -> version_of_hex p = Ok v -> version_to_string v = to_lowercase p.
Proof.
  unfold version_of_hex. intros Hl H. destruct (Hex.decode p) as [bytes| |] eqn:Hd; [|done..]. cbn [map_err] in H.
  pose proof (Hex.decode_length _ _ Hd) as Hlen. rewrite <- (Hex.decode_Ok _ _ Hd).
  destruct bytes as [|b [|b' bytes]]; cbn [String.length] in Hlen; try lia. cbn in H.
  apply from_byte_Ok in H as ->. by destruct v.
Qed.

Lemma version_of_hex_no_panic p : String.length p = 2%nat -> version_of_hex p <> Panic.
Proof.
  unfold version_of_hex. intros Hl. pose proof (Hex.decode_no_panic p).
  destruct (Hex.decode p) as [bytes| |] eqn:Hd; [|done..]. cbn [map_err].
  pose proof (Hex.decode_length _ _ Hd) as Hlen. destruct bytes as [|b bytes]; cbn [String.length] in Hlen; [lia|].
  cbn. unfold from_byte. by repeat case_match.
Qed.

(** The lengths that [Id::try_from] lets through. *)
Definition id_length (s : string) : Prop :=
  String.length s = (STRLEN_V1 + 2)%nat \/ String.length s = (STRLEN_V2 + 2)%nat.

(** The string is cut after its second byte, which may be inside a character. *)
Definition cut_in_character (s : string) : Prop := exists b, String.get 2 s = Some b /\ continuation b = true.

Lemma split_2_cases s : id_length s ->
  (cut_in_character s /\ split_str 2 s = Panic) \/
  (~ cut_in_character s /\ exists p r, split_str 2 s = Ok (p, r) /\ String.length p = 2%nat /\ s = (p ++ r)%string).
Proof.
  intros Hl. assert (Hlt : (2 < String.length s)%nat) by (destruct Hl as [-> | ->]; cbn; lia).
  destruct (get_Some 2 s Hlt) as [b Hb]. unfold split_str, cut_in_character. rewrite Hb.
  destruct (continuation b) eqn:Hc; [left; eauto|right]. split; [intros (b' & [= <-] & ?); congruence|].
  eexists _, _. split; [done|]. split; [apply length_substring; lia|apply substring_app; lia].
Qed.

Lemma id_try_from_body v r :
  let res := let? bytes := map_err HexError (Hex.decode r) in
    match v with
    | Version00 => let? a := to_array BYTELEN_V1 Length bytes in Ok (mkKeyId v (V1 a))
    | Version01 => let? a := to_array BYTELEN_V2 Length bytes in Ok (mkKeyId v (V2 a))
    end in
  res <> Panic /\
  forall i, res = Ok i -> version i = v /\ wf i /\ Hex.encode (to_vec (id i)) = to_lowercase r.
Proof.
  cbv zeta. pose proof (Hex.decode_no_panic r). destruct (Hex.decode r) as [bytes| |] eqn:Hd; [|done..].
  cbn [map_err]. apply Hex.decode_Ok in Hd.
  destruct v; unfold to_array; (destruct (Nat.eqb (String.length bytes) _) eqn:He; [apply Nat.eqb_eq in He|done]);
    (split; [done|]); intros i [= <-]; done.
Qed.

(** ** Theorems *)

(** A keyset id is read back from the string and from the bytes it is
    written to. *)
Theorem id_roundtrip i (Hwf : wf i) :
  id_try_from (id_to_string i) = Ok i /\ id_from_bytes (id_to_bytes i) = Ok i.
Proof. split; [by apply id_try_from_to_string|by apply id_from_bytes_to_bytes]. Qed.

Lemma id_roundtrip_witness :
  let i := mkKeyId Version00 (V1 "keyset7") in
  id_try_from (id_to_string i) = Ok i /\ id_from_bytes (id_to_bytes i) = Ok i.
Proof. apply id_roundtrip. vm_compute. reflexivity. Defined.

Lemma id_try_from_cases s :
  (id_try_from s = Panic <-> id_length s /\ cut_in_character s) /\
  (forall i, id_try_from s = Ok i -> wf i /\ id_to_string i = to_lowercase s).
Proof.
  unfold id_try_from, ensure.
  destruct (Nat.eqb (String.length s) (STRLEN_V1 + 2) || Nat.eqb (String.length s) (STRLEN_V2 + 2)) eqn:Hl.
  2: { apply orb_false_iff in Hl as [H1%Nat.eqb_neq H2%Nat.eqb_neq]. split; [|done].
       split; [done|]. by intros [[?|?] _]. }
  assert (Hid : id_length s) by (apply orb_true_iff in Hl as [H%Nat.eqb_eq|H%Nat.eqb_eq]; [by left|by right]).
  destruct (split_2_cases s Hid) as [[Hc ->]|(Hc & p & r & -> & Hp & ->)]; [done|].
  pose proof (version_of_hex_no_panic p Hp). destruct (version_of_hex p) as [v| |] eqn:Hv; [|naive_solver..].
  destruct (id_try_from_body v r) as [Hnp Hok]. split; [naive_solver|].
  intros i (<- & Hwf & He)%Hok. split; [done|]. unfold id_to_string.
  by rewrite Hex.to_lower_app, He, (version_of_hex_Ok p _ Hp Hv).
Qed.

(** Strings that print the same in lower case. *)
Lemma get_lower n s : String.get n (to_lowercase s) = ascii_lower <$> String.get n s.
Proof. revert n. induction s as [|c s IH]; intros [|n]; cbn; [done..|apply IH]. Qed.
Lemma cut_lower s : cut_in_character s -> cut_in_character (to_lowercase s).
Proof.
  intros (b & Hb & Hc). exists (ascii_lower b). rewrite get_lower, Hb. split; [done|].
  by destruct b as [[] [] [] [] [] [] [] []].
Qed.
Lemma app_same_length (a b c d : string) : String.length a = String.length c -> (a ++ b)%string = (c ++ d)%string -> a = c /\ b = d.
Proof.
  revert c. induction a as [|x a IH]; intros [|z c] Hl H; cbn in *; try done.
  injection H as -> H. injection Hl as Hl. by destruct (IH c Hl H) as [-> ->].
Qed.
Lemma id_try_from_lower s i : wf i -> id_to_string i = to_lowercase s -> id_try_from s = Ok i.
Proof.
  intros Hwf Hs. pose proof (id_try_from_to_string i Hwf) as Hi. rewrite Hs in Hi.
  assert (Hid : id_length s).
  { unfold id_try_from, ensure in Hi. rewrite Hex.length_to_lowercase in Hi. destruct (_ || _) eqn:Hl; [|done].
    apply orb_true_iff in Hl as [H%Nat.eqb_eq|H%Nat.eqb_eq]; [by left|by right]. }
  destruct (split_2_cases s Hid) as [[Hc _]|(_ & p & r & Hsp & Hp & ->)].
  { assert (Hpan : id_try_from (to_lowercase s) = Panic); [|congruence].
    apply id_try_from_cases. split; [|by apply cut_lower]. unfold id_length. by rewrite Hex.length_to_lowercase. }
  destruct i as [v b]. unfold id_to_string in Hs. cbn [version id] in Hs. rewrite Hex.to_lower_app in Hs.
  apply app_same_length in Hs as [Hv Hb]; [|rewrite Hex.length_to_lowercase, Hp; by destruct v].
  unfold id_try_from. rewrite Hsp. replace (_ || _) with true
    by (symmetry; apply orb_true_iff; destruct Hid as [-> | ->]; [left|right]; apply Nat.eqb_refl). cbn [ensure].
  unfold version_of_hex. rewrite (Hex.decode_lower p (String (to_byte v) EmptyString)) by (rewrite <- Hv; by destruct v).
  rewrite (Hex.decode_lower r (to_vec b)) by (rewrite <- Hb; apply Hex.decode_encode). cbn [map_err String.get expect].
  destruct v, b; cbn [wf version id] in Hwf; try done; cbn [from_byte to_byte to_vec];
    by rewrite (proj2 (to_array_Ok _ _ _ _) (conj eq_refl Hwf)).
Qed.

(** C33. Reading a keyset id from a string accepts exactly the strings that are a
    well-formed id of either version, printed in any case, and gives that id;
    it panics exactly when the string has one of the two lengths and its second
    byte is inside a character, so that a string of a client can make the
    reader panic; all other strings are an error. *)
Theorem id_try_from_spec s :
  (forall i, id_try_from s = Ok i <-> wf i /\ id_to_string i = to_lowercase s) /\
  (id_try_from s = Panic <-> id_length s /\ cut_in_character s).
Proof.
  destruct (id_try_from_cases s) as [Hpanic Hok]. split; [|done]. intros i. split; [apply Hok|].
  intros [Hwf Hs]. by apply id_try_from_lower.
Qed.

(** A sixteen byte string that starts with a three byte character. *)
Definition euro_id : string :=
  String (ascii_of_N 226) (String (ascii_of_N 130) (String (ascii_of_N 172) "0000000000000")).

Example euro_id_panics : id_try_from euro_id = Panic.
Proof. reflexivity. Qed.

Lemma find_short_unique p i infos :
  i ∈ infos -> (forall j, j ∈ infos -> (String.length p <= String.length (to_vec (id j)))%nat) ->
  String.substring 0 (String.length p) (to_vec (id i)) = p ->
  (forall j, j ∈ infos -> String.substring 0 (String.length p) (to_vec (id j)) = p -> j = i) ->
  find_short p infos = Ok i.
Proof.
  induction infos as [|j infos IH]; [by intros ?%not_elem_of_nil|]. intros Hin Hlen Hi Hu. cbn [find_short].
  rewrite (proj2 (Nat.ltb_ge _ _) (Hlen j ltac:(set_solver))).
  destruct (String.eqb_spec (String.substring 0 (String.length p) (to_vec (id j))) p) as [He|He].
  - by rewrite (Hu j ltac:(set_solver) He).
  - apply IH; [|set_solver..]. apply elem_of_cons in Hin as [->|?]; [done|done].
Qed.

Lemma wf_length i : wf i -> (7 <= String.length (to_vec (id i)))%nat.
Proof. destruct i as [[] [b|b]]; try done; unfold wf, BYTELEN_V1, BYTELEN_V2; cbn [version id to_vec]; lia. Qed.

(** The short form of a keyset id stands for that keyset as long as no
    other known keyset has an id with the same first seven bytes. *)
Theorem short_id_resolves i infos
    (Hwf : wf i) (Hin : i ∈ infos) (Hinfos : Forall wf infos)
    (Hunique : forall j, j ∈ infos ->
       String.substring 0 7 (to_vec (id j)) = String.substring 0 7 (to_vec (id i)) -> j = i) :
  exists s, short_of_id i = Ok s /\ short_try_from (short_to_string s) = Ok s /\
    from_short_keyset_id s infos = Ok i.
Proof.
  assert (Hs : exists s, short_of_id i = Ok s /\ sh_version s = version i /\
    prefix s = String.substring 0 7 (to_vec (id i)) /\ String.length (prefix s) = 7%nat).
  { pose proof (wf_length i Hwf) as Hl. destruct i as [[] [b|b]]; try done; eexists; (split; [reflexivity|]); cbn in *.
    - split; [done|]. split; [|done]. rewrite <- (substring_all b) at 1. by rewrite Hwf.
    - split; [done|]. split; [done|]. by apply length_substring. }
  destruct Hs as (s & Hs & Hv & Hp & Hl). exists s. split; [done|]. split.
  { unfold short_try_from, short_to_string. rewrite length_printed, Hl.
    rewrite split_printed by (by intros He; rewrite He in Hl).
    cbn [ensure Nat.eqb Nat.add Nat.mul]. rewrite version_of_hex_to_string, Hex.decode_encode. by destruct s. }
  unfold from_short_keyset_id. rewrite Hl. cbn [Nat.ltb Nat.leb BYTELEN_V1 BYTELEN_V2 orb]. rewrite Hv.
  destruct (version i) eqn:Hver.
  - destruct i as [v [b|b]]; cbn in Hver, Hwf, Hp; subst v; [|done]. rewrite Hp.
    assert (He : String.substring 0 7 b = b) by (rewrite <- (substring_all b) at 2; by rewrite Hwf).
    cbn [id to_vec]. unfold BYTELEN_V1. by rewrite !He.
  - apply find_short_unique; rewrite ?Hl; [done| |by rewrite Hp|].
    + intros j Hj. apply wf_length. by eapply Forall_forall in Hinfos.
    + intros j Hj He. apply Hunique; [done|]. by rewrite He, Hp.
Qed.

Lemma short_id_resolves_witness :
  let i := mkKeyId Version01 (V2 "an id of exactly thirty-two byte") in
  exists s, short_of_id i = Ok s /\ short_try_from (short_to_string s) = Ok s /\
    from_short_keyset_id s [mkKeyId Version00 (V1 "keyset7"); i] = Ok i.
Proof.
  apply short_id_resolves; [reflexivity|apply list_elem_of_further, list_elem_of_here|repeat constructor|].
  intros j Hj He. apply elem_of_cons in Hj as [->|Hj]; [discriminate He|].
  by apply list_elem_of_singleton in Hj.
Defined.

End KeysetId.
