(* ===== verification/Bdhke.v ===== *)
(** * Blind signatures and DLEQ proofs (dhke.rs and nut12.rs of crates/cashu)

    The mint signs a blinded message [B' = Y + r*G] as [C' = k*B'] without
    learning [Y]; the wallet removes the blinding, and the mint later
    recognises [C = k*Y].  A DLEQ proof shows that [C'] was made with the key
    [k] of the published [A = k*G].

    The operations of the secp256k1 library on points and scalars are the
    class [Curve].  Its laws say that the points are the elements other than
    zero of a cyclic group of prime order: [dlog] is the discrete logarithm of
    a point, which no program computes and which only serves to state them. *)
From Stdlib Require Import Ascii ZArith Zdivisibility.
From stdpp Require Import base numbers list strings gmap.
From S2P Require Import Prelude Amount Nuts Hex.

Local Open Scope res_scope.

Class Curve (CR : Crypto) := {
  (** [PublicKey::combine]: an error when the sum is the point at infinity *)
  point_combine : pubkey -> pubkey -> option pubkey;
  (** [PublicKey::mul_tweak] with the scalar of a secret key *)
  point_mul : pubkey -> seckey -> option pubkey;
  point_negate : pubkey -> pubkey;
  point_uncompressed : pubkey -> string;
  (** [SecretKey::mul_tweak], [add_tweak], [from_slice] and [secret_bytes] *)
  scalar_mul : seckey -> seckey -> option seckey;
  scalar_add : seckey -> seckey -> option seckey;
  seckey_from_slice : string -> option seckey;
  seckey_bytes : seckey -> string;
}.

(** The mathematical reading of points and scalars. *)
Class CurveModel (CR : Crypto) := {
  order : Z;
  dlog : pubkey -> Z;
  scalar : seckey -> Z;
}.

Local Open Scope Z_scope.

Class CurveLaws (CR : Crypto) (CV : Curve CR) (CM : CurveModel CR) : Prop := {
  order_prime : Z.prime order;
  dlog_range p : 0 < dlog p < order;
  dlog_inj p q : dlog p = dlog q -> p = q;
  scalar_range k : 0 < scalar k < order;
  dlog_public k : dlog (seckey_public_key k) = scalar k;
  combine_spec p q : match point_combine p q with
                     | Some r => dlog r = (dlog p + dlog q) mod order
                     | None => (dlog p + dlog q) mod order = 0
                     end;
  mul_spec p k : exists r, point_mul p k = Some r /\ dlog r = (scalar k * dlog p) mod order;
  negate_spec p : dlog (point_negate p) = (- dlog p) mod order;
  scalar_mul_spec a b : exists r, scalar_mul a b = Some r /\ scalar r = (scalar a * scalar b) mod order;
  scalar_add_spec a b : match scalar_add a b with
                        | Some r => scalar r = (scalar a + scalar b) mod order
                        | None => (scalar a + scalar b) mod order = 0
                        end;
  from_slice_bytes s k : seckey_from_slice s = Some k -> seckey_bytes k = s;
}.

Local Close Scope Z_scope.

Module Bdhke.
Section defs.
Context {CR : Crypto} {CV : Curve CR}.
Import Nut00.

(** ** dhke.rs *)

Definition hash_e (public_keys : list pubkey) : digest :=
  sha256 (fold_left (fun e k => e ++ Hex.encode (point_uncompressed k))%string public_keys EmptyString).

(** [blind_message]; [fresh] is the key that [SecretKey::generate] would make. *)
Definition blind_message (secret : string) (blinding_factor : option seckey) (fresh : seckey)
    : res Dhke.Error (pubkey * seckey) :=
  let? y := Dhke.hash_to_curve secret in
  let r := default fresh blinding_factor in
  let? b := ok_or Dhke.DSecp256k1 (point_combine y (seckey_public_key r)) in
  Ok (b, r).

Definition unblind_message (blinded_key : pubkey) (r : seckey) (mint_pubkey : pubkey) : res Dhke.Error pubkey :=
  let? a := ok_or Dhke.DSecp256k1 (point_mul mint_pubkey r) in
  let a := point_negate a in
  ok_or Dhke.DSecp256k1 (point_combine blinded_key a).

Definition sign_message (k : seckey) (blinded_message : pubkey) : res Dhke.Error pubkey :=
  ok_or Dhke.DSecp256k1 (point_mul blinded_message k).

Definition verify_message (a : seckey) (unblinded_message : pubkey) (msg : string) : res Dhke.Error unit :=
  let? y := Dhke.hash_to_curve msg in
  let? expected := ok_or Dhke.DSecp256k1 (point_mul y a) in
  if decide (unblinded_message = expected) then Ok tt else Err Dhke.TokenNotVerified.

(** One round of the loop of [construct_proofs]; [keys] are the public keys of
    the keyset by amount. *)
Definition construct_proof (keys : gmap N pubkey) (promise : BlindSignature) (r : seckey) (secret : string)
    : res Dhke.Error Proof :=
  let? a := ok_or (Dhke.Custom "Could not get proofs") (keys !! bs_amount promise) in
  let? unblinded_signature := unblind_message (bs_c promise) r a in
  let dleq := (fun d => mkProofDleq (bs_e d) (bs_s d) r) <$> bs_dleq promise in
  Ok (mkProof (bs_amount promise) (bs_keyset_id promise) secret unblinded_signature None dleq).

Fixpoint construct_loop (keys : gmap N pubkey) (l : list (BlindSignature * seckey * string)) : res Dhke.Error (list Proof) :=
  match l with
  | [] => Ok []
  | (promise, r, secret) :: l' =>
      let? p := construct_proof keys promise r secret in
      let? ps := construct_loop keys l' in
      Ok (p :: ps)
  end.

Definition construct_proofs (promises : list BlindSignature) (rs : list seckey) (secrets : list string)
    (keys : gmap N pubkey) : res Dhke.Error (list Proof) :=
  if negb (Nat.eqb (length promises) (length rs)) || negb (Nat.eqb (length promises) (length secrets))
  then Err (Dhke.Custom "Lengths of promises, rs, and secrets must be equal")
  else construct_loop keys (zip (zip promises rs) secrets).

(** ** nut12.rs *)

Inductive DleqError :=
| MissingDleqProof
| IncompleteDleqProof
| InvalidDleqProof
| DHKE (e : Dhke.Error)
| DNUT01
| DleqSecp256k1.

(** [R1 = s*G - e*A] and [R2 = s*B' - e*C'] of [verify_dleq]. *)
Definition dleq_commitments (blinded_message blinded_signature : pubkey) (e s : seckey) (mint_pubkey : pubkey)
    : res DleqError (pubkey * pubkey) :=
  let? a := ok_or DleqSecp256k1 (point_mul mint_pubkey e) in
  let a := point_negate a in
  let? r1 := ok_or DleqSecp256k1 (point_combine (seckey_public_key s) a) in
  let? b := ok_or DleqSecp256k1 (point_mul blinded_message s) in
  let? c := ok_or DleqSecp256k1 (point_mul blinded_signature e) in
  let c := point_negate c in
  let? r2 := ok_or DleqSecp256k1 (point_combine b c) in
  Ok (r1, r2).

Definition verify_dleq (blinded_message blinded_signature : pubkey) (e s : seckey) (mint_pubkey : pubkey)
    : res DleqError unit :=
  let? (r1, r2) := dleq_commitments blinded_message blinded_signature e s mint_pubkey in
  if String.eqb (seckey_bytes e) (digest_bytes (hash_e [r1; r2; mint_pubkey; blinded_signature]))
  then Ok tt else Err InvalidDleqProof.

(** [calculate_dleq]; [r] is the random nonce. *)
Definition calculate_dleq (r : seckey) (blinded_signature blinded_message : pubkey) (mint_secret_key : seckey)
    : res DleqError BlindSignatureDleq :=
  let r1 := seckey_public_key r in
  let? r2 := ok_or DleqSecp256k1 (point_mul blinded_message r) in
  let e := hash_e [r1; r2; seckey_public_key mint_secret_key; blinded_signature] in
  let? e_sk := ok_or DNUT01 (seckey_from_slice (digest_bytes e)) in
  let? s1 := ok_or DleqSecp256k1 (scalar_mul e_sk mint_secret_key) in
  let? s := ok_or DleqSecp256k1 (scalar_add r s1) in
  Ok (mkBlindSignatureDleq e_sk s).

(** [BlindSignature::new] and its methods. *)
Definition BlindSignature_new (nonce : seckey) (amount : N) (blinded_signature : pubkey) (keyset_id : Id)
    (blinded_message : pubkey) (mint_secretkey : seckey) : res DleqError BlindSignature :=
  let? d := calculate_dleq nonce blinded_signature blinded_message mint_secretkey in
  Ok (mkBlindSignature amount keyset_id blinded_signature (Some d)).

Definition bs_verify_dleq (self : BlindSignature) (mint_pubkey blinded_message : pubkey) : res DleqError unit :=
  match bs_dleq self with
  | Some d => verify_dleq blinded_message (bs_c self) (bs_e d) (bs_s d) mint_pubkey
  | None => Err MissingDleqProof
  end.

Definition add_dleq_proof (nonce : seckey) (self : BlindSignature) (blinded_message : pubkey) (mint_secretkey : seckey)
    : res DleqError BlindSignature :=
  let? d := calculate_dleq nonce (bs_c self) blinded_message mint_secretkey in
  Ok (mkBlindSignature (bs_amount self) (bs_keyset_id self) (bs_c self) (Some d)).

(** [Proof::verify_dleq]: the blinded message and signature are rebuilt. *)
Definition proof_verify_dleq (self : Proof) (mint_pubkey : pubkey) : res DleqError unit :=
  match dleq self with
  | Some d =>
      let? y := map_err DHKE (Dhke.hash_to_curve (secret self)) in
      let? bs1 := ok_or DleqSecp256k1 (point_mul mint_pubkey (dleq_r d)) in
      let? blinded_signature := ok_or DleqSecp256k1 (point_combine (c self) bs1) in
      let? blinded_message := ok_or DleqSecp256k1 (point_combine y (seckey_public_key (dleq_r d))) in
      verify_dleq blinded_message blinded_signature (dleq_e d) (dleq_s d) mint_pubkey
  | None => Err MissingDleqProof
  end.

End defs.
End Bdhke.

(** ** Correctness *)

Module BdhkeFacts.
Import Bdhke Nut00.

(** Congruences that hold by ring arithmetic. *)
Ltac ring_eqg := apply eq_subrelation; [apply _|ring].

Section facts.
Context {CR : Crypto} {CV : Curve CR} {CM : CurveModel CR} {CL : CurveLaws CR CV CM}.

Local Open Scope Z_scope.

(** Congruence modulo the order of the group. *)
Definition eqg : relation Z := fun a b => a mod order = b mod order.

#[global] Instance eqg_equiv : Equivalence eqg.
Proof. split; [done|by intros ???|]. unfold eqg. intros ??? -> ->. done. Qed.
#[global] Instance add_eqg : Proper (eqg ==> eqg ==> eqg) Z.add.
Proof. intros ?? H1 ?? H2. unfold eqg in *. rewrite Zplus_mod, H1, H2, <- Zplus_mod. done. Qed.
#[global] Instance sub_eqg : Proper (eqg ==> eqg ==> eqg) Z.sub.
Proof. intros ?? H1 ?? H2. unfold eqg in *. rewrite Zminus_mod, H1, H2, <- Zminus_mod. done. Qed.
#[global] Instance mul_eqg : Proper (eqg ==> eqg ==> eqg) Z.mul.
Proof. intros ?? H1 ?? H2. unfold eqg in *. rewrite Zmult_mod, H1, H2, <- Zmult_mod. done. Qed.
#[global] Instance opp_eqg : Proper (eqg ==> eqg) Z.opp.
Proof. intros ?? H. rewrite <- !Z.sub_0_l. by rewrite H. Qed.

Lemma order_ge_2 : 2 <= order.
Proof. apply Z.prime_ge_2, order_prime. Qed.

Lemma eqg_mod a : eqg (a mod order) a.
Proof. unfold eqg. apply Z.mod_mod. pose proof order_ge_2. lia. Qed.

Lemma eqg_small a b : 0 <= a < order -> 0 <= b < order -> eqg a b -> a = b.
Proof. unfold eqg. intros Ha Hb. by rewrite !Z.mod_small. Qed.

Lemma dlog_eqg p q : eqg (dlog p) (dlog q) -> p = q.
Proof. intros H. apply dlog_inj, eqg_small; [| |done]; (pose proof (dlog_range p); pose proof (dlog_range q); lia). Qed.

Lemma dlog_nonzero p : ~ eqg (dlog p) 0.
Proof. intros H%eqg_small; pose proof (dlog_range p); lia. Qed.

Lemma point_mul_Ok p k : exists r, point_mul p k = Some r /\ eqg (dlog r) (scalar k * dlog p).
Proof. destruct (mul_spec p k) as (r & -> & Hd). exists r. split; [done|]. by rewrite Hd, eqg_mod. Qed.

Lemma negate_eqg p : eqg (dlog (point_negate p)) (- dlog p).
Proof. by rewrite negate_spec, eqg_mod. Qed.

Lemma combine_eqg p q r : point_combine p q = Some r -> eqg (dlog r) (dlog p + dlog q).
Proof. intros H. pose proof (combine_spec p q) as Hs. rewrite H in Hs. by rewrite Hs, eqg_mod. Qed.

(** A sum whose discrete logarithm is that of a point is that point. *)
Lemma combine_to p q t : eqg (dlog p + dlog q) (dlog t) -> point_combine p q = Some t.
Proof.
  intros Ht. pose proof (combine_spec p q) as Hs. destruct (point_combine p q) as [r|] eqn:Hr.
  - apply combine_eqg in Hr. f_equal. apply dlog_eqg. by rewrite Hr.
  - destruct (dlog_nonzero t). rewrite <- Ht. unfold eqg. by rewrite Hs.
Qed.

(** [verify_message] accepts one point per secret. *)
Lemma verify_message_iff k C msg :
  verify_message k C msg = Ok tt <->
  exists y, Dhke.hash_to_curve msg = Ok y /\ eqg (dlog C) (scalar k * dlog y).
Proof.
  unfold verify_message. destruct (Dhke.hash_to_curve msg) as [y| |]; [|naive_solver..].
  destruct (point_mul_Ok y k) as (t & -> & Ht). cbn [ok_or]. case_decide as Hc.
  - subst. split; [|done]. intros _. eauto.
  - split; [done|]. intros (y' & [= <-] & HC). destruct Hc. apply dlog_eqg. by rewrite HC, Ht.
Qed.

Lemma unblind_signed y r k B C' :
  point_combine y (seckey_public_key r) = Some B -> sign_message k B = Ok C' ->
  exists C, unblind_message C' r (seckey_public_key k) = Ok C /\ eqg (dlog C) (scalar k * dlog y).
Proof.
  intros HB%combine_eqg HC. rewrite dlog_public in HB. unfold sign_message in HC.
  destruct (point_mul_Ok B k) as (t & Ht & Hd). rewrite Ht in HC. injection HC as <-.
  unfold unblind_message. destruct (point_mul_Ok (seckey_public_key k) r) as (a & -> & Ha). cbn [ok_or].
  destruct (point_mul_Ok y k) as (C & _ & HC). exists C. split; [|done].
  rewrite (combine_to t (point_negate a) C); [done|].
  rewrite negate_eqg, Hd, Ha, HB, HC, dlog_public.
  ring_eqg.
Qed.

(** The commitments that the verifier computes are those of the prover. *)
Lemma commitments_calculated nonce k B C' e s1 s :
  sign_message k B = Ok C' -> scalar_mul e k = Some s1 -> scalar_add nonce s1 = Some s ->
  exists r2, point_mul B nonce = Some r2 /\
    dleq_commitments B C' e s (seckey_public_key k) = Ok (seckey_public_key nonce, r2).
Proof.
  intros HC Hs1 Hs. unfold sign_message in HC. destruct (point_mul_Ok B k) as (t & Ht & Hd).
  rewrite Ht in HC. injection HC as <-.
  destruct (scalar_mul_spec e k) as (s1' & Hs1' & Hsc1). rewrite Hs1 in Hs1'. injection Hs1' as <-.
  pose proof (scalar_add_spec nonce s1) as Hsc. rewrite Hs in Hsc.
  assert (Hss : eqg (scalar s) (scalar nonce + scalar e * scalar k)) by (by rewrite Hsc, eqg_mod, Hsc1, eqg_mod).
  destruct (point_mul_Ok B nonce) as (r2 & Hr2 & Hd2). exists r2. split; [done|].
  unfold dleq_commitments. destruct (point_mul_Ok (seckey_public_key k) e) as (a & -> & Ha). cbn [ok_or].
  rewrite (combine_to _ _ (seckey_public_key nonce)).
  2: { rewrite negate_eqg, Ha, !dlog_public, Hss. ring_eqg. }
  cbn [ok_or]. destruct (point_mul_Ok B s) as (b & -> & Hb). destruct (point_mul_Ok t e) as (c & -> & Hc). cbn [ok_or].
  rewrite (combine_to _ _ r2); [done|].
  rewrite negate_eqg, Hb, Hc, Hd, Hss, Hd2. ring_eqg.
Qed.

Lemma dleq_complete nonce k B C' d :
  sign_message k B = Ok C' -> calculate_dleq nonce C' B k = Ok d ->
  verify_dleq B C' (bs_e d) (bs_s d) (seckey_public_key k) = Ok tt.
Proof.
  intros HC H. unfold calculate_dleq in H.
  destruct (point_mul B nonce) as [r2|] eqn:Hr2; [|done]. cbn [ok_or] in H.
  destruct (seckey_from_slice _) as [e|] eqn:He; [|done]. cbn [ok_or] in H.
  destruct (scalar_mul e k) as [s1|] eqn:Hs1; [|done]. cbn [ok_or] in H.
  destruct (scalar_add nonce s1) as [s|] eqn:Hs; [|done]. injection H as <-. cbn [bs_e bs_s].
  destruct (commitments_calculated nonce k B C' e s1 s HC Hs1 Hs) as (r2' & Hr2' & Hcom).
  rewrite Hr2 in Hr2'. injection Hr2' as <-. unfold verify_dleq. rewrite Hcom.
  apply from_slice_bytes in He. rewrite He. by rewrite String.eqb_refl.
Qed.

Lemma commitments_Ok B C e s A r1 r2 :
  dleq_commitments B C e s A = Ok (r1, r2) ->
  eqg (dlog r1) (scalar s - scalar e * dlog A) /\ eqg (dlog r2) (scalar s * dlog B - scalar e * dlog C).
Proof.
  unfold dleq_commitments. destruct (point_mul_Ok A e) as (a & -> & Ha). cbn [ok_or].
  destruct (point_combine (seckey_public_key s) (point_negate a)) as [t1|] eqn:H1; [|done]. cbn [ok_or].
  destruct (point_mul_Ok B s) as (b & -> & Hb). destruct (point_mul_Ok C e) as (c & -> & Hc). cbn [ok_or].
  destruct (point_combine b (point_negate c)) as [t2|] eqn:H2; [|done]. cbn [ok_or]. intros [= <- <-].
  apply combine_eqg in H1, H2. rewrite negate_eqg, Ha, dlog_public in H1. rewrite negate_eqg, Hb, Hc in H2.
  rewrite H1, H2. split; ring_eqg.
Qed.

(** A factor that is not zero modulo the prime order can be cancelled. *)
Lemma eqg_cancel a b : ~ eqg a 0 -> eqg (a * b) 0 -> eqg b 0.
Proof.
  unfold eqg. rewrite Z.mod_0_l by (pose proof order_ge_2; lia). intros Ha Hab.
  apply Z.mod_divide in Hab; [|pose proof order_ge_2; lia].
  apply Z.divide_prime_mul in Hab as [Hd|Hd]; [| |apply order_prime].
  - destruct Ha. by apply Z.mod_divide; [pose proof order_ge_2; lia|].
  - by apply Z.mod_divide; [pose proof order_ge_2; lia|].
Qed.

(** C15. The blind signature scheme is correct: a message that is blinded with
    any factor can be signed with any key of the mint and unblinded with the
    public key, and the result is the one point that the mint accepts as its
    signature on the secret. *)
Theorem blind_signature_correct secret r fresh k B :
  blind_message secret (Some r) fresh = Ok (B, r) ->
  exists C' C, sign_message k B = Ok C' /\ unblind_message C' r (seckey_public_key k) = Ok C /\
    (forall P, verify_message k P secret = Ok tt <-> P = C).
Proof.
  unfold blind_message. destruct (Dhke.hash_to_curve secret) as [y| |] eqn:Hy; [|done..]. cbn [from_option id].
  destruct (point_combine y (seckey_public_key r)) as [B'|] eqn:HB; [|done]. cbn [ok_or]. intros [= <-].
  destruct (point_mul_Ok B' k) as (C' & HC' & _). exists C'.
  assert (Hs : sign_message k B' = Ok C') by (unfold sign_message; by rewrite HC').
  destruct (unblind_signed y r k B' C' HB Hs) as (C & HC & Hd). exists C. do 2 (split; [done|]).
  intros P. rewrite verify_message_iff. rewrite Hy. split; [|intros ->; eauto].
  intros (y' & [= <-] & HP). apply dlog_eqg. by rewrite HP, Hd.
Qed.

(** A DLEQ proof convinces: when the same pair of commitments answers two
    different challenges, the blinded signature was made with the secret key
    of the mint's public key.  A mint that signs with another key can answer
    one challenge at most, and cannot choose it. *)
Theorem dleq_special_sound k B C r1 r2 e1 s1 e2 s2 :
  dleq_commitments B C e1 s1 (seckey_public_key k) = Ok (r1, r2) ->
  dleq_commitments B C e2 s2 (seckey_public_key k) = Ok (r1, r2) ->
  scalar e1 <> scalar e2 ->
  sign_message k B = Ok C.
Proof.
  intros [H1 H2]%commitments_Ok [H3 H4]%commitments_Ok Hne. rewrite dlog_public in H1, H3.
  destruct (point_mul_Ok B k) as (t & Ht & Hd). unfold sign_message. rewrite Ht. cbn [ok_or]. f_equal.
  apply dlog_eqg. rewrite Hd. symmetry.
  assert (Hz : eqg ((scalar e1 - scalar e2) * (dlog C - scalar k * dlog B)) 0).
  { transitivity (((dlog r1 - (scalar s2 - scalar e2 * scalar k)) * dlog B - (dlog r2 - (scalar s2 * dlog B - scalar e2 * dlog C)))
      - ((dlog r1 - (scalar s1 - scalar e1 * scalar k)) * dlog B - (dlog r2 - (scalar s1 * dlog B - scalar e1 * dlog C)))).
    - ring_eqg.
    - rewrite H3 at 1. rewrite H4 at 1. rewrite H1, H2. ring_eqg. }
  apply eqg_cancel in Hz.
  - assert (He : eqg (dlog C) ((dlog C - scalar k * dlog B) + scalar k * dlog B)) by (ring_eqg).
    rewrite He, Hz. ring_eqg.
  - intros He. apply Hne, eqg_small; [pose proof (scalar_range e1); lia|pose proof (scalar_range e2); lia|].
    assert (Hx : eqg (scalar e1) ((scalar e1 - scalar e2) + scalar e2)) by (ring_eqg).
    rewrite Hx, He. ring_eqg.
Qed.

End facts.
End BdhkeFacts.
