(* ===== verification/Conditions.v ===== *)
(** * NUT-11 tags and conditions (crates/cashu/src/nuts/nut11/mod.rs)

    The additional conditions of a locked secret travel as a list of string
    vectors (tags).  This file models the reading and writing of tags, of the
    [Conditions] record and of [SpendingConditions], with the panics of the
    reader: an index out of range on a one-element tag and the [unwrap] on a
    tag that does not parse. *)
From stdpp Require Import base numbers list sorting strings gmap.
From S2P Require Import Prelude Amount Nuts.

Local Open Scope N_scope.
Local Open Scope res_scope.

Module Nut11.

Inductive Error :=
| IncorrectSecretKind
| IncorrectWitnessKind
| LocktimeInPast
| InvalidSignature
| UnknownTag
| UnknownSigFlag
| SpendConditionsNotMet
| P2PKPubkeyRequired
| KindNotFound
| InvalidHash
| SignaturesNotProvided
| DuplicateSignature
| ParseInt
| HexError
| SerdeJsonError
| Secp256k1
| NUT01 (e : Nut01.Error)
| SecretError.

Inductive TagKind :=
| TKSigFlag | TKNSigs | TKLocktime | TKRefund | TKPubkeys | TKNSigsRefund
| TKCustom (name : string).

#[global] Instance TagKind_eq_dec : EqDecision TagKind.
Proof. solve_decision. Defined.

Definition TagKind_to_string (k : TagKind) : string :=
  match k with
  | TKSigFlag => "sigflag"
  | TKNSigs => "n_sigs"
  | TKLocktime => "locktime"
  | TKRefund => "refund"
  | TKPubkeys => "pubkeys"
  | TKNSigsRefund => "n_sigs_refund"
  | TKCustom c => c
  end.

Definition TagKind_from (tag : string) : TagKind :=
  if String.eqb tag "sigflag" then TKSigFlag
  else if String.eqb tag "n_sigs" then TKNSigs
  else if String.eqb tag "locktime" then TKLocktime
  else if String.eqb tag "refund" then TKRefund
  else if String.eqb tag "pubkeys" then TKPubkeys
  else if String.eqb tag "n_sigs_refund" then TKNSigsRefund
  else TKCustom tag.

#[global] Instance TagKind_countable : Countable TagKind.
Proof.
  refine (inj_countable'
    (fun k => match k with
              | TKSigFlag => inl 0%nat | TKNSigs => inl 1%nat | TKLocktime => inl 2%nat
              | TKRefund => inl 3%nat | TKPubkeys => inl 4%nat | TKNSigsRefund => inl 5%nat
              | TKCustom s => inr s end)
    (fun c : nat + string => match c with
              | inl 0%nat => TKSigFlag | inl 1%nat => TKNSigs | inl 2%nat => TKLocktime
              | inl 3%nat => TKRefund | inl 4%nat => TKPubkeys | inl _ => TKNSigsRefund
              | inr s => TKCustom s end) _).
  by intros [].
Defined.

Inductive SigFlag := SigInputs | SigAll.

#[global] Instance SigFlag_eq_dec : EqDecision SigFlag.
Proof. solve_decision. Defined.

Definition SigFlag_to_string (f : SigFlag) : string :=
  match f with SigAll => "SIG_ALL" | SigInputs => "SIG_INPUTS" end.

Definition SigFlag_from_str (tag : string) : res Error SigFlag :=
  if String.eqb tag "SIG_ALL" then Ok SigAll
  else if String.eqb tag "SIG_INPUTS" then Ok SigInputs
  else Err UnknownSigFlag.

Section defs.
Context {CR : Crypto}.

Inductive Tag :=
| TSigFlag (f : SigFlag)
| TNSigs (n : N)
| TLockTime (t : N)
| TRefund (ks : list pubkey)
| TPubKeys (ks : list pubkey)
| TNSigsRefund (n : N)
| TCustom (name : string) (values : list string).

Definition Tag_kind (t : Tag) : TagKind :=
  match t with
  | TSigFlag _ => TKSigFlag
  | TNSigs _ => TKNSigs
  | TLockTime _ => TKLocktime
  | TRefund _ => TKRefund
  | TPubKeys _ => TKPubkeys
  | TNSigsRefund _ => TKNSigsRefund
  | TCustom name _ => TKCustom name
  end.

(** [tag[1]] panics when the tag has one element. *)
Definition index1 (tag : list string) : res Error string := expect (nth_error tag 1).

Definition parse_pubkeys (l : list string) : res Error (list pubkey) :=
  collect (fun p => map_err NUT01 (Nut01.from_str p)) l.

Definition parse_u64 (s : string) : res Error N := ok_or ParseInt (u64_parse s).

(** [Tag::try_from(Vec<S>)]. *)
Definition Tag_try_from (tag : list string) : res Error Tag :=
  let? tag_kind := ok_or KindNotFound (TagKind_from <$> head tag) in
  match tag_kind with
  | TKSigFlag => let? s := index1 tag in let? f := SigFlag_from_str s in Ok (TSigFlag f)
  | TKNSigs => let? s := index1 tag in let? n := parse_u64 s in Ok (TNSigs n)
  | TKLocktime => let? s := index1 tag in let? n := parse_u64 s in Ok (TLockTime n)
  | TKRefund => let? ks := parse_pubkeys (tail tag) in Ok (TRefund ks)
  | TKPubkeys => let? ks := parse_pubkeys (tail tag) in Ok (TPubKeys ks)
  | TKNSigsRefund => let? s := index1 tag in let? n := parse_u64 s in Ok (TNSigsRefund n)
  | TKCustom name => Ok (TCustom name (tail tag))
  end.

(** [From<Tag> for Vec<String>], called by [Tag::as_vec]. *)
Definition as_vec (t : Tag) : list string :=
  match t with
  | TSigFlag f => [TagKind_to_string TKSigFlag; SigFlag_to_string f]
  | TNSigs n => [TagKind_to_string TKNSigs; u64_to_string n]
  | TLockTime n => [TagKind_to_string TKLocktime; u64_to_string n]
  | TPubKeys ks => TagKind_to_string TKPubkeys :: map Nut01.to_hex ks
  | TRefund ks => TagKind_to_string TKRefund :: map Nut01.to_hex ks
  | TNSigsRefund n => [TagKind_to_string TKNSigsRefund; u64_to_string n]
  | TCustom name c => name :: c
  end.

Record Conditions := mkConditions {
  locktime : option N;
  pubkeys : option (list pubkey);
  refund_keys : option (list pubkey);
  num_sigs : option N;
  sig_flag : SigFlag;
  num_sigs_refund : option N;
}.

(** [Conditions::new]: a past locktime is accepted. *)
Definition Conditions_new (locktime : option N) (pubkeys refund_keys : option (list pubkey))
    (num_sigs : option N) (sig_flag : option SigFlag) (num_sigs_refund : option N) : res Error Conditions :=
  Ok (mkConditions locktime pubkeys refund_keys num_sigs (default SigInputs sig_flag) num_sigs_refund).

(** [if let Some(x) = field { tags.push(Tag::T(x).as_vec()) }]. *)
Definition push_tag {A} (mk : A -> Tag) (o : option A) : list (list string) :=
  match o with Some a => [as_vec (mk a)] | None => [] end.

(** [From<Conditions> for Vec<Vec<String>>]. *)
Definition Conditions_into_tags (c : Conditions) : list (list string) :=
  push_tag TPubKeys (pubkeys c) ++
  push_tag TLockTime (locktime c) ++
  push_tag TNSigs (num_sigs c) ++
  push_tag TRefund (refund_keys c) ++
  push_tag TNSigsRefund (num_sigs_refund c) ++
  [as_vec (TSigFlag (sig_flag c))].

(** Collecting [(tag.kind(), tag)] pairs into a [HashMap]: the last one wins. *)
Definition tag_map (tags : list Tag) : gmap TagKind Tag :=
  fold_left (fun m t => <[Tag_kind t := t]> m) tags ∅.

(** [TryFrom<Vec<Vec<String>>> for Conditions]: every tag is unwrapped. *)
Definition Conditions_try_from (tags : list (list string)) : res Error Conditions :=
  let? parsed := collect (fun t => unwrap (Tag_try_from t)) tags in
  let m := tag_map parsed in
  let pubkeys := match m !! TKPubkeys with Some (TPubKeys ks) => Some ks | _ => None end in
  let locktime := match m !! TKLocktime with Some (TLockTime t) => Some t | _ => None end in
  let refund_keys := match m !! TKRefund with Some (TRefund ks) => Some ks | _ => None end in
  let sig_flag := match m !! TKSigFlag with Some (TSigFlag f) => f | _ => SigInputs end in
  let num_sigs := match m !! TKNSigs with Some (TNSigs n) => Some n | _ => None end in
  let num_sigs_refund := match m !! TKNSigsRefund with Some (TNSigsRefund n) => Some n | _ => None end in
  Ok (mkConditions locktime pubkeys refund_keys num_sigs sig_flag num_sigs_refund).

Inductive SpendingConditions :=
| P2PKConditions (data : pubkey) (conditions : option Conditions)
| HTLCConditions (data : digest) (conditions : option Conditions).

Definition sc_kind (self : SpendingConditions) : Nut10.Kind :=
  match self with P2PKConditions _ _ => Nut10.P2PK | HTLCConditions _ _ => Nut10.HTLC end.

Definition sc_conditions (self : SpendingConditions) : option Conditions :=
  match self with P2PKConditions _ c | HTLCConditions _ c => c end.

Definition sc_num_sigs (self : SpendingConditions) : option N := sc_conditions self ≫= num_sigs.
Definition sc_locktime (self : SpendingConditions) : option N := sc_conditions self ≫= locktime.
Definition sc_refund_keys (self : SpendingConditions) : option (list pubkey) :=
  sc_conditions self ≫= refund_keys.

(** [SpendingConditions::pubkeys]: for P2PK the data key and the tag keys,
    deduplicated through a [HashSet]. *)
Definition sc_pubkeys (self : SpendingConditions) : option (list pubkey) :=
  match self with
  | P2PKConditions data conditions =>
      let keys := data :: match conditions with Some c => default [] (pubkeys c) | None => [] end in
      Some (elements (list_to_set keys : gset pubkey))
  | HTLCConditions _ conditions => conditions ≫= pubkeys
  end.

(** [tags().and_then(|t| t.clone().try_into().ok())]. *)
Definition conditions_of_tags (tags : option (list (list string))) : res Error (option Conditions) :=
  match tags with
  | None => Ok None
  | Some t => res_ok (Conditions_try_from t)
  end.

(** [TryFrom<Nut10Secret> for SpendingConditions]. *)
Definition sc_try_from_nut10 (s : Nut10.Secret) : res Error SpendingConditions :=
  let sd := Nut10.secret_data s in
  match Nut10.kind s with
  | Nut10.P2PK =>
      let? data := map_err NUT01 (Nut01.from_str (Nut10.data sd)) in
      let? conditions := conditions_of_tags (Nut10.tags sd) in
      Ok (P2PKConditions data conditions)
  | Nut10.HTLC =>
      let? data := ok_or InvalidHash (digest_from_str (Nut10.data sd)) in
      let? conditions := conditions_of_tags (Nut10.tags sd) in
      Ok (HTLCConditions data conditions)
  end.

(** [From<SpendingConditions> for nut10::Secret]. *)
Definition sc_into_nut10 (fresh_nonce : string) (sc : SpendingConditions) : Nut10.Secret :=
  match sc with
  | P2PKConditions data conditions =>
      Nut10.Secret_new fresh_nonce Nut10.P2PK (Nut01.to_hex data) (Conditions_into_tags <$> conditions)
  | HTLCConditions data conditions =>
      Nut10.Secret_new fresh_nonce Nut10.HTLC (digest_to_string data) (Conditions_into_tags <$> conditions)
  end.

Definition new_htlc_hash (hash : string) (conditions : option Conditions) : res Error SpendingConditions :=
  let? h := ok_or InvalidHash (digest_from_str hash) in
  Ok (HTLCConditions h conditions).

Definition new_p2pk (pk : pubkey) (conditions : option Conditions) : SpendingConditions :=
  P2PKConditions pk conditions.

Context {SD : Serde}.

(** [TryFrom<&Secret> for SpendingConditions]. *)
Definition sc_try_from_secret (secret : string) : res Error SpendingConditions :=
  let? nut10 := ok_or SecretError (nut10_from_json secret) in sc_try_from_nut10 nut10.

(** [TryFrom<nut10::Secret> for secret::Secret]. *)
Definition sc_into_secret (fresh_nonce : string) (sc : SpendingConditions) : string :=
  nut10_to_json (sc_into_nut10 fresh_nonce sc).

(** ** Well-formedness of the values the types of the source allow *)

Definition tag_wf (t : Tag) : Prop :=
  match t with
  | TNSigs n | TLockTime n | TNSigsRefund n => u64 n
  | TCustom name _ => TagKind_from name = TKCustom name
  | _ => True
  end.

Definition opt_u64 (o : option N) : Prop := from_option u64 True o.

Definition conditions_wf (c : Conditions) : Prop :=
  opt_u64 (locktime c) /\ opt_u64 (num_sigs c) /\ opt_u64 (num_sigs_refund c).

Definition sc_wf (sc : SpendingConditions) : Prop := from_option conditions_wf True (sc_conditions sc).

(** Whether a tag of a secret parses. *)
Definition tag_parses (t : list string) : bool :=
  match Tag_try_from t with Ok _ => true | _ => false end.

(** ** Lemmas *)

Lemma Conditions_try_from_Ok tags :
  forallb tag_parses tags = true -> exists c, Conditions_try_from tags = Ok c.
Proof.
  intros H. unfold Conditions_try_from.
  assert (exists ps, collect (fun t => unwrap (Tag_try_from t)) tags = Ok (E:=Error) ps) as [ps ->]; [|eauto].
  induction tags as [|t tags IH]; simpl in *; [eauto|].
  apply andb_true_iff in H as [Ht H]. destruct (IH H) as [ps ->].
  unfold tag_parses in Ht. destruct (Tag_try_from t); simpl; [eauto|done..].
Qed.

Lemma collect_unwrap_panic tags :
  forallb tag_parses tags = false ->
  collect (fun t => unwrap (Tag_try_from t)) tags = Panic (E:=Error).
Proof.
  induction tags as [|t tags IH]; simpl; [done|]. unfold tag_parses at 1.
  destruct (Tag_try_from t); simpl; [|done..]. intros H. by rewrite (IH H).
Qed.

Lemma Conditions_try_from_no_err tags e : Conditions_try_from tags <> Err e.
Proof.
  unfold Conditions_try_from. destruct (forallb tag_parses tags) eqn:H.
  - destruct (Conditions_try_from_Ok tags H) as [c Hc]. unfold Conditions_try_from in Hc.
    by destruct (collect _ tags).
  - by rewrite collect_unwrap_panic.
Qed.

Context {CL : CryptoLaws CR}.

Lemma parse_pubkeys_to_hex ks : parse_pubkeys (map Nut01.to_hex ks) = Ok ks.
Proof.
  unfold parse_pubkeys, Nut01.from_str. induction ks as [|k ks IH]; simpl; [done|].
  rewrite NutsFacts.from_hex_to_hex. simpl. by rewrite IH.
Qed.

Lemma parse_u64_to_string n : u64 n -> parse_u64 (u64_to_string n) = Ok n.
Proof. intros H. unfold parse_u64. by rewrite u64_parse_to_string. Qed.

Lemma Tag_try_from_as_vec t : tag_wf t -> Tag_try_from (as_vec t) = Ok t.
Proof.
  destruct t as [[]|n|n|ks|ks|n|name c]; simpl; intros H; try done;
    unfold Tag_try_from; simpl;
    rewrite ?parse_u64_to_string, ?parse_pubkeys_to_hex by done; try done.
  by rewrite H.
Qed.

Lemma collect_push_tag {A} (mk : A -> Tag) o :
  (forall a, o = Some a -> tag_wf (mk a)) ->
  collect (fun t => unwrap (Tag_try_from t)) (push_tag mk o) =
  Ok (E:=Error) (from_option (fun a => [mk a]) [] o).
Proof.
  destruct o as [a|]; simpl; intros H; [|done].
  by rewrite Tag_try_from_as_vec by (by apply H).
Qed.

(** The tags a [Conditions] value is written to, as [Tag]s. *)
Definition condition_tags (c : Conditions) : list Tag :=
  from_option (fun a => [TPubKeys a]) [] (pubkeys c) ++
  from_option (fun a => [TLockTime a]) [] (locktime c) ++
  from_option (fun a => [TNSigs a]) [] (num_sigs c) ++
  from_option (fun a => [TRefund a]) [] (refund_keys c) ++
  from_option (fun a => [TNSigsRefund a]) [] (num_sigs_refund c) ++
  [TSigFlag (sig_flag c)].

Lemma collect_into_tags c :
  conditions_wf c ->
  collect (fun t => unwrap (Tag_try_from t)) (Conditions_into_tags c) = Ok (E:=Error) (condition_tags c).
Proof.
  intros (Hl & Hn & Hr). unfold Conditions_into_tags.
  rewrite !collect_app, !collect_push_tag by (intros a Ha; try done; rewrite Ha in *; done).
  by destruct c as [? ? ? ? [] ?].
Qed.

Lemma Conditions_try_from_into_tags c :
  conditions_wf c -> Conditions_try_from (Conditions_into_tags c) = Ok c.
Proof.
  intros H. unfold Conditions_try_from. rewrite collect_into_tags by done.
  by destruct c as [[] [] [] [] ? []].
Qed.

Lemma conditions_of_tags_roundtrip o :
  from_option conditions_wf True o -> conditions_of_tags (Conditions_into_tags <$> o) = Ok o.
Proof.
  destruct o as [c|]; simpl; intros H; [|done]. by rewrite Conditions_try_from_into_tags.
Qed.

End defs.

(** ** Properties *)
Section properties.
Context {CR : Crypto} {CL : CryptoLaws CR}.

(** Every tag is read back from the vector it is written to; a custom tag
    needs a name that is not one of the reserved ones. *)
Theorem tag_roundtrip t (Hwf : tag_wf t) : Tag_try_from (as_vec t) = Ok t.
Proof. by apply Tag_try_from_as_vec. Qed.

(** Reading the tags of a secret into [Conditions] never returns an error:
    it panics exactly when one of the tags does not parse (the [unwrap] in the
    conversion), and returns conditions otherwise. *)
Theorem conditions_try_from_panics_iff tags :
  (Conditions_try_from tags = Panic <-> forallb tag_parses tags = false) /\
  (forall e, Conditions_try_from tags <> Err e).
Proof.
  split; [|apply Conditions_try_from_no_err]. split.
  - intros Hp. destruct (forallb tag_parses tags) eqn:H; [|done].
    destruct (Conditions_try_from_Ok tags H) as [c Hc]. congruence.
  - intros H. unfold Conditions_try_from. by rewrite collect_unwrap_panic.
Qed.

Context {SD : Serde} {SL : SerdeLaws SD}.

(** Spending conditions survive being turned into a NUT-10 secret, written
    as the JSON string of a proof and read back: kind, lock data, locktime,
    keys, refund keys, signature counts and signature flag are all kept. *)
Theorem spending_conditions_roundtrip nonce sc (Hwf : sc_wf sc) :
  sc_try_from_secret (sc_into_secret nonce sc) = Ok sc.
Proof.
  unfold sc_try_from_secret, sc_into_secret. rewrite nut10_json_roundtrip. simpl.
  destruct sc as [k o|d o]; unfold sc_try_from_nut10; simpl;
    rewrite conditions_of_tags_roundtrip by done.
  - unfold Nut01.from_str. by rewrite NutsFacts.from_hex_to_hex.
  - by rewrite digest_roundtrip.
Qed.

End properties.
End Nut11.
