(* ===== verification/Concrete.v ===== *)
(** * A small executable instance of the library interfaces

    The classes [Crypto] and [Serde] stand for code outside the repository.
    This file instantiates them with concrete functions that satisfy their
    laws, so that the definitions of the development can be evaluated: a key
    is one byte printed as 66 characters, a digest is the message itself, a
    signature names the key and the digest, and a NUT-10 secret is written as
    the bits of its encoding. *)
From Stdlib Require Import Ascii.
From stdpp Require Import base numbers list sorting strings gmap.
From S2P Require Import Prelude Amount Nuts Conditions.

Module Concrete.

Definition key_tail : string :=
  "00000000000000000000000000000000000000000000000000000000000000000".

Definition key_to_string (k : ascii) : string := String k key_tail.
Definition key_from_str (s : string) : option ascii :=
  match s with String k rest => if String.eqb rest key_tail then Some k else None | _ => None end.

(** The byte before the four counter bytes: the last byte of the message. *)
Definition point_of (d : string) : option ascii := String.get (String.length d - 5) d.

Definition sig_to_string (s : ascii * string) : string := String (fst s) (snd s).
Definition sig_from_str (s : string) : option (ascii * string) :=
  match s with String k d => Some (k, d) | EmptyString => None end.

Definition sig_verify (s : ascii * string) (d : string) (k : ascii) : bool :=
  bool_decide (s = (k, d)).

#[export] Instance crypto : Crypto := {|
  pubkey := ascii;
  seckey := ascii;
  signature := ascii * string;
  digest := string;
  secp_pubkey_from_str := key_from_str;
  secp_pubkey_to_string := key_to_string;
  secp_pubkey_serialize := key_to_string;
  xonly_even := point_of;
  seckey_public_key := fun k => k;
  sha256 := fun s => s;
  digest_bytes := fun d => d;
  digest_from_str := fun s => Some s;
  digest_to_string := fun d => d;
  verify_schnorr := sig_verify;
  sign_schnorr := fun k d => (k, d);
  signature_from_str := sig_from_str;
  signature_to_string := sig_to_string;
|}.

#[export] Instance crypto_laws : CryptoLaws crypto.
Proof.
  split; simpl; intros; try done.
  - by destruct s.
  - by apply bool_decide_eq_true_2.
Qed.

Fixpoint bits_of_pos (p : positive) : string :=
  match p with
  | xH => EmptyString
  | xO p => String "0"%char (bits_of_pos p)
  | xI p => String "1"%char (bits_of_pos p)
  end.

Fixpoint pos_of_bits (s : string) : option positive :=
  match s with
  | EmptyString => Some xH
  | String ch s => p ← pos_of_bits s;
      if Ascii.eqb ch "0"%char then Some (xO p)
      else if Ascii.eqb ch "1"%char then Some (xI p) else None
  end.

Lemma pos_of_bits_of_pos p : pos_of_bits (bits_of_pos p) = Some p.
Proof. by induction p as [p IH|p IH|]; simpl; [rewrite IH..|]. Qed.

Definition secret_to_tuple (s : Nut10.Secret) : bool * string * string * option (list (list string)) :=
  (match Nut10.kind s with Nut10.P2PK => true | Nut10.HTLC => false end,
   Nut10.nonce (Nut10.secret_data s), Nut10.data (Nut10.secret_data s), Nut10.tags (Nut10.secret_data s)).

Definition secret_of_tuple (t : bool * string * string * option (list (list string))) : Nut10.Secret :=
  let '(k, n, d, ts) := t in
  Nut10.mkSecret (if k then Nut10.P2PK else Nut10.HTLC) (Nut10.mkSecretData n d ts).

#[export] Instance serde : Serde := {|
  nut10_from_json s := secret_of_tuple <$> (pos_of_bits s ≫= decode);
  nut10_to_json s := bits_of_pos (encode (secret_to_tuple s));
|}.

#[export] Instance serde_laws : SerdeLaws serde.
Proof.
  split. intros [k [n d ts]]. simpl. rewrite pos_of_bits_of_pos. simpl.
  rewrite decode_encode. simpl. by destruct k.
Qed.

(** Some keys, and two of their secret keys. *)
Definition alice : @pubkey crypto := "A"%char.
Definition bob : @pubkey crypto := "B"%char.
Definition carol : @pubkey crypto := "C"%char.

Definition alice_sk : @seckey crypto := "A"%char.
Definition bob_sk : @seckey crypto := "B"%char.

End Concrete.

(** ** The interface theorems at concrete values *)
Module ConcreteConditions.
Import Nut11 Concrete.

Definition sample_conditions : Conditions :=
  mkConditions (Some 1700000000%N) (Some [bob; carol]) (Some [alice]) (Some 2%N) SigAll (Some 1%N).

Lemma tag_roundtrip_witness : Tag_try_from (as_vec (TRefund [alice; bob])) = Ok (TRefund [alice; bob]).
Proof. apply tag_roundtrip. exact I. Defined.

Lemma spending_conditions_roundtrip_witness :
  sc_try_from_secret (sc_into_secret "nonce" (P2PKConditions alice (Some sample_conditions))) =
  Ok (P2PKConditions alice (Some sample_conditions)).
Proof. apply spending_conditions_roundtrip. vm_compute. repeat split; discriminate. Defined.

End ConcreteConditions.
