(* ===== verification/Spending.v ===== *)
(** * Spending conditions (nut11/mod.rs and nut14/mod.rs of crates/cashu)

    Verification of locked proofs: P2PK multisignatures with locktime and
    refund keys, hash time-locked contracts, the signature counter shared by
    them, the signature flag of a set of proofs, and SIG_ALL signatures over a
    whole swap or melt request.  The clock is an argument [now]. *)
From stdpp Require Import base numbers list sorting strings gmap.
From S2P Require Import Prelude Amount Nuts Conditions Concrete.

Local Open Scope N_scope.
Local Open Scope res_scope.

Module Spending.
Section defs.
Context {CR : Crypto} {SD : Serde}.
Import Nut00 Nut11.

(** ** Signature loops *)

(** [for v in pubkeys] inside the signature loop: the signature string is
    parsed again for every key, and a second hit on a key is an error. *)
Fixpoint count_keys (msg sigstr : string) (keys : list pubkey) (verified : gset pubkey)
    : res Error (gset pubkey) :=
  match keys with
  | [] => Ok verified
  | v :: keys' =>
      let? sig := ok_or Secp256k1 (signature_from_str sigstr) in
      if Nut01.verify v msg sig then
        (if bool_decide (v ∈ verified) then Err DuplicateSignature
         else count_keys msg sigstr keys' ({[v]} ∪ verified))
      else count_keys msg sigstr keys' verified
  end.

(** [for signature in witness_signatures.iter()]. *)
Fixpoint count_signatures (msg : string) (keys : list pubkey) (sigs : list string)
    (verified : gset pubkey) : res Error (gset pubkey) :=
  match sigs with
  | [] => Ok verified
  | s :: sigs' =>
      let? verified' := count_keys msg s keys verified in
      count_signatures msg keys sigs' verified'
  end.

(** The refund loop: [true] is the early [return Ok(())]. *)
Fixpoint refund_keys_loop (msg : string) (sig : signature) (needed : N) (keys : list pubkey)
    (valid : gset pubkey) : bool * gset pubkey :=
  match keys with
  | [] => (false, valid)
  | v :: keys' =>
      if Nut01.verify v msg sig then
        let valid' := {[v]} ∪ valid in
        if needed <=? N.of_nat (size valid') then (true, valid')
        else refund_keys_loop msg sig needed keys' valid'
      else refund_keys_loop msg sig needed keys' valid
  end.

Fixpoint refund_loop (msg : string) (needed : N) (keys : list pubkey) (sigs : list string)
    (valid : gset pubkey) : res Error unit :=
  match sigs with
  | [] => Err SpendConditionsNotMet
  | s :: sigs' =>
      let? sig := ok_or InvalidSignature (signature_from_str s) in
      match refund_keys_loop msg sig needed keys valid with
      | (true, _) => Ok tt
      | (false, valid') => refund_loop msg needed keys sigs' valid'
      end
  end.

(** [valid_signatures]: keys outside, parsed signatures inside. *)
Fixpoint valid_signatures_key (msg : string) (pk : pubkey) (sigs : list signature)
    (verified : gset pubkey) : res Error (gset pubkey) :=
  match sigs with
  | [] => Ok verified
  | s :: sigs' =>
      if Nut01.verify pk msg s then
        (if bool_decide (pk ∈ verified) then Err DuplicateSignature
         else valid_signatures_key msg pk sigs' ({[pk]} ∪ verified))
      else valid_signatures_key msg pk sigs' verified
  end.

Fixpoint valid_signatures_loop (msg : string) (keys : list pubkey) (sigs : list signature)
    (verified : gset pubkey) : res Error (gset pubkey) :=
  match keys with
  | [] => Ok verified
  | pk :: keys' =>
      let? verified' := valid_signatures_key msg pk sigs verified in
      valid_signatures_loop msg keys' sigs verified'
  end.

Definition valid_signatures (msg : string) (keys : list pubkey) (sigs : list signature) : res Error N :=
  let? verified := valid_signatures_loop msg keys sigs ∅ in Ok (N.of_nat (size verified)).

Definition parse_signatures (sigs : list string) : res Error (list signature) :=
  collect (fun s => ok_or Secp256k1 (signature_from_str s)) sigs.

(** ** P2PK on proofs and blinded messages *)

Definition sign_p2pk (self : Proof) (sk : seckey) : Proof :=
  let sig := Nut01.sign sk (secret self) in
  set_witness self (witness_with_signatures (witness self) [signature_to_string sig]).

Definition witness_signatures (w : option Witness) : option (list string) :=
  match w with Some w => signatures w | None => None end.

(** The keys of the multisignature: the [pubkeys] tag and, for a P2PK secret,
    the key in the data field. *)
Definition p2pk_keys (secret10 : Nut10.Secret) (conds : Conditions) : res Error (list pubkey) :=
  let keys := default [] (pubkeys conds) in
  if decide (Nut10.kind secret10 = Nut10.P2PK) then
    let? k := map_err NUT01 (Nut01.from_str (Nut10.data (Nut10.secret_data secret10))) in
    Ok (keys ++ [k])
  else Ok keys.

(** Enough distinct keys signed, before the locktime. *)
Definition p2pk_multisig (msg : string) (secret10 : Nut10.Secret) (conds : Conditions)
    (sigs : list string) : res Error unit :=
  let? keys := p2pk_keys secret10 conds in
  let? verified := count_signatures msg keys sigs ∅ in
  if default 1 (num_sigs conds) <=? N.of_nat (size verified) then Ok tt
  else Err SpendConditionsNotMet.

Definition verify_p2pk (now : N) (self : Proof) : res Error unit :=
  let? secret10 := ok_or SerdeJsonError (nut10_from_json (secret self)) in
  let sd := Nut10.secret_data secret10 in
  let? conds := Conditions_try_from (default [] (Nut10.tags sd)) in
  let msg := secret self in
  let? sigs := ok_or SignaturesNotProvided (witness_signatures (witness self)) in
  match locktime conds with
  | Some lt =>
      if lt <=? now then
        match refund_keys conds with
        | Some rk => refund_loop msg (default 1 (num_sigs_refund conds)) rk sigs ∅
        | None => Ok tt
        end
      else p2pk_multisig msg secret10 conds sigs
  | None => p2pk_multisig msg secret10 conds sigs
  end.

Definition bm_sign_p2pk (self : BlindedMessage) (sk : seckey) : BlindedMessage :=
  let sig := Nut01.sign sk (Nut01.to_bytes (blinded_secret self)) in
  set_bm_witness self (witness_with_signatures (bm_witness self) [signature_to_string sig]).

Definition bm_verify_p2pk (self : BlindedMessage) (keys : list pubkey) (required_sigs : N) : res Error unit :=
  let? verified :=
    (match bm_witness self with
     | Some w =>
         let? sigs := ok_or SignaturesNotProvided (signatures w) in
         count_signatures (Nut01.to_bytes (blinded_secret self)) keys sigs ∅
     | None => Ok ∅
     end) in
  if required_sigs <=? N.of_nat (size verified) then Ok tt else Err SpendConditionsNotMet.

(** ** HTLC *)

Inductive HtlcError :=
| HIncorrectSecretKind
| HInvalidHash
| HPreimage
| HSignaturesNotProvided
| HSecp256k1
| HNUT11 (e : Error)
| HSerde.

Definition htlc_parse_signatures (sigs : list string) : res HtlcError (list signature) :=
  collect (fun s => ok_or HSecp256k1 (signature_from_str s)) sigs.

(** The refund branch: [Ok true] when a refund signature lets the proof through. *)
Definition htlc_refund (msg : string) (conds : Conditions) (w : Witness) : res HtlcError bool :=
  match refund_keys conds with
  | Some rk =>
      let? sigs := ok_or HSignaturesNotProvided (signatures w) in
      let? sigs := htlc_parse_signatures sigs in
      let? n := map_err HNUT11 (valid_signatures msg rk sigs) in
      Ok (1 <=? n)
  | None => Ok false
  end.

Definition htlc_pubkeys (msg : string) (conds : Conditions) (hw : HTLCWitness) : res HtlcError unit :=
  match pubkeys conds with
  | Some keys =>
      let req_sigs := default 1 (num_sigs conds) in
      let? sigs := ok_or HSignaturesNotProvided (htlc_signatures hw) in
      let? sigs := htlc_parse_signatures sigs in
      let? valid_sigs := map_err HNUT11 (valid_signatures msg keys sigs) in
      ensure (req_sigs <=? valid_sigs) HIncorrectSecretKind
  | None => Ok tt
  end.

Definition htlc_hash_lock (secret10 : Nut10.Secret) (hw : HTLCWitness) : res HtlcError unit :=
  if decide (Nut10.kind secret10 = Nut10.HTLC) then
    let? hash_lock := ok_or HInvalidHash (digest_from_str (Nut10.data (Nut10.secret_data secret10))) in
    if decide (hash_lock = sha256 (preimage hw)) then Ok tt else Err HPreimage
  else Err HIncorrectSecretKind.

Definition verify_htlc (now : N) (self : Proof) : res HtlcError unit :=
  let? secret10 := ok_or HSerde (nut10_from_json (secret self)) in
  let? conditions := map_err HNUT11 (conditions_of_tags (Nut10.tags (Nut10.secret_data secret10))) in
  match witness self with
  | Some (WHTLC hw) =>
      let msg := secret self in
      match conditions with
      | None => htlc_hash_lock secret10 hw
      | Some conds =>
          let spend : res HtlcError unit := (let? _ := htlc_pubkeys msg conds hw in htlc_hash_lock secret10 hw) in
          match locktime conds with
          | Some lt =>
              if (lt <? now) && negb (bool_decide (is_Some (refund_keys conds))) then Ok tt
              else let? refunded := htlc_refund msg conds (WHTLC hw) in
                   if refunded then Ok tt else spend
          | None => spend
          end
      end
  | _ => Err HIncorrectSecretKind
  end.

(** ** Signature flag of a set of proofs *)

Record EnforceSigFlag := mkEnforceSigFlag {
  esf_sig_flag : SigFlag;
  esf_pubkeys : gset pubkey;
  esf_sigs_required : N;
}.

Definition enforce_step (acc : EnforceSigFlag) (proof : Proof) : res Error EnforceSigFlag :=
  match nut10_from_json (secret proof) with
  | None => Ok acc
  | Some secret10 =>
      let sd := Nut10.secret_data secret10 in
      let keys :=
        if decide (Nut10.kind secret10 = Nut10.P2PK) then
          match Nut01.from_str (Nut10.data sd) with
          | Ok k => {[k]} ∪ esf_pubkeys acc
          | _ => esf_pubkeys acc
          end
        else esf_pubkeys acc in
      match Nut10.tags sd with
      | None => Ok (mkEnforceSigFlag (esf_sig_flag acc) keys (esf_sigs_required acc))
      | Some tags =>
          match Conditions_try_from tags with
          | Ok conds =>
              Ok (mkEnforceSigFlag
                (if decide (sig_flag conds = SigAll) then SigAll else esf_sig_flag acc)
                (list_to_set (default [] (pubkeys conds)) ∪ keys)
                (match num_sigs conds with
                 | Some sigs => if esf_sigs_required acc <? sigs then sigs else esf_sigs_required acc
                 | None => esf_sigs_required acc
                 end))
          | Err _ => Ok (mkEnforceSigFlag (esf_sig_flag acc) keys (esf_sigs_required acc))
          | Panic => Panic
          end
      end
  end.

Fixpoint enforce_loop (acc : EnforceSigFlag) (proofs : list Proof) : res Error EnforceSigFlag :=
  match proofs with
  | [] => Ok acc
  | p :: ps => let? acc' := enforce_step acc p in enforce_loop acc' ps
  end.

Definition enforce_sig_flag (proofs : list Proof) : res Error EnforceSigFlag :=
  enforce_loop (mkEnforceSigFlag SigInputs ∅ 1) proofs.

(** ** SIG_ALL: the same code for swap and melt requests, over their inputs *)

Definition get_sig_all_required_sigs (inputs : list Proof) : res Error (N * SpendingConditions) :=
  let? first_input := ok_or SpendConditionsNotMet (head inputs) in
  let? first_conditions := sc_try_from_secret (secret first_input) in
  match first_conditions with
  | P2PKConditions _ conditions =>
      let? conds := ok_or IncorrectSecretKind conditions in
      if decide (sig_flag conds = SigAll) then Ok (default 1 (num_sigs conds), first_conditions)
      else Err IncorrectSecretKind
  | HTLCConditions _ _ => Err IncorrectSecretKind
  end.

Fixpoint matching_loop (first : Nut10.Secret) (rest : list Proof) : res Error unit :=
  match rest with
  | [] => Ok tt
  | p :: rest' =>
      let? current := ok_or SerdeJsonError (nut10_from_json (secret p)) in
      let sd := Nut10.secret_data current in
      let fd := Nut10.secret_data first in
      if negb (bool_decide (Nut10.data sd = Nut10.data fd)) then Err SpendConditionsNotMet
      else if negb (bool_decide (Nut10.tags sd = Nut10.tags fd)) then Err SpendConditionsNotMet
      else matching_loop first rest'
  end.

Definition verify_matching_conditions (inputs : list Proof) : res Error unit :=
  let? first_input := ok_or SpendConditionsNotMet (head inputs) in
  let? first_nut10 := ok_or SecretError (nut10_from_json (secret first_input)) in
  matching_loop first_nut10 (tail inputs).

Definition get_valid_witness_signatures (inputs : list Proof) : res Error (list signature) :=
  let? first_input := ok_or SpendConditionsNotMet (head inputs) in
  let? first_witness := ok_or SignaturesNotProvided (witness first_input) in
  let? witness_sigs := ok_or SignaturesNotProvided (signatures first_witness) in
  parse_signatures witness_sigs.

Definition can_sign_sig_all (inputs : list Proof) (sk : seckey) : res Error (SpendingConditions * pubkey) :=
  let? first_input := ok_or SpendConditionsNotMet (head inputs) in
  let? first_conditions := sc_try_from_secret (secret first_input) in
  let? _ :=
    (match first_conditions with
     | P2PKConditions _ conditions =>
         let? conds := ok_or IncorrectSecretKind conditions in
         if decide (sig_flag conds = SigAll) then Ok conds else Err IncorrectSecretKind
     | HTLCConditions _ _ => Err IncorrectSecretKind
     end) in
  let pk := seckey_public_key sk in
  let? authorized_keys := ok_or P2PKPubkeyRequired (sc_pubkeys first_conditions) in
  if bool_decide (pk ∈ authorized_keys) then Ok (first_conditions, pk) else Err SpendConditionsNotMet.

(** [sign_sig_all] over the inputs, given the message of the request. *)
Definition sign_sig_all (inputs : list Proof) (msg : string) (sk : seckey) : res Error (list Proof) :=
  let? _ := can_sign_sig_all inputs sk in
  let? _ := verify_matching_conditions inputs in
  let sig := signature_to_string (Nut01.sign sk msg) in
  match inputs with
  | [] => Err IncorrectSecretKind
  | first :: rest => Ok (set_witness first (witness_with_signatures (witness first) [sig]) :: rest)
  end.

Definition verify_sig_all (inputs : list Proof) (msg : string) : res Error unit :=
  let? (required_sigs, first_conditions) := get_sig_all_required_sigs inputs in
  let? _ := verify_matching_conditions inputs in
  let? sigs := get_valid_witness_signatures inputs in
  let? verifying_pubkeys := ok_or P2PKPubkeyRequired (sc_pubkeys first_conditions) in
  let? valid_sigs := valid_signatures msg verifying_pubkeys sigs in
  if required_sigs <=? valid_sigs then Ok tt else Err SpendConditionsNotMet.

Import Requests.

(** [SwapRequest::sig_all_msg_to_sign] and [MeltRequest::sig_all_msg_to_sign]. *)
Definition push_secrets (msg : string) (inputs : list Proof) : string :=
  fold_left (fun m p => m ++ secret p)%string inputs msg.
Definition push_outputs (msg : string) (outputs : list BlindedMessage) : string :=
  fold_left (fun m o => m ++ Nut01.to_hex (blinded_secret o))%string outputs msg.

Definition swap_sig_all_msg (self : SwapRequest) : string :=
  push_outputs (push_secrets "" (swap_inputs self)) (swap_outputs self).

Definition melt_sig_all_msg (self : MeltRequest) : string :=
  (push_outputs (push_secrets "" (melt_inputs self)) (default [] (melt_outputs self)) ++ melt_quote self)%string.

Definition swap_verify_sig_all (self : SwapRequest) : res Error unit :=
  verify_sig_all (swap_inputs self) (swap_sig_all_msg self).
Definition melt_verify_sig_all (self : MeltRequest) : res Error unit :=
  verify_sig_all (melt_inputs self) (melt_sig_all_msg self).

Definition swap_sign_sig_all (self : SwapRequest) (sk : seckey) : res Error SwapRequest :=
  let? inputs := sign_sig_all (swap_inputs self) (swap_sig_all_msg self) sk in
  Ok (mkSwapRequest inputs (swap_outputs self)).
Definition melt_sign_sig_all (self : MeltRequest) (sk : seckey) : res Error MeltRequest :=
  let? inputs := sign_sig_all (melt_inputs self) (melt_sig_all_msg self) sk in
  Ok (mkMeltRequest (melt_quote self) inputs (melt_outputs self)).

(** [Mint::validate_sig_flag] of crates/cdk/src/mint/swap/mod.rs. *)
Definition validate_sig_flag (self : SwapRequest) : res Error unit :=
  let? esf := enforce_sig_flag (swap_inputs self) in
  if decide (esf_sig_flag esf = SigAll) then swap_verify_sig_all self else Ok tt.

(** ** Specification of the signature loops *)

(** The keys that [sig] verifies under, in order, with repetitions. *)
Definition key_hits (msg : string) (keys : list pubkey) (sig : signature) : list pubkey :=
  filter (fun k => Nut01.verify k msg sig = true) keys.

(** One entry per (signature, key) pair that verifies, signature by signature. *)
Definition hits (msg : string) (keys : list pubkey) (sigs : list string) : list pubkey :=
  sigs ≫= fun s => match signature_from_str s with Some g => key_hits msg keys g | None => [] end.

#[local] Arguments key_hits : simpl never.
#[local] Arguments hits : simpl never.

(** The same pairs, key by key, for parsed signatures. *)
Definition sig_hits (msg : string) (sigs : list signature) (k : pubkey) : list pubkey :=
  (fun _ => k) <$> filter (fun g => Nut01.verify k msg g = true) sigs.
Definition pair_hits (msg : string) (keys : list pubkey) (sigs : list signature) : list pubkey :=
  keys ≫= sig_hits msg sigs.

Definition parses (s : string) : Prop := is_Some (signature_from_str s).

(** A signature is only parsed when there is a key to check it against. *)
Definition all_parse (keys : list pubkey) (sigs : list string) : Prop := keys = [] \/ Forall parses sigs.

(** At least [max 1 needed] distinct refund keys signed, counting a prefix of
    the signatures in which every signature parses. *)
Definition refund_authorized (msg : string) (needed : N) (keys : list pubkey) (sigs : list string) : Prop :=
  exists pre post, sigs = pre ++ post /\ Forall parses pre /\
    N.max 1 needed <= N.of_nat (size (list_to_set (hits msg keys pre) : gset pubkey)).

(** No key signed twice and at least [n_sigs] keys signed. *)
Definition multisig_authorized (msg : string) (secret10 : Nut10.Secret) (conds : Conditions)
    (sigs : list string) : Prop :=
  exists keys, p2pk_keys secret10 conds = Ok keys /\ all_parse keys sigs /\
    NoDup (hits msg keys sigs) /\ default 1 (num_sigs conds) <= N.of_nat (length (hits msg keys sigs)).

Definition expired (now : N) (conds : Conditions) : bool :=
  match locktime conds with Some lt => lt <=? now | None => false end.

(** What [verify_p2pk] accepts, signature by signature. *)
Definition p2pk_accepted (now : N) (p : Proof) : Prop :=
  exists secret10 conds sigs,
    nut10_from_json (secret p) = Some secret10 /\
    Conditions_try_from (default [] (Nut10.tags (Nut10.secret_data secret10))) = Ok conds /\
    witness_signatures (witness p) = Some sigs /\
    if expired now conds then
      match refund_keys conds with
      | Some rk => refund_authorized (secret p) (default 1 (num_sigs_refund conds)) rk sigs
      | None => True
      end
    else multisig_authorized (secret p) secret10 conds sigs.

(** ** What NUT-11 asks

    As the comment in [verify_p2pk] puts it: after the locktime the refund keys
    authorise, [n_sigs_refund] of them, or nobody has to when there are none;
    before it, [n_sigs] unique signers among the data key and the keys of the
    tag.  Nothing is said about the order of signatures, a signature that can
    not be read, or a key that signs twice. *)

Definition signed_by (msg : string) (sigs : list string) (k : pubkey) : Prop :=
  exists s g, s ∈ sigs /\ signature_from_str s = Some g /\ Nut01.verify k msg g = true.
Definition signers (n : N) (msg : string) (keys : list pubkey) (sigs : list string) : Prop :=
  exists S : gset pubkey, n <= N.of_nat (size S) /\ forall k, k ∈ S -> k ∈ keys /\ signed_by msg sigs k.

Definition nut11_spendable (now : N) (p : Proof) : Prop :=
  exists secret10 conds,
    nut10_from_json (secret p) = Some secret10 /\
    Conditions_try_from (default [] (Nut10.tags (Nut10.secret_data secret10))) = Ok conds /\
    let sigs := default [] (witness_signatures (witness p)) in
    if expired now conds then
      match refund_keys conds with
      | Some rk => signers (default 1 (num_sigs_refund conds)) (secret p) rk sigs
      | None => True
      end
    else exists keys, p2pk_keys secret10 conds = Ok keys /\ signers (default 1 (num_sigs conds)) (secret p) keys sigs.

(** What the code wants besides: a witness in any case, readable signatures, and,
    before the locktime, keys that are listed once and sign once; the number of
    refund signatures is not zero. *)
Definition signs_once (msg : string) (sigs : list string) (k : pubkey) : Prop :=
  forall i j s g s' g', sigs !! i = Some s -> sigs !! j = Some s' -> signature_from_str s = Some g -> signature_from_str s' = Some g' ->
    Nut01.verify k msg g = true -> Nut01.verify k msg g' = true -> i = j.
Definition plainly_signed (p : Proof) : Prop :=
  exists sigs, witness_signatures (witness p) = Some sigs /\ Forall parses sigs /\
    forall secret10 conds, nut10_from_json (secret p) = Some secret10 ->
      Conditions_try_from (default [] (Nut10.tags (Nut10.secret_data secret10))) = Ok conds ->
      num_sigs_refund conds <> Some 0 /\
      forall keys, p2pk_keys secret10 conds = Ok keys -> NoDup keys /\ Forall (signs_once (secret p) sigs) keys.

(** ** Lemmas on the loops *)

Lemma key_hits_cons msg k keys g :
  key_hits msg (k :: keys) g = (if Nut01.verify k msg g then [k] else []) ++ key_hits msg keys g.
Proof.
  unfold key_hits. rewrite filter_cons.
  destruct (Nut01.verify k msg g); case_decide; done.
Qed.

(** Inserting keys one by one, refusing a key that is already there: what both
    signature loops do with the keys that verify. *)
Fixpoint insert_all (ks : list pubkey) (V : gset pubkey) : res Error (gset pubkey) :=
  match ks with
  | [] => Ok V
  | k :: ks' => if bool_decide (k ∈ V) then Err DuplicateSignature else insert_all ks' ({[k]} ∪ V)
  end.

Lemma insert_all_spec ks V :
  insert_all ks V =
  if decide (NoDup ks /\ Forall (fun k => k ∉ V) ks)
  then Ok (list_to_set ks ∪ V) else Err DuplicateSignature.
Proof.
  revert V. induction ks as [|k ks IH]; intros V; cbn [insert_all].
  { by rewrite decide_True, list_to_set_nil, union_empty_l_L by (split; constructor). }
  case_bool_decide as Hk.
  { rewrite decide_False; [done|]. intros [_ Hd]. by inversion Hd. }
  rewrite IH, list_to_set_cons.
  erewrite decide_ext; [by rewrite (assoc_L (∪)), (comm_L (∪) (list_to_set _))|].
  rewrite NoDup_cons, Forall_cons, !Forall_forall. split.
  - intros [Hnd Hf]. repeat split; try done.
    + intros Hin. specialize (Hf k Hin). set_solver.
    + intros x Hx. specialize (Hf x Hx). set_solver.
  - intros [[Hnin Hnd] [_ Hf]]. split; [done|]. intros x Hx. specialize (Hf x Hx). set_solver.
Qed.

Lemma insert_all_app l1 l2 V :
  insert_all (l1 ++ l2) V = let? W := insert_all l1 V in insert_all l2 W.
Proof. revert V. induction l1 as [|k l1 IH]; intros V; simpl; [done|]. by case_bool_decide. Qed.

Lemma insert_all_empty ks :
  (let? V := insert_all ks ∅ in Ok (N.of_nat (size V))) =
  if decide (NoDup ks) then Ok (N.of_nat (length ks)) else Err DuplicateSignature.
Proof.
  rewrite insert_all_spec. destruct (decide (NoDup ks)) as [Hnd|Hnd].
  - rewrite decide_True by (split; [done|]; apply Forall_forall; set_solver).
    by rewrite (right_id_L ∅ (∪)), size_list_to_set.
  - rewrite decide_False; [done|]. by intros [].
Qed.

Lemma count_keys_insert msg s g keys V :
  signature_from_str s = Some g -> count_keys msg s keys V = insert_all (key_hits msg keys g) V.
Proof.
  intros Hg. revert V. induction keys as [|k keys IH]; intros V; [done|].
  cbn [count_keys]. rewrite Hg, key_hits_cons. cbn [ok_or].
  destruct (Nut01.verify k msg g); cbn [app insert_all]; [|apply IH].
  case_bool_decide; [done|apply IH].
Qed.

Lemma count_keys_spec msg s g keys V :
  signature_from_str s = Some g ->
  count_keys msg s keys V =
  if decide (NoDup (key_hits msg keys g) /\ Forall (fun k => k ∉ V) (key_hits msg keys g))
  then Ok (list_to_set (key_hits msg keys g) ∪ V) else Err DuplicateSignature.
Proof. intros Hg. by rewrite (count_keys_insert _ _ _ _ _ Hg), insert_all_spec. Qed.

Lemma count_keys_no_parse msg s keys V :
  signature_from_str s = None -> keys <> [] -> count_keys msg s keys V = Err Secp256k1.
Proof. intros Hs Hk. destruct keys; [done|]. simpl. by rewrite Hs. Qed.

Lemma hits_cons msg keys s sigs :
  hits msg keys (s :: sigs) =
  match signature_from_str s with Some g => key_hits msg keys g | None => [] end ++ hits msg keys sigs.
Proof. done. Qed.

Lemma hits_nil msg keys : hits msg keys [] = [].
Proof. done. Qed.

Lemma hits_no_keys msg sigs : hits msg [] sigs = [].
Proof.
  induction sigs as [|s sigs IH]; [done|]. rewrite hits_cons, IH. by destruct (signature_from_str s).
Qed.

Lemma count_signatures_no_keys msg sigs V : count_signatures msg [] sigs V = Ok V.
Proof. by induction sigs. Qed.

(** One more signature: the step of the induction over the signatures. *)
Lemma count_signatures_cons msg keys s g sigs V V' :
  signature_from_str s = Some g ->
  (forall W, count_signatures msg keys sigs W = Ok V' <->
     NoDup (hits msg keys sigs) /\ Forall (fun k => k ∉ W) (hits msg keys sigs) /\
     V' = list_to_set (hits msg keys sigs) ∪ W) ->
  count_signatures msg keys (s :: sigs) V = Ok V' <->
  NoDup (hits msg keys (s :: sigs)) /\ Forall (fun k => k ∉ V) (hits msg keys (s :: sigs)) /\
  V' = list_to_set (hits msg keys (s :: sigs)) ∪ V.
Proof.
  intros Hg IH. cbn [count_signatures]. rewrite (count_keys_spec _ _ _ _ _ Hg), hits_cons, Hg.
  rewrite NoDup_app, Forall_app, list_to_set_app_L.
  case_decide as Hd.
  - rewrite IH. destruct Hd as [Hnd Hf]. rewrite !Forall_forall in *. split.
    + intros (Hnd2 & Hf2 & ->). split_and!; try done; [..|set_solver];
        intros x Hx; [intros Hx2; specialize (Hf2 x Hx2)|specialize (Hf2 x Hx)]; set_solver.
    + intros ((_ & Hx & Hnd2) & (_ & Hf2) & ->). split_and!; try done; [|set_solver].
      intros x Hin. specialize (Hf2 x Hin). set_solver.
  - split; [done|]. intros ((Hnd & _) & (Hf & _) & _). by destruct Hd.
Qed.

Lemma count_signatures_Ok msg keys sigs V V' :
  count_signatures msg keys sigs V = Ok V' <->
  all_parse keys sigs /\ NoDup (hits msg keys sigs) /\
  Forall (fun k => k ∉ V) (hits msg keys sigs) /\ V' = list_to_set (hits msg keys sigs) ∪ V.
Proof.
  unfold all_parse. destruct (decide (keys = [])) as [->|Hne].
  { rewrite hits_no_keys, count_signatures_no_keys, list_to_set_nil, union_empty_l_L.
    split; [intros [= ->]|intros (_ & _ & _ & ->); done]. split; [by left|repeat constructor]. }
  revert V. induction sigs as [|s sigs IH]; intros V.
  { rewrite hits_nil, list_to_set_nil, union_empty_l_L. cbn. split; [intros [= ->]|intros (_ & _ & _ & ->)]; [|done].
    split; [by right|]. repeat constructor. }
  destruct (signature_from_str s) as [g|] eqn:Hg; cycle 1.
  { cbn [count_signatures]. rewrite count_keys_no_parse by done. split; [done|].
    intros ([?|Hp] & _); [done|]. apply Forall_cons in Hp as [[] _]. congruence. }
  rewrite Forall_cons.
  destruct (decide (Forall parses sigs)) as [Hps|Hps]; cycle 1.
  { split; [|naive_solver]. cbn [count_signatures].
    destruct (count_keys msg s keys V) as [W| |]; [|done..]. intros H. apply IH in H. naive_solver. }
  rewrite (count_signatures_cons _ _ _ _ _ _ _ Hg) by (intros W; rewrite IH; naive_solver).
  assert (parses s) by (unfold parses; eauto). naive_solver.
Qed.

(** The refund loop stops at the first key that completes the quorum. *)
Lemma refund_keys_loop_spec msg g needed keys V :
  N.of_nat (size V) < N.max 1 needed ->
  let all : gset pubkey := list_to_set (key_hits msg keys g) ∪ V in
  if N.max 1 needed <=? N.of_nat (size all)
  then fst (refund_keys_loop msg g needed keys V) = true
  else refund_keys_loop msg g needed keys V = (false, all).
Proof.
  revert V. induction keys as [|k keys IH]; intros V HV; cbn zeta.
  { simpl. rewrite union_empty_l_L. destruct (N.leb_spec (N.max 1 needed) (N.of_nat (size V))); [lia|done]. }
  cbn [refund_keys_loop]. rewrite key_hits_cons.
  destruct (Nut01.verify k msg g); cbn [app]; [|by apply IH].
  rewrite list_to_set_cons, <- (assoc_L (∪)), (comm_L (∪) {[k]}), <- (assoc_L (∪)), (comm_L (∪) V).
  assert (Hsub : (size ({[k]} ∪ V) <= size (list_to_set (key_hits msg keys g) ∪ ({[k]} ∪ V)))%nat)
    by (apply subseteq_size; set_solver).
  assert (Hone : (1 <= size ({[k]} ∪ V))%nat)
    by (rewrite <- (size_singleton (C:=gset pubkey) k); apply subseteq_size; set_solver).
  destruct (N.leb_spec needed (N.of_nat (size ({[k]} ∪ V)))).
  - destruct (N.leb_spec (N.max 1 needed) (N.of_nat (size (list_to_set (key_hits msg keys g) ∪ ({[k]} ∪ V)))));
      [done|lia].
  - apply IH. lia.
Qed.

Lemma refund_authorized_cons msg needed keys s g sigs (V : gset pubkey) :
  signature_from_str s = Some g ->
  N.of_nat (size V) < N.max 1 needed ->
  (exists pre post, s :: sigs = pre ++ post /\ Forall parses pre /\
     N.max 1 needed <= N.of_nat (size (list_to_set (hits msg keys pre) ∪ V))) <->
  (exists pre post, sigs = pre ++ post /\ Forall parses pre /\
     N.max 1 needed <=
     N.of_nat (size (list_to_set (hits msg keys pre) ∪ (list_to_set (key_hits msg keys g) ∪ V)))).
Proof.
  intros Hg HV. split.
  - intros ([|s' pre] & post & Heq & Hp & Hle); simplify_eq/=.
    { rewrite ?hits_nil, ?list_to_set_nil, union_empty_l_L in Hle. lia. }
    apply Forall_cons in Hp as [_ Hp]. exists pre, post. split_and!; [done..|].
    rewrite hits_cons, Hg, list_to_set_app_L in Hle.
    by rewrite (assoc_L (∪)), (comm_L (∪) (list_to_set (hits _ _ _))).
  - intros (pre & post & -> & Hp & Hle). exists (s :: pre), post. split_and!; [done| |].
    { constructor; [unfold parses; eauto|done]. }
    rewrite hits_cons, Hg, list_to_set_app_L.
    by rewrite (assoc_L (∪)), (comm_L (∪) (list_to_set (hits _ _ _))) in Hle.
Qed.

Lemma refund_loop_Ok msg needed keys sigs V :
  N.of_nat (size V) < N.max 1 needed ->
  refund_loop msg needed keys sigs V = Ok tt <->
  exists pre post, sigs = pre ++ post /\ Forall parses pre /\
    N.max 1 needed <= N.of_nat (size (list_to_set (hits msg keys pre) ∪ V)).
Proof.
  revert V. induction sigs as [|s sigs IH]; intros V HV.
  { simpl. split; [done|]. intros (pre & post & Heq & _ & Hle). symmetry in Heq.
    apply app_eq_nil in Heq as [-> _]. rewrite ?hits_nil, ?list_to_set_nil, union_empty_l_L in Hle. lia. }
  cbn [refund_loop]. destruct (signature_from_str s) as [g|] eqn:Hg; cbn [ok_or]; cycle 1.
  { split; [done|]. intros ([|s' pre] & post & Heq & Hp & Hle); simplify_eq/=.
    - rewrite ?hits_nil, ?list_to_set_nil, union_empty_l_L in Hle. lia.
    - apply Forall_cons in Hp as [[] _]. congruence. }
  rewrite (refund_authorized_cons _ _ _ _ _ _ _ Hg HV).
  pose proof (refund_keys_loop_spec msg g needed keys V HV) as Hspec. cbn zeta in Hspec.
  destruct (N.leb_spec (N.max 1 needed) (N.of_nat (size (list_to_set (key_hits msg keys g) ∪ V)))) as [Hq|Hq].
  - destruct (refund_keys_loop _ _ _ _ _) as [[] W]; [|done]. split; [|done]. intros _.
    exists [], sigs. split_and!; [done|constructor|]. by rewrite hits_nil, list_to_set_nil, union_empty_l_L.
  - rewrite Hspec. by apply IH.
Qed.

Lemma refund_loop_authorized msg needed keys sigs :
  refund_loop msg needed keys sigs ∅ = Ok tt <-> refund_authorized msg needed keys sigs.
Proof.
  rewrite refund_loop_Ok by (rewrite size_empty; lia). unfold refund_authorized.
  by setoid_rewrite (right_id_L ∅ (∪)).
Qed.

Lemma p2pk_multisig_authorized msg secret10 conds sigs :
  p2pk_multisig msg secret10 conds sigs = Ok tt <-> multisig_authorized msg secret10 conds sigs.
Proof.
  unfold p2pk_multisig, multisig_authorized.
  destruct (p2pk_keys secret10 conds) as [keys| |]; [|naive_solver..].
  assert (Hlen : NoDup (hits msg keys sigs) ->
    size (list_to_set (hits msg keys sigs) ∪ ∅ : gset pubkey) = length (hits msg keys sigs)).
  { intros Hnd. rewrite (right_id_L ∅ (∪)). by apply size_list_to_set. }
  pose proof (count_signatures_Ok msg keys sigs ∅) as Hc. split.
  - destruct (count_signatures msg keys sigs ∅) as [V| |] eqn:E; [|done..].
    destruct (N.leb_spec (default 1 (num_sigs conds)) (N.of_nat (size V))); [|done]. intros _.
    destruct (proj1 (Hc V) eq_refl) as (Hp & Hnd & _ & ->). rewrite Hlen in * by done. eauto.
  - intros (keys' & [= <-] & Hp & Hnd & Hle).
    rewrite (proj2 (Hc (list_to_set (hits msg keys sigs) ∪ ∅))); cycle 1.
    { split_and!; try done. apply Forall_forall. set_solver. }
    rewrite Hlen by done. by rewrite (proj2 (N.leb_le _ _) Hle).
Qed.

Lemma valid_signatures_key_insert msg pk sigs V :
  valid_signatures_key msg pk sigs V = insert_all (sig_hits msg sigs pk) V.
Proof.
  revert V. induction sigs as [|s sigs IH]; intros V; [done|].
  cbn [valid_signatures_key]. unfold sig_hits. rewrite filter_cons.
  destruct (Nut01.verify pk msg s); [rewrite decide_True by done|rewrite decide_False by done];
    cbn [fmap list_fmap insert_all]; [|apply IH].
  case_bool_decide; [done|apply IH].
Qed.

Lemma valid_signatures_loop_insert msg keys sigs V :
  valid_signatures_loop msg keys sigs V = insert_all (pair_hits msg keys sigs) V.
Proof.
  revert V. induction keys as [|k keys IH]; intros V; [done|].
  unfold pair_hits. cbn [valid_signatures_loop mbind list_bind]. rewrite insert_all_app, valid_signatures_key_insert.
  destruct (insert_all (sig_hits msg sigs k) V); [apply IH|done..].
Qed.

(** The count is the number of (key, signature) pairs that verify, and any key
    that occurs twice among them is an error. *)
Lemma valid_signatures_spec msg keys sigs :
  valid_signatures msg keys sigs =
  if decide (NoDup (pair_hits msg keys sigs))
  then Ok (N.of_nat (length (pair_hits msg keys sigs))) else Err DuplicateSignature.
Proof. unfold valid_signatures. by rewrite valid_signatures_loop_insert, insert_all_empty. Qed.

Lemma elem_of_pair_hits msg keys sigs k :
  k ∈ pair_hits msg keys sigs <-> k ∈ keys /\ exists g, g ∈ sigs /\ Nut01.verify k msg g = true.
Proof.
  unfold pair_hits, sig_hits. rewrite list_elem_of_bind. split.
  - intros (k' & Hk & Hin). apply list_elem_of_fmap in Hk as (g & -> & Hg).
    apply list_elem_of_filter in Hg as []. eauto.
  - intros (Hin & g & Hg & Hv). exists k. split; [|done]. apply list_elem_of_fmap.
    exists g. split; [done|]. by apply list_elem_of_filter.
Qed.

(** The count of [valid_signatures] is sound: when it returns [n], exactly
    [n] distinct keys of the list have a signature in the list that verifies
    under them. *)
Theorem valid_signatures_sound msg keys sigs n :
  valid_signatures msg keys sigs = Ok n ->
  exists signers : gset pubkey, N.of_nat (size signers) = n /\
    forall k, k ∈ signers <-> k ∈ keys /\ exists g, g ∈ sigs /\ Nut01.verify k msg g = true.
Proof.
  rewrite valid_signatures_spec. case_decide as Hnd; [|done]. intros [= <-].
  exists (list_to_set (pair_hits msg keys sigs)). rewrite size_list_to_set by done.
  split; [done|]. intros k. rewrite elem_of_list_to_set. apply elem_of_pair_hits.
Qed.

Lemma verify_p2pk_run now p : verify_p2pk now p = Ok tt <-> p2pk_accepted now p.
Proof.
  unfold verify_p2pk, p2pk_accepted.
  destruct (nut10_from_json (secret p)) as [s10|]; cbn [ok_or]; [|split; [done|by intros (?&?&?&?&_)]].
  destruct (Conditions_try_from (default [] (Nut10.tags (Nut10.secret_data s10)))) as [conds| |] eqn:Hc;
    [|split; [done|intros (?&?&?&?&?&_); simplify_eq; congruence]..].
  destruct (witness_signatures (witness p)) as [sigs|]; cbn [ok_or];
    [|split; [done|by intros (?&?&?&?&?&?&_)]].
  trans (if expired now conds then
    match refund_keys conds with
    | Some rk => refund_authorized (secret p) (default 1 (num_sigs_refund conds)) rk sigs
    | None => True
    end else multisig_authorized (secret p) s10 conds sigs).
  - unfold expired. destruct (locktime conds) as [lt|]; [destruct (lt <=? now)|];
      [destruct (refund_keys conds)|..];
      auto using refund_loop_authorized, p2pk_multisig_authorized; naive_solver.
  - split; [intros; do 3 eexists; split_and!; eauto|].
    intros (? & ? & ? & ? & Hc' & ? & H). simplify_eq. rewrite Hc in Hc'. by simplify_eq.
Qed.

Lemma elem_of_hits msg keys sigs k : k ∈ hits msg keys sigs <-> k ∈ keys /\ signed_by msg sigs k.
Proof.
  unfold hits, signed_by. rewrite list_elem_of_bind. split.
  - intros (s & Hk & Hs). destruct (signature_from_str s) as [g|] eqn:Hg; [|by apply not_elem_of_nil in Hk].
    apply list_elem_of_filter in Hk as [Hv Hk]. eauto 8.
  - intros (Hk & s & g & Hs & Hg & Hv). exists s. rewrite Hg. split; [|done]. by apply list_elem_of_filter.
Qed.

(** Hits are exactly the signers there can be. *)
Lemma signers_hits n msg keys sigs : signers n msg keys sigs <-> n <= N.of_nat (size (list_to_set (hits msg keys sigs) : gset pubkey)).
Proof.
  split.
  - intros (S & Hn & HS). apply (N.le_trans _ _ _ Hn). assert (S ⊆ list_to_set (hits msg keys sigs)) as Hsub%subseteq_size; [|lia].
    intros k Hk. apply elem_of_list_to_set, elem_of_hits. by apply HS.
  - intros Hn. exists (list_to_set (hits msg keys sigs)). split; [done|]. intros k Hk%elem_of_list_to_set. by apply elem_of_hits.
Qed.

Lemma signers_prefix n msg keys pre post : signers n msg keys pre -> signers n msg keys (pre ++ post).
Proof.
  intros (S & Hn & HS). exists S. split; [done|]. intros k Hk. destruct (HS k Hk) as (? & s & g & ? & ?). split; [done|].
  exists s, g. split; [|done]. by apply elem_of_app; left.
Qed.

Lemma hits_NoDup msg keys sigs : NoDup keys -> Forall (signs_once msg sigs) keys -> NoDup (hits msg keys sigs).
Proof.
  intros Hk. induction sigs as [|s sigs IH]; intros Hs; [constructor|]. rewrite hits_cons. apply NoDup_app. split_and!.
  - destruct (signature_from_str s); [by apply NoDup_filter|constructor].
  - intros k Hin [Hkk (s' & g' & Hs' & Hg' & Hv')]%elem_of_hits.
    destruct (signature_from_str s) as [g|] eqn:Hg; [|by apply not_elem_of_nil in Hin].
    apply list_elem_of_filter in Hin as [Hv _]. apply list_elem_of_lookup in Hs' as [j Hj].
    rewrite Forall_forall in Hs. by specialize (Hs k Hkk 0%nat (S j) s g s' g' eq_refl Hj Hg Hg' Hv Hv').
  - apply IH. eapply Forall_impl; [exact Hs|]. intros k Hone i j s1 g1 s2 g2 H1 H2 ? ? ? ?.
    by assert (S i = S j) as [= ->] by by eapply (Hone (S i) (S j)).
Qed.

(** C11. [Proof::verify_p2pk] enforces NUT-11, and refuses nothing that is plainly
    signed.  What it accepts, NUT-11 lets be spent at that time: after the
    locktime with enough distinct refund keys (or freely when there are none);
    before it, with [n_sigs] distinct signers among the data key and the
    [pubkeys] tag.  What NUT-11 lets be spent it accepts when the proof has a
    witness of readable signatures, no key is listed twice or signs twice, and
    the number of refund signatures is not zero; without these it can refuse
    such a proof. *)
Theorem verify_p2pk_nut11 now p :
  (verify_p2pk now p = Ok tt -> nut11_spendable now p) /\
  (nut11_spendable now p -> plainly_signed p -> verify_p2pk now p = Ok tt).
Proof.
  rewrite verify_p2pk_run. unfold p2pk_accepted, nut11_spendable. split.
  - intros (s10 & conds & sigs & Hj & Hc & Hw & H). exists s10, conds. split_and!; [done..|]. rewrite Hw. cbn [default]. revert H.
    destruct (expired now conds); [destruct (refund_keys conds) as [rk|]; [|done]|].
    + intros (pre & post & -> & _ & Hn). apply signers_prefix, signers_hits. etrans; [|exact Hn]. apply N.le_max_r.
    + intros (keys & Hk & _ & Hnd & Hn). exists keys. split; [done|]. apply signers_hits. by rewrite size_list_to_set.
  - intros (s10 & conds & Hj & Hc & H) (sigs & Hw & Hp & Hplain). destruct (Hplain _ _ Hj Hc) as [Hrefund Hkeys].
    exists s10, conds, sigs. split_and!; [done..|]. rewrite Hw in H. cbn [default] in H. revert H.
    destruct (expired now conds); [destruct (refund_keys conds) as [rk|]; [|done]|].
    + intros Hn%signers_hits. exists sigs, []. rewrite app_nil_r. split_and!; [done..|].
      destruct (num_sigs_refund conds) as [m|]; cbn -[size list_to_set] in *; [assert (m <> 0) by congruence|]; apply N.max_lub; lia.
    + intros (keys & Hk & Hn%signers_hits). destruct (Hkeys keys Hk) as [Hnd Hone]. pose proof (hits_NoDup _ _ _ Hnd Hone) as Hh.
      exists keys. split_and!; [done|by right|done|]. by rewrite size_list_to_set in Hn.
Qed.

(** ** HTLC *)

(** The keys of [keys] that signed [msg], counted as [valid_signatures] does. *)
Definition quorum (msg : string) (keys : list pubkey) (sigs : list string) (n : N) : Prop :=
  exists gs, collect (fun s => ok_or HSecp256k1 (signature_from_str s)) sigs = Ok gs /\
    NoDup (pair_hits msg keys gs) /\ n <= N.of_nat (length (pair_hits msg keys gs)).

Definition htlc_unlocked (secret10 : Nut10.Secret) (hw : HTLCWitness) : Prop :=
  Nut10.kind secret10 = Nut10.HTLC /\
  digest_from_str (Nut10.data (Nut10.secret_data secret10)) = Some (sha256 (preimage hw)).

Lemma htlc_hash_lock_Ok secret10 hw :
  htlc_hash_lock secret10 hw = Ok tt <-> htlc_unlocked secret10 hw.
Proof.
  unfold htlc_hash_lock, htlc_unlocked. case_decide; [|naive_solver].
  destruct (digest_from_str _) as [h|]; cbn [ok_or]; [|naive_solver].
  case_decide; naive_solver.
Qed.

Lemma valid_signatures_quorum msg keys sigs gs n :
  htlc_parse_signatures sigs = Ok gs -> valid_signatures msg keys gs = Ok n -> quorum msg keys sigs n.
Proof.
  unfold quorum, htlc_parse_signatures. intros Hgs. rewrite valid_signatures_spec.
  case_decide; [|done]. intros [= <-]. eexists. split_and!; [done..|lia].
Qed.

Lemma htlc_pubkeys_Ok msg conds hw keys :
  htlc_pubkeys msg conds hw = Ok tt -> pubkeys conds = Some keys ->
  exists sigs, htlc_signatures hw = Some sigs /\ quorum msg keys sigs (default 1 (num_sigs conds)).
Proof.
  unfold htlc_pubkeys, ensure, map_err. intros H Hk. rewrite Hk in H.
  destruct (htlc_signatures hw) as [sigs|]; simpl in H; [|done].
  exists sigs. split; [done|].
  destruct (htlc_parse_signatures sigs) as [gs| |] eqn:Hgs; [|done..].
  destruct (valid_signatures msg keys gs) as [n| |] eqn:Hn; [|done..].
  destruct (N.leb_spec (default 1 (num_sigs conds)) n) as [Hle|]; [|done].
  destruct (valid_signatures_quorum _ _ _ _ _ Hgs Hn) as (? & ? & ? & ?). eexists; split_and!; [done..|lia].
Qed.

Lemma htlc_refund_Ok msg conds w :
  htlc_refund msg conds w = Ok true ->
  exists rk sigs, refund_keys conds = Some rk /\ signatures w = Some sigs /\ quorum msg rk sigs 1.
Proof.
  unfold htlc_refund, map_err. destruct (refund_keys conds) as [rk|]; [|done].
  destruct (signatures w) as [sigs|]; simpl; [|done].
  destruct (htlc_parse_signatures sigs) as [gs| |] eqn:Hgs; [|done..].
  destruct (valid_signatures msg rk gs) as [n| |] eqn:Hn; [|done..].
  intros [= Hle%N.leb_le]. exists rk, sigs. split_and!; [done..|].
  destruct (valid_signatures_quorum _ _ _ _ _ Hgs Hn) as (? & ? & ? & ?). eexists; split_and!; [done..|lia].
Qed.

(** C12. A proof that [Proof::verify_htlc] accepts carries an HTLC witness, and
    either its locktime has passed and it has no refund keys, or a refund key
    signed it, or it is an HTLC secret whose preimage hashes to the lock and
    whose [pubkeys] quorum signed it. *)
Theorem verify_htlc_sound now p :
  verify_htlc now p = Ok tt ->
  exists secret10 hw conds,
    nut10_from_json (secret p) = Some secret10 /\ witness p = Some (WHTLC hw) /\
    conditions_of_tags (Nut10.tags (Nut10.secret_data secret10)) = Ok conds /\
    ((exists c lt, conds = Some c /\ locktime c = Some lt /\ lt < now /\ refund_keys c = None) \/
     (exists c lt rk sigs, conds = Some c /\ locktime c = Some lt /\ refund_keys c = Some rk /\
        htlc_signatures hw = Some sigs /\ quorum (secret p) rk sigs 1) \/
     (htlc_unlocked secret10 hw /\
      forall c keys, conds = Some c -> pubkeys c = Some keys ->
        exists sigs, htlc_signatures hw = Some sigs /\ quorum (secret p) keys sigs (default 1 (num_sigs c)))).
Proof.
  unfold verify_htlc. intros H.
  destruct (nut10_from_json (secret p)) as [s10|]; simpl in H; [|done].
  destruct (conditions_of_tags _) as [conds| |] eqn:Hc; simpl in H; [|done..].
  destruct (witness p) as [[hw|]|] eqn:Hw; [|done..].
  exists s10, hw, conds. split_and!; [done..|].
  assert (Hspend : forall c, conds = Some c ->
    (let? _ := htlc_pubkeys (secret p) c hw in htlc_hash_lock s10 hw) = Ok tt ->
    htlc_unlocked s10 hw /\
    forall c keys, conds = Some c -> pubkeys c = Some keys ->
      exists sigs, htlc_signatures hw = Some sigs /\ quorum (secret p) keys sigs (default 1 (num_sigs c))).
  { intros c -> Hok. destruct (htlc_pubkeys (secret p) c hw) as [[]| |] eqn:Hp; [|done..].
    split; [by apply htlc_hash_lock_Ok|]. intros ? keys [= <-] Hk. by eapply htlc_pubkeys_Ok. }
  destruct conds as [c|]; cycle 1.
  { right; right. split; [by apply htlc_hash_lock_Ok|done]. }
  destruct (locktime c) as [lt|] eqn:Hlt; [|by right; right; eapply Hspend].
  destruct (lt <? now) eqn:Hnow, (refund_keys c) as [rk|] eqn:Hrk; cbn [andb negb] in H;
    rewrite ?bool_decide_eq_true_2, ?bool_decide_eq_false_2 in H by (rewrite ?Hrk; eauto || by intros []);
    cbn [negb] in H; try by (left; eexists _, _; split_and!; [done..|by apply N.ltb_lt|done]).
  all: destruct (htlc_refund (secret p) c (WHTLC hw)) as [[]| |] eqn:Hr; [|by right; right; eapply Hspend|done..];
    apply htlc_refund_Ok in Hr as (rk' & sigs & Hrk' & Hs & Hq); simplify_eq;
    right; left; by eexists _, _, _, _.
Qed.

(** A refund key signature releases an HTLC proof that has a locktime and
    refund keys at any time, also before the locktime and without the
    preimage: the refund branch does not compare the locktime with the clock. *)
Theorem verify_htlc_refund_any_time now p secret10 conds lt rk hw sigs :
  nut10_from_json (secret p) = Some secret10 ->
  conditions_of_tags (Nut10.tags (Nut10.secret_data secret10)) = Ok (Some conds) ->
  locktime conds = Some lt -> refund_keys conds = Some rk ->
  witness p = Some (WHTLC hw) -> htlc_signatures hw = Some sigs ->
  quorum (secret p) rk sigs 1 ->
  verify_htlc now p = Ok tt.
Proof.
  intros Hs Hc Hlt Hrk Hw Hsigs (gs & Hgs & Hnd & Hle). unfold verify_htlc.
  rewrite Hs. cbn [ok_or]. rewrite Hc. cbn [map_err]. rewrite Hw, Hlt, Hrk.
  rewrite bool_decide_eq_true_2, andb_false_r by eauto.
  unfold htlc_refund. cbn [signatures]. rewrite Hrk, Hsigs. cbn [ok_or].
  unfold htlc_parse_signatures. rewrite Hgs, valid_signatures_spec, decide_True by done. cbn [map_err].
  by rewrite (proj2 (N.leb_le _ _) Hle).
Qed.

(** ** SIG_ALL *)

Lemma push_secrets_witness msg p w ps :
  push_secrets msg (set_witness p w :: ps) = push_secrets msg (p :: ps).
Proof. done. Qed.

Lemma matching_witness first w rest :
  verify_matching_conditions (set_witness first w :: rest) = verify_matching_conditions (first :: rest).
Proof. done. Qed.

(** One signature cannot count twice for a key. *)
Lemma pair_hits_singleton msg keys g : NoDup keys -> NoDup (pair_hits msg keys [g]).
Proof.
  intros Hnd. unfold pair_hits, sig_hits. induction Hnd as [|k keys Hk Hnd IH]; [constructor|].
  cbn [mbind list_bind]. rewrite filter_cons, filter_nil. case_decide; [|done].
  cbn. constructor; [|done]. intros Hin. apply (elem_of_pair_hits msg keys [g] k) in Hin. tauto.
Qed.

Lemma sc_pubkeys_NoDup data conds keys :
  sc_pubkeys (P2PKConditions data conds) = Some keys -> NoDup keys.
Proof. cbn. intros [= <-]. apply NoDup_elements. Qed.

Context {CL : CryptoLaws CR}.

Lemma sign_sig_all_verifies inputs msg sk inputs' first_conditions n :
  sign_sig_all inputs msg sk = Ok inputs' ->
  (witness <$> head inputs) = Some None ->
  get_sig_all_required_sigs inputs = Ok (n, first_conditions) -> n <= 1 ->
  verify_sig_all inputs' msg = Ok tt.
Proof.
  unfold sign_sig_all. intros H Hw Hreq Hn.
  destruct (can_sign_sig_all inputs sk) as [[sc pk]| |] eqn:Hcan; [|done..].
  destruct (verify_matching_conditions inputs) as [[]| |] eqn:Hm; [|done..].
  destruct inputs as [|first rest]; [done|]. simplify_eq/=.
  unfold verify_sig_all. rewrite matching_witness, Hm.
  change (get_sig_all_required_sigs (set_witness first _ :: rest)) with (get_sig_all_required_sigs (first :: rest)).
  rewrite Hreq, Hw. unfold get_valid_witness_signatures. cbn -[valid_signatures].
  rewrite signature_roundtrip. cbn -[valid_signatures].
  unfold get_sig_all_required_sigs in Hreq. unfold can_sign_sig_all in Hcan. cbn [head ok_or] in Hreq, Hcan.
  destruct (sc_try_from_secret (secret first)) as [[data conds|]| |]; cbn in Hreq; [|done..].
  destruct conds as [conds|]; cbn [ok_or] in Hreq; [|done].
  destruct (decide (sig_flag conds = SigAll)); [|done]. simplify_eq. unfold sc_pubkeys in Hcan |- *. cbn [ok_or] in Hcan |- *.
  rewrite decide_True in Hcan by done.
  set (keys := elements _) in *. assert (Hnd : NoDup keys) by apply NoDup_elements.
  assert (Hin : seckey_public_key sk ∈ keys).
  { destruct (bool_decide_reflect (seckey_public_key sk ∈ keys)); done. }
  rewrite valid_signatures_spec, decide_True by by apply pair_hits_singleton.
  destruct (N.leb_spec (default 1 (num_sigs conds))
    (N.of_nat (length (pair_hits msg keys [Nut01.sign sk msg])))) as [|Hlt]; [done|exfalso].
  assert (Hhit : seckey_public_key sk ∈ pair_hits msg keys [Nut01.sign sk msg]).
  { apply elem_of_pair_hits. split; [done|]. eexists. split; [by apply list_elem_of_singleton|].
    apply NutsFacts.verify_sign. }
  destruct (pair_hits msg keys [Nut01.sign sk msg]); [by apply not_elem_of_nil in Hhit|]. simpl in Hlt. lia.
Qed.

(** A request signed with [sign_sig_all] by one of the keys of its
    conditions passes [verify_sig_all] when one signature is enough. *)
Theorem swap_sign_verify_sig_all (r r' : SwapRequest) sk n first_conditions :
  swap_sign_sig_all r sk = Ok r' ->
  (witness <$> head (swap_inputs r)) = Some None ->
  get_sig_all_required_sigs (swap_inputs r) = Ok (n, first_conditions) -> n <= 1 ->
  swap_verify_sig_all r' = Ok tt.
Proof.
  unfold swap_sign_sig_all. intros H Hw Hreq Hn.
  destruct (sign_sig_all _ _ _) as [inputs| |] eqn:Hs; [|done..]. simplify_eq.
  unfold swap_verify_sig_all. cbn [swap_inputs].
  replace (swap_sig_all_msg _) with (swap_sig_all_msg r); [by eapply sign_sig_all_verifies|].
  unfold sign_sig_all in Hs. inv_res Hs. unfold swap_sig_all_msg. cbn [swap_inputs swap_outputs].
  by rewrite push_secrets_witness, <- E1.
Qed.

Lemma push_outputs_app m outputs :
  push_outputs m outputs =
  (m ++ foldr (fun o acc => Nut01.to_hex (blinded_secret o) ++ acc)%string "" outputs)%string.
Proof.
  unfold push_outputs. revert m. induction outputs as [|o os IH]; intros m; cbn [fold_left foldr].
  - by rewrite string_app_nil_r.
  - by rewrite IH, string_app_assoc.
Qed.

Lemma output_hexes_inj os1 os2 :
  foldr (fun o acc => Nut01.to_hex (blinded_secret o) ++ acc)%string "" os1 =
  foldr (fun o acc => Nut01.to_hex (blinded_secret o) ++ acc)%string "" os2 ->
  map blinded_secret os1 = map blinded_secret os2.
Proof.
  assert (Hne : forall k rest, "" <> (Nut01.to_hex k ++ rest)%string).
  { intros k rest H. pose proof (secp_pubkey_length k) as Hl. unfold Nut01.to_hex in H.
    by destruct (secp_pubkey_to_string k). }
  revert os2. induction os1 as [|o1 os1 IH]; intros [|o2 os2]; cbn [foldr map]; intros H; [done|..].
  - by apply Hne in H.
  - symmetry in H. by apply Hne in H.
  - apply string_app_inj in H as [Hk Hr]; [|unfold Nut01.to_hex; by rewrite !secp_pubkey_length].
    f_equal; [|by apply IH]. apply (f_equal Nut01.from_hex) in Hk.
    rewrite !NutsFacts.from_hex_to_hex in Hk. congruence.
Qed.

Lemma push_secrets_ext m ps qs : map secret ps = map secret qs -> push_secrets m ps = push_secrets m qs.
Proof.
  unfold push_secrets. revert m qs. induction ps as [|p ps IH]; intros m [|q qs] H; [done..|].
  cbn [map] in H. injection H as Hs H. cbn [fold_left]. rewrite Hs. by apply IH.
Qed.

(** The SIG_ALL message binds the outputs of a swap: two requests that spend
    the same secrets and have the same message ask for signatures on the same
    blinded secrets, in the same order. *)
Theorem swap_sig_all_msg_binds (r1 r2 : SwapRequest) :
  map secret (swap_inputs r1) = map secret (swap_inputs r2) ->
  swap_sig_all_msg r1 = swap_sig_all_msg r2 ->
  map blinded_secret (swap_outputs r1) = map blinded_secret (swap_outputs r2).
Proof.
  unfold swap_sig_all_msg. intros Hin Hmsg. apply output_hexes_inj.
  rewrite !push_outputs_app in Hmsg.
  assert (Hs : push_secrets "" (swap_inputs r1) = push_secrets "" (swap_inputs r2))
    by by apply push_secrets_ext.
  rewrite Hs in Hmsg. by eapply string_app_inj.
Qed.

(** Whether a proof is locked with the SIG_ALL flag. *)
Definition is_sig_all (p : Proof) : bool :=
  match nut10_from_json (secret p) with
  | Some s10 =>
      match Nut10.tags (Nut10.secret_data s10) with
      | Some tags => match Conditions_try_from tags with
                     | Ok conds => bool_decide (sig_flag conds = SigAll)
                     | _ => false
                     end
      | None => false
      end
  | None => false
  end.

Lemma enforce_step_flag acc p acc' :
  enforce_step acc p = Ok acc' ->
  esf_sig_flag acc' = if is_sig_all p then SigAll else esf_sig_flag acc.
Proof.
  unfold enforce_step, is_sig_all. intros H.
  destruct (nut10_from_json (secret p)) as [s10|]; [|by simplify_eq].
  destruct (Nut10.tags (Nut10.secret_data s10)) as [tags|]; [|by simplify_eq].
  destruct (Conditions_try_from tags) as [conds| |]; [|by simplify_eq..]. injection H as <-. cbn.
  by destruct (sig_flag conds).
Qed.

Lemma enforce_loop_flag acc ps acc' :
  enforce_loop acc ps = Ok acc' ->
  esf_sig_flag acc' = if existsb is_sig_all ps then SigAll else esf_sig_flag acc.
Proof.
  revert acc. induction ps as [|p ps IH]; intros acc; simpl; [by intros [= ->]|].
  destruct (enforce_step acc p) as [acc1| |] eqn:Hs; [|done..]. intros H.
  rewrite (IH _ H), (enforce_step_flag _ _ _ Hs).
  by destruct (is_sig_all p), (existsb is_sig_all ps).
Qed.

(** [validate_sig_flag] lets a swap through only when its SIG_ALL signature
    verifies, as soon as one input carries the SIG_ALL flag; a swap without
    such an input passes. *)
Theorem validate_sig_flag_spec (r : SwapRequest) esf :
  enforce_sig_flag (swap_inputs r) = Ok esf ->
  validate_sig_flag r =
  if existsb is_sig_all (swap_inputs r) then swap_verify_sig_all r else Ok tt.
Proof.
  unfold validate_sig_flag, enforce_sig_flag. intros H. rewrite H.
  apply enforce_loop_flag in H. rewrite H. cbn [esf_sig_flag].
  by destruct (existsb is_sig_all (swap_inputs r)).
Qed.

(** Signing a proof locked to a key and verifying it: a P2PK secret without
    further conditions, signed once with the matching secret key. *)
Theorem sign_verify_p2pk now p sk s10 :
  nut10_from_json (secret p) = Some s10 ->
  Nut10.kind s10 = Nut10.P2PK -> Nut10.tags (Nut10.secret_data s10) = None ->
  Nut10.data (Nut10.secret_data s10) = Nut01.to_hex (seckey_public_key sk) ->
  witness p = None ->
  verify_p2pk now (sign_p2pk p sk) = Ok tt.
Proof.
  intros Hj Hk Ht Hd Hw. unfold verify_p2pk. cbn -[p2pk_multisig]. rewrite Hj, Hw. cbn -[p2pk_multisig].
  rewrite Ht. cbn -[p2pk_multisig]. apply p2pk_multisig_authorized.
  exists [seckey_public_key sk]. unfold p2pk_keys. rewrite decide_True, Hd by done.
  unfold Nut01.from_str. rewrite NutsFacts.from_hex_to_hex. cbn.
  rewrite hits_cons, hits_nil, signature_roundtrip, app_nil_r, key_hits_cons, NutsFacts.verify_sign. cbn.
  split_and!; [done| |apply NoDup_singleton|done]. right. repeat constructor. unfold parses. rewrite signature_roundtrip. eauto.
Qed.

End defs.
End Spending.

(** ** Concrete runs *)
Module ConcreteSpending.
Import Nut00 Nut11 Requests Concrete Spending.

(** A proof locked to alice, with a locktime at 100 and bob as refund key. *)
Definition lock (flag : SigFlag) : Conditions := mkConditions (Some 100) None (Some [bob]) None flag None.
Definition locked_secret (flag : SigFlag) : string :=
  sc_into_secret "n" (P2PKConditions alice (Some (lock flag))).
Definition plain_secret : string := sc_into_secret "n" (P2PKConditions alice None).
Definition htlc_secret : string := sc_into_secret "n" (HTLCConditions "image" (Some (lock SigInputs))).

Definition locked (s : string) (w : option Witness) : Proof := mkProof 8 "ks" s carol w None.
Definition out (k : @pubkey crypto) : BlindedMessage := mkBlindedMessage 8 "ks" k None.
Definition signed_by (k : @seckey crypto) (s : string) : string :=
  signature_to_string (Nut01.sign k s).

Definition two_keys : list (@pubkey crypto) := [alice; bob].
Definition bob_sig : @signature crypto := Nut01.sign bob_sk "m".

Lemma valid_signatures_sound_witness :
  exists signers : gset pubkey, N.of_nat (size signers) = 1 /\
    forall k : pubkey, k ∈ signers <->
      k ∈ two_keys /\ exists g, g ∈ [bob_sig] /\ Nut01.verify k "m" g = true.
Proof. apply (valid_signatures_sound "m" two_keys [bob_sig] 1). reflexivity. Defined.

Lemma sign_verify_p2pk_witness : verify_p2pk 5 (sign_p2pk (locked plain_secret None) alice_sk) = Ok tt.
Proof.
  apply (sign_verify_p2pk 5 (locked plain_secret None) alice_sk
    (sc_into_nut10 "n" (P2PKConditions alice None))); reflexivity.
Defined.

(** Before the locktime, with bob's signature and no valid preimage. *)
Definition htlc_refunded : Proof :=
  locked htlc_secret (Some (WHTLC (mkHTLCWitness "wrong" (Some [signed_by bob_sk htlc_secret])))).

Lemma verify_htlc_refund_any_time_witness : verify_htlc 5 htlc_refunded = Ok tt.
Proof.
  eapply (verify_htlc_refund_any_time 5 htlc_refunded); [vm_compute; reflexivity..|].
  eexists. split; [reflexivity|]. split; [|reflexivity]. apply NoDup_singleton.
Defined.

(** Unlocked with the preimage. *)
Definition htlc_opened : Proof :=
  locked htlc_secret (Some (WHTLC (mkHTLCWitness "image" (Some [])))).

Lemma verify_htlc_sound_witness : exists s10 hw conds,
  nut10_from_json (secret htlc_opened) = Some s10 /\ witness htlc_opened = Some (WHTLC hw) /\
  conditions_of_tags (Nut10.tags (Nut10.secret_data s10)) = Ok conds.
Proof.
  destruct (verify_htlc_sound 5 htlc_opened) as (s10 & hw & conds & H1 & H2 & H3 & _); [vm_compute; reflexivity|].
  exists s10, hw, conds. auto.
Defined.

Definition all_request : SwapRequest := mkSwapRequest [locked (locked_secret SigAll) None] [out bob; out carol].

Lemma swap_sign_verify_sig_all_witness :
  match swap_sign_sig_all all_request alice_sk with
  | Ok r => swap_verify_sig_all r = Ok tt | _ => False end.
Proof.
  destruct (swap_sign_sig_all all_request alice_sk) as [r| |] eqn:H.
  - eapply (swap_sign_verify_sig_all all_request r alice_sk 1); [exact H|reflexivity|vm_compute; reflexivity|lia].
  - revert H. vm_compute. discriminate.
  - revert H. vm_compute. discriminate.
Defined.

Lemma swap_sig_all_msg_binds_witness :
  map blinded_secret (swap_outputs all_request) =
  map blinded_secret (swap_outputs (mkSwapRequest (swap_inputs all_request)
    [set_bm_amount (out bob) 2; set_bm_witness (out carol) (Some (WP2PK (mkP2PKWitness [])))])).
Proof. apply swap_sig_all_msg_binds; reflexivity. Defined.

Lemma validate_sig_flag_spec_witness : validate_sig_flag all_request = swap_verify_sig_all all_request.
Proof. refine (validate_sig_flag_spec all_request _ _). vm_compute. reflexivity. Defined.

(** After the locktime without refund keys the comment of [verify_p2pk] asks for
    no further check, yet a proof without a witness is refused. *)
Lemma expired_without_witness_refused :
  verify_p2pk 200 (locked (sc_into_secret "n"
    (P2PKConditions alice (Some (mkConditions (Some 100) None None None SigInputs None)))) None)
  = Err SignaturesNotProvided.
Proof. vm_compute. reflexivity. Qed.

(** The data key listed again in the [pubkeys] tag: alice's only signature is
    counted as a duplicate. *)
Lemma repeated_key_refused :
  let s := sc_into_secret "n" (P2PKConditions alice (Some (mkConditions None (Some [alice; bob]) None None SigInputs None))) in
  verify_p2pk 5 (locked s (Some (WP2PK (mkP2PKWitness [signed_by alice_sk s])))) = Err DuplicateSignature.
Proof. vm_compute. reflexivity. Qed.

End ConcreteSpending.
