(* ===== verification/States.v ===== *)
(** * States and records of the mint (crates/cdk-common/src/state.rs, mint.rs)

    The transition rules for proofs and melt quotes, the mint and melt quote
    records with their ledger operations, the saga records, and the fee of a
    set of proofs (crates/cdk/src/fees.rs). *)
From stdpp Require Import base numbers list sorting strings gmap.
From S2P Require Import Prelude Amount Nuts.

Local Open Scope N_scope.
Local Open Scope res_scope.

Module StateRules.

(** NUT-05 quote states. *)
Inductive MeltQuoteState := Unpaid | Paid | MPending | Unknown | Failed.

#[global] Instance MeltQuoteState_eq_dec : EqDecision MeltQuoteState.
Proof. solve_decision. Defined.

Definition melt_state_to_string (s : MeltQuoteState) : string :=
  match s with
  | Unpaid => "UNPAID" | Paid => "PAID" | MPending => "PENDING"
  | Unknown => "UNKNOWN" | Failed => "FAILED"
  end.

Definition melt_state_from_str (s : string) : option MeltQuoteState :=
  if String.eqb s "PENDING" then Some MPending
  else if String.eqb s "PAID" then Some Paid
  else if String.eqb s "UNPAID" then Some Unpaid
  else if String.eqb s "UNKNOWN" then Some Unknown
  else if String.eqb s "FAILED" then Some Failed
  else None.

Inductive Error :=
| ErrPending
| AlreadySpent
| InvalidTransition (from to : Nut07.State)
| AlreadyPaid
| InvalidMeltQuoteTransition (from to : MeltQuoteState).

#[global] Instance Error_eq_dec : EqDecision Error.
Proof. solve_decision. Defined.

Definition check_state_transition (current_state new_state : Nut07.State) : res Error unit :=
  let is_valid_transition :=
    match current_state with
    | Nut07.Unspent => match new_state with Nut07.Pending | Nut07.Spent => true | _ => false end
    | Nut07.Pending => match new_state with Nut07.Unspent | Nut07.Spent => true | _ => false end
    | _ => false
    end in
  if negb is_valid_transition then
    Err (match current_state with
         | Nut07.Pending => ErrPending
         | Nut07.Spent => AlreadySpent
         | _ => InvalidTransition current_state new_state
         end)
  else Ok tt.

Definition check_melt_quote_state_transition (current_state new_state : MeltQuoteState) : res Error unit :=
  let is_valid_transition :=
    match current_state with
    | Unpaid => match new_state with MPending | Failed => true | _ => false end
    | MPending => match new_state with Unpaid | Paid | Failed => true | _ => false end
    | Failed => match new_state with MPending | Unpaid => true | _ => false end
    | Paid => false
    | Unknown => true
    end in
  if negb is_valid_transition then
    Err (match current_state with
         | MPending => ErrPending
         | Paid => AlreadyPaid
         | _ => InvalidMeltQuoteTransition current_state new_state
         end)
  else Ok tt.

(** The documented rules of melt quotes. *)
Definition documented_melt_transition (current_state new_state : MeltQuoteState) : bool :=
  match current_state, new_state with
  | Unpaid, (MPending | Failed) => true
  | MPending, (Unpaid | Paid | Failed) => true
  | Failed, MPending => true
  | _, _ => false
  end.

(** The code agrees with the documentation except that it also lets a failed
    quote go back to unpaid and an unknown quote go anywhere. *)
Lemma melt_transition_vs_doc s s' :
  check_melt_quote_state_transition s s' = Ok tt <->
  documented_melt_transition s s' = true \/ (s = Failed /\ s' = Unpaid) \/ s = Unknown.
Proof. destruct s, s'; cbn; naive_solver. Qed.

(** Spent proofs and paid quotes are final, and a proof only moves among
    unspent, pending and spent. *)
Lemma spent_is_final s' : check_state_transition Nut07.Spent s' = Err AlreadySpent.
Proof. by destruct s'. Qed.

Lemma paid_is_final s' : check_melt_quote_state_transition Paid s' = Err AlreadyPaid.
Proof. by destruct s'. Qed.

Lemma transition_states s s' :
  check_state_transition s s' = Ok tt ->
  (s = Nut07.Unspent \/ s = Nut07.Pending) /\
  (s' = Nut07.Unspent \/ s' = Nut07.Pending \/ s' = Nut07.Spent) /\ s <> s'.
Proof. destruct s, s'; cbn; naive_solver. Qed.

Lemma transition_total s s' : exists r, check_state_transition s s' = r /\ r <> Panic.
Proof. destruct s, s'; cbn; eauto. Qed.

End StateRules.

Module MintTypes.
Import StateRules.

(** ** Operations and sagas *)

Inductive OperationKind := OKSwap | OKMint | OKMelt.

#[global] Instance OperationKind_eq_dec : EqDecision OperationKind.
Proof. solve_decision. Defined.

Definition kind_to_string (k : OperationKind) : string :=
  match k with OKSwap => "swap" | OKMint => "mint" | OKMelt => "melt" end.

Inductive SwapSagaState := SetupCompleteState | SignedState.

#[global] Instance SwapSagaState_eq_dec : EqDecision SwapSagaState.
Proof. solve_decision. Defined.

Inductive Operation := OpMint (id : Uuid) | OpMelt (id : Uuid) | OpSwap (id : Uuid).

#[global] Instance Operation_eq_dec : EqDecision Operation.
Proof. solve_decision. Defined.

Definition op_id (op : Operation) : Uuid :=
  match op with OpMint id | OpMelt id | OpSwap id => id end.
Definition op_kind (op : Operation) : string :=
  match op with OpMint _ => "mint" | OpMelt _ => "melt" | OpSwap _ => "swap" end.

Section defs.
Context {CR : Crypto}.

Record Saga := mkSaga {
  operation_id : Uuid;
  operation_kind : OperationKind;
  saga_state : SwapSagaState;
  blinded_secrets : list pubkey;
  input_ys : list pubkey;
  created_at : N;
  updated_at : N;
}.

Definition Saga_new_swap (now : N) (id : Uuid) (state : SwapSagaState)
    (blinded_secrets input_ys : list pubkey) : Saga :=
  mkSaga id OKSwap state blinded_secrets input_ys now now.

Definition update_swap_state (now : N) (s : Saga) (st : SwapSagaState) : Saga :=
  mkSaga (operation_id s) (operation_kind s) st (blinded_secrets s) (input_ys s) (created_at s) now.

(** ** Mint quotes *)

Inductive MintQuoteState := QUnpaid | QPaid | QIssued.

Record IncomingPayment := mkIncomingPayment { ip_amount : N; ip_time : N; ip_payment_id : string }.
Record Issuance := mkIssuance { is_amount : N; is_time : N }.

Inductive PaymentMethod := Bolt11 | Bolt12 | CustomMethod (name : string).

(** The payload of a payment identifier, as displayed and stored. *)
Inductive PaymentIdentifier :=
| PLabel (s : string) | POfferId (s : string) | PPaymentHash (hex : string)
| PBolt12PaymentHash (hex : string) | PPaymentId (hex : string) | PCustomId (s : string).

Definition pi_kind (p : PaymentIdentifier) : string :=
  match p with
  | PLabel _ => "label" | POfferId _ => "offer_id" | PPaymentHash _ => "payment_hash"
  | PBolt12PaymentHash _ => "bolt12_payment_hash" | PPaymentId _ => "payment_id" | PCustomId _ => "custom"
  end.

Definition pi_to_string (p : PaymentIdentifier) : string :=
  match p with
  | PLabel s | POfferId s | PPaymentHash s | PBolt12PaymentHash s | PPaymentId s | PCustomId s => s
  end.

Record MintQuote := mkMintQuote {
  mq_id : QuoteId;
  mq_amount : option N;
  mq_unit : Amount.CurrencyUnit;
  mq_request : string;
  mq_expiry : N;
  mq_request_lookup_id : PaymentIdentifier;
  mq_pubkey : option pubkey;
  mq_created_time : N;
  mq_amount_paid : N;
  mq_amount_issued : N;
  mq_payments : list IncomingPayment;
  mq_payment_method : PaymentMethod;
  mq_issuance : list Issuance;
}.

Definition set_amount_paid (q : MintQuote) (a : N) : MintQuote :=
  mkMintQuote (mq_id q) (mq_amount q) (mq_unit q) (mq_request q) (mq_expiry q) (mq_request_lookup_id q)
    (mq_pubkey q) (mq_created_time q) a (mq_amount_issued q) (mq_payments q) (mq_payment_method q) (mq_issuance q).
Definition set_amount_issued (q : MintQuote) (a : N) : MintQuote :=
  mkMintQuote (mq_id q) (mq_amount q) (mq_unit q) (mq_request q) (mq_expiry q) (mq_request_lookup_id q)
    (mq_pubkey q) (mq_created_time q) (mq_amount_paid q) a (mq_payments q) (mq_payment_method q) (mq_issuance q).
Definition set_payments (q : MintQuote) (l : list IncomingPayment) : MintQuote :=
  mkMintQuote (mq_id q) (mq_amount q) (mq_unit q) (mq_request q) (mq_expiry q) (mq_request_lookup_id q)
    (mq_pubkey q) (mq_created_time q) (mq_amount_paid q) (mq_amount_issued q) l (mq_payment_method q) (mq_issuance q).

Inductive QuoteError := QAmountOverflow | QDuplicatePaymentId.

Definition increment_amount_paid (self : MintQuote) (additional_amount : N) : res QuoteError (N * MintQuote) :=
  let? a := ok_or QAmountOverflow (Amount.checked_add (mq_amount_paid self) additional_amount) in
  Ok (a, set_amount_paid self a).

Definition increment_amount_issued (self : MintQuote) (additional_amount : N) : res QuoteError (N * MintQuote) :=
  let? a := ok_or QAmountOverflow (Amount.checked_add (mq_amount_issued self) additional_amount) in
  Ok (a, set_amount_issued self a).

Definition payment_ids (self : MintQuote) : list string := map ip_payment_id (mq_payments self).

(** The subtraction of amounts panics when more was issued than paid. *)
Definition amount_mintable (self : MintQuote) : res Amount.Error N :=
  Amount.sub (mq_amount_paid self) (mq_amount_issued self).

Definition add_payment (self : MintQuote) (amount : N) (payment_id : string) (time : N) : res QuoteError MintQuote :=
  if bool_decide (payment_id ∈ payment_ids self) then Err QDuplicatePaymentId
  else Ok (set_payments self (mq_payments self ++ [mkIncomingPayment amount time payment_id])).

Definition compute_quote_state (self : MintQuote) : MintQuoteState :=
  if (mq_amount_paid self =? 0) && (mq_amount_issued self =? 0) then QUnpaid
  else match mq_amount_paid self ?= mq_amount_issued self with
       | Lt => QIssued
       | Eq => QIssued
       | Gt => QPaid
       end.

(** ** Melt quotes *)

Inductive MeltPaymentRequest := MBolt11 (bolt11 : string) | MBolt12 (offer : string).

Definition request_to_string (r : MeltPaymentRequest) : string :=
  match r with MBolt11 s | MBolt12 s => s end.

(** Options of a melt quote, amounts in msat. *)
Inductive MeltOptions := Mpp (amount_msat : N) | Amountless (amount_msat : N).

Record MeltQuote := mkMeltQuote {
  lq_id : QuoteId;
  lq_unit : Amount.CurrencyUnit;
  lq_amount : N;
  lq_request : MeltPaymentRequest;
  lq_fee_reserve : N;
  lq_state : MeltQuoteState;
  lq_expiry : N;
  lq_payment_preimage : option string;
  lq_request_lookup_id : option PaymentIdentifier;
  lq_options : option MeltOptions;
  lq_created_time : N;
  lq_paid_time : option N;
  lq_payment_method : PaymentMethod;
}.

Definition set_melt_state (q : MeltQuote) (st : MeltQuoteState) : MeltQuote :=
  mkMeltQuote (lq_id q) (lq_unit q) (lq_amount q) (lq_request q) (lq_fee_reserve q) st (lq_expiry q)
    (lq_payment_preimage q) (lq_request_lookup_id q) (lq_options q) (lq_created_time q) (lq_paid_time q) (lq_payment_method q).

Definition set_melt_paid (q : MeltQuote) (now : N) (preimage : option string) : MeltQuote :=
  mkMeltQuote (lq_id q) (lq_unit q) (lq_amount q) (lq_request q) (lq_fee_reserve q) Paid (lq_expiry q)
    preimage (lq_request_lookup_id q) (lq_options q) (lq_created_time q) (Some now) (lq_payment_method q).

Definition set_melt_lookup (q : MeltQuote) (l : option PaymentIdentifier) : MeltQuote :=
  mkMeltQuote (lq_id q) (lq_unit q) (lq_amount q) (lq_request q) (lq_fee_reserve q) (lq_state q) (lq_expiry q)
    (lq_payment_preimage q) l (lq_options q) (lq_created_time q) (lq_paid_time q) (lq_payment_method q).

Definition MeltQuote_new (id : QuoteId) (now : N) (request : MeltPaymentRequest) (unit : Amount.CurrencyUnit)
    (amount fee_reserve expiry : N) (lookup : option PaymentIdentifier) (options : option MeltOptions)
    (method : PaymentMethod) : MeltQuote :=
  mkMeltQuote id unit amount request fee_reserve Unpaid expiry None lookup options now None method.

(** ** Facts *)

(** The ledger of a mint quote: nothing issued beyond what was paid. *)
Definition solvent (q : MintQuote) : Prop := mq_amount_issued q <= mq_amount_paid q.

Lemma amount_mintable_solvent q : solvent q -> amount_mintable q = Ok (mq_amount_paid q - mq_amount_issued q).
Proof.
  intros H. unfold amount_mintable, Amount.sub, Amount.checked_sub, u64_checked_sub, solvent in *.
  by rewrite (proj2 (N.leb_le _ _) H).
Qed.

(** On a solvent quote the state tells whether there is something to mint. *)
Lemma quote_state_paid_iff q n :
  solvent q -> amount_mintable q = Ok n -> (compute_quote_state q = QPaid <-> 0 < n).
Proof.
  intros H Hm. rewrite amount_mintable_solvent in Hm by done. injection Hm as <-.
  unfold compute_quote_state, solvent in *.
  destruct (N.eqb_spec (mq_amount_paid q) 0), (N.eqb_spec (mq_amount_issued q) 0); cbn [andb];
    destruct (N.compare_spec (mq_amount_paid q) (mq_amount_issued q)); (split; [intros; try done; lia|]);
    intros; try done; lia.
Qed.

Lemma quote_state_unpaid_iff q :
  compute_quote_state q = QUnpaid <-> mq_amount_paid q = 0 /\ mq_amount_issued q = 0.
Proof.
  unfold compute_quote_state.
  destruct (N.eqb_spec (mq_amount_paid q) 0), (N.eqb_spec (mq_amount_issued q) 0); cbn [andb];
    try destruct (mq_amount_paid q ?= mq_amount_issued q); naive_solver.
Qed.

End defs.
End MintTypes.

Module Fees.
Section defs.
Import Nut00.

Inductive Error := KeysetUnknown (id : Id) | AmountOverflow.

(** The loop of [calculate_fee] over the map of counts, in the enumeration
    order of the map; the product is an unchecked [u64] multiplication, which
    wraps in a release build. *)
Fixpoint fee_loop (keyset_fee : gmap Id N) (counts : list (Id * N)) (sum_fee : N) : res Error N :=
  match counts with
  | [] => Ok sum_fee
  | (keyset_id, proof_count) :: counts' =>
      let? keyset_fee_ppk := ok_or (KeysetUnknown keyset_id) (keyset_fee !! keyset_id) in
      let proofs_fee := u64_wrapping_mul keyset_fee_ppk proof_count in
      let? sum := ok_or AmountOverflow (u64_checked_add sum_fee proofs_fee) in
      fee_loop keyset_fee counts' sum
  end.

Definition calculate_fee (proofs_count keyset_fee : gmap Id N) : res Error N :=
  let? sum_fee := fee_loop keyset_fee (map_to_list proofs_count) 0 in
  let? s := ok_or AmountOverflow (u64_checked_add sum_fee 999) in
  Ok (s / 1000).

(** The exact fee in thousandths: every proof of keyset [id] adds its rate. *)
Definition ppk_of (keyset_fee : gmap Id N) (kc : Id * N) : N := default 0 (keyset_fee !! kc.1) * kc.2.
Definition exact_ppk (keyset_fee : gmap Id N) (counts : list (Id * N)) : N := sumN (map (ppk_of keyset_fee) counts).

Lemma fee_loop_exact keyset_fee counts sum :
  (forall kc, kc ∈ counts -> is_Some (keyset_fee !! kc.1)) ->
  sum + exact_ppk keyset_fee counts <= U64_MAX ->
  fee_loop keyset_fee counts sum = Ok (sum + exact_ppk keyset_fee counts).
Proof.
  revert sum. induction counts as [|[id n] counts IH]; intros sum Hk Hb; cbn [fee_loop].
  { unfold exact_ppk. cbn. by rewrite N.add_0_r. }
  unfold exact_ppk in *. cbn [map] in *. rewrite sumN_cons in *.
  destruct (Hk (id, n)) as [f Hf]; [set_solver|]. cbn in Hf. rewrite Hf. cbn [ok_or].
  replace (ppk_of keyset_fee (id, n)) with (f * n) in * by (unfold ppk_of; cbn; by rewrite Hf).
  unfold u64_wrapping_mul. rewrite N.mod_small by lia. unfold u64_checked_add.
  rewrite (proj2 (N.leb_le (sum + f * n) U64_MAX)) by lia. cbn [ok_or].
  rewrite IH; [f_equal; lia| |lia]. intros kc Hin. apply Hk. set_solver.
Qed.

(** When every keyset is known and the total stays within 64 bits, the fee
    is the total rate of the proofs rounded up to a whole unit; in particular
    it does not depend on the order in which the map is visited. *)
Theorem calculate_fee_exact (proofs_count keyset_fee : gmap Id N) :
  (forall id, is_Some (proofs_count !! id) -> is_Some (keyset_fee !! id)) ->
  exact_ppk keyset_fee (map_to_list proofs_count) + 999 <= U64_MAX ->
  calculate_fee proofs_count keyset_fee =
  Ok (div_ceil (exact_ppk keyset_fee (map_to_list proofs_count)) 1000).
Proof.
  intros Hk Hb. unfold calculate_fee.
  rewrite fee_loop_exact; [|intros [id n] Hin; apply Hk; apply elem_of_map_to_list in Hin; eauto|lia].
  unfold u64_checked_add. rewrite (proj2 (N.leb_le _ _)) by lia. done.
Qed.

Lemma calculate_fee_exact_witness :
  calculate_fee {["a" := 3]} {["a" := 400]} =
  Ok (div_ceil (exact_ppk {["a" := 400]} (map_to_list {["a" := 3]})) 1000).
Proof.
  apply calculate_fee_exact; [|vm_compute; discriminate].
  intros id. rewrite !lookup_singleton_is_Some. done.
Defined.

(** The unchecked product: with a rate of 2^63 per thousand, two proofs pay
    no fee at all. *)
Theorem calculate_fee_wraps : calculate_fee {["a" := 2]} {["a" := 9223372036854775808]} = Ok 0.
Proof. vm_compute. reflexivity. Qed.

End defs.
End Fees.
