(* ===== verification/MintDb.v ===== *)
(** * The mint database (crates/cdk-sql-common/src/mint/mod.rs)

    The tables of the mint as finite maps, with the constraints of the
    migrations: primary keys, [NOT NULL] amounts (an amount above [i64::MAX]
    binds [NULL]), the [CHECK] on the state of a melt quote, unique payment and
    lookup identifiers, and the foreign keys.  Every method of the
    transaction traits is a computation over the tables; a failing statement
    leaves what earlier statements of the method wrote, as in SQL, and it is
    the caller who rolls back.  The order in which a query without [ORDER BY]
    returns rows is the enumeration order of the map. *)
From stdpp Require Import base numbers list sorting strings gmap fin_maps.
From S2P Require Import Prelude Amount Nuts States.

Local Open Scope N_scope.
Local Open Scope res_scope.
Local Open Scope mint_scope.

Module MintDb.
Import Nut00 StateRules MintTypes.

Section defs.
Context {CR : Crypto}.

Inductive DbError :=
| Database
| Duplicate
| AmountOverflow
| NUT00 (e : Dhke.Error)
| AttemptRemoveSpentProof
| AttemptUpdateSpentProof
| ProofNotFound
| InvalidStateTransition (e : StateRules.Error)
| Internal
| Conversion
| QuoteNotFound.

(** [From<state::Error> for database::Error]. *)
Definition of_state_error (e : StateRules.Error) : DbError :=
  match e with AlreadySpent => AttemptUpdateSpentProof | _ => InvalidStateTransition e end.

(** ** Tables *)

Record ProofRow := mkProofRow {
  pr_proof : Proof;
  pr_state : Nut07.State;
  pr_quote_id : option QuoteId;
  pr_created_time : N;
  pr_operation : Operation;
}.

(** A row of [blind_signature]: [c = NULL] while the message is unsigned.  The
    amount column is signed. *)
Record SigRow := mkSigRow {
  sr_amount : Z;
  sr_keyset_id : Id;
  sr_c : option pubkey;
  sr_dleq : option BlindSignatureDleq;
  sr_quote_id : option QuoteId;
  sr_created_time : N;
  sr_signed_time : option N;
  sr_operation : option Operation;
}.

Record PaymentRow := mkPaymentRow {
  pay_quote_id : QuoteId; pay_payment_id : string; pay_amount : N; pay_timestamp : N }.
Record IssuedRow := mkIssuedRow { iss_quote_id : QuoteId; iss_amount : N; iss_timestamp : N }.
Record MeltRequestRow := mkMeltRequestRow { mr_inputs_amount : N; mr_inputs_fee : N }.

Record Db := mkDb {
  db_proof : gmap pubkey ProofRow;
  db_blind_signature : gmap pubkey SigRow;
  db_saga_state : gmap Uuid Saga;
  db_mint_quote : gmap QuoteId MintQuote;
  db_mint_quote_payments : list PaymentRow;
  db_mint_quote_issued : list IssuedRow;
  db_melt_quote : gmap QuoteId MeltQuote;
  db_melt_request : gmap QuoteId MeltRequestRow;
}.

Definition empty_db : Db := mkDb ∅ ∅ ∅ ∅ [] [] ∅ ∅.

Definition set_proof (db : Db) m := mkDb m (db_blind_signature db) (db_saga_state db) (db_mint_quote db)
  (db_mint_quote_payments db) (db_mint_quote_issued db) (db_melt_quote db) (db_melt_request db).
Definition set_blind_signature (db : Db) m := mkDb (db_proof db) m (db_saga_state db) (db_mint_quote db)
  (db_mint_quote_payments db) (db_mint_quote_issued db) (db_melt_quote db) (db_melt_request db).
Definition set_saga_state (db : Db) m := mkDb (db_proof db) (db_blind_signature db) m (db_mint_quote db)
  (db_mint_quote_payments db) (db_mint_quote_issued db) (db_melt_quote db) (db_melt_request db).
Definition set_mint_quote (db : Db) m := mkDb (db_proof db) (db_blind_signature db) (db_saga_state db) m
  (db_mint_quote_payments db) (db_mint_quote_issued db) (db_melt_quote db) (db_melt_request db).
Definition set_mint_quote_payments (db : Db) l := mkDb (db_proof db) (db_blind_signature db) (db_saga_state db)
  (db_mint_quote db) l (db_mint_quote_issued db) (db_melt_quote db) (db_melt_request db).
Definition set_mint_quote_issued (db : Db) l := mkDb (db_proof db) (db_blind_signature db) (db_saga_state db)
  (db_mint_quote db) (db_mint_quote_payments db) l (db_melt_quote db) (db_melt_request db).
Definition set_melt_quote (db : Db) m := mkDb (db_proof db) (db_blind_signature db) (db_saga_state db)
  (db_mint_quote db) (db_mint_quote_payments db) (db_mint_quote_issued db) m (db_melt_request db).
Definition set_melt_request (db : Db) m := mkDb (db_proof db) (db_blind_signature db) (db_saga_state db)
  (db_mint_quote db) (db_mint_quote_payments db) (db_mint_quote_issued db) (db_melt_quote db) m.

Definition T (A : Type) : Type := M Db DbError A.

(** A constraint of the schema: the statement fails when it does not hold. *)
Definition constraint (e : DbError) (b : bool) : T unit := mlift (ensure b e).

(** ** Proofs *)

(** [ys.iter().map(|y| rows.remove(y)).collect()]: a repeated key gets its row
    the first time only. *)
Fixpoint take_rows {A} (rows : gmap pubkey A) (ys : list pubkey) : list (option A) :=
  match ys with
  | [] => []
  | y :: ys' => rows !! y :: take_rows (delete y rows) ys'
  end.

Definition proof_row (now : N) (p : Proof) (quote_id : option QuoteId) (op : Operation) : ProofRow :=
  mkProofRow (mkProof (amount p) (keyset_id p) (secret p) (c p) (witness p) None)
    Nut07.Unspent quote_id now op.

(** One [INSERT INTO proof]. *)
Definition insert_proof (now : N) (quote_id : option QuoteId) (op : Operation) (p : Proof) : T unit :=
  do y <- mlift (map_err NUT00 (Nut00.y p)) ;
  do_ constraint Database (bool_decide (is_Some (Amount.to_i64 (amount p)))) ;
  do taken <- mgets (fun db => bool_decide (is_Some (db_proof db !! y))) ;
  do_ constraint Duplicate (negb taken) ;
  mmodify (fun db => set_proof db (<[y := proof_row now p quote_id op]> (db_proof db))).

Definition add_proofs (now : N) (proofs : list Proof) (quote_id : option QuoteId) (op : Operation) : T unit :=
  do ys <- mlift (map_err NUT00 (Nut00.ys proofs)) ;
  do previous <- mgets (fun db => head (omap (fun y => pr_state <$> db_proof db !! y) ys)) ;
  do_ mlift (match previous with
             | Some Nut07.Spent => Err AttemptUpdateSpentProof
             | Some _ => Err Duplicate
             | None => Ok tt
             end) ;
  mfor (insert_proof now quote_id op) proofs.

Definition get_current_states (db : Db) (ys : list pubkey) : gmap pubkey Nut07.State :=
  pr_state <$> filter (fun kv => kv.1 ∈ ys) (db_proof db).

Fixpoint check_transitions (states : list Nut07.State) (new_state : Nut07.State) : res DbError unit :=
  match states with
  | [] => Ok tt
  | s :: states' =>
      let? _ := map_err of_state_error (check_state_transition s new_state) in
      check_transitions states' new_state
  end.

Definition set_state (r : ProofRow) (st : Nut07.State) : ProofRow :=
  mkProofRow (pr_proof r) st (pr_quote_id r) (pr_created_time r) (pr_operation r).

(** [UPDATE proof SET state = :new_state WHERE y IN (:ys)]. *)
Definition update_states (ys : list pubkey) (st : Nut07.State) (m : gmap pubkey ProofRow) : gmap pubkey ProofRow :=
  map_imap (fun y r => Some (if bool_decide (y ∈ ys) then set_state r st else r)) m.

Definition update_proofs_states (ys : list pubkey) (new_state : Nut07.State) : T (list (option Nut07.State)) :=
  do current_states <- mgets (fun db => get_current_states db ys) ;
  do_ mlift (ensure (Nat.eqb (size current_states) (length ys)) ProofNotFound) ;
  do_ mlift (check_transitions (map_to_list current_states).*2 new_state) ;
  do_ mmodify (fun db => set_proof db (update_states ys new_state (db_proof db))) ;
  mret (take_rows current_states ys).

(** [DELETE FROM proof WHERE y IN (:ys) AND state NOT IN ('SPENT')]. *)
Definition deletable (ys : list pubkey) (kv : pubkey * ProofRow) : Prop :=
  kv.1 ∈ ys /\ pr_state kv.2 <> Nut07.Spent.

#[global] Instance deletable_dec ys kv : Decision (deletable ys kv).
Proof. unfold deletable. apply _. Defined.

Definition remove_proofs (ys : list pubkey) : T unit :=
  match ys with
  | [] => mret tt
  | _ =>
      do total_deleted <- mgets (fun db => size (filter (deletable ys) (db_proof db))) ;
      do_ mmodify (fun db => set_proof db (filter (fun kv => ~ deletable ys kv) (db_proof db))) ;
      mlift (ensure (Nat.eqb total_deleted (length ys)) AttemptRemoveSpentProof)
  end.

Definition get_proof_ys_by_quote_id (quote_id : QuoteId) : T (list pubkey) :=
  do proofs <- mgets (fun db =>
    pr_proof <$> (map_to_list (filter (fun kv => pr_quote_id kv.2 = Some quote_id) (db_proof db))).*2) ;
  mlift (map_err NUT00 (Nut00.ys proofs)).

Definition get_proofs_states (ys : list pubkey) (db : Db) : list (option Nut07.State) :=
  take_rows (get_current_states db ys) ys.

(** ** Blinded messages and signatures *)

Definition insert_blinded_message (now : N) (quote_id : option QuoteId) (op : Operation)
    (m : BlindedMessage) : T unit :=
  do_ constraint Database (bool_decide (is_Some (Amount.to_i64 (bm_amount m)))) ;
  do taken <- mgets (fun db => bool_decide (is_Some (db_blind_signature db !! blinded_secret m))) ;
  do_ constraint Duplicate (negb taken) ;
  mmodify (fun db => set_blind_signature db
    (<[blinded_secret m := mkSigRow (Z.of_N (bm_amount m)) (bm_keyset_id m) None None quote_id now None (Some op)]>
       (db_blind_signature db))).

Definition add_blinded_messages (now : N) (quote_id : option QuoteId) (msgs : list BlindedMessage)
    (op : Operation) : T unit :=
  mfor (insert_blinded_message now quote_id op) msgs.

Definition delete_blinded_messages (secrets : list pubkey) : T unit :=
  match secrets with
  | [] => mret tt
  | _ => mmodify (fun db => set_blind_signature db
           (filter (fun kv => ~ (kv.1 ∈ secrets /\ sr_c kv.2 = None)) (db_blind_signature db)))
  end.

(** [u64 as i64]. *)
Definition u64_as_i64 (n : N) : Z :=
  if n <=? I64_MAX then Z.of_N n else (Z.of_N n - 2 ^ 64)%Z.

Definition sign_row (now : N) (r : SigRow) (s : BlindSignature) : SigRow :=
  mkSigRow (u64_as_i64 (bs_amount s)) (sr_keyset_id r) (Some (bs_c s)) (bs_dleq s) (sr_quote_id r)
    (sr_created_time r) (Some now) (sr_operation r).

Definition new_sig_row (now : N) (s : BlindSignature) (quote_id : option QuoteId) : SigRow :=
  mkSigRow (u64_as_i64 (bs_amount s)) (bs_keyset_id s) (Some (bs_c s)) (bs_dleq s) quote_id now (Some now) None.

(** The loop over messages and signatures; [existing] is the map of the rows
    selected before the loop, from which each visited message is removed. *)
Fixpoint add_blind_signatures_loop (now : N) (quote_id : option QuoteId)
    (existing : gmap pubkey (option pubkey)) (pairs : list (pubkey * BlindSignature))
    : T (gmap pubkey (option pubkey)) :=
  match pairs with
  | [] => mret existing
  | (message, s) :: pairs' =>
      do_ (match existing !! message with
           | None =>
               do taken <- mgets (fun db => bool_decide (is_Some (db_blind_signature db !! message))) ;
               do_ constraint Duplicate (negb taken) ;
               mmodify (fun db => set_blind_signature db
                 (<[message := new_sig_row now s quote_id]> (db_blind_signature db)))
           | Some None =>
               mmodify (fun db => set_blind_signature db
                 (alter (fun r => sign_row now r s) message (db_blind_signature db)))
           | Some (Some _) => mfail Duplicate
           end) ;
      add_blind_signatures_loop now quote_id (delete message existing) pairs'
  end.

Definition add_blind_signatures (now : N) (messages : list pubkey) (sigs : list BlindSignature)
    (quote_id : option QuoteId) : T unit :=
  do_ mlift (ensure (Nat.eqb (length messages) (length sigs)) Internal) ;
  do existing <- mgets (fun db => sr_c <$> filter (fun kv => kv.1 ∈ messages) (db_blind_signature db)) ;
  do unvisited <- add_blind_signatures_loop now quote_id existing (zip messages sigs) ;
  mlift (ensure (bool_decide (unvisited = ∅)) Internal).

(** [sql_row_to_blind_signature]: a negative amount does not convert. *)
Definition row_to_blind_signature (r : SigRow) (c : pubkey) : res DbError BlindSignature :=
  let? a := ok_or Conversion (Amount.from_i64 (sr_amount r)) in
  Ok (mkBlindSignature a (sr_keyset_id r) c (sr_dleq r)).

Definition signed_row (kv : pubkey * SigRow) : option (pubkey * pubkey * SigRow) :=
  match sr_c kv.2 with Some c => Some (kv.1, c, kv.2) | None => None end.

Definition read_signatures (db : Db) (sel : pubkey * SigRow -> Prop) `{forall kv, Decision (sel kv)}
    : res DbError (list (pubkey * BlindSignature)) :=
  collect (fun t : pubkey * pubkey * SigRow =>
             let '(k, c, r) := t in let? s := row_to_blind_signature r c in Ok (k, s))
          (omap signed_row (map_to_list (filter sel (db_blind_signature db)))).

Definition get_blind_signatures (messages : list pubkey) (db : Db) : res DbError (list (option BlindSignature)) :=
  let? rows := read_signatures db (fun kv => kv.1 ∈ messages) in
  Ok (take_rows (list_to_map rows) messages).

Definition get_blind_signatures_for_quote (quote_id : QuoteId) (db : Db) : res DbError (list BlindSignature) :=
  let? rows := read_signatures db (fun kv => sr_quote_id kv.2 = Some quote_id) in Ok rows.*2.

(** ** Sagas *)

Definition get_saga (id : Uuid) : T (option Saga) := mgets (fun db => db_saga_state db !! id).

Definition add_saga (now : N) (s : Saga) : T unit :=
  do taken <- mgets (fun db => bool_decide (is_Some (db_saga_state db !! operation_id s))) ;
  do_ constraint Duplicate (negb taken) ;
  mmodify (fun db => set_saga_state db (<[operation_id s :=
    mkSaga (operation_id s) (operation_kind s) (saga_state s) (blinded_secrets s) (input_ys s) (created_at s) now]>
    (db_saga_state db))).

Definition update_saga (now : N) (id : Uuid) (st : SwapSagaState) : T unit :=
  mmodify (fun db => set_saga_state db (alter (fun s => update_swap_state now s st) id (db_saga_state db))).

Definition delete_saga (id : Uuid) : T unit :=
  mmodify (fun db => set_saga_state db (delete id (db_saga_state db))).

Definition older (a b : Saga) : Prop := created_at a <= created_at b.
#[global] Instance older_dec a b : Decision (older a b).
Proof. unfold older. apply _. Defined.

Definition get_incomplete_sagas (kind : OperationKind) (db : Db) : list Saga :=
  merge_sort older (filter (fun s => operation_kind s = kind) (map_to_list (db_saga_state db)).*2).

(** ** Mint quotes *)

Definition get_mint_quote_payments (db : Db) (id : QuoteId) : list IncomingPayment :=
  map (fun r => mkIncomingPayment (pay_amount r) (pay_timestamp r) (pay_payment_id r))
    (filter (fun r => pay_quote_id r = id) (db_mint_quote_payments db)).

Definition get_mint_quote_issuance (db : Db) (id : QuoteId) : list Issuance :=
  map (fun r => mkIssuance (iss_amount r) (iss_timestamp r))
    (filter (fun r => iss_quote_id r = id) (db_mint_quote_issued db)).

Definition with_ledger (db : Db) (q : MintQuote) : MintQuote :=
  mkMintQuote (mq_id q) (mq_amount q) (mq_unit q) (mq_request q) (mq_expiry q) (mq_request_lookup_id q)
    (mq_pubkey q) (mq_created_time q) (mq_amount_paid q) (mq_amount_issued q)
    (get_mint_quote_payments db (mq_id q)) (mq_payment_method q) (get_mint_quote_issuance db (mq_id q)).

Definition get_mint_quote (id : QuoteId) (db : Db) : option MintQuote :=
  with_ledger db <$> db_mint_quote db !! id.

Definition get_mint_quote_by_request (request : string) (db : Db) : option MintQuote :=
  with_ledger db <$>
  head (filter (fun q => mq_request q = request) (map_to_list (db_mint_quote db)).*2).

Definition get_mint_quote_by_request_lookup_id (id : PaymentIdentifier) (db : Db) : option MintQuote :=
  with_ledger db <$>
  head (filter (fun q => pi_to_string (mq_request_lookup_id q) = pi_to_string id /\
                         pi_kind (mq_request_lookup_id q) = pi_kind id)
               (map_to_list (db_mint_quote db)).*2).

(** [INSERT INTO mint_quote]: the paid and issued columns take their default
    zero, and an amount above [i64::MAX] is stored as [NULL]. *)
Definition add_mint_quote (q : MintQuote) : T unit :=
  do taken <- mgets (fun db => bool_decide (is_Some (db_mint_quote db !! mq_id q))) ;
  do lookup_taken <- mgets (fun db => existsb (fun q' =>
       String.eqb (pi_to_string (mq_request_lookup_id q')) (pi_to_string (mq_request_lookup_id q)))
       (map_to_list (db_mint_quote db)).*2) ;
  do_ constraint Duplicate (negb (taken || lookup_taken)) ;
  mmodify (fun db => set_mint_quote db (<[mq_id q :=
    mkMintQuote (mq_id q) (mq_amount q ≫= Amount.to_i64) (mq_unit q) (mq_request q) (mq_expiry q)
      (mq_request_lookup_id q) (mq_pubkey q) (mq_created_time q) 0 0 [] (mq_payment_method q) []]>
    (db_mint_quote db))).

Definition increment_mint_quote_amount_paid (now : N) (quote_id : QuoteId) (amount_paid : N)
    (payment_id : string) : T N :=
  do_ mlift (ensure (negb (amount_paid =? 0)) Duplicate) ;
  do exists_ <- mgets (fun db => existsb (fun r => String.eqb (pay_payment_id r) payment_id) (db_mint_quote_payments db)) ;
  do_ mlift (ensure (negb exists_) Duplicate) ;
  do current <- mgets (fun db => db_mint_quote db !! quote_id) ;
  let current_amount_paid := from_option mq_amount_paid 0 current in
  do new_amount_paid <- mlift (ok_or AmountOverflow (Amount.checked_add current_amount_paid amount_paid)) ;
  (* UPDATE mint_quote SET amount_paid: NOT NULL, checked on the rows it touches *)
  do_ constraint Database (negb (bool_decide (is_Some current)) || bool_decide (is_Some (Amount.to_i64 new_amount_paid))) ;
  do_ mmodify (fun db => set_mint_quote db (alter (fun q => set_amount_paid q new_amount_paid) quote_id (db_mint_quote db))) ;
  (* INSERT INTO mint_quote_payments: NOT NULL amount, foreign key on the quote *)
  do_ constraint Database (bool_decide (is_Some (Amount.to_i64 amount_paid)) && bool_decide (is_Some current)) ;
  do_ mmodify (fun db => set_mint_quote_payments db
        (db_mint_quote_payments db ++ [mkPaymentRow quote_id payment_id amount_paid now])) ;
  mret new_amount_paid.

Definition increment_mint_quote_amount_issued (now : N) (quote_id : QuoteId) (amount_issued : N) : T N :=
  do current <- mgets (fun db => db_mint_quote db !! quote_id) ;
  do q <- mlift (ok_or QuoteNotFound current) ;
  do new_amount_issued <- mlift (ok_or AmountOverflow (Amount.checked_add (mq_amount_issued q) amount_issued)) ;
  do_ mlift (ok_or Internal (Amount.checked_sub (mq_amount_paid q) new_amount_issued)) ;
  do_ constraint Database (bool_decide (is_Some (Amount.to_i64 new_amount_issued))) ;
  do_ mmodify (fun db => set_mint_quote db (alter (fun q => set_amount_issued q new_amount_issued) quote_id (db_mint_quote db))) ;
  do_ constraint Database (bool_decide (is_Some (Amount.to_i64 amount_issued))) ;
  do_ mmodify (fun db => set_mint_quote_issued db (db_mint_quote_issued db ++ [mkIssuedRow quote_id amount_issued now])) ;
  mret new_amount_issued.

(** ** Melt quotes *)

Definition get_melt_quote (id : QuoteId) (db : Db) : option MeltQuote := db_melt_quote db !! id.
Definition get_melt_quotes (db : Db) : list MeltQuote := (map_to_list (db_melt_quote db)).*2.

(** [CHECK (state IN ('UNPAID', 'PENDING', 'PAID'))]. *)
Definition storable_state (s : MeltQuoteState) : bool :=
  match s with Unpaid | MPending | Paid => true | _ => false end.

(** The unique index on [melt_quote.request_lookup_id], for the other quotes. *)
Definition lookup_free (db : Db) (id : QuoteId) (l : option PaymentIdentifier) : bool :=
  match l with
  | None => true
  | Some l => forallb (fun kv : QuoteId * MeltQuote => bool_decide (kv.1 = id) ||
                negb (bool_decide (pi_to_string <$> lq_request_lookup_id kv.2 = Some (pi_to_string l))))
                (map_to_list (db_melt_quote db))
  end.

Definition add_melt_quote (q : MeltQuote) : T unit :=
  do_ constraint Database (bool_decide (is_Some (Amount.to_i64 (lq_amount q))) &&
        bool_decide (is_Some (Amount.to_i64 (lq_fee_reserve q))) && storable_state (lq_state q)) ;
  do fresh_id <- mgets (fun db => negb (bool_decide (is_Some (db_melt_quote db !! lq_id q)))) ;
  do fresh_lookup <- mgets (fun db => lookup_free db (lq_id q) (lq_request_lookup_id q)) ;
  do_ constraint Duplicate (fresh_id && fresh_lookup) ;
  mmodify (fun db => set_melt_quote db (<[lq_id q := q]> (db_melt_quote db))).

Definition update_melt_quote_request_lookup_id (quote_id : QuoteId) (l : PaymentIdentifier) : T unit :=
  do known <- mgets (fun db => bool_decide (is_Some (db_melt_quote db !! quote_id))) ;
  do free <- mgets (fun db => lookup_free db quote_id (Some l)) ;
  do_ constraint Duplicate (negb known || free) ;
  mmodify (fun db => set_melt_quote db (alter (fun q => set_melt_lookup q (Some l)) quote_id (db_melt_quote db))).

Definition add_melt_request (quote_id : QuoteId) (inputs_amount inputs_fee : N) : T unit :=
  do_ constraint Database (bool_decide (is_Some (Amount.to_i64 inputs_amount)) &&
                           bool_decide (is_Some (Amount.to_i64 inputs_fee))) ;
  do taken <- mgets (fun db => bool_decide (is_Some (db_melt_request db !! quote_id))) ;
  do_ constraint Duplicate (negb taken) ;
  do known <- mgets (fun db => bool_decide (is_Some (db_melt_quote db !! quote_id))) ;
  do_ constraint Database known ;
  mmodify (fun db => set_melt_request db (<[quote_id := mkMeltRequestRow inputs_amount inputs_fee]> (db_melt_request db))).

Record MeltRequestInfo := mkMeltRequestInfo {
  mri_inputs_amount : N; mri_inputs_fee : N; mri_change_outputs : list BlindedMessage }.

Definition unsigned_of_quote (quote_id : QuoteId) (kv : pubkey * SigRow) : Prop :=
  sr_quote_id kv.2 = Some quote_id /\ sr_c kv.2 = None.
#[global] Instance unsigned_of_quote_dec quote_id kv : Decision (unsigned_of_quote quote_id kv).
Proof. unfold unsigned_of_quote. apply _. Defined.

Definition get_melt_request_and_blinded_messages (quote_id : QuoteId) : T (option MeltRequestInfo) :=
  do row <- mgets (fun db => db_melt_request db !! quote_id) ;
  match row with
  | None => mret None
  | Some r =>
      do rows <- mgets (fun db => map_to_list (filter (unsigned_of_quote quote_id) (db_blind_signature db))) ;
      do msgs <- mlift (collect (fun kv : pubkey * SigRow =>
          let? a := ok_or Conversion (Amount.from_i64 (sr_amount kv.2)) in
          Ok (mkBlindedMessage a (sr_keyset_id kv.2) kv.1 None)) rows) ;
      mret (Some (mkMeltRequestInfo (mr_inputs_amount r) (mr_inputs_fee r) msgs))
  end.

Definition delete_melt_request (quote_id : QuoteId) : T unit :=
  do_ mmodify (fun db => set_melt_request db (delete quote_id (db_melt_request db))) ;
  mmodify (fun db => set_blind_signature db
    (filter (fun kv => ~ unsigned_of_quote quote_id kv) (db_blind_signature db))).

(** The [SELECT ... AND state != :state] makes an update to the current state
    look like a missing quote. *)
Definition update_melt_quote_state (now : N) (quote_id : QuoteId) (state : MeltQuoteState)
    (payment_proof : option string) : T (MeltQuoteState * MeltQuote) :=
  do row <- mgets (fun db => db_melt_quote db !! quote_id) ;
  do quote <- mlift (ok_or QuoteNotFound
        (match row with Some q => if decide (lq_state q = state) then None else Some q | None => None end)) ;
  do_ mlift (map_err of_state_error (check_melt_quote_state_transition (lq_state quote) state)) ;
  do_ constraint Database (storable_state state) ;
  do_ mmodify (fun db => set_melt_quote db (alter (fun q =>
        if decide (state = Paid) then set_melt_paid q now payment_proof else set_melt_state q state)
        quote_id (db_melt_quote db))) ;
  do_ (if decide (state = Unpaid \/ state = Failed) then delete_melt_request quote_id else mret tt) ;
  mret (lq_state quote, set_melt_state quote state).

(** [get_proofs_by_ys]. *)
Definition get_proofs_by_ys (ys : list pubkey) (db : Db) : list (option Proof) :=
  take_rows (pr_proof <$> filter (fun kv => kv.1 ∈ ys) (db_proof db)) ys.

End defs.
End MintDb.
