(* ===== verification/MintDbFacts.v ===== *)
(** * Invariants of the mint database

    What no sequence of database calls can undo, in whatever outcome they end:
    a spent proof stays spent, a signature is written once, a paid melt quote
    stays paid, the payment and issuance journals only grow; and the ledger of
    every mint quote agrees with its journals. *)
From stdpp Require Import base numbers list sorting strings gmap fin_maps.
From S2P Require Import Prelude Amount Nuts States MintDb Concrete.

Local Open Scope N_scope.

Module MintDbFacts.
Import Nut00 StateRules MintTypes MintDb.

Section facts.
Context {CR : Crypto}.

(** ** What every call preserves *)

Record evolves (db db' : Db) : Prop := {
  ev_spent y r : db_proof db !! y = Some r -> pr_state r = Nut07.Spent -> db_proof db' !! y = Some r;
  ev_signed b r : db_blind_signature db !! b = Some r -> is_Some (sr_c r) -> db_blind_signature db' !! b = Some r;
  ev_paid id q : db_melt_quote db !! id = Some q -> lq_state q = Paid ->
    exists q', db_melt_quote db' !! id = Some q' /\ lq_state q' = Paid /\
      lq_payment_preimage q' = lq_payment_preimage q /\ lq_paid_time q' = lq_paid_time q;
  ev_payments : db_mint_quote_payments db `prefix_of` db_mint_quote_payments db';
  ev_issued : db_mint_quote_issued db `prefix_of` db_mint_quote_issued db';
}.

#[global] Instance evolves_preorder : PreOrder evolves.
Proof.
  split.
  - intros db. split; eauto.
  - intros a b c [H1 H2 H3 H4 H5] [K1 K2 K3 K4 K5]. split; [eauto|eauto| |by etrans|by etrans].
    intros id q Hq Hp. destruct (H3 _ _ Hq Hp) as (q1 & Hq1 & Hs1 & Hp1 & Ht1).
    destruct (K3 _ _ Hq1 Hs1) as (q2 & ? & ? & ? & ?). exists q2. split_and!; congruence.
Qed.

(** The calls that a transaction offers. *)
Inductive DbOp :=
| OpAddProofs (proofs : list Proof) (q : option QuoteId) (op : Operation)
| OpUpdateProofsStates (ys : list pubkey) (st : Nut07.State)
| OpRemoveProofs (ys : list pubkey)
| OpAddBlindedMessages (q : option QuoteId) (msgs : list BlindedMessage) (op : Operation)
| OpDeleteBlindedMessages (secrets : list pubkey)
| OpAddBlindSignatures (msgs : list pubkey) (sigs : list BlindSignature) (q : option QuoteId)
| OpAddSaga (s : Saga)
| OpUpdateSaga (id : Uuid) (st : SwapSagaState)
| OpDeleteSaga (id : Uuid)
| OpAddMintQuote (q : MintQuote)
| OpIncrementPaid (id : QuoteId) (amount : N) (payment_id : string)
| OpIncrementIssued (id : QuoteId) (amount : N)
| OpAddMeltQuote (q : MeltQuote)
| OpUpdateMeltLookup (id : QuoteId) (l : PaymentIdentifier)
| OpUpdateMeltState (id : QuoteId) (st : MeltQuoteState) (proof : option string)
| OpAddMeltRequest (id : QuoteId) (amount fee : N)
| OpDeleteMeltRequest (id : QuoteId).

Definition drop_result {A} (c : T A) : T unit := mseq c (fun _ => mret tt).

Definition run_op (now : N) (o : DbOp) : T unit :=
  match o with
  | OpAddProofs ps q op => add_proofs now ps q op
  | OpUpdateProofsStates ys st => drop_result (update_proofs_states ys st)
  | OpRemoveProofs ys => remove_proofs ys
  | OpAddBlindedMessages q ms op => add_blinded_messages now q ms op
  | OpDeleteBlindedMessages bs => delete_blinded_messages bs
  | OpAddBlindSignatures ms ss q => add_blind_signatures now ms ss q
  | OpAddSaga s => add_saga now s
  | OpUpdateSaga id st => update_saga now id st
  | OpDeleteSaga id => delete_saga id
  | OpAddMintQuote q => add_mint_quote q
  | OpIncrementPaid id a p => drop_result (increment_mint_quote_amount_paid now id a p)
  | OpIncrementIssued id a => drop_result (increment_mint_quote_amount_issued now id a)
  | OpAddMeltQuote q => add_melt_quote q
  | OpUpdateMeltLookup id l => update_melt_quote_request_lookup_id id l
  | OpUpdateMeltState id st p => drop_result (update_melt_quote_state now id st p)
  | OpAddMeltRequest id a f => add_melt_request id a f
  | OpDeleteMeltRequest id => delete_melt_request id
  end.

(** Calls in sequence, each with its own clock, whatever their outcomes. *)
Fixpoint run_ops (ops : list (N * DbOp)) (db : Db) : Db :=
  match ops with
  | [] => db
  | (now, o) :: ops' => run_ops ops' (snd (run_op now o db))
  end.

(** ** A relation kept by a computation *)

Definition keeps {A} (R : Db -> Db -> Prop) (c : T A) : Prop := forall db, R db (snd (c db)).

Section keeps.
Context (R : Db -> Db -> Prop) `{!PreOrder R}.

Lemma keeps_mret {A} (a : A) : keeps R (mret a).
Proof. intros db. reflexivity. Qed.
Lemma keeps_mfail {A} e : keeps R (mfail e : T A).
Proof. intros db. reflexivity. Qed.
Lemma keeps_mlift {A} (r : res DbError A) : keeps R (mlift r).
Proof. intros db. reflexivity. Qed.
Lemma keeps_mgets {A} (f : Db -> A) : keeps R (mgets f).
Proof. intros db. reflexivity. Qed.
Lemma keeps_constraint e b : keeps R (constraint e b).
Proof. apply keeps_mlift. Qed.
Lemma keeps_mmodify f : (forall db, R db (f db)) -> keeps R (mmodify f).
Proof. intros H db. apply H. Qed.
Lemma keeps_mseq {A B} (c : T A) (k : A -> T B) : keeps R c -> (forall a, keeps R (k a)) -> keeps R (mseq c k).
Proof.
  intros Hc Hk db. unfold mseq. specialize (Hc db).
  destruct (c db) as [[a| |] db1]; cbn in *; [|done..]. etrans; [apply Hc|apply Hk].
Qed.
Lemma keeps_mfor {A} (f : A -> T unit) l : (forall a, keeps R (f a)) -> keeps R (mfor f l).
Proof. intros H. induction l; cbn; [apply keeps_mret|by apply keeps_mseq]. Qed.
Lemma keeps_drop {A} (c : T A) : keeps R c -> keeps R (drop_result c).
Proof. intros H. apply keeps_mseq; [done|intros; apply keeps_mret]. Qed.
End keeps.

#[local] Hint Resolve keeps_mret keeps_mfail keeps_mlift keeps_mgets keeps_constraint keeps_drop : cdk.

(** Run a straight-line computation on [db], one goal per outcome. *)
Ltac run_all :=
  unfold drop_result, constraint in *; unfold mseq, mlift, mgets, mmodify, mret, mfail, ensure, ok_or, map_err in *;
  repeat (case_match; simplify_eq/=);
  repeat match goal with u : unit |- _ => destruct u end.

(** ** Rewriting the tables *)

Lemma lookup_update_states ys st m y :
  update_states ys st m !! y = (fun r => if bool_decide (y ∈ ys) then set_state r st else r) <$> m !! y.
Proof. unfold update_states. rewrite map_lookup_imap. by destruct (m !! y). Qed.

Lemma lookup_current_states db ys y :
  get_current_states db ys !! y = if bool_decide (y ∈ ys) then pr_state <$> db_proof db !! y else None.
Proof.
  unfold get_current_states. rewrite lookup_fmap. case_bool_decide as Hy.
  - destruct (db_proof db !! y) as [r|] eqn:E.
    + by rewrite (map_lookup_filter_Some_2 _ _ y r).
    + rewrite map_lookup_filter_None_2; [done|by left].
  - rewrite map_lookup_filter_None_2; [done|]. right. intros r _. done.
Qed.

Lemma check_transitions_Ok states st s :
  check_transitions states st = Ok tt -> s ∈ states -> check_state_transition s st = Ok tt.
Proof.
  induction states as [|s' states IH]; cbn; [intros _ []%not_elem_of_nil|].
  destruct (check_state_transition s' st) as [[]| |] eqn:E; cbn; [|done..].
  intros H [->|Hin]%elem_of_cons; [done|by apply IH].
Qed.

Lemma checked_state db ys st y r :
  check_transitions (map_to_list (get_current_states db ys)).*2 st = Ok tt ->
  y ∈ ys -> db_proof db !! y = Some r -> check_state_transition (pr_state r) st = Ok tt.
Proof.
  intros Hc Hy Hr. eapply check_transitions_Ok; [done|].
  apply list_elem_of_fmap. exists (y, pr_state r). split; [done|].
  apply elem_of_map_to_list. rewrite lookup_current_states, bool_decide_eq_true_2, Hr by done. done.
Qed.

(** ** The proof table *)

Lemma evolves_set_proof db m :
  (forall y r, db_proof db !! y = Some r -> pr_state r = Nut07.Spent -> m !! y = Some r) ->
  evolves db (set_proof db m).
Proof. intros H. split; cbn; eauto. Qed.

Lemma evolves_insert_proof now q op p : keeps evolves (insert_proof now q op p).
Proof.
  intros db. unfold insert_proof. run_all; try done. apply evolves_set_proof. intros y r Hy _.
  rewrite lookup_insert_ne; [done|]. intros ->. case_bool_decide as Hn; [done|]. destruct Hn. eauto.
Qed.

Lemma evolves_update_proofs_states ys st : keeps evolves (update_proofs_states ys st).
Proof.
  intros db. unfold update_proofs_states. run_all; try done. apply evolves_set_proof. intros y r Hy Hs.
  rewrite lookup_update_states, Hy. cbn. case_bool_decide as Hin; [|done].
  match goal with Hc : check_transitions _ _ = Ok tt |- _ => pose proof (checked_state _ _ _ _ _ Hc Hin Hy) as Hs' end.
  rewrite Hs, spent_is_final in Hs'. done.
Qed.

Lemma evolves_remove_proofs ys : keeps evolves (remove_proofs ys).
Proof.
  intros db. unfold remove_proofs. run_all; try done.
  all: apply evolves_set_proof; intros y r Hy Hs; apply map_lookup_filter_Some_2; [done|];
    intros [_ Hn]; done.
Qed.

(** ** The signature table *)

Lemma evolves_set_blind_signature db m :
  (forall b r, db_blind_signature db !! b = Some r -> is_Some (sr_c r) -> m !! b = Some r) ->
  evolves db (set_blind_signature db m).
Proof. intros H. split; cbn; eauto. Qed.

Lemma evolves_insert_blinded_message now q op bm : keeps evolves (insert_blinded_message now q op bm).
Proof.
  intros db. unfold insert_blinded_message. run_all; try done.
  apply evolves_set_blind_signature. intros b r Hb _.
  rewrite lookup_insert_ne; [done|]. intros <-. case_bool_decide as Hn; [done|]. destruct Hn. eauto.
Qed.

Lemma evolves_delete_blinded_messages bs : keeps evolves (delete_blinded_messages bs).
Proof.
  intros db. unfold delete_blinded_messages. run_all; try done.
  apply evolves_set_blind_signature. intros b r Hb [c Hc]. apply map_lookup_filter_Some_2; [done|].
  intros [_ Hn]. cbn in Hn. congruence.
Qed.

(** The rows selected before the loop still describe the table. *)
Definition agrees (existing : gmap pubkey (option pubkey)) (db : Db) : Prop :=
  forall m o, existing !! m = Some o -> exists r, db_blind_signature db !! m = Some r /\ sr_c r = o.

Lemma agrees_update existing db m f :
  agrees existing db ->
  (forall m', m' <> m -> f !! m' = db_blind_signature db !! m') ->
  agrees (delete m existing) (set_blind_signature db f).
Proof.
  intros Ha Hf m' o. rewrite lookup_delete_Some. intros [Hne He]. cbn. rewrite Hf by done. eauto.
Qed.

Lemma evolves_add_blind_signatures_loop now q pairs existing db :
  agrees existing db -> evolves db (snd (add_blind_signatures_loop now q existing pairs db)).
Proof.
  revert existing db. induction pairs as [|[m s] pairs IH]; intros existing db Ha; [done|].
  cbn [add_blind_signatures_loop]. destruct (existing !! m) as [[c|]|] eqn:He; unfold mseq at 1.
  - done.
  - destruct (Ha _ _ He) as (r & Hr & Hc). cbn [mmodify]. etrans; [|apply IH, agrees_update; [done|]].
    + apply evolves_set_blind_signature. intros b r' Hb [c Hc']. rewrite lookup_alter_ne; [done|].
      intros ->. congruence.
    + intros m' Hm. by rewrite lookup_alter_ne.
  - unfold mseq, mgets, constraint, mlift, ensure. cbn.
    case_bool_decide as Hn; cbn; [done|]. etrans; [|apply IH, agrees_update; [done|]].
    + apply evolves_set_blind_signature. intros b r' Hb _. rewrite lookup_insert_ne; [done|].
      intros ->. destruct Hn. eauto.
    + intros m' Hm. by rewrite lookup_insert_ne.
Qed.

Lemma agrees_selected db (ms : list pubkey) :
  agrees (sr_c <$> filter (fun kv => kv.1 ∈ ms) (db_blind_signature db)) db.
Proof.
  intros m o. rewrite lookup_fmap. destruct (filter _ _ !! m) as [r|] eqn:E; [|done].
  intros [= <-]. apply map_lookup_filter_Some in E as [E _]. eauto.
Qed.

Lemma evolves_add_blind_signatures now ms ss q : keeps evolves (add_blind_signatures now ms ss q).
Proof.
  intros db. unfold add_blind_signatures, mseq at 1. unfold mlift, ensure.
  destruct (Nat.eqb (length ms) (length ss)); [|done].
  unfold mseq at 1. cbn [mgets]. unfold mseq.
  pose proof (evolves_add_blind_signatures_loop now q (zip ms ss) _ _ (agrees_selected db ms)) as H'.
  destruct (add_blind_signatures_loop _ _ _ _ db) as [[u| |] db'] eqn:E; done.
Qed.

(** ** Quotes *)

Lemma evolves_other db db' :
  db_proof db' = db_proof db -> db_blind_signature db' = db_blind_signature db ->
  db_melt_quote db' = db_melt_quote db ->
  db_mint_quote_payments db `prefix_of` db_mint_quote_payments db' ->
  db_mint_quote_issued db `prefix_of` db_mint_quote_issued db' -> evolves db db'.
Proof. intros H1 H2 H3 H4 H5. split; rewrite ?H1, ?H2, ?H3; eauto. Qed.

Lemma evolves_set_melt_quote db m :
  (forall id q, db_melt_quote db !! id = Some q -> lq_state q = Paid ->
    exists q', m !! id = Some q' /\ lq_state q' = Paid /\
      lq_payment_preimage q' = lq_payment_preimage q /\ lq_paid_time q' = lq_paid_time q) ->
  evolves db (set_melt_quote db m).
Proof. intros H. split; cbn; eauto. Qed.

Lemma evolves_add_saga now s : keeps evolves (add_saga now s).
Proof. intros db. unfold add_saga. run_all; try done. by apply evolves_other. Qed.

Lemma evolves_add_mint_quote q : keeps evolves (add_mint_quote q).
Proof. intros db. unfold add_mint_quote. run_all; try done. by apply evolves_other. Qed.

Lemma evolves_increment_paid now id a p : keeps evolves (increment_mint_quote_amount_paid now id a p).
Proof.
  intros db. unfold increment_mint_quote_amount_paid. run_all; try done; apply evolves_other; cbn; try done.
  by apply prefix_app_r.
Qed.

Lemma evolves_increment_issued now id a : keeps evolves (increment_mint_quote_amount_issued now id a).
Proof.
  intros db. unfold increment_mint_quote_amount_issued. run_all; try done; apply evolves_other; cbn; try done.
  by apply prefix_app_r.
Qed.

Lemma evolves_add_melt_quote q : keeps evolves (add_melt_quote q).
Proof.
  intros db. unfold add_melt_quote. run_all; try done. apply evolves_set_melt_quote. intros id q' Hq Hp.
  exists q'. split_and!; [|done..]. rewrite lookup_insert_ne; [done|]. intros <-. case_bool_decide; [done|].
  match goal with Hn : ~ is_Some _ |- _ => destruct Hn; eauto end.
Qed.

Lemma evolves_update_lookup id l : keeps evolves (update_melt_quote_request_lookup_id id l).
Proof.
  intros db. unfold update_melt_quote_request_lookup_id. run_all; try done.
  apply evolves_set_melt_quote. intros id' q' Hq Hp.
  destruct (decide (id = id')) as [<-|]; [|exists q'; by rewrite lookup_alter_ne].
  rewrite lookup_alter_eq, Hq. cbn. eauto.
Qed.

Lemma evolves_add_melt_request id a f : keeps evolves (add_melt_request id a f).
Proof. intros db. unfold add_melt_request. run_all; try done. by apply evolves_other. Qed.

Lemma evolves_delete_melt_request id : keeps evolves (delete_melt_request id).
Proof.
  unfold delete_melt_request. apply keeps_mseq; [apply _| |intros []].
  - apply keeps_mmodify. intros db. by apply evolves_other.
  - apply keeps_mmodify. intros db. apply evolves_set_blind_signature.
    intros b r Hb [c Hc]. apply map_lookup_filter_Some_2; [done|]. intros [_ Hn]. cbn in Hn. congruence.
Qed.

Lemma evolves_update_melt_quote_state now id st p : keeps evolves (update_melt_quote_state now id st p).
Proof.
  intros db. unfold update_melt_quote_state.
  destruct (db_melt_quote db !! id) as [q|] eqn:Hq; [|unfold mseq, mgets, mlift; rewrite Hq; done].
  assert (Hmod : check_melt_quote_state_transition (lq_state q) st = Ok tt ->
    evolves db (set_melt_quote db (alter (fun q => if decide (st = Paid) then set_melt_paid q now p
      else set_melt_state q st) id (db_melt_quote db)))).
  { intros Hc. apply evolves_set_melt_quote. intros id' q' Hq' Hp.
    destruct (decide (id = id')) as [<-|]; [|exists q'; by rewrite lookup_alter_ne].
    simplify_eq. by rewrite Hp, paid_is_final in Hc. }
  unfold mseq at 1. unfold mgets. rewrite Hq. unfold mseq at 1. unfold mlift at 1.
  destruct (decide (lq_state q = st)); cbn [ok_or]; [done|]. unfold mseq at 1. unfold mlift at 1.
  destruct (check_melt_quote_state_transition (lq_state q) st) as [[]| |]; cbn [map_err]; [|done..].
  unfold mseq at 1, constraint, mlift, ensure. destruct (storable_state st); [|done].
  unfold mseq at 1, mmodify. etrans; [by apply Hmod|]. generalize (set_melt_quote db
    (alter (fun q0 => if decide (st = Paid) then set_melt_paid q0 now p else set_melt_state q0 st) id
       (db_melt_quote db))).
  change (keeps evolves (mseq (if decide (st = Unpaid \/ st = Failed) then delete_melt_request id else mret tt)
    (fun _ => mret (lq_state q, set_melt_state q st)))).
  apply keeps_mseq; [apply _| |intros; apply keeps_mret; apply _].
  destruct (decide (st = Unpaid \/ st = Failed)); [apply evolves_delete_melt_request|apply keeps_mret; apply _].
Qed.

Lemma evolves_run_op now o : keeps evolves (run_op now o).
Proof.
  destruct o; cbn [run_op]; try apply keeps_drop; try apply _.
  - unfold add_proofs. repeat (apply keeps_mseq; [apply _|..]; intros); try apply keeps_mlift; try apply keeps_mgets;
      try apply _. apply keeps_mfor; [apply _|]. intros. apply evolves_insert_proof.
  - apply evolves_update_proofs_states.
  - apply evolves_remove_proofs.
  - apply keeps_mfor; [apply _|]. intros. apply evolves_insert_blinded_message.
  - apply evolves_delete_blinded_messages.
  - apply evolves_add_blind_signatures.
  - apply evolves_add_saga.
  - apply keeps_mmodify. intros db. by apply evolves_other.
  - apply keeps_mmodify. intros db. by apply evolves_other.
  - apply evolves_add_mint_quote.
  - apply evolves_increment_paid.
  - apply evolves_increment_issued.
  - apply evolves_add_melt_quote.
  - apply evolves_update_lookup.
  - apply evolves_update_melt_quote_state.
  - apply evolves_add_melt_request.
  - apply evolves_delete_melt_request.
Qed.

Lemma run_ops_evolves ops db : evolves db (run_ops ops db).
Proof.
  revert db. induction ops as [|[now o] ops IH]; intros db; cbn; [done|].
  etrans; [apply evolves_run_op|apply IH].
Qed.

(** C7. No sequence of database calls, in whatever outcome each of them ends,
    changes a spent proof, overwrites or removes a blind signature, takes a
    paid melt quote out of the paid state or replaces its preimage, or rewrites
    the payment and issuance journals. *)
Theorem settled_facts_are_permanent ops db y row b sig id q :
  db_proof db !! y = Some row -> pr_state row = Nut07.Spent ->
  db_blind_signature db !! b = Some sig -> is_Some (sr_c sig) ->
  db_melt_quote db !! id = Some q -> lq_state q = Paid ->
  let db' := run_ops ops db in
  db_proof db' !! y = Some row /\ db_blind_signature db' !! b = Some sig /\
  (exists q', db_melt_quote db' !! id = Some q' /\ lq_state q' = Paid /\
     lq_payment_preimage q' = lq_payment_preimage q) /\
  db_mint_quote_payments db `prefix_of` db_mint_quote_payments db' /\
  db_mint_quote_issued db `prefix_of` db_mint_quote_issued db'.
Proof.
  intros Hy Hs Hb Hc Hq Hp. cbn zeta. destruct (run_ops_evolves ops db) as [E1 E2 E3 E4 E5].
  destruct (E3 _ _ Hq Hp) as (q' & ? & ? & ? & _). split_and!; eauto.
Qed.

(** ** The ledger of mint quotes *)

Definition paid_total (db : Db) (id : QuoteId) : N := sumN (map ip_amount (get_mint_quote_payments db id)).
Definition issued_total (db : Db) (id : QuoteId) : N := sumN (map is_amount (get_mint_quote_issuance db id)).

Record ledger_ok (db : Db) : Prop := {
  lk_quote id q : db_mint_quote db !! id = Some q ->
    mq_id q = id /\ mq_amount_paid q = paid_total db id /\ mq_amount_issued q = issued_total db id /\
    solvent q /\ mq_amount_paid q <= I64_MAX;
  lk_paid r : r ∈ db_mint_quote_payments db -> is_Some (db_mint_quote db !! pay_quote_id r);
  lk_issued r : r ∈ db_mint_quote_issued db -> is_Some (db_mint_quote db !! iss_quote_id r);
  lk_unique : NoDup (map pay_payment_id (db_mint_quote_payments db));
}.

Definition keeps_ledger (db db' : Db) : Prop := ledger_ok db -> ledger_ok db'.

#[global] Instance keeps_ledger_preorder : PreOrder keeps_ledger.
Proof. unfold keeps_ledger. split; repeat intro; auto. Qed.

(** Calls that do not touch the three ledger tables. *)
Definition same_ledger (db db' : Db) : Prop :=
  db_mint_quote db' = db_mint_quote db /\ db_mint_quote_payments db' = db_mint_quote_payments db /\
  db_mint_quote_issued db' = db_mint_quote_issued db.

#[global] Instance same_ledger_preorder : PreOrder same_ledger.
Proof.
  split; unfold same_ledger; [done|]. intros a b c (H1 & H2 & H3) (K1 & K2 & K3). split_and!; congruence.
Qed.

Lemma same_ledger_keeps db db' : same_ledger db db' -> keeps_ledger db db'.
Proof.
  intros (H1 & H2 & H3) [L1 L2 L3 L4]. destruct db, db'; cbn in *; subst. split; cbn in *; eauto.
Qed.

Lemma paid_total_app db id r :
  paid_total (set_mint_quote_payments db (db_mint_quote_payments db ++ [r])) id =
  paid_total db id + (if decide (pay_quote_id r = id) then pay_amount r else 0).
Proof.
  unfold paid_total, get_mint_quote_payments. cbn. rewrite filter_app, !map_app, sumN_app. f_equal.
  rewrite filter_cons, filter_nil. case_decide; cbn; [apply N.add_0_r|done].
Qed.

Lemma issued_total_app db id r :
  issued_total (set_mint_quote_issued db (db_mint_quote_issued db ++ [r])) id =
  issued_total db id + (if decide (iss_quote_id r = id) then iss_amount r else 0).
Proof.
  unfold issued_total, get_mint_quote_issuance. cbn. rewrite filter_app, !map_app, sumN_app. f_equal.
  rewrite filter_cons, filter_nil. case_decide; cbn; [apply N.add_0_r|done].
Qed.

(** A quote without a row has no journal entries. *)
Lemma fresh_quote_totals db id :
  ledger_ok db -> db_mint_quote db !! id = None -> paid_total db id = 0 /\ issued_total db id = 0.
Proof.
  intros [_ L2 L3 _] Hn.
  unfold paid_total, issued_total, get_mint_quote_payments, get_mint_quote_issuance.
  rewrite !filter_none; [done|..]; intros r Hr <-;
    [apply L3 in Hr|apply L2 in Hr]; destruct Hr; congruence.
Qed.

Lemma ledger_add_mint_quote q : keeps keeps_ledger (add_mint_quote q).
Proof.
  intros db. unfold add_mint_quote. run_all; try done. intros L. pose proof L as [L1 L2 L3 L4].
  apply negb_true_iff, orb_false_iff in H0 as [Hfree _]. apply bool_decide_eq_false in Hfree.
  assert (Hn : db_mint_quote db !! mq_id q = None) by (by apply eq_None_not_Some).
  destruct (fresh_quote_totals _ _ L Hn) as [Hp Hi].
  split; cbn; [|intros r Hr; rewrite lookup_insert_is_Some'; auto..|done].
  intros id q'. rewrite lookup_insert. case_decide as Heq; [subst id|by apply L1].
  intros [= <-]. cbn. unfold solvent. cbn. unfold paid_total, issued_total in *. cbn in *.
  unfold get_mint_quote_payments, get_mint_quote_issuance in *. cbn in *. split_and!; [done..|lia|lia].
Qed.

(** Structural proof that a computation keeps a preorder, when each of its
    writes does. *)
Ltac keeps_auto :=
  repeat first
    [ progress intros
    | apply keeps_mret; apply _ | apply keeps_mfail; apply _ | apply keeps_mlift; apply _
    | apply keeps_mgets; apply _ | apply keeps_constraint; apply _
    | apply keeps_mmodify; intros ?; done
    | apply keeps_drop; [apply _|] | apply keeps_mseq; [apply _|..] | apply keeps_mfor; [apply _|]
    | match goal with |- keeps _ (match ?x with _ => _ end) => destruct x end ].

Lemma same_ledger_sig_loop now q pairs existing :
  keeps same_ledger (add_blind_signatures_loop now q existing pairs).
Proof.
  revert existing. induction pairs as [|[m s] pairs IH]; intros existing; cbn [add_blind_signatures_loop]; keeps_auto.
  apply IH.
Qed.

Definition touches_ledger (o : DbOp) : bool :=
  match o with OpAddMintQuote _ | OpIncrementPaid _ _ _ | OpIncrementIssued _ _ => true | _ => false end.

Lemma same_ledger_run_op now o : touches_ledger o = false -> keeps same_ledger (run_op now o).
Proof.
  destruct o; cbn [run_op touches_ledger]; intros Ht; try discriminate Ht.
  - unfold add_proofs, insert_proof. keeps_auto.
  - unfold update_proofs_states. keeps_auto.
  - unfold remove_proofs. keeps_auto.
  - unfold add_blinded_messages, insert_blinded_message. keeps_auto.
  - unfold delete_blinded_messages. keeps_auto.
  - unfold add_blind_signatures. keeps_auto. apply same_ledger_sig_loop.
  - unfold add_saga. keeps_auto.
  - unfold update_saga. keeps_auto.
  - unfold delete_saga. keeps_auto.
  - unfold add_melt_quote. keeps_auto.
  - unfold update_melt_quote_request_lookup_id. keeps_auto.
  - unfold update_melt_quote_state, delete_melt_request. keeps_auto.
  - unfold add_melt_request. keeps_auto.
  - unfold delete_melt_request. keeps_auto.
Qed.

(** Both writes of a payment, together. *)
Lemma ledger_pay db now id q a p :
  ledger_ok db -> db_mint_quote db !! id = Some q ->
  p ∉ map pay_payment_id (db_mint_quote_payments db) -> mq_amount_paid q + a <= I64_MAX ->
  ledger_ok (set_mint_quote_payments
    (set_mint_quote db (alter (fun q => set_amount_paid q (mq_amount_paid q + a)) id (db_mint_quote db)))
    (db_mint_quote_payments db ++ [mkPaymentRow id p a now])).
Proof.
  intros [L1 L2 L3 L4] Hq Hp Hb. split; cbn.
  - intros id' q'. pose proof (paid_total_app db id' (mkPaymentRow id p a now)) as Hpt. cbn in Hpt.
    unfold paid_total, issued_total, get_mint_quote_payments, get_mint_quote_issuance in *. cbn in *.
    destruct (decide (id = id')) as [<-|Hne].
    + rewrite lookup_alter_eq, Hq. intros [= <-]. cbn. destruct (L1 _ _ Hq) as (? & E1 & E2 & ? & ?).
      unfold solvent in *. cbn. rewrite Hpt, <- E1. split_and!; try done; lia.
    + rewrite lookup_alter_ne by done. intros Hq'. rewrite Hpt, N.add_0_r. by apply L1.
  - intros r Hr. rewrite lookup_alter_is_Some. apply elem_of_app in Hr as [Hr|Hr%list_elem_of_singleton]; [auto|].
    subst r. cbn. eauto.
  - intros r Hr. rewrite lookup_alter_is_Some. auto.
  - rewrite map_app. apply NoDup_app. split_and!; [done|set_solver|apply NoDup_singleton].
Qed.

Lemma ledger_issue db now id q a :
  ledger_ok db -> db_mint_quote db !! id = Some q ->
  mq_amount_issued q + a <= mq_amount_paid q ->
  ledger_ok (set_mint_quote_issued
    (set_mint_quote db (alter (fun q => set_amount_issued q (mq_amount_issued q + a)) id (db_mint_quote db)))
    (db_mint_quote_issued db ++ [mkIssuedRow id a now])).
Proof.
  intros [L1 L2 L3 L4] Hq Hb. split; cbn; [..|done].
  - intros id' q'. pose proof (issued_total_app db id' (mkIssuedRow id a now)) as Hpt. cbn in Hpt.
    unfold paid_total, issued_total, get_mint_quote_payments, get_mint_quote_issuance in *. cbn in *.
    destruct (decide (id = id')) as [<-|Hne].
    + rewrite lookup_alter_eq, Hq. intros [= <-]. cbn. destruct (L1 _ _ Hq) as (? & E1 & E2 & ? & ?).
      unfold solvent in *. cbn. rewrite Hpt, <- E2. split_and!; try done; lia.
    + rewrite lookup_alter_ne by done. intros Hq'. rewrite Hpt, N.add_0_r. by apply L1.
  - intros r Hr. rewrite lookup_alter_is_Some. auto.
  - intros r Hr. rewrite lookup_alter_is_Some. apply elem_of_app in Hr as [Hr|Hr%list_elem_of_singleton]; [auto|].
    subst r. cbn. eauto.
Qed.

Lemma existsb_payment_id p l :
  existsb (fun r => String.eqb (pay_payment_id r) p) l = false -> p ∉ map pay_payment_id l.
Proof.
  induction l as [|r l IH]; cbn; [set_solver|]. intros [H1 H2]%orb_false_iff.
  apply String.eqb_neq in H1. apply not_elem_of_cons. split; [done|auto].
Qed.

Lemma to_i64_is_Some a : is_Some (Amount.to_i64 a) <-> a <= I64_MAX.
Proof.
  unfold Amount.to_i64. destruct (N.leb_spec a I64_MAX); split; intros; try done; try lia.
  all: match goal with H : is_Some None |- _ => by destruct H end.
Qed.

Definition pay_db (now : N) (id : QuoteId) (a : N) (p : string) (db : Db) : Db :=
  set_mint_quote_payments
    (set_mint_quote db (alter (fun q => set_amount_paid q (mq_amount_paid q + a)) id (db_mint_quote db)))
    (db_mint_quote_payments db ++ [mkPaymentRow id p a now]).

Definition issue_db (now : N) (id : QuoteId) (a : N) (db : Db) : Db :=
  set_mint_quote_issued
    (set_mint_quote db (alter (fun q => set_amount_issued q (mq_amount_issued q + a)) id (db_mint_quote db)))
    (db_mint_quote_issued db ++ [mkIssuedRow id a now]).

Lemma alter_const {A} (f g : A -> A) (id : QuoteId) (m : gmap QuoteId A) :
  (forall q, m !! id = Some q -> f q = g q) -> alter f id m = alter g id m.
Proof.
  intros H. apply map_eq. intros i. destruct (decide (id = i)) as [<-|].
  - rewrite !lookup_alter_eq. destruct (m !! id) eqn:E; [cbn; by rewrite H|done].
  - by rewrite !lookup_alter_ne.
Qed.

Lemma set_mint_quote_id db : set_mint_quote db (db_mint_quote db) = db.
Proof. by destruct db. Qed.

(** Recording a payment either writes both tables or nothing at all. *)
Lemma increment_paid_run now id a p db :
  match increment_mint_quote_amount_paid now id a p db with
  | (Ok total, db') => exists q, db_mint_quote db !! id = Some q /\ 0 < a /\
      (p ∉ map pay_payment_id (db_mint_quote_payments db)) /\ mq_amount_paid q + a <= I64_MAX /\
      total = mq_amount_paid q + a /\ db' = pay_db now id a p db
  | (Err _, db') => db' = db
  | (Panic, _) => False
  end.
Proof.
  unfold increment_mint_quote_amount_paid, constraint, mseq, mlift, mgets, mmodify, mret, ensure, ok_or.
  destruct (N.eqb_spec a 0) as [|Ha]; cbn [negb]; [done|].
  destruct (existsb _ _) eqn:Hp; cbn [negb]; [done|]. apply existsb_payment_id in Hp.
  destruct (Amount.checked_add _ a) as [total|] eqn:Ht; [|done]. apply u64_checked_add_Some in Ht as [-> _].
  destruct (db_mint_quote db !! id) as [q|] eqn:Hq.
  - rewrite (bool_decide_eq_true_2 (is_Some (Some q))) by eauto. cbn [negb orb from_option].
    case_bool_decide as Hi; [|done]. apply to_i64_is_Some in Hi. rewrite andb_true_r.
    rewrite bool_decide_eq_true_2 by (apply to_i64_is_Some; lia).
    exists q. split_and!; try done; [lia|]. unfold pay_db. cbn. do 2 f_equal. apply alter_const. intros; by simplify_eq.
  - rewrite (bool_decide_eq_false_2 (is_Some None)) by (by intros []). cbn [negb orb]. rewrite andb_false_r.
    erewrite (alter_const _ (fun q => q)), alter_id by (try done; intros; congruence). apply set_mint_quote_id.
Qed.

Lemma increment_issued_run now id a db :
  match increment_mint_quote_amount_issued now id a db with
  | (Ok total, db') => exists q, db_mint_quote db !! id = Some q /\
      mq_amount_issued q + a <= mq_amount_paid q /\ total = mq_amount_issued q + a /\ db' = issue_db now id a db
  | (Err _, db') => db' = db
  | (Panic, _) => False
  end.
Proof.
  unfold increment_mint_quote_amount_issued, constraint, mseq, mlift, mgets, mmodify, mret, ensure, ok_or.
  destruct (db_mint_quote db !! id) as [q|] eqn:Hq; [|done].
  destruct (Amount.checked_add _ a) as [total|] eqn:Ht; [|done]. apply u64_checked_add_Some in Ht as [-> _].
  destruct (Amount.checked_sub _ _) eqn:Hs; [|done]. apply u64_checked_sub_Some in Hs as [-> Hs].
  case_bool_decide as Hi; [|done]. apply to_i64_is_Some in Hi.
  rewrite bool_decide_eq_true_2 by (apply to_i64_is_Some; lia).
  exists q. split_and!; try done. unfold issue_db. cbn. do 2 f_equal. apply alter_const. intros; by simplify_eq.
Qed.

Lemma ledger_increment_paid now id a p : keeps keeps_ledger (increment_mint_quote_amount_paid now id a p).
Proof.
  intros db L. pose proof (increment_paid_run now id a p db) as H.
  destruct (increment_mint_quote_amount_paid now id a p db) as [[total| |] db']; [|by subst|done].
  destruct H as (q & Hq & _ & Hp & Hb & _ & ->). by eapply ledger_pay.
Qed.

Lemma ledger_increment_issued now id a : keeps keeps_ledger (increment_mint_quote_amount_issued now id a).
Proof.
  intros db L. pose proof (increment_issued_run now id a db) as H.
  destruct (increment_mint_quote_amount_issued now id a db) as [[total| |] db']; [|by subst|done].
  destruct H as (q & Hq & Hb & _ & ->). by eapply ledger_issue.
Qed.

Lemma ledger_run_op now o : keeps keeps_ledger (run_op now o).
Proof.
  destruct (touches_ledger o) eqn:Ht.
  - destruct o; try discriminate Ht; cbn [run_op]; [apply ledger_add_mint_quote| |]; (apply keeps_drop; [apply _|]);
      [apply ledger_increment_paid|apply ledger_increment_issued].
  - intros db. apply same_ledger_keeps. by apply same_ledger_run_op.
Qed.

Lemma ledger_run_ops ops db : ledger_ok db -> ledger_ok (run_ops ops db).
Proof.
  revert db. induction ops as [|[now o] ops IH]; intros db L; cbn; [done|]. apply IH. by apply ledger_run_op.
Qed.

Lemma ledger_empty : ledger_ok empty_db.
Proof. split; cbn; [intros id q; by rewrite lookup_empty|set_solver|set_solver|constructor]. Qed.

(** A quote read from tables whose ledger is in order. *)
Lemma ledger_quote_sound db id q :
  ledger_ok db -> get_mint_quote id db = Some q ->
  mq_amount_paid q = sumN (map ip_amount (mq_payments q)) /\
  mq_amount_issued q = sumN (map is_amount (mq_issuance q)) /\
  mq_amount_issued q <= mq_amount_paid q /\
  NoDup (payment_ids q) /\
  amount_mintable q = Ok (mq_amount_paid q - mq_amount_issued q).
Proof.
  intros [L1 _ _ L4]. unfold get_mint_quote.
  destruct (db_mint_quote _ !! id) as [q0|] eqn:Hq; [|done]. intros [= <-].
  destruct (L1 _ _ Hq) as (Hid & Hp & Hi & Hs & _). cbn. rewrite Hid. split_and!; [done..| |].
  - unfold payment_ids. cbn. unfold get_mint_quote_payments. rewrite map_map. cbn.
    by apply NoDup_map_filter.
  - exact (amount_mintable_solvent q0 Hs).
Qed.

(** C6. In every database that a sequence of calls can reach from the empty
    one, whatever their outcomes: a mint quote's paid amount is the sum of its
    recorded payments, its issued amount the sum of its recorded issuances,
    never more is issued than was paid, no payment identifier is recorded
    twice, and [amount_mintable] does not panic. *)
Theorem mint_ledger_sound ops id q :
  get_mint_quote id (run_ops ops empty_db) = Some q ->
  mq_amount_paid q = sumN (map ip_amount (mq_payments q)) /\
  mq_amount_issued q = sumN (map is_amount (mq_issuance q)) /\
  mq_amount_issued q <= mq_amount_paid q /\
  NoDup (payment_ids q) /\
  amount_mintable q = Ok (mq_amount_paid q - mq_amount_issued q).
Proof. apply ledger_quote_sound, ledger_run_ops, ledger_empty. Qed.

End facts.
End MintDbFacts.
