(* ===== verification/MintDbSpec.v ===== *)
(** * Functional specification of the database calls

    What each call of a swap, mint or melt transaction does to the tables, in
    one equation on the maps: used by the transactions built from them. *)
From stdpp Require Import base numbers list sorting strings gmap fin_maps.
From S2P Require Import Prelude Amount Nuts States MintDb MintDbFacts.

Local Open Scope N_scope.

Module MintDbSpec.
Import Nut00 StateRules MintTypes MintDb MintDbFacts.

Section spec.
Context {CR : Crypto}.

Lemma set_proof_set db m m' : set_proof (set_proof db m) m' = set_proof db m'.
Proof. done. Qed.

(** ** Adding proofs *)

Definition proof_rows (now : N) (q : option QuoteId) (op : Operation) (ys : list pubkey) (ps : list Proof)
    : gmap pubkey ProofRow :=
  list_to_map (zip ys (map (fun p => proof_row now p q op) ps)).

Lemma proof_rows_None now q op ys ps y : y ∉ ys -> proof_rows now q op ys ps !! y = None.
Proof.
  intros Hy. apply not_elem_of_list_to_map_1. intros Hin. apply Hy.
  apply list_elem_of_fmap in Hin as ([y' r] & -> & Hin). by apply elem_of_zip_l in Hin.
Qed.

Definition addable (db : Db) (ps : list Proof) (ys : list pubkey) : Prop :=
  Nut00.ys ps = Ok ys /\ NoDup ys /\ (forall y, y ∈ ys -> db_proof db !! y = None) /\
  Forall (fun p => amount p <= I64_MAX) ps.

Lemma insert_proof_run now q op p db :
  match insert_proof now q op p db with
  | (Ok _, db') => exists y, Nut00.y p = Ok y /\ amount p <= I64_MAX /\ db_proof db !! y = None /\
      db' = set_proof db (<[y := proof_row now p q op]> (db_proof db))
  | (Err _, db') => db' = db
  | (Panic, db') => Nut00.y p = Panic
  end.
Proof.
  unfold insert_proof, constraint, mseq, mlift, mgets, mmodify, ensure.
  destruct (Nut00.y p) as [y| |]; cbn [map_err]; [|done..].
  case_bool_decide as Hi; [|done]. apply to_i64_is_Some in Hi.
  case_bool_decide as Hy; cbn [negb]; [done|]. exists y. split_and!; try done. by apply eq_None_not_Some.
Qed.

Lemma insert_proof_Ok now q op p db y :
  Nut00.y p = Ok y -> amount p <= I64_MAX -> db_proof db !! y = None ->
  insert_proof now q op p db = (Ok tt, set_proof db (<[y := proof_row now p q op]> (db_proof db))).
Proof.
  intros Hy Ha Hn. unfold insert_proof, constraint, mseq, mlift, mgets, mmodify, ensure. rewrite Hy. cbn [map_err].
  rewrite bool_decide_eq_true_2 by by apply to_i64_is_Some.
  rewrite bool_decide_eq_false_2 by (rewrite Hn; by intros []). done.
Qed.

Lemma insert_proofs_Ok now q op ps db db' :
  mfor (insert_proof now q op) ps db = (Ok tt, db') <->
  exists ys, addable db ps ys /\ db' = set_proof db (proof_rows now q op ys ps ∪ db_proof db).
Proof.
  unfold addable. revert db. induction ps as [|p ps IH]; intros db.
  { cbn. split.
    - intros [= <-]. exists []. split_and!; try done; [constructor|set_solver|].
      unfold proof_rows. cbn. rewrite (left_id_L ∅ (∪)). by destruct db.
    - intros (ys & ([= <-] & _) & ->). unfold proof_rows. cbn. rewrite (left_id_L ∅ (∪)). by destruct db. }
  cbn [mfor]. unfold mseq. unfold Nut00.ys. cbn [collect]. split.
  - pose proof (insert_proof_run now q op p db) as Hrun.
    destruct (insert_proof now q op p db) as [[u| |] db1]; [|done..].
    destruct Hrun as (y & Hy & Ha & Hn & ->). intros (ys & (Hys & Hnd & Hfree & Hamt) & ->)%IH.
    rewrite Hy. unfold Nut00.ys in Hys. rewrite Hys. exists (y :: ys). cbn in Hfree.
    assert (Hyn : y ∉ ys) by (intros Hin; specialize (Hfree y Hin); by rewrite lookup_insert_eq in Hfree).
    split_and!; [done|by constructor| |by constructor|].
    + intros z [->|Hz]%elem_of_cons; [done|]. specialize (Hfree z Hz).
      rewrite lookup_insert_ne in Hfree; [done|]. by intros ->.
    + unfold proof_rows. cbn. rewrite set_proof_set. cbn. f_equal.
      rewrite <- insert_union_l. symmetry. apply insert_union_r. by apply (proof_rows_None now q op).
  - intros (ys & (Hys & Hnd & Hfree & Hamt) & ->). unfold Nut00.ys in IH.
    destruct (Nut00.y p) as [y| |] eqn:Hy; [|done..].
    destruct (collect Nut00.y ps) as [ys'| |]; [|done..]. injection Hys as <-.
    apply NoDup_cons in Hnd as [Hyn Hnd]. apply Forall_cons in Hamt as [Ha Hamt].
    rewrite (insert_proof_Ok _ _ _ _ _ _ Hy Ha) by (apply Hfree; set_solver).
    apply IH. exists ys'. split_and!; try done.
    + intros z Hz. cbn. rewrite lookup_insert_ne by (by intros ->). apply Hfree. set_solver.
    + unfold proof_rows. cbn. f_equal. rewrite <- insert_union_l. apply insert_union_r.
      by apply (proof_rows_None now q op).
Qed.

Lemma add_proofs_Ok now ps q op db db' :
  add_proofs now ps q op db = (Ok tt, db') <->
  exists ys, addable db ps ys /\ db' = set_proof db (proof_rows now q op ys ps ∪ db_proof db).
Proof.
  rewrite <- insert_proofs_Ok. unfold add_proofs. unfold mseq at 1, mlift at 1.
  assert (Hhead : forall ys (m : gmap pubkey ProofRow), (forall y, y ∈ ys -> m !! y = None) ->
    head (omap (fun y => pr_state <$> m !! y) ys) = None).
  { intros ys m Hf. induction ys as [|y ys IH]; [done|]. cbn. rewrite Hf by set_solver. cbn. apply IH. set_solver. }
  split.
  - destruct (Nut00.ys ps) as [ys| |]; cbn [map_err]; [|done..].
    unfold mseq, mgets, mlift. by destruct (head _) as [[]|].
  - intros H. pose proof H as H'. apply insert_proofs_Ok in H' as (ys & (Hys & _ & Hf & _) & _).
    rewrite Hys. cbn [map_err]. unfold mseq, mgets, mlift. by rewrite Hhead.
Qed.

(** ** Changing states *)

(** Every proof of [ys] is there, once, in a state from which [st] is allowed. *)
Definition updatable (db : Db) (ys : list pubkey) (st : Nut07.State) : Prop :=
  NoDup ys /\ forall y, y ∈ ys ->
    exists r, db_proof db !! y = Some r /\ check_state_transition (pr_state r) st = Ok tt.

Lemma size_current_states db ys :
  size (get_current_states db ys) = length ys <->
  NoDup ys /\ forall y, y ∈ ys -> is_Some (db_proof db !! y).
Proof.
  rewrite keys_cover.
  - split; intros [Hnd H]; (split; [done|]); intros y Hy; specialize (H y Hy);
      rewrite lookup_current_states, bool_decide_eq_true_2, fmap_is_Some in * by done; done.
  - intros y. rewrite lookup_current_states. case_bool_decide; [done|by intros []].
Qed.

Lemma check_transitions_all states st :
  (forall s, s ∈ states -> check_state_transition s st = Ok tt) -> check_transitions states st = Ok tt.
Proof.
  induction states as [|s states IH]; intros H; cbn; [done|].
  rewrite H by set_solver. cbn. apply IH. intros; apply H; set_solver.
Qed.

Lemma take_rows_NoDup {A} (rows : gmap pubkey A) ys :
  NoDup ys -> take_rows rows ys = map (fun y => rows !! y) ys.
Proof.
  intros Hnd. revert rows. induction Hnd as [|y ys Hy Hnd IH]; intros rows; cbn; [done|].
  f_equal. rewrite IH. apply map_ext_in. intros z Hz%list_elem_of_In. apply lookup_delete_ne. by intros ->.
Qed.

Lemma update_proofs_states_Ok ys st db states db' :
  update_proofs_states ys st db = (Ok states, db') <->
  updatable db ys st /\ db' = set_proof db (update_states ys st (db_proof db)) /\
  states = map (fun y => pr_state <$> db_proof db !! y) ys.
Proof.
  unfold update_proofs_states, mseq, mgets, mlift, mmodify, mret, ensure, updatable.
  assert (Hstates : NoDup ys ->
    take_rows (get_current_states db ys) ys = map (fun y => pr_state <$> db_proof db !! y) ys).
  { intros Hnd. rewrite take_rows_NoDup by done. apply map_ext_in. intros y Hy%list_elem_of_In.
    by rewrite lookup_current_states, bool_decide_eq_true_2. }
  split.
  - destruct (Nat.eqb_spec (size (get_current_states db ys)) (length ys)) as [Hs|]; [|done].
    destruct (check_transitions _ st) as [[]| |] eqn:Hc; [|done..]. intros [= <- <-].
    apply size_current_states in Hs as [Hnd Hex]. split_and!; [done| |done|by apply Hstates].
    intros y Hy. destruct (Hex y Hy) as [r Hr]. exists r. split; [done|]. by eapply checked_state.
  - intros ([Hnd Hex] & -> & ->).
    rewrite (proj2 (Nat.eqb_eq _ _)); cycle 1.
    { apply size_current_states. split; [done|]. intros y Hy. destruct (Hex y Hy) as (r & Hr & _). eauto. }
    rewrite check_transitions_all; [by rewrite Hstates|].
    intros s ([y s'] & -> & Hin)%list_elem_of_fmap. apply elem_of_map_to_list in Hin.
    rewrite lookup_current_states in Hin. case_bool_decide as Hy; [|done].
    destruct (Hex y Hy) as (r & Hr & Hc). rewrite Hr in Hin. cbn in Hin. by simplify_eq.
Qed.

(** ** Removing proofs *)

Definition removable (db : Db) (ys : list pubkey) : Prop :=
  NoDup ys /\ forall y, y ∈ ys -> exists r, db_proof db !! y = Some r /\ pr_state r <> Nut07.Spent.

Definition without (ys : list pubkey) (m : gmap pubkey ProofRow) : gmap pubkey ProofRow :=
  filter (fun kv => ~ deletable ys kv) m.

Lemma lookup_without ys m y :
  without ys m !! y = match m !! y with
                      | Some r => if decide (y ∈ ys /\ pr_state r <> Nut07.Spent) then None else Some r
                      | None => None
                      end.
Proof.
  unfold without. destruct (m !! y) as [r|] eqn:E.
  - case_decide as Hd.
    + apply map_lookup_filter_None_2. right. intros r' Hr'. simplify_eq. intros Hn. apply Hn. exact Hd.
    + apply map_lookup_filter_Some_2; [done|]. intros Hx. apply Hd. exact Hx.
  - apply map_lookup_filter_None_2. by left.
Qed.

Lemma remove_proofs_Ok ys db db' :
  remove_proofs ys db = (Ok tt, db') <->
  removable db ys /\ db' = set_proof db (without ys (db_proof db)).
Proof.
  assert (Hsize : size (filter (deletable ys) (db_proof db)) = length ys <-> removable db ys).
  { unfold removable. rewrite keys_cover.
    - split; intros [Hnd H]; (split; [done|]); intros y Hy; specialize (H y Hy).
      + destruct H as [r Hr]. apply map_lookup_filter_Some in Hr as [Hr [_ Hs]]. eauto.
      + destruct H as (r & Hr & Hs). exists r. apply map_lookup_filter_Some. done.
    - intros y [r Hr]. apply map_lookup_filter_Some in Hr as [_ [Hy _]]. done. }
  destruct ys as [|y ys].
  - cbn. split.
    + intros [= <-]. split; [split; [constructor|set_solver]|]. unfold without.
      rewrite map_filter_id; [by destruct db|]. intros i x _ [Hi _]. set_solver.
    + intros [_ ->]. unfold without.
      rewrite map_filter_id; [by destruct db|]. intros i x _ [Hi _]. set_solver.
  - unfold remove_proofs, mseq, mgets, mmodify, mlift, ensure.
    destruct (Nat.eqb_spec (size (filter (deletable (y :: ys)) (db_proof db))) (length (y :: ys))) as [Hs|Hs].
    + apply Hsize in Hs. split; [intros [= <-]; done|intros [_ ->]; done].
    + split; [done|]. intros [Hr _]. by apply Hsize in Hr.
Qed.

Lemma proof_rows_Some now q op ys ps y :
  length ys = length ps -> y ∈ ys -> exists p, p ∈ ps /\ proof_rows now q op ys ps !! y = Some (proof_row now p q op).
Proof.
  unfold proof_rows. revert ps. induction ys as [|y' ys IH]; intros [|p ps] Hl Hy; try done; [by apply not_elem_of_nil in Hy|].
  cbn. destruct (decide (y' = y)) as [<-|Hne].
  - exists p. rewrite lookup_insert_eq. split; [set_solver|done].
  - rewrite lookup_insert_ne by done. apply elem_of_cons in Hy as [->|Hy]; [done|].
    destruct (IH ps) as (p' & Hp & Hl'); [cbn in Hl; lia|done|]. exists p'. split; [set_solver|done].
Qed.

Lemma proof_rows_rel (P : Proof -> pubkey -> Prop) now q op ys ps y :
  Forall2 P ps ys -> y ∈ ys ->
  exists p, p ∈ ps /\ P p y /\ proof_rows now q op ys ps !! y = Some (proof_row now p q op).
Proof.
  unfold proof_rows. induction 1 as [|p y' ps ys Hp _ IH]; cbn; [by intros ?%not_elem_of_nil|].
  intros Hy. destruct (decide (y' = y)) as [<-|Hne].
  - exists p. rewrite lookup_insert_eq. split_and!; [set_solver|done..].
  - rewrite lookup_insert_ne by done. apply elem_of_cons in Hy as [->|Hy]; [done|].
    destruct (IH Hy) as (p' & ? & ? & ?). exists p'. split_and!; [set_solver|done..].
Qed.

(** The row of a fresh proof is found under the key of its own secret. *)
Lemma proof_rows_y now q op ys ps y :
  Nut00.ys ps = Ok ys -> y ∈ ys ->
  exists p, p ∈ ps /\ Nut00.y p = Ok y /\ proof_rows now q op ys ps !! y = Some (proof_row now p q op).
Proof. intros H%collect_Ok. by apply (proof_rows_rel (fun p y => Nut00.y p = Ok y)). Qed.

(** ** Blinded messages *)

Definition message_row (now : N) (q : option QuoteId) (op : Operation) (m : BlindedMessage) : SigRow :=
  mkSigRow (Z.of_N (bm_amount m)) (bm_keyset_id m) None None q now None (Some op).

Definition message_rows (now : N) (q : option QuoteId) (op : Operation) (ms : list BlindedMessage)
    : gmap pubkey SigRow :=
  list_to_map (map (fun m => (blinded_secret m, message_row now q op m)) ms).

Definition reservable (db : Db) (ms : list BlindedMessage) : Prop :=
  NoDup (map blinded_secret ms) /\ (forall m, m ∈ ms -> db_blind_signature db !! blinded_secret m = None) /\
  Forall (fun m => bm_amount m <= I64_MAX) ms.

Lemma message_rows_None now q op ms b : b ∉ map blinded_secret ms -> message_rows now q op ms !! b = None.
Proof.
  intros Hb. apply not_elem_of_list_to_map_1. intros Hin. apply Hb.
  rewrite <- list_fmap_compose in Hin. exact Hin.
Qed.

Lemma insert_message_eq now q op m db :
  bm_amount m <= I64_MAX -> db_blind_signature db !! blinded_secret m = None ->
  insert_blinded_message now q op m db =
  (Ok tt, set_blind_signature db (<[blinded_secret m := message_row now q op m]> (db_blind_signature db))).
Proof.
  intros Ha Hn. unfold insert_blinded_message, constraint, mseq, mlift, mgets, mmodify, ensure.
  rewrite bool_decide_eq_true_2 by by apply to_i64_is_Some.
  rewrite bool_decide_eq_false_2 by (rewrite Hn; by intros []). done.
Qed.

Lemma insert_message_inv now q op m db u db' :
  insert_blinded_message now q op m db = (Ok u, db') ->
  bm_amount m <= I64_MAX /\ db_blind_signature db !! blinded_secret m = None /\
  db' = set_blind_signature db (<[blinded_secret m := message_row now q op m]> (db_blind_signature db)).
Proof.
  unfold insert_blinded_message, constraint, mseq, mlift, mgets, mmodify, ensure.
  case_bool_decide as Hi; [|done]. apply to_i64_is_Some in Hi.
  case_bool_decide as Hy; cbn [negb]; [done|]. intros [= <-]. split_and!; [done| |done]. by apply eq_None_not_Some.
Qed.

Lemma add_blinded_messages_Ok now q ms op db db' :
  add_blinded_messages now q ms op db = (Ok tt, db') <->
  reservable db ms /\ db' = set_blind_signature db (message_rows now q op ms ∪ db_blind_signature db).
Proof.
  unfold reservable, add_blinded_messages. revert db. induction ms as [|m ms IH]; intros db.
  { cbn. unfold message_rows. cbn. rewrite (left_id_L ∅ (∪)). split.
    - intros [= <-]. split_and!; [constructor|set_solver|done|by destruct db].
    - intros [_ ->]. by destruct db. }
  cbn [mfor map]. unfold mseq. rewrite NoDup_cons, Forall_cons. split.
  - destruct (insert_blinded_message now q op m db) as [[u| |] db1] eqn:Hi; [|done..].
    apply insert_message_inv in Hi as (Ha & Hn & ->). intros ((Hnd & Hfree & Hamt) & ->)%IH. cbn in Hfree.
    assert (Hyn : blinded_secret m ∉ map blinded_secret ms).
    { intros (m' & Hm & Hin)%list_elem_of_fmap. specialize (Hfree m' Hin). rewrite Hm, lookup_insert_eq in Hfree. done. }
    split_and!; try done.
    + intros m' [->|Hz]%elem_of_cons; [done|]. specialize (Hfree m' Hz).
      rewrite lookup_insert_ne in Hfree; [done|]. intros Heq. apply Hyn. rewrite Heq. by apply list_elem_of_fmap_2.
    + unfold message_rows. cbn. f_equal. rewrite <- insert_union_l. symmetry. apply insert_union_r.
      by apply (message_rows_None now q op).
  - intros (([Hyn Hnd] & Hfree & Ha & Hamt) & ->).
    rewrite insert_message_eq by (try done; apply Hfree; set_solver).
    apply IH. split_and!; try done.
    + intros z Hz. cbn. rewrite lookup_insert_ne; [apply Hfree; set_solver|]. intros Heq. apply Hyn.
      rewrite Heq. by apply list_elem_of_fmap_2.
    + unfold message_rows. cbn. f_equal. rewrite <- insert_union_l. apply insert_union_r.
      by apply (message_rows_None now q op).
Qed.

(** ** Signatures *)

Definition sign_entry (now : N) (q : option QuoteId) (os : option BlindSignature) (r : option SigRow) : option SigRow :=
  match os, r with
  | Some s, Some r => Some (sign_row now r s)
  | Some s, None => Some (new_sig_row now s q)
  | None, r => r
  end.

Definition signed (now : N) (q : option QuoteId) (pairs : list (pubkey * BlindSignature))
    (m : gmap pubkey SigRow) : gmap pubkey SigRow :=
  merge (sign_entry now q) (list_to_map pairs) m.

Lemma lookup_signed now q pairs m b :
  signed now q pairs m !! b = sign_entry now q ((list_to_map pairs : gmap _ _) !! b) (m !! b).
Proof. unfold signed. rewrite lookup_merge. by destruct (list_to_map pairs !! b), (m !! b). Qed.

Lemma signed_nil now q m : signed now q [] m = m.
Proof. apply map_eq. intros i. rewrite lookup_signed. cbn. by rewrite lookup_empty. Qed.

Lemma signed_cons now q b s pairs m r :
  b ∉ pairs.*1 -> r = sign_entry now q (Some s) (m !! b) -> 
  signed now q pairs (partial_alter (fun _ => r) b m) = signed now q ((b, s) :: pairs) m.
Proof.
  intros Hb ->. apply map_eq. intros i. rewrite !lookup_signed. cbn.
  destruct (decide (b = i)) as [<-|].
  - rewrite lookup_partial_alter_eq, lookup_insert_eq, (not_elem_of_list_to_map_1 pairs b Hb). done.
  - by rewrite lookup_partial_alter_ne, lookup_insert_ne.
Qed.

(** The signature loop on distinct messages. *)
Lemma add_signatures_loop_Ok now q pairs existing db rest db' :
  NoDup pairs.*1 ->
  (forall b, existing !! b = if bool_decide (b ∈ pairs.*1) then sr_c <$> db_blind_signature db !! b else None) ->
  add_blind_signatures_loop now q existing pairs db = (Ok rest, db') <->
  (forall b r, b ∈ pairs.*1 -> db_blind_signature db !! b = Some r -> sr_c r = None) /\ rest = ∅ /\
  db' = set_blind_signature db (signed now q pairs (db_blind_signature db)).
Proof.
  revert existing db. induction pairs as [|[b s] pairs IH]; intros existing db Hnd Hex.
  { cbn [add_blind_signatures_loop]. unfold mret. assert (existing = ∅) as -> by (apply map_eq; intros i; by rewrite Hex, lookup_empty).
    assert (set_blind_signature db (signed now q [] (db_blind_signature db)) = db) as Hid.
    { rewrite signed_nil. by destruct db. }
    rewrite Hid. split; [intros [= <- <-]; split_and!; [cbn; set_solver|done..]|intros (_ & -> & ->); done]. }
  cbn [fmap list_fmap fst] in *. apply NoDup_cons in Hnd as [Hb Hnd].
  cbn [add_blind_signatures_loop].
  assert (Hstep : forall r db1, db1 = set_blind_signature db (partial_alter (fun _ => r) b (db_blind_signature db)) ->
    r = sign_entry now q (Some s) (db_blind_signature db !! b) ->
    add_blind_signatures_loop now q (delete b existing) pairs db1 = (Ok rest, db') <->
    (forall b r, b ∈ pairs.*1 -> db_blind_signature db !! b = Some r -> sr_c r = None) /\ rest = ∅ /\
    db' = set_blind_signature db (signed now q ((b, s) :: pairs) (db_blind_signature db))).
  { intros r db1 -> Hr. rewrite IH; [|done|].
    - cbn [db_blind_signature set_blind_signature]. rewrite (signed_cons _ _ b s) by done. split; intros (Hu & ? & ?); (split_and!; [|done..]); intros b' r' Hb' Hl.
      + eapply Hu; [done|]. rewrite lookup_partial_alter_ne; [done|]. by intros ->.
      + eapply Hu; [done|]. rewrite lookup_partial_alter_ne in Hl; [done|]. by intros ->.
    - intros i. cbn. destruct (decide (b = i)) as [<-|Hne].
      + rewrite lookup_delete_eq, bool_decide_eq_false_2 by done. done.
      + rewrite lookup_delete_ne, Hex, lookup_partial_alter_ne by done.
        erewrite bool_decide_ext; [done|]. rewrite elem_of_cons. naive_solver. }
  specialize (Hex b). rewrite bool_decide_eq_true_2 in Hex by set_solver. rewrite Hex.
  destruct (db_blind_signature db !! b) as [r|] eqn:Hr; cbn [fmap option_fmap option_map].
  - destruct (sr_c r) as [c|] eqn:Hc; unfold mseq at 1.
    + split; [done|]. intros (Hu & _). exfalso. specialize (Hu b r ltac:(set_solver) Hr). congruence.
    + cbn [mmodify]. rewrite (Hstep (Some (sign_row now r s))); [| |done].
      * split; intros (Hu & ? & ?); (split_and!; [|done..]); intros b' r'.
        -- intros [->|Hin]%elem_of_cons Hl; [congruence|by eapply Hu].
        -- intros Hin. apply Hu. set_solver.
      * f_equal. apply map_eq. intros i. destruct (decide (b = i)) as [<-|].
        -- by rewrite lookup_alter_eq, lookup_partial_alter_eq, Hr.
        -- by rewrite lookup_alter_ne, lookup_partial_alter_ne.
  - unfold mseq, mgets, constraint, mlift, ensure. cbn. rewrite Hr.
    rewrite bool_decide_eq_false_2 by (by intros []). cbn.
    rewrite (Hstep (Some (new_sig_row now s q))); [|done|done].
    split; intros (Hu & ? & ?); (split_and!; [|done..]); intros b' r'.
    + intros [->|Hin]%elem_of_cons Hl; [congruence|by eapply Hu].
    + intros Hin. apply Hu. set_solver.
Qed.

(** None of the messages is signed yet. *)
Definition signable (db : Db) (ms : list pubkey) : Prop :=
  forall b r, b ∈ ms -> db_blind_signature db !! b = Some r -> sr_c r = None.

Lemma lookup_selected db (ms : list pubkey) b :
  (sr_c <$> filter (fun kv => kv.1 ∈ ms) (db_blind_signature db)) !! b =
  if bool_decide (b ∈ ms) then sr_c <$> db_blind_signature db !! b else None.
Proof.
  rewrite lookup_fmap. case_bool_decide as Hb.
  - destruct (db_blind_signature db !! b) as [r|] eqn:Er;
      [by rewrite (map_lookup_filter_Some_2 _ _ b r)|by rewrite map_lookup_filter_None_2 by (by left)].
  - rewrite map_lookup_filter_None_2; [done|]. right. intros r _. done.
Qed.

Lemma add_blind_signatures_Ok now ms ss q db db' :
  NoDup ms ->
  add_blind_signatures now ms ss q db = (Ok tt, db') <->
  length ms = length ss /\ signable db ms /\
  db' = set_blind_signature db (signed now q (zip ms ss) (db_blind_signature db)).
Proof.
  intros Hnd. unfold add_blind_signatures, ensure. unfold mseq at 1, mlift at 1.
  destruct (Nat.eqb_spec (length ms) (length ss)) as [Hl|Hl]; [|naive_solver].
  unfold mseq at 1. cbn [mgets]. unfold mseq, mlift.
  assert (Hfst : (zip ms ss).*1 = ms) by (apply fst_zip; lia).
  pose proof (fun rest => add_signatures_loop_Ok now q (zip ms ss)
    (sr_c <$> filter (fun kv => kv.1 ∈ ms) (db_blind_signature db)) db rest) as Hloop.
  rewrite Hfst in Hloop. specialize (fun rest db' => Hloop rest db' Hnd (lookup_selected db ms)). split.
  - destruct (add_blind_signatures_loop _ _ _ _ db) as [[rest| |] db1] eqn:E; [|done..].
    intros H. split; [done|]. destruct (proj1 (Hloop rest db1) eq_refl) as (Hu & -> & ->).
    rewrite bool_decide_eq_true_2 in H by done. by simplify_eq.
  - intros (_ & Hu & ->). rewrite (proj2 (Hloop ∅ _)) by done. by rewrite bool_decide_eq_true_2.
Qed.

Definition without_unsigned (bs : list pubkey) (m : gmap pubkey SigRow) : gmap pubkey SigRow :=
  filter (fun kv => ~ (kv.1 ∈ bs /\ sr_c kv.2 = None)) m.

Lemma lookup_without_unsigned bs m b :
  without_unsigned bs m !! b = match m !! b with
                               | Some r => if decide (b ∈ bs /\ sr_c r = None) then None else Some r
                               | None => None
                               end.
Proof.
  unfold without_unsigned. destruct (m !! b) as [r|] eqn:E.
  - case_decide as Hd.
    + apply map_lookup_filter_None_2. right. intros r' Hr'. simplify_eq. intros Hn. by apply Hn.
    + by apply map_lookup_filter_Some_2.
  - apply map_lookup_filter_None_2. by left.
Qed.

Lemma delete_blinded_messages_eq bs db :
  delete_blinded_messages bs db = (Ok tt, set_blind_signature db (without_unsigned bs (db_blind_signature db))).
Proof.
  destruct bs as [|b bs]; [|done]. cbn. unfold mret. f_equal. symmetry.
  assert (without_unsigned [] (db_blind_signature db) = db_blind_signature db) as ->; [|by destruct db].
  apply map_eq. intros i. rewrite lookup_without_unsigned. destruct (_ !! i); [|done].
  rewrite decide_False; [done|]. intros [Hi _]. set_solver.
Qed.

(** Signing the messages of a request that has just reserved them. *)
Lemma lookup_message_rows now q op ms m :
  NoDup (map blinded_secret ms) -> m ∈ ms ->
  message_rows now q op ms !! blinded_secret m = Some (message_row now q op m).
Proof.
  intros Hnd Hm. apply elem_of_list_to_map; [by rewrite <- list_fmap_compose|].
  apply list_elem_of_fmap. exists m. done.
Qed.

Lemma lookup_signed_reserved now now' q q' op ms sigs d m s :
  reservable d ms -> length ms = length sigs -> (m, s) ∈ zip ms sigs ->
  signed now' q' (zip (map blinded_secret ms) sigs) (message_rows now q op ms ∪ db_blind_signature d)
    !! blinded_secret m = Some (sign_row now' (message_row now q op m) s).
Proof.
  intros (Hnd & Hfree & _) Hl Hin. assert (Hm : m ∈ ms) by (by apply elem_of_zip_l in Hin).
  rewrite lookup_signed, lookup_union_l, lookup_message_rows, (lookup_zip_map blinded_secret ms sigs m s); auto.
Qed.

Lemma lookup_signed_other now now' q q' op ms sigs d b :
  b ∉ map blinded_secret ms ->
  signed now' q' (zip (map blinded_secret ms) sigs) (message_rows now q op ms ∪ db_blind_signature d) !! b =
  db_blind_signature d !! b.
Proof.
  intros Hb. rewrite lookup_signed, lookup_union_r by by apply message_rows_None.
  rewrite not_elem_of_list_to_map_1; [done|].
  intros Hin. apply Hb. apply list_elem_of_fmap in Hin as ([b' s'] & -> & Hin). by apply elem_of_zip_l in Hin.
Qed.

(** ** Sagas *)

Lemma add_saga_Ok now s db db' :
  add_saga now s db = (Ok tt, db') <->
  db_saga_state db !! operation_id s = None /\
  db' = set_saga_state db (<[operation_id s := update_swap_state now s (saga_state s)]> (db_saga_state db)).
Proof.
  unfold add_saga, constraint, mseq, mlift, mgets, mmodify, ensure. case_bool_decide as Hn; cbn [negb].
  - split; [done|]. intros [H _]. rewrite H in Hn. by destruct Hn.
  - apply eq_None_not_Some in Hn. split; [intros [= <-]; done|intros [_ ->]; done].
Qed.

(** ** Reading signatures back *)

Definition readable (r : SigRow) : Prop := (0 <= sr_amount r)%Z.

(** A signature that was stored can be read: amounts up to [i64::MAX] survive
    the signed column. *)
Lemma row_to_blind_signature_sign now r s :
  bs_amount s <= I64_MAX -> sr_keyset_id r = bs_keyset_id s ->
  row_to_blind_signature (sign_row now r s) (bs_c s) = Ok s.
Proof.
  intros Ha Hk. unfold row_to_blind_signature, sign_row, u64_as_i64, Amount.from_i64. cbn.
  rewrite (proj2 (N.leb_le _ _) Ha). destruct (Z.leb_spec 0 (Z.of_N (bs_amount s))); [|lia].
  cbn. rewrite N2Z.id, Hk. by destruct s.
Qed.

Lemma row_to_blind_signature_overflow now r s c :
  I64_MAX < bs_amount s -> u64 (bs_amount s) -> row_to_blind_signature (sign_row now r s) c = Err Conversion.
Proof.
  intros Ha Hu. unfold row_to_blind_signature, sign_row, u64_as_i64, Amount.from_i64, u64, U64_MAX in *. cbn.
  rewrite (proj2 (N.leb_gt _ _) Ha). destruct (Z.leb_spec 0 (Z.of_N (bs_amount s) - 2 ^ 64)); [lia|done].
Qed.

End spec.
End MintDbSpec.
