(* ===== verification/Mint.v ===== *)
(** * The mint: transactions, interfaces and request verification

    [World] is what a request handler sees of the database: the committed
    tables, the tables as the open transaction sees them, a schedule of faults
    that makes any database call fail, and the notifications sent so far.
    Signing is behind the interface [Signatory] (the trait of
    crates/cdk-signatory/src/signatory.rs).  The checks are those of
    crates/cdk/src/mint/verification.rs and mint/mod.rs. *)
From stdpp Require Import base numbers list sorting strings gmap fin_maps.
From S2P Require Import Prelude Amount Nuts Conditions Spending States MintDb.

Local Open Scope N_scope.
Local Open Scope res_scope.
Local Open Scope mint_scope.

Module Mint.
Import Nut00 Requests StateRules MintTypes MintDb.

Section defs.
Context {CR : Crypto} {SD : Serde}.

(** The errors of [cdk_common::Error] that the modelled handlers return. *)
Inductive MError :=
| TokenPending
| TokenAlreadySpent
| DuplicateInputs
| DuplicateOutputs
| InactiveKeyset
| UnknownKeySet
| MultipleUnits
| BlindedMessageAlreadySigned
| UnitMismatch
| MAmountOverflow
| TransactionUnbalanced (input output fee : N)
| MInternal
| MDatabase (e : DbError)
| MNUT00 (e : Dhke.Error)
| MNUT03 (e : Amount.Error)
| MNUT11 (e : Nut11.Error)
| MNUT14 (e : Spending.HtlcError)
| MAmount (e : Amount.Error)
| MFee (e : Fees.Error)
| MSignatory
| MDHKE (e : Dhke.Error)
| MNUT12
| UnknownQuote
| UnpaidQuote
| IssuedQuote
| UnsupportedUnit
| SignatureMissingOrInvalid
| AmountUndefined
| RequestAlreadyPaid
| InsufficientFunds
| PendingQuote
| PaidQuote
| UnknownPaymentState
| PaymentFailed
| SigAllUsedInMelt
| InvalidPaymentRequest
| InvalidPaymentMethod
| IncorrectQuoteAmount
| UnsupportedPaymentMethod
| MNUT20 (e : Requests.Nut20Error)
| MintingDisabled
| MeltingDisabled
| AmountOutofLimitRange (min max amount : N)
| DuplicatePaymentId
| PaymentError
| ExpiredQuote
| InvoiceDescriptionUnsupported
| InvoiceAmountUndefined
| Utf8ParseError
| InternalMultiPartMeltQuote
| MppUnitMethodNotSupported
| AmountlessInvoiceNotSupported
| Bolt12parse
| ClearAuthRequired
| ClearAuthFailed
| BlindAuthRequired
| BlindAuthFailed
| OidcNotSet
| AuthSettingsUndefined
| CouldNotGetMintInfo
| MNoActiveKeyset
| MAmountKey
| DuplicateSignatureError
| MNUT22 (e : Dhke.Error)
| UnknownErrorResponse (detail : string).

(** [From<database::Error> for Error]. *)
Definition of_db_error (e : DbError) : MError :=
  match e with
  | InvalidStateTransition ErrPending => TokenPending
  | InvalidStateTransition AlreadySpent => TokenAlreadySpent
  | e => MDatabase e
  end.

(** ** Transactions with faults *)

Inductive Event :=
| EvProofState (y : pubkey) (st : Nut07.State)
| EvMintQuoteCreated (id : QuoteId)
| EvMintQuotePayment (id : QuoteId) (total : N)
| EvMintQuoteIssue (id : QuoteId) (total : N)
| EvMeltQuoteStatus (id : QuoteId) (st : MeltQuoteState).

Record World := mkWorld {
  w_store : Db;
  w_tx : Db;
  w_faults : list bool;
  w_events : list Event;
}.

Definition Mt (A : Type) : Type := M World MError A.

Definition set_faults (w : World) f := mkWorld (w_store w) (w_tx w) f (w_events w).
Definition set_tx (w : World) t := mkWorld (w_store w) t (w_faults w) (w_events w).
Definition set_store (w : World) s := mkWorld s (w_tx w) (w_faults w) (w_events w).

(** A call that reaches the database: it fails when the schedule says so. *)
Definition faulty {A} (c : M World DbError A) : M World DbError A :=
  fun w => match w_faults w with
           | true :: f => (Err Database, set_faults w f)
           | false :: f => c (set_faults w f)
           | [] => c w
           end.

Definition begin_transaction : M World DbError unit := faulty (mmodify (fun w => set_tx w (w_store w))).

(** A call inside the open transaction. *)
Definition tx {A} (op : T A) : M World DbError A :=
  faulty (fun w => match op (w_tx w) with (r, t) => (r, set_tx w t) end).

Definition tx_read {A} (f : Db -> res DbError A) : M World DbError A :=
  tx (fun db => (f db, db)).

(** A failed commit leaves the committed tables as they were. *)
Definition commit : M World DbError unit := faulty (mmodify (fun w => set_store w (w_tx w))).
Definition rollback : M World DbError unit := faulty (mmodify (fun w => set_tx w (w_store w))).

(** A read outside any transaction. *)
Definition read_store {A} (f : Db -> res DbError A) : M World DbError A :=
  faulty (fun w => (f (w_store w), w)).

(** The [?] on a database call: the error is converted. *)
Definition db {A} (c : M World DbError A) : Mt A := mmap_err of_db_error c.

Definition publish (e : Event) : Mt unit :=
  mmodify (fun w => mkWorld (w_store w) (w_tx w) (w_faults w) (w_events w ++ [e])).

(** ** Interfaces *)

Record KeysetInfo := mkKeysetInfo {
  ks_id : Id;
  ks_unit : Amount.CurrencyUnit;
  ks_active : bool;
  ks_input_fee_ppk : N;
  ks_amounts : list N;
}.

Class Signatory := {
  signatory_blind_sign : list BlindedMessage -> res MError (list BlindSignature);
  signatory_verify_proofs : list Proof -> res MError unit;
}.

(** What the mint relies on: one signature per message, for its amount and
    keyset. *)
Definition signs_for (m : BlindedMessage) (s : BlindSignature) : Prop :=
  bs_amount s = bm_amount m /\ bs_keyset_id s = bm_keyset_id m.

Class SignatoryLaws (SG : Signatory) : Prop := {
  blind_sign_matches ms ss : signatory_blind_sign ms = Ok ss -> Forall2 signs_for ms ss;
}.

Context {SG : Signatory}.

(** The keysets the mint has loaded. *)
Definition Keysets := list KeysetInfo.

Definition get_keyset_info (keysets : Keysets) (id : Id) : option KeysetInfo :=
  head (filter (fun k => ks_id k = id) keysets).

Definition get_active_keysets (keysets : Keysets) : gmap Amount.CurrencyUnit Id :=
  fold_left (fun m k => if ks_active k then <[ks_unit k := ks_id k]> m else m) keysets ∅.

(** ** verification.rs *)

Record Verification := mkVerification { v_amount : N; v_unit : option Amount.CurrencyUnit }.

Definition check_inputs_unique (inputs : list Proof) : res MError unit :=
  let? ys := map_err MNUT00 (Nut00.ys inputs) in
  ensure (Nat.eqb (size (list_to_set ys : gset pubkey)) (length inputs)) DuplicateInputs.

Definition check_outputs_unique (outputs : list BlindedMessage) : res MError unit :=
  ensure (Nat.eqb (size (list_to_set (map blinded_secret outputs) : gset pubkey)) (length outputs)) DuplicateOutputs.

Fixpoint outputs_units (keysets : Keysets) (ids : list Id) (units : gset Amount.CurrencyUnit)
    : res MError (gset Amount.CurrencyUnit) :=
  match ids with
  | [] => Ok units
  | id :: ids' =>
      match get_keyset_info keysets id with
      | Some k => if negb (ks_active k) then Err InactiveKeyset
                  else outputs_units keysets ids' ({[ks_unit k]} ∪ units)
      | None => Err UnknownKeySet
      end
  end.

Fixpoint inputs_units (keysets : Keysets) (ids : list Id) (units : gset Amount.CurrencyUnit)
    : res MError (gset Amount.CurrencyUnit) :=
  match ids with
  | [] => Ok units
  | id :: ids' =>
      match get_keyset_info keysets id with
      | Some k => inputs_units keysets ids' ({[ks_unit k]} ∪ units)
      | None => Err UnknownKeySet
      end
  end.

(** The one unit of a request. *)
Definition single_unit (units : gset Amount.CurrencyUnit) : res MError Amount.CurrencyUnit :=
  if negb (Nat.eqb (size units) 1) then Err MultipleUnits else expect (head (elements units)).

Definition verify_outputs_keyset (keysets : Keysets) (outputs : list BlindedMessage) : res MError Amount.CurrencyUnit :=
  let? units := outputs_units keysets (elements (list_to_set (map bm_keyset_id outputs) : gset Id)) ∅ in
  single_unit units.

Definition verify_inputs_keyset (keysets : Keysets) (inputs : list Proof) : res MError Amount.CurrencyUnit :=
  let? units := inputs_units keysets (elements (list_to_set (map keyset_id inputs) : gset Id)) ∅ in
  single_unit units.

Definition check_output_already_signed (outputs : list BlindedMessage) : Mt unit :=
  do sigs <- db (tx_read (get_blind_signatures (map blinded_secret outputs))) ;
  mlift (match omap id sigs with [] => Ok tt | _ => Err BlindedMessageAlreadySigned end).

Definition verify_outputs (keysets : Keysets) (outputs : list BlindedMessage) : Mt Verification :=
  match outputs with
  | [] => mret (mkVerification 0 None)
  | _ =>
      do_ mlift (check_outputs_unique outputs) ;
      do_ check_output_already_signed outputs ;
      do unit <- mlift (verify_outputs_keyset keysets outputs) ;
      do amount <- mlift (map_err MAmount (Amount.try_sum (map bm_amount outputs))) ;
      mret (mkVerification amount (Some unit))
  end.

(** [Mint::verify_proofs]: the spending conditions of every known kind, then
    the signatures of the mint. *)
Definition verify_conditions (now : N) (p : Proof) : res MError unit :=
  match nut10_from_json (secret p) with
  | Some s =>
      match Nut10.kind s with
      | Nut10.P2PK => map_err MNUT11 (Spending.verify_p2pk now p)
      | Nut10.HTLC => map_err MNUT14 (Spending.verify_htlc now p)
      end
  | None => Ok tt
  end.

Definition verify_proofs (now : N) (proofs : list Proof) : res MError unit :=
  let? _ := collect (verify_conditions now) proofs in
  signatory_verify_proofs proofs.

Definition verify_inputs (now : N) (keysets : Keysets) (inputs : list Proof) : res MError Verification :=
  let? _ := check_inputs_unique inputs in
  let? unit := verify_inputs_keyset keysets inputs in
  let? amount := map_err MAmount (Nut00.total_amount inputs) in
  let? _ := verify_proofs now inputs in
  Ok (mkVerification amount (Some unit)).

(** [Mint::get_proofs_fee]. *)
Fixpoint fee_maps (keysets : Keysets) (proofs : list Proof) (counts fees : gmap Id N)
    : res MError (gmap Id N * gmap Id N) :=
  match proofs with
  | [] => Ok (counts, fees)
  | p :: ps =>
      let? fees' :=
        (match fees !! keyset_id p with
         | Some _ => Ok fees
         | None =>
             match get_keyset_info keysets (keyset_id p) with
             | Some k => Ok (<[keyset_id p := ks_input_fee_ppk k]> fees)
             | None => Err UnknownKeySet
             end
         end) in
      fee_maps keysets ps (Nut00.count_step counts p) fees'
  end.

Definition get_proofs_fee (keysets : Keysets) (proofs : list Proof) : res MError N :=
  let? (counts, fees) := fee_maps keysets proofs ∅ ∅ in
  map_err MFee (Fees.calculate_fee counts fees).

Definition verify_transaction_balanced (keysets : Keysets) (input_verification : Verification)
    (inputs : list Proof) (outputs : list BlindedMessage) : Mt unit :=
  do output_verification <- verify_outputs keysets outputs ;
  do_ mlift (ensure (bool_decide (v_unit output_verification = v_unit input_verification)) UnitMismatch) ;
  do fees <- mlift (get_proofs_fee keysets inputs) ;
  do net <- mlift (ok_or MAmountOverflow (Amount.checked_sub (v_amount input_verification) fees)) ;
  mlift (ensure (v_amount output_verification =? net)
    (TransactionUnbalanced (v_amount input_verification) (v_amount output_verification) fees)).

(** ** check_spendable.rs *)

Definition proof_state (y : pubkey) (state : option Nut07.State) : Mt Nut07.ProofState :=
  match state with
  | Some st =>
      do proofs <- db (read_store (fun d => Ok (get_proofs_by_ys [y] d))) ;
      mret (Nut07.mkProofState _ y st (mjoin (head proofs) ≫= witness))
  | None => mret (Nut07.mkProofState _ y Nut07.Unspent None)
  end.

Fixpoint proof_states (l : list (pubkey * option Nut07.State)) : Mt (list Nut07.ProofState) :=
  match l with
  | [] => mret []
  | (y, st) :: l' => do p <- proof_state y st ; do ps <- proof_states l' ; mret (p :: ps)
  end.

Definition check_state (ys : list pubkey) : Mt (list Nut07.ProofState) :=
  do states <- db (read_store (fun d => Ok (get_proofs_states ys d))) ;
  if negb (Nat.eqb (length ys) (length states)) then mpanic
  else proof_states (zip ys states).

(** ** Restore (mint/mod.rs) *)

Definition restore (outputs : list BlindedMessage) : Mt (list (BlindedMessage * BlindSignature)) :=
  do sigs <- db (read_store (get_blind_signatures (map blinded_secret outputs))) ;
  if negb (Nat.eqb (length sigs) (length outputs)) then mpanic
  else mret (omap (fun p : BlindedMessage * option BlindSignature =>
                     match p.2 with Some s => Some (p.1, s) | None => None end) (zip outputs sigs)).

End defs.
End Mint.
