(* ===== verification/MintFacts.v ===== *)
(** * Reasoning about handlers

    Inversion of successful runs over the world, computations that leave the
    committed tables alone, and what a successful verification of inputs and
    outputs says. *)
From stdpp Require Import base numbers list sorting strings gmap fin_maps.
From S2P Require Import Prelude Amount Nuts Conditions Concrete Spending States MintDb MintDbFacts MintDbSpec Mint.

Local Open Scope N_scope.

Module MintFacts.
Import Nut00 Requests StateRules MintTypes MintDb MintDbFacts MintDbSpec Mint.

Section store.
Context {CR : Crypto} {SD : Serde}.

(** ** Running computations over the world *)

Lemma mseq_Ok {S E A B} (c : M S E A) (k : A -> M S E B) s b s' :
  mseq c k s = (Ok b, s') -> exists a s1, c s = (Ok a, s1) /\ k a s1 = (Ok b, s').
Proof. unfold mseq. destruct (c s) as [[a| |] s1]; [eauto|done..]. Qed.

Lemma mlift_Ok {S E A} (r : res E A) (s : S) a s' : mlift r s = (Ok a, s') -> r = Ok a /\ s' = s.
Proof. unfold mlift. by intros [= -> ->]. Qed.

Lemma mmap_err_Ok {S E F A} (f : E -> F) (c : M S E A) s a s' :
  mmap_err f c s = (Ok a, s') -> c s = (Ok a, s').
Proof. unfold mmap_err. destruct (c s) as [[a'| |] s1]; cbn; congruence. Qed.

Lemma mtry_inl {S E F A} (c : M S E A) s a s' : mtry (F:=F) c s = (Ok (inl a), s') -> c s = (Ok a, s').
Proof. unfold mtry. destruct (c s) as [[a'| |] s1]; cbn; congruence. Qed.

Lemma faulty_Ok {A} (c : M World DbError A) w a w' :
  faulty c w = (Ok a, w') ->
  exists f, c (set_faults w f) = (Ok a, w').
Proof.
  unfold faulty. destruct (w_faults w) as [|[] f] eqn:E; [|done|eauto].
  intros H. exists []. rewrite <- E. by destruct w.
Qed.

Lemma begin_Ok w u w' : db begin_transaction w = (Ok u, w') -> w_store w' = w_store w /\ w_tx w' = w_store w.
Proof. intros H%mmap_err_Ok. unfold begin_transaction in H. apply faulty_Ok in H as [f [= <- <-]]. done. Qed.

Lemma commit_Ok w u w' : db commit w = (Ok u, w') -> w_store w' = w_tx w.
Proof. intros H%mmap_err_Ok. unfold commit in H. apply faulty_Ok in H as [f [= <- <-]]. done. Qed.

Lemma tx_Ok {A} (op : T A) w a w' :
  tx op w = (Ok a, w') -> op (w_tx w) = (Ok a, w_tx w') /\ w_store w' = w_store w.
Proof.
  unfold tx. intros [f H]%faulty_Ok. cbn in H. destruct (op (w_tx w)) as [r t]. by injection H as -> <-.
Qed.

Lemma mlift_seq {S E A B} (r : res E A) (k : A -> M S E B) s b s' :
  mseq (mlift r) k s = (Ok b, s') -> exists a, r = Ok a /\ k a s = (Ok b, s').
Proof. intros (a & s1 & [-> ->]%mlift_Ok & H)%mseq_Ok. eauto. Qed.

Lemma tx_read_seq {A B} (f : Db -> res DbError A) (k : A -> Mt B) w b w' :
  mseq (db (tx_read f)) k w = (Ok b, w') ->
  exists a w1, f (w_tx w) = Ok a /\ w_tx w1 = w_tx w /\ w_store w1 = w_store w /\ k a w1 = (Ok b, w').
Proof.
  intros (a & w1 & H%mmap_err_Ok & Hk)%mseq_Ok. unfold tx_read in H. apply tx_Ok in H as [H Hs].
  injection H as Hf Ht. eauto 10.
Qed.

Lemma tx_seq {A B} (op : T A) (k : A -> Mt B) w b w' :
  mseq (db (tx op)) k w = (Ok b, w') ->
  exists a w1, op (w_tx w) = (Ok a, w_tx w1) /\ w_store w1 = w_store w /\ k a w1 = (Ok b, w').
Proof. intros (a & w1 & [H Hs]%mmap_err_Ok%tx_Ok & Hk)%mseq_Ok. eauto. Qed.

Lemma read_store_seq {A B} (f : Db -> res DbError A) (k : A -> Mt B) w b w' :
  mseq (db (read_store f)) k w = (Ok b, w') ->
  exists a w1, f (w_store w) = Ok a /\ w_tx w1 = w_tx w /\ w_store w1 = w_store w /\ k a w1 = (Ok b, w').
Proof.
  intros (a & w1 & H%mmap_err_Ok & Hk)%mseq_Ok. unfold read_store in H. apply faulty_Ok in H as [fl H].
  injection H as Hf <-. exists a, (set_faults w fl). done.
Qed.

Lemma ensure_Ok {E} b (e : E) : ensure b e = Ok tt -> b = true.
Proof. by destruct b. Qed.

Lemma ok_or_Ok {E A} (e : E) (o : option A) a : ok_or e o = Ok a -> o = Some a.
Proof. destruct o; cbn; congruence. Qed.

Lemma map_err_Ok {E F A} (f : E -> F) (r : res E A) a : map_err f r = Ok a -> r = Ok a.
Proof. destruct r; cbn; congruence. Qed.

Lemma publish_all_Ok {A} (f : A -> Event) l w u w' :
  mfor (fun y => publish (f y)) l w = (Ok u, w') -> w_store w' = w_store w /\ w_tx w' = w_tx w.
Proof.
  revert w. induction l as [|x l IH]; intros w; cbn; [by intros [= <- <-]|].
  unfold mseq, publish, mmodify. intros H%IH. done.
Qed.

(** ** What leaves the committed tables alone *)

Definition keeps_store {E A} (c : M World E A) : Prop := forall w, w_store (snd (c w)) = w_store w.

Lemma ks_mret {E A} (a : A) : keeps_store (mret a : M World E A).
Proof. done. Qed.
Lemma ks_mfail {E A} (e : E) : keeps_store (mfail e : M World E A).
Proof. done. Qed.
Lemma ks_mpanic {E A} : keeps_store (mpanic : M World E A).
Proof. done. Qed.
Lemma ks_mlift {E A} (r : res E A) : keeps_store (mlift r).
Proof. done. Qed.
Lemma ks_mseq {E A B} (c : M World E A) (k : A -> M World E B) :
  keeps_store c -> (forall a, keeps_store (k a)) -> keeps_store (mseq c k).
Proof.
  intros Hc Hk w. unfold mseq. specialize (Hc w). destruct (c w) as [[a| |] w1]; cbn in *; [|done..].
  by rewrite Hk.
Qed.
Lemma ks_mmap_err {E F A} (f : E -> F) (c : M World E A) : keeps_store c -> keeps_store (mmap_err f c).
Proof. intros H w. exact (H w). Qed.
Lemma ks_mtry {E F A} (c : M World E A) : keeps_store c -> keeps_store (mtry (F:=F) c).
Proof. intros H w. unfold mtry. specialize (H w). by destruct (c w) as [[a| |] w1]. Qed.
Lemma ks_faulty {A} (c : M World DbError A) : keeps_store c -> keeps_store (faulty c).
Proof. intros H w. unfold faulty. destruct (w_faults w) as [|[] f]; [apply H|done|apply (H (set_faults w f))]. Qed.
Lemma ks_begin : keeps_store (db begin_transaction).
Proof. apply ks_mmap_err, ks_faulty. intros w. done. Qed.
Lemma ks_begin_raw : keeps_store begin_transaction.
Proof. apply ks_faulty. intros w. done. Qed.
Lemma ks_rollback : keeps_store (db rollback).
Proof. apply ks_mmap_err, ks_faulty. intros w. done. Qed.
Lemma ks_tx {A} (op : T A) : keeps_store (tx op).
Proof. apply ks_faulty. intros w. cbn. by destruct (op (w_tx w)). Qed.
Lemma ks_read_store {A} (f : Db -> res DbError A) : keeps_store (read_store f).
Proof. apply ks_faulty. intros w. done. Qed.
Lemma ks_publish e : keeps_store (publish e).
Proof. done. Qed.
Lemma ks_mfor {E A} (f : A -> M World E unit) l : (forall a, keeps_store (f a)) -> keeps_store (mfor f l).
Proof. intros H. induction l; cbn; [apply ks_mret|by apply ks_mseq]. Qed.
End store.

#[export] Hint Resolve ks_mret ks_mfail ks_mpanic ks_mlift ks_begin ks_begin_raw ks_rollback ks_tx ks_read_store ks_publish ks_mtry
  ks_mmap_err : cdk.

(** Structural proof that a computation does not write the store. *)
Ltac ks_auto :=
  repeat first
    [ progress intros
    | solve [auto with cdk]
    | apply ks_mseq | apply ks_mfor
    | match goal with |- keeps_store (match ?x with _ => _ end) => destruct x end ].

(** ** A preorder kept by a handler

    [R] relates the committed tables before a call to those after it, and the
    committed tables to what the open transaction sees. *)
Section preserves.
Context {CR : Crypto} {SD : Serde} (R : Db -> Db -> Prop) `{!PreOrder R}.

Definition preserves {E A} (c : M World E A) : Prop :=
  forall w, R (w_store w) (w_tx w) ->
    R (w_store w) (w_store (snd (c w))) /\ R (w_store (snd (c w))) (w_tx (snd (c w))).

Lemma pv_mret {E A} (a : A) : preserves (mret a : M World E A).
Proof. intros w H. split; [reflexivity|done]. Qed.
Lemma pv_mfail {E A} (e : E) : preserves (mfail e : M World E A).
Proof. intros w H. split; [reflexivity|done]. Qed.
Lemma pv_mpanic {E A} : preserves (mpanic : M World E A).
Proof. intros w H. split; [reflexivity|done]. Qed.
Lemma pv_mlift {E A} (r : res E A) : preserves (mlift r).
Proof. intros w H. split; [reflexivity|done]. Qed.
Lemma pv_publish e : preserves (publish e).
Proof. intros w H. split; [reflexivity|done]. Qed.
Lemma pv_mseq {E A B} (c : M World E A) (k : A -> M World E B) :
  preserves c -> (forall a, preserves (k a)) -> preserves (mseq c k).
Proof.
  intros Hc Hk w Hw. unfold mseq. destruct (Hc w Hw) as [H1 H2].
  destruct (c w) as [[a| |] w1]; cbn in *; [|done..]. destruct (Hk a w1 H2) as [H3 H4].
  split; [by etrans|done].
Qed.
Lemma pv_mmap_err {E F A} (f : E -> F) (c : M World E A) : preserves c -> preserves (mmap_err f c).
Proof. intros H w. exact (H w). Qed.
Lemma pv_mtry {E F A} (c : M World E A) : preserves c -> preserves (mtry (F:=F) c).
Proof. intros H w Hw. unfold mtry. specialize (H w Hw). by destruct (c w) as [[a| |] w1]. Qed.
Lemma pv_faulty {A} (c : M World DbError A) : preserves c -> preserves (faulty c).
Proof.
  intros H w Hw. unfold faulty. destruct (w_faults w) as [|[] f]; [by apply H|by split|].
  by apply (H (set_faults w f)).
Qed.
Lemma pv_begin : preserves begin_transaction.
Proof. apply pv_faulty. intros w Hw. by split. Qed.
Lemma pv_rollback : preserves rollback.
Proof. apply pv_faulty. intros w Hw. by split. Qed.
Lemma pv_commit : preserves commit.
Proof. apply pv_faulty. intros w Hw. by split. Qed.
Lemma pv_read_store {A} (f : Db -> res DbError A) : preserves (read_store f).
Proof. apply pv_faulty. intros w Hw. by split. Qed.
Lemma pv_tx {A} (op : T A) : keeps R op -> preserves (tx op).
Proof.
  intros Hop. apply pv_faulty. intros w Hw. cbn. specialize (Hop (w_tx w)).
  destruct (op (w_tx w)) as [r t]. cbn in *. split; [reflexivity|by etrans].
Qed.
Lemma pv_tx_read {A} (f : Db -> res DbError A) : preserves (tx_read f).
Proof. apply pv_tx. intros d. reflexivity. Qed.
Lemma pv_mfor {E A} (f : A -> M World E unit) l : (forall a, preserves (f a)) -> preserves (mfor f l).
Proof. intros H. induction l; cbn; [apply pv_mret|by apply pv_mseq]. Qed.

(** Whole handlers, from any state of the world: what they commit is related
    to what was committed before. *)
Definition commits {E A} (c : M World E A) : Prop := forall w, R (w_store w) (w_store (snd (c w))).

Lemma cm_keeps {E A} (c : M World E A) : keeps_store c -> commits c.
Proof. intros H w. rewrite H. reflexivity. Qed.
Lemma cm_mseq {E A B} (c : M World E A) (k : A -> M World E B) :
  commits c -> (forall a, commits (k a)) -> commits (mseq c k).
Proof.
  intros Hc Hk w. unfold mseq. specialize (Hc w). destruct (c w) as [[a| |] w1]; cbn in *; [|done..].
  etrans; [apply Hc|apply Hk].
Qed.
Lemma cm_mtry {E F A} (c : M World E A) : commits c -> commits (mtry (F:=F) c).
Proof. intros H w. unfold mtry. specialize (H w). by destruct (c w) as [[a| |] w1]. Qed.
Lemma cm_mfor {E A} (f : A -> M World E unit) l : (forall a, commits (f a)) -> commits (mfor f l).
Proof. intros H. induction l; cbn; [by apply cm_keeps|by apply cm_mseq]. Qed.

(** From [begin_transaction] on, the open transaction starts at the committed
    tables. *)
Lemma cm_begin {A} (k : unit -> Mt A) : preserves (k tt) -> commits (mseq (db begin_transaction) k).
Proof.
  intros Hk w. assert (H : forall w0, w_store w0 = w_store w -> R (w_store w) (w_store (k tt (set_tx w0 (w_store w0))).2)).
  { intros w0 <-. apply (Hk (set_tx w0 (w_store w0))). reflexivity. }
  unfold mseq, db, mmap_err, begin_transaction, faulty, mmodify.
  destruct (w_faults w) as [|[] f]; cbn; [by apply H|reflexivity|by apply (H (set_faults w f))].
Qed.
Lemma cm_mtry_begin {A} (k : unit + DbError -> Mt A) :
  preserves (k (inl tt)) -> (forall e, commits (k (inr e))) -> commits (mseq (mtry begin_transaction) k).
Proof.
  intros Hk He w.
  assert (H : forall w0, w_store w0 = w_store w -> R (w_store w) (w_store (k (inl tt) (set_tx w0 (w_store w0))).2)).
  { intros w0 <-. apply (Hk (set_tx w0 (w_store w0))). reflexivity. }
  unfold mseq, mtry, begin_transaction, faulty, mmodify.
  destruct (w_faults w) as [|[] f]; cbn; [by apply H|apply (He _ (set_faults w f))|by apply (H (set_faults w f))].
Qed.

End preserves.

Lemma keeps_undrop {CR : Crypto} (R : Db -> Db -> Prop) {A} (c : T A) : keeps R (drop_result c) -> keeps R c.
Proof. intros H d. specialize (H d). unfold drop_result, mseq in H. by destruct (c d) as [[a| |] d']. Qed.

(** A single call keeps a preorder that every call of [DbOp] keeps. *)
Ltac keeps_call HR := idtac;
  lazymatch goal with
  | |- keeps _ (add_proofs ?n ?p ?q ?o) => exact (HR n (OpAddProofs p q o))
  | |- keeps _ (remove_proofs ?ys) => exact (HR 0 (OpRemoveProofs ys))
  | |- keeps _ (update_proofs_states ?ys ?st) => apply keeps_undrop; exact (HR 0 (OpUpdateProofsStates ys st))
  | |- keeps _ (add_blinded_messages ?n ?q ?ms ?o) => exact (HR n (OpAddBlindedMessages q ms o))
  | |- keeps _ (delete_blinded_messages ?bs) => exact (HR 0 (OpDeleteBlindedMessages bs))
  | |- keeps _ (add_blind_signatures ?n ?ms ?ss ?q) => exact (HR n (OpAddBlindSignatures ms ss q))
  | |- keeps _ (add_saga ?n ?s) => exact (HR n (OpAddSaga s))
  | |- keeps _ (delete_saga ?id) => exact (HR 0 (OpDeleteSaga id))
  | |- keeps _ (add_mint_quote ?q) => exact (HR 0 (OpAddMintQuote q))
  | |- keeps _ (increment_mint_quote_amount_paid ?n ?id ?a ?p) =>
      apply keeps_undrop; exact (HR n (OpIncrementPaid id a p))
  | |- keeps _ (increment_mint_quote_amount_issued ?n ?id ?a) =>
      apply keeps_undrop; exact (HR n (OpIncrementIssued id a))
  | |- keeps _ (add_melt_quote ?q) => exact (HR 0 (OpAddMeltQuote q))
  | |- keeps _ (update_melt_quote_request_lookup_id ?id ?l) => exact (HR 0 (OpUpdateMeltLookup id l))
  | |- keeps _ (update_melt_quote_state ?n ?id ?st ?p) => apply keeps_undrop; exact (HR n (OpUpdateMeltState id st p))
  | |- keeps _ (add_melt_request ?id ?a ?f) => exact (HR 0 (OpAddMeltRequest id a f))
  | |- keeps _ (delete_melt_request ?id) => exact (HR 0 (OpDeleteMeltRequest id))
  end.

(** Structural proof that a handler keeps a preorder that its database calls
    keep; [keeps_op] closes the goals about single calls. *)
Ltac pv_auto keeps_op :=
  cbv zeta;
  repeat match goal with
    | |- forall _, _ => intro
    | |- preserves _ (mseq _ _) => apply pv_mseq; [apply _|..]
    | |- preserves _ (mret _) => apply pv_mret; apply _
    | |- preserves _ (mfail _) => apply pv_mfail; apply _
    | |- preserves _ mpanic => apply pv_mpanic; apply _
    | |- preserves _ (mlift _) => apply pv_mlift; apply _
    | |- preserves _ (publish _) => apply pv_publish; apply _
    | |- preserves _ begin_transaction => apply pv_begin; apply _
    | |- preserves _ rollback => apply pv_rollback; apply _
    | |- preserves _ commit => apply pv_commit; apply _
    | |- preserves _ (read_store _) => apply pv_read_store; apply _
    | |- preserves _ (tx_read _) => apply pv_tx_read; apply _
    | |- preserves _ (tx _) => apply pv_tx; [apply _|solve [keeps_op]]
    | |- preserves _ (mfor _ _) => apply pv_mfor; [apply _|]
    | |- preserves _ (mtry _) => apply pv_mtry
    | |- preserves _ (mmap_err _ _) => apply pv_mmap_err
    | |- preserves _ (match ?x with _ => _ end) => destruct x
    end.

Section facts.
Context {CR : Crypto} {SD : Serde} {SG : Signatory}.

(** A computation that writes the store only when its result satisfies [G]. *)
Definition writes_when {E A} (G : A -> Prop) (c : M World E A) : Prop :=
  forall w r w', c w = (r, w') -> (forall a, r = Ok a -> ~ G a) -> w_store w' = w_store w.

Lemma ww_keeps {E A} G (c : M World E A) : keeps_store c -> writes_when G c.
Proof. intros H w r w' Hc _. specialize (H w). by rewrite Hc in H. Qed.

Lemma ww_mseq {E A B} G (c : M World E A) (k : A -> M World E B) :
  keeps_store c -> (forall a, writes_when G (k a)) -> writes_when G (mseq c k).
Proof.
  intros Hc Hk w r w' H Hr. unfold mseq in H. specialize (Hc w).
  destruct (c w) as [[a| |] w1]; cbn in Hc; simplify_eq; [|done..].
  rewrite <- Hc. by eapply Hk.
Qed.

Lemma ww_commit {B} (G : B -> Prop) (b : B) : G b -> writes_when G (mseq (db commit) (fun _ => mret b)).
Proof.
  intros Hb w r w'. unfold mseq, db, mmap_err, commit, faulty, mmodify, mret.
  destruct (w_faults w) as [|[] f]; cbn; intros [= <- <-] Hr; [|done|]; by destruct (Hr b).
Qed.

Lemma ks_verify_outputs keysets ms : keeps_store (verify_outputs keysets ms).
Proof. unfold verify_outputs, check_output_already_signed, tx_read, db. ks_auto. Qed.

Lemma ks_verify_balanced keysets v ps ms : keeps_store (verify_transaction_balanced keysets v ps ms).
Proof.
  unfold verify_transaction_balanced, verify_outputs, check_output_already_signed, tx_read, db. ks_auto.
Qed.
(** ** Verification *)

Lemma check_inputs_unique_Ok ps :
  check_inputs_unique ps = Ok tt -> exists ys, Nut00.ys ps = Ok ys /\ NoDup ys.
Proof.
  unfold check_inputs_unique, ensure. destruct (Nut00.ys ps) as [ys| |] eqn:Hys; cbn [map_err]; [|done..].
  destruct (Nat.eqb_spec (size (list_to_set ys : gset pubkey)) (length ps)) as [Hs|]; [|done].
  intros _. exists ys. split; [done|]. apply size_list_to_set_NoDup.
  apply NutsFacts.ys_length in Hys. congruence.
Qed.

Lemma check_outputs_unique_Ok ms : check_outputs_unique ms = Ok tt -> NoDup (map blinded_secret ms).
Proof.
  unfold check_outputs_unique, ensure.
  destruct (Nat.eqb_spec (size (list_to_set (map blinded_secret ms) : gset pubkey)) (length ms)) as [Hs|]; [|done].
  intros _. apply size_list_to_set_NoDup. by rewrite Hs, length_map.
Qed.

Lemma verify_inputs_Ok now keysets ps v :
  verify_inputs now keysets ps = Ok v ->
  v_amount v = sumN (map amount ps) /\ is_Some (v_unit v) /\
  collect (verify_conditions now) ps = Ok (map (fun _ => tt) ps) /\ signatory_verify_proofs ps = Ok tt.
Proof.
  unfold verify_inputs. destruct (check_inputs_unique ps) as [[]| |]; [|done..].
  destruct (verify_inputs_keyset keysets ps) as [u| |]; [|done..].
  unfold Nut00.total_amount. destruct (Amount.try_sum _) as [a| |] eqn:Ha; cbn [map_err]; [|done..].
  unfold verify_proofs. destruct (collect _ ps) as [us| |] eqn:Hc; [|done..].
  destruct (signatory_verify_proofs ps) as [[]| |]; [|done..]. intros [= <-]. cbn.
  apply Amount.try_sum_Ok in Ha as [-> _]. split_and!; eauto.
  f_equal. apply collect_length in Hc. clear -Hc. revert ps Hc.
  induction us as [|[] us IH]; intros [|p ps] Hl; simplify_eq/=; [done|]. f_equal. by apply IH.
Qed.

Lemma check_output_already_signed_Ok ms w u w' :
  check_output_already_signed ms w = (Ok u, w') -> w_tx w' = w_tx w.
Proof.
  unfold check_output_already_signed. intros (sigs & w1 & H1%mmap_err_Ok & [_ ->]%mlift_Ok)%mseq_Ok.
  unfold tx_read in H1. apply tx_Ok in H1 as [H1 _]. by injection H1.
Qed.

Lemma verify_outputs_Ok keysets ms w v w' :
  verify_outputs keysets ms w = (Ok v, w') -> is_Some (v_unit v) ->
  w_tx w' = w_tx w /\ NoDup (map blinded_secret ms) /\ v_amount v = sumN (map bm_amount ms).
Proof.
  unfold verify_outputs. destruct ms as [|m ms]; [intros [= <- <-] []; done|].
  intros ([] & Hu & H)%mlift_seq _. apply mseq_Ok in H as ([] & w1 & Hs & H).
  apply mlift_seq in H as (unit & _ & H). apply mlift_seq in H as (a & Ha & [= <- <-]).
  apply check_output_already_signed_Ok in Hs. split_and!; [done|by apply check_outputs_unique_Ok|].
  destruct (Amount.try_sum _) eqn:E; cbn in Ha; simplify_eq. by apply Amount.try_sum_Ok in E as [-> _].
Qed.

Lemma verify_outputs_unit keysets ms w v w' u :
  verify_outputs keysets ms w = (Ok v, w') -> v_unit v = Some u -> verify_outputs_keyset keysets ms = Ok u.
Proof.
  unfold verify_outputs. destruct ms as [|m ms]; [by intros [= <- <-]|].
  intros (? & _ & H)%mlift_seq. apply mseq_Ok in H as (? & w1 & _ & H).
  apply mlift_seq in H as (unit & Hu & H). apply mlift_seq in H as (a & _ & [= <- <-]). by intros [= <-].
Qed.

Lemma sum_signed ms sigs : Forall2 signs_for ms sigs -> sumN (map bs_amount sigs) = sumN (map bm_amount ms).
Proof. induction 1 as [|m s ms sigs [Ha _] _ IH]; cbn; [done|]. unfold sumN in *. cbn. rewrite Ha, IH. done. Qed.

(** A balanced swap: the outputs are distinct and worth the inputs less the fee. *)
Definition balanced (keysets : Keysets) (ps : list Proof) (ms : list BlindedMessage) (total : N) : Prop :=
  NoDup (map blinded_secret ms) /\
  exists fee, get_proofs_fee keysets ps = Ok fee /\ sumN (map bm_amount ms) + fee = total.

Lemma verify_balanced_Ok keysets v ps ms w u w' :
  verify_transaction_balanced keysets v ps ms w = (Ok u, w') -> is_Some (v_unit v) ->
  w_tx w' = w_tx w /\ balanced keysets ps ms (v_amount v).
Proof.
  unfold verify_transaction_balanced, ensure. intros (ov & w1 & Ho & H)%mseq_Ok Hv.
  apply mlift_seq in H as ([] & Hunit & H). case_bool_decide as Hu; [|done].
  apply mlift_seq in H as (fee & Hfee & H). apply mlift_seq in H as (net & Hnet & H).
  apply mlift_Ok in H as [Hbal ->].
  destruct (Amount.checked_sub (v_amount v) fee) as [n|] eqn:Hn; [|done]. injection Hnet as ->.
  apply u64_checked_sub_Some in Hn as [-> Hle].
  destruct (N.eqb_spec (v_amount ov) (v_amount v - fee)) as [Heq|]; [|done].
  apply verify_outputs_Ok in Ho as (Htx & Hnd & Ha); [|congruence].
  split; [done|]. split; [done|]. exists fee. split; [done|]. rewrite <- Ha, Heq. lia.
Qed.
End facts.
End MintFacts.

(** ** A concrete mint *)
Module ConcreteMint.
Import Nut00 Requests StateRules MintTypes MintDb Mint Concrete.

(** A signatory that signs every message with its own blinded secret. *)
#[export] Instance signatory : Signatory := {|
  signatory_blind_sign ms := Ok (map (fun m => mkBlindSignature (bm_amount m) (bm_keyset_id m) (blinded_secret m) None) ms);
  signatory_verify_proofs _ := Ok tt;
|}.

#[export] Instance signatory_laws : SignatoryLaws signatory.
Proof.
  split. intros ms ss [= <-]. induction ms; cbn; constructor; [done|]. apply IHms.
Qed.

Definition sat_keyset : KeysetInfo := mkKeysetInfo "ks" Amount.Sat true 100 (Amount.pow2_amounts 32).
Definition token (secret : string) (a : N) : Proof := mkProof a "ks" secret carol None None.
Definition blank (k : @pubkey crypto) (a : N) : BlindedMessage := mkBlindedMessage a "ks" k None.
Definition start (faults : list bool) : World := mkWorld empty_db empty_db faults [].

End ConcreteMint.
