(* ===== verification/Keysets.v ===== *)
(** * Keysets and the signatory (crates/cdk-signatory, nut02.rs, keyset tables)

    The signatory holds the secret keys of every keyset the mint has had.  The
    keys are not stored: they are derived again from the seed, the derivation
    path and the amounts in the row of the keyset.  One keyset per unit is
    active and signs; all of them verify.  Key derivation (BIP-32) is a
    parameter. *)
From stdpp Require Import base numbers list sorting strings gmap.
From S2P Require Import Prelude Amount Hex Nuts KeysetId Bdhke Conditions Spending States MintDb Mint.
Import Nut00 KeysetId Bdhke MintDb Mint.

Local Open Scope N_scope.
Local Open Scope res_scope.
Local Open Scope mint_scope.

(** A step of a derivation path: hardened or not, and an index below [2^31]. *)
Record ChildNumber := mkChild { hardened : bool; child_index : N }.
Definition DerivationPath := list ChildNumber.

(** [bip32::Xpriv]: [derive_priv] and the field [private_key]. *)
Class Bip32 (CR : Crypto) := {
  xpriv : Type;
  derive_priv : xpriv -> DerivationPath -> option xpriv;
  private_key : xpriv -> seckey;
}.

Module Keysets.

(** [ChildNumber::from_hardened_idx]. *)
Definition from_hardened_idx (i : N) : option ChildNumber :=
  if i <? 2 ^ 31 then Some (mkChild true i) else None.

(** ** The keyset table (cdk-common/src/mint.rs, cdk-sql-common/src/mint/mod.rs) *)

Record MintKeySetInfo := mkInfo {
  in_id : KeyId;
  in_unit : Amount.CurrencyUnit;
  in_active : bool;
  in_valid_from : N;
  in_derivation_path : DerivationPath;
  in_derivation_path_index : option N;
  in_max_order : N;
  in_amounts : list N;
  in_input_fee_ppk : N;
  in_final_expiry : option N;
}.

Definition set_active (i : MintKeySetInfo) (b : bool) : MintKeySetInfo :=
  mkInfo (in_id i) (in_unit i) b (in_valid_from i) (in_derivation_path i) (in_derivation_path_index i)
    (in_max_order i) (in_amounts i) (in_input_fee_ppk i) (in_final_expiry i).

Definition set_unit (i : MintKeySetInfo) (u : Amount.CurrencyUnit) : MintKeySetInfo :=
  mkInfo (in_id i) u (in_active i) (in_valid_from i) (in_derivation_path i) (in_derivation_path_index i)
    (in_max_order i) (in_amounts i) (in_input_fee_ppk i) (in_final_expiry i).

(** A row: the unit is stored as text; the 64-bit columns are signed, so a
    value above [i64::MAX] is stored as a negative number, which does not
    convert back. *)
Record KeysetRow := mkKeysetRow { kr_unit : string; kr_info : MintKeySetInfo }.

Abbreviation KeyDb := (gmap string KeysetRow).

Section defs.
Context {CR : Crypto} {CV : Curve CR} {BP : Bip32 CR}.

(** ** Keysets (nut01/mod.rs, nut02.rs) *)

Record MintKeyPair := mkMintKeyPair { kp_public_key : pubkey; kp_secret_key : seckey }.

Record MintKeySet := mkMintKeySet {
  mk_id : KeyId;
  mk_unit : Amount.CurrencyUnit;
  mk_keys : gmap N MintKeyPair;
  mk_final_expiry : option N;
}.

(** [From<MintKeys> for Keys]. *)
Definition keys_of (keys : gmap N MintKeyPair) : gmap N pubkey := kp_public_key <$> keys.

(** The loop of [MintKeySet::generate] from index [i]; both [expect]s panic. *)
Fixpoint generate_keys {E} (xp : xpriv) (i : N) (amounts : list N) (map : gmap N MintKeyPair)
    : res E (gmap N MintKeyPair) :=
  match amounts with
  | [] => Ok map
  | amount :: amounts' =>
      let? child := expect (from_hardened_idx (i mod 2 ^ 32)) in
      let? derived := expect (derive_priv xp [child]) in
      let secret_key := private_key derived in
      generate_keys xp (i + 1) amounts' (<[amount := mkMintKeyPair (seckey_public_key secret_key) secret_key]> map)
  end.

Definition generate {E} (xp : xpriv) (unit : Amount.CurrencyUnit) (amounts : list N) (final_expiry : option N)
    (version : KeySetVersion) : res E MintKeySet :=
  let? keys := generate_keys xp 0 amounts ∅ in
  let? id := unwrap (derived_id version (keys_of keys) unit final_expiry) in
  Ok (mkMintKeySet id unit keys final_expiry).

(** [From<MintKeySet> for KeySet]: what the mint publishes. *)
Definition public_keyset (keyset : MintKeySet) : KeySet :=
  mkKeySet (mk_id keyset) (mk_unit keyset) (keys_of (mk_keys keyset)) (mk_final_expiry keyset).

Definition generate_from_xpriv {E} (xp : xpriv) (amounts : list N) (unit : Amount.CurrencyUnit) (path : DerivationPath)
    (final_expiry : option N) (version : KeySetVersion) : res E MintKeySet :=
  let? derived := expect (derive_priv xp path) in
  generate derived unit amounts final_expiry version.

Definition signed_ok (i : MintKeySetInfo) : bool :=
  (in_valid_from i <=? I64_MAX) && (in_input_fee_ppk i <=? I64_MAX) &&
  match in_final_expiry i with Some e => e <=? I64_MAX | None => true end.

Definition sql_row_to_keyset_info (r : KeysetRow) : res DbError MintKeySetInfo :=
  if signed_ok (kr_info r) then Ok (set_unit (kr_info r) (currency_from_str (kr_unit r))) else Err Conversion.

(** [INSERT .. ON CONFLICT(id) DO UPDATE]. *)
Definition add_keyset_info (i : MintKeySetInfo) : M KeyDb DbError unit :=
  mmodify (insert (id_to_string (in_id i)) (mkKeysetRow (unit_to_string (in_unit i)) i)).

(** The two [UPDATE]s. *)
Definition activate (unit id : string) (k : string) (r : KeysetRow) : KeysetRow :=
  if String.eqb (kr_unit r) unit then mkKeysetRow (kr_unit r) (set_active (kr_info r) (String.eqb k id)) else r.

Definition set_active_keyset (u : Amount.CurrencyUnit) (id : KeyId) : M KeyDb DbError unit :=
  mmodify (map_imap (fun k r => Some (activate (unit_to_string u) (id_to_string id) k r))).

#[global] Instance active_unit_dec (unit : string) (kr : string * KeysetRow) :
  Decision (in_active (kr_info kr.2) = true /\ kr_unit kr.2 = unit).
Proof. apply _. Defined.

Definition get_active_keyset_id (unit : Amount.CurrencyUnit) (db : KeyDb) : res DbError (option KeyId) :=
  Ok (in_id ∘ kr_info ∘ snd <$>
        head (filter (fun kr => in_active (kr_info kr.2) = true /\ kr_unit kr.2 = unit_to_string unit) (map_to_list db))).

Definition get_active_keysets_of_db (db : KeyDb) : res DbError (gmap Amount.CurrencyUnit KeyId) :=
  Ok (fold_left (fun m kr => if in_active (kr_info kr.2)
                             then <[currency_from_str (kr_unit kr.2) := in_id (kr_info kr.2)]> m else m)
        (map_to_list db) ∅).

Definition get_keyset_info_of_db (id : KeyId) (db : KeyDb) : res DbError (option MintKeySetInfo) :=
  match db !! id_to_string id with
  | Some r => let? i := sql_row_to_keyset_info r in Ok (Some i)
  | None => Ok None
  end.

Definition get_keyset_infos (db : KeyDb) : res DbError (list MintKeySetInfo) :=
  collect sql_row_to_keyset_info (map_to_list db).*2.

(** ** The signatory (db_signatory.rs, common.rs)

    The state: the keysets in memory, the active ones, the custom derivation
    paths and the seed key. *)
Record DbSignatory := mkDbSignatory {
  sg_keysets : gmap string (MintKeySetInfo * MintKeySet);
  sg_active : gmap Amount.CurrencyUnit KeyId;
  sg_custom_paths : gmap Amount.CurrencyUnit DerivationPath;
  sg_xpriv : xpriv;
}.

(** The world of the signatory: its database with faults, and its memory. *)
Record KWorld := mkKWorld {
  k_store : KeyDb;
  k_tx : KeyDb;
  k_faults : list bool;
  k_sig : DbSignatory;
}.

Definition Kt (A : Type) : Type := M KWorld MError A.

Definition k_faulty {A} (c : M KWorld DbError A) : Kt A :=
  mmap_err of_db_error (fun w =>
    match k_faults w with
    | true :: f => (Err Database, mkKWorld (k_store w) (k_tx w) f (k_sig w))
    | false :: f => c (mkKWorld (k_store w) (k_tx w) f (k_sig w))
    | [] => c w
    end).

Definition k_begin : Kt unit := k_faulty (mmodify (fun w => mkKWorld (k_store w) (k_store w) (k_faults w) (k_sig w))).
Definition k_commit : Kt unit := k_faulty (mmodify (fun w => mkKWorld (k_tx w) (k_tx w) (k_faults w) (k_sig w))).
Definition k_call {A} (op : M KeyDb DbError A) : Kt A :=
  k_faulty (fun w => match op (k_tx w) with (r, t) => (r, mkKWorld (k_store w) t (k_faults w) (k_sig w)) end).
Definition k_read {A} (f : KeyDb -> res DbError A) : Kt A := k_faulty (fun w => (f (k_store w), w)).

Definition generate_keyset {E} (self : DbSignatory) (i : MintKeySetInfo) : res E MintKeySet :=
  generate_from_xpriv (sg_xpriv self) (in_amounts i) (in_unit i) (in_derivation_path i) (in_final_expiry i)
    (version (in_id i)).

(** The loop of [reload_keys_from_db], over the maps being filled. *)
Fixpoint reload_loop {E} (self : DbSignatory) (db_active : gmap Amount.CurrencyUnit KeyId) (infos : list MintKeySetInfo)
    : res E DbSignatory :=
  match infos with
  | [] => Ok self
  | i :: infos' =>
      let? keyset := generate_keyset self i in
      let active := bool_decide (db_active !! in_unit i = Some (in_id i)) in
      let i := set_active i active in
      reload_loop (mkDbSignatory (<[id_to_string (in_id i) := (i, keyset)]> (sg_keysets self))
                     (if active then <[in_unit i := in_id i]> (sg_active self) else sg_active self)
                     (sg_custom_paths self) (sg_xpriv self)) db_active infos'
  end.

Definition reload_keys_from_db : Kt unit :=
  do_ mmodify (fun w => mkKWorld (k_store w) (k_tx w) (k_faults w)
                          (mkDbSignatory ∅ ∅ (sg_custom_paths (k_sig w)) (sg_xpriv (k_sig w)))) ;
  do db_active <- k_read get_active_keysets_of_db ;
  do infos <- k_read get_keyset_infos ;
  do self <- mgets k_sig ;
  do self' <- mlift (reload_loop self db_active infos) ;
  mmodify (fun w => mkKWorld (k_store w) (k_tx w) (k_faults w) self').

(** [Signatory::blind_sign]; [nonce i] is the random nonce for message [i]. *)
Definition sign_one (self : DbSignatory) (nonce : seckey) (m : BlindedMessage) : res MError BlindSignature :=
  let? (info, key) := ok_or UnknownKeySet (sg_keysets self !! bm_keyset_id m) in
  if negb (in_active info) then Err InactiveKeyset
  else
    let? key_pair := ok_or UnknownKeySet (mk_keys key !! bm_amount m) in
    let? c := map_err MDHKE (sign_message (kp_secret_key key_pair) (blinded_secret m)) in
    map_err (fun _ => MNUT12)
      (BlindSignature_new nonce (bm_amount m) c (bm_keyset_id m) (blinded_secret m) (kp_secret_key key_pair)).

Fixpoint sign_all (self : DbSignatory) (nonce : nat -> seckey) (i : nat) (ms : list BlindedMessage)
    : res MError (list BlindSignature) :=
  match ms with
  | [] => Ok []
  | m :: ms' =>
      let? s := sign_one self (nonce i) m in
      let? ss := sign_all self nonce (S i) ms' in
      Ok (s :: ss)
  end.

Definition db_blind_sign (self : DbSignatory) (nonce : nat -> seckey) (ms : list BlindedMessage)
    : res MError (list BlindSignature) := sign_all self nonce 0 ms.

Definition verify_one (self : DbSignatory) (p : Proof) : res MError unit :=
  let? (_, key) := ok_or UnknownKeySet (sg_keysets self !! keyset_id p) in
  let? key_pair := ok_or UnknownKeySet (mk_keys key !! amount p) in
  map_err MDHKE (verify_message (kp_secret_key key_pair) (c p) (secret p)).

(** [try_for_each]. *)
Fixpoint db_verify_proofs (self : DbSignatory) (proofs : list Proof) : res MError unit :=
  match proofs with
  | [] => Ok tt
  | p :: proofs' => let? _ := verify_one self p in db_verify_proofs self proofs'
  end.

(** [derivation_index] of [CurrencyUnit] and [derivation_path_from_unit]. *)
Definition derivation_index (u : Amount.CurrencyUnit) : option N :=
  match u with
  | Amount.Sat => Some 0 | Amount.Msat => Some 1 | Amount.Usd => Some 2 | Amount.Eur => Some 3
  | Amount.Auth => Some 4 | Amount.Custom _ => None
  end.

Definition derivation_path_from_unit {E} (unit : Amount.CurrencyUnit) (index : N) : res E (option DerivationPath) :=
  match derivation_index unit with
  | None => Ok None
  | Some unit_index =>
      let? a := expect (from_hardened_idx 0) in
      let? b := expect (from_hardened_idx unit_index) in
      let? c := expect (from_hardened_idx index) in
      Ok (Some [a; b; c])
  end.

Definition create_new_keyset {E} (now : N) (xp : xpriv) (path : DerivationPath) (index : option N)
    (unit : Amount.CurrencyUnit) (amounts : list N) (input_fee_ppk : N) (final_expiry : option N)
    : res E (MintKeySet * MintKeySetInfo) :=
  let? derived := expect (derive_priv xp path) in
  let? keyset := generate derived unit amounts final_expiry Version00 in
  Ok (keyset, mkInfo (mk_id keyset) (mk_unit keyset) true now path index 0 amounts input_fee_ppk (mk_final_expiry keyset)).

(** The path of a new keyset: the custom one of the unit, whatever the index. *)
Definition path_for (paths : gmap Amount.CurrencyUnit DerivationPath) (unit : Amount.CurrencyUnit) (index : N)
    : res MError DerivationPath :=
  match paths !! unit with
  | Some path => Ok path
  | None => let? p := derivation_path_from_unit unit index in ok_or UnsupportedUnit p
  end.

Record RotateKeyArguments := mkRotate { ra_unit : Amount.CurrencyUnit; ra_amounts : list N; ra_input_fee_ppk : N }.

(** [From<&(MintKeySetInfo, MintKeySet)> for SignatoryKeySet]. *)
Definition signatory_keyset (info : MintKeySetInfo) (key : MintKeySet) : KeysetInfo :=
  mkKeysetInfo (id_to_string (in_id info)) (mk_unit key) (in_active info) (in_input_fee_ppk info) (in_amounts info).

Definition next_index (unit : Amount.CurrencyUnit) : Kt N :=
  do current <- k_read (get_active_keyset_id unit) ;
  match current with
  | Some id =>
      do info <- k_read (get_keyset_info_of_db id) ;
      do info <- mlift (ok_or UnknownKeySet info) ;
      mret ((default 1 (in_derivation_path_index info) + 1) mod 2 ^ 32)
  | None => mret 1
  end.

Definition rotate_keyset (now : N) (args : RotateKeyArguments) : Kt KeysetInfo :=
  do path_index <- next_index (ra_unit args) ;
  do self <- mgets k_sig ;
  do path <- mlift (path_for (sg_custom_paths self) (ra_unit args) path_index) ;
  do new <- mlift (create_new_keyset now (sg_xpriv self) path (Some path_index) (ra_unit args) (ra_amounts args)
                     (ra_input_fee_ppk args) None) ;
  let '(keyset, info) := new in
  do_ k_begin ;
  do_ k_call (add_keyset_info info) ;
  do_ k_call (set_active_keyset (ra_unit args) (in_id info)) ;
  do_ k_commit ;
  do_ reload_keys_from_db ;
  mret (signatory_keyset info keyset).

(** The list of keysets that the mint loads ([Signatory::keysets]). *)
Definition db_keysets (self : DbSignatory) : Keysets :=
  (fun kv => signatory_keyset kv.2.1 kv.2.2) <$> map_to_list (sg_keysets self).

(** [Mint::rotate_keyset]: the powers of two below [2^max_order], which wrap to
    zero from [2^64] on in a release build. *)
Definition pow2_list (max_order : N) : list N := (fun i => 2 ^ N.of_nat i mod 2 ^ 64) <$> seq 0 (N.to_nat max_order).

Definition mint_rotate_keyset (now : N) (unit : Amount.CurrencyUnit) (max_order input_fee_ppk : N)
    : Kt (KeysetInfo * Keysets) :=
  do result <- rotate_keyset now (mkRotate unit (pow2_list max_order) input_fee_ppk) ;
  do self <- mgets k_sig ;
  mret (result, db_keysets self).

(** ** Start-up: [init_keysets] and [DbSignatory::new] *)

Definition by_unit (infos : list MintKeySetInfo) : gmap Amount.CurrencyUnit (list MintKeySetInfo) :=
  fold_left (fun acc ks => <[in_unit ks := default [] (acc !! in_unit ks) ++ [ks]]> acc) infos ∅.

(** [Option<u32>] in order: [None] first. *)
Definition index_le (a b : option N) : bool :=
  match a, b with None, _ => true | Some _, None => false | Some x, Some y => x <=? y end.

(** [sort_by(|a, b| b.index.cmp(&a.index))]: descending and stable. *)
Fixpoint insert_desc (x : MintKeySetInfo) (l : list MintKeySetInfo) : list MintKeySetInfo :=
  match l with
  | [] => [x]
  | y :: l' => if index_le (in_derivation_path_index y) (in_derivation_path_index x) then x :: l
               else y :: insert_desc x l'
  end.
Definition sort_desc (l : list MintKeySetInfo) : list MintKeySetInfo := foldr insert_desc [] l.

(** The body of the loop over the units; it returns whether the unit has an
    active keyset now.  The map of generated keysets that the code also
    returns is not used by its caller. *)
Definition init_unit (now : N) (xp : xpriv) (supported_units : gmap Amount.CurrencyUnit (N * N))
    (custom_paths : gmap Amount.CurrencyUnit DerivationPath) (u : Amount.CurrencyUnit) (keysets : list MintKeySetInfo)
    : Kt bool :=
  let keysets := sort_desc keysets in
  do highest <- mlift (expect (head keysets)) ;
  let keysets := filter (fun ks => is_Some (in_derivation_path_index ks)) keysets in
  match supported_units !! u with
  | None => mret false
  | Some (input_fee_ppk, max_order) =>
      if negb (Nat.eqb (length keysets) 0) && (in_input_fee_ppk highest =? input_fee_ppk) &&
         (N.of_nat (length (in_amounts highest)) =? max_order)
      then
        do_ mlift (generate_from_xpriv xp (in_amounts highest) (in_unit highest) (in_derivation_path highest)
                     (in_final_expiry highest) Version00) ;
        do_ k_call (add_keyset_info (set_active highest true)) ;
        do_ k_call (set_active_keyset u (in_id highest)) ;
        mret true
      else
        let index := if Nat.eqb (length keysets) 0 then 1
                     else (default 0 (in_derivation_path_index highest) + 1) mod 2 ^ 32 in
        do path <- mlift (path_for custom_paths u index) ;
        do new <- mlift (create_new_keyset now xp path (Some index) u (in_amounts highest) input_fee_ppk None) ;
        do_ k_call (add_keyset_info (snd new)) ;
        do_ k_call (set_active_keyset u (in_id (snd new))) ;
        mret true
  end.

Fixpoint init_units (now : N) (xp : xpriv) (supported_units : gmap Amount.CurrencyUnit (N * N))
    (custom_paths : gmap Amount.CurrencyUnit DerivationPath) (l : list (Amount.CurrencyUnit * list MintKeySetInfo))
    : Kt (list Amount.CurrencyUnit) :=
  match l with
  | [] => mret []
  | (u, keysets) :: l' =>
      do active <- init_unit now xp supported_units custom_paths u keysets ;
      do units <- init_units now xp supported_units custom_paths l' ;
      mret (if active then u :: units else units)
  end.

Definition init_keysets (now : N) (xp : xpriv) (supported_units : gmap Amount.CurrencyUnit (N * N))
    (custom_paths : gmap Amount.CurrencyUnit DerivationPath) : Kt (list Amount.CurrencyUnit) :=
  do infos <- k_read get_keyset_infos ;
  do_ k_begin ;
  do_ mfor (fun i => k_call (add_keyset_info (set_active i false))) infos ;
  do units <- init_units now xp supported_units custom_paths (map_to_list (by_unit infos)) ;
  do_ k_commit ;
  mret units.

(** A first keyset for each supported unit that has none. *)
Definition create_for_unit (now : N) (xp : xpriv) (custom_paths : gmap Amount.CurrencyUnit DerivationPath)
    (units : list Amount.CurrencyUnit) (kv : Amount.CurrencyUnit * (N * N)) : Kt unit :=
  let '(u, (fee, max_order)) := kv in
  if bool_decide (u ∈ units) then mret tt
  else
    do path <- mlift (path_for custom_paths u 0) ;
    do new <- mlift (create_new_keyset now xp path (Some 0) u (pow2_list max_order) fee None) ;
    do_ k_call (add_keyset_info (snd new)) ;
    k_call (set_active_keyset u (in_id (snd new))).

Definition new_signatory (now : N) (xp : xpriv) (supported_units : gmap Amount.CurrencyUnit (N * N))
    (custom_paths : gmap Amount.CurrencyUnit DerivationPath) : Kt unit :=
  do units <- init_keysets now xp supported_units custom_paths ;
  let supported_units :=
    match supported_units !! Amount.Auth with Some _ => supported_units | None => <[Amount.Auth := (0, 1)]> supported_units end in
  do_ k_begin ;
  do_ mfor (create_for_unit now xp custom_paths units) (map_to_list supported_units) ;
  do_ k_commit ;
  do_ mmodify (fun w => mkKWorld (k_store w) (k_tx w) (k_faults w) (mkDbSignatory ∅ ∅ custom_paths xp)) ;
  reload_keys_from_db.

End defs.
End Keysets.
