(* ===== verification/KeysetFacts.v ===== *)
(** * Correctness of the signatory

    The signatory keeps its promise to the mint ([SignatoryLaws]); what it
    signs, the wallet turns into proofs that it accepts; rotation replaces the
    keyset that signs and keeps the ones that verify. *)
From stdpp Require Import base numbers list sorting strings gmap.
From S2P Require Import Prelude Amount Hex Nuts KeysetId Bdhke Conditions Spending States MintDb Mint MintFacts Keysets.
Import Nut00 KeysetId Bdhke BdhkeFacts MintDb Mint Keysets.

Local Open Scope N_scope.
Local Open Scope res_scope.

Create HintDb keyset discriminated.

Module KeysetFacts.

(** ** Signing *)
Section signing.
Context {CR : Crypto} {CV : Curve CR} {BP : Bip32 CR}.

Lemma sign_one_Ok self nonce m s :
  sign_one self nonce m = Ok s ->
  exists info key kp C' d,
    sg_keysets self !! bm_keyset_id m = Some (info, key) /\ in_active info = true /\
    mk_keys key !! bm_amount m = Some kp /\ sign_message (kp_secret_key kp) (blinded_secret m) = Ok C' /\
    calculate_dleq nonce C' (blinded_secret m) (kp_secret_key kp) = Ok d /\
    s = mkBlindSignature (bm_amount m) (bm_keyset_id m) C' (Some d).
Proof.
  unfold sign_one, BlindSignature_new. intros H.
  destruct (sg_keysets self !! bm_keyset_id m) as [[info key]|] eqn:Hk; [|done]. cbn [ok_or] in H.
  destruct (in_active info) eqn:Ha; [|done]. cbn [negb] in H.
  destruct (mk_keys key !! bm_amount m) as [kp|] eqn:Hkp; [|done]. cbn [ok_or] in H.
  destruct (sign_message (kp_secret_key kp) (blinded_secret m)) as [C'| |] eqn:HC; [|done..]. cbn [map_err] in H.
  destruct (calculate_dleq nonce C' (blinded_secret m) (kp_secret_key kp)) as [d| |] eqn:Hd; [|done..].
  injection H as <-. eauto 12.
Qed.

Lemma sign_all_Ok self nonce i ms ss :
  sign_all self nonce i ms = Ok ss -> Forall2 (fun m s => exists n, sign_one self n m = Ok s) ms ss.
Proof.
  revert i ss. induction ms as [|m ms IH]; intros i ss H; cbn [sign_all] in H; [injection H as <-; constructor|].
  destruct (sign_one self (nonce i) m) as [s| |] eqn:Hs; [|done..].
  destruct (sign_all self nonce (S i) ms) as [ss'| |] eqn:Hss; [|done..]. injection H as <-.
  constructor; eauto.
Qed.

(** The signatory as the mint sees it. *)
Definition db_signatory (self : DbSignatory) (nonce : nat -> seckey) : Signatory :=
  {| signatory_blind_sign := db_blind_sign self nonce; signatory_verify_proofs := db_verify_proofs self |}.

Lemma db_verify_proofs_Ok self ps : db_verify_proofs self ps = Ok tt <-> Forall (fun p => verify_one self p = Ok tt) ps.
Proof.
  induction ps as [|p ps IH]; cbn [db_verify_proofs]; [by split|].
  rewrite Forall_cons, <- IH. destruct (verify_one self p) as [[]| |]; naive_solver.
Qed.

(** C17. The signatory keeps the promise on which the theorems about swaps,
    mints and melts rest: one signature per message, for its amount and its
    keyset, whatever keysets it holds and whatever nonces it draws. *)
Theorem db_signatory_keeps_promise self nonce : SignatoryLaws (db_signatory self nonce).
Proof.
  split. intros ms ss H. cbn in H. apply sign_all_Ok in H.
  eapply Forall2_impl; [exact H|]. cbn. intros m s (n & Hs).
  apply sign_one_Ok in Hs as (? & ? & ? & ? & ? & _ & _ & _ & _ & _ & ->). done.
Qed.

(** ** From the wallet's side *)
Context {CM : CurveModel CR} {CL : CurveLaws CR CV CM}.

(** Keysets as the signatory derives them. *)
Definition well_keyed (key : MintKeySet) : Prop :=
  forall a kp, mk_keys key !! a = Some kp -> kp_public_key kp = seckey_public_key (kp_secret_key kp).

(** The message [m] asks the keyset [kid] to sign [secret] blinded with [r]. *)
Definition asks_for (kid : Id) (m : BlindedMessage) (sr : string * seckey) : Prop :=
  bm_keyset_id m = kid /\ blind_message sr.1 (Some sr.2) sr.2 = Ok (blinded_secret m, sr.2).

(** What the wallet holds for a message in the end. *)
Definition good_proof (self : DbSignatory) (key : MintKeySet) (m : BlindedMessage) (sec : string) (p : Proof) : Prop :=
  amount p = bm_amount m /\ keyset_id p = bm_keyset_id m /\ secret p = sec /\ verify_one self p = Ok tt /\
  exists A, keys_of (mk_keys key) !! amount p = Some A /\ proof_verify_dleq p A = Ok tt.

Lemma issued_proof_good self key info nonce m s sec r :
  sg_keysets self !! bm_keyset_id m = Some (info, key) -> well_keyed key ->
  blind_message sec (Some r) r = Ok (blinded_secret m, r) -> sign_one self nonce m = Ok s ->
  exists p, construct_proof (keys_of (mk_keys key)) s r sec = Ok p /\ good_proof self key m sec p.
Proof.
  intros Hk Hwk Hb Hs. apply sign_one_Ok in Hs as (info' & key' & kp & C' & d & Hk' & _ & Hkp & HC & Hd & ->).
  rewrite Hk in Hk'. injection Hk' as <- <-.
  unfold blind_message in Hb. destruct (Dhke.hash_to_curve sec) as [y| |] eqn:Hy; [|done..]. cbn [from_option Datatypes.id] in Hb.
  destruct (point_combine y (seckey_public_key r)) as [B|] eqn:HB; [|done]. injection Hb as HbB. rewrite <- HbB in *.
  destruct (unblind_signed y r _ B C' HB HC) as (C & HCu & HdC).
  assert (HA : keys_of (mk_keys key) !! bm_amount m = Some (seckey_public_key (kp_secret_key kp))).
  { unfold keys_of. rewrite lookup_fmap, Hkp. cbn. by rewrite (Hwk _ _ Hkp). }
  unfold construct_proof. cbn [bs_amount bs_c bs_keyset_id bs_dleq]. rewrite HA. cbn [ok_or]. rewrite HCu.
  eexists. split; [reflexivity|]. unfold good_proof. cbn [amount keyset_id secret]. do 3 (split; [done|]). split.
  - unfold verify_one. cbn [amount keyset_id secret c]. rewrite Hk. cbn [ok_or]. rewrite Hkp. cbn [ok_or].
    rewrite (proj2 (verify_message_iff _ _ _)); [done|]. eauto.
  - eexists. split; [exact HA|]. unfold proof_verify_dleq. cbn [dleq fmap option_fmap option_map dleq_r dleq_e dleq_s secret c].
    rewrite Hy. cbn [map_err]. destruct (point_mul_Ok (seckey_public_key (kp_secret_key kp)) r) as (bs1 & -> & Hbs1). cbn [ok_or].
    rewrite (combine_to C bs1 C').
    2: { unfold sign_message in HC. destruct (point_mul_Ok B (kp_secret_key kp)) as (t & Ht & Hdt). rewrite Ht in HC.
         injection HC as <-. apply combine_eqg in HB. rewrite dlog_public in HB, Hbs1. rewrite HdC, Hbs1, Hdt, HB. ring_eqg. }
    cbn [ok_or]. rewrite HB. cbn [ok_or]. by eapply dleq_complete.
Qed.

(** C16. What the signatory issues can be spent: when a wallet blinds secrets
    and the signatory signs them all, the wallet can turn the signatures into
    proofs of the same amounts and secrets, the signatory accepts every one of
    them, and the DLEQ proof that comes with each verifies under the published
    key of its amount. *)
Theorem issued_proofs_accepted self kid info key nonce ms secrets rs sigs :
  sg_keysets self !! kid = Some (info, key) -> well_keyed key ->
  length rs = length secrets -> Forall2 (asks_for kid) ms (zip secrets rs) ->
  db_blind_sign self nonce ms = Ok sigs ->
  exists ps, construct_proofs sigs rs secrets (keys_of (mk_keys key)) = Ok ps /\
    Forall2 (fun mp p => good_proof self key mp.1 mp.2 p) (zip ms secrets) ps /\
    db_verify_proofs self ps = Ok tt.
Proof.
  intros Hk Hwk Hlen Hms Hs. unfold db_blind_sign in Hs. apply sign_all_Ok in Hs.
  assert (Hl1 : length sigs = length ms) by (symmetry; by eapply Forall2_length).
  assert (Hl2 : length ms = length secrets).
  { rewrite (Forall2_length _ _ _ Hms), length_zip_with. lia. }
  cut (exists ps, construct_loop (keys_of (mk_keys key)) (zip (zip sigs rs) secrets) = Ok ps /\
         Forall2 (fun mp p => good_proof self key mp.1 mp.2 p) (zip ms secrets) ps).
  { intros (ps & Hc & Hg). exists ps. unfold construct_proofs.
    rewrite Hl1, Hlen, Hl2, Nat.eqb_refl. cbn [negb orb]. do 2 (split; [done|]).
    apply db_verify_proofs_Ok. clear -Hg. induction Hg as [|[m sec] p l l' (_ & _ & _ & Hv & _) _ IH]; constructor; done. }
  clear Hl1 Hl2. revert secrets rs Hlen Hms. induction Hs as [|m s ms sigs (n & Hn) _ IH]; intros secrets rs Hlen Hms.
  - exists []. done.
  - destruct secrets as [|sec secrets], rs as [|r rs]; try done; [by inversion Hms|].
    inversion Hms as [|? ? ? ? [Hkid Hb] Hms']; subst.
    destruct (issued_proof_good self key info n m s sec r Hk Hwk Hb Hn) as (p & Hp & Hgood).
    destruct (IH secrets rs ltac:(cbn in Hlen; lia) Hms') as (ps & Hps & Hall).
    exists (p :: ps). cbn [zip zip_with construct_loop]. rewrite Hp, Hps. split; [done|]. by constructor.
Qed.

End signing.

(** ** Derivation *)
Section derivation.
Context {CR : Crypto} {CV : Curve CR} {BP : Bip32 CR}.

Lemma generate_keys_well {E} xp amounts : forall i (m m' : gmap N MintKeyPair),
  (forall a kp, m !! a = Some kp -> kp_public_key kp = seckey_public_key (kp_secret_key kp)) ->
  generate_keys (E:=E) xp i amounts m = Ok m' ->
  forall a kp, m' !! a = Some kp -> kp_public_key kp = seckey_public_key (kp_secret_key kp).
Proof.
  induction amounts as [|x amounts IH]; intros i m m' Hm H; cbn [generate_keys] in H; [by injection H as <-|].
  destruct (from_hardened_idx (i mod 2 ^ 32)) as [ch|]; [|done]. cbn [expect] in H.
  destruct (derive_priv xp [ch]) as [d|]; [|done]. cbn [expect] in H.
  eapply IH; [|exact H]. intros a kp. rewrite lookup_insert. case_decide; [by intros [= <-]|apply Hm].
Qed.

Lemma generate_well_keyed {E} xp u amounts expiry v key : generate (E:=E) xp u amounts expiry v = Ok key -> well_keyed key.
Proof.
  unfold generate. intros H. destruct (generate_keys xp 0 amounts ∅) as [keys| |] eqn:Hk; [|done..].
  destruct (unwrap _) as [i| |]; [|done..]. injection H as <-. intros a kp Ha. cbn in Ha.
  eapply generate_keys_well; [|exact Hk|exact Ha]. intros ? ?. by rewrite lookup_empty.
Qed.

Lemma derived_id_version v keys u expiry i : derived_id v keys u expiry = Ok i -> version i = v.
Proof.
  destruct v; cbn [derived_id]; unfold v1_from_keys, v2_from_data; intros H;
    (destruct (hash_prefix _ _ _) as [b| |]; [|done..]); by injection H as <-.
Qed.

Lemma verify_id_iff ks :
  verify_id ks = Ok tt <->
  derived_id (version (kset_id ks)) (kset_keys ks) (kset_unit ks) (kset_final_expiry ks) = Ok (kset_id ks).
Proof.
  unfold verify_id. destruct (derived_id _ _ _ _) as [i| |]; [|done..]. unfold ensure.
  destruct (id_to_u32 i =? id_to_u32 (kset_id ks)) eqn:He.
  - case_bool_decide; split; intros; congruence.
  - split; [done|]. intros [= ->]. by rewrite N.eqb_refl in He.
Qed.

(** A wallet that checks the id of a published keyset accepts every keyset
    that the signatory derives, of either version; and it accepts no other
    keys, unit and expiry under that id unless they hash to the same id. *)
Theorem published_keyset_verifies xp u amounts expiry v ks
    (H : generate (E:=MError) xp u amounts expiry v = Ok ks) :
  verify_id (public_keyset ks) = Ok tt /\
  (forall ks', kset_id ks' = mk_id ks -> verify_id ks' = Ok tt ->
     derived_id v (kset_keys ks') (kset_unit ks') (kset_final_expiry ks') = derived_id v (keys_of (mk_keys ks)) u expiry).
Proof.
  unfold generate in H. destruct (generate_keys xp 0 amounts ∅) as [keys| |]; [|done..].
  destruct (derived_id v (keys_of keys) u expiry) as [i| |] eqn:Hi; [|done..]. injection H as <-.
  pose proof (derived_id_version _ _ _ _ _ Hi) as Hv. split.
  - apply verify_id_iff. cbn. by rewrite Hv.
  - intros ks' Hid Hk%verify_id_iff. cbn [mk_id mk_keys] in *. rewrite Hid, Hv in Hk. by rewrite Hk, <- Hi.
Qed.

(** A keyset is determined by its row: the signatory in memory agrees with the
    table when every row, and nothing else, is loaded with the keys it derives. *)
Definition derived_from (xp : xpriv) (i : MintKeySetInfo) (key : MintKeySet) : Prop :=
  generate_from_xpriv (E:=MError) xp (in_amounts i) (in_unit i) (in_derivation_path i) (in_final_expiry i)
    (version (in_id i)) = Ok key.

Definition keys_in_memory (xp : xpriv) (ks : gmap string (MintKeySetInfo * MintKeySet)) : Prop :=
  forall kid i key, ks !! kid = Some (i, key) -> kid = id_to_string (in_id i) /\ derived_from xp i key.

Lemma derived_well_keyed xp i key : derived_from xp i key -> well_keyed key.
Proof.
  unfold derived_from, generate_from_xpriv. destruct (derive_priv xp _); [|done]. cbn [expect]. apply generate_well_keyed.
Qed.

End derivation.
(** ** Units as text *)

Lemma to_lowercase_upper t : to_lowercase (to_uppercase t) = to_lowercase t.
Proof. induction t as [|[[] [] [] [] [] [] [] []] t IH]; cbn [to_lowercase to_uppercase]; f_equal; done. Qed.

(** A text in lower case is the text of the unit it is read as. *)
Lemma unit_text_roundtrip t : to_lowercase t = t -> unit_to_string (currency_from_str t) = t.
Proof.
  intros Ht. pose proof (to_lowercase_upper t) as Hu. rewrite Ht in Hu. unfold currency_from_str.
  repeat match goal with
  | |- context [String.eqb ?a ?b] => destruct (String.eqb_spec a b) as [He|_]; [rewrite He in Hu; exact Hu|]
  end. exact Ht.
Qed.

Lemma unit_text_lower u : to_lowercase (unit_to_string u) = unit_to_string u.
Proof. apply Hex.to_lowercase_idem. Qed.

(** ** The keyset table *)
Section table.
Context {CR : Crypto} {CV : Curve CR} {BP : Bip32 CR}.
Local Open Scope mint_scope.

(** The id of a keyset is the one of the keys that some seed gives for its
    amounts along its path. *)
Definition id_derived (i : MintKeySetInfo) : Prop :=
  exists xp derived keys, derive_priv xp (in_derivation_path i) = Some derived /\
    generate_keys (E:=MError) derived 0 (in_amounts i) ∅ = Ok keys /\ v1_from_keys (keys_of keys) = Ok (in_id i).

(** Rows are stored under their own id, with the text of a unit, and with an id
    that is derived from their keys; at most one keyset per unit is active. *)
Definition row_ok (k : string) (r : KeysetRow) : Prop :=
  k = id_to_string (in_id (kr_info r)) /\ to_lowercase (kr_unit r) = kr_unit r /\ id_derived (kr_info r).

Definition one_active (db : KeyDb) : Prop :=
  forall k1 k2 r1 r2, db !! k1 = Some r1 -> db !! k2 = Some r2 ->
    in_active (kr_info r1) = true -> in_active (kr_info r2) = true -> kr_unit r1 = kr_unit r2 -> k1 = k2.

Definition table_ok (db : KeyDb) : Prop := map_Forall row_ok db /\ one_active db.

(** The table after a keyset was added and made the active one. *)
Definition activated (u : Amount.CurrencyUnit) (i : MintKeySetInfo) (db : KeyDb) : KeyDb :=
  map_imap (fun k r => Some (activate (unit_to_string u) (id_to_string (in_id i)) k r))
    (<[id_to_string (in_id i) := mkKeysetRow (unit_to_string (in_unit i)) i]> db).

Lemma lookup_activated u i db k :
  activated u i db !! k =
  activate (unit_to_string u) (id_to_string (in_id i)) k <$>
    (<[id_to_string (in_id i) := mkKeysetRow (unit_to_string (in_unit i)) i]> db) !! k.
Proof. unfold activated. etrans; [apply (map_lookup_imap (M:=gmap string))|]. by destruct (_ !! k). Qed.

Lemma activate_row_ok u id k r : row_ok k r -> row_ok k (activate u id k r).
Proof. unfold activate. destruct (String.eqb (kr_unit r) u); done. Qed.

Lemma activated_ok u i db : in_unit i = u -> id_derived i -> table_ok db -> table_ok (activated u i db).
Proof.
  intros Hu Hi [Hrow Hone]. split.
  - intros k r. rewrite lookup_activated. intros (r0 & Hr0 & ->)%fmap_Some. apply activate_row_ok.
    apply lookup_insert_Some in Hr0 as [[<- <-]|[_ Hr0]]; [|by apply Hrow].
    split_and!; [done|apply unit_text_lower|done].
  - intros k1 k2 r1 r2. rewrite !lookup_activated. intros (s1 & H1 & ->)%fmap_Some (s2 & H2 & ->)%fmap_Some.
    unfold activate. destruct (String.eqb_spec (kr_unit s1) (unit_to_string u)) as [E1|E1],
      (String.eqb_spec (kr_unit s2) (unit_to_string u)) as [E2|E2]; cbn [kr_info kr_unit in_active set_active]; try congruence.
    + intros ->%String.eqb_eq ->%String.eqb_eq _. done.
    + apply lookup_insert_Some in H1 as [[_ <-]|[_ H1]]; [cbn in E1; congruence|].
      apply lookup_insert_Some in H2 as [[_ <-]|[_ H2]]; [cbn in E2; congruence|]. by apply Hone.
Qed.

(** Turning a row off keeps the table in order. *)
Lemma deactivated_ok db i :
  id_derived i -> table_ok db ->
  table_ok (<[id_to_string (in_id i) := mkKeysetRow (unit_to_string (in_unit i)) (set_active i false)]> db).
Proof.
  intros Hi [Hrow Hone]. split.
  - apply map_Forall_insert_2; [|done]. split_and!; [done|apply unit_text_lower|done].
  - intros k1 k2 r1 r2 [[<- <-]|[_ H1]]%lookup_insert_Some [[<- <-]|[_ H2]]%lookup_insert_Some; try done. by apply Hone.
Qed.

(** Computations that keep the committed table in order, and the open one when
    they succeed. *)
Definition keeps_table {A} (c : Kt A) : Prop :=
  forall w r w', c w = (r, w') -> table_ok (k_store w) -> table_ok (k_tx w) ->
    table_ok (k_store w') /\ (forall a, r = Ok a -> table_ok (k_tx w')).

Lemma kt_mseq {A B} (c : Kt A) (k : A -> Kt B) : keeps_table c -> (forall a, keeps_table (k a)) -> keeps_table (mseq c k).
Proof.
  intros Hc Hk w r w' H Hs Ht. unfold mseq in H. destruct (c w) as [[a|e|] w1] eqn:Hcw.
  - destruct (Hc _ _ _ Hcw Hs Ht) as [Hs1 Ht1]. eapply Hk; eauto.
  - injection H as <- <-. destruct (Hc _ _ _ Hcw Hs Ht). done.
  - injection H as <- <-. destruct (Hc _ _ _ Hcw Hs Ht). done.
Qed.

Lemma kt_mlift {A} (r : res MError A) : keeps_table (mlift r).
Proof. intros w r' w' H. injection H as <- <-. done. Qed.
Lemma kt_mlift_seq {A B} (r : res MError A) (k : A -> Kt B) :
  (forall a, r = Ok a -> keeps_table (k a)) -> keeps_table (mseq (mlift r) k).
Proof.
  intros Hk w r' w' H. unfold mseq, mlift in H. destruct r as [a| |]; [by eapply Hk|injection H as <- <-; done..].
Qed.
Lemma kt_mret {A} (a : A) : keeps_table (mret a).
Proof. apply (kt_mlift (Ok a)). Qed.
Lemma kt_mgets {A} (f : KWorld -> A) : keeps_table (mgets f).
Proof. intros w r' w' H. injection H as <- <-. done. Qed.

Lemma kt_set_sig (f : KWorld -> DbSignatory) :
  keeps_table (mmodify (fun w => mkKWorld (k_store w) (k_tx w) (k_faults w) (f w))).
Proof. intros w r' w' H. injection H as <- <-. done. Qed.

Lemma kt_faulty {A} (c : M KWorld DbError A) :
  (forall w r w', c w = (r, w') -> table_ok (k_store w) -> table_ok (k_tx w) ->
     table_ok (k_store w') /\ (forall a, r = Ok a -> table_ok (k_tx w'))) -> keeps_table (k_faulty c).
Proof.
  intros Hc w r w' H Hs Ht. unfold k_faulty, mmap_err in H.
  destruct (k_faults w) as [|[] f]; cbn in H.
  - destruct (c w) as [r0 w0] eqn:Hcw. cbn in H. injection H as <- <-. destruct (Hc _ _ _ Hcw Hs Ht) as [H1 H2].
    split; [done|]. intros a Ha. by destruct r0; simplify_eq/=; eapply H2.
  - injection H as <- <-. done.
  - destruct (c _) as [r0 w0] eqn:Hcw. cbn in H. injection H as <- <-. destruct (Hc _ _ _ Hcw Hs Ht) as [H1 H2].
    split; [done|]. intros a Ha. by destruct r0; simplify_eq/=; eapply H2.
Qed.

Lemma kt_begin : keeps_table k_begin.
Proof. apply kt_faulty. intros w r w' H. injection H as <- <-. done. Qed.
Lemma kt_commit : keeps_table k_commit.
Proof. apply kt_faulty. intros w r w' H. injection H as <- <-. done. Qed.
(** What is read comes from a table in order. *)
Lemma kt_read_seq {A B} (f : KeyDb -> res DbError A) (k : A -> Kt B) :
  (forall db a, table_ok db -> f db = Ok a -> keeps_table (k a)) -> keeps_table (mseq (k_read f) k).
Proof.
  intros Hk w r w' H Hs Ht. unfold mseq, k_read, k_faulty, mmap_err in H. destruct (k_faults w) as [|[] fl]; cbn in H.
  - destruct (f (k_store w)) as [a| |] eqn:Hf; cbn in H; [|by injection H as <- <-..]. eapply (Hk _ _ Hs Hf _ _ _ H); done.
  - by injection H as <- <-.
  - destruct (f (k_store w)) as [a| |] eqn:Hf; cbn in H; [|by injection H as <- <-..]. eapply (Hk _ _ Hs Hf _ _ _ H); done.
Qed.
Lemma infos_derived db infos : table_ok db -> get_keyset_infos db = Ok infos -> Forall id_derived infos.
Proof.
  intros [Hrow _] H%collect_Ok. apply Forall_forall. intros i [j Hj]%list_elem_of_lookup.
  destruct (Forall2_lookup_r _ _ _ _ _ H Hj) as (r & Hr & Hi). apply list_elem_of_lookup_2, list_elem_of_fmap in Hr as ([k r'] & -> & Hin).
  apply elem_of_map_to_list, Hrow in Hin as (_ & _ & Hd). unfold sql_row_to_keyset_info in Hi. destruct (signed_ok _); [|done].
  by injection Hi as <-.
Qed.
Lemma kt_read {A} (f : KeyDb -> res DbError A) : keeps_table (k_read f).
Proof. apply kt_faulty. intros w r w' H. injection H as <- <-. done. Qed.

Lemma k_call_Ok {A} (op : M KeyDb DbError A) w a w' :
  k_call op w = (Ok a, w') -> op (k_tx w) = (Ok a, k_tx w') /\ k_store w' = k_store w.
Proof.
  unfold k_call, k_faulty, mmap_err. intros H.
  destruct (k_faults w) as [|[] f]; cbn in H; [|done|];
    (destruct (op (k_tx w)) as [[] t]; simplify_eq/=; done).
Qed.

Lemma k_call_store {A} (op : M KeyDb DbError A) w r w' : k_call op w = (r, w') -> k_store w' = k_store w.
Proof.
  unfold k_call, k_faulty, mmap_err. intros H.
  destruct (k_faults w) as [|[] f]; cbn in H; simplify_eq/=; try done;
    (destruct (op (k_tx w)) as [? t]; by simplify_eq/=).
Qed.

(** A new keyset and its activation, as one step. *)
Lemma kt_activate {A} u i (k : Kt A) :
  in_unit i = u -> id_derived i -> keeps_table k ->
  keeps_table (do_ k_call (add_keyset_info i) ; do_ k_call (set_active_keyset u (in_id i)) ; k).
Proof.
  intros Hu Hi Hk w r w' H Hs Ht. unfold mseq at 1 in H.
  destruct (k_call (add_keyset_info i) w) as [[[]|e|] w1] eqn:H1;
    [|injection H as <- <-; by rewrite (k_call_store _ _ _ _ H1)..].
  apply k_call_Ok in H1 as [[= H1] Hs1]. unfold mseq in H.
  destruct (k_call (set_active_keyset u (in_id i)) w1) as [[[]|e|] w2] eqn:H2;
    [|injection H as <- <-; by rewrite (k_call_store _ _ _ _ H2), Hs1..].
  apply k_call_Ok in H2 as [[= H2] Hs2]. eapply Hk; [exact H|by rewrite Hs2, Hs1|].
  rewrite <- H2, <- H1. by apply (activated_ok u i).
Qed.

Lemma kt_mfor {A} (f : A -> Kt unit) l : (forall x, x ∈ l -> keeps_table (f x)) -> keeps_table (mfor f l).
Proof.
  induction l as [|x l IH]; intros Hf; cbn [mfor]; [apply kt_mret|].
  apply kt_mseq; [apply Hf; set_solver|]. intros _. apply IH. intros; apply Hf; set_solver.
Qed.

End table.

#[export] Hint Resolve kt_mseq kt_mlift kt_mret kt_mgets kt_set_sig kt_begin kt_commit kt_read kt_activate kt_mfor : keyset.

(** ** Rotation and start-up *)
Section rotation.
Context {CR : Crypto} {CV : Curve CR} {BP : Bip32 CR}.
Local Open Scope mint_scope.

Lemma create_new_keyset_Ok {E} now xp path index u amounts fee expiry keyset info :
  create_new_keyset (E:=E) now xp path index u amounts fee expiry = Ok (keyset, info) ->
  in_unit info = u /\ mk_unit keyset = u /\ in_id info = mk_id keyset /\ in_amounts info = amounts /\
  in_derivation_path info = path /\ in_derivation_path_index info = index /\ in_input_fee_ppk info = fee /\
  in_final_expiry info = expiry /\ in_active info = true /\ in_valid_from info = now /\
  exists derived, derive_priv xp path = Some derived /\ generate (E:=E) derived u amounts expiry Version00 = Ok keyset.
Proof.
  unfold create_new_keyset. intros H. destruct (derive_priv xp path) as [d|]; [|done]. cbn [expect] in H.
  destruct (generate d u amounts expiry Version00) as [k| |] eqn:Hg; [|done..]. injection H as <- <-.
  assert (Hk : mk_unit k = u /\ mk_final_expiry k = expiry).
  { unfold generate in Hg. destruct (generate_keys d 0 amounts ∅); [|done..]. destruct (unwrap _); [|done..]. by injection Hg as <-. }
  destruct Hk as [Hk1 Hk2]. cbn. rewrite Hk1, Hk2. eauto 15.
Qed.

Lemma generate_keys_any {E F} xp amounts : forall i m keys,
  generate_keys (E:=E) xp i amounts m = Ok keys -> generate_keys (E:=F) xp i amounts m = Ok keys.
Proof.
  induction amounts as [|a amounts IH]; intros i m keys; cbn [generate_keys]; [by intros [= ->]|].
  destruct (from_hardened_idx _) as [c|]; [|done]. cbn [expect]. destruct (derive_priv xp [c]) as [d|]; [|done]. apply IH.
Qed.

Lemma create_new_derived {E} now xp path index u amounts fee expiry keyset info :
  create_new_keyset (E:=E) now xp path index u amounts fee expiry = Ok (keyset, info) -> id_derived info.
Proof.
  unfold create_new_keyset, id_derived. intros H. destruct (derive_priv xp path) as [d|] eqn:Hd; [|done]. cbn [expect] in H.
  unfold generate in H. destruct (generate_keys (E:=E) d 0 amounts ∅) as [keys| |] eqn:Hg; [|done..].
  cbn [derived_id] in H. destruct (v1_from_keys (keys_of keys)) as [id| |] eqn:Hv; [|done..]. injection H as <- <-.
  exists xp, d, keys. split_and!; [done| |done]. by eapply generate_keys_any.
Qed.

Lemma kt_reload : keeps_table reload_keys_from_db.
Proof. unfold reload_keys_from_db. auto 10 with keyset. Qed.

Lemma kt_next_index u : keeps_table (next_index u).
Proof. unfold next_index. apply kt_mseq; [auto with keyset|]. intros [id|]; auto 10 with keyset. Qed.

Lemma kt_rotate now args : keeps_table (rotate_keyset now args).
Proof.
  unfold rotate_keyset. apply kt_mseq; [apply kt_next_index|]. intros index.
  apply kt_mseq; [auto with keyset|]. intros self. apply kt_mseq; [auto with keyset|]. intros path.
  apply kt_mlift_seq. intros [keyset info] Hc.
  apply kt_mseq; [apply kt_begin|]. intros _. apply kt_activate.
  - by apply create_new_keyset_Ok in Hc as (? & _).
  - by eapply create_new_derived.
  - auto using kt_reload with keyset.
Qed.

Lemma by_unit_units infos u l i : by_unit infos !! u = Some l -> i ∈ l -> in_unit i = u /\ i ∈ infos.
Proof.
  unfold by_unit. assert (Hgen : forall all (acc : gmap Amount.CurrencyUnit (list MintKeySetInfo)), infos ⊆ all ->
    (forall u l i, acc !! u = Some l -> i ∈ l -> in_unit i = u /\ i ∈ all) ->
    forall u l i, fold_left (fun acc ks => <[in_unit ks := default [] (acc !! in_unit ks) ++ [ks]]> acc) infos acc !! u = Some l ->
      i ∈ l -> in_unit i = u /\ i ∈ all).
  { intros all. induction infos as [|ks infos IH]; intros acc Hsub Hacc; cbn [fold_left]; [exact Hacc|]. apply IH; [set_solver|].
    intros u' l' i'. rewrite lookup_insert. case_decide as Hd; [|apply Hacc]. intros [= <-].
    rewrite elem_of_app, list_elem_of_singleton. intros [Hin| ->]; [|split; [done|set_solver]]. subst u'.
    destruct (acc !! in_unit ks) as [l0|] eqn:Hl0; [by eapply Hacc|]. by apply not_elem_of_nil in Hin. }
  apply Hgen; [done|]. intros ? ? ?. by rewrite lookup_empty.
Qed.

Lemma elem_of_insert_desc x y l : x ∈ insert_desc y l <-> x = y \/ x ∈ l.
Proof.
  induction l as [|z l IH]; cbn [insert_desc]; [by rewrite list_elem_of_singleton, elem_of_nil; naive_solver|].
  destruct (index_le _ _); rewrite !elem_of_cons; [done|]. rewrite IH. naive_solver.
Qed.

Lemma elem_of_sort_desc x l : x ∈ sort_desc l <-> x ∈ l.
Proof. induction l as [|y l IH]; cbn; [done|]. by rewrite elem_of_insert_desc, IH, elem_of_cons. Qed.

Lemma kt_init_unit now xp supported paths u keysets :
  (forall i, i ∈ keysets -> in_unit i = u /\ id_derived i) -> keeps_table (init_unit now xp supported paths u keysets).
Proof.
  intros Hu. unfold init_unit. apply kt_mlift_seq. intros highest Hh.
  assert (Hhu : in_unit highest = u /\ id_derived highest).
  { apply Hu, elem_of_sort_desc. destruct (sort_desc keysets); [done|]. injection Hh as <-. set_solver. }
  destruct (supported !! u) as [[fee max_order]|]; [|auto with keyset]. destruct (_ && _).
  - destruct Hhu as [Hu1 Hd1]. apply kt_mlift_seq. intros key _. apply (kt_activate u (set_active highest true)); auto with keyset.
  - apply kt_mlift_seq. intros path _. apply kt_mlift_seq. intros [keyset info] Hc. pose proof (create_new_derived _ _ _ _ _ _ _ _ _ _ Hc).
    apply create_new_keyset_Ok in Hc as (Hc & _). apply (kt_activate u info); auto with keyset.
Qed.

Lemma kt_init_units now xp supported paths l :
  (forall u keysets i, (u, keysets) ∈ l -> i ∈ keysets -> in_unit i = u /\ id_derived i) -> keeps_table (init_units now xp supported paths l).
Proof.
  induction l as [|[u keysets] l IH]; intros Hl; cbn [init_units]; [auto with keyset|].
  apply kt_mseq; [apply kt_init_unit; intros; eapply Hl; [|done]; set_solver|]. intros active.
  apply kt_mseq; [apply IH; intros; eapply Hl; [|done]; set_solver|auto with keyset].
Qed.

Lemma kt_deactivate i : id_derived i -> keeps_table (k_call (add_keyset_info (set_active i false))).
Proof.
  intros Hi. apply kt_faulty. intros w r w' H Hs Ht. injection H as <- <-. split; [done|]. intros _ _. by apply deactivated_ok.
Qed.

Lemma kt_create_for_unit now xp paths units kv : keeps_table (create_for_unit now xp paths units kv).
Proof.
  destruct kv as [u [fee max_order]]. unfold create_for_unit. case_bool_decide; [auto with keyset|].
  apply kt_mlift_seq. intros path _. apply kt_mlift_seq. intros [keyset info] Hc. pose proof (create_new_derived _ _ _ _ _ _ _ _ _ _ Hc).
  apply create_new_keyset_Ok in Hc as (Hc & _).
  intros w r w' Hw. eapply (kt_activate u info (mret tt)); [done|done|auto with keyset|].
  rewrite <- Hw. unfold mseq. destruct (k_call (add_keyset_info (snd (keyset, info))) w) as [[[]|e|] w1] eqn:H1; cbn [snd] in H1; rewrite H1; [|done..].
  cbn [snd]. by destruct (k_call (set_active_keyset u (in_id info)) w1) as [[[]|e|] w2].
Qed.

Lemma kt_init_keysets now xp supported paths : keeps_table (init_keysets now xp supported paths).
Proof.
  unfold init_keysets. apply kt_read_seq. intros db infos Hok Hinfos. pose proof (infos_derived _ _ Hok Hinfos) as Hd.
  rewrite Forall_forall in Hd. apply kt_mseq; [auto with keyset|]. intros _.
  apply kt_mseq; [apply kt_mfor; intros i Hi; by apply kt_deactivate, Hd|]. intros _.
  apply kt_mseq; [|auto with keyset]. apply kt_init_units.
  intros u keysets i Hin Hi. apply elem_of_map_to_list in Hin. destruct (by_unit_units _ _ _ _ Hin Hi). split; [done|]. by apply Hd.
Qed.

Lemma kt_new now xp supported paths : keeps_table (new_signatory now xp supported paths).
Proof.
  unfold new_signatory. apply kt_mseq; [apply kt_init_keysets|].
  intros units. apply kt_mseq; [auto with keyset|]. intros _.
  apply kt_mseq; [apply kt_mfor; intros; apply kt_create_for_unit|]. intros _.
  auto using kt_reload with keyset.
Qed.

(** The signatory over time: starts with any configuration and rotations, each
    under its own schedule of faults. *)
Inductive KeyEvent :=
| Start (now : N) (xp : xpriv) (supported : gmap Amount.CurrencyUnit (N * N)) (paths : gmap Amount.CurrencyUnit DerivationPath)
| Rotate (now : N) (args : RotateKeyArguments).

Definition key_step (e : list bool * KeyEvent) (w : KWorld) : KWorld :=
  let w := mkKWorld (k_store w) (k_store w) e.1 (k_sig w) in
  match e.2 with
  | Start now xp supported paths => snd (new_signatory now xp supported paths w)
  | Rotate now args => snd (rotate_keyset now args w)
  end.

(** C13. At most one keyset per unit is active in the table, whatever starts
    with whatever configuration, rotations and database faults there have
    been; every row is stored under its own id, and the id is the one of the
    keys that a seed gives for the row's amounts along the row's path. *)
Theorem one_active_keyset_per_unit events w :
  table_ok (k_store w) -> table_ok (k_store (fold_left (fun w e => key_step e w) events w)).
Proof.
  revert w. induction events as [|[f e] events IH]; intros w Hw; cbn [fold_left]; [done|]. apply IH.
  unfold key_step. cbn [fst snd]. destruct e as [now xp supported paths|now args].
  - destruct (new_signatory now xp supported paths _) as [r w'] eqn:H. by apply (kt_new _ _ _ _ _ _ _ H).
  - destruct (rotate_keyset now args _) as [r w'] eqn:H. by apply (kt_rotate _ _ _ _ _ H).
Qed.

End rotation.
End KeysetFacts.
