(* ===== verification/RotationFacts.v ===== *)
(** * Keyset rotation

    What the signatory holds in memory after a reload is what the table says:
    the keys derived from each row, and the row's active flag.  A rotation
    therefore adds one keyset, takes the right to sign from the other keysets
    of the unit, and leaves every keyset able to verify. *)
From stdpp Require Import base numbers list sorting strings gmap.
From S2P Require Import Prelude Amount Hex Nuts KeysetId Bdhke Conditions Spending States MintDb Mint MintFacts Keysets KeysetFacts.
Import Nut00 KeysetId Bdhke BdhkeFacts MintDb Mint MintFacts Keysets KeysetFacts.

Local Open Scope N_scope.
Local Open Scope res_scope.

Module RotationFacts.
Section facts.
Context {CR : Crypto} {CV : Curve CR} {BP : Bip32 CR}.
Local Open Scope mint_scope.

(** ** What a reload loads *)

(** The entry in memory for a row of the table. *)
Definition row_entry (xp : xpriv) (r : KeysetRow) (e : MintKeySetInfo * MintKeySet) : Prop :=
  sql_row_to_keyset_info r = Ok e.1 /\ derived_from xp e.1 e.2.

Definition loaded (db : KeyDb) (self : DbSignatory) : Prop :=
  forall kid, option_Forall2 (row_entry (sg_xpriv self)) (db !! kid) (sg_keysets self !! kid).

Lemma loaded_well_keyed db self (kid : string) e : loaded db self -> sg_keysets self !! kid = Some e -> well_keyed e.2.
Proof.
  intros Hl He. specialize (Hl kid). rewrite He in Hl. inversion Hl as [r ? [_ Hd]|]; subst. by eapply derived_well_keyed.
Qed.

Lemma fold_active_spec (l : list (string * KeysetRow)) (acc : gmap Amount.CurrencyUnit KeyId) u :
  let act := fold_left (fun m kr => if in_active (kr_info kr.2)
                                    then <[currency_from_str (kr_unit kr.2) := in_id (kr_info kr.2)]> m else m) l acc in
  (exists kr, kr ∈ l /\ in_active (kr_info kr.2) = true /\ currency_from_str (kr_unit kr.2) = u /\
     act !! u = Some (in_id (kr_info kr.2))) \/
  (act !! u = acc !! u /\ forall kr, kr ∈ l -> in_active (kr_info kr.2) = true -> currency_from_str (kr_unit kr.2) <> u).
Proof.
  revert acc. induction l as [|kr l IH]; intros acc; cbn [fold_left]; [right; split; [done|set_solver]|].
  destruct (IH (if in_active (kr_info kr.2) then <[currency_from_str (kr_unit kr.2):=in_id (kr_info kr.2)]> acc else acc))
    as [(kr' & Hin & H)|[Ha Hn]]; [left; exists kr'; set_solver|].
  destruct (in_active (kr_info kr.2)) eqn:Hact.
  - destruct (decide (currency_from_str (kr_unit kr.2) = u)) as [Hu|Hu].
    + left. exists kr. split; [set_solver|]. do 2 (split; [done|]). etrans; [exact Ha|]. rewrite Hu. apply lookup_insert_eq.
    + right. split; [etrans; [exact Ha|]; by rewrite lookup_insert_ne|].
      intros kr' [->|Hin]%elem_of_cons; [done|by apply Hn].
  - right. split; [exact Ha|]. intros kr' [->|Hin]%elem_of_cons; [congruence|by apply Hn].
Qed.

(** In a table in order the active keyset of a unit is the row marked active. *)
Lemma active_iff db act kid r :
  table_ok db -> get_active_keysets_of_db db = Ok act -> db !! kid = Some r ->
  bool_decide (act !! currency_from_str (kr_unit r) = Some (in_id (kr_info r))) = in_active (kr_info r).
Proof.
  intros [Hrow Hone] [= <-] Hr.
  assert (Hunit : forall kid' r', db !! kid' = Some r' -> currency_from_str (kr_unit r') = currency_from_str (kr_unit r) ->
    kr_unit r' = kr_unit r).
  { intros kid' r' (_ & Hl' & _)%Hrow He. pose proof (Hrow _ _ Hr) as (_ & Hl & _).
    by rewrite <- (unit_text_roundtrip (kr_unit r') Hl'), <- (unit_text_roundtrip (kr_unit r) Hl), He. }
  destruct (fold_active_spec (map_to_list db) ∅ (currency_from_str (kr_unit r)))
    as [([k' r'] & Hin & Ha & Hu & Hl)|[Hl Hn]]; cbn [snd] in *.
  - apply elem_of_map_to_list in Hin. rewrite Hl. specialize (Hunit _ _ Hin Hu). case_bool_decide as Hd.
    + injection Hd as Hd. assert (k' = kid) as -> by (by rewrite (proj1 (Hrow _ _ Hin)), (proj1 (Hrow _ _ Hr)), Hd).
      by injection (eq_trans (eq_sym Hr) Hin) as <-.
    + symmetry. apply not_true_is_false. intros Hra. apply Hd. rewrite (Hone _ _ _ _ Hin Hr Ha Hra Hunit) in Hin.
      by injection (eq_trans (eq_sym Hin) Hr) as ->.
  - rewrite Hl, lookup_empty. rewrite bool_decide_eq_false_2 by done. symmetry. apply not_true_is_false. intros Hra.
    apply (Hn (kid, r)); [by apply elem_of_map_to_list|done..].
Qed.

Lemma reload_loop_Ok act infos : forall self self',
  NoDup ((fun i => id_to_string (in_id i)) <$> infos) ->
  reload_loop (E:=MError) self act infos = Ok self' ->
  sg_xpriv self' = sg_xpriv self /\ sg_custom_paths self' = sg_custom_paths self /\
  (forall i, i ∈ infos -> exists key, derived_from (sg_xpriv self) i key /\
     sg_keysets self' !! id_to_string (in_id i) =
       Some (Keysets.set_active i (bool_decide (act !! in_unit i = Some (in_id i))), key)) /\
  (forall kid, kid ∉ ((fun i => id_to_string (in_id i)) <$> infos) -> sg_keysets self' !! kid = sg_keysets self !! kid).
Proof.
  induction infos as [|i infos IH]; intros self self' Hnd H; cbn [reload_loop fmap list_fmap] in *.
  { injection H as <-. split_and!; [done..| |done]. intros i Hi. by apply not_elem_of_nil in Hi. }
  apply NoDup_cons in Hnd as [Hni Hnd]. unfold generate_keyset in H.
  destruct (generate_from_xpriv (sg_xpriv self) _ _ _ _ _) as [key| |] eqn:Hg; [|done..].
  apply IH in H as (Hx & Hc & Hi & Hk); [|done]. cbn [sg_xpriv sg_custom_paths sg_keysets in_id Keysets.set_active] in *.
  split_and!; [done|done| |].
  - intros j [->|Hj]%elem_of_cons; [|by apply Hi]. exists key. split; [done|]. rewrite Hk by done. apply lookup_insert_eq.
  - intros kid Hn%not_elem_of_cons. rewrite Hk by (by destruct Hn). apply lookup_insert_ne. naive_solver.
Qed.

Lemma row_info_Ok r i : sql_row_to_keyset_info r = Ok i -> i = set_unit (kr_info r) (currency_from_str (kr_unit r)).
Proof. unfold sql_row_to_keyset_info. destruct (signed_ok _); [|done]. by intros [= <-]. Qed.

Lemma info_ids (l : list (string * KeysetRow)) infos :
  Forall (fun kr => row_ok kr.1 kr.2) l -> Forall2 (fun r i => sql_row_to_keyset_info r = Ok i) l.*2 infos ->
  (fun i => id_to_string (in_id i)) <$> infos = l.*1.
Proof.
  revert infos. induction l as [|[k r] l IH]; intros infos Hl H; inversion H as [|? i ? infos' Hi H']; subst; [done|].
  apply Forall_cons in Hl as [[Hk _] Hl]. cbn. f_equal; [|by apply IH].
  apply row_info_Ok in Hi as ->. by cbn in Hk; rewrite Hk.
Qed.

(** The loop over all rows loads every row, and nothing else. *)
Lemma reload_rows db act infos self self' :
  table_ok db -> get_active_keysets_of_db db = Ok act -> get_keyset_infos db = Ok infos -> sg_keysets self = ∅ ->
  reload_loop (E:=MError) self act infos = Ok self' -> loaded db self' /\ sg_xpriv self' = sg_xpriv self.
Proof.
  intros Hok Hact Hinfos Hempty Hl. unfold get_keyset_infos in Hinfos. apply collect_Ok in Hinfos.
  assert (Hids : (fun i => id_to_string (in_id i)) <$> infos = (map_to_list db).*1).
  { apply info_ids; [|done]. apply Forall_forall. intros [k r] Hin. apply elem_of_map_to_list in Hin. by apply (proj1 Hok). }
  apply reload_loop_Ok in Hl as (Hx & _ & Hi & Hk); [|rewrite Hids; apply NoDup_fst_map_to_list].
  split; [|done]. intros kid. destruct (db !! kid) as [r|] eqn:Hr.
  - assert (exists i, i ∈ infos /\ sql_row_to_keyset_info r = Ok i) as (i & Hin & Hri).
    { apply elem_of_map_to_list, (list_elem_of_fmap_2 snd), list_elem_of_lookup_1 in Hr as [j Hj].
      destruct (Forall2_lookup_l _ _ _ _ _ Hinfos Hj) as (i & Hij & Hi'). exists i. split; [|done].
      by eapply list_elem_of_lookup_2. }
    pose proof (row_info_Ok _ _ Hri) as Hi'. destruct (Hi i Hin) as (key & Hd & Hlk).
    assert (Hactive : bool_decide (act !! in_unit i = Some (in_id i)) = in_active (kr_info r)).
    { rewrite Hi'. by eapply active_iff. }
    rewrite Hactive in Hlk. assert (Hkid : id_to_string (in_id i) = kid) by (rewrite Hi'; symmetry; by apply Hok).
    rewrite Hkid in Hlk. rewrite Hlk. constructor. assert (Keysets.set_active i (in_active (kr_info r)) = i) as ->.
    { rewrite Hi'. by destruct (kr_info r). }
    split; [done|]. by rewrite Hx.
  - rewrite Hk, Hempty, lookup_empty; [constructor|]. rewrite Hids.
    intros Hin. apply list_elem_of_fmap in Hin as ([k r] & -> & Hin). apply elem_of_map_to_list in Hin. discriminate (eq_trans (eq_sym Hin) Hr).
Qed.

Lemma k_read_Ok {A} (f : KeyDb -> res DbError A) w a w' :
  k_read f w = (Ok a, w') -> f (k_store w) = Ok a /\ k_store w' = k_store w /\ k_tx w' = k_tx w /\ k_sig w' = k_sig w.
Proof.
  unfold k_read, k_faulty, mmap_err. intros H.
  destruct (k_faults w) as [|[] fl]; cbn in H; [|done|]; (destruct (f (k_store w)) as [x| |]; by simplify_eq/=).
Qed.

Lemma k_call_sig {A} (op : M KeyDb DbError A) w r w' : k_call op w = (r, w') -> k_sig w' = k_sig w.
Proof.
  unfold k_call, k_faulty, mmap_err. intros H.
  destruct (k_faults w) as [|[] f]; cbn in H; simplify_eq/=; try done;
    (destruct (op (k_tx w)) as [? t]; by simplify_eq/=).
Qed.

Lemma k_begin_Ok w w' : k_begin w = (Ok tt, w') -> k_store w' = k_store w /\ k_tx w' = k_store w /\ k_sig w' = k_sig w.
Proof.
  unfold k_begin, k_faulty, mmap_err, mmodify. intros H. destruct (k_faults w) as [|[] fl]; cbn in H; by simplify_eq/=.
Qed.

Lemma k_commit_Ok w w' : k_commit w = (Ok tt, w') -> k_store w' = k_tx w /\ k_sig w' = k_sig w.
Proof.
  unfold k_commit, k_faulty, mmap_err, mmodify. intros H. destruct (k_faults w) as [|[] fl]; cbn in H; by simplify_eq/=.
Qed.

Lemma reload_Ok w w' :
  table_ok (k_store w) -> reload_keys_from_db w = (Ok tt, w') ->
  k_store w' = k_store w /\ loaded (k_store w) (k_sig w') /\ sg_xpriv (k_sig w') = sg_xpriv (k_sig w).
Proof.
  intros Hok H. unfold reload_keys_from_db in H. apply mseq_Ok in H as ([] & w1 & [= <-] & H).
  apply mseq_Ok in H as (act & w2 & (Hact & Hs2 & _ & Hg2)%k_read_Ok & H).
  apply mseq_Ok in H as (infos & w3 & (Hinfos & Hs3 & _ & Hg3)%k_read_Ok & H).
  apply mseq_Ok in H as (self & w4 & [= <- <-] & H).
  apply mseq_Ok in H as (self' & w5 & [Hl ->]%mlift_Ok & [= <-]). cbn [k_store k_sig] in *. rewrite Hs2 in Hs3.
  split; [by rewrite Hs3|]. rewrite Hs2 in Hinfos. rewrite Hg3, Hg2 in Hl. by eapply reload_rows in Hl.
Qed.

(** Memory is in step with the table once the signatory has started. *)
Lemma new_loaded now xp supported paths w w' :
  table_ok (k_store w) -> table_ok (k_tx w) -> new_signatory now xp supported paths w = (Ok tt, w') ->
  loaded (k_store w') (k_sig w').
Proof.
  intros Hs Ht H. unfold new_signatory in H. apply mseq_Ok in H as (units & w1 & H1 & H).
  destruct (kt_init_keysets _ _ _ _ _ _ _ H1 Hs Ht) as [Hs1 Ht1]. specialize (Ht1 _ eq_refl).
  apply mseq_Ok in H as ([] & w2 & H2 & H). destruct (kt_begin _ _ _ H2 Hs1 Ht1) as [Hs2 Ht2]. specialize (Ht2 _ eq_refl).
  apply mseq_Ok in H as ([] & w3 & H3 & H).
  destruct (kt_mfor _ _ (fun kv _ => kt_create_for_unit now xp paths units kv) _ _ _ H3 Hs2 Ht2) as [Hs3 Ht3].
  specialize (Ht3 _ eq_refl).
  apply mseq_Ok in H as ([] & w4 & H4 & H). destruct (kt_commit _ _ _ H4 Hs3 Ht3) as [Hs4 Ht4].
  apply mseq_Ok in H as ([] & w5 & [= <-] & H). apply reload_Ok in H as (Hst & Hl & _); [|done]. by rewrite Hst.
Qed.

(** ** Rotation *)

(** The index of a rotation: one more than that of the keyset of the unit that
    was active, or 1. *)
Definition active_row (db : KeyDb) (u : Amount.CurrencyUnit) (r : KeysetRow) : Prop :=
  exists kid, db !! kid = Some r /\ in_active (kr_info r) = true /\ kr_unit r = unit_to_string u.
Definition index_after (db : KeyDb) (u : Amount.CurrencyUnit) (index : N) : Prop :=
  (forall r, active_row db u r -> index = (default 1 (in_derivation_path_index (kr_info r)) + 1) mod 2 ^ 32) /\
  ((forall r, ~ active_row db u r) -> index = 1).

Lemma next_index_Ok u w index w' : table_ok (k_store w) -> next_index u w = (Ok index, w') ->
  k_store w' = k_store w /\ k_sig w' = k_sig w /\ index_after (k_store w) u index.
Proof.
  intros [Hrow Hone] H. unfold next_index in H. apply mseq_Ok in H as (cur & w1 & ([= Hc] & Hs1 & _ & Hg1)%k_read_Ok & H).
  set (l := filter _ (map_to_list (k_store w))) in Hc.
  assert (Hl : forall kid r, (kid, r) ∈ l <-> in_active (kr_info r) = true /\ kr_unit r = unit_to_string u /\ k_store w !! kid = Some r).
  { intros kid r. unfold l. rewrite list_elem_of_filter, elem_of_map_to_list. cbn. tauto. }
  destruct l as [|[kid r0] l'].
  - subst cur. injection H as <- <-. split_and!; [done..|]. split; [|done]. intros r (kid & Hr & Ha & Hu).
    exfalso. by apply (not_elem_of_nil (kid, r)), Hl.
  - destruct (proj1 (Hl kid r0)) as (Ha & Hu & Hr0); [left|]. cbn in Hc. subst cur.
    apply mseq_Ok in H as (info & w2 & (Hi & Hs2 & _ & Hg2)%k_read_Ok & H). apply mlift_seq in H as (i & ->%ok_or_Ok & [= <- <-]).
    rewrite Hs1 in Hi. unfold get_keyset_info_of_db in Hi.
    pose proof (Hrow _ _ Hr0) as (Hk & _). rewrite <- Hk in Hi. rewrite Hr0 in Hi.
    destruct (sql_row_to_keyset_info r0) as [i'| |] eqn:Hri; [|done..]. injection Hi as ->. apply row_info_Ok in Hri as ->.
    split_and!; [congruence..|]. split; [|intros Hn; destruct (Hn r0); by exists kid].
    intros r (kid' & Hr & Har & Hur). assert (kid' = kid) as -> by (eapply Hone; eauto; congruence).
    rewrite Hr0 in Hr. by injection Hr as <-.
Qed.

Lemma path_for_default u i j p : path_for ∅ u i = Ok p -> path_for ∅ u j = Ok p -> i = j /\ i < 2 ^ 31.
Proof.
  unfold path_for. rewrite lookup_empty. unfold derivation_path_from_unit, from_hardened_idx. destruct (derivation_index u); [|done].
  destruct (0 <? 2 ^ 31); [|done]. destruct (n <? 2 ^ 31); [|done]. cbn [expect].
  destruct (N.ltb_spec i (2 ^ 31)), (N.ltb_spec j (2 ^ 31)); cbn [expect ok_or]; try done. by intros [= <-] [= ->].
Qed.

(** Everything a rotation does that succeeds. *)
Lemma rotate_Ok now args w k w' :
  table_ok (k_store w) -> rotate_keyset now args w = (Ok k, w') ->
  exists index path keyset info, index_after (k_store w) (ra_unit args) index /\
    path_for (sg_custom_paths (k_sig w)) (ra_unit args) index = Ok path /\
    create_new_keyset (E:=MError) now (sg_xpriv (k_sig w)) path (Some index) (ra_unit args) (ra_amounts args)
      (ra_input_fee_ppk args) None = Ok (keyset, info) /\
    k = signatory_keyset info keyset /\ k_store w' = activated (ra_unit args) info (k_store w) /\
    loaded (k_store w') (k_sig w') /\ sg_xpriv (k_sig w') = sg_xpriv (k_sig w).
Proof.
  intros Hok H. unfold rotate_keyset in H. apply mseq_Ok in H as (index & w1 & Hn & H).
  apply next_index_Ok in Hn as (Hs1 & Hg1 & Hix); [|done]. apply mseq_Ok in H as (self & w2 & [= <- <-] & H).
  apply mlift_seq in H as (path & Hp & H). apply mlift_seq in H as ([keyset info] & Hc & H).
  apply mseq_Ok in H as ([] & w3 & (Hs3 & Ht3 & Hg3)%k_begin_Ok & H).
  apply mseq_Ok in H as ([] & w4 & H4 & H). pose proof (k_call_sig _ _ _ _ H4) as Hg4. apply k_call_Ok in H4 as [[= Ht4] Hs4].
  apply mseq_Ok in H as ([] & w5 & H5 & H). pose proof (k_call_sig _ _ _ _ H5) as Hg5. apply k_call_Ok in H5 as [[= Ht5] Hs5].
  apply mseq_Ok in H as ([] & w6 & (Hs6 & Hg6)%k_commit_Ok & H).
  apply mseq_Ok in H as ([] & w7 & Hr & [= <- <-]).
  assert (Hst : k_store w6 = activated (ra_unit args) info (k_store w)).
  { rewrite Hs6, <- Ht5, <- Ht4, Ht3, Hs1. reflexivity. }
  apply reload_Ok in Hr as (Hs7 & Hl & Hx).
  2: { rewrite Hst. apply activated_ok; [|by eapply create_new_derived|done]. by apply create_new_keyset_Ok in Hc as (? & _). }
  rewrite Hg6, Hg5, Hg4, Hg3, Hg1 in Hx. rewrite Hg1 in Hp, Hc.
  exists index, path, keyset, info. rewrite Hs7, Hst. rewrite Hst in Hl. done.
Qed.

Lemma lookup_activated_ne u i db k :
  k <> id_to_string (in_id i) ->
  activated u i db !! k = activate (unit_to_string u) (id_to_string (in_id i)) k <$> db !! k.
Proof. intros Hk. rewrite lookup_activated. f_equal. by apply (lookup_insert_ne (M:=gmap string)). Qed.

Lemma lookup_activated_eq u i db :
  activated u i db !! id_to_string (in_id i) =
  Some (activate (unit_to_string u) (id_to_string (in_id i)) (id_to_string (in_id i)) (mkKeysetRow (unit_to_string (in_unit i)) i)).
Proof. rewrite lookup_activated. etrans; [apply f_equal, (lookup_insert_eq (M:=gmap string))|done]. Qed.

(** The entry of a row does not depend on its active flag but for the flag. *)
Lemma row_entry_activate xp u id k r e e' :
  row_entry xp r e -> row_entry xp (activate u id k r) e' ->
  e'.2 = e.2 /\ e'.1 = if String.eqb (kr_unit r) u then Keysets.set_active e.1 (String.eqb k id) else e.1.
Proof.
  intros [Hi Hd] [Hi' Hd']. apply row_info_Ok in Hi, Hi'. unfold derived_from in *. rewrite Hi in Hd |- *. rewrite Hi' in Hd' |- *.
  unfold activate in *. destruct (String.eqb (kr_unit r) u); cbn [kr_info kr_unit Keysets.set_active set_unit in_amounts in_unit
    in_derivation_path in_final_expiry in_id] in *; (split; [|done]); pose proof (eq_trans (eq_sym Hd') Hd) as He; by injection He.
Qed.

(** An old keyset after a rotation: its keys are kept, and it is inactive when
    it has the unit of the rotation. *)
Definition retired (args : RotateKeyArguments) (e : MintKeySetInfo * MintKeySet) : MintKeySetInfo * MintKeySet :=
  if String.eqb (unit_to_string (in_unit e.1)) (unit_to_string (ra_unit args))
  then (Keysets.set_active e.1 false, e.2) else e.

Lemma rotate_old_keyset now args w k w' (kid : string) :
  table_ok (k_store w) -> loaded (k_store w) (k_sig w) -> rotate_keyset now args w = (Ok k, w') -> kid <> ks_id k ->
  sg_keysets (k_sig w') !! kid = retired args <$> sg_keysets (k_sig w) !! kid.
Proof.
  intros Hok Hl H Hne. apply rotate_Ok in H as (index & path & keyset & info & _ & _ & _ & -> & Hs & Hl' & Hx); [|done].
  specialize (Hl kid). specialize (Hl' kid). cbn [ks_id signatory_keyset] in Hne.
  rewrite Hs, lookup_activated_ne, Hx in Hl' by done.
  destruct (k_store w !! kid) as [r|] eqn:Hr; inversion Hl as [? e He|]; inversion Hl' as [? e' He'|]; subst; [|done].
  cbn [fmap option_fmap option_map]. f_equal. pose proof (row_entry_activate _ _ _ _ _ _ _ He He') as [Hk Hi].
  destruct He as [Hri _]. apply row_info_Ok in Hri. unfold retired. rewrite Hri at 1. cbn [set_unit in_unit].
  rewrite unit_text_roundtrip by (by apply (proj1 Hok _ _ Hr)).
  destruct (String.eqb_spec kid (id_to_string (in_id info))); [done|]. destruct e as [i key], e' as [i' key']; cbn in *; subst.
  by destruct (String.eqb (kr_unit r) (unit_to_string (ra_unit args))).
Qed.

(** The entry of the new keyset: its index follows that of the keyset that was
    active, its keys are those of the mint's seed along the path of that index
    (or the unit's own path), and its id is theirs. *)
Definition rotated_entry (args : RotateKeyArguments) (w : KWorld) (id : string) (i : MintKeySetInfo) (key : MintKeySet) : Prop :=
  in_active i = true /\ in_amounts i = ra_amounts args /\ in_input_fee_ppk i = ra_input_fee_ppk args /\
  (exists index, in_derivation_path_index i = Some index /\ index_after (k_store w) (ra_unit args) index /\
     path_for (sg_custom_paths (k_sig w)) (ra_unit args) index = Ok (in_derivation_path i)) /\
  derived_from (sg_xpriv (k_sig w)) i key /\ id = id_to_string (mk_id key).

Lemma rotated_id xp d u amounts expiry keyset i key :
  derive_priv xp (in_derivation_path i) = Some d -> generate (E:=MError) d u amounts expiry Version00 = Ok keyset ->
  in_amounts i = amounts -> in_id i = mk_id keyset -> derived_from xp i key -> mk_id key = mk_id keyset.
Proof.
  intros Hd Hg <- Hid Hder. unfold derived_from, generate_from_xpriv in Hder. rewrite Hd in Hder. cbn [expect] in Hder.
  unfold generate in *. destruct (generate_keys d 0 (in_amounts i) ∅) as [keys| |]; [|done..]. cbn [derived_id] in Hg.
  destruct (v1_from_keys (keys_of keys)) as [id| |] eqn:Hv; [|done..]. injection Hg as <-. cbn [mk_id] in *.
  pose proof (derived_id_version Version00 (keys_of keys) Amount.Sat None id Hv) as Hver.
  rewrite Hid, Hver in Hder. cbn [derived_id] in Hder. rewrite Hv in Hder. by injection Hder as <-.
Qed.

Lemma rotated_entry_Ok now args w k w' : table_ok (k_store w) -> rotate_keyset now args w = (Ok k, w') ->
  exists i key, sg_keysets (k_sig w') !! ks_id k = Some (i, key) /\ rotated_entry args w (ks_id k) i key.
Proof.
  intros Hok H. destruct (rotate_Ok _ _ _ _ _ Hok H) as (index & path & keyset & info & Hix & Hp & Hc & -> & Hs & Hl' & Hx).
  apply create_new_keyset_Ok in Hc as (Hu & _ & Hid & Ham & Hpath & Hidx & Hfee & Hexp & _ & _ & d & Hd & Hg).
  specialize (Hl' (ks_id (signatory_keyset info keyset))). cbn [ks_id signatory_keyset] in *.
  rewrite Hs, lookup_activated_eq in Hl'. inversion Hl' as [? [i key] [Hi Hder] Ht He|]; subst. exists i, key. split; [symmetry; exact He|].
  apply row_info_Ok in Hi. cbn [fst snd] in Hi, Hder. unfold rotated_entry. rewrite <- Hx. rewrite Hi in Hder |- *.
  unfold activate in *. cbn [kr_unit] in *. rewrite Hu, String.eqb_refl in Hder |- *.
  cbn [kr_info kr_unit set_unit Keysets.set_active in_active in_amounts in_input_fee_ppk in_derivation_path_index in_derivation_path] in *.
  split; [by rewrite String.eqb_refl|]. split; [done|]. split; [done|]. split; [|split; [exact Hder|]].
  - exists index. rewrite Hx in *. by split_and!.
  - rewrite Hid. f_equal. symmetry. rewrite Hx in Hder. eapply rotated_id; [..|exact Hder]; [exact Hd|exact Hg|done|exact Hid].
Qed.

(** C14. A rotation that succeeds leaves the memory of the signatory in step
    with the table, with an active keyset of the amounts, the fee and the id
    it answers with.  The index of the keyset is one more than that of the
    keyset of the unit that was active, and its keys are derived from the seed
    along the path of that index, which for a unit without a path of its own is
    not the path of the keyset before.  Proofs of every other keyset are
    accepted and refused as before; the other keysets of the unit no longer
    sign; the keysets of other units sign as before. *)
Theorem rotation_spec now args w k w'
    (Hok : table_ok (k_store w)) (Hl : loaded (k_store w) (k_sig w))
    (H : rotate_keyset now args w = (Ok k, w')) :
  table_ok (k_store w') /\ loaded (k_store w') (k_sig w') /\
  (exists i key, sg_keysets (k_sig w') !! ks_id k = Some (i, key) /\ rotated_entry args w (ks_id k) i key /\
     (sg_custom_paths (k_sig w) = ∅ -> forall r j, active_row (k_store w) (ra_unit args) r ->
        in_derivation_path_index (kr_info r) = Some j -> path_for ∅ (ra_unit args) j = Ok (in_derivation_path (kr_info r)) ->
        in_derivation_path i <> in_derivation_path (kr_info r))) /\
  (forall p, keyset_id p <> ks_id k -> verify_one (k_sig w') p = verify_one (k_sig w) p) /\
  (forall nonce m, bm_keyset_id m <> ks_id k ->
     sign_one (k_sig w') nonce m =
     match sg_keysets (k_sig w) !! bm_keyset_id m with
     | Some (i, _) => if String.eqb (unit_to_string (in_unit i)) (unit_to_string (ra_unit args))
                      then Err InactiveKeyset else sign_one (k_sig w) nonce m
     | None => Err UnknownKeySet
     end).
Proof.
  split.
  { destruct (rotate_Ok _ _ _ _ _ Hok H) as (? & ? & ? & ? & _ & _ & Hc & _ & -> & _).
    apply activated_ok; [|by eapply create_new_derived|done]. by apply create_new_keyset_Ok in Hc as (? & _). }
  split; [by destruct (rotate_Ok _ _ _ _ _ Hok H) as (? & ? & ? & ? & _ & _ & _ & _ & _ & Hl' & _)|].
  split.
  { destruct (rotated_entry_Ok _ _ _ _ _ Hok H) as (i & key & Hi & He). exists i, key. split_and!; [done..|].
    intros Hno r j Hr Hj Hpj Hsame. destruct He as (_ & _ & _ & (index & _ & [Hnext _] & Hpi) & _). rewrite Hno, Hsame in Hpi.
    specialize (Hnext r Hr). rewrite Hj in Hnext. cbn in Hnext. destruct (path_for_default _ _ _ _ Hpi Hpj) as [-> Hlt].
    rewrite N.mod_small in Hnext by lia. lia. }
  split.
  - intros p Hp. unfold verify_one. 
    replace (sg_keysets (k_sig w') !! keyset_id p) with (retired args <$> sg_keysets (k_sig w) !! keyset_id p)
      by (symmetry; exact (rotate_old_keyset _ _ _ _ _ _ Hok Hl H Hp)).
    destruct (sg_keysets (k_sig w) !! keyset_id p) as [[i key]|]; [|done]. unfold retired. cbn.
    by destruct (String.eqb (unit_to_string (in_unit i)) _).
  - intros nonce m Hm. unfold sign_one at 1. 
    replace (sg_keysets (k_sig w') !! bm_keyset_id m) with (retired args <$> sg_keysets (k_sig w) !! bm_keyset_id m)
      by (symmetry; exact (rotate_old_keyset _ _ _ _ _ _ Hok Hl H Hm)).
    unfold sign_one. destruct (sg_keysets (k_sig w) !! bm_keyset_id m) as [[i key]|]; [|done]. unfold retired. cbn.
    by destruct (String.eqb (unit_to_string (in_unit i)) _).
Qed.

(** For a unit with a custom derivation path a rotation makes no new keys:
    whatever keyset is active, two rotations with the same amounts answer with
    the same keyset id, because the index of the rotation is not part of the
    path. *)
Theorem custom_path_reuses_keyset now1 now2 args1 args2 w1 w2 k1 k2 w1' w2' path
    (Hok1 : table_ok (k_store w1)) (Hok2 : table_ok (k_store w2))
    (Hseed : sg_xpriv (k_sig w1) = sg_xpriv (k_sig w2))
    (Hunit : ra_unit args1 = ra_unit args2) (Hamounts : ra_amounts args1 = ra_amounts args2)
    (Hp1 : sg_custom_paths (k_sig w1) !! ra_unit args1 = Some path)
    (Hp2 : sg_custom_paths (k_sig w2) !! ra_unit args2 = Some path)
    (H1 : rotate_keyset now1 args1 w1 = (Ok k1, w1')) (H2 : rotate_keyset now2 args2 w2 = (Ok k2, w2')) :
  ks_id k1 = ks_id k2.
Proof.
  apply rotate_Ok in H1 as (i1 & p1 & ks1 & info1 & _ & Hpath1 & Hc1 & -> & _); [|done].
  apply rotate_Ok in H2 as (i2 & p2 & ks2 & info2 & _ & Hpath2 & Hc2 & -> & _); [|done].
  unfold path_for in *. rewrite Hp1 in Hpath1. rewrite Hp2 in Hpath2. injection Hpath1 as <-. injection Hpath2 as <-.
  apply create_new_keyset_Ok in Hc1 as (_ & _ & Hid1 & _ & _ & _ & _ & _ & _ & _ & d1 & Hd1 & Hg1).
  apply create_new_keyset_Ok in Hc2 as (_ & _ & Hid2 & _ & _ & _ & _ & _ & _ & _ & d2 & Hd2 & Hg2).
  cbn. rewrite Hid1, Hid2. rewrite Hseed in Hd1. assert (d1 = d2) as -> by congruence.
  rewrite Hunit, Hamounts in Hg1. assert (ks1 = ks2) as -> by congruence. done.
Qed.

(** ** A failed reload *)

(** A reload that meets a database fault leaves the signatory without any
    keyset in memory, while the table still has them all: until a reload
    succeeds no proof is accepted and no message signed.  A rotation reloads
    after its commit, so a read that fails then stops the mint. *)
Theorem failed_reload_empties_memory w e w' :
  reload_keys_from_db w = (Err e, w') ->
  k_store w' = k_store w /\ sg_keysets (k_sig w') = ∅ /\
  (forall p, verify_one (k_sig w') p = Err UnknownKeySet) /\
  (forall nonce m, sign_one (k_sig w') nonce m = Err UnknownKeySet).
Proof.
  intros H. cut (k_store w' = k_store w /\ sg_keysets (k_sig w') = ∅).
  { intros [-> Hk]. unfold verify_one, sign_one. rewrite Hk. split_and!; [done|done|..]; intros; by rewrite lookup_empty. }
  unfold reload_keys_from_db, mseq, mmodify, mgets, mlift, k_read, k_faulty, mmap_err in H.
  repeat (case_match; simplify_eq/=; try done).
Qed.

End facts.
End RotationFacts.
