(* ===== verification/ConcreteCurve.v ===== *)
(** * A small executable curve

    The classes [Curve] and [Bip32] instantiated with concrete functions that
    satisfy their laws: the points are the 256 elements other than zero of the
    integers modulo the prime 257, a point or a scalar is kept as one byte,
    and a digest is a byte printed 32 times.  The theorems on blind signatures
    and on the signatory are applied to it. *)
From Stdlib Require Import Ascii ZArith Zdivisibility.
From stdpp Require Import base numbers list sorting strings gmap.
From S2P Require Import Prelude Amount Hex Nuts KeysetId Bdhke Conditions Concrete Spending States MintDb Mint MintFacts Keysets KeysetFacts RotationFacts.

Module ConcreteCurve.
Local Open Scope Z_scope.

Definition byte_value (b : ascii) : Z := Z.of_N (N_of_ascii b) + 1.
Definition value_byte (z : Z) : ascii := ascii_of_N (Z.to_N (z - 1)).
Definition residue (z : Z) : option ascii := if z mod 257 =? 0 then None else Some (value_byte (z mod 257)).

Fixpoint copies (n : nat) (b : ascii) : string :=
  match n with O => EmptyString | S n => String b (copies n b) end.
Definition bytes32 (b : ascii) : string := copies 32 b.
Definition read32 (s : string) : option ascii :=
  match s with String b _ => if String.eqb s (bytes32 b) then Some b else None | _ => None end.

Fixpoint checksum (acc : N) (s : string) : N :=
  match s with EmptyString => acc | String b s => checksum ((N.lxor acc (N_of_ascii b) * 167 + acc / 8 + 13) mod 256)%N s end.

Definition digest_text (d : ascii) : string := Hex.encode (bytes32 d).
Definition digest_of_text (s : string) : option ascii :=
  match Hex.decode s with Ok b => read32 b | _ => None end.

#[export] Instance crypto : Crypto := {|
  pubkey := ascii;
  seckey := ascii;
  signature := ascii * ascii;
  digest := ascii;
  secp_pubkey_from_str := Concrete.key_from_str;
  secp_pubkey_to_string := Concrete.key_to_string;
  secp_pubkey_serialize := Concrete.key_to_string;
  xonly_even := fun d => Some d;
  seckey_public_key := fun k => k;
  sha256 := fun s => ascii_of_N (checksum 0 s);
  digest_bytes := bytes32;
  digest_from_str := digest_of_text;
  digest_to_string := digest_text;
  verify_schnorr := fun s d k => bool_decide (s = (k, d));
  sign_schnorr := fun k d => (k, d);
  signature_from_str := fun s => match s with String k (String d EmptyString) => Some (k, d) | _ => None end;
  signature_to_string := fun s => String s.1 (String s.2 EmptyString);
|}.

#[export] Instance crypto_laws : CryptoLaws crypto.
Proof.
  split; simpl; intros; try done.
  - by destruct s.
  - unfold digest_of_text, digest_text. rewrite Hex.decode_encode. cbn. by rewrite Ascii.eqb_refl.
  - by apply bool_decide_eq_true_2.
Qed.

#[export] Instance curve : Curve crypto := {|
  point_combine p q := residue (byte_value p + byte_value q);
  point_mul p k := residue (byte_value k * byte_value p);
  point_negate p := value_byte (257 - byte_value p);
  point_uncompressed p := bytes32 p;
  scalar_mul a b := residue (byte_value a * byte_value b);
  scalar_add a b := residue (byte_value a + byte_value b);
  seckey_from_slice := read32;
  seckey_bytes := bytes32;
|}.

#[export] Instance curve_model : CurveModel crypto := {| order := 257; dlog := byte_value; scalar := byte_value |}.

Lemma prime_257 : Z.prime 257.
Proof.
  split; [done|]. intros n Hn Hd.
  assert (Hall : forallb (fun i => negb (257 mod Z.of_nat i =? 0)) (seq 2 255) = true) by (vm_compute; reflexivity).
  rewrite forallb_forall in Hall. specialize (Hall (Z.to_nat n)). rewrite in_seq, Z2Nat.id in Hall by lia.
  apply Z.mod_divide in Hd; [|lia]. rewrite Hd in Hall. cbn in Hall. discriminate Hall. lia.
Qed.

Lemma byte_range b : 0 < byte_value b < 257.
Proof. unfold byte_value. pose proof (N_ascii_bounded b). lia. Qed.

Lemma byte_value_byte z : 0 < z < 257 -> byte_value (value_byte z) = z.
Proof. intros Hz. unfold byte_value, value_byte. rewrite N_ascii_embedding by lia. lia. Qed.

Lemma residue_spec z : match residue z with Some r => byte_value r = z mod 257 | None => z mod 257 = 0 end.
Proof.
  unfold residue. destruct (Z.eqb_spec (z mod 257) 0) as [H|H]; [done|]. apply byte_value_byte.
  pose proof (Z.mod_pos_bound z 257). lia.
Qed.

Lemma product_residue a b : exists r, residue (byte_value a * byte_value b) = Some r /\
  byte_value r = (byte_value a * byte_value b) mod 257.
Proof.
  pose proof (residue_spec (byte_value a * byte_value b)) as H. destruct (residue _) as [r|]; [eauto|].
  apply Z.mod_divide in H; [|done]. apply Z.divide_prime_mul in H; [|apply prime_257].
  destruct H as [H|H]; apply Z.divide_pos_le in H; (pose proof (byte_range a); pose proof (byte_range b); lia).
Qed.

#[export] Instance curve_laws : CurveLaws crypto curve curve_model.
Proof.
  split; simpl.
  - apply prime_257.
  - apply byte_range.
  - intros p q H. unfold byte_value in H. rewrite <- (ascii_N_embedding p), <- (ascii_N_embedding q). f_equal. lia.
  - apply byte_range.
  - done.
  - intros p q. apply residue_spec.
  - intros p k. apply product_residue.
  - intros p. pose proof (byte_range p). rewrite byte_value_byte by lia.
    rewrite Z.mod_opp_l_nz; rewrite ?Z.mod_small; lia.
  - apply product_residue.
  - intros a b. apply residue_spec.
  - intros s k. unfold read32. destruct s as [|b s]; [done|]. destruct (String.eqb_spec (String b s) (bytes32 b)); [|done].
    by intros [= ->].
Qed.

#[export] Instance bip32 : Bip32 crypto := {|
  xpriv := ascii;
  derive_priv x path :=
    Some (ascii_of_N (fold_left (fun a ch => (7 * a + child_index ch + 3) mod 256)%N path (N_of_ascii x)));
  private_key x := x;
|}.

End ConcreteCurve.

(** ** The theorems at concrete values *)
Module ConcreteSignatory.
Import Nut00 KeysetId Bdhke BdhkeFacts MintDb Mint Keysets KeysetFacts RotationFacts ConcreteCurve.

Local Open Scope N_scope.
Local Open Scope res_scope.

Definition seed : @xpriv _ bip32 := "s"%char.
Definition blinding : @seckey crypto := "r"%char.
Definition units : gmap Amount.CurrencyUnit (N * N) := {[Amount.Sat := (100, 4)]}.

(** A signatory before its first start, and after it. *)
Definition cold : KWorld := mkKWorld ∅ ∅ [] (mkDbSignatory ∅ ∅ ∅ seed).
Definition started : KWorld := snd (new_signatory 1700000000 seed units ∅ cold).

Lemma cold_ok : table_ok (k_store cold).
Proof. split; [apply map_Forall_empty|]. intros k1 k2 r1 r2 H. discriminate H. Qed.

Lemma started_Ok : new_signatory 1700000000 seed units ∅ cold = (Ok tt, started).
Proof.
  rewrite (surjective_pairing (new_signatory _ _ _ _ _)). apply (f_equal2 pair); [vm_compute; reflexivity|reflexivity].
Qed.

Example started_keysets : (size (k_store started), size (sg_keysets (k_sig started))) = (2, 2)%nat.
Proof. vm_compute. reflexivity. Qed.

Lemma started_table : table_ok (k_store started).
Proof. by apply (kt_new _ _ _ _ _ _ _ started_Ok cold_ok cold_ok). Qed.

Lemma started_loaded : loaded (k_store started) (k_sig started).
Proof. exact (new_loaded _ _ _ _ _ _ cold_ok cold_ok started_Ok). Qed.

Lemma one_active_keyset_per_unit_witness :
  table_ok (k_store (fold_left (fun w e => key_step e w)
    [([], Start 0 seed units ∅); ([false; false; true], Rotate 1 (mkRotate Amount.Sat [1; 2] 0));
     ([], Rotate 2 (mkRotate Amount.Sat [1; 2; 4] 0))] cold)).
Proof. apply one_active_keyset_per_unit. apply cold_ok. Defined.

Lemma blind_signature_correct_witness :
  exists C' C, sign_message "k"%char "213"%char = Ok C' /\ unblind_message C' blinding "k"%char = Ok C /\
    (forall P, verify_message "k"%char P "secret" = Ok tt <-> P = C).
Proof. apply (blind_signature_correct "secret" blinding blinding). vm_compute. reflexivity. Defined.

Lemma dleq_special_sound_witness : sign_message "k"%char "2"%char = Ok "n"%char.
Proof.
  apply (dleq_special_sound (CR:=crypto) "k"%char "2"%char "n"%char "n"%char "006"%char "c"%char "t"%char "e"%char "K"%char);
    [vm_compute; reflexivity..|vm_compute; discriminate].
Defined.

(** The active keyset for satoshis, two messages for it and their signatures. *)
Definition sat_id : string :=
  match sg_active (k_sig started) !! Amount.Sat with Some i => id_to_string i | None => EmptyString end.

Definition no_entry : MintKeySetInfo * MintKeySet :=
  (mkInfo (mkKeyId Version00 (V1 "")) Amount.Sat false 0 [] None 0 [] 0 None,
   mkMintKeySet (mkKeyId Version00 (V1 "")) Amount.Sat ∅ None).
Definition sat_entry : MintKeySetInfo * MintKeySet := default no_entry (sg_keysets (k_sig started) !! sat_id).

Definition message (a : N) (secret : string) : BlindedMessage :=
  mkBlindedMessage a sat_id (match blind_message secret (Some blinding) blinding with Ok (b, _) => b | _ => "?"%char end) None.
Definition messages : list BlindedMessage := [message 1 "first"; message 8 "second"].
Definition signed : list BlindSignature := match db_blind_sign (k_sig started) (fun _ => "n"%char) messages with Ok s => s | _ => [] end.

Lemma Some_default {A} (d : A) (o : option A) : (match o with Some _ => true | None => false end) = true -> o = Some (default d o).
Proof. by destruct o. Qed.

Lemma Ok_default {E A} (d : A) (r : res E A) : (match r with Ok _ => true | _ => false end) = true -> r = Ok (match r with Ok a => a | _ => d end).
Proof. by destruct r. Qed.

Definition small_keyset : MintKeySet :=
  match generate (E:=MError) seed Amount.Sat [1; 2] None Version00 with Ok ks => ks | _ => no_entry.2 end.

Lemma published_keyset_verifies_witness : verify_id (public_keyset small_keyset) = Ok tt.
Proof.
  apply (published_keyset_verifies seed Amount.Sat [1; 2] None Version00).
  apply (Ok_default no_entry.2). vm_compute. reflexivity.
Defined.

Lemma sat_entry_loaded : sg_keysets (k_sig started) !! sat_id = Some sat_entry.
Proof. apply Some_default. vm_compute. reflexivity. Qed.

Lemma sat_well_keyed : well_keyed sat_entry.2.
Proof.
  exact (loaded_well_keyed _ _ _ _ started_loaded sat_entry_loaded).
Qed.

Lemma issued_proofs_accepted_witness :
  exists ps, construct_proofs signed [blinding; blinding] ["first"; "second"] (keys_of (mk_keys sat_entry.2)) = Ok ps /\
    Forall2 (fun mp p => good_proof (k_sig started) sat_entry.2 mp.1 mp.2 p) (zip messages ["first"; "second"]) ps /\
    db_verify_proofs (k_sig started) ps = Ok tt.
Proof.
  apply (issued_proofs_accepted (CR:=crypto) _ sat_id sat_entry.1 _ (fun _ => "n"%char)).
  - exact (eq_trans sat_entry_loaded (f_equal Some (surjective_pairing sat_entry))).
  - apply sat_well_keyed.
  - reflexivity.
  - repeat constructor; vm_compute; reflexivity.
  - apply (Ok_default []). vm_compute. reflexivity.
Defined.

(** A rotation, and a second one for a unit with a path of its own. *)
Definition rotation : RotateKeyArguments := mkRotate Amount.Sat [1; 2; 4] 200.
Definition no_keyset : KeysetInfo := mkKeysetInfo "" Amount.Sat false 0 [].
Definition answer (w : KWorld) : KeysetInfo := match fst (rotate_keyset 1700000001 rotation w) with Ok k => k | _ => no_keyset end.
Definition rotated (w : KWorld) : KWorld := snd (rotate_keyset 1700000001 rotation w).

Lemma rotated_Ok w : (match fst (rotate_keyset 1700000001 rotation w) with Ok _ => true | _ => false end) = true ->
  rotate_keyset 1700000001 rotation w = (Ok (answer w), rotated w).
Proof. intros H. unfold answer, rotated. by destruct (rotate_keyset 1700000001 rotation w) as [[] ?]. Qed.

Lemma started_rotates : rotate_keyset 1700000001 rotation started = (Ok (answer started), rotated started).
Proof. apply rotated_Ok. vm_compute. reflexivity. Qed.

Lemma rotation_spec_witness :
  table_ok (k_store (rotated started)) /\ loaded (k_store (rotated started)) (k_sig (rotated started)) /\
  (exists i key, sg_keysets (k_sig (rotated started)) !! ks_id (answer started) = Some (i, key) /\
     rotated_entry rotation started (ks_id (answer started)) i key /\
     (sg_custom_paths (k_sig started) = ∅ -> forall r j, active_row (k_store started) Amount.Sat r ->
        in_derivation_path_index (kr_info r) = Some j -> path_for ∅ Amount.Sat j = Ok (in_derivation_path (kr_info r)) ->
        in_derivation_path i <> in_derivation_path (kr_info r))) /\
  (forall p, keyset_id p <> ks_id (answer started) -> verify_one (k_sig (rotated started)) p = verify_one (k_sig started) p) /\
  (forall nonce m, bm_keyset_id m <> ks_id (answer started) ->
     sign_one (k_sig (rotated started)) nonce m =
     match sg_keysets (k_sig started) !! bm_keyset_id m with
     | Some (i, _) => if String.eqb (unit_to_string (in_unit i)) (unit_to_string Amount.Sat)
                      then Err InactiveKeyset else sign_one (k_sig started) nonce m
     | None => Err UnknownKeySet
     end).
Proof. exact (rotation_spec 1700000001 rotation started _ _ started_table started_loaded started_rotates). Defined.

(** The keyset that signed before is another one. *)
Example rotation_changes_keyset : String.eqb (ks_id (answer started)) sat_id = false.
Proof. vm_compute. reflexivity. Qed.

Definition custom : KWorld :=
  mkKWorld ∅ ∅ [] (mkDbSignatory ∅ ∅ {[Amount.Sat := [mkChild true 7]]} seed).

Lemma custom_path_reuses_keyset_witness : ks_id (answer custom) = ks_id (answer (rotated custom)).
Proof.
  assert (H1 : rotate_keyset 1700000001 rotation custom = (Ok (answer custom), rotated custom))
    by (apply rotated_Ok; vm_compute; reflexivity).
  assert (H2 : rotate_keyset 1700000001 rotation (rotated custom) = (Ok (answer (rotated custom)), rotated (rotated custom)))
    by (apply rotated_Ok; vm_compute; reflexivity).
  apply (custom_path_reuses_keyset 1700000001 1700000001 rotation rotation custom (rotated custom)
           (answer custom) (answer (rotated custom)) (rotated custom) (rotated (rotated custom)) [mkChild true 7]);
    [apply cold_ok| |vm_compute; reflexivity|reflexivity|reflexivity|vm_compute; reflexivity..|exact H1|exact H2].
  by apply (kt_rotate _ _ _ _ _ H1 cold_ok cold_ok).
Defined.

Definition emptied (w : KWorld) : KWorld :=
  mkKWorld (k_store w) (k_tx w) [] (mkDbSignatory ∅ ∅ (sg_custom_paths (k_sig w)) (sg_xpriv (k_sig w))).

Lemma reload_fault db t self :
  reload_keys_from_db (mkKWorld db t [true] self) = (Err (MDatabase Database), emptied (mkKWorld db t [true] self)).
Proof. reflexivity. Qed.

Definition one_entry : DbSignatory := mkDbSignatory {["kid" := no_entry]} ∅ ∅ seed.

Lemma failed_reload_empties_memory_witness :
  k_store (emptied (mkKWorld ∅ ∅ [true] one_entry)) = ∅ /\
  sg_keysets (k_sig (emptied (mkKWorld ∅ ∅ [true] one_entry))) = ∅ /\
  (forall p, verify_one (k_sig (emptied (mkKWorld ∅ ∅ [true] one_entry))) p = Err UnknownKeySet) /\
  (forall nonce m, sign_one (k_sig (emptied (mkKWorld ∅ ∅ [true] one_entry))) nonce m = Err UnknownKeySet).
Proof. exact (failed_reload_empties_memory _ _ _ (reload_fault ∅ ∅ one_entry)). Defined.

End ConcreteSignatory.
