(* ===== verification/Secrets.v ===== *)
(** * Deterministic secrets and outputs (nuts/nut13.rs, PreMintSecrets of nut00/mod.rs)

    A wallet derives the secret and the blinding factor of each output from its
    seed, the keyset and a counter, so that it can make them again from the
    seed alone.  The derivations themselves, BIP-32 and HMAC-SHA256, are
    interfaces.  A counter is a [u32], which wraps around in a release build. *)
From Stdlib Require Import Ascii.
From stdpp Require Import base numbers list sorting strings gmap.
From S2P Require Import Prelude Amount Hex Nuts KeysetId Bdhke Conditions States MintDb Mint Keysets.
Import Nut00 Nut11 KeysetId Bdhke Keysets.

Local Open Scope N_scope.
Local Open Scope res_scope.

(** [Xpriv::new_master] and [Hmac::<sha256::Hash>]. *)
Class SeedKdf (CR : Crypto) (BP : Bip32 CR) := {
  new_master : string -> option xpriv;
  hmac_sha256 : string -> string -> string;
}.

Module Secrets.
Section defs.
Context {CR : Crypto} {CV : Curve CR} {BP : Bip32 CR} {KDF : SeedKdf CR BP} {SD : Serde}.

Inductive Error := SDHKE (e : Dhke.Error) | SAmount (e : Amount.Error) | SBip32 | SSecp.

Definition from_normal_idx (i : N) : option ChildNumber := if i <? 2 ^ 31 then Some (mkChild false i) else None.
Definition child (o : option ChildNumber) : res Error ChildNumber := ok_or SBip32 o.

(** [u64::to_be_bytes]. *)
Fixpoint be_bytes (n : nat) (v : N) : string :=
  match n with O => EmptyString | S n' => String (ascii_of_N (v / 2 ^ (8 * N.of_nat n') mod 256)) (be_bytes n' v) end.

Definition derive_path_from_keyset_id (id : KeyId) : res Error DerivationPath :=
  let index := id_to_u32 id in
  let? keyset_child_number := child (from_hardened_idx index) in
  let? purpose := child (from_hardened_idx 129372) in
  let? zero := child (from_hardened_idx 0) in
  Ok [purpose; zero; keyset_child_number].

(** [legacy_derive] of [Secret] (last step 0) and of [SecretKey] (last step 1). *)
Definition legacy_key (seed : string) (keyset_id : KeyId) (counter last_step : N) : res Error seckey :=
  let? xp := ok_or SBip32 (new_master seed) in
  let? path := derive_path_from_keyset_id keyset_id in
  let? c := child (from_hardened_idx counter) in
  let? l := child (from_normal_idx last_step) in
  let? derived := ok_or SBip32 (derive_priv xp (path ++ [c; l])) in
  Ok (private_key derived).

(** The message of [derive]: purpose, keyset, counter and a byte that tells the
    secret from the blinding factor. *)
Definition kdf_message (keyset_id : KeyId) (counter : N) (last : ascii) : string :=
  ("Cashu_KDF_HMAC_SHA256" ++ id_to_bytes keyset_id ++ be_bytes 8 counter ++ String last EmptyString)%string.

Definition secret_from_seed (seed : string) (keyset_id : KeyId) (counter : N) : res Error string :=
  match version keyset_id with
  | Version00 => let? k := legacy_key seed keyset_id counter 0 in Ok (Hex.encode (seckey_bytes k))
  | Version01 => Ok (Hex.encode (hmac_sha256 seed (kdf_message keyset_id counter "000"%char)))
  end.

Definition key_from_seed (seed : string) (keyset_id : KeyId) (counter : N) : res Error seckey :=
  match version keyset_id with
  | Version00 => legacy_key seed keyset_id counter 1
  | Version01 => ok_or SSecp (seckey_from_slice (hmac_sha256 seed (kdf_message keyset_id counter "001"%char)))
  end.

(** ** Outputs *)

Record PreMint := mkPreMint {
  pm_blinded_message : BlindedMessage;
  pm_secret : string;
  pm_r : seckey;
  pm_amount : N;
}.

Record PreMintSecrets := mkPreMintSecrets { pms_secrets : list PreMint; pms_keyset_id : KeyId }.

(** One output: the secret is blinded with [factor], or with the fresh one. *)
Definition pre_mint (keyset_id : KeyId) (secret : string) (factor : option seckey) (fresh : seckey) (amount : N)
    : res Error PreMint :=
  let? (blinded, r) := map_err SDHKE (blind_message secret factor fresh) in
  Ok (mkPreMint (BlindedMessage_new amount (id_to_string keyset_id) blinded) secret r amount).

Definition pre_mint_from_seed (seed : string) (keyset_id : KeyId) (counter amount : N) : res Error PreMint :=
  let? secret := secret_from_seed seed keyset_id counter in
  let? blinding_factor := key_from_seed seed keyset_id counter in
  pre_mint keyset_id secret (Some blinding_factor) blinding_factor amount.

(** The loop of [PreMintSecrets::from_seed]. *)
Fixpoint from_seed_loop (seed : string) (keyset_id : KeyId) (counter : N) (amounts : list N) : res Error (list PreMint) :=
  match amounts with
  | [] => Ok []
  | amount :: amounts' =>
      let? pm := pre_mint_from_seed seed keyset_id counter amount in
      let? pms := from_seed_loop seed keyset_id ((counter + 1) mod 2 ^ 32) amounts' in
      Ok (pm :: pms)
  end.

(** [PreMintSecrets::from_seed]; the split takes [fuel]. *)
Definition from_seed (fuel : nat) (keyset_id : KeyId) (counter : N) (seed : string) (amount : N)
    (amount_split_target : Amount.SplitTarget) (fee_and_amounts : Amount.FeeAndAmounts) : option (res Error PreMintSecrets) :=
  r ← Amount.split_targeted fuel amount amount_split_target fee_and_amounts;
  Some (let? parts := map_err SAmount r in
        let? pms := from_seed_loop seed keyset_id counter parts in
        Ok (mkPreMintSecrets pms keyset_id)).

(** The number of blank outputs for a change of at most [amount]: the source
    computes the logarithm in floating point, which gives this for amounts up to
    [2^48]. *)
Definition blank_count (amount : N) : N := N.max (N.log2_up amount) 1.

(** [from_seed_blank]. *)
Definition from_seed_blank (keyset_id : KeyId) (counter : N) (seed : string) (amount : N) : res Error PreMintSecrets :=
  if amount =? 0 then Ok (mkPreMintSecrets [] keyset_id)
  else let? pms := from_seed_loop seed keyset_id counter (replicate (N.to_nat (blank_count amount)) 0) in
       Ok (mkPreMintSecrets pms keyset_id).

(** [for i in start_count..=end_count]. *)
Fixpoint restore_loop (seed : string) (keyset_id : KeyId) (i : N) (n : nat) : res Error (list PreMint) :=
  match n with
  | O => Ok []
  | S n' =>
      let? pm := pre_mint_from_seed seed keyset_id i 0 in
      let? pms := restore_loop seed keyset_id (i + 1) n' in
      Ok (pm :: pms)
  end.
Definition restore_batch (keyset_id : KeyId) (seed : string) (start_count end_count : N) : res Error PreMintSecrets :=
  let? pms := restore_loop seed keyset_id start_count (N.to_nat (end_count + 1 - start_count)) in
  Ok (mkPreMintSecrets pms keyset_id).

(** [random] and [with_conditions]: [secret_for] and [factor] draw the secret and
    the blinding factor of output [i]. *)
Fixpoint random_loop (keyset_id : KeyId) (secret_for : nat -> string) (factor : nat -> seckey) (i : nat) (amounts : list N)
    : res Error (list PreMint) :=
  match amounts with
  | [] => Ok []
  | amount :: amounts' =>
      let? pm := pre_mint keyset_id (secret_for i) None (factor i) amount in
      let? pms := random_loop keyset_id secret_for factor (1 + i) amounts' in
      Ok (pm :: pms)
  end.
Definition random (fuel : nat) (keyset_id : KeyId) (secret_for : nat -> string) (factor : nat -> seckey) (amount : N)
    (amount_split_target : Amount.SplitTarget) (fee_and_amounts : Amount.FeeAndAmounts) : option (res Error PreMintSecrets) :=
  r ← Amount.split_targeted fuel amount amount_split_target fee_and_amounts;
  Some (let? parts := map_err SAmount r in
        let? pms := random_loop keyset_id secret_for factor 0 parts in
        Ok (mkPreMintSecrets pms keyset_id)).
Definition with_conditions (fuel : nat) (keyset_id : KeyId) (nonce : nat -> string) (factor : nat -> seckey) (amount : N)
    (amount_split_target : Amount.SplitTarget) (conditions : SpendingConditions) (fee_and_amounts : Amount.FeeAndAmounts)
    : option (res Error PreMintSecrets) :=
  random fuel keyset_id (fun i => sc_into_secret (nonce i) conditions) factor amount amount_split_target fee_and_amounts.

(** [from_secrets]: as many outputs as the shorter list has entries. *)
Fixpoint from_secrets_loop (keyset_id : KeyId) (factor : nat -> seckey) (i : nat) (l : list (string * N)) : res Error (list PreMint) :=
  match l with
  | [] => Ok []
  | (secret, amount) :: l' =>
      let? pm := pre_mint keyset_id secret None (factor i) amount in
      let? pms := from_secrets_loop keyset_id factor (1 + i) l' in
      Ok (pm :: pms)
  end.
Definition from_secrets (keyset_id : KeyId) (factor : nat -> seckey) (amounts : list N) (secrets : list string) : res Error PreMintSecrets :=
  let? pms := from_secrets_loop keyset_id factor 0 (zip secrets amounts) in
  Ok (mkPreMintSecrets pms keyset_id).

Definition pms_total_amount (self : PreMintSecrets) : res Amount.Error N := Amount.try_sum (pm_amount <$> pms_secrets self).
Definition blinded_messages (self : PreMintSecrets) : list BlindedMessage := pm_blinded_message <$> pms_secrets self.
Definition pms_secret_list (self : PreMintSecrets) : list string := pm_secret <$> pms_secrets self.
Definition rs (self : PreMintSecrets) : list seckey := pm_r <$> pms_secrets self.
Definition pms_amounts (self : PreMintSecrets) : list N := pm_amount <$> pms_secrets self.
Definition combine (self other : PreMintSecrets) : PreMintSecrets :=
  mkPreMintSecrets (pms_secrets self ++ pms_secrets other) (pms_keyset_id self).

(** [sort]: stable, by amount. *)
Fixpoint insert_pm (p : PreMint) (l : list PreMint) : list PreMint :=
  match l with
  | [] => [p]
  | q :: l' => if pm_amount p <=? pm_amount q then p :: l else q :: insert_pm p l'
  end.
Definition sort_secrets (self : PreMintSecrets) : PreMintSecrets :=
  mkPreMintSecrets (foldr insert_pm [] (pms_secrets self)) (pms_keyset_id self).

End defs.
End Secrets.
