(* ===== verification/SecretsFacts.v ===== *)
(** * Deterministic secrets: restoring and telling apart

    What a wallet derived from its seed it derives again; different keysets of
    the current version, counters and purposes give different messages to the
    key derivation, while keysets of the first version can share their secrets. *)
From Stdlib Require Import Ascii.
From stdpp Require Import base numbers list sorting strings gmap.
From S2P Require Import Prelude Amount Hex Nuts KeysetId Bdhke Conditions Concrete States MintDb Mint Keysets ConcreteCurve Secrets.
Import Nut00 KeysetId Bdhke Keysets Secrets.

Local Open Scope N_scope.
Local Open Scope res_scope.

Module SecretsFacts.
Section facts.
Context {CR : Crypto} {CV : Curve CR} {BP : Bip32 CR} {KDF : SeedKdf CR BP} {SD : Serde}.

(** Outputs that differ in their amount only. *)
Definition same_output (p q : PreMint) : Prop :=
  pm_secret p = pm_secret q /\ pm_r p = pm_r q /\
  blinded_secret (pm_blinded_message p) = blinded_secret (pm_blinded_message q) /\
  bm_keyset_id (pm_blinded_message p) = bm_keyset_id (pm_blinded_message q).

Lemma pre_mint_same seed kid c a a' p : pre_mint_from_seed seed kid c a = Ok p ->
  exists q, pre_mint_from_seed seed kid c a' = Ok q /\ same_output p q.
Proof.
  unfold pre_mint_from_seed, pre_mint. destruct (secret_from_seed seed kid c) as [s| |]; [|done..].
  destruct (key_from_seed seed kid c) as [k| |]; [|done..]. destruct (blind_message s (Some k) k) as [[b r]| |]; [|done..].
  intros [= <-]. eexists. split; [done|]. done.
Qed.

Lemma from_seed_lookup seed kid amounts : forall c pms i p,
  c + N.of_nat (length amounts) <= 2 ^ 32 -> from_seed_loop seed kid c amounts = Ok pms -> pms !! i = Some p ->
  exists a, amounts !! i = Some a /\ pre_mint_from_seed seed kid (c + N.of_nat i) a = Ok p.
Proof.
  induction amounts as [|a amounts IH]; intros c pms i p Hc H Hi; cbn [from_seed_loop] in H; [by injection H as <-|].
  destruct (pre_mint_from_seed seed kid c a) as [pm| |] eqn:Hp; [|done..].
  destruct (from_seed_loop seed kid ((c + 1) mod 2 ^ 32) amounts) as [pms'| |] eqn:Hl; [|done..]. injection H as <-.
  cbn [length] in Hc. destruct i as [|i]; [injection Hi as <-; exists a; rewrite N.add_0_r; done|].
  destruct amounts as [|a2 amounts]; [by injection Hl as <-|].
  rewrite N.mod_small in Hl by (cbn [length] in Hc; lia).
  destruct (IH (c + 1) pms' i p ltac:(cbn [length] in *; lia) Hl Hi) as (a' & Ha & Hpm). exists a'. split; [done|].
  by replace (c + N.of_nat (S i)) with (c + 1 + N.of_nat i) by lia.
Qed.

Lemma restore_lookup seed kid n : forall c batch j,
  restore_loop seed kid c n = Ok batch -> (j < n)%nat ->
  exists q, batch !! j = Some q /\ pre_mint_from_seed seed kid (c + N.of_nat j) 0 = Ok q.
Proof.
  induction n as [|n IH]; intros c batch j H Hj; [lia|]. cbn [restore_loop] in H.
  destruct (pre_mint_from_seed seed kid c 0) as [q| |] eqn:Hq; [|done..].
  destruct (restore_loop seed kid (c + 1) n) as [qs| |] eqn:Hl; [|done..]. injection H as <-.
  destruct j as [|j]; [exists q; rewrite N.add_0_r; done|]. destruct (IH _ _ j Hl ltac:(lia)) as (q' & H1 & H2).
  exists q'. split; [done|]. by replace (c + N.of_nat (S j)) with (c + 1 + N.of_nat j) by lia.
Qed.

(** C32. A wallet can be restored from its seed: every output that was derived
    from the seed is derived again by a batch over a range of counters that
    contains its own, at the place of its counter, with the same secret, the
    same blinding factor and the same blinded secret; so the signatures that
    the mint returns for the batch unblind to the same proofs. *)
Theorem seed_restores_outputs fuel kid counter seed amount target fa pms start stop batch
    (Hseed : from_seed fuel kid counter seed amount target fa = Some (Ok pms))
    (Hbatch : restore_batch kid seed start stop = Ok batch)
    (Hrange : start <= counter /\ counter + N.of_nat (length (pms_secrets pms)) <= stop + 1 <= 2 ^ 32) :
  forall i p, pms_secrets pms !! i = Some p ->
    exists q, pms_secrets batch !! (N.to_nat (counter - start) + i)%nat = Some q /\ same_output p q /\
      forall keys g, construct_proof keys g (pm_r q) (pm_secret q) = construct_proof keys g (pm_r p) (pm_secret p).
Proof.
  intros i p Hi. unfold from_seed in Hseed. destruct (Amount.split_targeted fuel amount target fa) as [[parts| |]|]; [|done..].
  cbn in Hseed. destruct (from_seed_loop seed kid counter parts) as [l| |] eqn:Hl; [|done..]. injection Hseed as <-. cbn in *.
  unfold restore_batch in Hbatch. destruct (restore_loop seed kid start _) as [qs| |] eqn:Hq; [|done..]. injection Hbatch as <-. cbn.
  pose proof (lookup_lt_Some _ _ _ Hi) as Hlt.
  assert (Hlen : length l = length parts).
  { clear -Hl. revert counter l Hl. induction parts as [|a parts IH]; intros c l Hl; cbn [from_seed_loop] in Hl; [by injection Hl as <-|].
    destruct (pre_mint_from_seed seed kid c a); [|done..]. destruct (from_seed_loop seed kid _ parts) as [l'| |] eqn:Hl'; [|done..].
    injection Hl as <-. cbn. f_equal. by eapply IH. }
  destruct (from_seed_lookup seed kid parts counter l i p ltac:(lia) Hl Hi) as (a & _ & Hp).
  destruct (restore_lookup seed kid _ start qs (N.to_nat (counter - start) + i) Hq ltac:(lia)) as (q & Hqi & Hq').
  replace (start + N.of_nat (N.to_nat (counter - start) + i)) with (counter + N.of_nat i) in Hq' by lia.
  exists q. split; [done|]. destruct (pre_mint_same _ _ _ _ 0 _ Hp) as (q2 & Hq2 & Hsame).
  rewrite Hq' in Hq2. injection Hq2 as <-. split; [done|]. destruct Hsame as (-> & -> & _). done.
Qed.

(** ** What the key derivation is asked *)

Lemma be_bytes_length n v : String.length (be_bytes n v) = n.
Proof. induction n as [|n IH]; [done|]. cbn. by rewrite IH. Qed.

Lemma ascii_of_N_inj a b : a < 256 -> b < 256 -> ascii_of_N a = ascii_of_N b -> a = b.
Proof. intros Ha Hb H%(f_equal N_of_ascii). by rewrite !N_ascii_embedding in H by done. Qed.

Lemma be_bytes_inj n : forall v w, be_bytes n v = be_bytes n w -> v mod 2 ^ (8 * N.of_nat n) = w mod 2 ^ (8 * N.of_nat n).
Proof.
  induction n as [|n IH]; intros v w H; [by rewrite !N.mod_1_r|]. cbn [be_bytes] in H. injection H as Hhd Htl.
  set (b := 2 ^ (8 * N.of_nat n)) in *. assert (Hb : b <> 0) by (by apply N.pow_nonzero).
  assert (Hhead : v / b mod 256 = w / b mod 256).
  { apply ascii_of_N_inj; [apply N.mod_lt; lia|apply N.mod_lt; lia|exact Hhd]. }
  replace (2 ^ (8 * N.of_nat (S n))) with (b * 256) by (unfold b; rewrite Nat2N.inj_succ, N.mul_succ_r, N.pow_add_r; done).
  rewrite !N.Div0.mod_mul_r, Hhead, (IH _ _ Htl). done.
Qed.

(** The key derivation is never asked the same thing twice: the message for
    a keyset of the current version determines the keyset, the counter and
    whether it is for the secret or for the blinding factor. *)
Theorem kdf_message_inj kid kid' c c' last last'
    (Hv : version kid = Version01) (Hv' : version kid' = Version01) (Hwf : wf kid) (Hwf' : wf kid')
    (Hc : c < 2 ^ 64) (Hc' : c' < 2 ^ 64) (H : kdf_message kid c last = kdf_message kid' c' last') :
  kid = kid' /\ c = c' /\ last = last'.
Proof.
  destruct kid as [v [b|b]], kid' as [v' [b'|b']]; cbn in Hv, Hv'; subst v v'; try done. unfold wf in Hwf, Hwf'. cbn in Hwf, Hwf'.
  unfold kdf_message in H. apply string_app_inj in H as [_ H]; [|done]. unfold id_to_bytes in H. cbn [version id to_vec] in H.
  apply string_app_inj in H as [Hb H]; [|cbn; congruence]. injection Hb as <-.
  apply string_app_inj in H as [Hn Hl]; [|by rewrite !be_bytes_length]. injection Hl as <-.
  apply be_bytes_inj in Hn. rewrite !N.mod_small in Hn by done. done.
Qed.

(** The path of a keyset of the first version always exists. *)
Lemma legacy_path kid : exists p z k, derive_path_from_keyset_id kid = Ok [p; z; k] /\ child_index k = id_to_u32 kid.
Proof.
  unfold derive_path_from_keyset_id. assert (Hlt : id_to_u32 kid < 2 ^ 31).
  { unfold id_to_u32. set (n := from_be_bytes _). pose proof (N.mod_lt n (2 ^ 31 - 1) ltac:(done)). lia. }
  unfold from_hardened_idx. rewrite (proj2 (N.ltb_lt _ _) Hlt). cbn. eauto 8.
Qed.

(** Keysets of the first version can share their secrets: the derivation
    uses the id modulo [2^31 - 1] only, so two keysets with the same remainder
    have the same secret and blinding factor for every seed and counter. *)
Theorem legacy_secrets_shared kid kid' seed c
    (Hv : version kid = Version00) (Hv' : version kid' = Version00) (Hmod : id_to_u32 kid = id_to_u32 kid') :
  secret_from_seed seed kid c = secret_from_seed seed kid' c /\ key_from_seed seed kid c = key_from_seed seed kid' c.
Proof.
  unfold secret_from_seed, key_from_seed, legacy_key, derive_path_from_keyset_id. by rewrite Hv, Hv', Hmod.
Qed.

End facts.
End SecretsFacts.

(** ** Concrete secrets *)
Module ConcreteSecrets.
Import ConcreteCurve SecretsFacts.

#[export] Instance kdf : SeedKdf crypto bip32 := {|
  new_master seed := match seed with String b _ => Some b | EmptyString => None end;
  hmac_sha256 seed message := bytes32 (ascii_of_N (checksum 0 (seed ++ message)%string));
|}.

Definition seven (b : ascii) : string := copies 7 b.
Definition old_id : KeyId := mkKeyId Version00 (V1 (seven "a"%char)).
Definition new_id : KeyId := mkKeyId Version01 (V2 (bytes32 "a"%char)).

Definition denominations : Amount.FeeAndAmounts := Amount.mkFeeAndAmounts 0 (Amount.pow2_amounts 4).
Definition no_outputs : PreMintSecrets := mkPreMintSecrets [] old_id.
Definition derived : PreMintSecrets :=
  match from_seed 10 old_id 3 "seed" 5 Amount.STNone denominations with Some (Ok p) => p | _ => no_outputs end.
Definition batch : PreMintSecrets := match restore_batch old_id "seed" 0 9 with Ok p => p | _ => no_outputs end.

Definition first_output : PreMint :=
  match pms_secrets derived with p :: _ => p | [] => mkPreMint (mkBlindedMessage 0 "" "?"%char None) "" "?"%char 0 end.

(** Evaluating whether there is a result is enough to name it. *)
Lemma result_named {E A} (d : A) (o : option (res E A)) :
  (match o with Some (Ok _) => true | _ => false end) = true -> o = Some (Ok (match o with Some (Ok a) => a | _ => d end)).
Proof. by destruct o as [[]|]. Qed.

Lemma head_named {A} (d : A) (l : list A) :
  (match l with [] => false | _ => true end) = true -> l !! 0%nat = Some (match l with a :: _ => a | [] => d end).
Proof. by destruct l. Qed.

Lemma seed_restores_outputs_witness :
  exists q, pms_secrets batch !! 3%nat = Some q /\ same_output first_output q /\
    forall keys g, construct_proof keys g (pm_r q) (pm_secret q) = construct_proof keys g (pm_r first_output) (pm_secret first_output).
Proof.
  apply (seed_restores_outputs 10 old_id 3 "seed" 5 Amount.STNone denominations derived 0 9 batch) with (i := 0%nat).
  - apply result_named. vm_compute. reflexivity.
  - apply (ConcreteSignatory.Ok_default no_outputs). vm_compute. reflexivity.
  - vm_compute. repeat split; discriminate.
  - apply head_named. vm_compute. reflexivity.
Defined.

Lemma kdf_message_inj_witness : new_id = new_id /\ 7 = 7 /\ "000"%char = "000"%char.
Proof. apply kdf_message_inj; reflexivity. Defined.

(** Two different ids with the same remainder. *)
Definition twin (tail : string) : KeyId := mkKeyId Version00 (V1 tail).
Definition zero_id : KeyId := twin (seven "000"%char).
Definition zero_twin : KeyId := twin (copies 3 "000"%char ++ String "127"%char (copies 3 "255"%char))%string.

Lemma legacy_secrets_shared_witness :
  secret_from_seed "seed" zero_id 5 = secret_from_seed "seed" zero_twin 5 /\
  key_from_seed "seed" zero_id 5 = key_from_seed "seed" zero_twin 5.
Proof. apply legacy_secrets_shared; [reflexivity|reflexivity|vm_compute; reflexivity]. Defined.

Example twins_differ : id_to_string zero_id <> id_to_string zero_twin.
Proof. vm_compute. discriminate. Qed.

End ConcreteSecrets.
