(* ===== verification/Swap.v ===== *)
(** * The swap saga (crates/cdk/src/mint/swap, start_up_check.rs)

    A swap spends its inputs for signatures on its outputs in two database
    transactions with the signing in between.  The saga records how to undo the
    first transaction; an interrupted swap is undone by the saga itself or, after
    a restart, by [recover_from_incomplete_sagas]. *)
From stdpp Require Import base numbers list sorting strings gmap fin_maps.
From S2P Require Import Prelude Amount Nuts Conditions Spending States MintDb Mint.

Local Open Scope N_scope.
Local Open Scope res_scope.
Local Open Scope mint_scope.

Module Swap.
Import Nut00 Requests StateRules MintTypes MintDb Mint.

Section defs.
Context {CR : Crypto} {SD : Serde} {SG : Signatory}.

(** [RemoveSwapSetup], the only compensating action. *)
Record RemoveSwapSetup := mkRemoveSwapSetup {
  rs_blinded_secrets : list pubkey;
  rs_input_ys : list pubkey;
}.

(** [compensation.execute(&db)]. *)
Definition execute (c : RemoveSwapSetup) : Mt unit :=
  match rs_blinded_secrets c, rs_input_ys c with
  | [], [] => mret tt
  | _, _ =>
      do_ db begin_transaction ;
      do_ (match rs_blinded_secrets c with
           | [] => mret tt
           | _ => db (tx (delete_blinded_messages (rs_blinded_secrets c)))
           end) ;
      do_ (match rs_input_ys c with
           | [] => mret tt
           | _ => db (tx (remove_proofs (rs_input_ys c)))
           end) ;
      db commit
  end.

(** ** Typestates *)

Record SetupComplete := mkSetupComplete {
  sc_blinded_messages : list BlindedMessage;
  sc_ys : list pubkey;
}.

Record Signed := mkSigned {
  sd_blinded_messages : list BlindedMessage;
  sd_ys : list pubkey;
  sd_signatures : list BlindSignature;
}.

Record SwapSaga (S : Type) := mkSwapSaga {
  sg_compensations : list RemoveSwapSetup;
  sg_operation : Operation;
  sg_state : S;
}.
Arguments mkSwapSaga {S} _ _ _.
Arguments sg_compensations {S} _.
Arguments sg_operation {S} _.
Arguments sg_state {S} _.

(** [tx.rollback().await?; return Err(e)]. *)
Definition rollback_err {A} (e : MError) : Mt A := do_ db rollback ; mfail e.

(** The first original state that forbids the swap. *)
Fixpoint forbidden (states : list (option Nut07.State)) : option MError :=
  match states with
  | [] => None
  | Some Nut07.Pending :: _ => Some TokenPending
  | Some Nut07.Spent :: _ => Some TokenAlreadySpent
  | _ :: states' => forbidden states'
  end.

(** The inputs of TX1: add the proofs and move them to pending. *)
Definition setup_inputs (now : N) (op : Operation) (input_proofs : list Proof) (quote_id : option QuoteId)
    : Mt (list pubkey) :=
  do added <- mtry (tx (add_proofs now input_proofs quote_id op)) ;
  match added with
  | inr err => rollback_err (match err with
                             | Duplicate => TokenPending
                             | AttemptUpdateSpentProof => TokenAlreadySpent
                             | err => MDatabase err
                             end)
  | inl _ =>
      do ys <- mlift (map_err MNUT00 (Nut00.ys input_proofs)) ;
      do updated <- mtry (tx (update_proofs_states ys Nut07.Pending)) ;
      match updated with
      | inr (AttemptUpdateSpentProof | AttemptRemoveSpentProof) => rollback_err TokenAlreadySpent
      | inr err => rollback_err (of_db_error err)
      | inl original_proof_states =>
          if negb (Nat.eqb (length ys) (length original_proof_states)) then rollback_err MInternal
          else match forbidden original_proof_states with
               | Some e => rollback_err e
               | None => mret ys
               end
      end
  end.

(** TX1. *)
Definition setup_swap (now : N) (keysets : Keysets) (op : Operation) (input_proofs : list Proof)
    (blinded_messages : list BlindedMessage) (quote_id : option QuoteId) (input_verification : Verification)
    : Mt (SwapSaga SetupComplete) :=
  do_ db begin_transaction ;
  do_ verify_transaction_balanced keysets input_verification input_proofs blinded_messages ;
  do ys <- setup_inputs now op input_proofs quote_id ;
  do added <- mtry (tx (add_blinded_messages now quote_id blinded_messages op)) ;
  do_ (match added with
       | inr err => rollback_err (match err with Duplicate => DuplicateOutputs | err => MDatabase err end)
       | inl _ => mret tt
       end) ;
  do_ mfor (fun y => publish (EvProofState y Nut07.Pending)) ys ;
  let secrets := map blinded_secret blinded_messages in
  do saved <- mtry (tx (add_saga now (Saga_new_swap now (op_id op) SetupCompleteState secrets ys))) ;
  do_ (match saved with inr err => rollback_err (of_db_error err) | inl _ => mret tt end) ;
  do_ db commit ;
  mret (mkSwapSaga [mkRemoveSwapSetup secrets ys] op (mkSetupComplete blinded_messages ys)).

(** [compensate_all]: failures are only logged. *)
Fixpoint run_compensations (cs : list RemoveSwapSetup) : Mt unit :=
  match cs with
  | [] => mret tt
  | c :: cs' => do_ mtry (F:=MError) (execute c) ; run_compensations cs'
  end.

Definition delete_saga_best_effort (id : Uuid) : Mt unit :=
  do begun <- mtry (F:=MError) begin_transaction ;
  match begun with
  | inr _ => mret tt
  | inl _ =>
      do deleted <- mtry (F:=MError) (tx (delete_saga id)) ;
      match deleted with
      | inr _ => mret tt
      | inl _ => do_ mtry (F:=MError) commit ; mret tt
      end
  end.

Definition compensate_all {S} (self : SwapSaga S) : Mt unit :=
  match sg_compensations self with
  | [] => mret tt
  | cs => do_ run_compensations cs ; delete_saga_best_effort (op_id (sg_operation self))
  end.

Definition sign_outputs (self : SwapSaga SetupComplete) : Mt (SwapSaga Signed) :=
  match signatory_blind_sign (sc_blinded_messages (sg_state self)) with
  | Ok signatures =>
      mret (mkSwapSaga (sg_compensations self) (sg_operation self)
        (mkSigned (sc_blinded_messages (sg_state self)) (sc_ys (sg_state self)) signatures))
  | Err err => do_ compensate_all self ; mfail err
  | Panic => mpanic
  end.

(** TX2 up to its commit; [inr e] is the path that rolls back and compensates. *)
Definition finalize_tx (now : N) (self : SwapSaga Signed) : Mt (unit + MError) :=
  let st := sg_state self in
  do_ db begin_transaction ;
  do added <- mtry (tx (add_blind_signatures now (map blinded_secret (sd_blinded_messages st)) (sd_signatures st) None)) ;
  match added with
  | inr err => do_ db rollback ; mret (inr (of_db_error err))
  | inl _ =>
      do updated <- mtry (tx (update_proofs_states (sd_ys st) Nut07.Spent)) ;
      match updated with
      | inr (AttemptUpdateSpentProof | AttemptRemoveSpentProof) => do_ db rollback ; mret (inr TokenAlreadySpent)
      | inr err => do_ db rollback ; mret (inr (of_db_error err))
      | inl _ =>
          do_ mfor (fun y => publish (EvProofState y Nut07.Spent)) (sd_ys st) ;
          (* best effort: a failure is logged and the transaction still commits *)
          do_ mtry (F:=MError) (tx (delete_saga (op_id (sg_operation self)))) ;
          do_ db commit ;
          mret (inl tt)
      end
  end.

Definition finalize (now : N) (self : SwapSaga Signed) : Mt (list BlindSignature) :=
  do done <- finalize_tx now self ;
  match done with
  | inr err => do_ compensate_all self ; mfail err
  | inl _ => mret (sd_signatures (sg_state self))
  end.

(** ** The handler *)

Definition process_swap_request (now : N) (keysets : Keysets) (op_uuid : Uuid) (r : SwapRequest)
    : Mt (list BlindSignature) :=
  do_ mlift (map_err MNUT03 (input_amount r)) ;
  do_ mlift (map_err MNUT03 (output_amount r)) ;
  do input_verification <- mlift (verify_inputs now keysets (swap_inputs r)) ;
  do_ mlift (map_err MNUT11 (Spending.validate_sig_flag r)) ;
  do setup_saga <- setup_swap now keysets (OpSwap op_uuid) (swap_inputs r) (swap_outputs r) None input_verification ;
  do signed_saga <- sign_outputs setup_saga ;
  finalize now signed_saga.

(** ** Recovery at start-up *)

Fixpoint recover_loop (sagas : list Saga) : Mt unit :=
  match sagas with
  | [] => mret tt
  | saga :: sagas' =>
      do compensated <- mtry (F:=MError)
        (execute (mkRemoveSwapSetup (blinded_secrets saga) (input_ys saga))) ;
      match compensated with
      | inr _ => recover_loop sagas'
      | inl _ =>
          do_ db begin_transaction ;
          do deleted <- mtry (tx (delete_saga (operation_id saga))) ;
          match deleted with
          | inr _ => do_ db rollback ; recover_loop sagas'
          | inl _ => do_ db commit ; recover_loop sagas'
          end
      end
  end.

Definition recover_from_incomplete_sagas : Mt unit :=
  do sagas <- db (read_store (fun d => Ok (get_incomplete_sagas OKSwap d))) ;
  match sagas with [] => mret tt | _ => recover_loop sagas end.

End defs.
End Swap.
