(* ===== verification/SwapFacts.v ===== *)
(** * Correctness of the swap saga

    For every schedule of database faults: a swap that returns signatures has
    spent exactly its inputs, stored exactly those signatures and conserved
    value; a swap that fails leaves the proof and signature tables as they were,
    or leaves its setup behind for the recovery at start-up, which restores
    them. *)
From stdpp Require Import base numbers list sorting strings gmap fin_maps.
From S2P Require Import Prelude Amount Nuts Conditions Concrete Spending States MintDb MintDbFacts MintDbSpec Mint MintFacts Swap.

Local Open Scope N_scope.

Module SwapFacts.
Import Nut00 Requests StateRules MintTypes MintDb MintDbFacts MintDbSpec Mint MintFacts Swap.

Section facts.
Context {CR : Crypto} {SD : Serde} {SG : Signatory}.

Lemma ks_rollback_err {A} e : keeps_store (rollback_err e : Mt A).
Proof. apply ks_mseq; [apply ks_rollback|intros; apply ks_mfail]. Qed.

#[local] Hint Resolve ks_rollback_err : cdk.

Lemma ks_setup_inputs now op ps q : keeps_store (setup_inputs now op ps q).
Proof. unfold setup_inputs. ks_auto. Qed.

(** TX1 that does not succeed changes nothing. *)
Lemma setup_swap_fails now keysets op ps ms q v w r w' :
  setup_swap now keysets op ps ms q v w = (r, w') -> (forall s, r <> Ok s) -> w_store w' = w_store w.
Proof.
  intros H Hr. assert (Hww : writes_when (fun _ => True) (setup_swap now keysets op ps ms q v));
    [|eapply Hww; [exact H|]; intros a ->; by destruct (Hr a)].
  unfold setup_swap. apply ww_mseq; [ks_auto|intros _].
  apply ww_mseq; [apply ks_verify_balanced|intros _].
  apply ww_mseq; [apply ks_setup_inputs|intros ys].
  repeat (apply ww_mseq; [solve [ks_auto]|intros]). by apply ww_commit.
Qed.
(** ** TX1 *)

Definition setup_db (now : N) (op : Operation) (ps : list Proof) (ms : list BlindedMessage) (ys : list pubkey)
    (d : Db) : Db :=
  mkDb (update_states ys Nut07.Pending (proof_rows now None op ys ps ∪ db_proof d))
    (message_rows now None op ms ∪ db_blind_signature d)
    (<[op_id op := Saga_new_swap now (op_id op) SetupCompleteState (map blinded_secret ms) ys]> (db_saga_state d))
    (db_mint_quote d) (db_mint_quote_payments d) (db_mint_quote_issued d) (db_melt_quote d) (db_melt_request d).

Lemma setup_inputs_Ok now op ps q w ys w' :
  setup_inputs now op ps q w = (Ok ys, w') ->
  addable (w_tx w) ps ys /\ w_store w' = w_store w /\
  w_tx w' = set_proof (w_tx w) (update_states ys Nut07.Pending (proof_rows now q op ys ps ∪ db_proof (w_tx w))).
Proof.
  unfold setup_inputs. intros (added & w1 & Ha & H)%mseq_Ok.
  destruct added as [[]|e]; [|by apply mseq_Ok in H as (? & ? & _ & ?)].
  apply mtry_inl, tx_Ok in Ha as [Ha Hs1]. apply add_proofs_Ok in Ha as (ys' & Hadd & Ht1).
  apply mlift_seq in H as (ys'' & Hys & H). destruct Hadd as (Hys' & Hadd). rewrite Hys' in Hys.
  cbn in Hys. injection Hys as <-. apply mseq_Ok in H as (updated & w2 & Hu & H).
  destruct updated as [states|e]; [|destruct e; by apply mseq_Ok in H as (? & ? & _ & ?)].
  apply mtry_inl, tx_Ok in Hu as [Hu Hs2].
  apply update_proofs_states_Ok in Hu as (_ & Ht2 & _).
  destruct (Nat.eqb _ _); cbn [negb] in H; [|by apply mseq_Ok in H as (? & ? & _ & ?)].
  destruct (forbidden states); [by apply mseq_Ok in H as (? & ? & _ & ?)|].
  injection H as <- <-. split; [done|]. split; [congruence|]. rewrite Ht2, Ht1. done.
Qed.

Lemma setup_swap_Ok now keysets op ps ms v w saga w' :
  setup_swap now keysets op ps ms None v w = (Ok saga, w') -> is_Some (v_unit v) ->
  exists ys, addable (w_store w) ps ys /\ reservable (w_store w) ms /\ balanced keysets ps ms (v_amount v) /\
    db_saga_state (w_store w) !! op_id op = None /\
    saga = mkSwapSaga _ [mkRemoveSwapSetup (map blinded_secret ms) ys] op (mkSetupComplete ms ys) /\
    w_store w' = setup_db now op ps ms ys (w_store w).
Proof.
  unfold setup_swap. intros (u & w1 & [Hs1 Ht1]%begin_Ok & H)%mseq_Ok Hv.
  apply mseq_Ok in H as (u2 & w2 & Hbal & H).
  pose proof (ks_verify_balanced keysets v ps ms w1) as Hs2. rewrite Hbal in Hs2. cbn in Hs2.
  apply verify_balanced_Ok in Hbal as [Ht2 Hbal]; [|done].
  apply mseq_Ok in H as (ys & w3 & (Hadd & Hs3 & Ht3)%setup_inputs_Ok & H).
  apply mseq_Ok in H as (added & w4 & Hadded & H).
  destruct added as [[]|e]; [|by apply mseq_Ok in H as (? & ? & (? & ? & ? & ?)%mseq_Ok & ?)].
  apply mtry_inl, tx_Ok in Hadded as [Hm Hs4]. apply add_blinded_messages_Ok in Hm as [Hres Ht4].
  apply mseq_Ok in H as (? & w5 & [= <- <-] & H).
  apply mseq_Ok in H as (? & w6 & [Hs6 Ht6]%publish_all_Ok & H). cbn zeta in H.
  apply mseq_Ok in H as (saved & w7 & Hsaved & H).
  destruct saved as [[]|e]; [|by apply mseq_Ok in H as (? & ? & (? & ? & ? & ?)%mseq_Ok & ?)].
  apply mtry_inl, tx_Ok in Hsaved as [Hsg Hs7]. apply add_saga_Ok in Hsg as [Hfresh Ht7].
  apply mseq_Ok in H as (? & w8 & [= <- <-] & H).
  apply mseq_Ok in H as (? & w9 & Hc%commit_Ok & [= <- <-]).
  rewrite Ht2, Ht1 in *. cbn in Hfresh. rewrite Ht6, Ht4, Ht3 in *. cbn in *.
  exists ys. split_and!; [done| |done|done|done|].
  - destruct Hres as (? & ? & ?). done.
  - rewrite Hc, Ht7, ?Ht6, ?Ht4, ?Ht3. done.
Qed.

(** ** TX2 *)

Definition drop_saga (id : Uuid) (d : Db) : Db := set_saga_state d (delete id (db_saga_state d)).

Definition finalize_db (now : N) (bs : list pubkey) (sigs : list BlindSignature) (ys : list pubkey) (d : Db) : Db :=
  set_blind_signature (set_proof d (update_states ys Nut07.Spent (db_proof d)))
    (signed now None (zip bs sigs) (db_blind_signature d)).

Lemma finalize_tx_done now self w w' :
  NoDup (map blinded_secret (sd_blinded_messages (sg_state _ self))) ->
  finalize_tx now self w = (Ok (inl tt), w') ->
  let st := sg_state _ self in
  let bs := map blinded_secret (sd_blinded_messages st) in
  length bs = length (sd_signatures st) /\ signable (w_store w) bs /\
  updatable (w_store w) (sd_ys st) Nut07.Spent /\
  let d := finalize_db now bs (sd_signatures st) (sd_ys st) (w_store w) in
  (w_store w' = drop_saga (op_id (sg_operation _ self)) d \/ w_store w' = d).
Proof.
  intros Hnd. unfold finalize_tx. cbn zeta.
  intros (u & w1 & [Hs1 Ht1]%begin_Ok & H)%mseq_Ok.
  apply mseq_Ok in H as (added & w2 & Ha & H).
  destruct added as [[]|e]; [|by apply mseq_Ok in H as (? & ? & _ & ?)].
  apply mtry_inl, tx_Ok in Ha as [Ha Hs2]. apply add_blind_signatures_Ok in Ha as (Hl & Hsig & Ht2); [|done].
  apply mseq_Ok in H as (updated & w3 & Hu & H).
  destruct updated as [states|e]; [|destruct e; by apply mseq_Ok in H as (? & ? & _ & ?)].
  apply mtry_inl, tx_Ok in Hu as [Hu Hs3]. apply update_proofs_states_Ok in Hu as (Hup & Ht3 & _).
  apply mseq_Ok in H as (? & w4 & [Hs4 Ht4]%publish_all_Ok & H).
  apply mseq_Ok in H as (del & w5 & Hd & H).
  apply mseq_Ok in H as (? & w6 & Hc%commit_Ok & [= <-]).
  rewrite Ht1 in *. rewrite Ht2 in Hup, Ht3. cbn in Ht3. split_and!; [done..|].
  rewrite Hc. destruct del as [[]|e].
  - left. apply mtry_inl, tx_Ok in Hd as [Hd _]. injection Hd as <-. rewrite Ht4, Ht3. done.
  - right. transitivity (w_tx w4); [|by rewrite Ht4, Ht3].
    revert Hd. unfold mtry, tx, faulty. destruct (w_faults w4) as [|[] f]; cbn; intros ?; by simplify_eq/=.
Qed.

Lemma finalize_tx_not_done now self w r w' :
  finalize_tx now self w = (r, w') -> r <> Ok (inl tt) -> w_store w' = w_store w.
Proof.
  intros H Hr. assert (Hww : writes_when (fun a => a = inl tt) (finalize_tx now self));
    [|eapply Hww; [exact H|]; intros a -> ->; done].
  unfold finalize_tx. apply ww_mseq; [ks_auto|intros _].
  apply ww_mseq; [ks_auto|intros [[]|e]]; [|apply ww_keeps; ks_auto].
  apply ww_mseq; [ks_auto|intros [states|e]]; [|destruct e; apply ww_keeps; ks_auto].
  repeat (apply ww_mseq; [solve [ks_auto]|intros]). by apply ww_commit.
Qed.

(** ** Compensation *)

Definition undo_db (bs ys : list pubkey) (d : Db) : Db :=
  set_blind_signature (set_proof d (without ys (db_proof d))) (without_unsigned bs (db_blind_signature d)).

Lemma without_nil m : without [] m = m.
Proof.
  apply map_eq. intros y. rewrite lookup_without. destruct (m !! y); [|done].
  rewrite decide_False; [done|]. intros [Hy _]. set_solver.
Qed.

Lemma without_unsigned_nil m : without_unsigned [] m = m.
Proof.
  apply map_eq. intros y. rewrite lookup_without_unsigned. destruct (m !! y); [|done].
  rewrite decide_False; [done|]. intros [Hy _]. set_solver.
Qed.

Lemma undo_db_alt bs ys d : undo_db bs ys d =
  set_proof (set_blind_signature d (without_unsigned bs (db_blind_signature d))) (without ys (db_proof d)).
Proof. done. Qed.

Lemma execute_Ok bs ys w u w' :
  execute (mkRemoveSwapSetup bs ys) w = (Ok u, w') ->
  removable (w_store w) ys /\ w_store w' = undo_db bs ys (w_store w).
Proof.
  unfold execute. cbn [rs_blinded_secrets rs_input_ys].
  destruct (decide (bs = [] /\ ys = [])) as [[-> ->]|Hne].
  { intros [= <- <-]. split; [split; [constructor|set_solver]|].
    unfold undo_db. rewrite without_nil, without_unsigned_nil. by destruct (w_store w). }
  intros H. assert (H' : mseq (db begin_transaction) (fun _ =>
      mseq (match bs with [] => mret tt | _ => db (tx (delete_blinded_messages bs)) end) (fun _ =>
      mseq (match ys with [] => mret tt | _ => db (tx (remove_proofs ys)) end) (fun _ => db commit))) w = (Ok u, w'))
    by (destruct bs, ys; try done; by destruct Hne). clear H.
  apply mseq_Ok in H' as (? & w1 & [Hs1 Ht1]%begin_Ok & H).
  apply mseq_Ok in H as (? & w2 & Hb & H). apply mseq_Ok in H as (? & w3 & Hy & Hc%commit_Ok).
  assert (Ht2 : w_tx w2 = set_blind_signature (w_tx w1) (without_unsigned bs (db_blind_signature (w_tx w1)))).
  { destruct bs as [|b bs]; [injection Hb as <- <-; rewrite without_unsigned_nil; by destruct (w_tx w1)|].
    apply mmap_err_Ok, tx_Ok in Hb as [Hb _]. rewrite delete_blinded_messages_eq in Hb. by injection Hb. }
  assert (Hr : removable (w_tx w2) ys /\ w_tx w3 = set_proof (w_tx w2) (without ys (db_proof (w_tx w2)))).
  { destruct ys as [|y ys].
    - injection Hy as <- <-. rewrite without_nil. split; [split; [constructor|set_solver]|by destruct (w_tx w2)].
    - apply mmap_err_Ok, tx_Ok in Hy as [Hy _]. destruct x1. by apply remove_proofs_Ok in Hy. }
  destruct Hr as [Hr Ht3]. rewrite Hc, Ht3, Ht2, Ht1, undo_db_alt. rewrite Ht2, Ht1 in Hr. done.
Qed.

Lemma execute_fails c w r w' : execute c w = (r, w') -> r <> Ok tt -> w_store w' = w_store w.
Proof.
  intros H Hr. unfold execute in H.
  assert (Hww : writes_when (fun _ => True) (execute c)).
  { unfold execute.
    assert (Hbody : writes_when (fun _ : unit => True) (mseq (db begin_transaction) (fun _ =>
      mseq (match rs_blinded_secrets c with [] => mret tt | _ => db (tx (delete_blinded_messages (rs_blinded_secrets c))) end) (fun _ =>
      mseq (match rs_input_ys c with [] => mret tt | _ => db (tx (remove_proofs (rs_input_ys c))) end) (fun _ => db commit))))).
    { repeat (apply ww_mseq; [unfold db; solve [ks_auto]|intros]).
      intros w1 r1 w1'. unfold db, mmap_err, commit, faulty, mmodify.
      destruct (w_faults w1) as [|[] f]; cbn; intros [= <- <-] Hn; [|done|]; by destruct (Hn tt). }
    destruct (rs_blinded_secrets c), (rs_input_ys c); try done. apply ww_keeps. ks_auto. }
  eapply Hww; [exact H|]. intros [] ->. done.
Qed.

(** ** Undoing the setup *)

Lemma lookup_setup_proof now op ps ms ys d y :
  addable d ps ys ->
  db_proof (setup_db now op ps ms ys d) !! y =
  if decide (y ∈ ys) then (fun r => set_state r Nut07.Pending) <$> proof_rows now None op ys ps !! y
  else db_proof d !! y.
Proof.
  intros (_ & _ & Hfree & _). cbn. rewrite lookup_update_states. case_decide as Hy.
  - rewrite bool_decide_eq_true_2, lookup_union_l by auto. done.
  - rewrite bool_decide_eq_false_2, lookup_union_r by auto using proof_rows_None. by destruct (db_proof d !! y).
Qed.

Lemma addable_length d ps ys : addable d ps ys -> length ys = length ps.
Proof. intros (H & _). by apply NutsFacts.ys_length in H. Qed.

Lemma lookup_setup_sig now op ps ms ys d b :
  reservable d ms ->
  db_blind_signature (setup_db now op ps ms ys d) !! b =
  if decide (b ∈ map blinded_secret ms) then message_rows now None op ms !! b else db_blind_signature d !! b.
Proof.
  intros (_ & Hfree & _). cbn. case_decide as Hb.
  - apply list_elem_of_fmap in Hb as (m & -> & Hm). rewrite lookup_union_l; [done|]. by apply Hfree.
  - by rewrite lookup_union_r by auto using message_rows_None.
Qed.

Lemma message_rows_Some now q op ms b :
  b ∈ map blinded_secret ms ->
  exists m, m ∈ ms /\ blinded_secret m = b /\ message_rows now q op ms !! b = Some (message_row now q op m).
Proof.
  unfold message_rows. induction ms as [|m ms IH]; cbn; [intros []%not_elem_of_nil|]. intros Hb.
  destruct (decide (blinded_secret m = b)) as [<-|Hne].
  - exists m. rewrite lookup_insert_eq. split_and!; [set_solver|done..].
  - rewrite lookup_insert_ne by done. apply elem_of_cons in Hb as [->|Hb]; [done|].
    destruct (IH Hb) as (m' & ? & ? & ?). exists m'. split_and!; [set_solver|done..].
Qed.

(** The setup removed again, whether or not the saga row is still there. *)
Lemma undo_setup now op ps ms ys d :
  addable d ps ys -> reservable d ms ->
  undo_db (map blinded_secret ms) ys (setup_db now op ps ms ys d) =
  set_saga_state d (db_saga_state (setup_db now op ps ms ys d)).
Proof.
  intros Ha Hr. unfold undo_db, set_blind_signature, set_proof, set_saga_state. cbn -[setup_db]. f_equal.
  - apply map_eq. intros y. rewrite lookup_without, lookup_setup_proof by done. case_decide as Hy.
    + destruct (proof_rows_Some now None op ys ps y) as (p & Hp & Hl); [by eapply addable_length|done|].
      rewrite Hl. cbn. rewrite decide_True by done. destruct Ha as (_ & _ & Hf & _). by rewrite Hf.
    + destruct (db_proof d !! y); [|done]. rewrite decide_False; [done|]. by intros [].
  - apply map_eq. intros b. rewrite lookup_without_unsigned, lookup_setup_sig by done. case_decide as Hb.
    + destruct (message_rows_Some now None op ms b Hb) as (m & Hm & <- & ->).
      cbn. rewrite decide_True by done. destruct Hr as (_ & Hf & _). by rewrite Hf.
    + destruct (db_blind_signature d !! b); [|done]. rewrite decide_False; [done|]. by intros [].
Qed.

Lemma drop_fresh_saga now op ps ms ys d :
  db_saga_state d !! op_id op = None ->
  drop_saga (op_id op) (set_saga_state d (db_saga_state (setup_db now op ps ms ys d))) = d.
Proof.
  intros Hn. unfold drop_saga, set_saga_state. destruct d. cbn in *. f_equal.
  by rewrite delete_insert_id.
Qed.

(** What [compensate_all] can leave behind: the setup removed or not, the saga
    row removed or not, depending on which of its transactions fail. *)
Definition compensated (bs ys : list pubkey) (id : Uuid) (d d' : Db) : Prop :=
  d' = drop_saga id (undo_db bs ys d) \/ d' = undo_db bs ys d \/ d' = drop_saga id d \/ d' = d.

Lemma execute_cases bs ys w r w' :
  mtry (F:=MError) (execute (mkRemoveSwapSetup bs ys)) w = (r, w') ->
  w_store w' = undo_db bs ys (w_store w) \/ w_store w' = w_store w.
Proof.
  unfold mtry. destruct (execute _ w) as [[[]| |] w1] eqn:E; intros [= <- <-].
  - left. by apply execute_Ok in E as [_ ->].
  - right. by eapply execute_fails.
  - right. by eapply execute_fails.
Qed.

Lemma delete_saga_best_effort_cases id w r w' :
  delete_saga_best_effort id w = (r, w') ->
  w_store w' = drop_saga id (w_store w) \/ w_store w' = w_store w.
Proof.
  unfold delete_saga_best_effort, mseq, mtry, begin_transaction, tx, commit, faulty, mmodify, mret, set_tx, set_faults, set_store, delete_saga.
  destruct w as [st t f ev]. destruct f as [|[] [|[] [|[] f]]]; cbn; intros [= <- <-]; cbn; auto.
Qed.

Lemma compensate_all_cases {S} (self : SwapSaga S) bs ys w r w' :
  sg_compensations _ self = [mkRemoveSwapSetup bs ys] ->
  compensate_all self w = (r, w') ->
  compensated bs ys (op_id (sg_operation _ self)) (w_store w) (w_store w').
Proof.
  intros Hc. unfold compensate_all. rewrite Hc. cbn [run_compensations]. unfold mseq, mret.
  destruct (mtry (execute _) w) as [r1 w1] eqn:E. pose proof (execute_cases _ _ _ _ _ E) as Hx.
  destruct r1 as [u| |]; unfold compensated; [|intros [= <- <-]; tauto..].
  intros Hd%delete_saga_best_effort_cases. destruct Hx as [Hx|Hx]; rewrite Hx in Hd; tauto.
Qed.

(** ** The handler *)

(** The saga that TX1 hands over, and what is known of the request then. *)
Record prepared (now : N) (keysets : Keysets) (op : Operation) (r : SwapRequest) (ys : list pubkey) (d : Db) : Prop := {
  pre_addable : addable d (swap_inputs r) ys;
  pre_reservable : reservable d (swap_outputs r);
  pre_balanced : balanced keysets (swap_inputs r) (swap_outputs r) (sumN (map amount (swap_inputs r)));
  pre_fresh : db_saga_state d !! op_id op = None;
  pre_conditions : collect (verify_conditions now) (swap_inputs r) = Ok (map (fun _ => tt) (swap_inputs r));
  pre_signed : signatory_verify_proofs (swap_inputs r) = Ok tt;
}.

Definition setup_saga (op : Operation) (r : SwapRequest) (ys : list pubkey) : SwapSaga SetupComplete :=
  mkSwapSaga _ [mkRemoveSwapSetup (map blinded_secret (swap_outputs r)) ys] op (mkSetupComplete (swap_outputs r) ys).

Definition signed_saga (op : Operation) (r : SwapRequest) (ys : list pubkey) (sigs : list BlindSignature) : SwapSaga Signed :=
  mkSwapSaga _ [mkRemoveSwapSetup (map blinded_secret (swap_outputs r)) ys] op (mkSigned (swap_outputs r) ys sigs).

(** A request either stops before or in TX1, leaving the store alone, or goes
    on from a prepared setup. *)
Lemma process_swap_cases now keysets id r w res w' :
  process_swap_request now keysets id r w = (res, w') ->
  ((forall s, res <> Ok s) /\ w_store w' = w_store w) \/
  exists ys w1, prepared now keysets (OpSwap id) r ys (w_store w) /\
    w_store w1 = setup_db now (OpSwap id) (swap_inputs r) (swap_outputs r) ys (w_store w) /\
    mseq (sign_outputs (setup_saga (OpSwap id) r ys)) (finalize now) w1 = (res, w').
Proof.
  unfold process_swap_request. unfold mseq at 1 2 3 4, mlift.
  destruct (map_err MNUT03 (input_amount r)); [|intros [= <- <-]; by left..].
  destruct (map_err MNUT03 (output_amount r)); [|intros [= <- <-]; by left..].
  destruct (verify_inputs now keysets (swap_inputs r)) as [v| |] eqn:Hv; [|intros [= <- <-]; by left..].
  destruct (map_err MNUT11 (Spending.validate_sig_flag r)); [|intros [= <- <-]; by left..].
  apply verify_inputs_Ok in Hv as (Hamt & Hunit & Hcond & Hsig).
  unfold mseq at 1. destruct (setup_swap now keysets _ _ _ None v w) as [[saga|e|] w1] eqn:Hs; cycle 1.
  - intros [= <- <-]. left. split; [done|]. by eapply setup_swap_fails.
  - intros [= <- <-]. left. split; [done|]. by eapply setup_swap_fails.
  - intros H. right. apply setup_swap_Ok in Hs as (ys & ? & ? & Hb & ? & -> & Hst); [|done].
    exists ys, w1. split_and!; [split; try done; by rewrite <- Hamt|done|done].
Qed.

Lemma finalize_cases now op r ys sigs w res w' :
  NoDup (map blinded_secret (swap_outputs r)) ->
  finalize now (signed_saga op r ys sigs) w = (res, w') ->
  let bs := map blinded_secret (swap_outputs r) in
  (res = Ok sigs /\ length bs = length sigs /\
   let d := finalize_db now bs sigs ys (w_store w) in
   (w_store w' = drop_saga (op_id op) d \/ w_store w' = d)) \/
  ((forall s, res <> Ok s) /\ compensated bs ys (op_id op) (w_store w) (w_store w')).
Proof.
  intros Hnd. unfold finalize, mseq at 1. cbn zeta.
  destruct (finalize_tx now _ w) as [[[[]|e]| |] w1] eqn:Hf.
  - intros [= <- <-]. left. apply finalize_tx_done in Hf as (Hl & _ & _ & Hd); [|done]. done.
  - unfold mseq. destruct (compensate_all _ w1) as [rc w2] eqn:Hc.
    pose proof (compensate_all_cases (signed_saga op r ys sigs) (map blinded_secret (swap_outputs r)) ys _ _ _ eq_refl Hc) as Hcomp.
    rewrite (finalize_tx_not_done _ _ _ _ _ Hf) in Hcomp by done.
    destruct rc; intros [= <- <-]; right; done.
  - intros [= <- <-]. right. split; [done|]. rewrite (finalize_tx_not_done _ _ _ _ _ Hf) by done.
    unfold compensated. tauto.
  - intros [= <- <-]. right. split; [done|]. rewrite (finalize_tx_not_done _ _ _ _ _ Hf) by done.
    unfold compensated. tauto.
Qed.

Lemma swap_cases now keysets id r w res w' :
  process_swap_request now keysets id r w = (res, w') ->
  ((forall s, res <> Ok s) /\ w_store w' = w_store w) \/
  exists ys, prepared now keysets (OpSwap id) r ys (w_store w) /\
    let bs := map blinded_secret (swap_outputs r) in
    let d1 := setup_db now (OpSwap id) (swap_inputs r) (swap_outputs r) ys (w_store w) in
    (exists sigs, res = Ok sigs /\ signatory_blind_sign (swap_outputs r) = Ok sigs /\ length bs = length sigs /\
       let d := finalize_db now bs sigs ys d1 in (w_store w' = drop_saga id d \/ w_store w' = d)) \/
    ((forall s, res <> Ok s) /\ compensated bs ys id d1 (w_store w')).
Proof.
  intros [?|(ys & w1 & Hp & Hst & H)]%process_swap_cases; [by left|]. right. exists ys. split; [done|]. cbn zeta.
  unfold mseq in H. unfold sign_outputs in H.
  change (sc_blinded_messages (sg_state _ (setup_saga (OpSwap id) r ys))) with (swap_outputs r) in H.
  destruct (signatory_blind_sign (swap_outputs r)) as [sigs|e|] eqn:Hs.
  - apply (finalize_cases now (OpSwap id) r ys sigs) in H; [|apply (pre_balanced _ _ _ _ _ _ Hp)].
    rewrite Hst in H. destruct H as [(-> & Hl & Hd)|H]; [left; eauto|by right].
  - right. unfold mseq in H. destruct (compensate_all (setup_saga (OpSwap id) r ys) w1) as [rc w2] eqn:Hc.
    pose proof (compensate_all_cases (setup_saga (OpSwap id) r ys) (map blinded_secret (swap_outputs r)) ys _ _ _ eq_refl Hc) as Hcomp.
    rewrite Hst in Hcomp. destruct rc; injection H as <- <-; done.
  - right. injection H as <- <-. split; [done|]. rewrite Hst. unfold compensated. tauto.
Qed.

(** ** What a successful swap did *)

Lemma lookup_final_proof now op ps ms ys bs sigs d y :
  addable d ps ys ->
  db_proof (finalize_db now bs sigs ys (setup_db now op ps ms ys d)) !! y =
  if decide (y ∈ ys) then (fun r => set_state r Nut07.Spent) <$> proof_rows now None op ys ps !! y
  else db_proof d !! y.
Proof.
  intros Ha. unfold finalize_db. cbn -[setup_db]. rewrite lookup_update_states, lookup_setup_proof by done.
  case_decide as Hy; [rewrite bool_decide_eq_true_2 by done|rewrite bool_decide_eq_false_2 by done].
  - by destruct (proof_rows _ _ _ _ _ !! y).
  - by destruct (db_proof d !! y).
Qed.

Lemma lookup_final_sig now op ps ms ys sigs d m s :
  reservable d ms -> length ms = length sigs -> (m, s) ∈ zip ms sigs ->
  db_blind_signature (finalize_db now (map blinded_secret ms) sigs ys (setup_db now op ps ms ys d)) !! blinded_secret m =
  Some (sign_row now (message_row now None op m) s).
Proof.
  intros Hr Hl Hin. by apply lookup_signed_reserved.
Qed.

Lemma lookup_final_sig_other now op ps ms ys sigs d b :
  reservable d ms -> b ∉ map blinded_secret ms ->
  db_blind_signature (finalize_db now (map blinded_secret ms) sigs ys (setup_db now op ps ms ys d)) !! b =
  db_blind_signature d !! b.
Proof.
  intros _ Hb. by apply lookup_signed_other.
Qed.

(** ** What a failed swap leaves behind *)

(** C8. A swap that does not return signatures, for every schedule of database
    faults: the store is exactly as before, or the setup is still there with
    its saga, or only the saga row is left over, or the setup is still there
    without its saga.  In no case is a proof spent or a signature stored. *)
Theorem swap_failure now keysets id r w res w' :
  process_swap_request now keysets id r w = (res, w') -> (forall sigs, res <> Ok sigs) ->
  let d := w_store w in
  w_store w' = d \/
  exists ys, Nut00.ys (swap_inputs r) = Ok ys /\
    let setup := setup_db now (OpSwap id) (swap_inputs r) (swap_outputs r) ys d in
    (w_store w' = setup \/ w_store w' = set_saga_state d (db_saga_state setup) \/ w_store w' = drop_saga id setup).
Proof.
  intros [[_ H]|(ys & Hp & [(sigs & -> & _)|[_ Hc]])]%swap_cases Hno; [by left|by destruct (Hno sigs)|].
  destruct Hp as [Ha Hr _ Hf _ _]. cbn zeta. unfold compensated in Hc. rewrite undo_setup in Hc by done.
  destruct Hc as [Hc|Hc]; [left|right].
  - rewrite Hc. by apply (drop_fresh_saga now (OpSwap id)).
  - exists ys. split; [apply Ha|]. tauto.
Qed.

(** ** Runs without faults *)

Lemma faulty_none {A} (c : M World DbError A) w : w_faults w = [] -> faulty c w = c w.
Proof. intros H. unfold faulty. by rewrite H. Qed.

Lemma execute_no_fault bs ys w :
  w_faults w = [] -> removable (w_store w) ys ->
  exists w', execute (mkRemoveSwapSetup bs ys) w = (Ok tt, w') /\ w_faults w' = [] /\
    w_store w' = undo_db bs ys (w_store w).
Proof.
  intros Hf Hr. destruct (execute (mkRemoveSwapSetup bs ys) w) as [r w'] eqn:E.
  assert (Hok : r = Ok tt /\ w_faults w' = []).
  { revert E. unfold execute. cbn [rs_blinded_secrets rs_input_ys].
    unfold mseq, db, mmap_err, begin_transaction, commit, tx, mmodify, mret. destruct w as [st t f ev]. cbn in Hf, Hr. subst f.
    assert (Hrem : forall d, db_proof d = db_proof st -> exists d', remove_proofs ys d = (Ok tt, d')).
    { intros d Hd. eexists. apply remove_proofs_Ok. split; [|reflexivity]. unfold removable. by rewrite Hd. }
    destruct bs as [|b bs], ys as [|y ys]; cbn -[remove_proofs delete_blinded_messages].
    - by intros [= <- <-].
    - destruct (Hrem st eq_refl) as [d' ->]. by intros [= <- <-].
    - by intros [= <- <-].
    - rewrite delete_blinded_messages_eq. cbn -[remove_proofs].
      destruct (Hrem _ (eq_refl : db_proof (set_blind_signature st (without_unsigned (b :: bs) (db_blind_signature st))) = _)) as [d' ->].
      by intros [= <- <-]. }
  destruct Hok as [-> Hf']. exists w'. split_and!; [done|done|]. by apply execute_Ok in E as [_ ->].
Qed.

Lemma execute_refused bs ys w :
  w_faults w = [] -> ~ removable (w_store w) ys -> ys <> [] ->
  exists e w', execute (mkRemoveSwapSetup bs ys) w = (Err e, w') /\ w_faults w' = [] /\ w_store w' = w_store w.
Proof.
  intros Hf Hr Hne. destruct (execute (mkRemoveSwapSetup bs ys) w) as [r w'] eqn:E.
  assert (Hok : (exists e, r = Err e) /\ w_faults w' = []).
  { revert E. unfold execute. cbn [rs_blinded_secrets rs_input_ys].
    unfold mseq, db, mmap_err, begin_transaction, commit, tx, mmodify, mret. destruct w as [st t f ev]. cbn in Hf, Hr. subst f.
    assert (Hrem : forall d, db_proof d = db_proof st -> exists e d', remove_proofs ys d = (Err e, d')).
    { intros d Hd. destruct (remove_proofs ys d) as [[[]|e|] d'] eqn:Er; [|eauto|].
      - apply remove_proofs_Ok in Er as [Hx _]. unfold removable in *. rewrite Hd in Hx. done.
      - exfalso. revert Er. unfold remove_proofs, mseq, mgets, mmodify, mlift, ensure.
        destruct ys; [done|]. by destruct (Nat.eqb _ _). }
    destruct ys as [|y ys]; [done|]. destruct bs as [|b bs]; cbn -[remove_proofs delete_blinded_messages].
    - destruct (Hrem st eq_refl) as (e & d' & ->). intros [= <- <-]. eauto.
    - rewrite delete_blinded_messages_eq. cbn -[remove_proofs].
      destruct (Hrem _ (eq_refl : db_proof (set_blind_signature st (without_unsigned (b :: bs) (db_blind_signature st))) = _)) as (e & d' & ->).
      intros [= <- <-]. eauto. }
  destruct Hok as [[e ->] Hf']. exists e, w'. split_and!; [done|done|]. by eapply execute_fails.
Qed.

Lemma incomplete_single d id saga :
  db_saga_state d = {[id := saga]} -> operation_kind saga = OKSwap -> get_incomplete_sagas OKSwap d = [saga].
Proof.
  intros Hs Hk. unfold get_incomplete_sagas. rewrite Hs, map_to_list_singleton.
  cbn [fmap list_fmap snd]. rewrite filter_cons, decide_True by done. done.
Qed.

(** ** Several interrupted swaps *)

(** What recovery does to the store for one saga. *)
Definition undo_saga (s : Saga) (d : Db) : Db := drop_saga (operation_id s) (undo_db (blinded_secrets s) (input_ys s) d).

Lemma undo_saga_comm s t d : undo_saga s (undo_saga t d) = undo_saga t (undo_saga s d).
Proof.
  unfold undo_saga, drop_saga, undo_db, set_saga_state, set_blind_signature, set_proof, without, without_unsigned. cbn. f_equal.
  - apply map_filter_comm.
  - apply map_filter_comm.
  - apply delete_delete.
Qed.

Lemma undo_sagas_perm l l' : l ≡ₚ l' -> forall d, foldl (fun d s => undo_saga s d) d l = foldl (fun d s => undo_saga s d) d l'.
Proof.
  induction 1 as [|s l l' _ IH|s t l|l1 l2 l3 _ IH1 _ IH2]; intros d; cbn [foldl]; [done|done|by rewrite undo_saga_comm|by rewrite IH1].
Qed.

(** Undoing a saga leaves the inputs of the others where they are. *)
Lemma undo_saga_removable s d ys : (forall y, y ∈ ys -> y ∉ input_ys s) -> removable d ys -> removable (undo_saga s d) ys.
Proof.
  intros Hd [Hnd Hr]. split; [done|]. intros y Hy. destruct (Hr y Hy) as (r & Hl & Hs). exists r. split; [|done].
  cbn. rewrite lookup_without, Hl, decide_False; [done|]. intros [? _]. by eapply Hd.
Qed.

Lemma recover_loop_no_fault l : forall w, w_faults w = [] -> Forall (fun s => removable (w_store w) (input_ys s)) l ->
  NoDup (l ≫= input_ys) ->
  exists w', recover_loop l w = (Ok tt, w') /\ w_store w' = foldl (fun d s => undo_saga s d) (w_store w) l.
Proof.
  induction l as [|s l IH]; intros w Hf Hr Hnd; [by exists w|]. apply Forall_cons in Hr as [Hs Hr].
  cbn [mbind list_bind] in Hnd. apply NoDup_app in Hnd as (_ & Hdis & Hnd).
  cbn [recover_loop foldl]. unfold mseq at 1, mtry at 1.
  destruct (execute_no_fault (blinded_secrets s) (input_ys s) w Hf Hs) as (w1 & -> & Hf1 & Hst1).
  unfold mseq, mtry, db, mmap_err, begin_transaction, commit, tx, delete_saga, mmodify, mret.
  rewrite faulty_none by done. cbn. rewrite faulty_none by done. cbn. rewrite faulty_none by done. cbn.
  match goal with |- exists w', recover_loop l ?w2 = _ /\ _ => assert (Hw2 : w_store w2 = undo_saga s (w_store w)) end.
  { cbn. unfold undo_saga, drop_saga. by rewrite Hst1. }
  rewrite <- Hw2. apply IH; [done| |done]. rewrite Hw2. rewrite Forall_forall in Hr |- *. intros t Ht.
  apply undo_saga_removable; [|by apply Hr]. intros y Hy Hin. apply (Hdis y Hin), list_elem_of_bind. eauto.
Qed.

Lemma setup_removable now op ps ms ys d : addable d ps ys -> removable (setup_db now op ps ms ys d) ys.
Proof.
  intros Ha. split; [apply Ha|]. intros y Hy. rewrite lookup_setup_proof, decide_True by done.
  destruct (proof_rows_Some now None op ys ps y) as (p & _ & ->); [by eapply addable_length|done|]. cbn. eauto.
Qed.

(** A swap that was interrupted after its first transaction. *)
Record Interrupted := mkInterrupted { it_now : N; it_id : Uuid; it_inputs : list Proof; it_outputs : list BlindedMessage; it_ys : list pubkey }.
Definition saga_of (i : Interrupted) : Saga :=
  Saga_new_swap (it_now i) (it_id i) SetupCompleteState (map blinded_secret (it_outputs i)) (it_ys i).
Definition set_up (i : Interrupted) (d : Db) : Db := setup_db (it_now i) (OpSwap (it_id i)) (it_inputs i) (it_outputs i) (it_ys i) d.

(** The store after such swaps, the last one first, each of which could be set up
    where the ones before it had left the store. *)
Fixpoint interrupted (d : Db) (l : list Interrupted) (d' : Db) : Prop :=
  match l with
  | [] => d' = d
  | i :: l => exists d1, interrupted d l d1 /\ addable d1 (it_inputs i) (it_ys i) /\ reservable d1 (it_outputs i) /\
      db_saga_state d1 !! it_id i = None /\ d' = set_up i d1
  end.

Lemma interrupted_undone d l : forall d', interrupted d l d' -> foldl (fun d s => undo_saga s d) d' (saga_of <$> l) = d.
Proof.
  induction l as [|i l IH]; intros d' H; [done|]. destruct H as (d1 & H & Ha & Hr & Hn & ->). cbn [fmap list_fmap foldl].
  rewrite <- (IH d1 H). f_equal. unfold undo_saga, set_up. cbn [saga_of Saga_new_swap operation_id blinded_secrets input_ys].
  rewrite undo_setup by done. by apply (drop_fresh_saga (it_now i) (OpSwap (it_id i))).
Qed.

Lemma interrupted_sagas d l : forall d', interrupted d l d' -> get_incomplete_sagas OKSwap d = [] ->
  get_incomplete_sagas OKSwap d' ≡ₚ (saga_of <$> l).
Proof.
  induction l as [|i l IH]; intros d' H Hd; [by rewrite H, Hd|]. destruct H as (d1 & H & _ & _ & Hn & ->).
  rewrite fmap_cons, <- (IH d1 H Hd). unfold get_incomplete_sagas. rewrite !merge_sort_Permutation. cbn.
  rewrite map_to_list_insert by done. rewrite fmap_cons, filter_cons, decide_True by done. done.
Qed.

Lemma interrupted_removable d l : forall d', interrupted d l d' ->
  Forall (fun i => removable d' (it_ys i)) l /\ NoDup (l ≫= it_ys).
Proof.
  induction l as [|i l IH]; intros d' H; [by split; constructor|]. destruct H as (d1 & H & Ha & _ & _ & ->).
  destruct (IH d1 H) as [Hl Hnd].
  assert (Hdis : forall j y, j ∈ l -> y ∈ it_ys j -> y ∉ it_ys i).
  { intros j y Hj Hy Hyi. rewrite Forall_forall in Hl. destruct (Hl j Hj) as [_ Hr]. destruct (Hr y Hy) as (r & Hy1 & _).
    destruct Ha as (_ & _ & Hnone & _). by rewrite Hnone in Hy1. }
  split; [constructor; [by apply setup_removable|]|].
  - rewrite Forall_forall in Hl |- *. intros j Hj. destruct (Hl j Hj) as [Hn Hr]. split; [done|]. intros y Hy.
    destruct (Hr y Hy) as (r & Hy1 & Hs). exists r. split; [|done]. unfold set_up. rewrite lookup_setup_proof, decide_False by eauto. done.
  - cbn [mbind list_bind]. apply NoDup_app. split_and!; [apply Ha| |done]. intros y Hy (j & ? & ?)%list_elem_of_bind. by eapply Hdis.
Qed.

(** C10. Recovery undoes every interrupted swap: started, without database faults,
    on a store in which any number of swaps were set up one after the other and
    not finished, it puts every table back to what it was before the first of
    them, whatever else that store holds (proofs, signatures, quotes, sagas of
    melts), as long as it held no other saga of a swap. *)
Theorem recovery_restores d l w :
  get_incomplete_sagas OKSwap d = [] -> interrupted d l (w_store w) -> w_faults w = [] ->
  exists w', recover_from_incomplete_sagas w = (Ok tt, w') /\ w_store w' = d.
Proof.
  intros Hd Hi Hf. pose proof (interrupted_sagas _ _ _ Hi Hd) as Hp. destruct (interrupted_removable _ _ _ Hi) as [Hr Hnd].
  destruct (recover_loop_no_fault (get_incomplete_sagas OKSwap (w_store w)) w) as (w' & Hrun & Hst); [done|..].
  { rewrite Hp, Forall_fmap. exact Hr. }
  { rewrite Hp. clear -Hnd. replace ((saga_of <$> l) ≫= input_ys) with (l ≫= it_ys); [done|].
    induction l as [|i l IH]; [done|]. cbn in *. f_equal. apply IH. by apply NoDup_app in Hnd as (_ & _ & ?). }
  exists w'. split.
  - unfold recover_from_incomplete_sagas. unfold mseq, db, mmap_err, read_store. rewrite faulty_none by done.
    cbn [fst snd map_err]. by destruct (get_incomplete_sagas OKSwap (w_store w)).
  - rewrite Hst, <- (interrupted_undone _ _ _ Hi). by apply undo_sagas_perm.
Qed.

(** Recovery never removes an orphaned saga row, one whose proofs are spent
    or gone: the compensation it tries first fails, and the row stays for good. *)
Theorem recovery_keeps_orphan w id saga :
  db_saga_state (w_store w) = {[id := saga]} -> operation_kind saga = OKSwap -> w_faults w = [] ->
  input_ys saga <> [] -> ~ removable (w_store w) (input_ys saga) ->
  exists w', recover_from_incomplete_sagas w = (Ok tt, w') /\ w_store w' = w_store w.
Proof.
  intros Hs Hk Hf Hne Hr. unfold recover_from_incomplete_sagas. unfold mseq, db, mmap_err, read_store.
  rewrite faulty_none by done. cbn [fst snd map_err]. rewrite (incomplete_single _ _ _ Hs) by done.
  cbn [recover_loop]. unfold mseq at 1, mtry at 1.
  destruct (execute_refused (blinded_secrets saga) (input_ys saga) w Hf Hr Hne) as (e & w1 & -> & Hf1 & Hst1).
  exists w1. done.
Qed.

Context {SL : SignatoryLaws SG}.

(** What a swap that returns signatures has done. *)
Lemma swap_effect now keysets id r w sigs w' :
  process_swap_request now keysets id r w = (Ok sigs, w') ->
  exists ys fee,
    Nut00.ys (swap_inputs r) = Ok ys /\ NoDup ys /\
    collect (verify_conditions now) (swap_inputs r) = Ok (map (fun _ => tt) (swap_inputs r)) /\
    signatory_verify_proofs (swap_inputs r) = Ok tt /\
    get_proofs_fee keysets (swap_inputs r) = Ok fee /\
    sumN (map bs_amount sigs) + fee = sumN (map amount (swap_inputs r)) /\
    (forall y, y ∈ ys -> db_proof (w_store w) !! y = None /\
       exists row, db_proof (w_store w') !! y = Some row /\ pr_state row = Nut07.Spent) /\
    (forall y, y ∉ ys -> db_proof (w_store w') !! y = db_proof (w_store w) !! y) /\
    (forall m s, (m, s) ∈ zip (swap_outputs r) sigs ->
       exists row, db_blind_signature (w_store w') !! blinded_secret m = Some row /\
         sr_c row = Some (bs_c s) /\ row_to_blind_signature row (bs_c s) = Ok s) /\
    (forall b, b ∉ map blinded_secret (swap_outputs r) ->
       db_blind_signature (w_store w') !! b = db_blind_signature (w_store w) !! b).
Proof.
  intros [[Hno _]|(ys & Hp & [(sigs' & [= <-] & Hs & Hl & Hd)|[Hno _]])]%swap_cases; [by destruct (Hno sigs)| |by destruct (Hno sigs)].
  destruct Hp as [Ha Hr (Hnd & fee & Hfee & Hsum) _ Hcond Hsig]. rewrite length_map in Hl.
  apply blind_sign_matches in Hs as Hm. pose proof (sum_signed _ _ Hm) as Hss.
  set (d := finalize_db _ _ _ _ _) in Hd.
  assert (Hproof : db_proof (w_store w') = db_proof d) by (destruct Hd as [->| ->]; done).
  assert (Hsigs : db_blind_signature (w_store w') = db_blind_signature d) by (destruct Hd as [->| ->]; done).
  rewrite Hproof, Hsigs. subst d. pose proof Ha as (Hys & Hndy & Hfree & _).
  exists ys, fee. split_and!; try done; [congruence|..].
  - intros y Hy. split; [by apply Hfree|]. rewrite lookup_final_proof, decide_True by done.
    destruct (proof_rows_Some now None (OpSwap id) ys (swap_inputs r) y) as (p & _ & ->);
      [by eapply addable_length|done|]. cbn. eauto.
  - intros y Hy. by rewrite lookup_final_proof, decide_False.
  - intros m s Hin. rewrite (lookup_final_sig _ _ _ _ _ _ _ _ _ Hr Hl Hin).
    eexists. split_and!; [done|done|]. destruct (Forall2_elem_of_zip _ _ _ _ _ Hm Hin) as [Hma Hmk].
    apply row_to_blind_signature_sign; [|done]. rewrite Hma.
    destruct Hr as (_ & _ & Hamt). rewrite Forall_forall in Hamt. apply Hamt. by apply elem_of_zip_l in Hin.
  - intros b Hb. by apply lookup_final_sig_other.
Qed.

(** C3. A swap that returns signatures, whatever database faults it met on the
    way: its inputs were not known to the mint before and are spent now, their
    spending conditions and mint signatures were checked, the signatures are
    worth exactly the inputs less the fee, each is stored under its blinded
    message so that it reads back as it was returned, and no other proof or
    signature row has changed. *)
Theorem swap_success now keysets id r w sigs w' :
  process_swap_request now keysets id r w = (Ok sigs, w') ->
  exists ys fee,
    Nut00.ys (swap_inputs r) = Ok ys /\ NoDup ys /\
    collect (verify_conditions now) (swap_inputs r) = Ok (map (fun _ => tt) (swap_inputs r)) /\
    signatory_verify_proofs (swap_inputs r) = Ok tt /\
    get_proofs_fee keysets (swap_inputs r) = Ok fee /\
    sumN (map bs_amount sigs) + fee = sumN (map amount (swap_inputs r)) /\
    (forall y, y ∈ ys -> db_proof (w_store w) !! y = None /\
       exists row, db_proof (w_store w') !! y = Some row /\ pr_state row = Nut07.Spent) /\
    (forall y, y ∉ ys -> db_proof (w_store w') !! y = db_proof (w_store w) !! y) /\
    (forall m s, (m, s) ∈ zip (swap_outputs r) sigs ->
       exists row, db_blind_signature (w_store w') !! blinded_secret m = Some row /\
         sr_c row = Some (bs_c s) /\ row_to_blind_signature row (bs_c s) = Ok s) /\
    (forall b, b ∉ map blinded_secret (swap_outputs r) ->
       db_blind_signature (w_store w') !! b = db_blind_signature (w_store w) !! b).
Proof. apply swap_effect. Qed.

End facts.
End SwapFacts.

(** ** Concrete runs *)

Module ConcreteSwap.
Import Nut00 Requests StateRules MintTypes MintDb MintDbSpec Mint Swap Concrete ConcreteMint MintFacts SwapFacts.

(** 8 sat, spent for 7 sat and a fee of one. *)
Definition request : SwapRequest := mkSwapRequest [token "secret-A" 8] [blank bob 7].
Definition run (faults : list bool) := process_swap_request 50 [sat_keyset] 1 request (start faults).

Lemma swap_success_witness : exists sigs w' ys fee,
  run [] = (Ok sigs, w') /\ Nut00.ys (swap_inputs request) = Ok ys /\
  sumN (map bs_amount sigs) + fee = sumN (map amount (swap_inputs request)).
Proof.
  destruct (run []) as [[sigs| |] w'] eqn:E;
    [|exfalso; apply (f_equal fst) in E; vm_compute in E; discriminate E..].
  destruct (swap_success 50 [sat_keyset] 1 request (start []) sigs w' E) as (ys & fee & H1 & _ & _ & _ & _ & H6 & _).
  exists sigs, w', ys, fee. auto.
Defined.

(** The fifth call of the request, [add_blind_signatures], fails and so does
    the first call of the compensation. *)
Definition lost_faults : list bool := [false; false; false; false; false; false; false; false; true; false; true].

Lemma swap_failure_witness : exists e w',
  run lost_faults = (Err e, w') /\
  (w_store w' = empty_db \/ exists ys, Nut00.ys (swap_inputs request) = Ok ys).
Proof.
  destruct (run lost_faults) as [[sigs|e|] w'] eqn:E;
    [exfalso; apply (f_equal fst) in E; vm_compute in E; discriminate E| |exfalso; apply (f_equal fst) in E; vm_compute in E; discriminate E].
  exists e, w'. split; [done|].
  destruct (swap_failure 50 [sat_keyset] 1 request (start lost_faults) (Err e) w' E) as [H|(ys & H & _)];
    [discriminate|left; exact H|right; exists ys; exact H].
Defined.

(** A failed compensation loses the swap: when the second transaction and
    then the compensation fail, [compensate_all] still deletes the saga row, so
    the input stays pending and the output reserved, recovery finds nothing to
    do, and a second attempt to spend the input is refused as pending. *)
Theorem failed_compensation_loses_setup :
  let w := snd (run lost_faults) in
  (pr_state <$> db_proof (w_store w) !! alice) = Some Nut07.Pending /\
  db_saga_state (w_store w) = ∅ /\
  (let w2 := snd (recover_from_incomplete_sagas (set_faults w [])) in
   w_store w2 = w_store w /\
   fst (process_swap_request 60 [sat_keyset] 2 (mkSwapRequest [token "secret-A" 8] [blank carol 7]) w2) = Err TokenPending).
Proof. vm_compute. repeat split. Qed.

(** Two swaps whose setups were committed and whose second transactions never
    began, then the restart. *)
Definition first_cut : Interrupted := mkInterrupted 50 1 (swap_inputs request) (swap_outputs request) [alice].
Definition second_cut : Interrupted := mkInterrupted 40 2 [token "secret-B" 8] [blank carol 7] [bob].
Lemma addable_one secret k d : Nut00.y (token secret 8) = Ok k -> db_proof d !! k = None -> addable d [token secret 8] [k].
Proof.
  intros Hy Hk. split; [unfold Nut00.ys; cbn [collect]; by rewrite Hy|]. split; [apply NoDup_singleton|]. split; [by intros z ->%list_elem_of_singleton|].
  repeat constructor. discriminate.
Qed.
Lemma reservable_one k a d : a <= I64_MAX -> db_blind_signature d !! k = None -> reservable d [blank k a].
Proof.
  intros Ha Hk. split; [apply NoDup_singleton|]. split; [by intros z ->%list_elem_of_singleton|]. by repeat constructor.
Qed.
Lemma recovery_restores_witness :
  let d := set_up second_cut (set_up first_cut empty_db) in
  exists w', recover_from_incomplete_sagas (mkWorld d d [] []) = (Ok tt, w') /\ w_store w' = empty_db.
Proof.
  eapply (recovery_restores empty_db [second_cut; first_cut]); [reflexivity| |reflexivity].
  exists (set_up first_cut empty_db). split; [exists empty_db; split; [reflexivity|]|];
    (split; [|split; [|split; [vm_compute; reflexivity|reflexivity]]]).
  - apply (addable_one "secret-A" alice); vm_compute; reflexivity.
  - apply (reservable_one bob 7); vm_compute; (reflexivity || discriminate).
  - apply (addable_one "secret-B" bob); vm_compute; reflexivity.
  - apply (reservable_one carol 7); vm_compute; (reflexivity || discriminate).
Defined.

(** The row of a swap that completed although its saga could not be deleted. *)
Definition orphan : Saga := Saga_new_swap 50 1 SetupCompleteState [bob] [alice].
Definition orphan_db : Db := set_saga_state empty_db {[1 := orphan]}.

Lemma recovery_keeps_orphan_witness :
  exists w', recover_from_incomplete_sagas (mkWorld orphan_db orphan_db [] []) = (Ok tt, w') /\ w_store w' = orphan_db.
Proof.
  apply (recovery_keeps_orphan (mkWorld orphan_db orphan_db [] []) 1 orphan); [reflexivity..|discriminate|].
  intros [_ H]. destruct (H alice) as (row & Hr & _); [by apply list_elem_of_singleton|]. discriminate Hr.
Defined.

(** The finalizing transaction of a successful swap can leave such a row. *)
Lemma completed_swap_orphan :
  let run9 := run [false; false; false; false; false; false; false; false; false; false; true] in
  (exists sigs, fst run9 = Ok sigs) /\ db_saga_state (w_store (snd run9)) !! 1 <> None /\
  (pr_state <$> db_proof (w_store (snd run9)) !! alice) = Some Nut07.Spent.
Proof. vm_compute. split; [eauto|]. split; [discriminate|reflexivity]. Qed.

End ConcreteSwap.
