(* ===== verification/SwapConcurrency.v ===== *)
(** * Swaps in parallel

    Any number of swaps run at once, interleaved at the granularity of database
    transactions, each transaction under an arbitrary schedule of faults; the
    mint may restart at any point.  The step relation runs the transactions of
    the saga on the shared store; the invariant says who owns which proof. *)
From stdpp Require Import base numbers list sorting strings gmap fin_maps.
From S2P Require Import Prelude Amount Nuts Conditions Concrete Spending States MintDb MintDbFacts MintDbSpec Mint MintFacts Swap SwapFacts.

Local Open Scope N_scope.

Module SwapConcurrency.
Import Nut00 Requests StateRules MintTypes MintDb MintDbFacts MintDbSpec Mint MintFacts Swap SwapFacts.

Section conc.
Context {CR : Crypto} {SD : Serde} {SG : Signatory}.

(** A swap past TX1; [fl_sigs] once its outputs are signed. *)
Record Flight := mkFlight {
  fl_op : Operation;
  fl_req : SwapRequest;
  fl_ys : list pubkey;
  fl_sigs : option (list BlindSignature);
}.

(** A completed swap: what was answered for which inputs. *)
Record Completed := mkCompleted {
  co_req : SwapRequest;
  co_ys : list pubkey;
  co_sigs : list BlindSignature;
}.

Record Sys := mkSys {
  sy_world : World;
  sy_flights : list Flight;
  sy_done : list Completed;
}.

Definition fl_setup (f : Flight) : SwapSaga SetupComplete := setup_saga (fl_op f) (fl_req f) (fl_ys f).
Definition fl_signed (f : Flight) (sigs : list BlindSignature) : SwapSaga Signed :=
  signed_saga (fl_op f) (fl_req f) (fl_ys f) sigs.

(** One step: some swap runs its next transaction on the store, under faults
    [faults]; [St_lost] is a swap whose task ends without compensation (a failed
    [begin] or [commit] of TX2, a panic); [St_restart] drops all tasks and runs
    the recovery. *)
Inductive step : Sys -> Sys -> Prop :=
| St_setup now keysets op r v w fls done faults ys w' :
    verify_inputs now keysets (swap_inputs r) = Ok v ->
    setup_swap now keysets op (swap_inputs r) (swap_outputs r) None v (set_faults w faults) =
      (Ok (setup_saga op r ys), w') ->
    step (mkSys w fls done) (mkSys w' (mkFlight op r ys None :: fls) done)
| St_setup_fails now keysets op r v w fls done faults res w' :
    verify_inputs now keysets (swap_inputs r) = Ok v ->
    setup_swap now keysets op (swap_inputs r) (swap_outputs r) None v (set_faults w faults) = (res, w') ->
    (forall s, res <> Ok s) ->
    step (mkSys w fls done) (mkSys w' fls done)
| St_sign w fls1 f fls2 done sigs :
    signatory_blind_sign (swap_outputs (fl_req f)) = Ok sigs ->
    step (mkSys w (fls1 ++ f :: fls2) done)
         (mkSys w (fls1 ++ mkFlight (fl_op f) (fl_req f) (fl_ys f) (Some sigs) :: fls2) done)
| St_finalize now w fls1 f fls2 done faults sigs w' :
    fl_sigs f = Some sigs ->
    finalize_tx now (fl_signed f sigs) (set_faults w faults) = (Ok (inl tt), w') ->
    step (mkSys w (fls1 ++ f :: fls2) done)
         (mkSys w' (fls1 ++ fls2) (mkCompleted (fl_req f) (fl_ys f) sigs :: done))
| St_finalize_fails now w fls1 f fls2 done faults sigs res w' :
    fl_sigs f = Some sigs ->
    finalize_tx now (fl_signed f sigs) (set_faults w faults) = (res, w') -> res <> Ok (inl tt) ->
    step (mkSys w (fls1 ++ f :: fls2) done) (mkSys w' (fls1 ++ f :: fls2) done)
| St_compensate w fls1 f fls2 done faults res w' :
    compensate_all (fl_setup f) (set_faults w faults) = (res, w') ->
    step (mkSys w (fls1 ++ f :: fls2) done) (mkSys w' (fls1 ++ fls2) done)
| St_lost w fls1 f fls2 done :
    step (mkSys w (fls1 ++ f :: fls2) done) (mkSys w (fls1 ++ fls2) done)
| St_restart w fls done faults res w' :
    recover_from_incomplete_sagas (set_faults w faults) = (res, w') ->
    step (mkSys w fls done) (mkSys w' [] done).

Inductive reachable : Sys -> Prop :=
| R_init store faults : reachable (mkSys (mkWorld store store faults []) [] [])
| R_step s s' : reachable s -> step s s' -> reachable s'.

(** ** The invariant *)

Definition in_state (d : Db) (st : Nut07.State) (y : pubkey) : Prop :=
  exists r, db_proof d !! y = Some r /\ pr_state r = st.

Definition flight_ys (fls : list Flight) : list pubkey := fls ≫= fl_ys.
Definition done_ys (l : list Completed) : list pubkey := l ≫= co_ys.

#[local] Arguments flight_ys : simpl never.
#[local] Arguments done_ys : simpl never.

Record Inv (s : Sys) : Prop := {
  inv_pending : Forall (in_state (w_store (sy_world s)) Nut07.Pending) (flight_ys (sy_flights s));
  inv_disjoint : NoDup (flight_ys (sy_flights s));
  inv_outputs : Forall (fun f => NoDup (map blinded_secret (swap_outputs (fl_req f)))) (sy_flights s);
  inv_spent : Forall (in_state (w_store (sy_world s)) Nut07.Spent) (done_ys (sy_done s));
  inv_once : NoDup (done_ys (sy_done s));
}.

Lemma flight_ys_app l1 l2 : flight_ys (l1 ++ l2) = flight_ys l1 ++ flight_ys l2.
Proof. apply bind_app. Qed.

Lemma flight_ys_cons f l : flight_ys (f :: l) = fl_ys f ++ flight_ys l.
Proof. done. Qed.

(** Store changes that leave the other flights alone. *)
Lemma evolves_spent d d' ys :
  evolves d d' -> Forall (in_state d Nut07.Spent) ys -> Forall (in_state d' Nut07.Spent) ys.
Proof.
  intros Hev H. eapply Forall_impl; [exact H|]. intros y (r & Hr & Hs). exists r. split; [|done]. by eapply ev_spent.
Qed.

Lemma evolves_undo bs ys d : evolves d (undo_db bs ys d).
Proof.
  rewrite undo_db_alt. trans (set_blind_signature d (without_unsigned bs (db_blind_signature d))).
  - apply evolves_set_blind_signature. intros b r Hb [c Hc]. rewrite lookup_without_unsigned, Hb, decide_False; [done|].
    intros [_ Hn]. congruence.
  - apply evolves_set_proof. cbn. intros y r Hy Hs. rewrite lookup_without, Hy, decide_False; [done|].
    intros [_ Hn]. congruence.
Qed.

Lemma evolves_drop_saga id d : evolves d (drop_saga id d).
Proof. by apply evolves_other. Qed.

Lemma evolves_compensated bs ys id d d' : compensated bs ys id d d' -> evolves d d'.
Proof.
  intros [->|[->|[->| ->]]]; [|apply evolves_undo|apply evolves_drop_saga|done].
  trans (undo_db bs ys d); [apply evolves_undo|apply evolves_drop_saga].
Qed.

Lemma compensated_other bs ys id d d' y :
  compensated bs ys id d d' -> y ∉ ys -> db_proof d' !! y = db_proof d !! y.
Proof.
  intros Hc Hy. assert (Hu : db_proof (undo_db bs ys d) !! y = db_proof d !! y).
  { cbn. rewrite lookup_without. destruct (db_proof d !! y); [|done]. rewrite decide_False; [done|]. by intros []. }
  destruct Hc as [->|[->|[->| ->]]]; done.
Qed.

Lemma in_state_eq d d' st ys :
  (forall y, y ∈ ys -> db_proof d' !! y = db_proof d !! y) ->
  Forall (in_state d st) ys -> Forall (in_state d' st) ys.
Proof.
  rewrite !Forall_forall. intros Heq H y Hy. destruct (H y Hy) as (r & Hr & Hs). exists r. by rewrite Heq.
Qed.

Lemma recover_loop_evolves sagas w r w' :
  recover_loop sagas w = (r, w') -> evolves (w_store w) (w_store w').
Proof.
  revert w. induction sagas as [|saga sagas IH]; intros w; cbn [recover_loop]; [by intros [= <- <-]|].
  unfold mseq at 1. destruct (mtry (execute _) w) as [r1 w1] eqn:E.
  assert (H1 : evolves (w_store w) (w_store w1)).
  { apply execute_cases in E as [->| ->]; [apply evolves_undo|done]. }
  destruct r1 as [[u|e]| |]; [|intros H; etrans; [exact H1|by eapply IH]|intros [= <- <-]; done..].
  intros H. etrans; [exact H1|]. clear E H1. revert H.
  unfold mseq, mtry, db, mmap_err, begin_transaction, commit, rollback, tx, faulty, mmodify, delete_saga.
  destruct w1 as [st t fs ev]. destruct fs as [|[] [|[] [|[] fs]]]; cbn; intros H;
    first [ by injection H as <- <- | apply IH in H; cbn in H; first [exact H|etrans; [|exact H]; by apply evolves_other] ].
Qed.

Lemma recover_evolves w r w' :
  recover_from_incomplete_sagas w = (r, w') -> evolves (w_store w) (w_store w').
Proof.
  unfold recover_from_incomplete_sagas, mseq, db, mmap_err, read_store, faulty.
  destruct w as [st t fs ev]. destruct fs as [|[] fs]; cbn; [|by intros [= <- <-]|];
    destruct (get_incomplete_sagas OKSwap st) as [|saga sagas]; try (by intros [= <- <-]); intros H;
    exact (recover_loop_evolves _ _ _ _ H).
Qed.

(** Dropping a flight keeps what is said of the others. *)
Lemma flights_drop (fls1 fls2 : list Flight) f :
  NoDup (flight_ys (fls1 ++ f :: fls2)) ->
  NoDup (flight_ys (fls1 ++ fls2)) /\ NoDup (fl_ys f) /\
  forall y, y ∈ flight_ys (fls1 ++ fls2) -> y ∉ fl_ys f.
Proof.
  rewrite !flight_ys_app, flight_ys_cons, !NoDup_app. intros (H1 & H2 & H3 & H4 & H5).
  split_and!; try done.
  - intros y Hy Hy2. apply (H2 y Hy). set_solver.
  - intros y [Hy|Hy]%elem_of_app Hf; [apply (H2 y Hy); set_solver|by apply (H4 y Hf)].
Qed.

Lemma flights_split (P : Flight -> Prop) fls1 f fls2 :
  Forall P (fls1 ++ f :: fls2) <-> P f /\ Forall P (fls1 ++ fls2).
Proof. rewrite !Forall_app, Forall_cons. tauto. Qed.

Lemma pending_split d fls1 f fls2 :
  Forall (in_state d Nut07.Pending) (flight_ys (fls1 ++ f :: fls2)) ->
  Forall (in_state d Nut07.Pending) (fl_ys f) /\ Forall (in_state d Nut07.Pending) (flight_ys (fls1 ++ fls2)).
Proof. rewrite !flight_ys_app, flight_ys_cons, !Forall_app. tauto. Qed.

Lemma inv_setup now keysets op r v w fls done faults ys w' :
  Inv (mkSys w fls done) ->
  verify_inputs now keysets (swap_inputs r) = Ok v ->
  setup_swap now keysets op (swap_inputs r) (swap_outputs r) None v (set_faults w faults) = (Ok (setup_saga op r ys), w') ->
  Inv (mkSys w' (mkFlight op r ys None :: fls) done).
Proof.
  intros [I1 I2 I3 I4 I5] Hv Hs. cbn in I1, I2, I3, I4, I5. apply verify_inputs_Ok in Hv as (_ & Hu & _).
  apply setup_swap_Ok in Hs as (ys' & Ha & Hr & [Hnd _] & _ & Heq & Hst); [|done]. injection Heq as <-.
  cbn in Ha, Hr, Hst. pose proof Ha as (_ & Hndy & Hfree & _).
  assert (Hsame : forall st l, Forall (in_state (w_store w) st) l -> (forall y, y ∈ l -> y ∉ ys)).
  { intros st l Hl y Hy Hin. rewrite Forall_forall in Hl. destruct (Hl y Hy) as (row & Hrow & _).
    rewrite Hfree in Hrow by done. done. }
  assert (Hkeep : forall st l, Forall (in_state (w_store w) st) l -> Forall (in_state (w_store w') st) l).
  { intros st l Hl. eapply in_state_eq; [|exact Hl]. intros y Hy.
    rewrite Hst, lookup_setup_proof, decide_False by (try done; by eapply Hsame). done. }
  split; cbn; rewrite ?flight_ys_cons; cbn.
  - apply Forall_app. split; [|by apply Hkeep]. apply Forall_forall. intros y Hy.
    unfold in_state. rewrite Hst, lookup_setup_proof, decide_True by done.
    destruct (proof_rows_Some now None op ys (swap_inputs r) y) as (p & _ & ->); [by eapply addable_length|done|].
    cbn. eauto.
  - apply NoDup_app. split_and!; [done| |done]. intros y Hy Hin. by eapply (Hsame _ _ I1).
  - constructor; done.
  - by apply Hkeep.
  - done.
Qed.

Lemma inv_finalize now w fls1 f fls2 done faults sigs w' :
  Inv (mkSys w (fls1 ++ f :: fls2) done) ->
  finalize_tx now (fl_signed f sigs) (set_faults w faults) = (Ok (inl tt), w') ->
  Inv (mkSys w' (fls1 ++ fls2) (mkCompleted (fl_req f) (fl_ys f) sigs :: done)).
Proof.
  intros [I1 I2 I3 I4 I5] Hf. cbn in I1, I2, I3, I4, I5. apply flights_split in I3 as [Hnd I3].
  apply finalize_tx_done in Hf as (_ & _ & _ & Hst); [|done]. cbn in Hst.
  apply pending_split in I1 as [Hpf I1]. apply flights_drop in I2 as (I2 & Hndf & Hdisj).
  assert (Hlook : forall y, db_proof (w_store w') !! y =
    (fun r => if bool_decide (y ∈ fl_ys f) then set_state r Nut07.Spent else r) <$> db_proof (w_store w) !! y).
  { intros y. destruct Hst as [-> | ->]; cbn; apply lookup_update_states. }
  assert (Hother : forall y, y ∉ fl_ys f -> db_proof (w_store w') !! y = db_proof (w_store w) !! y).
  { intros y Hy. rewrite Hlook, bool_decide_eq_false_2 by done. by destruct (db_proof (w_store w) !! y). }
  rewrite Forall_forall in Hpf, I4.
  assert (Hdone : forall y, y ∈ done_ys done -> y ∉ fl_ys f).
  { intros y Hy Hin. destruct (Hpf y Hin) as (r1 & ? & ?), (I4 y Hy) as (r2 & ? & ?). congruence. }
  split; cbn; try done.
  - eapply in_state_eq; [|exact I1]. intros y Hy. by apply Hother, Hdisj.
  - change (done_ys (_ :: done)) with (fl_ys f ++ done_ys done). apply Forall_app. split.
    + apply Forall_forall. intros y Hy. destruct (Hpf y Hy) as (row & Hrow & _). unfold in_state.
      rewrite Hlook, bool_decide_eq_true_2, Hrow by done. cbn. eauto.
    + eapply in_state_eq; [|by apply Forall_forall]. intros y Hy. by apply Hother, Hdone.
  - change (done_ys (_ :: done)) with (fl_ys f ++ done_ys done). apply NoDup_app. split_and!; [done| |done].
    intros y Hy Hin. by apply (Hdone y).
Qed.

Lemma inv_compensate w fls1 f fls2 done faults res w' :
  Inv (mkSys w (fls1 ++ f :: fls2) done) ->
  compensate_all (fl_setup f) (set_faults w faults) = (res, w') ->
  Inv (mkSys w' (fls1 ++ fls2) done).
Proof.
  intros [I1 I2 I3 I4 I5] Hc. cbn in I1, I2, I3, I4, I5. apply flights_split in I3 as [_ I3].
  apply pending_split in I1 as [_ I1]. apply flights_drop in I2 as (I2 & _ & Hdisj).
  apply (compensate_all_cases (fl_setup f) (map blinded_secret (swap_outputs (fl_req f))) (fl_ys f)) in Hc; [|done].
  cbn in Hc. split; cbn; try done.
  - eapply in_state_eq; [|exact I1]. intros y Hy. eapply compensated_other; [exact Hc|by apply Hdisj].
  - eapply evolves_spent; [by eapply evolves_compensated|done].
Qed.

Lemma inv_step s s' : step s s' -> Inv s -> Inv s'.
Proof.
  intros Hstep HI. destruct Hstep as [now keysets op r v w fls done faults ys w' Hv Hs
    |now keysets op r v w fls done faults res w' _ Hs Hno|w fls1 f fls2 done sigs _
    |now w fls1 f fls2 done faults sigs w' _ Hf|now w fls1 f fls2 done faults sigs res w' _ Hf Hno
    |w fls1 f fls2 done faults res w' Hc|w fls1 f fls2 done|w fls done faults res w' Hr].
  - by eapply inv_setup.
  - apply setup_swap_fails in Hs; [|done]. cbn in Hs. destruct HI as [I1 I2 I3 I4 I5]. split; cbn in *; by rewrite ?Hs.
  - destruct HI as [I1 I2 I3 I4 I5]. cbn in *.
    assert (Hys : flight_ys (fls1 ++ mkFlight (fl_op f) (fl_req f) (fl_ys f) (Some sigs) :: fls2) =
      flight_ys (fls1 ++ f :: fls2)) by (by rewrite !flight_ys_app, !flight_ys_cons).
    split; cbn; rewrite ?Hys; try done. apply flights_split. by apply flights_split in I3.
  - by eapply inv_finalize.
  - apply finalize_tx_not_done in Hf; [|done]. cbn in Hf. destruct HI as [I1 I2 I3 I4 I5]. split; cbn in *; by rewrite ?Hf.
  - by eapply inv_compensate.
  - destruct HI as [I1 I2 I3 I4 I5]. cbn in *. apply flights_split in I3 as [_ I3].
    apply pending_split in I1 as [_ I1]. apply flights_drop in I2 as (I2 & _ & _). split; done.
  - destruct HI as [I1 I2 I3 I4 I5]. cbn in *. apply recover_evolves in Hr. cbn in Hr.
    split; cbn; try constructor; try done. by eapply evolves_spent.
Qed.

Lemma inv_reachable s : reachable s -> Inv s.
Proof.
  induction 1 as [store faults|s s' _ IH Hstep]; [|by eapply inv_step].
  split; cbn; constructor.
Qed.

(** C2. No double spend.  However swaps are interleaved, whatever calls to the
    database fail, and whenever the mint restarts and recovers: no proof is an
    input of two completed swaps or of two swaps in flight, the inputs of
    completed swaps are spent in the store and those of swaps in flight are
    pending. *)
Theorem no_double_spend s :
  reachable s ->
  NoDup (done_ys (sy_done s)) /\ NoDup (flight_ys (sy_flights s)) /\
  Forall (in_state (w_store (sy_world s)) Nut07.Spent) (done_ys (sy_done s)) /\
  Forall (in_state (w_store (sy_world s)) Nut07.Pending) (flight_ys (sy_flights s)).
Proof. intros [I1 I2 I3 I4 I5]%inv_reachable. done. Qed.

End conc.
End SwapConcurrency.

(** ** A concrete run: one swap completes after a restart-free execution *)
Module ConcreteConcurrency.
Import Nut00 Requests MintTypes MintDb Mint Swap SwapFacts SwapConcurrency Concrete ConcreteMint ConcreteSwap.

Definition v0 : Verification := mkVerification 8 (Some Amount.Sat).
Definition w1 : World := snd (setup_swap 50 [sat_keyset] (OpSwap 1) (swap_inputs request) (swap_outputs request) None v0 (start [])).
Definition sigs : list BlindSignature := [mkBlindSignature 7 "ks" bob None].
Definition w2 : World := snd (finalize_tx 51 (signed_saga (OpSwap 1) request [alice] sigs) (set_faults w1 [])).
Definition final : Sys := mkSys w2 [] [mkCompleted request [alice] sigs].

Lemma no_double_spend_witness :
  reachable final /\ NoDup (done_ys (sy_done final)) /\
  Forall (in_state (w_store w2) Nut07.Spent) (done_ys (sy_done final)).
Proof.
  assert (Hr : reachable final).
  { eapply R_step; [eapply R_step; [eapply R_step; [apply (R_init empty_db [])|]|]|].
    - eapply (St_setup 50 [sat_keyset] (OpSwap 1) request v0 _ [] [] [] [alice] w1); vm_compute; reflexivity.
    - apply (St_sign w1 [] (mkFlight (OpSwap 1) request [alice] None) [] [] sigs). reflexivity.
    - eapply (St_finalize 51 w1 [] (mkFlight (OpSwap 1) request [alice] (Some sigs)) [] [] [] sigs w2); [reflexivity|].
      vm_compute. reflexivity. }
  split; [exact Hr|]. destruct (no_double_spend final Hr) as (H1 & _ & H3 & _). split; [exact H1|exact H3].
Defined.

End ConcreteConcurrency.
