(* ===== verification/Issue.v ===== *)
(** * Paying and minting quotes (crates/cdk/src/mint/issue/mod.rs, ln.rs, mod.rs)

    A mint quote is created with a payment request, credited when the payment
    backend reports payments, and drawn on by mint requests.  The payment
    backend is the interface [Payments] (the trait [MintPayment]). *)
From stdpp Require Import base numbers list sorting strings gmap fin_maps.
From S2P Require Import Prelude Amount Nuts Conditions Spending States MintDb Mint.

Local Open Scope N_scope.
Local Open Scope res_scope.
Local Open Scope mint_scope.

#[global] Instance PaymentMethod_eq_dec : EqDecision MintTypes.PaymentMethod.
Proof. solve_decision. Defined.
#[global] Instance MintQuoteState_eq_dec : EqDecision MintTypes.MintQuoteState.
Proof. solve_decision. Defined.

Module Issue.
Import Nut00 Requests StateRules MintTypes MintDb Mint.

Section defs.
Context {CR : Crypto} {SD : Serde} {SG : Signatory}.

Record WaitPaymentResponse := mkWaitPaymentResponse {
  wp_payment_identifier : PaymentIdentifier;
  wp_payment_amount : N;
  wp_unit : Amount.CurrencyUnit;
  wp_payment_id : string;
}.

Record CreateIncomingPaymentResponse := mkCreateIncomingPaymentResponse {
  ci_request_lookup_id : PaymentIdentifier;
  ci_request : string;
  ci_expiry : option N;
}.

(** The payment processors, by unit and method; [None] when there is none. *)
Class Payments := {
  check_incoming_payment_status :
    Amount.CurrencyUnit -> PaymentMethod -> option (PaymentIdentifier -> res MError (list WaitPaymentResponse));
  create_incoming_payment_request :
    Amount.CurrencyUnit -> PaymentMethod ->
    option (option N -> option string -> option N -> res MError CreateIncomingPaymentResponse);
  (** [Bolt11Settings::invoice_description] of the backend *)
  invoice_description : Amount.CurrencyUnit -> PaymentMethod -> bool;
}.

Context {PY : Payments}.

(** [pubsub.mint_quote_payment] and [mint_quote_issue]: no event for custom methods. *)
Definition notify (q : MintQuote) (e : Event) : Mt unit :=
  match mq_payment_method q with Bolt11 | Bolt12 => publish e | CustomMethod _ => mret tt end.

(** A bolt11 quote that has received its payment. *)
Definition settled (q : MintQuote) : bool :=
  match compute_quote_state q with QIssued | QPaid => true | QUnpaid => false end.

(** ** Payments *)

Definition handle_mint_quote_payment (now : N) (q : MintQuote) (r : WaitPaymentResponse) : Mt unit :=
  if bool_decide (wp_payment_id r ∈ payment_ids q) then mret tt
  else if bool_decide (mq_payment_method q = Bolt11) && settled q then mret tt
  else
    do amount <- mlift (map_err MAmount (Amount.to_unit (wp_payment_amount r) (wp_unit r) (mq_unit q))) ;
    do_ mlift (ensure (negb (amount =? 0)) AmountUndefined) ;
    do total_paid <- db (tx (increment_mint_quote_amount_paid now (mq_id q) amount (wp_payment_id r))) ;
    notify q (EvMintQuotePayment (mq_id q) total_paid).

(** [pay_mint_quote_for_request_id] and [handle_payment_notification]. *)
Definition pay_mint_quote_for_request_id (now : N) (r : WaitPaymentResponse) : Mt unit :=
  do_ mlift (ensure (negb (wp_payment_amount r =? 0)) AmountUndefined) ;
  do_ db begin_transaction ;
  do found <- mtry (tx_read (fun d => Ok (get_mint_quote_by_request_lookup_id (wp_payment_identifier r) d))) ;
  do_ (match found with
       | inl (Some q) => handle_mint_quote_payment now q r
       | _ => mret tt
       end) ;
  db commit.

(** The payments of [check_mint_quote_paid], on the quote held in memory. *)
Fixpoint record_payments (now : N) (q : MintQuote) (l : list WaitPaymentResponse) : Mt MintQuote :=
  match l with
  | [] => mret q
  | r :: l' =>
      if negb (bool_decide (wp_payment_id r ∈ payment_ids q)) && (0 <? wp_payment_amount r) then
        do amount_paid <- mlift (map_err MAmount (Amount.to_unit (wp_payment_amount r) (wp_unit r) (mq_unit q))) ;
        do p <- mlift (map_err (fun _ => MAmountOverflow) (increment_amount_paid q amount_paid)) ;
        do q' <- mlift (map_err (fun _ => DuplicatePaymentId) (add_payment (snd p) amount_paid (wp_payment_id r) now)) ;
        do total_paid <- db (tx (increment_mint_quote_amount_paid now (mq_id q) amount_paid (wp_payment_id r))) ;
        do_ notify q' (EvMintQuotePayment (mq_id q) total_paid) ;
        record_payments now q' l'
      else record_payments now q l'
  end.

(** [check_mint_quote_paid] of ln.rs; returns the quote it leaves in place. *)
Definition check_mint_quote_paid (now : N) (q : MintQuote) : Mt MintQuote :=
  if bool_decide (mq_payment_method q = Bolt11) && settled q then mret q
  else match check_incoming_payment_status (mq_unit q) (mq_payment_method q) with
       | None => mfail UnsupportedUnit
       | Some check =>
           do ln_status <- mlift (check (mq_request_lookup_id q)) ;
           match ln_status with
           | [] => mret q
           | _ =>
               do_ db begin_transaction ;
               do row <- db (tx_read (fun d => Ok (get_mint_quote (mq_id q) d))) ;
               do q' <- mlift (ok_or UnknownQuote row) ;
               if bool_decide (mq_payment_method q' = Bolt11) && settled q' then mret q'
               else
                 do q'' <- record_payments now q' ln_status ;
                 do_ db commit ;
                 mret q''
           end
       end.

(** ** Minting *)

(** What a paid quote lets out: the whole amount of a bolt11 quote, at most
    what is left of a bolt12 quote. *)
Definition mint_amount (q : MintQuote) : res MError N :=
  match mq_payment_method q with
  | Bolt11 =>
      let? quote_amount := ok_or AmountUndefined (mq_amount q) in
      let? mintable := map_err MAmount (amount_mintable q) in
      if negb (quote_amount =? mintable) then Err IncorrectQuoteAmount else Ok quote_amount
  | Bolt12 =>
      let? mintable := map_err MAmount (amount_mintable q) in
      if mintable =? 0 then Err UnpaidQuote else Ok mintable
  | CustomMethod _ => Err UnsupportedPaymentMethod
  end.

Definition outputs_fit (q : MintQuote) (mint_amount outputs_amount : N) : bool :=
  if decide (mq_payment_method q = Bolt11) then outputs_amount =? mint_amount else outputs_amount <=? mint_amount.

(** The part of [process_mint_request] inside the transaction. *)
Definition mint_tx (now : N) (keysets : Keysets) (op_uuid : Uuid) (r : MintRequest) (blind_signatures : list BlindSignature)
    : Mt (MintQuote * N) :=
  do_ db begin_transaction ;
  do row <- db (tx_read (fun d => Ok (get_mint_quote (mint_quote_id r) d))) ;
  do q <- mlift (ok_or UnknownQuote row) ;
  do_ mlift (match compute_quote_state q with
             | QUnpaid => Err UnpaidQuote
             | QIssued => Err IssuedQuote
             | QPaid => Ok tt
             end) ;
  do_ mlift (ensure (negb (bool_decide (mq_payment_method q = Bolt12) && negb (bool_decide (is_Some (mq_pubkey q)))))
         SignatureMissingOrInvalid) ;
  do mint_amount <- mlift (mint_amount q) ;
  do_ mlift (match mq_pubkey q with
             | Some pk => map_err MNUT20 (verify_signature r pk)
             | None => Ok tt
             end) ;
  do v <- verify_outputs keysets (mint_outputs r) ;
  do_ (if outputs_fit q mint_amount (v_amount v) then mret tt
       else do total <- mlift (map_err MAmount (mint_total_amount r)) ;
            mfail (TransactionUnbalanced mint_amount total 0)) ;
  (* unit.ok_or(UnsupportedUnit).unwrap() *)
  do unit <- mlift (expect (v_unit v)) ;
  do_ mlift (ensure (bool_decide (unit = mq_unit q)) UnsupportedUnit) ;
  do_ db (tx (add_blinded_messages now (Some (mint_quote_id r)) (mint_outputs r) (OpMint op_uuid))) ;
  do_ db (tx (add_blind_signatures now (map blinded_secret (mint_outputs r)) blind_signatures (Some (mint_quote_id r)))) ;
  do amount_issued <- mlift (map_err MAmount (mint_total_amount r)) ;
  do total_issued <- db (tx (increment_mint_quote_amount_issued now (mint_quote_id r) amount_issued)) ;
  do_ db commit ;
  mret (q, total_issued).

Definition process_mint_request (now : N) (keysets : Keysets) (op_uuid : Uuid) (r : MintRequest)
    : Mt (list BlindSignature) :=
  do row <- db (read_store (fun d => Ok (get_mint_quote (mint_quote_id r) d))) ;
  do q0 <- mlift (ok_or UnknownQuote row) ;
  do_ (if decide (mq_payment_method q0 = Bolt11) then check_mint_quote_paid now q0 else mret q0) ;
  do blind_signatures <- mlift (signatory_blind_sign (mint_outputs r)) ;
  do qt <- mint_tx now keysets op_uuid r blind_signatures ;
  do_ notify (fst qt) (EvMintQuoteIssue (mint_quote_id r) (snd qt)) ;
  mret blind_signatures.

(** ** Quotes *)

Definition check_mint_quote (now : N) (id : QuoteId) : Mt MintQuote :=
  do row <- db (read_store (fun d => Ok (get_mint_quote id d))) ;
  do q <- mlift (ok_or UnknownQuote row) ;
  if decide (mq_payment_method q = Bolt11) then check_mint_quote_paid now q else mret q.

(** [nut04] settings of a unit and method. *)
Record MethodSettings := mkMethodSettings { ms_min_amount : option N; ms_max_amount : option N }.

Definition check_mint_request_acceptable (disabled : bool) (settings : option MethodSettings) (amount : option N)
    : res MError unit :=
  let? _ := ensure (negb disabled) MintingDisabled in
  let? s := ok_or UnsupportedUnit settings in
  match amount with
  | None => Ok tt
  | Some a =>
      let is_above_max := from_option (fun m => m <? a) false (ms_max_amount s) in
      let is_below_min := from_option (fun m => a <? m) false (ms_min_amount s) in
      ensure (negb (is_above_max || is_below_min))
        (AmountOutofLimitRange (default 0 (ms_min_amount s)) (default 0 (ms_max_amount s)) a)
  end.

(** [Mint::get_mint_quote]: amount, description and expiry of the payment
    request, the quote row, and the notification. *)
Definition create_mint_quote (now mint_ttl : N) (disabled : bool) (settings : option MethodSettings) (fresh_id : QuoteId)
    (unit : Amount.CurrencyUnit) (amount : option N) (description : option string) (method : PaymentMethod)
    (pk : option pubkey) : Mt MintQuote :=
  do_ mlift (check_mint_request_acceptable disabled settings amount) ;
  do create <- mlift (ok_or UnsupportedUnit (create_incoming_payment_request unit method)) ;
  do_ mlift (ensure (negb (bool_decide (method = Bolt11) && bool_decide (is_Some description) &&
                           negb (invoice_description unit method))) InvoiceDescriptionUnsupported) ;
  let unix_expiry := if decide (method = Bolt11) then Some (now + mint_ttl) else None in
  do resp <- mlift (map_err (fun _ => InvalidPaymentRequest) (create amount description unix_expiry)) ;
  let quote := mkMintQuote fresh_id amount unit (ci_request resp) (default 0 (ci_expiry resp))
    (ci_request_lookup_id resp) pk now 0 0 [] method [] in
  do_ db begin_transaction ;
  do_ db (tx (add_mint_quote quote)) ;
  do_ db commit ;
  do_ notify quote (EvMintQuoteCreated fresh_id) ;
  mret quote.

End defs.
End Issue.
