(* ===== verification/IssueFacts.v ===== *)
(** * Correctness of paying and minting

    A mint request that returns signatures draws its outputs from what the
    quote was paid and nothing else; a request that fails issues nothing. *)
From stdpp Require Import base numbers list sorting strings gmap fin_maps.
From S2P Require Import Prelude Amount Nuts Conditions Concrete Spending States MintDb MintDbFacts MintDbSpec Mint MintFacts Issue.

Local Open Scope N_scope.

Module IssueFacts.
Import Nut00 Requests StateRules MintTypes MintDb MintDbFacts MintDbSpec Mint MintFacts Issue.

Section facts.
Context {CR : Crypto} {SD : Serde} {SG : Signatory} {PY : Payments}.

(** ** Recording payments touches nothing but payments *)

Definition only_pays (d d' : Db) : Prop :=
  db_proof d' = db_proof d /\ db_blind_signature d' = db_blind_signature d /\
  db_saga_state d' = db_saga_state d /\ db_mint_quote_issued d' = db_mint_quote_issued d /\
  db_melt_quote d' = db_melt_quote d /\ db_melt_request d' = db_melt_request d /\
  forall id, mq_amount_issued <$> db_mint_quote d' !! id = mq_amount_issued <$> db_mint_quote d !! id.

#[global] Instance only_pays_preorder : PreOrder only_pays.
Proof.
  unfold only_pays. split; [done|]. intros a b c (? & ? & ? & ? & ? & ? & Ha) (? & ? & ? & ? & ? & ? & Hb).
  split_and!; congruence.
Qed.

Lemma only_pays_increment now id a p : keeps only_pays (increment_mint_quote_amount_paid now id a p).
Proof.
  intros d. pose proof (increment_paid_run now id a p d) as H.
  destruct (increment_mint_quote_amount_paid now id a p d) as [[t|e|] d']; [|by subst|done].
  destruct H as (q & _ & _ & _ & _ & _ & ->). repeat (split; [done|]). intros id'. cbn.
  rewrite lookup_alter. case_decide as Heq; [subst|done]. by destruct (db_mint_quote d !! id').
Qed.

Lemma pv_record_payments (R : Db -> Db -> Prop) `{!PreOrder R} now q l :
  (forall id a p, keeps R (increment_mint_quote_amount_paid now id a p)) ->
  preserves R (record_payments now q l).
Proof.
  intros HR. revert q. induction l as [|r l IH]; intros q; cbn [record_payments]; unfold db, notify;
    pv_auto ltac:(apply HR); apply IH.
Qed.

Lemma cm_check_mint_quote_paid (R : Db -> Db -> Prop) `{!PreOrder R} now q :
  (forall id a p, keeps R (increment_mint_quote_amount_paid now id a p)) ->
  commits R (check_mint_quote_paid now q).
Proof.
  intros HR. unfold check_mint_quote_paid. destruct (_ && _); [by apply cm_keeps|].
  destruct (check_incoming_payment_status _ _) as [check|]; [|by apply cm_keeps].
  apply cm_mseq; [done|by apply cm_keeps|intros [|r l]; [by apply cm_keeps|]].
  apply cm_begin; [done|]. unfold db. pv_auto ltac:(apply HR). by apply pv_record_payments.
Qed.

(** ** The minting transaction *)

Definition mint_db (now : N) (op : Operation) (id : QuoteId) (ms : list BlindedMessage) (sigs : list BlindSignature)
    (d : Db) : Db :=
  issue_db now id (sumN (map bm_amount ms))
    (set_blind_signature d (signed now (Some id) (zip (map blinded_secret ms) sigs)
       (message_rows now (Some id) op ms ∪ db_blind_signature d))).

(** What the transaction checked of the quote it drew on. *)
Record may_mint (r : MintRequest) (q : MintQuote) : Prop := {
  mm_paid : mq_amount_issued q + sumN (map bm_amount (mint_outputs r)) <= mq_amount_paid q;
  mm_method : mq_payment_method q = Bolt11 \/ mq_payment_method q = Bolt12;
  mm_bolt11 : mq_payment_method q = Bolt11 ->
    mq_amount q = Some (sumN (map bm_amount (mint_outputs r))) /\
    mq_amount_issued q + sumN (map bm_amount (mint_outputs r)) = mq_amount_paid q;
  mm_bolt12 : mq_payment_method q = Bolt12 -> is_Some (mq_pubkey q);
  mm_signature pk : mq_pubkey q = Some pk -> verify_signature r pk = Ok tt;
}.

Lemma mint_total_amount_Ok r a : mint_total_amount r = Ok a -> a = sumN (map bm_amount (mint_outputs r)).
Proof.
  unfold mint_total_amount. destruct (Amount.try_sum _) eqn:E; [|done..]. intros [= <-].
  by apply Amount.try_sum_Ok in E as [-> _].
Qed.

Lemma amount_mintable_Ok q n : amount_mintable q = Ok n -> mq_amount_issued q + n = mq_amount_paid q.
Proof.
  unfold amount_mintable, Amount.sub. destruct (Amount.checked_sub _ _) eqn:E; [|done]. intros [= <-].
  apply u64_checked_sub_Some in E as [-> ?]. lia.
Qed.

Lemma mint_amount_Ok q a :
  mint_amount q = Ok a -> mq_amount_issued q + a = mq_amount_paid q /\
  (mq_payment_method q = Bolt11 /\ mq_amount q = Some a \/ mq_payment_method q = Bolt12).
Proof.
  unfold mint_amount. destruct (mq_payment_method q); [| |done].
  - destruct (mq_amount q) as [qa|]; [|done]. cbn [ok_or].
    destruct (amount_mintable q) as [n| |] eqn:Hm; cbn [map_err]; [|done..].
    destruct (N.eqb_spec qa n) as [->|]; cbn [negb]; [|done]. intros [= <-]. apply amount_mintable_Ok in Hm. auto.
  - destruct (amount_mintable q) as [n| |] eqn:Hm; cbn [map_err]; [|done..].
    destruct (n =? 0); [done|]. intros [= <-]. apply amount_mintable_Ok in Hm. auto.
Qed.

Lemma outputs_fit_le q a b : outputs_fit q a b = true -> b <= a.
Proof. unfold outputs_fit. case_decide; rewrite ?N.eqb_eq, ?N.leb_le; lia. Qed.

Lemma may_mint_checks r q a :
  mint_amount q = Ok a -> outputs_fit q a (sumN (map bm_amount (mint_outputs r))) = true ->
  negb (bool_decide (mq_payment_method q = Bolt12) && negb (bool_decide (is_Some (mq_pubkey q)))) = true ->
  match mq_pubkey q with Some pk => map_err MNUT20 (verify_signature r pk) | None => Ok tt end = Ok tt ->
  may_mint r q.
Proof.
  intros [Hsum Hm]%mint_amount_Ok Hfit Hb12 Hsig. pose proof (outputs_fit_le _ _ _ Hfit). split.
  - lia.
  - naive_solver.
  - intros H11. unfold outputs_fit in Hfit. rewrite decide_True in Hfit by done. apply N.eqb_eq in Hfit as ->.
    destruct Hm as [[_ ->]|?]; [done|congruence].
  - intros H12. rewrite bool_decide_eq_true_2 in Hb12 by done. cbn in Hb12. by case_bool_decide.
  - intros pk Hpk. rewrite Hpk in Hsig. by apply map_err_Ok in Hsig.
Qed.

Lemma mint_tx_Ok now keysets uuid r sigs w q total w' :
  mint_tx now keysets uuid r sigs w = (Ok (q, total), w') ->
  let ms := mint_outputs r in
  get_mint_quote (mint_quote_id r) (w_store w) = Some q /\ may_mint r q /\ reservable (w_store w) ms /\
  length ms = length sigs /\ total = mq_amount_issued q + sumN (map bm_amount ms) /\
  verify_outputs_keyset keysets ms = Ok (mq_unit q) /\
  w_store w' = mint_db now (OpMint uuid) (mint_quote_id r) ms sigs (w_store w).
Proof.
  unfold mint_tx. intros (u & w1 & [Hs1 Ht1]%begin_Ok & H)%mseq_Ok. cbn zeta.
  apply tx_read_seq in H as (row & w2 & [= Hrow] & Ht2 & Hs2 & H).
  apply mlift_seq in H as (q' & ->%ok_or_Ok & H). apply mlift_seq in H as ([] & Hst & H).
  apply mlift_seq in H as ([] & Hb12%ensure_Ok & H). apply mlift_seq in H as (ma & Hma & H).
  apply mlift_seq in H as ([] & Hsig & H). apply mseq_Ok in H as (v & w3 & Hv & H).
  pose proof (ks_verify_outputs keysets (mint_outputs r) w2) as Hs3. rewrite Hv in Hs3. cbn in Hs3.
  apply mseq_Ok in H as ([] & w4 & Hfit & H).
  destruct (outputs_fit q' ma (v_amount v)) eqn:Ef; [|by apply mlift_seq in Hfit as (? & ? & ?)].
  injection Hfit as <-.
  apply mlift_seq in H as (un & Hun & H). apply mlift_seq in H as ([] & Hunit%ensure_Ok%bool_decide_eq_true & H).
  assert (Hvu : v_unit v = Some un) by (destruct (v_unit v); cbn in Hun; congruence).
  pose proof (verify_outputs_unit _ _ _ _ _ _ Hv Hvu) as Hks. apply verify_outputs_Ok in Hv as (Ht3 & Hnd & Ha); [|rewrite Hvu; eauto].
  apply tx_seq in H as ([] & w5 & Hm & Hs5 & H). apply add_blinded_messages_Ok in Hm as [Hres Ht5].
  apply tx_seq in H as ([] & w6 & Hbs & Hs6 & H). apply add_blind_signatures_Ok in Hbs as (Hl & _ & Ht6); [|done].
  apply mlift_seq in H as (ia & Hia%map_err_Ok%mint_total_amount_Ok & H). subst ia.
  apply tx_seq in H as (tot & w7 & Hinc & Hs7 & H). apply mseq_Ok in H as (? & w8 & Hc%commit_Ok & [= <- <- <-]).
  pose proof (increment_issued_run now (mint_quote_id r) (sumN (map bm_amount (mint_outputs r))) (w_tx w6)) as Hrun.
  rewrite Hinc in Hrun. destruct Hrun as (q0 & Hq0 & Hle & -> & Ht7).
  rewrite Ht3, Ht2, Ht1 in Ht5, Hres. rewrite Ht1 in Hrow. rewrite Ha in Ef. rewrite length_map in Hl.
  rewrite Ht6, Ht5 in Hq0. cbn in Hq0. unfold get_mint_quote in *. rewrite Hq0 in *. injection Hrow as <-.
  split_and!; [done|by eapply may_mint_checks|done|done|done|congruence|].
  rewrite Hc, Ht7, Ht6, Ht5. done.
Qed.

(** A minting transaction that does not succeed changes nothing. *)
Lemma mint_tx_fails now keysets uuid r sigs w res w' :
  mint_tx now keysets uuid r sigs w = (res, w') -> (forall a, res <> Ok a) -> w_store w' = w_store w.
Proof.
  intros H Hr. assert (Hww : writes_when (fun _ => True) (mint_tx now keysets uuid r sigs));
    [|eapply Hww; [exact H|]; intros a ->; by destruct (Hr a)].
  unfold mint_tx, db, tx_read. do 7 (apply ww_mseq; [solve [ks_auto]|intros]).
  apply ww_mseq; [apply ks_verify_outputs|intros v]. do 7 (apply ww_mseq; [solve [ks_auto]|intros]). by apply ww_commit.
Qed.

(** ** The handler *)

Lemma only_pays_check now (q0 : MintQuote) w :
  only_pays (w_store w)
    (w_store (snd ((if decide (mq_payment_method q0 = Bolt11) then check_mint_quote_paid now q0 else mret q0) w))).
Proof. case_decide; [|reflexivity]. apply cm_check_mint_quote_paid; [apply _|apply only_pays_increment]. Qed.

(** Every run of the handler: it fails having at most recorded payments, or it
    signs and its transaction goes through. *)
Lemma process_mint_cases now keysets uuid r w res w' :
  process_mint_request now keysets uuid r w = (res, w') ->
  ((forall sigs, res <> Ok sigs) /\ only_pays (w_store w) (w_store w')) \/
  exists sigs q total w1 w2, res = Ok sigs /\ only_pays (w_store w) (w_store w1) /\
    signatory_blind_sign (mint_outputs r) = Ok sigs /\
    mint_tx now keysets uuid r sigs w1 = (Ok (q, total), w2) /\ w_store w' = w_store w2.
Proof.
  unfold process_mint_request. unfold mseq at 1.
  assert (Hs1 : w_store (snd (db (read_store (fun d => Ok (get_mint_quote (mint_quote_id r) d))) w)) = w_store w)
    by apply ks_mmap_err, ks_read_store.
  destruct (db (read_store _) w) as [[row| |] w1]; cbn in Hs1;
    [|intros [= <- <-]; left; split; [done|by rewrite Hs1]..].
  rewrite <- Hs1. unfold mseq at 1, mlift at 1. destruct (ok_or UnknownQuote row) as [q0| |];
    [|intros [= <- <-]; left; done..].
  pose proof (only_pays_check now q0 w1) as Hp. unfold mseq at 1.
  unfold Mt in Hp. match type of Hp with context [snd ?run] => destruct run as [[q1| |] w2] end; cbn in Hp; [|intros [= <- <-]; left; done..].
  unfold mseq at 1, mlift at 1. destruct (signatory_blind_sign (mint_outputs r)) as [sigs| |];
    [|intros [= <- <-]; left; done..].
  unfold mseq at 1. destruct (mint_tx now keysets uuid r sigs w2) as [[[q total]| |] w3] eqn:Htx; cycle 1.
  1,2: intros [= <- <-]; left; (split; [done|]); apply mint_tx_fails in Htx; [by rewrite Htx|done].
  intros H. right. exists sigs, q, total, w2, w3. unfold notify in H. cbn [fst] in H.
  assert (res = Ok sigs /\ w_store w' = w_store w3) as [-> ->]; [|done].
  destruct (mq_payment_method q); injection H as <- <-; done.
Qed.

(** C9. A mint request that does not return signatures has issued nothing:
    apart from payments that the backend reported on the way, every table is
    as before. *)
Theorem mint_failure now keysets uuid r w res w' :
  process_mint_request now keysets uuid r w = (res, w') -> (forall sigs, res <> Ok sigs) ->
  only_pays (w_store w) (w_store w').
Proof. intros [[_ H]|(sigs & q & total & w1 & w2 & -> & _)]%process_mint_cases Hn; [done|]. by destruct (Hn sigs). Qed.

(** A mint request without outputs on a paid bolt12 quote, signed by the key
    that the quote is locked to, does not return an error: the handler panics
    on the missing unit. *)
Theorem empty_bolt12_mint_panics now keysets uuid r w q pk :
  w_faults w = [] -> mint_outputs r = [] ->
  get_mint_quote (mint_quote_id r) (w_store w) = Some q -> mq_payment_method q = Bolt12 ->
  mq_pubkey q = Some pk -> verify_signature r pk = Ok tt -> mq_amount_issued q < mq_amount_paid q ->
  signatory_blind_sign [] = Ok [] ->
  fst (process_mint_request now keysets uuid r w) = Panic.
Proof.
  intros Hf Ho Hq H12 Hpk Hsig Hlt Hs. destruct w as [st t f ev]. cbn in *. subst f.
  assert (Hstate : compute_quote_state q = QPaid).
  { apply (quote_state_paid_iff q (mq_amount_paid q - mq_amount_issued q)); [unfold solvent; lia| |lia].
    apply amount_mintable_solvent. unfold solvent. lia. }
  assert (Hma : mint_amount q = Ok (mq_amount_paid q - mq_amount_issued q)).
  { unfold mint_amount. rewrite H12, amount_mintable_solvent by (unfold solvent; lia). cbn [map_err].
    destruct (N.eqb_spec (mq_amount_paid q - mq_amount_issued q) 0); [lia|done]. }
  unfold process_mint_request, db, read_store, faulty, mmap_err. unfold mseq at 1. cbn [w_faults w_store fst snd map_err].
  rewrite Hq. unfold mseq at 1, mlift at 1. cbn [ok_or]. rewrite decide_False by (rewrite H12; discriminate).
  cbn [mret]. rewrite Ho, Hs. unfold mseq at 1.
  assert (Htx : fst (mint_tx now keysets uuid r [] (mkWorld st t [] ev)) = Panic).
  { unfold mint_tx, db, begin_transaction, tx_read, tx, faulty, mmap_err, mmodify, mseq, mlift, mret. cbn.
    unfold get_mint_quote in *. rewrite Hq. cbn [ok_or fst snd]. rewrite Hstate, H12, Hpk, Hma, Hsig, Ho. cbn.
    rewrite andb_false_r. cbn. unfold outputs_fit. rewrite decide_False by (rewrite H12; discriminate).
    by rewrite (proj2 (N.leb_le 0 _)) by lia. }
  destruct (mint_tx now keysets uuid r [] (mkWorld st t [] ev)) as [[?|?|] w']; cbn in Htx; done.
Qed.

Context {SL : SignatoryLaws SG}.

(** What a mint request that returns signatures has done. *)
Lemma mint_effect now keysets uuid r w sigs w' :
  process_mint_request now keysets uuid r w = (Ok sigs, w') ->
  let id := mint_quote_id r in
  let total := sumN (map bm_amount (mint_outputs r)) in
  exists q issued,
    sumN (map bs_amount sigs) = total /\
    (mq_amount_issued <$> db_mint_quote (w_store w) !! id) = Some issued /\
    db_mint_quote (w_store w') !! id = Some q /\ mq_amount_issued q = issued + total /\
    mq_amount_issued q <= mq_amount_paid q /\
    db_mint_quote_issued (w_store w') = db_mint_quote_issued (w_store w) ++ [mkIssuedRow id total now] /\
    (mq_payment_method q = Bolt11 -> mq_amount q = Some total /\ mq_amount_issued q = mq_amount_paid q) /\
    (mq_payment_method q = Bolt12 -> is_Some (mq_pubkey q)) /\
    (forall pk, mq_pubkey q = Some pk -> verify_signature r pk = Ok tt) /\
    verify_outputs_keyset keysets (mint_outputs r) = Ok (mq_unit q) /\
    (forall m s, (m, s) ∈ zip (mint_outputs r) sigs ->
       db_blind_signature (w_store w) !! blinded_secret m = None /\
       exists row, db_blind_signature (w_store w') !! blinded_secret m = Some row /\
         sr_c row = Some (bs_c s) /\ row_to_blind_signature row (bs_c s) = Ok s) /\
    (forall b, b ∉ map blinded_secret (mint_outputs r) ->
       db_blind_signature (w_store w') !! b = db_blind_signature (w_store w) !! b) /\
    db_proof (w_store w') = db_proof (w_store w).
Proof.
  intros [[Hn _]|(sigs' & q & total & w1 & w2 & [= <-] & Hpays & Hsign & Htx & Hst)]%process_mint_cases;
    [by destruct (Hn sigs)|].
  apply mint_tx_Ok in Htx as (Hq & [Hle _ H11 H12 Hsig] & Hres & Hl & _ & Hks & Hd). cbn zeta.
  rewrite Hst, Hd. destruct Hpays as (Hpr & Hbs & _ & His & _ & _ & Hiss). unfold get_mint_quote in Hq.
  destruct (db_mint_quote (w_store w1) !! mint_quote_id r) as [q0|] eqn:Hq0; [|done]. injection Hq as <-.
  exists (set_amount_issued q0 (mq_amount_issued q0 + sumN (map bm_amount (mint_outputs r)))), (mq_amount_issued q0).
  apply blind_sign_matches in Hsign as Hm. cbn in *.
  split_and!; try done.
  - by apply sum_signed.
  - by rewrite <- Hiss, Hq0.
  - by rewrite lookup_alter_eq, Hq0.
  - by rewrite His.
  - rewrite <- Hbs. intros m s Hin.
    split; [apply (proj1 (proj2 Hres)); by apply elem_of_zip_l in Hin|]. eexists. split_and!;
      [by apply lookup_signed_reserved|done|]. destruct (Forall2_elem_of_zip _ _ _ _ _ Hm Hin) as [Hma Hmk].
    apply row_to_blind_signature_sign; [|done]. rewrite Hma.
    destruct Hres as (_ & _ & Hamt). rewrite Forall_forall in Hamt. apply Hamt. by apply elem_of_zip_l in Hin.
  - intros b Hb. rewrite lookup_signed_other by done. by rewrite Hbs.
Qed.

(** C5. A mint request that returns signatures, whatever database faults it met:
    the signatures are worth exactly the outputs, that amount is added to what
    the quote has issued and to the issuance journal, the quote has still not
    issued more than it was paid (a bolt11 quote exactly its amount), the
    request carries a valid NUT-20 signature when the quote is locked to a key
    and a bolt12 quote is always locked, the outputs are of the quote's unit,
    each signature is stored so that it reads back as returned, and neither
    the proofs nor any other signature row has changed. *)
Theorem mint_success now keysets uuid r w sigs w' :
  process_mint_request now keysets uuid r w = (Ok sigs, w') ->
  let id := mint_quote_id r in
  let total := sumN (map bm_amount (mint_outputs r)) in
  exists q issued,
    sumN (map bs_amount sigs) = total /\
    (mq_amount_issued <$> db_mint_quote (w_store w) !! id) = Some issued /\
    db_mint_quote (w_store w') !! id = Some q /\ mq_amount_issued q = issued + total /\
    mq_amount_issued q <= mq_amount_paid q /\
    db_mint_quote_issued (w_store w') = db_mint_quote_issued (w_store w) ++ [mkIssuedRow id total now] /\
    (mq_payment_method q = Bolt11 -> mq_amount q = Some total /\ mq_amount_issued q = mq_amount_paid q) /\
    (mq_payment_method q = Bolt12 -> is_Some (mq_pubkey q)) /\
    (forall pk, mq_pubkey q = Some pk -> verify_signature r pk = Ok tt) /\
    verify_outputs_keyset keysets (mint_outputs r) = Ok (mq_unit q) /\
    (forall m s, (m, s) ∈ zip (mint_outputs r) sigs ->
       db_blind_signature (w_store w) !! blinded_secret m = None /\
       exists row, db_blind_signature (w_store w') !! blinded_secret m = Some row /\
         sr_c row = Some (bs_c s) /\ row_to_blind_signature row (bs_c s) = Ok s) /\
    (forall b, b ∉ map blinded_secret (mint_outputs r) ->
       db_blind_signature (w_store w') !! b = db_blind_signature (w_store w) !! b) /\
    db_proof (w_store w') = db_proof (w_store w).
Proof. apply mint_effect. Qed.

End facts.
End IssueFacts.

(** ** Concrete runs *)
Module ConcreteIssue.
Import Nut00 Requests StateRules MintTypes MintDb MintDbFacts Mint MintFacts Issue IssueFacts Concrete ConcreteMint.

(** A backend that reports one payment of 8 sat for every request. *)
#[export] Instance payments : Payments := {|
  check_incoming_payment_status _ _ :=
    Some (fun l => Ok [mkWaitPaymentResponse l 8 Amount.Sat "payment-1"]);
  create_incoming_payment_request _ _ :=
    Some (fun _ _ _ => Ok (mkCreateIncomingPaymentResponse (PCustomId "lookup") "lnbc" None));
  invoice_description _ _ := true;
|}.

Definition create (method : PaymentMethod) (w : World) : World :=
  snd (create_mint_quote 10 600 false (Some (mkMethodSettings None None)) "q" Amount.Sat
         (if decide (method = Bolt11) then Some 8 else None) None method (Some alice) w).

Definition unsigned_request (outputs : list BlindedMessage) : MintRequest := mkMintRequest "q" outputs None.
Definition request (outputs : list BlindedMessage) : MintRequest := mint_sign (unsigned_request outputs) alice_sk.
Definition bolt11_run := process_mint_request 50 [sat_keyset] 1 (request [blank bob 8]) (create Bolt11 (start [])).

Lemma mint_success_witness : exists sigs w' q,
  bolt11_run = (Ok sigs, w') /\ sumN (map bs_amount sigs) = 8 /\
  db_mint_quote (w_store w') !! "q" = Some q /\ mq_amount_issued q <= mq_amount_paid q.
Proof.
  destruct bolt11_run as [[sigs| |] w'] eqn:E;
    [|exfalso; apply (f_equal fst) in E; vm_compute in E; discriminate E..].
  destruct (mint_success 50 [sat_keyset] 1 (request [blank bob 8]) (create Bolt11 (start [])) sigs w' E)
    as (q & issued & H1 & _ & H3 & _ & H5 & _).
  exists sigs, w', q. split; [reflexivity|]. split; [exact H1|]. split; [exact H3|exact H5].
Defined.

(** One sat too much is refused; the payment found on the way is recorded. *)
Lemma mint_failure_witness : exists w',
  process_mint_request 50 [sat_keyset] 1 (request [blank bob 9]) (create Bolt11 (start [])) =
    (Err (TransactionUnbalanced 8 9 0), w') /\
  only_pays (w_store (create Bolt11 (start []))) (w_store w').
Proof.
  eexists. split; [vm_compute; reflexivity|].
  eapply (mint_failure 50 [sat_keyset] 1 (request [blank bob 9])); [vm_compute; reflexivity|discriminate].
Defined.

Definition paid_bolt12 : World :=
  snd (pay_mint_quote_for_request_id 20 (mkWaitPaymentResponse (PCustomId "lookup") 5 Amount.Sat "payment-2")
         (create Bolt12 (start []))).

Lemma empty_bolt12_mint_panics_witness :
  fst (process_mint_request 50 [sat_keyset] 1 (request []) paid_bolt12) = Panic.
Proof.
  eapply (empty_bolt12_mint_panics 50 [sat_keyset] 1 (request []) paid_bolt12); vm_compute; reflexivity.
Defined.

End ConcreteIssue.
