(* ===== verification/ProofWriter.v ===== *)
(** * The proof writer (crates/cdk/src/mint/proof_writer.rs)

    A melt holds its inputs while the payment is under way.  The writer
    remembers the state each proof had before; unless it is consumed by
    [commit], the proofs are put back when it is dropped.  The drop runs the
    rollback in a task of its own. *)
From stdpp Require Import base numbers list sorting strings gmap fin_maps.
From S2P Require Import Prelude Amount Nuts Conditions Spending States MintDb Mint.

Local Open Scope N_scope.
Local Open Scope res_scope.
Local Open Scope mint_scope.

Module ProofWriter.
Import Nut00 Requests StateRules MintTypes MintDb Mint.

Section defs.
Context {CR : Crypto} {SD : Serde}.

(** [None] once the writer has been consumed: [db] and
    [proof_original_states] are taken together. *)
Definition ProofWriter := option (gmap pubkey (option Nut07.State)).

Definition pw_new : ProofWriter := Some ∅.

(** A handler that owns a writer. *)
Definition Wt (A : Type) : Type := M (World * ProofWriter) MError A.

Definition on_world {A} (c : Mt A) : Wt A :=
  fun s => match c (fst s) with (r, w) => (r, (w, snd s)) end.
Definition set_writer (pw : ProofWriter) : Wt unit := mmodify (fun s => (fst s, pw)).
Definition get_writer : Wt ProofWriter := mgets snd.

Definition pw_commit : Wt unit := set_writer None.

(** [reset_proofs_to_original_state]: one update per original state, then the
    proofs that were unknown are removed.  Originally spent proofs are left. *)
Definition original_of (st : Nut07.State) (l : list (pubkey * option Nut07.State)) : list pubkey :=
  map fst (filter (fun ys => snd ys = Some st) l).
Definition unknown_of (l : list (pubkey * option Nut07.State)) : list pubkey :=
  map fst (filter (fun ys => snd ys = None) l).
Definition original_states (l : list (pubkey * option Nut07.State)) : list Nut07.State :=
  filter (fun st => st <> Nut07.Spent) (remove_dups (omap snd l)).

Definition reset_proofs_to_original_state (l : list (pubkey * option Nut07.State)) : Mt unit :=
  do_ mfor (fun st => do_ db (tx (update_proofs_states (original_of st l) st)) ; mret tt) (original_states l) ;
  match unknown_of l with
  | [] => mret tt
  | unknown_proofs => db (tx (remove_proofs unknown_proofs))
  end.

(** The task spawned by [drop], and the body of [rollback]. *)
Definition rollback_task (l : list (pubkey * option Nut07.State)) : Mt unit :=
  do_ db begin_transaction ;
  do_ reset_proofs_to_original_state l ;
  db commit.

Definition pw_rollback : Wt unit :=
  do pw <- get_writer ;
  do_ set_writer None ;
  match pw with
  | None => mret tt
  | Some proof_original_states => on_world (rollback_task (map_to_list proof_original_states))
  end.

(** [Drop::drop]. *)
Definition pw_drop (pw : ProofWriter) : Mt unit :=
  match pw with
  | None => mret tt
  | Some proof_original_states => rollback_task (map_to_list proof_original_states)
  end.

(** The states that the proofs must not have been in. *)
Definition forbidden_states (new_proof_state : Nut07.State) : list Nut07.State :=
  if decide (new_proof_state = Nut07.Pending) then [Nut07.Pending; Nut07.Spent] else [Nut07.Spent].

(** [entry(y).or_insert(original)]. *)
Definition or_insert (m : gmap pubkey (option Nut07.State)) (e : pubkey * option Nut07.State)
    : gmap pubkey (option Nut07.State) :=
  match m !! fst e with Some _ => m | None => <[fst e := snd e]> m end.

Definition pw_update_proofs_states (ys : list pubkey) (new_proof_state : Nut07.State) : Wt unit :=
  do pw <- get_writer ;
  do proof_states <- mlift (ok_or MInternal pw) ;
  do updated <- on_world (mtry (tx (update_proofs_states ys new_proof_state))) ;
  match updated with
  | inr (AttemptUpdateSpentProof | AttemptRemoveSpentProof) => mfail TokenAlreadySpent
  | inr err => mfail (of_db_error err)
  | inl original_proofs_state =>
      do_ mlift (ensure (Nat.eqb (length ys) (length original_proofs_state)) MInternal) ;
      let seen := omap id original_proofs_state in
      if existsb (fun st => bool_decide (st ∈ seen)) (forbidden_states new_proof_state) then
        do_ on_world (reset_proofs_to_original_state (zip ys original_proofs_state)) ;
        mfail (if bool_decide (Nut07.Pending ∈ seen) then TokenPending else TokenAlreadySpent)
      else
        do_ set_writer (Some (fold_left or_insert (zip ys original_proofs_state) proof_states)) ;
        on_world (mfor (fun y => publish (EvProofState y new_proof_state)) ys)
  end.

Definition pw_add_proofs (now : N) (proofs : list Proof) (quote_id : option QuoteId) (op : Operation)
    : Wt (list pubkey) :=
  do pw <- get_writer ;
  do proof_states <- mlift (ok_or MInternal pw) ;
  do added <- on_world (mtry (tx (add_proofs now proofs quote_id op))) ;
  match added with
  | inr Duplicate => mfail TokenPending
  | inr AttemptUpdateSpentProof => mfail TokenAlreadySpent
  | inr err => mfail (MDatabase err)
  | inl _ =>
      do ys <- mlift (map_err MNUT00 (Nut00.ys proofs)) ;
      do_ set_writer (Some (fold_left (fun m y => <[y := None]> m) ys proof_states)) ;
      do_ pw_update_proofs_states ys Nut07.Pending ;
      mret ys
  end.

End defs.
End ProofWriter.
