(* ===== verification/Melt.v ===== *)
(** * Melting (crates/cdk/src/mint/melt.rs, start_up_check.rs)

    A melt spends its inputs to pay a lightning request, or a mint quote of
    this mint, and returns change.  The payment backend is the interface
    [Outgoing]; invoices and offers are read by the lightning crates. *)
From Stdlib Require Ascii.
From stdpp Require Import base numbers list sorting strings gmap fin_maps.
From S2P Require Import Prelude Amount Nuts Conditions Spending States MintDb Mint Issue ProofWriter.

Local Open Scope N_scope.
Local Open Scope res_scope.
Local Open Scope mint_scope.

#[global] Instance PaymentIdentifier_eq_dec : EqDecision MintTypes.PaymentIdentifier.
Proof. solve_decision. Defined.

Module Melt.
Import Nut00 Requests StateRules MintTypes MintDb Mint Issue ProofWriter.

Section defs.
Context {CR : Crypto} {SD : Serde} {SG : Signatory}.

Inductive OutgoingPaymentOptions :=
| OBolt11 (bolt11 : string) (max_fee_amount : option N) (melt_options : option MeltOptions)
| OBolt12 (offer : string) (max_fee_amount : option N) (melt_options : option MeltOptions).

Record MakePaymentResponse := mkMakePaymentResponse {
  mp_payment_lookup_id : PaymentIdentifier;
  mp_payment_proof : option string;
  mp_status : MeltQuoteState;
  mp_total_spent : N;
  mp_unit : Amount.CurrencyUnit;
}.

Record PaymentQuoteResponse := mkPaymentQuoteResponse {
  pq_request_lookup_id : option PaymentIdentifier;
  pq_amount : N;
  pq_fee : N;
  pq_unit : Amount.CurrencyUnit;
}.

Inductive PaymentErr := InvoiceAlreadyPaid | OtherPaymentError.

(** The amount of an offer; the currency code is [None] when it is not UTF-8. *)
Inductive OfferAmount := Bitcoin (amount_msats : N) | Currency (iso4217_code : option string) (amount : N).

Record Backend := mkBackend {
  get_payment_quote : Amount.CurrencyUnit -> OutgoingPaymentOptions -> res PaymentErr PaymentQuoteResponse;
  make_payment : Amount.CurrencyUnit -> OutgoingPaymentOptions -> res PaymentErr MakePaymentResponse;
  check_outgoing_payment : PaymentIdentifier -> res PaymentErr MakePaymentResponse;
}.

Class Outgoing := {
  payment_processor : Amount.CurrencyUnit -> PaymentMethod -> option Backend;
  amount_milli_satoshis : string -> option N;
  offer_from_str : string -> bool;
  offer_amount : string -> option OfferAmount;
}.

Context {OG : Outgoing}.

(** ** Quotes *)

Definition amount_msat (o : MeltOptions) : N := match o with Mpp a | Amountless a => a end.

Record MeltMethodSettings := mkMeltMethodSettings {
  mms_min_amount : option N;
  mms_max_amount : option N;
  mms_amountless : bool;
}.

Definition check_melt_request_acceptable (disabled : bool) (settings : option MeltMethodSettings) (mpp_supported : bool)
    (amount : N) (method : PaymentMethod) (request : string) (options : option MeltOptions) : Mt unit :=
  do_ mlift (ensure (negb disabled) MeltingDisabled) ;
  do s <- mlift (ok_or UnsupportedUnit settings) ;
  do_ (match options with
       | Some (Mpp _) =>
           do internal <- db (read_store (fun d => Ok (get_mint_quote_by_request request d))) ;
           do_ mlift (ensure (negb (bool_decide (is_Some internal))) InternalMultiPartMeltQuote) ;
           mlift (ensure mpp_supported MppUnitMethodNotSupported)
       | Some (Amountless _) =>
           mlift (ensure (negb (bool_decide (method = Bolt11) && negb (mms_amountless s))) AmountlessInvoiceNotSupported)
       | None => mret tt
       end) ;
  let is_above_max := from_option (fun m => m <? amount) false (mms_max_amount s) in
  let is_below_min := from_option (fun m => amount <? m) false (mms_min_amount s) in
  mlift (ensure (negb (is_above_max || is_below_min))
    (AmountOutofLimitRange (default 0 (mms_min_amount s)) (default 0 (mms_max_amount s)) amount)).

Definition store_melt_quote (quote : MeltQuote) : Mt MeltQuote :=
  do_ db begin_transaction ;
  do_ db (tx (add_melt_quote quote)) ;
  do_ db commit ;
  mret quote.

Definition get_melt_bolt11_quote_impl (now melt_ttl : N) (disabled : bool) (settings : option MeltMethodSettings)
    (mpp_supported : bool) (fresh_id : QuoteId) (request : string) (unit : Amount.CurrencyUnit)
    (options : option MeltOptions) : Mt MeltQuote :=
  do ln <- mlift (ok_or UnsupportedUnit (payment_processor unit Bolt11)) ;
  do pq <- mlift (map_err (fun _ => UnsupportedUnit) (get_payment_quote ln unit (OBolt11 request None options))) ;
  do_ mlift (ensure (bool_decide (pq_unit pq = unit)) UnitMismatch) ;
  do_ check_melt_request_acceptable disabled settings mpp_supported (pq_amount pq) Bolt11 request options ;
  store_melt_quote (MeltQuote_new fresh_id now (MBolt11 request) unit (pq_amount pq) (pq_fee pq) (now + melt_ttl)
    (pq_request_lookup_id pq) options Bolt11).

(** The amount and currency of an offer. *)
Definition offer_value {E} (bad_code : E) (a : OfferAmount) : res E (N * Amount.CurrencyUnit) :=
  match a with
  | Bitcoin amount_msats => Ok (amount_msats, Amount.Msat)
  | Currency code amount => let? c := ok_or bad_code code in Ok (amount, currency_from_str c)
  end.

(** [amount_for_offer] of crates/cashu/src/amount.rs. *)
Definition amount_for_offer (offer : string) (unit : Amount.CurrencyUnit) : res MError N :=
  let? oa := ok_or AmountUndefined (offer_amount offer) in
  let? (amount, currency) := offer_value Utf8ParseError oa in
  map_err (fun _ => MAmount Amount.CannotConvertUnits) (Amount.to_unit amount currency unit).

Definition get_melt_bolt12_quote_impl (now melt_ttl : N) (disabled : bool) (settings : option MeltMethodSettings)
    (mpp_supported : bool) (fresh_id : QuoteId) (request : string) (unit : Amount.CurrencyUnit)
    (options : option MeltOptions) : Mt MeltQuote :=
  do_ mlift (ensure (offer_from_str request) InvalidPaymentRequest) ;
  do amount <- mlift (match options with
       | Some (Amountless a) => map_err MAmount (Amount.to_unit a Amount.Msat unit)
       | Some _ => Err UnsupportedUnit
       | None => map_err (fun _ => UnsupportedUnit) (amount_for_offer request unit)
       end) ;
  do ln <- mlift (ok_or UnsupportedUnit (payment_processor unit Bolt12)) ;
  do_ mlift (ensure (offer_from_str request) Bolt12parse) ;
  do pq <- mlift (map_err (fun _ => UnsupportedUnit) (get_payment_quote ln unit (OBolt12 request None options))) ;
  do_ mlift (ensure (bool_decide (pq_unit pq = unit)) UnitMismatch) ;
  do_ check_melt_request_acceptable disabled settings mpp_supported (pq_amount pq) Bolt12 request options ;
  store_melt_quote (MeltQuote_new fresh_id now (MBolt12 request) unit (pq_amount pq) (pq_fee pq) (now + melt_ttl)
    (pq_request_lookup_id pq) options Bolt12).

(** The answer to a melt or to a question about its quote. *)
Record MeltResponse := mkMeltResponse {
  ml_quote : QuoteId;
  ml_amount : N;
  ml_fee_reserve : N;
  ml_state : MeltQuoteState;
  ml_expiry : N;
  ml_payment_preimage : option string;
  ml_change : option (list BlindSignature);
  ml_request : string;
  ml_unit : Amount.CurrencyUnit;
}.

Definition check_melt_quote (quote_id : QuoteId) : Mt MeltResponse :=
  do row <- db (read_store (fun d => Ok (get_melt_quote quote_id d))) ;
  do quote <- mlift (ok_or UnknownQuote row) ;
  do blind_signatures <- db (read_store (get_blind_signatures_for_quote quote_id)) ;
  let change := match blind_signatures with [] => None | _ => Some blind_signatures end in
  mret (mkMeltResponse (lq_id quote) (lq_amount quote) (lq_fee_reserve quote) (lq_state quote) (lq_expiry quote)
    (lq_payment_preimage quote) change (request_to_string (lq_request quote)) (lq_unit quote)).

(** ** Checks of a melt request *)

Definition invoice_amount_msats (quote : MeltQuote) : res MError N :=
  let from_options := let? o := ok_or InvoiceAmountUndefined (lq_options quote) in Ok (amount_msat o) in
  match lq_request quote with
  | MBolt11 bolt11 => match amount_milli_satoshis bolt11 with Some a => Ok a | None => from_options end
  | MBolt12 offer =>
      match offer_amount offer with
      | Some oa =>
          let? (amount, currency) := offer_value Utf8ParseError oa in
          map_err (fun _ => UnsupportedUnit) (Amount.to_unit amount currency Amount.Msat)
      | None => from_options
      end
  end.

(** The [Amount] operators [+] and [-] panic out of range. *)
Definition amount_op (r : res Amount.Error N) : res MError N := map_err MAmount r.

Definition check_melt_expected_ln_fees (quote : MeltQuote) (r : MeltRequest) : res MError (option N) :=
  let? quote_msats := unwrap (Amount.to_unit (lq_amount quote) (lq_unit quote) Amount.Msat) in
  let? invoice_msats := invoice_amount_msats quote in
  let? partial_amount :=
    (if quote_msats <? invoice_msats then
       let? a := map_err (fun _ => UnsupportedUnit) (Amount.to_unit quote_msats Amount.Msat (lq_unit quote)) in
       Ok (Some a)
     else Ok None) in
  let? amount_to_pay :=
    (match partial_amount with
     | Some a => Ok a
     | None => map_err (fun _ => UnsupportedUnit) (Amount.to_unit invoice_msats Amount.Msat (lq_unit quote))
     end) in
  let? inputs := map_err (fun _ => MAmountOverflow) (inputs_amount r) in
  let? needed := amount_op (Amount.add amount_to_pay (lq_fee_reserve quote)) in
  if inputs <? needed then Err (TransactionUnbalanced inputs amount_to_pay (lq_fee_reserve quote))
  else Ok partial_amount.

Definition verify_melt_request (now : N) (keysets : Keysets) (input_verification : Verification) (r : MeltRequest)
    (op : Operation) : Wt MeltQuote :=
  do_ set_writer pw_new ;
  do_ pw_add_proofs now (melt_inputs r) (Some (melt_quote r)) op ;
  do updated <- on_world (db (tx (update_melt_quote_state now (melt_quote r) MPending None))) ;
  let '(state, quote) := updated in
  do_ mlift (ensure (bool_decide (v_unit input_verification = Some (lq_unit quote))) UnitMismatch) ;
  do_ mlift (match state with
             | Unpaid | Failed => Ok tt
             | MPending => Err PendingQuote
             | Paid => Err PaidQuote
             | Unknown => Err UnknownPaymentState
             end) ;
  do_ on_world (publish (EvMeltQuoteStatus (lq_id quote) MPending)) ;
  do fee <- mlift (get_proofs_fee keysets (melt_inputs r)) ;
  do amount_and_reserve <- mlift (amount_op (Amount.add (lq_amount quote) (lq_fee_reserve quote))) ;
  do required_total <- mlift (amount_op (Amount.add amount_and_reserve fee)) ;
  do_ (if v_amount input_verification <? required_total then
         do fees <- mlift (amount_op (Amount.add fee (lq_fee_reserve quote))) ;
         mfail (TransactionUnbalanced (v_amount input_verification) (lq_amount quote) fees)
       else mret tt) ;
  do enforced <- mlift (map_err MNUT11 (Spending.enforce_sig_flag (melt_inputs r))) ;
  do_ (if decide (Spending.esf_sig_flag enforced = Nut11.SigAll)
       then mlift (map_err MNUT11 (Spending.melt_verify_sig_all r)) else mret tt) ;
  do_ (match melt_outputs r with
       | None | Some [] => mret tt
       | Some outputs =>
           do v <- on_world (verify_outputs keysets outputs) ;
           mlift (ensure (bool_decide (v_unit input_verification = v_unit v)) UnsupportedUnit)
       end) ;
  mret quote.

(** [handle_internal_melt_mint] of mint/mod.rs. *)
Definition handle_internal_melt_mint (now : N) (quote : MeltQuote) (r : MeltRequest) : Mt (option N) :=
  do found <- mtry (tx_read (fun d => Ok (get_mint_quote_by_request (request_to_string (lq_request quote)) d))) ;
  match found with
  | inr _ => mfail MInternal
  | inl None => mret None
  | inl (Some mint_quote) =>
      if decide (mq_unit mint_quote <> lq_unit quote) then mret None
      else
        do_ mlift (ensure (negb (settled mint_quote && bool_decide (mq_payment_method mint_quote = Bolt11)))
               RequestAlreadyPaid) ;
        do inputs <- mlift (map_err (fun _ => MAmountOverflow) (inputs_amount r)) ;
        do_ mlift (ensure (from_option (fun a => a <=? inputs) true (mq_amount mint_quote)) InsufficientFunds) ;
        do total_paid <- db (tx (increment_mint_quote_amount_paid now (mq_id mint_quote) (lq_amount quote) (lq_id quote))) ;
        do_ notify mint_quote (EvMintQuotePayment (mq_id mint_quote) total_paid) ;
        mret (Some (lq_amount quote))
  end.

(** ** Settling *)

(** The denominations for change: those of the active keyset of the first
    change output, else the powers of two up to [2^31]. *)
Definition change_fee_and_amounts (keysets : Keysets) (outputs : list BlindedMessage) : Amount.FeeAndAmounts :=
  match filter (fun k => ks_active k = true /\ Some (ks_id k) = (bm_keyset_id <$> head outputs)) keysets with
  | k :: _ => Amount.mkFeeAndAmounts (ks_input_fee_ppk k) (ks_amounts k)
  | [] => Amount.mkFeeAndAmounts 0 (Amount.pow2_amounts 32)
  end.

Definition descending (a b : N) : Prop := b <= a.
#[global] Instance descending_dec a b : Decision (descending a b).
Proof. unfold descending. apply _. Defined.

(** The amounts of the change outputs, largest first when there are more
    amounts than outputs. *)
Definition change_amounts (fa : Amount.FeeAndAmounts) (change_target : N) (outputs : list BlindedMessage)
    : res MError (list N) :=
  let? amounts := map_err MAmount (Amount.split change_target fa) in
  Ok (if Nat.ltb (length outputs) (length amounts) then merge_sort descending amounts else amounts).

Definition change_messages (amounts : list N) (outputs : list BlindedMessage) : list BlindedMessage :=
  map (fun p => set_bm_amount (snd p) (fst p)) (zip amounts outputs).

(** Change is signed between two transactions. *)
Definition give_change (now : N) (keysets : Keysets) (quote : MeltQuote) (info : MeltRequestInfo) (total_spent : N)
    : Wt (list BlindSignature) :=
  let outputs := mri_change_outputs info in
  do signed <- on_world (db (tx_read (get_blind_signatures (map blinded_secret outputs)))) ;
  do_ mlift (match omap id signed with [] => Ok tt | _ => Err BlindedMessageAlreadySigned end) ;
  do surplus <- mlift (amount_op (Amount.sub (mri_inputs_amount info) total_spent)) ;
  do change_target <- mlift (amount_op (Amount.sub surplus (mri_inputs_fee info))) ;
  do amounts <- mlift (change_amounts (change_fee_and_amounts keysets outputs) change_target outputs) ;
  do_ on_world (db commit) ;
  do change_sigs <- mlift (signatory_blind_sign (change_messages amounts outputs)) ;
  do_ on_world (db begin_transaction) ;
  (* [&outputs[0..change_sigs.len()]] *)
  do_ mlift (if Nat.leb (length change_sigs) (length outputs) then Ok tt else Panic) ;
  do_ on_world (db (tx (add_blind_signatures now (map blinded_secret (take (length change_sigs) outputs)) change_sigs
        (Some (lq_id quote))))) ;
  do_ pw_commit ;
  do_ on_world (db (tx (delete_melt_request (lq_id quote)))) ;
  do_ on_world (db commit) ;
  mret change_sigs.

Definition no_change (quote : MeltQuote) : Wt unit :=
  do_ pw_commit ;
  do_ on_world (db (tx (delete_melt_request (lq_id quote)))) ;
  on_world (db commit).

Definition process_melt_request (now : N) (keysets : Keysets) (quote : MeltQuote) (payment_preimage : option string)
    (total_spent : N) : Wt MeltResponse :=
  do input_ys <- on_world (db (tx (get_proof_ys_by_quote_id (lq_id quote)))) ;
  (* assert!(!input_ys.is_empty()) *)
  do_ mlift (match input_ys with [] => Panic | _ => Ok tt end) ;
  do_ pw_update_proofs_states input_ys Nut07.Spent ;
  do_ on_world (db (tx (update_melt_quote_state now (lq_id quote) Paid payment_preimage))) ;
  do row <- on_world (db (tx (get_melt_request_and_blinded_messages (lq_id quote)))) ;
  do info <- mlift (ok_or UnknownQuote row) ;
  do change <- (if total_spent <? mri_inputs_amount info then
                  match mri_change_outputs info with
                  | [] => do_ no_change quote ; mret None
                  | _ => do sigs <- give_change now keysets quote info total_spent ; mret (Some sigs)
                  end
                else do_ no_change quote ; mret None) ;
  do_ on_world (publish (EvMeltQuoteStatus (lq_id quote) Paid)) ;
  mret (mkMeltResponse (lq_id quote) (lq_amount quote) (lq_fee_reserve quote) Paid (lq_expiry quote)
    payment_preimage change (request_to_string (lq_request quote)) (lq_unit quote)).

(** ** The handler *)

(** [TryFrom<MeltQuote> for OutgoingPaymentOptions]. *)
Definition outgoing_options (q : MeltQuote) : res MError OutgoingPaymentOptions :=
  match lq_request q with
  | MBolt11 bolt11 => Ok (OBolt11 bolt11 (Some (lq_fee_reserve q)) (lq_options q))
  | MBolt12 offer =>
      match lq_options q with
      | Some (Mpp _) => Err PaymentError
      | options => Ok (OBolt12 offer (Some (lq_fee_reserve q)) options)
      end
  end.

(** The payment: the backend's answer, checked again when it is not clear. *)
Definition pay (ln : Backend) (quote : MeltQuote) : Wt MakePaymentResponse :=
  do options <- mlift (outgoing_options quote) ;
  match make_payment ln (lq_unit quote) options with
  | Panic => mpanic
  | Ok p =>
      if decide (mp_status p = Unknown \/ mp_status p = Failed) then
        match check_outgoing_payment ln (mp_payment_lookup_id p) with
        | Panic => mpanic
        | Err _ => mfail MInternal
        | Ok check =>
            if decide (mp_status check = Paid) then do_ pw_commit ; mfail MInternal else mret check
        end
      else mret p
  | Err InvoiceAlreadyPaid => mfail RequestAlreadyPaid
  | Err _ =>
      do lookup_id <- mlift (ok_or MInternal (lq_request_lookup_id quote)) ;
      match check_outgoing_payment ln lookup_id with
      | Panic => mpanic
      | Err _ => do_ pw_commit ; mfail MInternal
      | Ok check =>
          if decide (mp_status check = Paid) then do_ pw_commit ; mfail MInternal else mret check
      end
  end.

(** The external payment of [melt]: the first transaction is committed, then the
    backend pays. *)
Definition send_payment (quote : MeltQuote) (r : MeltRequest) : Wt MakePaymentResponse :=
  do_ (match lq_unit quote with
       | Amount.Sat | Amount.Msat =>
           do _x <- mlift (map_err (fun _ => MInternal) (check_melt_expected_ln_fees quote r)) ; mret tt
       | _ => mret tt
       end) ;
  do ln <- mlift (ok_or UnsupportedUnit (payment_processor (lq_unit quote) (lq_payment_method quote))) ;
  do_ on_world (db commit) ;
  do pre <- pay ln quote ;
  do_ (match mp_status pre with
       | Paid => mret tt
       | Unpaid | Unknown | Failed => do_ pw_rollback ; mfail PaymentFailed
       | MPending => do_ pw_commit ; mfail PendingQuote
       end) ;
  mret pre.

(** After the payment a second transaction is opened: the preimage, what was
    spent, and the quote with the lookup id that the payment ended up with. *)
Definition reopen (quote : MeltQuote) (pre : MakePaymentResponse) : Wt (option string * N * MeltQuote) :=
  do amount_spent <- mlift (match Amount.to_unit (mp_total_spent pre) (mp_unit pre) (lq_unit quote) with
                            | Ok a => Ok a | Err _ => Ok 0 | Panic => Panic end) ;
  do_ on_world (db begin_transaction) ;
  if decide (Some (mp_payment_lookup_id pre) <> lq_request_lookup_id quote) then
    do_ on_world (mtry (F:=MError) (tx (update_melt_quote_request_lookup_id (lq_id quote) (mp_payment_lookup_id pre)))) ;
    mret (mp_payment_proof pre, amount_spent, set_melt_lookup quote (Some (mp_payment_lookup_id pre)))
  else mret (mp_payment_proof pre, amount_spent, quote).

Definition pay_externally (quote : MeltQuote) (r : MeltRequest) : Wt (option string * N * MeltQuote) :=
  do pre <- send_payment quote r ;
  reopen quote pre.

(** The first transaction of [melt]: the quote, and the amount when it is
    settled internally. *)
Definition melt_setup (now : N) (keysets : Keysets) (op_uuid : Uuid) (r : MeltRequest) : Wt (MeltQuote * option N) :=
  do verification <- mlift (verify_inputs now keysets (melt_inputs r)) ;
  let op := OpMelt op_uuid in
  do_ on_world (db begin_transaction) ;
  do quote <- verify_melt_request now keysets verification r op ;
  do inputs_fee <- mlift (get_proofs_fee keysets (melt_inputs r)) ;
  do inputs <- mlift (map_err MAmount (inputs_amount r)) ;
  do_ on_world (db (tx (add_melt_request (melt_quote r) inputs inputs_fee))) ;
  do_ on_world (db (tx (add_blinded_messages now (Some (melt_quote r)) (default [] (melt_outputs r)) op))) ;
  do internal <- on_world (handle_internal_melt_mint now quote r) ;
  mret (quote, internal).

Definition melt_body (now : N) (keysets : Keysets) (op_uuid : Uuid) (r : MeltRequest) : Wt MeltResponse :=
  do setup <- melt_setup now keysets op_uuid r ;
  let '(quote, internal) := setup in
  do settled <- (match internal with
                 | Some amount_spent => mret (None, amount_spent, quote)
                 | None => pay_externally quote r
                 end) ;
  let '(preimage, amount_spent, quote') := settled in
  process_melt_request now keysets quote' preimage amount_spent.

(** The handler; the writer is dropped when the body is left, and the task it
    spawns runs on its own. *)
Definition melt (now : N) (keysets : Keysets) (op_uuid : Uuid) (r : MeltRequest) : Mt MeltResponse :=
  fun w => match melt_body now keysets op_uuid r (w, None) with
           | (result, (w', pw)) => (result, snd (pw_drop pw w'))
           end.

(** ** Start-up *)

Definition startup_state (st : MeltQuoteState) : MeltQuoteState :=
  match st with
  | Unpaid => Unpaid | Paid => Paid | MPending => MPending | Failed => Unpaid | Unknown => Unpaid
  end.

Fixpoint check_pending_loop (now : N) (quotes : list MeltQuote) : Mt unit :=
  match quotes with
  | [] => mret tt
  | q :: quotes' =>
      match payment_processor (lq_unit q) Bolt11, lq_request_lookup_id q with
      | Some ln, Some lookup_id =>
          do pay <- mlift (map_err (fun _ => PaymentError) (check_outgoing_payment ln lookup_id)) ;
          do_ mtry (F:=MError) (tx (update_melt_quote_state now (lq_id q) (startup_state (mp_status pay))
                 (mp_payment_proof pay))) ;
          check_pending_loop now quotes'
      | _, _ => check_pending_loop now quotes'
      end
  end.

Definition check_pending_melt_quotes (now : N) : Mt unit :=
  do quotes <- db (read_store (fun d => Ok (get_melt_quotes d))) ;
  match filter (fun q => lq_state q = MPending \/ lq_state q = Unknown) quotes with
  | [] => mret tt
  | pending =>
      do_ db begin_transaction ;
      do_ check_pending_loop now pending ;
      db commit
  end.

End defs.
End Melt.
