(* ===== verification/MeltFacts.v ===== *)
(** * Correctness of melting

    What a melt that answers has done, for every schedule of database faults
    and every payment backend; what the proof writer puts back. *)
From stdpp Require Import base numbers list sorting strings gmap fin_maps.
From S2P Require Import Prelude Amount Nuts Conditions Concrete Spending States MintDb MintDbFacts MintDbSpec Mint MintFacts Issue ProofWriter Melt.

Local Open Scope N_scope.

Module MeltFacts.
Import Nut00 Requests StateRules MintTypes MintDb MintDbFacts MintDbSpec Mint MintFacts Issue ProofWriter Melt.

(** ** Handlers that own a writer *)

Section writer.
Context {CR : Crypto} {SD : Serde}.

Lemma on_world_Ok {A} (c : Mt A) s a s' :
  on_world c s = (Ok a, s') -> c (fst s) = (Ok a, fst s') /\ snd s' = snd s.
Proof. unfold on_world. destruct (c (fst s)) as [r w]. by intros [= -> <-]. Qed.

Lemma on_world_seq {A B} (c : Mt A) (k : A -> Wt B) s b s' :
  mseq (on_world c) k s = (Ok b, s') ->
  exists a s1, c (fst s) = (Ok a, fst s1) /\ snd s1 = snd s /\ k a s1 = (Ok b, s').
Proof. intros (a & s1 & [H ?]%on_world_Ok & Hk)%mseq_Ok. eauto. Qed.

(** The database call of a writer step. *)
Lemma on_tx_seq {A B} (op : T A) (k : A -> Wt B) s b s' :
  mseq (on_world (db (tx op))) k s = (Ok b, s') ->
  exists a s1, op (w_tx (fst s)) = (Ok a, w_tx (fst s1)) /\ w_store (fst s1) = w_store (fst s) /\
    snd s1 = snd s /\ k a s1 = (Ok b, s').
Proof. intros (a & s1 & [H Hs]%mmap_err_Ok%tx_Ok & ? & Hk)%on_world_seq. eauto 10. Qed.

Section preserves.
Context (R : Db -> Db -> Prop) `{!PreOrder R}.

Definition wpreserves {A} (c : Wt A) : Prop :=
  forall s, R (w_store (fst s)) (w_tx (fst s)) ->
    R (w_store (fst s)) (w_store (fst (snd (c s)))) /\ R (w_store (fst (snd (c s)))) (w_tx (fst (snd (c s)))).

Lemma wp_pure {A} (c : Wt A) : (forall s, fst (snd (c s)) = fst s) -> wpreserves c.
Proof. intros H s Hs. rewrite H. by split. Qed.
Lemma wp_on_world {A} (c : Mt A) : preserves R c -> wpreserves (on_world c).
Proof. intros H s Hs. unfold on_world. specialize (H (fst s) Hs). by destruct (c (fst s)) as [r w]. Qed.
Lemma wp_mseq {A B} (c : Wt A) (k : A -> Wt B) :
  wpreserves c -> (forall a, wpreserves (k a)) -> wpreserves (mseq c k).
Proof.
  intros Hc Hk s Hs. unfold mseq. destruct (Hc s Hs) as [H1 H2].
  destruct (c s) as [[a| |] s1]; cbn in *; [|done..]. destruct (Hk a s1 H2) as [H3 H4].
  split; [by etrans|done].
Qed.

End preserves.
End writer.

(** Structural proof that a handler with a writer keeps a preorder. *)
Ltac wp_auto keeps_op :=
  cbv zeta;
  repeat match goal with
    | |- forall _, _ => intro
    | |- wpreserves _ (mseq _ _) => apply wp_mseq; [apply _|..]
    | |- wpreserves _ (on_world _) => apply wp_on_world; unfold db; solve [pv_auto keeps_op]
    | |- wpreserves _ _ => apply wp_pure; [apply _|done]
    | |- wpreserves _ (match ?x with _ => _ end) => destruct x
    end.

Section handlers.
Context {CR : Crypto} {SD : Serde} {SG : Signatory} {OG : Outgoing}.
Context (R : Db -> Db -> Prop) `{!PreOrder R} (HR : forall now o, keeps R (run_op now o)).

Lemma pv_get_proof_ys id : preserves R (tx (get_proof_ys_by_quote_id id)).
Proof. apply pv_tx; [done|]. intros d. unfold get_proof_ys_by_quote_id, mseq, mgets, mlift. reflexivity. Qed.

Lemma pv_get_melt_request id : preserves R (tx (get_melt_request_and_blinded_messages id)).
Proof.
  apply pv_tx; [done|]. intros d. unfold get_melt_request_and_blinded_messages, mseq, mgets, mlift, mret.
  destruct (db_melt_request d !! id); [|reflexivity]. by destruct (collect _ _).
Qed.

Lemma pv_reset l : preserves R (reset_proofs_to_original_state l).
Proof. unfold reset_proofs_to_original_state, db. pv_auto ltac:(keeps_call HR). Qed.

Lemma pv_rollback_task l : preserves R (rollback_task l).
Proof. unfold rollback_task, db. pv_auto ltac:(keeps_call HR). apply pv_reset. Qed.

Lemma pv_verify_outputs keysets ms : preserves R (verify_outputs keysets ms).
Proof. unfold verify_outputs, check_output_already_signed, db. pv_auto ltac:(keeps_call HR). Qed.

Lemma pv_handle_internal now q r : preserves R (handle_internal_melt_mint now q r).
Proof. unfold handle_internal_melt_mint, notify, db. pv_auto ltac:(keeps_call HR). Qed.

Lemma wp_pw_update ys st : wpreserves R (pw_update_proofs_states ys st).
Proof.
  unfold pw_update_proofs_states. wp_auto ltac:(keeps_call HR); apply wp_on_world, pv_reset.
Qed.

Lemma wp_pw_add now ps q op : wpreserves R (pw_add_proofs now ps q op).
Proof. unfold pw_add_proofs. wp_auto ltac:(keeps_call HR); apply wp_pw_update. Qed.

Lemma wp_pw_rollback : wpreserves R pw_rollback.
Proof. unfold pw_rollback. wp_auto ltac:(keeps_call HR); apply wp_on_world, pv_rollback_task. Qed.

Lemma wp_verify_melt now keysets v r op : wpreserves R (verify_melt_request now keysets v r op).
Proof.
  unfold verify_melt_request. wp_auto ltac:(keeps_call HR);
    first [apply wp_pw_add | apply wp_on_world, pv_verify_outputs].
Qed.

Lemma wp_give_change now keysets q info spent : wpreserves R (give_change now keysets q info spent).
Proof. unfold give_change. wp_auto ltac:(keeps_call HR). Qed.

Lemma wp_no_change q : wpreserves R (no_change q).
Proof. unfold no_change. wp_auto ltac:(keeps_call HR). Qed.

Lemma wp_process_melt now keysets q preimage spent : wpreserves R (process_melt_request now keysets q preimage spent).
Proof.
  unfold process_melt_request. wp_auto ltac:(keeps_call HR);
    first [apply wp_pw_update | apply wp_give_change | apply wp_no_change
      | apply wp_on_world, pv_mmap_err, pv_get_proof_ys | apply wp_on_world, pv_mmap_err, pv_get_melt_request].
Qed.

Lemma wp_pay ln q : wpreserves R (pay ln q).
Proof. unfold pay. wp_auto ltac:(keeps_call HR). Qed.

Lemma wp_pay_externally q r : wpreserves R (pay_externally q r).
Proof.
  unfold pay_externally, send_payment, reopen. wp_auto ltac:(keeps_call HR); first [apply wp_pay | apply wp_pw_rollback].
Qed.

Lemma wp_melt_setup now keysets uuid r : wpreserves R (melt_setup now keysets uuid r).
Proof.
  unfold melt_setup. wp_auto ltac:(keeps_call HR);
    first [apply wp_verify_melt | apply wp_on_world, pv_handle_internal].
Qed.

End handlers.

Section success.
Context {CR : Crypto} {SD : Serde} {SG : Signatory} {OG : Outgoing}.

(** ** Database calls *)

Lemma update_melt_quote_state_Ok now id st p d s q' d' :
  update_melt_quote_state now id st p d = (Ok (s, q'), d') ->
  exists q, db_melt_quote d !! id = Some q /\ s = lq_state q /\ q' = set_melt_state q st /\
    check_melt_quote_state_transition (lq_state q) st = Ok tt /\
    (st <> Unpaid -> st <> Failed ->
     d' = set_melt_quote d (alter (fun q => if decide (st = Paid) then set_melt_paid q now p else set_melt_state q st)
            id (db_melt_quote d))).
Proof.
  unfold update_melt_quote_state. intros (row & d1 & [= <- <-] & H)%mseq_Ok.
  apply mlift_seq in H as (q & Hq%ok_or_Ok & H). apply mlift_seq in H as ([] & Hc%map_err_Ok & H).
  destruct (db_melt_quote d !! id) as [q0|] eqn:Hq0; [|done].
  destruct (decide (lq_state q0 = st)); [done|]. injection Hq as ->.
  apply mlift_seq in H as ([] & _ & H). apply mseq_Ok in H as (u & d2 & [= <- <-] & H).
  apply mseq_Ok in H as (u & d3 & Hdel & [= <- <- <-]). exists q. split_and!; [done..|].
  intros Hu Hf. rewrite decide_False in Hdel by tauto. by injection Hdel as _ <-.
Qed.

Lemma add_melt_request_Ok id a f d u d' :
  add_melt_request id a f d = (Ok u, d') ->
  d' = set_melt_request d (<[id := mkMeltRequestRow a f]> (db_melt_request d)).
Proof.
  unfold add_melt_request, constraint. intros ([] & _ & H)%mlift_seq.
  apply mseq_Ok in H as (t & d1 & [= <- <-] & H). apply mlift_seq in H as ([] & _ & H).
  apply mseq_Ok in H as (t2 & d2 & [= <- <-] & H). apply mlift_seq in H as ([] & _ & H). by injection H as _ <-.
Qed.

Lemma get_melt_request_Ok id d o d' :
  get_melt_request_and_blinded_messages id d = (Ok o, d') ->
  d' = d /\ forall info, o = Some info ->
    db_melt_request d !! id = Some (mkMeltRequestRow (mri_inputs_amount info) (mri_inputs_fee info)).
Proof.
  unfold get_melt_request_and_blinded_messages. intros (row & d1 & [= <- <-] & H)%mseq_Ok.
  destruct (db_melt_request d !! id) as [[a f]|]; [|injection H as <- <-; done].
  apply mseq_Ok in H as (rows & d2 & [= <- <-] & H). apply mlift_seq in H as (msgs & _ & [= <- <-]).
  split; [done|]. by intros info [= <-].
Qed.

(** The keys of the proofs that a quote holds. *)
Lemma get_proof_ys_Ok id d ys d' y row :
  get_proof_ys_by_quote_id id d = (Ok ys, d') -> db_proof d !! y = Some row -> pr_quote_id row = Some id ->
  Nut00.y (pr_proof row) = Ok y -> d' = d /\ y ∈ ys.
Proof.
  unfold get_proof_ys_by_quote_id. intros (ps & d1 & [= <- <-] & [H%map_err_Ok ->]%mlift_Ok)%mseq_Ok Hr Hq Hy.
  split; [done|]. apply collect_Ok in H.
  assert (Hin : pr_proof row ∈ pr_proof <$> (map_to_list (filter (fun kv => pr_quote_id kv.2 = Some id) (db_proof d))).*2).
  { apply list_elem_of_fmap_2, list_elem_of_fmap. exists (y, row). split; [done|].
    apply elem_of_map_to_list. by apply map_lookup_filter_Some_2. }
  apply list_elem_of_lookup in Hin as [i Hi]. eapply Forall2_lookup_l in H as (y' & Hy' & Hyy); [|exact Hi].
  assert (y' = y) as -> by congruence. by eapply list_elem_of_lookup_2.
Qed.

(** ** Writer steps *)

Lemma pw_update_Ok ys st s u s' :
  pw_update_proofs_states ys st s = (Ok u, s') ->
  w_tx (fst s') = set_proof (w_tx (fst s)) (update_states ys st (db_proof (w_tx (fst s)))) /\
  updatable (w_tx (fst s)) ys st /\ w_store (fst s') = w_store (fst s).
Proof.
  unfold pw_update_proofs_states. intros (pw & s1 & [= <- <-] & H)%mseq_Ok.
  apply mlift_seq in H as (m & _ & H). apply on_world_seq in H as (up & s2 & Hup & _ & H).
  destruct up as [states|e]; [|by destruct e]. apply mtry_inl, tx_Ok in Hup as [Hup Hst].
  apply update_proofs_states_Ok in Hup as (Hupd & Ht & _).
  apply mlift_seq in H as ([] & _ & H). cbv zeta in H. destruct (existsb _ _);
    [by apply mseq_Ok in H as (? & ? & _ & ?)|].
  apply mseq_Ok in H as (? & s3 & [= <- <-] & H). apply on_world_Ok in H as [H _].
  apply publish_all_Ok in H as [Hs3 Ht3]. cbn in Hs3, Ht3. rewrite Ht3, Hs3, Ht, Hst. done.
Qed.

Lemma pw_add_Ok now ps q op s ys s' :
  pw_add_proofs now ps q op s = (Ok ys, s') ->
  addable (w_tx (fst s)) ps ys /\
  w_tx (fst s') = set_proof (w_tx (fst s))
    (update_states ys Nut07.Pending (proof_rows now q op ys ps ∪ db_proof (w_tx (fst s)))).
Proof.
  unfold pw_add_proofs. intros (pw & s1 & [= <- <-] & H)%mseq_Ok.
  apply mlift_seq in H as (m & _ & H). apply on_world_seq in H as (ad & s2 & Had & _ & H).
  destruct ad as [[]|e]; [|by destruct e]. apply mtry_inl, tx_Ok in Had as [Had _].
  apply add_proofs_Ok in Had as (ys' & Hadd & Ht). apply mlift_seq in H as (ys'' & Hys%map_err_Ok & H).
  assert (ys'' = ys') as -> by (destruct Hadd; congruence).
  apply mseq_Ok in H as (? & s3 & [= <- <-] & H). apply mseq_Ok in H as (? & s4 & Hup%pw_update_Ok & [= <- <-]).
  destruct Hup as (Ht4 & _ & _). cbn in Ht4. rewrite Ht in Ht4. done.
Qed.

(** ** Holding the inputs *)

(** The tables with the inputs pending under the quote and the quote pending. *)
Definition hold_db (now : N) (op : Operation) (id : QuoteId) (ps : list Proof) (ys : list pubkey) (d : Db) : Db :=
  set_melt_quote
    (set_proof d (update_states ys Nut07.Pending (proof_rows now (Some id) op ys ps ∪ db_proof d)))
    (alter (fun q => set_melt_state q MPending) id (db_melt_quote d)).

(** What the verification established of the quote and the inputs. *)
Record funded (keysets : Keysets) (r : MeltRequest) (v : Verification) (q : MeltQuote) (fee : N) : Prop := {
  fd_state : lq_state q = Unpaid \/ lq_state q = Failed;
  fd_unit : v_unit v = Some (lq_unit q);
  fd_fee : get_proofs_fee keysets (melt_inputs r) = Ok fee;
  fd_amount : lq_amount q + lq_fee_reserve q + fee <= v_amount v;
}.

Lemma amount_add_Ok a b c : amount_op (Amount.add a b) = Ok c -> c = a + b.
Proof.
  unfold amount_op, Amount.add. destruct (Amount.checked_add a b) eqn:E; [|done]. intros [= <-].
  by apply u64_checked_add_Some in E as [-> _].
Qed.

Lemma amount_sub_Ok a b c : amount_op (Amount.sub a b) = Ok c -> a = c + b.
Proof.
  unfold amount_op, Amount.sub. destruct (Amount.checked_sub a b) eqn:E; [|done]. intros [= <-].
  apply u64_checked_sub_Some in E as [-> ?]. lia.
Qed.

Lemma verify_outputs_tx keysets ms w v w' : verify_outputs keysets ms w = (Ok v, w') -> w_tx w' = w_tx w.
Proof.
  unfold verify_outputs. destruct ms as [|m ms]; [by intros [= _ <-]|].
  intros (? & _ & H)%mlift_seq. apply mseq_Ok in H as (? & w1 & Hs%check_output_already_signed_Ok & H).
  apply mlift_seq in H as (unit & Hu & H). apply mlift_seq in H as (a & _ & [= <- <-]). done.
Qed.

Lemma verify_melt_Ok now keysets v r op s quote s' :
  verify_melt_request now keysets v r op s = (Ok quote, s') ->
  let d := w_tx (fst s) in
  exists ys q fee, addable d (melt_inputs r) ys /\ db_melt_quote d !! melt_quote r = Some q /\
    quote = set_melt_state q MPending /\ funded keysets r v q fee /\
    w_tx (fst s') = hold_db now op (melt_quote r) (melt_inputs r) ys d.
Proof.
  unfold verify_melt_request. intros (? & s1 & [= <- <-] & H)%mseq_Ok. cbn zeta.
  apply mseq_Ok in H as (ys & s2 & [Hadd Ht2]%pw_add_Ok & H). cbn in Hadd, Ht2.
  apply on_tx_seq in H as ([st q'] & s3 & Hup & _ & _ & H).
  apply update_melt_quote_state_Ok in Hup as (q & Hq & -> & -> & _ & Hd). rewrite Ht2 in Hq. cbn in Hq.
  apply mlift_seq in H as ([] & Hu%ensure_Ok%bool_decide_eq_true & H).
  apply mlift_seq in H as ([] & Hst & H). apply on_world_seq in H as (? & s4 & Hw4 & _ & H).
  apply mlift_seq in H as (fee & Hfee & H). apply mlift_seq in H as (ar & Har & H).
  apply mlift_seq in H as (rt & Hrt & H). apply amount_add_Ok in Har, Hrt. subst ar rt. apply mseq_Ok in H as ([] & s5 & Hlt & H).
  cbn [lq_amount lq_fee_reserve set_melt_state] in *.
  destruct (N.ltb_spec (v_amount v) (lq_amount q + lq_fee_reserve q + fee)) as [|Hge];
    [by apply mlift_seq in Hlt as (? & ? & ?)|]. injection Hlt as <-.
  apply mlift_seq in H as (en & _ & H). apply mseq_Ok in H as ([] & s6 & Hsa & H).
  assert (s6 = s4) as -> by (case_decide; [by apply mlift_Ok in Hsa as [_ ->]|by injection Hsa]).
  apply mseq_Ok in H as ([] & s7 & Hout & [= <- <-]).
  assert (Ht7 : w_tx (fst s7) = w_tx (fst s4)).
  { destruct (melt_outputs r) as [[|m ms]|]; [by injection Hout as <-| |by injection Hout as <-].
    apply on_world_seq in Hout as (vo & s8 & Hvo%verify_outputs_tx & _ & Ho). by apply mlift_Ok in Ho as [_ ->]. }
  exists ys, q, fee. split_and!; [done|done|done| |].
  - split; [|done|done|done]. destruct (lq_state q); auto; discriminate Hst.
  - apply (f_equal (fun p => w_tx (snd p))) in Hw4. cbn in Hw4. rewrite Ht7, <- Hw4, Hd by done. by rewrite Ht2.
Qed.

(** The inputs are held under the quote, with what they are worth. *)
Definition held (id : QuoteId) (ys : list pubkey) (inputs fee : N) (d : Db) : Prop :=
  (forall y, y ∈ ys -> exists row, db_proof d !! y = Some row /\ pr_quote_id row = Some id /\
     Nut00.y (pr_proof row) = Ok y) /\
  db_melt_request d !! id = Some (mkMeltRequestRow inputs fee).

Lemma hold_db_rows now op id ps ys d y :
  addable d ps ys -> y ∈ ys ->
  exists row, db_proof (hold_db now op id ps ys d) !! y = Some row /\ pr_quote_id row = Some id /\
    Nut00.y (pr_proof row) = Ok y.
Proof.
  intros (Hys & _ & _ & _) Hy. destruct (proof_rows_y now (Some id) op _ _ _ Hys Hy) as (p & _ & Hp & Hrow).
  exists (set_state (proof_row now p (Some id) op) Nut07.Pending). cbn [hold_db db_proof set_melt_quote set_proof].
  rewrite lookup_update_states, bool_decide_eq_true_2 by done.
  rewrite (lookup_union_Some_l _ _ _ _ Hrow). split_and!; [done|done|exact Hp].
Qed.

Lemma held_same id ys i f d d' :
  db_proof d' = db_proof d -> db_melt_request d' = db_melt_request d -> held id ys i f d -> held id ys i f d'.
Proof. unfold held. by intros -> ->. Qed.

(** ** Paying *)

Definition internal_payment (now : N) (q : MeltQuote) (d : Db) : Prop :=
  exists mint_quote_id, mkPaymentRow mint_quote_id (lq_id q) (lq_amount q) now ∈ db_mint_quote_payments d.

Lemma handle_internal_Ok now q r w o w' :
  handle_internal_melt_mint now q r w = (Ok o, w') ->
  db_proof (w_tx w') = db_proof (w_tx w) /\ db_melt_request (w_tx w') = db_melt_request (w_tx w) /\
  db_melt_quote (w_tx w') = db_melt_quote (w_tx w) /\
  (forall a, o = Some a -> a = lq_amount q /\ internal_payment now q (w_tx w')).
Proof.
  unfold handle_internal_melt_mint. intros (found & w1 & Hf & H)%mseq_Ok.
  assert (Ht1 : w_tx w1 = w_tx w).
  { unfold mtry, tx_read, tx, faulty in Hf.
    destruct (w_faults w) as [|[] f]; cbn in Hf; by injection Hf as <- <-. }
  destruct found as [[mq|]|e]; [|by injection H as <- <-; rewrite Ht1|done].
  destruct (decide (mq_unit mq <> lq_unit q)); [by injection H as <- <-; rewrite Ht1|].
  apply mlift_seq in H as ([] & _ & H). apply mlift_seq in H as (i & _ & H). apply mlift_seq in H as ([] & _ & H).
  apply tx_seq in H as (total & w2 & Hinc & _ & H). apply mseq_Ok in H as (u & w3 & Hn & [= <- <-]).
  assert (Ht3 : w_tx w3 = w_tx w2) by (unfold notify in Hn; destruct (mq_payment_method mq); by injection Hn as _ <-).
  pose proof (increment_paid_run now (mq_id mq) (lq_amount q) (lq_id q) (w_tx w1)) as Hrun.
  rewrite Hinc, Ht1 in Hrun. destruct Hrun as (q0 & _ & _ & _ & _ & _ & Hd). rewrite Ht3, Hd. cbn.
  split_and!; [done..|]. intros a [= <-]. split; [done|]. exists (mq_id mq). cbn. set_solver.
Qed.

(** The backend's own word that the invoice is paid, and what it cost. *)
Definition external_payment (q : MeltQuote) (preimage : option string) (spent : N) : Prop :=
  exists ln options p, payment_processor (lq_unit q) (lq_payment_method q) = Some ln /\
    outgoing_options q = Ok options /\ make_payment ln (lq_unit q) options = Ok p /\ mp_status p = Paid /\
    preimage = mp_payment_proof p /\
    spent = match Amount.to_unit (mp_total_spent p) (mp_unit p) (lq_unit q) with Ok a => a | _ => 0 end.

Lemma pay_Ok ln q s p s' :
  pay ln q s = (Ok p, s') -> mp_status p = Paid ->
  s' = s /\ exists options, outgoing_options q = Ok options /\ make_payment ln (lq_unit q) options = Ok p.
Proof.
  unfold pay. intros (options & Ho & H)%mlift_seq Hp.
  assert (Hchk : forall c s0, (if decide (mp_status c = Paid) then mseq pw_commit (fun _ => mfail MInternal) else mret c) s0
    = (Ok p, s') -> False).
  { intros c s0. case_decide; [by intros (? & ? & _ & ?)%mseq_Ok|]. by intros [= -> ?]. }
  destruct (make_payment ln (lq_unit q) options) as [p0|e|] eqn:Hm; [| |done].
  - case_decide.
    + destruct (check_outgoing_payment ln _); [by apply Hchk in H|done..].
    + injection H as -> <-. eauto.
  - destruct e; [done|]. apply mlift_seq in H as (l & _ & H).
    destruct (check_outgoing_payment ln l); [by apply Hchk in H|by apply mseq_Ok in H as (? & ? & _ & ?)|done].
Qed.

(** A failure to store the new lookup id is only logged. *)
Lemma update_lookup_tx id l w o w' :
  mtry (F:=MError) (tx (update_melt_quote_request_lookup_id id l)) w = (Ok o, w') ->
  w_tx w' = w_tx w \/ exists m, w_tx w' = set_melt_quote (w_tx w) m.
Proof.
  assert (Hrun : forall d, exists res, update_melt_quote_request_lookup_id id l d = (res, d) \/
    exists m, update_melt_quote_request_lookup_id id l d = (res, set_melt_quote d m)).
  { intros d. unfold update_melt_quote_request_lookup_id, mseq, mgets, constraint, mlift, ensure, mmodify.
    destruct (_ || _); eauto. }
  unfold mtry, tx, faulty. destruct (w_faults w) as [|[] f]; cbn -[update_melt_quote_request_lookup_id].
  2: intros [= _ <-]; by left.
  all: destruct (Hrun (w_tx w)) as [[[]| |] [->|[m ->]]]; cbn; intros [= _ <-]; cbn; eauto.
Qed.

Lemma send_payment_Ok q r s p s' :
  send_payment q r s = (Ok p, s') ->
  w_store (fst s') = w_tx (fst s) /\ snd s' = snd s /\ mp_status p = Paid /\
  exists ln options, payment_processor (lq_unit q) (lq_payment_method q) = Some ln /\
    outgoing_options q = Ok options /\ make_payment ln (lq_unit q) options = Ok p.
Proof.
  unfold send_payment. intros (u & s1 & Hc & H)%mseq_Ok.
  assert (s1 = s) as -> by (destruct (lq_unit q); try (by injection Hc); by apply mlift_seq in Hc as (? & _ & [= _ ->])).
  apply mlift_seq in H as (ln & Hln%ok_or_Ok & H). apply on_world_seq in H as (? & s2 & Hcom%commit_Ok & ? & H).
  apply mseq_Ok in H as (p' & s3 & Hpay & H). apply mseq_Ok in H as (? & s4 & Hst & [= <- <-]).
  assert (mp_status p' = Paid /\ s4 = s3) as [Hp ->].
  { destruct (mp_status p'); [by apply mseq_Ok in Hst as (? & ? & _ & ?)| |by apply mseq_Ok in Hst as (? & ? & _ & ?)..].
    by injection Hst. }
  apply pay_Ok in Hpay as (-> & options & Ho & Hm); [|done]. split_and!; eauto.
Qed.

Lemma pay_externally_Ok q r s preimage spent q' s' :
  pay_externally q r s = (Ok (preimage, spent, q'), s') ->
  external_payment q preimage spent /\ lq_id q' = lq_id q /\
  db_proof (w_tx (fst s')) = db_proof (w_tx (fst s)) /\
  db_melt_request (w_tx (fst s')) = db_melt_request (w_tx (fst s)) /\
  db_mint_quote_payments (w_tx (fst s')) = db_mint_quote_payments (w_tx (fst s)).
Proof.
  unfold pay_externally, reopen.
  intros (p & s3 & (Hcom & _ & Hp & ln & options & Hln & Ho & Hm)%send_payment_Ok & H)%mseq_Ok.
  apply mlift_seq in H as (a & Ha & H).
  assert (Hext : external_payment q (mp_payment_proof p) a).
  { exists ln, options, p. split_and!; [done..|]. by destruct (Amount.to_unit _ _ _); simplify_eq. }
  apply on_world_seq in H as (? & s5 & [_ Hb]%begin_Ok & _ & H). rewrite Hcom in Hb. case_decide.
  - apply on_world_seq in H as (up & s6 & Hup & _ & [= <- <- <- <-]).
    apply update_lookup_tx in Hup as [->|[m ->]]; rewrite Hb; done.
  - injection H as <- <- <- <-. rewrite Hb. done.
Qed.

(** ** Settling *)

Lemma change_amounts_Ok fa target outputs l : change_amounts fa target outputs = Ok l -> sumN l <= target.
Proof.
  unfold change_amounts. destruct (Amount.split target fa) as [parts| |] eqn:E; cbn [map_err]; [|done..].
  intros [= <-]. apply Amount.split_Ok_le in E. destruct (Nat.ltb _ _); [|done].
  by rewrite (sumN_permutation _ _ (merge_sort_Permutation descending parts)).
Qed.

Lemma change_messages_sum l outputs : sumN (map bm_amount (change_messages l outputs)) <= sumN l.
Proof.
  unfold change_messages. revert outputs. induction l as [|a l IH]; intros [|m ms]; cbn; try lia.
  specialize (IH ms). unfold sumN in *. cbn in *. lia.
Qed.

Lemma on_tx_evolves {A B} (op : T A) (k : A -> Wt B) s b s' :
  keeps evolves op -> mseq (on_world (db (tx op))) k s = (Ok b, s') ->
  exists a s1, evolves (w_tx (fst s)) (w_tx (fst s1)) /\ snd s1 = snd s /\ k a s1 = (Ok b, s').
Proof.
  intros Hk (a & s1 & H & _ & ? & ?)%on_tx_seq. exists a, s1. split; [|done].
  specialize (Hk (w_tx (fst s))). by rewrite H in Hk.
Qed.

Lemma no_change_Ok q s u s' : no_change q s = (Ok u, s') -> evolves (w_tx (fst s)) (w_store (fst s')) /\ snd s' = None.
Proof.
  unfold no_change. intros (? & s1 & [= <- <-] & H)%mseq_Ok.
  apply on_tx_evolves in H as (? & s2 & He & Hpw & H); [|apply evolves_delete_melt_request].
  apply on_world_Ok in H as [Hc%commit_Ok Hs]. cbn in *. rewrite Hc. split; [done|congruence].
Qed.

(** ** What a dropped writer puts back *)

Lemma unknown_of_all (l : list (pubkey * option Nut07.State)) :
  (forall e, e ∈ l -> snd e = None) -> unknown_of l = map fst l /\ original_states l = [].
Proof.
  intros H. assert (Ho : omap snd l = []).
  { induction l as [|[y o] l IH]; [done|]. cbn. assert (o = None) as -> by (apply (H (y, o)); set_solver).
    apply IH. intros; apply H; set_solver. }
  split; [|unfold original_states; by rewrite Ho].
  unfold unknown_of. f_equal. induction l as [|e l IH]; [done|].
  rewrite filter_cons, decide_True by (apply H; set_solver). f_equal. apply IH; [intros; apply H; set_solver|].
  revert Ho. cbn. by destruct (snd e).
Qed.

(** The rollback that a dropped writer spawns removes the rows of its proofs
    by their keys, as long as they are not spent, whoever put them there in the
    meantime: it does not check that they are the rows of its own request. *)
Theorem dropped_writer_removes_rows (m : gmap pubkey (option Nut07.State)) w :
  m <> ∅ -> (forall y o, m !! y = Some o -> o = None) -> w_faults w = [] ->
  (forall y, is_Some (m !! y) -> exists row, db_proof (w_store w) !! y = Some row /\ pr_state row <> Nut07.Spent) ->
  let d := w_store (snd (pw_drop (Some m) w)) in
  (forall y, is_Some (m !! y) -> db_proof d !! y = None) /\
  (forall y, m !! y = None -> db_proof d !! y = db_proof (w_store w) !! y).
Proof.
  intros Hne Hm Hf Hrows. cbn zeta.
  assert (Hdom : forall y, y ∈ map fst (map_to_list m) <-> is_Some (m !! y)).
  { intros y. rewrite list_elem_of_fmap. split.
    - intros ([y' o] & -> & Hin%elem_of_map_to_list). eauto.
    - intros [o Ho]. exists (y, o). by rewrite elem_of_map_to_list. }
  destruct (unknown_of_all (map_to_list m)) as [Hu Ho].
  { intros [y o] Hin%elem_of_map_to_list. by eapply Hm. }
  assert (Hrem : removable (w_store w) (map fst (map_to_list m))).
  { split; [apply NoDup_fst_map_to_list|]. intros y Hy%Hdom. by apply Hrows. }
  assert (Hd : w_store (snd (pw_drop (Some m) w)) =
    set_proof (w_store w) (without (map fst (map_to_list m)) (db_proof (w_store w)))).
  { unfold pw_drop, rollback_task, reset_proofs_to_original_state. rewrite Hu, Ho. cbn [mfor].
    destruct (map fst (map_to_list m)) as [|y ys] eqn:E.
    { destruct Hne. apply map_to_list_empty_iff. by destruct (map_to_list m). }
    destruct w as [st t f ev]. cbn in Hf, Hrem. subst f.
    unfold mseq, db, mmap_err, begin_transaction, commit, tx, mmodify, mret. cbn -[remove_proofs without].
    rewrite (proj2 (remove_proofs_Ok (y :: ys) st _) (conj Hrem eq_refl)). done. }
  rewrite Hd. cbn -[without]. split; intros y Hy; rewrite lookup_without.
  - destruct (Hrows y Hy) as (row & -> & Hs). by rewrite decide_True by (split; [by apply Hdom|done]).
  - destruct (db_proof (w_store w) !! y); [|done]. rewrite decide_False; [done|]. rewrite Hdom, Hy. by intros [[? ?] _].
Qed.

Context {SL : SignatoryLaws SG}.

Lemma give_change_Ok now keysets q info spent s sigs s' :
  give_change now keysets q info spent s = (Ok sigs, s') ->
  evolves (w_tx (fst s)) (w_store (fst s')) /\ snd s' = None /\
  sumN (map bs_amount sigs) + spent + mri_inputs_fee info <= mri_inputs_amount info.
Proof.
  unfold give_change. cbv zeta. intros (sg & s1 & Hr & _ & H)%on_world_seq.
  apply mmap_err_Ok in Hr. unfold tx_read in Hr. apply tx_Ok in Hr as [[= _ Ht1] _].
  apply mlift_seq in H as ([] & _ & H). apply mlift_seq in H as (sp & Hsp%amount_sub_Ok & H).
  apply mlift_seq in H as (ct & Hct%amount_sub_Ok & H). apply mlift_seq in H as (l & Hl%change_amounts_Ok & H).
  apply on_world_seq in H as (? & s2 & Hc%commit_Ok & _ & H).
  apply mlift_seq in H as (cs & Hcs & H). apply on_world_seq in H as (? & s3 & [_ Hb]%begin_Ok & _ & H).
  apply mlift_seq in H as ([] & _ & H).
  apply on_tx_evolves in H as (? & s4 & He4 & _ & H); [|apply evolves_add_blind_signatures].
  apply mseq_Ok in H as (? & s5 & [= <- <-] & H).
  apply on_tx_evolves in H as (? & s6 & He6 & Hp6 & H); [|apply evolves_delete_melt_request].
  apply on_world_seq in H as (? & s7 & Hc7%commit_Ok & Hp7 & [= <- <-]). cbn in *.
  split_and!; [|congruence|].
  - rewrite Hc7, Ht1, <- Hc, <- Hb. by etrans.
  - apply blind_sign_matches, sum_signed in Hcs. pose proof (change_messages_sum l (mri_change_outputs info)). lia.
Qed.

Lemma process_melt_Ok now keysets q preimage spent s resp s' ys inputs fee :
  process_melt_request now keysets q preimage spent s = (Ok resp, s') ->
  held (lq_id q) ys inputs fee (w_tx (fst s)) ->
  let d := w_store (fst s') in
  snd s' = None /\ evolves (w_tx (fst s)) d /\
  (forall y, y ∈ ys -> exists row, db_proof d !! y = Some row /\ pr_state row = Nut07.Spent) /\
  (exists q', db_melt_quote d !! lq_id q = Some q' /\ lq_state q' = Paid /\ lq_payment_preimage q' = preimage) /\
  ml_payment_preimage resp = preimage /\ ml_state resp = Paid /\
  from_option (fun sigs => sumN (map bs_amount sigs) + spent + fee) 0 (ml_change resp) <= inputs.
Proof.
  unfold process_melt_request. intros (iys & s1 & Hiys & _ & _ & H)%on_tx_seq [Hheld Hreq]. cbn zeta.
  assert (Hys : w_tx (fst s1) = w_tx (fst s) /\ forall y, y ∈ ys -> y ∈ iys).
  { split; [|intros y Hy; destruct (Hheld y Hy) as (row & ? & ? & ?); by eapply get_proof_ys_Ok].
    revert Hiys. unfold get_proof_ys_by_quote_id, mseq, mgets, mlift. by intros [= _ <-]. }
  destruct Hys as [Ht1 Hys]. apply mlift_seq in H as ([] & _ & H).
  apply mseq_Ok in H as (? & s2 & (Ht2 & Hupd & _)%pw_update_Ok & H).
  pose proof (evolves_update_proofs_states iys Nut07.Spent (w_tx (fst s1))) as E2.
  rewrite (proj2 (update_proofs_states_Ok _ _ _ _ _) (conj Hupd (conj eq_refl eq_refl))), <- Ht2, Ht1 in E2. cbn in E2.
  apply on_tx_seq in H as ([st q1] & s3 & Hup & _ & _ & H).
  pose proof (evolves_update_melt_quote_state now (lq_id q) Paid preimage (w_tx (fst s2))) as E3.
  rewrite Hup in E3. cbn in E3. apply update_melt_quote_state_Ok in Hup as (q0 & Hq0 & _ & _ & _ & Hd3).
  specialize (Hd3 ltac:(done) ltac:(done)).
  apply on_tx_seq in H as (row & s4 & Hrow & _ & _ & H). apply get_melt_request_Ok in Hrow as [Ht4 Hinfo].
  apply mlift_seq in H as (info & ->%ok_or_Ok & H). specialize (Hinfo info eq_refl).
  assert (Hi : mri_inputs_amount info = inputs /\ mri_inputs_fee info = fee).
  { rewrite Hd3, Ht2, Ht1 in Hinfo. cbn in Hinfo. rewrite Hreq in Hinfo. by injection Hinfo. }
  destruct Hi as [Hi Hf]. apply mseq_Ok in H as (change & s5 & Hchange & H).
  apply on_world_seq in H as (? & s6 & Hpub & Hp6 & [= <- <-]).
  assert (Hst6 : w_store (fst s6) = w_store (fst s5)) by (apply (f_equal (fun p => w_store (snd p))) in Hpub; by cbn in Hpub).
  assert (Hend : evolves (w_tx (fst s4)) (w_store (fst s5)) /\ snd s5 = None /\
    from_option (fun sigs => sumN (map bs_amount sigs) + spent + fee) 0 change <= inputs).
  { destruct (spent <? mri_inputs_amount info); [destruct (mri_change_outputs info)|].
    - apply mseq_Ok in Hchange as (? & s7 & [He Hn]%no_change_Ok & [= <- <-]). split_and!; [done|done|apply N.le_0_l].
    - apply mseq_Ok in Hchange as (sg & s7 & (He & Hn & Hle)%give_change_Ok & [= <- <-]). cbn. by rewrite <- Hi, <- Hf.
    - apply mseq_Ok in Hchange as (? & s7 & [He Hn]%no_change_Ok & [= <- <-]). split_and!; [done|done|apply N.le_0_l]. }
  destruct Hend as (He & Hpw & Hle). rewrite Ht4 in He. cbn. rewrite Hst6.
  assert (E : evolves (w_tx (fst s2)) (w_store (fst s5))) by by etrans.
  split_and!; [congruence|by etrans| |..|done|done|done].
  - intros y Hy. destruct (Hheld y Hy) as (row & Hr & _ & _).
    exists (set_state row Nut07.Spent). split; [|done]. apply (ev_spent _ _ E); [|done].
    rewrite Ht2, Ht1. cbn. rewrite lookup_update_states, Hr, bool_decide_eq_true_2 by auto. done.
  - destruct (ev_paid _ _ He (lq_id q) (set_melt_paid q0 now preimage)) as (q' & Hq' & Hs' & Hp' & _);
      [rewrite Hd3; cbn [db_melt_quote set_melt_quote]; by rewrite lookup_alter_eq, Hq0|done|]. exists q'. done.
Qed.

Lemma inputs_amount_Ok r a : inputs_amount r = Ok a -> a = sumN (map amount (melt_inputs r)).
Proof.
  unfold inputs_amount. destruct (Amount.try_sum _) eqn:E; [|done..]. intros [= <-].
  by apply Amount.try_sum_Ok in E as [-> _].
Qed.

(** The first transaction up to the payment. *)
Lemma melt_body_Ok now keysets uuid r s resp s' :
  melt_body now keysets uuid r s = (Ok resp, s') ->
  let d := w_store (fst s) in
  exists v ys q fee s1 internal, verify_inputs now keysets (melt_inputs r) = Ok v /\
    addable d (melt_inputs r) ys /\ db_melt_quote d !! melt_quote r = Some q /\ funded keysets r v q fee /\
    let quote := set_melt_state q MPending in
    held (melt_quote r) ys (sumN (map amount (melt_inputs r))) fee (w_tx (fst s1)) /\
    (forall a, internal = Some a -> a = lq_amount q /\ internal_payment now quote (w_tx (fst s1))) /\
    mseq (match internal with Some a => mret (None, a, quote) | None => pay_externally quote r end)
      (fun settled => let '(preimage, spent, quote') := settled in
        process_melt_request now keysets quote' preimage spent) s1 = (Ok resp, s').
Proof.
  unfold melt_body. intros ([quote internal] & s5 & Hset & Hrest)%mseq_Ok. cbn zeta in *.
  unfold melt_setup in Hset. apply mlift_seq in Hset as (v & Hv & H). cbn zeta in H.
  apply on_world_seq in H as (? & s1 & [_ Hb]%begin_Ok & _ & H).
  apply mseq_Ok in H as (quote' & s2 & (ys & q & fee & Hadd & Hq & -> & Hfund & Ht2)%verify_melt_Ok & H).
  rewrite Hb in *. apply mlift_seq in H as (fee' & Hfee & H).
  assert (fee' = fee) as -> by (destruct Hfund; congruence).
  apply mlift_seq in H as (i & Hi%map_err_Ok%inputs_amount_Ok & H). subst i.
  apply on_tx_seq in H as (? & s3 & Ht3%add_melt_request_Ok & _ & _ & H).
  apply on_tx_seq in H as ([] & s4 & Ht4 & _ & _ & H). apply add_blinded_messages_Ok in Ht4 as [_ Ht4].
  apply on_world_seq in H as (internal' & s6 & Hint & _ & [= <- <- <-]).
  apply handle_internal_Ok in Hint as (Hp5 & Hr5 & _ & Hpay).
  exists v, ys, q, fee, s6, internal'. split_and!; try done.
  eapply held_same; [by rewrite Hp5, Ht4|by rewrite Hr5, Ht4|]. rewrite Ht3, Ht2. split.
  - intros y Hy. by eapply hold_db_rows.
  - cbn. by rewrite lookup_insert_eq.
Qed.

(** C4. A melt that answers, for every schedule of database faults and every
    payment backend: its inputs were unknown before and are spent now, their
    spending conditions and the mint's signatures were checked, the quote was
    unpaid and is paid now with the preimage of the answer, the inputs cover
    amount, fee reserve and input fee, the change together with what was spent
    and the fee does not exceed the inputs, and what was spent is either the
    amount credited to a mint quote of this mint or what the backend reported
    for a payment it declared paid. *)
Theorem melt_success now keysets uuid r w resp w' :
  melt now keysets uuid r w = (Ok resp, w') ->
  (forall q, db_melt_quote (w_store w) !! melt_quote r = Some q -> lq_id q = melt_quote r) ->
  let inputs := sumN (map amount (melt_inputs r)) in
  exists ys q fee spent,
    Nut00.ys (melt_inputs r) = Ok ys /\ NoDup ys /\
    collect (verify_conditions now) (melt_inputs r) = Ok (map (fun _ => tt) (melt_inputs r)) /\
    signatory_verify_proofs (melt_inputs r) = Ok tt /\
    (forall y, y ∈ ys -> db_proof (w_store w) !! y = None /\
       exists row, db_proof (w_store w') !! y = Some row /\ pr_state row = Nut07.Spent) /\
    db_melt_quote (w_store w) !! melt_quote r = Some q /\ (lq_state q = Unpaid \/ lq_state q = Failed) /\
    (exists q', db_melt_quote (w_store w') !! melt_quote r = Some q' /\ lq_state q' = Paid /\
       lq_payment_preimage q' = ml_payment_preimage resp) /\
    get_proofs_fee keysets (melt_inputs r) = Ok fee /\ lq_amount q + lq_fee_reserve q + fee <= inputs /\
    from_option (fun sigs => sumN (map bs_amount sigs) + spent + fee) 0 (ml_change resp) <= inputs /\
    (spent = lq_amount q /\ internal_payment now q (w_store w') \/
     external_payment q (ml_payment_preimage resp) spent).
Proof.
  unfold melt. destruct (melt_body _ _ _ _ _) as [res [w1 pw]] eqn:H. intros [= -> Hw'] Hid.
  apply melt_body_Ok in H as (v & ys & q & fee & s1 & internal & Hv & Hadd & Hq & Hf & Hheld & Hint & H).
  cbn [fst] in Hadd, Hq. apply verify_inputs_Ok in Hv as (Hva & _ & Hcond & Hsig).
  destruct Hf as [Hst _ Hfee Hle]. rewrite Hva in Hle. pose proof Hadd as (Hys & Hnd & Hfree & _).
  specialize (Hid q Hq). rewrite <- Hid in Hheld. apply mseq_Ok in H as ([[preimage spent] quote'] & s2 & Hset & H).
  assert (Hq' : lq_id quote' = lq_id q /\ held (lq_id q) ys (sumN (map amount (melt_inputs r))) fee (w_tx (fst s2)) /\
    ((spent = lq_amount q /\ internal_payment now q (w_tx (fst s2))) \/ external_payment q preimage spent)).
  { destruct internal as [a|].
    - injection Hset as <- <- <- <-. destruct (Hint a eq_refl) as [-> Hp]. auto.
    - apply pay_externally_Ok in Hset as (Hext & Hlq & Hp & Hr & _). split_and!; [done|by eapply held_same|right; exact Hext]. }
  destruct Hq' as (Hlq & Hh & Hwhy). rewrite <- Hlq in Hh.
  destruct (process_melt_Ok _ _ _ _ _ _ _ _ _ _ _ H Hh) as (Hpw & He & Hspent & Hpaid & Hpre & _ & Hch).
  cbn in *. subst pw. cbn in Hw'. subst w1. rewrite Hlq, Hid in Hpaid.
  exists ys, q, fee, spent. split_and!; try done.
  - intros y Hy. auto.
  - destruct Hpaid as (q' & ? & ? & ?). exists q'. split_and!; congruence.
  - destruct Hwhy as [[-> (mid & Hm)]|Hext]; [left|right; congruence]. split; [done|]. exists mid.
    destruct (ev_payments _ _ He) as [l ->]. apply elem_of_app. by left.
Qed.

End success.

End MeltFacts.
