(* ===== verification/MeltRuns.v ===== *)
(** * Melts that lose track of their inputs

    Concrete runs of the handlers: the witnesses for the theorems about
    melting, and the ways in which inputs of a melt come free, or stay
    locked, when a payment or a database call goes wrong. *)
From stdpp Require Import base numbers list sorting strings gmap fin_maps.
From S2P Require Import Prelude Amount Nuts Conditions Concrete Spending States MintDb MintDbFacts MintDbSpec Mint MintFacts Swap Issue ProofWriter Melt MeltFacts.

Local Open Scope N_scope.

Module MeltRuns.
Import Nut00 Requests StateRules MintTypes MintDb Mint Issue ProofWriter Melt MeltFacts Swap Concrete ConcreteMint.

(** A backend that answers a payment of 5 sat with a status, and a later
    question about it with another answer. *)
Definition answer (st : MeltQuoteState) : MakePaymentResponse :=
  mkMakePaymentResponse (PPaymentHash "hash") (Some "preimage") st 5 Amount.Sat.

Definition backend (paid : MeltQuoteState) (check : option MeltQuoteState) : Backend :=
  mkBackend (fun _ _ => Ok (mkPaymentQuoteResponse (Some (PPaymentHash "hash")) 5 1 Amount.Sat))
    (fun _ _ => Ok (answer paid))
    (fun _ => match check with Some st => Ok (answer st) | None => Err OtherPaymentError end).

Definition outgoing (paid : MeltQuoteState) (check : option MeltQuoteState) : Outgoing := {|
  payment_processor _ _ := Some (backend paid check);
  amount_milli_satoshis _ := Some 5000;
  offer_from_str _ := true;
  offer_amount _ := None;
|}.

(** A quote of 5 sat with a reserve of 1 sat for the invoice [lnbc]. *)
Definition quoted (id : QuoteId) (hash : string) (amount : N) (w : World) : World :=
  snd (store_melt_quote (MeltQuote_new id 10 (MBolt11 "lnbc") Amount.Sat amount 1 600 (Some (PPaymentHash hash)) None Bolt11) w).

Definition ready (faults : list bool) : World := set_faults (quoted "m" "hash" 5 (start [])) faults.

(** 8 sat pay 5 sat and a fee of 1 sat; 2 sat are change. *)
Definition request (id : QuoteId) (secret : string) : MeltRequest :=
  mkMeltRequest id [token secret 8] (Some [blank bob 0]).

Definition run (paid : MeltQuoteState) (check : option MeltQuoteState) (faults : list bool) :=
  melt (OG:=outgoing paid check) 50 [sat_keyset] 1 (request "m" "secret-A") (ready faults).

Definition state_of (y : @pubkey crypto) (w : World) : option Nut07.State := pr_state <$> db_proof (w_store w) !! y.

Lemma melt_success_witness : exists resp w',
  run Paid None [] = (Ok resp, w') /\ state_of alice w' = Some Nut07.Spent /\
  (map bs_amount <$> ml_change resp) = Some [2] /\
  exists ys q fee spent, Nut00.ys (melt_inputs (request "m" "secret-A")) = Ok ys /\
    db_melt_quote (w_store (ready [])) !! "m" = Some q /\
    lq_amount q + lq_fee_reserve q + fee <= 8 /\
    from_option (fun sigs => sumN (map bs_amount sigs) + spent + fee) 0 (ml_change resp) <= 8.
Proof.
  destruct (run Paid None []) as [[resp| |] w'] eqn:E;
    [|exfalso; apply (f_equal fst) in E; vm_compute in E; discriminate E..].
  exists resp, w'. split; [reflexivity|].
  split; [apply (f_equal (fun p => state_of alice (snd p))) in E; vm_compute in E; exact (eq_sym E)|].
  split; [apply (f_equal (fun p => match fst p with Ok r => map bs_amount <$> ml_change r | _ => None end)) in E;
          vm_compute in E; exact (eq_sym E)|].
  destruct (melt_success (OG:=outgoing Paid None) 50 [sat_keyset] 1 (request "m" "secret-A") (ready []) resp w' E)
    as (ys & q & fee & spent & H1 & _ & _ & _ & _ & H6 & _ & _ & _ & H10 & H11 & _).
  { intros q Hq. vm_compute in Hq. injection Hq as <-. reflexivity. }
  exists ys, q, fee, spent. split; [exact H1|]. split; [exact H6|]. split; [exact H10|exact H11].
Defined.

(** The database fails once, right after the backend has paid: the melt
    returns an error, the dropped writer removes the inputs, and the same
    inputs are accepted by a swap although the invoice was paid with them. *)
Theorem fault_after_payment_frees_inputs :
  let w := snd (run Paid None (repeat false 8 ++ [true])) in
  fst (run Paid None (repeat false 8 ++ [true])) = Err (MDatabase Database) /\
  state_of alice w = None /\
  exists sigs, fst (process_swap_request 60 [sat_keyset] 2 (mkSwapRequest [token "secret-A" 8] [blank carol 7]) w) = Ok sigs.
Proof. vm_compute. split; [reflexivity|]. split; [reflexivity|]. eexists. reflexivity. Qed.

(** The backend neither confirms nor denies the payment and cannot be asked:
    the inputs, which the code says are kept pending, are removed. *)
Theorem unclear_payment_frees_inputs :
  fst (run Unknown None []) = Err MInternal /\ state_of alice (snd (run Unknown None [])) = None.
Proof. vm_compute. split; reflexivity. Qed.

(** A payment that failed: the inputs are released, but the quote stays
    pending and every further attempt on it is refused, until the check at
    start-up sets it back to unpaid. *)
Theorem failed_payment_strands_quote :
  let w := snd (run Failed (Some Failed) []) in
  fst (run Failed (Some Failed) []) = Err PaymentFailed /\ state_of alice w = None /\
  (lq_state <$> db_melt_quote (w_store w) !! "m") = Some MPending /\
  fst (melt (OG:=outgoing Paid None) 60 [sat_keyset] 2 (request "m" "secret-B") w) = Err (MDatabase QuoteNotFound) /\
  (lq_state <$> db_melt_quote (w_store (snd (check_pending_melt_quotes (OG:=outgoing Paid (Some Failed)) 70 w))) !! "m") =
    Some Unpaid.
Proof. vm_compute. repeat split. Qed.

(** A melt whose payment is still pending keeps its inputs; when the payment
    fails later, the check at start-up frees the quote but not the inputs, and
    a second melt of the same quote burns them together with its own. *)
Theorem restart_lets_second_melt_burn_both :
  let w1 := snd (run MPending None []) in
  let w2 := snd (check_pending_melt_quotes (OG:=outgoing Paid (Some Failed)) 70 w1) in
  let second := melt (OG:=outgoing Paid None) 80 [sat_keyset] 2 (request "m" "secret-B") w2 in
  state_of alice w1 = Some Nut07.Pending /\ state_of alice w2 = Some Nut07.Pending /\
  (exists resp, fst second = Ok resp) /\
  state_of alice (snd second) = Some Nut07.Spent /\ state_of bob (snd second) = Some Nut07.Spent.
Proof. vm_compute. split; [reflexivity|]. split; [reflexivity|]. split; [eexists; reflexivity|]. split; reflexivity. Qed.

(** ** A melt and the late rollback of another *)

(** Two quotes; the first asks for more than the inputs are worth. *)
Definition two_quotes : World := quoted "m" "hash" 5 (quoted "big" "other" 100 (start [])).
Definition refused := melt_body (OG:=outgoing Paid None) 50 [sat_keyset] 1 (request "big" "secret-A") (two_quotes, None).

(** The second melt up to its payment, on the same inputs. *)
Definition paying :=
  match melt_setup 51 [sat_keyset] 2 (request "m" "secret-A") (fst (snd refused), None) with
  | (Ok (quote, None), s) =>
      match send_payment (OG:=outgoing Paid None) quote (request "m" "secret-A") s with
      | (Ok pre, s') => Some (quote, pre, s')
      | _ => None
      end
  | _ => None
  end.
Definition paying_world : World := match paying with Some (_, _, s) => fst s | None => start [] end.

(** The rollback of the first, then the rest of the second. *)
Definition after_rollback : World := snd (pw_drop (snd (snd refused)) paying_world).
Definition rest_of_second : option (res MError MeltResponse) :=
  match paying with
  | Some (quote, pre, s) =>
      Some (fst (mseq (reopen quote pre)
        (fun t => process_melt_request 52 [sat_keyset] (snd t) (fst (fst t)) (snd (fst t))) (after_rollback, snd s)))
  | None => None
  end.

(** A melt that is refused spawns the rollback of its writer; when a second
    melt of the same inputs has been set up before that task runs, the task
    removes the rows of the second melt.  The second melt pays its invoice,
    then panics for want of inputs, and the inputs can be spent again. *)
Theorem late_rollback_frees_inputs_of_paid_melt :
  fst refused = Err (TransactionUnbalanced 8 100 2) /\
  (mp_status ∘ snd ∘ fst <$> paying) = Some Paid /\
  state_of alice paying_world = Some Nut07.Pending /\
  state_of alice after_rollback = None /\
  rest_of_second = Some Panic /\
  exists sigs, fst (process_swap_request 60 [sat_keyset] 3
    (mkSwapRequest [token "secret-A" 8] [blank carol 7]) after_rollback) = Ok sigs.
Proof.
  split; [vm_compute; reflexivity|]. split; [vm_compute; reflexivity|]. split; [vm_compute; reflexivity|].
  split; [vm_compute; reflexivity|]. split; [vm_compute; reflexivity|]. eexists. vm_compute. reflexivity.
Qed.

(** The rollback of the refused melt, run on the tables of the second. *)
Lemma dropped_writer_removes_rows_witness :
  snd (snd refused) = Some {[alice := None]} /\
  db_proof (w_store (snd (pw_drop (Some {[alice := None]}) paying_world))) !! alice = None.
Proof.
  split; [vm_compute; reflexivity|].
  refine (proj1 (dropped_writer_removes_rows {[alice := None]} paying_world _ _ _ _) alice _).
  - discriminate.
  - intros y o Hy. apply lookup_singleton_Some in Hy as [_ <-]. reflexivity.
  - vm_compute. reflexivity.
  - intros y [o Hy]. apply lookup_singleton_Some in Hy as [<- _]. eexists. split; [vm_compute; reflexivity|].
    vm_compute. discriminate.
  - exists None. reflexivity.
Defined.

End MeltRuns.
