(* ===== verification/Safety.v ===== *)
(** * Histories of the whole mint

    Requests of every kind, payment notifications, start-up checks and
    recovery in any order, each under its own schedule of database faults and
    with its own behaviour of the signatory and the payment backend: what
    holds of the tables after any such history. *)
From stdpp Require Import base numbers list sorting strings gmap fin_maps.
From S2P Require Import Prelude Amount Nuts Conditions Concrete Spending States MintDb MintDbFacts MintDbSpec Mint MintFacts Swap SwapFacts Issue IssueFacts ProofWriter Melt MeltFacts MeltRuns.

Local Open Scope N_scope.

Module Safety.
Import Nut00 Requests StateRules MintTypes MintDb MintDbFacts Mint MintFacts Swap Issue IssueFacts ProofWriter Melt MeltFacts.

Section handlers.
Context {CR : Crypto} {SD : Serde}.

(** ** One handler *)

Section preorder.
Context {SG : Signatory} {PY : Payments} {OG : Outgoing}.
Context (R : Db -> Db -> Prop) `{!PreOrder R} (HR : forall now o, keeps R (run_op now o)).

Lemma pv_rollback_err {A} e : preserves R (rollback_err e : Mt A).
Proof. unfold rollback_err, db. pv_auto ltac:(keeps_call HR). Qed.

Lemma pv_setup_inputs now op ps q : preserves R (setup_inputs now op ps q).
Proof. unfold setup_inputs, rollback_err, db. pv_auto ltac:(keeps_call HR). Qed.

Lemma pv_verify_balanced keysets v ps ms : preserves R (verify_transaction_balanced keysets v ps ms).
Proof.
  unfold verify_transaction_balanced. pv_auto ltac:(keeps_call HR). by apply pv_verify_outputs.
Qed.

Lemma cm_setup_swap now keysets op ps ms q v : commits R (setup_swap now keysets op ps ms q v).
Proof.
  unfold setup_swap. apply cm_begin; [done|]. unfold rollback_err, db.
  pv_auto ltac:(keeps_call HR); [apply pv_verify_balanced|apply pv_setup_inputs].
Qed.

Lemma cm_execute c : commits R (execute c).
Proof.
  unfold execute. destruct (rs_blinded_secrets c), (rs_input_ys c); [by apply cm_keeps|..];
    (apply cm_begin; [done|]); unfold db; pv_auto ltac:(keeps_call HR).
Qed.

Lemma cm_compensate_all {S} (self : SwapSaga S) : commits R (compensate_all self).
Proof.
  unfold compensate_all. destruct (sg_compensations _ self) as [|c cs]; [by apply cm_keeps|].
  apply cm_mseq; [done| |intros _].
  - generalize (c :: cs). intros l. induction l as [|c' l IH]; cbn; [by apply cm_keeps|].
    apply cm_mseq; [done|apply cm_mtry, cm_execute|done].
  - unfold delete_saga_best_effort. apply cm_mtry_begin; [done| |intros; by apply cm_keeps].
    pv_auto ltac:(keeps_call HR).
Qed.

Lemma cm_sign_outputs self : commits R (sign_outputs self).
Proof.
  unfold sign_outputs. destruct (signatory_blind_sign _); [by apply cm_keeps| |by apply cm_keeps].
  apply cm_mseq; [done|apply cm_compensate_all|intros; by apply cm_keeps].
Qed.

Lemma cm_finalize now self : commits R (finalize now self).
Proof.
  unfold finalize. apply cm_mseq; [done| |].
  - unfold finalize_tx. cbv zeta. apply cm_begin; [done|]. unfold db. pv_auto ltac:(keeps_call HR).
  - intros [u|e]; [by apply cm_keeps|]. apply cm_mseq; [done|apply cm_compensate_all|intros; by apply cm_keeps].
Qed.

Lemma cm_mlift {A B} (r : res MError A) (k : A -> Mt B) : (forall a, commits R (k a)) -> commits R (mseq (mlift r) k).
Proof. intros H. apply cm_mseq; [done|by apply cm_keeps|done]. Qed.

Lemma cm_process_swap now keysets id r : commits R (process_swap_request now keysets id r).
Proof.
  unfold process_swap_request. repeat (apply cm_mlift; intros).
  apply cm_mseq; [done|apply cm_setup_swap|intros]. apply cm_mseq; [done|apply cm_sign_outputs|intros].
  apply cm_finalize.
Qed.

Lemma cm_db_read {A B} (f : Db -> res DbError A) (k : A -> Mt B) :
  (forall a, commits R (k a)) -> commits R (mseq (db (read_store f)) k).
Proof. intros H. apply cm_mseq; [done|apply cm_keeps; [done|apply ks_mmap_err, ks_read_store]|done]. Qed.

Lemma pv_execute c : preserves R (execute c).
Proof.
  unfold execute, db. destruct (rs_blinded_secrets c), (rs_input_ys c); pv_auto ltac:(keeps_call HR).
Qed.

Lemma pv_recover_loop l : preserves R (recover_loop l).
Proof.
  induction l as [|saga l IH]; cbn [recover_loop]; unfold db; pv_auto ltac:(keeps_call HR);
    first [apply pv_execute | exact IH].
Qed.

Lemma cm_recover_loop l : commits R (recover_loop l).
Proof.
  induction l as [|saga l IH]; cbn [recover_loop]; [by apply cm_keeps|].
  apply cm_mseq; [done|apply cm_mtry, cm_execute|intros [u|e]; [|done]].
  apply cm_begin; [done|]. unfold db. pv_auto ltac:(keeps_call HR); apply pv_recover_loop.
Qed.

Lemma cm_recover : commits R recover_from_incomplete_sagas.
Proof.
  unfold recover_from_incomplete_sagas. apply cm_db_read. intros [|saga l]; [by apply cm_keeps|apply cm_recover_loop].
Qed.

(** Minting. *)

Lemma cm_check_paid now q : commits R (check_mint_quote_paid now q).
Proof. apply cm_check_mint_quote_paid; [done|]. intros. keeps_call HR. Qed.

Lemma cm_process_mint now keysets id r : commits R (process_mint_request now keysets id r).
Proof.
  unfold process_mint_request. apply cm_db_read. intros row. apply cm_mlift. intros q0.
  apply cm_mseq; [done|case_decide; [apply cm_check_paid|by apply cm_keeps]|intros _].
  apply cm_mlift. intros sigs. apply cm_mseq; [done| |intros [q t]; apply cm_keeps; [done|]].
  - unfold mint_tx. apply cm_begin; [done|]. unfold db. pv_auto ltac:(keeps_call HR). by apply pv_verify_outputs.
  - unfold notify. cbn. destruct (mq_payment_method q); done.
Qed.

Lemma cm_pay_mint_quote now r : commits R (pay_mint_quote_for_request_id now r).
Proof.
  unfold pay_mint_quote_for_request_id. apply cm_mlift. intros _. apply cm_begin; [done|].
  unfold handle_mint_quote_payment, notify, db. pv_auto ltac:(keeps_call HR).
Qed.

Lemma cm_check_mint_quote now id : commits R (check_mint_quote now id).
Proof.
  unfold check_mint_quote. apply cm_db_read. intros row. apply cm_mlift. intros q.
  case_decide; [apply cm_check_paid|by apply cm_keeps].
Qed.

Lemma cm_create_mint_quote now ttl dis set id unit a desc m pk :
  commits R (create_mint_quote now ttl dis set id unit a desc m pk).
Proof.
  unfold create_mint_quote. cbv zeta. repeat (apply cm_mlift; intros). apply cm_begin; [done|].
  unfold notify, db. pv_auto ltac:(keeps_call HR).
Qed.

(** Melting. *)

Lemma cm_store_melt_quote q : commits R (store_melt_quote q).
Proof. unfold store_melt_quote. apply cm_begin; [done|]. unfold db. pv_auto ltac:(keeps_call HR). Qed.

Lemma ks_melt_acceptable dis set mpp a m req o : keeps_store (check_melt_request_acceptable dis set mpp a m req o).
Proof. unfold check_melt_request_acceptable, db. cbv zeta. ks_auto. Qed.

Lemma cm_melt_bolt11 now ttl dis set mpp id req unit o :
  commits R (get_melt_bolt11_quote_impl now ttl dis set mpp id req unit o).
Proof.
  unfold get_melt_bolt11_quote_impl. repeat (apply cm_mlift; intros).
  apply cm_mseq; [done|apply cm_keeps; [done|apply ks_melt_acceptable]|intros _; apply cm_store_melt_quote].
Qed.

Lemma cm_melt_bolt12 now ttl dis set mpp id req unit o :
  commits R (get_melt_bolt12_quote_impl now ttl dis set mpp id req unit o).
Proof.
  unfold get_melt_bolt12_quote_impl. repeat (apply cm_mlift; intros).
  apply cm_mseq; [done|apply cm_keeps; [done|apply ks_melt_acceptable]|intros _; apply cm_store_melt_quote].
Qed.

Lemma cm_check_pending now : commits R (check_pending_melt_quotes now).
Proof.
  unfold check_pending_melt_quotes. apply cm_db_read. intros quotes.
  destruct (filter _ quotes) as [|q l]; [by apply cm_keeps|]. apply cm_begin; [done|].
  apply pv_mseq; [done| |intros; apply pv_mmap_err; by apply pv_commit].
  generalize (q :: l). intros qs. induction qs as [|q' qs IH]; cbn [check_pending_loop]; [by apply pv_mret|].
  destruct (payment_processor (lq_unit q') Bolt11), (lq_request_lookup_id q'); [|done..].
  pv_auto ltac:(keeps_call HR). exact IH.
Qed.

Lemma mseq_assoc {S E A B C} (a : M S E A) (b : A -> M S E B) (c : B -> M S E C) s :
  mseq (mseq a b) c s = mseq a (fun x => mseq (b x) c) s.
Proof. unfold mseq. by destruct (a s) as [[x| |] s1]. Qed.

(** A handler with a writer, from any state of the world. *)
Definition wcommits {A} (c : Wt A) : Prop := forall s, R (w_store (fst s)) (w_store (fst (snd (c s)))).

Lemma wc_mlift {A B} (r : res MError A) (k : A -> Wt B) : (forall a, wcommits (k a)) -> wcommits (mseq (mlift r) k).
Proof. intros H s. unfold mseq, mlift. destruct r; [apply H|reflexivity..]. Qed.

Lemma wc_begin {A} (k : unit -> Wt A) : wpreserves R (k tt) -> wcommits (mseq (on_world (db begin_transaction)) k).
Proof.
  intros Hk [w pw]. assert (H : forall w0, w_store w0 = w_store w ->
    R (w_store w) (w_store (fst (snd (k tt (set_tx w0 (w_store w0), pw)))))).
  { intros w0 <-. apply (Hk (set_tx w0 (w_store w0), pw)). reflexivity. }
  unfold mseq, on_world, db, mmap_err, begin_transaction, faulty, mmodify.
  destruct (w_faults w) as [|[] f] eqn:E; cbn; rewrite ?E; cbn; [by apply H|reflexivity|by apply (H (set_faults w f))].
Qed.

Lemma wc_melt_body now keysets uuid r : wcommits (melt_body now keysets uuid r).
Proof.
  intros s. unfold melt_body, melt_setup. rewrite mseq_assoc. revert s. apply wc_mlift. intros v s. cbv zeta.
  rewrite mseq_assoc. revert s. apply wc_begin.
  wp_auto ltac:(keeps_call HR); first [by apply wp_verify_melt | by apply wp_on_world, pv_handle_internal
    | by apply wp_pay_externally | by apply wp_process_melt].
Qed.

Lemma cm_melt now keysets uuid r : commits R (melt now keysets uuid r).
Proof.
  intros w. unfold melt. pose proof (wc_melt_body now keysets uuid r (w, None)) as H.
  destruct (melt_body now keysets uuid r (w, None)) as [res [w1 pw]]. cbn in *. etrans; [exact H|].
  destruct pw as [m|]; [|reflexivity]. unfold pw_drop, rollback_task.
  apply (cm_begin R (fun _ => mseq (reset_proofs_to_original_state (map_to_list m)) (fun _ => db commit))).
  apply pv_mseq; [done|by apply pv_reset|intros; apply pv_mmap_err; by apply pv_commit].
Qed.

End preorder.

(** ** Requests *)

Inductive Request :=
| Swap (SG : Signatory) (now : N) (keysets : Keysets) (id : Uuid) (r : SwapRequest)
| Mint (SG : Signatory) (PY : Payments) (now : N) (keysets : Keysets) (id : Uuid) (r : MintRequest)
| Melt (SG : Signatory) (OG : Outgoing) (now : N) (keysets : Keysets) (id : Uuid) (r : MeltRequest)
| NewMintQuote (PY : Payments) (now ttl : N) (disabled : bool) (settings : option MethodSettings) (id : QuoteId)
    (unit : Amount.CurrencyUnit) (amount : option N) (description : option string) (method : PaymentMethod)
    (pk : option pubkey)
| NewMeltQuote11 (OG : Outgoing) (now ttl : N) (disabled : bool) (settings : option MeltMethodSettings) (mpp : bool)
    (id : QuoteId) (request : string) (unit : Amount.CurrencyUnit) (options : option MeltOptions)
| NewMeltQuote12 (OG : Outgoing) (now ttl : N) (disabled : bool) (settings : option MeltMethodSettings) (mpp : bool)
    (id : QuoteId) (request : string) (unit : Amount.CurrencyUnit) (options : option MeltOptions)
| CheckMintQuote (PY : Payments) (now : N) (id : QuoteId)
| CheckMeltQuote (id : QuoteId)
| PaymentReceived (now : N) (p : WaitPaymentResponse)
| CheckState (ys : list pubkey)
| Restore (outputs : list BlindedMessage)
| StartUp (OG : Outgoing) (now : N).

(** Serving a request; only what it leaves behind. *)
Definition serve (q : Request) (w : World) : World :=
  match q with
  | Swap SG now ks id r => snd (process_swap_request now ks id r w)
  | Mint SG PY now ks id r => snd (process_mint_request now ks id r w)
  | Melt SG OG now ks id r => snd (melt now ks id r w)
  | NewMintQuote PY now ttl d s id u a de m pk => snd (create_mint_quote now ttl d s id u a de m pk w)
  | NewMeltQuote11 OG now ttl d s mpp id r u o => snd (get_melt_bolt11_quote_impl now ttl d s mpp id r u o w)
  | NewMeltQuote12 OG now ttl d s mpp id r u o => snd (get_melt_bolt12_quote_impl now ttl d s mpp id r u o w)
  | CheckMintQuote PY now id => snd (check_mint_quote now id w)
  | CheckMeltQuote id => snd (check_melt_quote id w)
  | PaymentReceived now p => snd (pay_mint_quote_for_request_id now p w)
  | CheckState ys => snd (check_state ys w)
  | Restore outputs => snd (restore outputs w)
  | StartUp OG now => snd (recover_from_incomplete_sagas (snd (check_pending_melt_quotes now w)))
  end.

(** A history: every request meets its own schedule of faults. *)
Fixpoint run_history (l : list (list bool * Request)) (w : World) : World :=
  match l with
  | [] => w
  | (faults, q) :: l' => run_history l' (serve q (set_faults w faults))
  end.

Definition fresh : World := mkWorld empty_db empty_db [] [].

Lemma ks_check_state ys : keeps_store (check_state ys).
Proof.
  unfold check_state, db. ks_auto. generalize (zip ys a). intros l.
  induction l as [|[y [st|]] l IH]; cbn [proof_states]; [ks_auto|unfold proof_state, db; ks_auto; apply IH..].
Qed.

Lemma serve_keeps (R : Db -> Db -> Prop) `{!PreOrder R} (HR : forall now o, keeps R (run_op now o)) q w :
  R (w_store w) (w_store (serve q w)).
Proof.
  destruct q; cbn [serve].
  - by apply cm_process_swap.
  - by apply cm_process_mint.
  - by apply cm_melt.
  - by apply cm_create_mint_quote.
  - by apply cm_melt_bolt11.
  - by apply cm_melt_bolt12.
  - by apply cm_check_mint_quote.
  - apply cm_keeps; [done|]. unfold check_melt_quote, db. ks_auto.
  - by apply cm_pay_mint_quote.
  - apply cm_keeps; [done|]. apply ks_check_state.
  - apply cm_keeps; [done|]. unfold restore, db. ks_auto.
  - etrans; [exact (cm_check_pending R HR now w)|exact (cm_recover R HR (snd (check_pending_melt_quotes now w)))].
Qed.

Lemma history_keeps (R : Db -> Db -> Prop) `{!PreOrder R} (HR : forall now o, keeps R (run_op now o)) l w :
  R (w_store w) (w_store (run_history l w)).
Proof.
  revert w. induction l as [|[f q] l IH]; intros w; cbn [run_history]; [reflexivity|].
  etrans; [|apply IH]. exact (serve_keeps R HR q (set_faults w f)).
Qed.

Lemma run_history_app l1 l2 w : run_history (l1 ++ l2) w = run_history l2 (run_history l1 w).
Proof. revert w. induction l1 as [|[f q] l1 IH]; intros w; cbn; auto. Qed.

(** C1. Every history of the mint, from an empty database, with requests in any
    order, database faults anywhere, and any behaviour of signatory and
    payment backend: at any later point of the history a spent proof is still
    spent, a stored signature is unchanged and a paid melt quote is still paid;
    and every mint quote accounts for its payments and issuances and has
    issued at most what was paid, with no payment counted twice. *)
Theorem every_history_is_safe l1 l2 :
  let d1 := w_store (run_history l1 fresh) in
  let d2 := w_store (run_history (l1 ++ l2) fresh) in
  (forall y row, db_proof d1 !! y = Some row -> pr_state row = Nut07.Spent -> db_proof d2 !! y = Some row) /\
  (forall b row, db_blind_signature d1 !! b = Some row -> is_Some (sr_c row) -> db_blind_signature d2 !! b = Some row) /\
  (forall id q, db_melt_quote d1 !! id = Some q -> lq_state q = Paid ->
     exists q', db_melt_quote d2 !! id = Some q' /\ lq_state q' = Paid /\ lq_payment_preimage q' = lq_payment_preimage q) /\
  (forall id q, get_mint_quote id d2 = Some q ->
     mq_amount_paid q = sumN (map ip_amount (mq_payments q)) /\
     mq_amount_issued q = sumN (map is_amount (mq_issuance q)) /\
     mq_amount_issued q <= mq_amount_paid q /\ NoDup (payment_ids q)).
Proof.
  cbn zeta. rewrite run_history_app. set (w1 := run_history l1 fresh).
  destruct (history_keeps evolves evolves_run_op l2 w1) as [E1 E2 E3 _ _]. split_and!; [done|done|..].
  - intros id q Hq Hp. destruct (E3 _ _ Hq Hp) as (q' & ? & ? & ? & _). eauto.
  - assert (L : ledger_ok (w_store (run_history l2 w1))).
    { unfold w1. rewrite <- run_history_app.
      apply (history_keeps keeps_ledger ledger_run_op (l1 ++ l2) fresh), ledger_empty. }
    intros id q Hq. destruct (ledger_quote_sound _ _ _ L Hq) as (? & ? & ? & ? & _). auto.
Qed.

End handlers.
End Safety.
