(* ===== verification/QueryFacts.v ===== *)
(** * Reading the mint's tables back

    What the state check (NUT-07) and the restore request (NUT-09) answer. *)
From stdpp Require Import base numbers list sorting strings gmap fin_maps.
From S2P Require Import Prelude Amount Nuts Conditions Concrete Spending States MintDb MintDbFacts MintDbSpec Mint MintFacts Swap SwapFacts.

Local Open Scope N_scope.

Module QueryFacts.
Import Nut00 Requests StateRules MintTypes MintDb MintDbFacts MintDbSpec Mint MintFacts.

Section facts.
Context {CR : Crypto} {SD : Serde}.

(** ** The state check *)

(** What the tables say of a key. *)
Definition report (d : Db) (y : pubkey) : Nut07.ProofState :=
  match db_proof d !! y with
  | Some row => Nut07.mkProofState _ y (pr_state row) (witness (pr_proof row))
  | None => Nut07.mkProofState _ y Nut07.Unspent None
  end.

Lemma get_proof_by_y (y : pubkey) d : get_proofs_by_ys [y] d = [pr_proof <$> db_proof d !! y].
Proof.
  unfold get_proofs_by_ys. cbn [take_rows]. rewrite lookup_fmap. f_equal.
  destruct (db_proof d !! y) as [row|] eqn:E.
  - rewrite (map_lookup_filter_Some_2 _ _ y row); [done|done|]. cbn. set_solver.
  - by rewrite map_lookup_filter_None_2 by (by left).
Qed.

Lemma proof_state_run y st row w :
  w_faults w = [] -> db_proof (w_store w) !! y = Some row ->
  proof_state y (Some st) w = (Ok (Nut07.mkProofState _ y st (witness (pr_proof row))), w).
Proof.
  intros Hf Hr. unfold proof_state, mseq, db, mmap_err, read_store, faulty. rewrite Hf. cbn -[get_proofs_by_ys].
  by rewrite get_proof_by_y, Hr.
Qed.

Lemma proof_states_run l w :
  w_faults w = [] ->
  proof_states (map (fun y => (y, pr_state <$> db_proof (w_store w) !! y)) l) w = (Ok (map (report (w_store w)) l), w).
Proof.
  intros Hf. induction l as [|y l IH]; [done|]. cbn [map proof_states]. unfold mseq at 1.
  assert (Hp : proof_state y (pr_state <$> db_proof (w_store w) !! y) w = (Ok (report (w_store w) y), w)).
  { unfold report. destruct (db_proof (w_store w) !! y) as [row|] eqn:E; [by apply proof_state_run|done]. }
  rewrite Hp. unfold mseq. by rewrite IH.
Qed.

Lemma zip_map_self {A B} (f : A -> B) l : zip l (map f l) = map (fun x => (x, f x)) l.
Proof. induction l as [|x l IH]; [done|]. cbn. by rewrite <- IH. Qed.

Lemma get_proofs_states_NoDup ys d :
  NoDup ys -> get_proofs_states ys d = map (fun y => pr_state <$> db_proof d !! y) ys.
Proof.
  intros Hnd. unfold get_proofs_states. rewrite take_rows_NoDup by done. apply map_ext_in.
  intros y Hy%list_elem_of_In. by rewrite lookup_current_states, bool_decide_eq_true_2.
Qed.

(** The state check, without database faults, answers a request that names
    every key once with the state and the witness in the tables, and with
    unspent for keys the mint has never seen. *)
Theorem check_state_reports ys w :
  NoDup ys -> w_faults w = [] -> check_state ys w = (Ok (map (report (w_store w)) ys), w).
Proof.
  intros Hnd Hf. unfold check_state. unfold mseq at 1, db, mmap_err, read_store, faulty. rewrite Hf.
  cbn [fst snd map_err]. rewrite get_proofs_states_NoDup, length_map, Nat.eqb_refl by done. cbn [negb].
  rewrite zip_map_self. by apply proof_states_run.
Qed.

(** A key that a request repeats is reported as unspent the second time,
    whatever its state, a spent proof included. *)
Theorem repeated_key_reported_unspent y row w :
  w_faults w = [] -> db_proof (w_store w) !! y = Some row -> pr_state row = Nut07.Spent ->
  fst (check_state [y; y] w) =
  Ok [Nut07.mkProofState _ y Nut07.Spent (witness (pr_proof row)); Nut07.mkProofState _ y Nut07.Unspent None].
Proof.
  intros Hf Hr Hs. unfold check_state. unfold mseq at 1, db, mmap_err, read_store, faulty. rewrite Hf.
  cbn [fst snd map_err]. unfold get_proofs_states. cbn [take_rows].
  rewrite lookup_delete_eq, lookup_current_states, bool_decide_eq_true_2, Hr by set_solver. cbn [fmap option_fmap option_map].
  rewrite Hs. cbn [length Nat.eqb negb zip zip_with proof_states]. unfold mseq at 1.
  rewrite (proof_state_run y Nut07.Spent row) by done. done.
Qed.

(** ** Restore *)

(** The table holds a readable signature for a message. *)
Definition stored (d : Db) (m : BlindedMessage) (s : BlindSignature) : Prop :=
  exists row, db_blind_signature d !! blinded_secret m = Some row /\ sr_c row = Some (bs_c s) /\
    row_to_blind_signature row (bs_c s) = Ok s.

(** Reading a list of signed rows. *)
Lemma collect_rows (l : list (pubkey * SigRow)) :
  (forall k r, (k, r) ∈ l -> exists c s, sr_c r = Some c /\ row_to_blind_signature r c = Ok s) ->
  exists rows, collect (fun t : pubkey * pubkey * SigRow =>
      let '(k, c, r) := t in
      match row_to_blind_signature r c with Ok s => Ok (k, s) | Err e => Err e | Panic => Panic end)
    (omap signed_row l) = Ok rows /\ rows.*1 = l.*1 /\
    forall k r c s, (k, r) ∈ l -> sr_c r = Some c -> row_to_blind_signature r c = Ok s -> (k, s) ∈ rows.
Proof.
  induction l as [|[k r] l IH]; intros Hl.
  { exists []. split_and!; [done..|]. intros ? ? ? ? []%not_elem_of_nil. }
  destruct IH as (rows & Hc & Hk & Hin); [intros k' r' Hin'; apply (Hl k' r'); set_solver|].
  destruct (Hl k r) as (c & s & Hrc & Hrs); [set_solver|]. exists ((k, s) :: rows).
  cbn [omap list_omap signed_row fst snd]. unfold signed_row at 1. cbn [fst snd]. rewrite Hrc. cbn [collect]. rewrite Hrs, Hc.
  split_and!; [done|by cbn; f_equal|]. intros k' r' c' s' [[= -> ->]|Hin']%elem_of_cons Hc' Hs'.
  - assert (s' = s) as -> by congruence. set_solver.
  - apply elem_of_cons. right. by eapply Hin.
Qed.

Lemma get_blind_signatures_stored ms ss d :
  NoDup (map blinded_secret ms) -> Forall2 (stored d) ms ss ->
  get_blind_signatures (map blinded_secret ms) d = Ok (map Some ss).
Proof.
  intros Hnd Hst. unfold get_blind_signatures, read_signatures.
  set (l := map_to_list (filter _ (db_blind_signature d))).
  assert (Hl : forall k r, (k, r) ∈ l <-> db_blind_signature d !! k = Some r /\ k ∈ map blinded_secret ms).
  { intros k r. unfold l. by rewrite elem_of_map_to_list, map_lookup_filter_Some. }
  assert (Hm : forall m, m ∈ ms -> exists s, stored d m s).
  { intros m [i Hi]%list_elem_of_lookup. destruct (Forall2_lookup_l _ _ _ _ _ Hst Hi) as (s & _ & ?). eauto. }
  destruct (collect_rows l) as (rows & -> & Hkeys & Hrows).
  { intros k r [Hr (m & -> & Hin)%list_elem_of_fmap]%Hl. destruct (Hm m Hin) as (s & row & ? & ? & ?). simplify_eq. eauto. }
  f_equal. rewrite take_rows_NoDup by done. rewrite map_map.
  assert (Hlook : forall m s, m ∈ ms -> stored d m s -> (list_to_map rows : gmap pubkey BlindSignature) !! blinded_secret m = Some s).
  { intros m s Hin (row & Hr & Hc & Hs). apply elem_of_list_to_map.
    - rewrite Hkeys. apply NoDup_fst_map_to_list.
    - eapply Hrows; [|done..]. apply Hl. split; [done|by apply list_elem_of_fmap_2]. }
  clear -Hst Hlook. induction Hst as [|m s ms ss Hms _ IH]; [done|]. cbn. f_equal; [apply Hlook; [set_solver|done]|].
  apply IH. intros m' s' Hin'. apply Hlook. set_solver.
Qed.

Lemma omap_zip_Some {A B} (l : list A) (l' : list B) :
  omap (fun p : A * option B => match p.2 with Some s => Some (p.1, s) | None => None end) (zip l (map Some l')) = zip l l'.
Proof. revert l'. induction l as [|x l IH]; intros [|y l']; cbn; [done..|]. by rewrite IH. Qed.

(** Restore gives back, without database faults and for distinct outputs,
    every signature that is stored for them, as it was signed. *)
Theorem restore_returns_stored ms ss w :
  NoDup (map blinded_secret ms) -> Forall2 (stored (w_store w)) ms ss -> w_faults w = [] ->
  restore ms w = (Ok (zip ms ss), w).
Proof.
  intros Hnd Hst Hf. unfold restore. unfold mseq at 1, db, mmap_err, read_store, faulty. rewrite Hf. cbn [fst snd].
  rewrite (get_blind_signatures_stored ms ss) by done. cbn [map_err].
  rewrite length_map, <- (Forall2_length _ _ _ Hst), Nat.eqb_refl. cbn [negb]. unfold mret. by rewrite omap_zip_Some.
Qed.

End facts.
End QueryFacts.

(** ** Concrete runs *)
Module ConcreteQueries.
Import Nut00 Requests StateRules MintTypes MintDb MintDbFacts Mint MintFacts Swap Concrete ConcreteMint ConcreteSwap QueryFacts.

(** The mint after the swap of 8 sat for 7 sat. *)
Definition swapped : World := snd (run []).
Definition alice_row : ProofRow := set_state (proof_row 50 (token "secret-A" 8) None (OpSwap 1)) Nut07.Spent.
Definition bob_row : SigRow := mkSigRow 7 "ks" (Some bob) None None 50 (Some 50) (Some (OpSwap 1)).

Lemma check_state_reports_witness :
  check_state [alice; bob] swapped = (Ok (map (report (w_store swapped)) [alice; bob]), swapped).
Proof.
  apply (check_state_reports [alice; bob] swapped); [|vm_compute; reflexivity].
  apply NoDup_cons. split; [|apply NoDup_singleton]. intros H. apply list_elem_of_singleton in H. discriminate H.
Defined.

Lemma repeated_key_reported_unspent_witness :
  fst (check_state [alice; alice] swapped) =
  Ok [Nut07.mkProofState _ alice Nut07.Spent None; Nut07.mkProofState _ alice Nut07.Unspent None].
Proof.
  apply (repeated_key_reported_unspent alice alice_row swapped); vm_compute; reflexivity.
Defined.

Lemma restore_returns_stored_witness : exists s,
  restore (swap_outputs request) swapped = (Ok [(blank bob 7, s)], swapped) /\ bs_amount s = 7.
Proof.
  exists (mkBlindSignature 7 "ks" bob None). split; [|reflexivity].
  apply (restore_returns_stored (swap_outputs request) [mkBlindSignature 7 "ks" bob None] swapped);
    [apply NoDup_singleton| |vm_compute; reflexivity].
  constructor; [|constructor]. eexists. split; [vm_compute; reflexivity|]. split; vm_compute; reflexivity.
Defined.

Definition swapped_db : Db := w_store swapped.

(** Two calls that cannot undo the swap. *)
Definition attempts : list (N * DbOp) :=
  [(60, OpUpdateProofsStates [alice] Nut07.Unspent); (61, OpRemoveProofs [alice]); (62, OpDeleteBlindedMessages [bob])].

Definition paid_quote : MeltQuote :=
  mkMeltQuote "m" Amount.Sat 5 (MBolt11 "lnbc") 1 Paid 600 (Some "preimage") None None 10 (Some 20) Bolt11.

Lemma settled_facts_are_permanent_witness :
  let d := set_melt_quote swapped_db {["m" := paid_quote]} in
  db_proof (run_ops attempts d) !! alice = Some alice_row /\ db_blind_signature (run_ops attempts d) !! bob = Some bob_row.
Proof.
  cbn zeta.
  destruct (settled_facts_are_permanent attempts (set_melt_quote swapped_db {["m" := paid_quote]}) alice alice_row bob
    bob_row "m" paid_quote) as (H1 & H2 & _); [vm_compute; reflexivity..| |vm_compute; reflexivity|vm_compute; reflexivity|].
  - exists bob. reflexivity.
  - split; [exact H1|exact H2].
Defined.

Definition ledger_calls : list (N * DbOp) :=
  [(10, OpAddMintQuote (mkMintQuote "q" (Some 8) Amount.Sat "lnbc" 600 (PCustomId "lookup") None 10 0 0 [] Bolt11 []));
   (11, OpIncrementPaid "q" 8 "payment-1"); (12, OpIncrementPaid "q" 8 "payment-1");
   (13, OpIncrementIssued "q" 5); (14, OpIncrementIssued "q" 5)].

Lemma mint_ledger_sound_witness : exists q,
  get_mint_quote "q" (run_ops ledger_calls empty_db) = Some q /\
  mq_amount_issued q <= mq_amount_paid q /\ amount_mintable q = Ok 3.
Proof.
  eexists. split; [vm_compute; reflexivity|].
  destruct (mint_ledger_sound ledger_calls "q" _ ltac:(vm_compute; reflexivity)) as (_ & _ & H3 & _ & H5).
  split; [exact H3|exact H5].
Defined.

End ConcreteQueries.
