(* ===== verification/Posts.v ===== *)
(** * Frame rules for state-passing computations

    [keeps R c] says that, whatever its outcome, the computation [c] moves the
    store along the relation [R]: a frame condition when [R] is the equality of
    some part of the store, a monotonicity condition when it is an order.  The
    rules follow the combinators of the monad [M], so that the condition of an
    operation follows from those of the calls it makes; the tactic [keep]
    applies them.  [avoids e c] says that [c] does not fail with the error [e],
    with rules of the same shape and the tactic [avoid]. *)
From stdpp Require Import base list.
From S2P Require Import Prelude.

Definition keeps {S E A} (R : relation S) (c : M S E A) : Prop := forall s, R s (snd (c s)).

Create HintDb keeps discriminated.

Section rules.
Context {S : Type} (R : relation S) {PO : PreOrder R}.

Lemma keeps_same {E A} (c : M S E A) : (forall s, snd (c s) = s) -> keeps R c.
Proof. intros H s. by rewrite H. Qed.

Lemma keeps_ret {E A} (a : A) : keeps R (mret a : M S E A).
Proof. by apply keeps_same. Qed.
Lemma keeps_fail {E A} (e : E) : keeps R (mfail e : M S E A).
Proof. by apply keeps_same. Qed.
Lemma keeps_panic {E A} : keeps R (mpanic : M S E A).
Proof. by apply keeps_same. Qed.
Lemma keeps_lift {E A} (r : res E A) : keeps R (mlift r : M S E A).
Proof. by apply keeps_same. Qed.
Lemma keeps_gets {E A} (f : S -> A) : keeps R (mgets f : M S E A).
Proof. by apply keeps_same. Qed.

Lemma keeps_seq {E A B} (c : M S E A) (k : A -> M S E B) :
  keeps R c -> (forall a, keeps R (k a)) -> keeps R (mseq c k).
Proof.
  intros Hc Hk s. specialize (Hc s). unfold mseq. destruct (c s) as [[a| |] s1]; cbn in *; [|done..].
  etrans; [done|apply Hk].
Qed.

Lemma keeps_map_err {E F A} (f : E -> F) (c : M S E A) : keeps R c -> keeps R (mmap_err f c).
Proof. intros Hc s. apply Hc. Qed.

Lemma keeps_try {E F A} (c : M S E A) : keeps R c -> keeps R (mtry (F:=F) c).
Proof. intros Hc s. specialize (Hc s). unfold mtry. by destruct (c s) as [[]]. Qed.

Lemma keeps_for {E A} (f : A -> M S E unit) (l : list A) : (forall a, keeps R (f a)) -> keeps R (mfor f l).
Proof. intros Hf. induction l as [|a l IH]; cbn; [apply keeps_ret|]. by apply keeps_seq. Qed.

End rules.

(** A weaker relation, and the pullback along a part of the store. *)
Lemma keeps_weaken {S E A} (R R' : relation S) (c : M S E A) : (forall s s', R s s' -> R' s s') -> keeps R c -> keeps R' c.
Proof. intros H Hc s. apply H, Hc. Qed.

Lemma keeps_run {S E A} (R : relation S) (c : M S E A) s r s' : keeps R c -> c s = (r, s') -> R s s'.
Proof. intros Hc Hr. specialize (Hc s). by rewrite Hr in Hc. Qed.

Definition along {S T} (f : S -> T) (R : relation T) : relation S := fun s s' => R (f s) (f s').

#[export] Instance along_preorder {S T} (f : S -> T) (R : relation T) : PreOrder R -> PreOrder (along f R).
Proof. intros [Hr Ht]. split; [intros s; apply Hr|intros s1 s2 s3; apply Ht]. Qed.

#[export] Hint Resolve keeps_ret keeps_fail keeps_panic keeps_lift keeps_gets : keeps.
#[export] Hint Resolve keeps_map_err keeps_try : keeps.

(** Follow the structure of a computation down to the calls it makes. *)
Ltac keep :=
  repeat first
    [ progress intros
    | progress cbv beta zeta
    | solve [auto with keeps typeclass_instances]
    | apply keeps_seq
    | apply keeps_map_err
    | apply keeps_try
    | apply keeps_for
    | match goal with |- keeps _ (match ?x with _ => _ end) => destruct x end ].

(** The outcomes of a sequence. *)
Lemma seq_run {S E A B} (c : M S E A) (k : A -> M S E B) s r s' :
  mseq c k s = (r, s') ->
  (exists a s1, c s = (Ok a, s1) /\ k a s1 = (r, s')) \/
  (exists e, c s = (Err e, s') /\ r = Err e) \/ (c s = (Panic, s') /\ r = Panic).
Proof. unfold mseq. destruct (c s) as [[a|e|] s1]; intros H; simplify_eq; eauto 10. Qed.

Lemma seq_regroup {S E A B C} (a : M S E A) (b : A -> M S E B) (c : B -> M S E C) s :
  mseq a (fun x => mseq (b x) c) s = mseq (mseq a b) c s.
Proof. unfold mseq. by destruct (a s) as [[] ?]. Qed.

(** ** Errors that a computation does not return *)

Definition avoids {S E A} (e : E) (c : M S E A) : Prop := forall s, fst (c s) <> Err e.

Create HintDb avoids discriminated.

Section rules.
Context {S E : Type} (e : E).

Lemma avoids_ret {A} (a : A) : avoids e (mret a : M S E A).
Proof. done. Qed.
Lemma avoids_fail {A} (e' : E) : e' <> e -> avoids e (mfail e' : M S E A).
Proof. intros H s. cbn. congruence. Qed.
Lemma avoids_panic {A} : avoids e (mpanic : M S E A).
Proof. done. Qed.
Lemma avoids_lift {A} (r : res E A) : r <> Err e -> avoids e (mlift r : M S E A).
Proof. by intros H s. Qed.

(** The continuation is run on a result of the first computation. *)
Lemma avoids_seq_run {A B} (c : M S E A) (k : A -> M S E B) :
  avoids e c -> (forall a s s', c s = (Ok a, s') -> avoids e (k a)) -> avoids e (mseq c k).
Proof.
  intros Hc Hk s. specialize (Hc s). unfold mseq. destruct (c s) as [[a|e'|] s1] eqn:H; cbn in *; [|congruence..].
  by apply (Hk a s s1).
Qed.
Lemma avoids_seq {A B} (c : M S E A) (k : A -> M S E B) :
  avoids e c -> (forall a, avoids e (k a)) -> avoids e (mseq c k).
Proof. intros Hc Hk. by apply avoids_seq_run. Qed.

Lemma avoids_for {A} (f : A -> M S E unit) (l : list A) : (forall a, avoids e (f a)) -> avoids e (mfor f l).
Proof. intros Hf. induction l as [|a l IH]; cbn; [done|]. by apply avoids_seq. Qed.

Lemma avoids_map_err {F A} (f : F -> E) (c : M S F A) : (forall e', f e' <> e) -> avoids e (mmap_err f c).
Proof. intros Hf s. unfold mmap_err. cbn. destruct (fst (c s)); cbn; congruence. Qed.

Lemma avoids_try {F A} (c : M S F A) : avoids e (mtry (F:=E) c).
Proof. intros s. unfold mtry. by destruct (c s) as [[]]. Qed.

End rules.

Lemma ok_or_avoids {E A} (e e' : E) (o : option A) : e' <> e -> ok_or e' o <> Err e.
Proof. destruct o; cbn; congruence. Qed.
Lemma map_err_avoids {E F A} (f : F -> E) (e : E) (r : res F A) : (forall e', f e' <> e) -> map_err f r <> Err e.
Proof. intros Hf. destruct r; cbn; congruence. Qed.
Lemma ensure_avoids {E} (b : bool) (e e' : E) : e' <> e -> ensure b e' <> Err e.
Proof. destruct b; cbn; congruence. Qed.
Lemma collect_avoids {E A B} (f : A -> res E B) (e : E) l : (forall a, f a <> Err e) -> collect f l <> Err e.
Proof. intros Hf. induction l as [|a l IH]; cbn; [done|]. specialize (Hf a). destruct (f a), (collect f l); congruence. Qed.

#[export] Hint Resolve avoids_ret avoids_panic avoids_try : avoids.
#[export] Hint Extern 1 (avoids _ (mfail _)) => apply avoids_fail; discriminate : avoids.
#[export] Hint Extern 1 (avoids _ (mmap_err _ _)) => apply avoids_map_err; discriminate : avoids.
#[export] Hint Extern 1 (avoids _ (mlift (ok_or _ _))) => apply avoids_lift, ok_or_avoids; discriminate : avoids.
#[export] Hint Extern 1 (avoids _ (mlift (map_err _ _))) => apply avoids_lift, map_err_avoids; discriminate : avoids.
#[export] Hint Extern 1 (avoids _ (mlift (ensure _ _))) => apply avoids_lift, ensure_avoids; discriminate : avoids.

Ltac avoid :=
  repeat first
    [ progress intros
    | progress cbv beta zeta
    | solve [auto with avoids]
    | apply avoids_for
    | apply avoids_seq
    | match goal with |- avoids _ (match ?x with _ => _ end) => destruct x end ].
