(* ===== verification/Auth.v ===== *)
(** * Authentication at the mint (NUT-21 and NUT-22)

    Endpoints of the mint can be protected: a request then needs a clear
    token (a JWT of an OpenID provider) or a blind token (a proof of one
    [Auth] unit, which can be used once).  The definitions are those of
    crates/cashu/src/nuts/auth, crates/cdk/src/oidc_client.rs,
    crates/cdk/src/mint/auth/mod.rs, mint/issue/auth.rs, mint/keysets/auth.rs,
    the authentication database of crates/cdk-sql-common/src/mint/auth, and the
    configuration of it in crates/cdk-mintd/src/lib.rs.

    The database is the one of SQLite: a statement that fails leaves the
    transaction open.  Each statement takes one boolean from the schedule of
    faults, since some methods go on after a failed statement. *)
From Stdlib Require Import Ascii.
From stdpp Require Import base numbers list strings gmap.
From S2P Require Import Prelude Amount Nuts KeysetId Conditions States MintDb Mint Keysets.

Local Open Scope N_scope.
Local Open Scope res_scope.
Local Open Scope mint_scope.

Module Nut21.

Inductive Method := Get | Post.

Inductive RoutePath :=
| MintQuoteBolt11
| MintBolt11
| MeltQuoteBolt11
| MeltBolt11
| Swap
| Checkstate
| Restore
| MintBlindAuth
| MintQuoteBolt12
| MintBolt12
| MeltQuoteBolt12
| MeltBolt12
| Ws.

Record ProtectedEndpoint := mkEndpoint { pe_method : Method; pe_path : RoutePath }.

(** The names of [serde], which [Display] prints. *)
Definition route_to_string (path : RoutePath) : string :=
  match path with
  | MintQuoteBolt11 => "/v1/mint/quote/bolt11"
  | MintBolt11 => "/v1/mint/bolt11"
  | MeltQuoteBolt11 => "/v1/melt/quote/bolt11"
  | MeltBolt11 => "/v1/melt/bolt11"
  | Swap => "/v1/swap"
  | Checkstate => "/v1/checkstate"
  | Restore => "/v1/restore"
  | MintBlindAuth => "/v1/auth/blind/mint"
  | MintQuoteBolt12 => "/v1/mint/quote/bolt12"
  | MintBolt12 => "/v1/mint/bolt12"
  | MeltQuoteBolt12 => "/v1/melt/quote/bolt12"
  | MeltBolt12 => "/v1/melt/bolt12"
  | Ws => "/v1/ws"
  end.

Definition method_to_string (m : Method) : string := match m with Get => "GET" | Post => "POST" end.

(** [RoutePath::iter()]. *)
Definition route_iter : list RoutePath :=
  [MintQuoteBolt11; MintBolt11; MeltQuoteBolt11; MeltBolt11; Swap; Checkstate; Restore; MintBlindAuth;
   MintQuoteBolt12; MintBolt12; MeltQuoteBolt12; MeltBolt12; Ws].

Definition endpoint_iter : list ProtectedEndpoint :=
  (mkEndpoint Get <$> route_iter) ++ (mkEndpoint Post <$> route_iter).

#[global] Instance Method_eq_dec : EqDecision Method.
Proof. solve_decision. Defined.
#[global] Instance RoutePath_eq_dec : EqDecision RoutePath.
Proof. solve_decision. Defined.
#[global] Instance ProtectedEndpoint_eq_dec : EqDecision ProtectedEndpoint.
Proof. solve_decision. Defined.

(** The JSON of an endpoint and of what it requires, as [serde_json] prints it. *)
Definition quoted (s : string) : string := (String "034" s ++ String "034" EmptyString)%string.

Definition endpoint_to_json (e : ProtectedEndpoint) : string :=
  ("{" ++ quoted "method" ++ ":" ++ quoted (method_to_string (pe_method e)) ++ "," ++
   quoted "path" ++ ":" ++ quoted (route_to_string (pe_path e)) ++ "}")%string.

(** Reading: the printed forms are the only ones that are ever stored. *)
Definition endpoint_from_json (s : string) : option ProtectedEndpoint :=
  list_find (fun e => endpoint_to_json e = s) endpoint_iter ≫= fun ie => Some ie.2.

#[global] Instance ProtectedEndpoint_countable : Countable ProtectedEndpoint.
Proof.
  refine (inj_countable endpoint_to_json endpoint_from_json _).
  intros [[] []]; vm_compute; reflexivity.
Defined.

End Nut21.
Import Nut21.

(** The crate [regex]. *)
Class RegexLib := {
  regex : Type;
  regex_from_str : string -> option regex;
  is_match : regex -> string -> bool;
}.

Module Nut21Settings.
Section defs.
Context {RX : RegexLib}.

Inductive Error := InvalidRegex (pattern : string).

Definition matching_route_paths (pattern : string) : res Error (list RoutePath) :=
  let? re := ok_or (InvalidRegex pattern) (regex_from_str pattern) in
  Ok (filter (fun path => is_match re (route_to_string path) = true) route_iter).

(** The loop of both [deserialize] functions, over a [HashSet]. *)
Fixpoint expand_endpoints (raw : list (Method * string)) (acc : gset ProtectedEndpoint)
    : res Error (gset ProtectedEndpoint) :=
  match raw with
  | [] => Ok acc
  | (method, path) :: raw' =>
      let? expanded_paths := matching_route_paths path in
      expand_endpoints raw' (list_to_set (mkEndpoint method <$> expanded_paths) ∪ acc)
  end.

Record Settings21 := mkSettings21 {
  openid_discovery : string;
  s_client_id : string;
  s21_endpoints : list ProtectedEndpoint;
}.

Record Settings22 := mkSettings22 {
  bat_max_mint : N;
  s22_endpoints : list ProtectedEndpoint;
}.

Definition settings21_deserialize (discovery client : string) (raw : list (Method * string)) : res Error Settings21 :=
  let? endpoints := expand_endpoints raw ∅ in
  Ok (mkSettings21 discovery client (elements endpoints)).

Definition settings22_deserialize (max : N) (raw : list (Method * string)) : res Error Settings22 :=
  let? endpoints := expand_endpoints raw ∅ in
  Ok (mkSettings22 max (elements endpoints)).

End defs.
End Nut21Settings.
Import Nut21Settings.

Module Nut22.

Inductive AuthRequired := Clear | Blind.

Definition auth_to_json (a : AuthRequired) : string :=
  match a with Clear => quoted "Clear" | Blind => quoted "Blind" end.
Definition auth_from_json (s : string) : option AuthRequired :=
  if String.eqb s (quoted "Clear") then Some Clear
  else if String.eqb s (quoted "Blind") then Some Blind else None.

#[global] Instance AuthRequired_eq_dec : EqDecision AuthRequired.
Proof. solve_decision. Defined.

Section data.
Context {CR : Crypto}.
Import Nut00.

Record AuthProof := mkAuthProof {
  ap_keyset_id : Id;
  ap_secret : string;
  ap_c : pubkey;
  ap_dleq : option ProofDleq;
}.

Record BlindAuthToken := mkBlindAuthToken { auth_proof : AuthProof }.

Inductive AuthToken :=
| ClearAuth (cat : string)
| BlindAuth (bat : BlindAuthToken).

Definition auth_y (p : AuthProof) : res Dhke.Error pubkey := Dhke.hash_to_curve (ap_secret p).

(** [From<AuthProof> for Proof] and back. *)
Definition proof_of_auth (p : AuthProof) : Proof :=
  mkProof 1 (ap_keyset_id p) (ap_secret p) (ap_c p) None (ap_dleq p).
Definition auth_of_proof (p : Proof) : AuthProof :=
  mkAuthProof (keyset_id p) (secret p) (c p) (dleq p).

Definition without_dleq (t : BlindAuthToken) : BlindAuthToken :=
  let p := auth_proof t in mkBlindAuthToken (mkAuthProof (ap_keyset_id p) (ap_secret p) (ap_c p) None).

Definition header_key (t : AuthToken) : string :=
  match t with ClearAuth _ => "Clear-auth" | BlindAuth _ => "Blind-auth" end.

Record MintAuthRequest := mkMintAuthRequest { ma_outputs : list BlindedMessage }.
Definition ma_amount (r : MintAuthRequest) : N := N.of_nat (length (ma_outputs r)).

End data.
End Nut22.
Import Nut22.

(** [serde_json] on an [AuthProof], base64 with the URL-safe alphabet and
    padding, and whether bytes are UTF-8. *)
Class AuthCodec (CR : Crypto) := {
  proof_to_json : AuthProof -> string;
  proof_from_json : string -> option AuthProof;
  url_safe_encode : string -> string;
  url_safe_decode : string -> option string;
  utf8 : string -> bool;
}.

Class AuthCodecLaws (CR : Crypto) (AC : AuthCodec CR) : Prop := {
  proof_json_roundtrip p : proof_from_json (proof_to_json p) = Some p;
  proof_json_utf8 p : utf8 (proof_to_json p) = true;
  url_safe_roundtrip s : url_safe_decode (url_safe_encode s) = Some s;
}.

Module TokenText.
Section defs.
Context {CR : Crypto} {AC : AuthCodec CR}.

Inductive Error := InvalidPrefix | Base64Error | Utf8ParseError | SerdeJsonError.

Fixpoint strip_prefix (p s : string) : option string :=
  match p, s with
  | EmptyString, _ => Some s
  | String a p', String b s' => if Ascii.eqb a b then strip_prefix p' s' else None
  | _, _ => None
  end.

Definition bat_to_string (t : BlindAuthToken) : string := ("authA" ++ url_safe_encode (proof_to_json (auth_proof t)))%string.

Definition bat_from_str (s : string) : res Error BlindAuthToken :=
  let? encoded := ok_or InvalidPrefix (strip_prefix "authA" s) in
  let? json_string := ok_or Base64Error (url_safe_decode encoded) in
  let? _ := ensure (utf8 json_string) Utf8ParseError in
  let? p := ok_or SerdeJsonError (proof_from_json json_string) in
  Ok (mkBlindAuthToken p).

Definition token_to_string (t : AuthToken) : string :=
  match t with ClearAuth cat => cat | BlindAuth bat => bat_to_string bat end.

End defs.
End TokenText.
Import TokenText.

(** [jsonwebtoken]: headers, key sets and the verification of a token.  The
    algorithm of a key is what [AlgorithmParameters] distinguishes. *)
Inductive KeyAlgorithm := RSA (n e : string) | EllipticCurve (x y : string) | OtherAlgorithm.

Class OidcLib := {
  jwt_alg : Type;
  jwk_set : Type;
  decoding_key : Type;
  (** the key id and the algorithm in the header of a token *)
  decode_header : string -> option (option string * jwt_alg);
  (** the algorithm parameters of the key of the set with an id *)
  jwks_find : jwk_set -> string -> option KeyAlgorithm;
  from_rsa_components : string -> string -> option decoding_key;
  from_ec_components : string -> string -> option decoding_key;
  (** [decode] with a [Validation] of an algorithm, an issuer and a clock:
      expiry is checked, the audience is not.  A claim that is not a string
      is [None]. *)
  jwt_decode : string -> decoding_key -> jwt_alg -> string -> N -> option (gmap string (option string));
}.

Module Oidc.
Section defs.
Context {OL : OidcLib}.

Inductive Error :=
| Reqwest
| Jwt
| MissingKidHeader
| UnsupportedSigningAlgo
| InvalidClientId.

Record OidcConfig := mkOidcConfig { jwks_uri : string; issuer : string; token_endpoint : string }.

(** The client with what it has fetched so far. *)
Record OidcClient := mkOidcClient {
  oc_discovery : string;
  oc_client_id : option string;
  oc_config : option OidcConfig;
  oc_jwks : option jwk_set;
}.

Definition OidcClient_new (discovery : string) (client_id : option string) : OidcClient :=
  mkOidcClient discovery client_id None None.

(** What the provider answers during one call: its configuration, and the key
    set for the first and the second time it is asked. *)
Record Provider := mkProvider {
  fetch_config : string -> option OidcConfig;
  fetch_jwks : nat -> string -> option jwk_set;
}.

Definition Ot (A : Type) : Type := M OidcClient Error A.

Definition get_oidc_config (net : Provider) : Ot OidcConfig :=
  do c <- mgets (fun c => c) ;
  do config <- mlift (ok_or Reqwest (fetch_config net (oc_discovery c))) ;
  do_ mmodify (fun c => mkOidcClient (oc_discovery c) (oc_client_id c) (Some config) (oc_jwks c)) ;
  mret config.

Definition get_jwkset (net : Provider) (time : nat) (uri : string) : Ot jwk_set :=
  do set <- mlift (ok_or Reqwest (fetch_jwks net time uri)) ;
  do_ mmodify (fun c => mkOidcClient (oc_discovery c) (oc_client_id c) (oc_config c) (Some set)) ;
  mret set.

Definition decoding_key_of (jwk : KeyAlgorithm) : res Error decoding_key :=
  match jwk with
  | RSA n e => ok_or Jwt (from_rsa_components n e)
  | EllipticCurve x y => ok_or Jwt (from_ec_components x y)
  | OtherAlgorithm => Err UnsupportedSigningAlgo
  end.

(** The client id of a token is compared when the client has one: the claim
    [client_id], or [azp] when there is no such claim; a claim that is not a
    string passes. *)
Definition check_client_id (client_id : option string) (claims : gmap string (option string)) : res Error unit :=
  match client_id with
  | None => Ok tt
  | Some id =>
      match claims !! "client_id" with
      | Some (Some v) => ensure (String.eqb v id) InvalidClientId
      | Some None => Ok tt
      | None =>
          match claims !! "azp" with
          | Some (Some v) => ensure (String.eqb v id) InvalidClientId
          | _ => Ok tt
          end
      end
  end.

Definition verify_cat (net : Provider) (now : N) (cat_jwt : string) : Ot unit :=
  do header <- mlift (ok_or Jwt (decode_header cat_jwt)) ;
  let '(kid, alg) := header in
  do kid <- mlift (ok_or MissingKidHeader kid) ;
  do cached <- mgets oc_config ;
  do config <- (match cached with Some config => mret config | None => get_oidc_config net end) ;
  do cached <- mgets oc_jwks ;
  do jwks <- (match cached with Some set => mret set | None => get_jwkset net 0 (jwks_uri config) end) ;
  do jwk <- (match jwks_find jwks kid with
             | Some jwk => mret jwk
             | None =>
                 do refreshed <- get_jwkset net 1 (jwks_uri config) ;
                 mlift (ok_or MissingKidHeader (jwks_find refreshed kid))
             end) ;
  do key <- mlift (decoding_key_of jwk) ;
  do claims <- mlift (ok_or Jwt (jwt_decode cat_jwt key alg (issuer config) now)) ;
  do client_id <- mgets oc_client_id ;
  mlift (check_client_id client_id claims).

End defs.
End Oidc.
Import Oidc.

Module AuthDb.
Import Nut00 KeysetId MintDb Keysets.

Section defs.
Context {CR : Crypto} {OL : OidcLib}.

Record AuthProofRow := mkAuthProofRow {
  ar_keyset_id : Id;
  ar_secret : string;
  ar_c : pubkey;
  ar_state : Nut07.State;
}.

(** The table has no columns for amounts and fee, and its last column is not
    null. *)
Record AuthKeysetRow := mkAuthKeysetRow {
  kk_unit : string;
  kk_active : bool;
  kk_valid_from : N;
  kk_valid_to : option N;
  kk_derivation_path : DerivationPath;
  kk_max_order : N;
  kk_derivation_path_index : N;
}.

Record AuthSigRow := mkAuthSigRow { as_amount : N; as_keyset_id : Id; as_c : pubkey }.

Record AuthDb := mkAuthDb {
  at_proof : gmap pubkey AuthProofRow;
  at_keyset : gmap string AuthKeysetRow;
  at_blind_signature : gmap pubkey AuthSigRow;
  at_protected : gmap string string;
}.

Definition empty_auth_db : AuthDb := mkAuthDb ∅ ∅ ∅ ∅.

Definition set_at_proof (d : AuthDb) p := mkAuthDb p (at_keyset d) (at_blind_signature d) (at_protected d).
Definition set_at_keyset (d : AuthDb) k := mkAuthDb (at_proof d) k (at_blind_signature d) (at_protected d).
Definition set_at_sig (d : AuthDb) s := mkAuthDb (at_proof d) (at_keyset d) s (at_protected d).
Definition set_at_protected (d : AuthDb) p := mkAuthDb (at_proof d) (at_keyset d) (at_blind_signature d) p.

(** What the mint keeps for authentication: whether there is a database, its
    committed tables, those of the open transaction, the schedule of faults,
    and the OpenID client. *)
Record AWorld := mkAWorld {
  a_local : bool;
  a_store : AuthDb;
  a_tx : AuthDb;
  a_faults : list bool;
  a_oidc : option OidcClient;
}.

Definition Sq (A : Type) : Type := M AWorld DbError A.

Definition with_faults (w : AWorld) f := mkAWorld (a_local w) (a_store w) (a_tx w) f (a_oidc w).
Definition with_tx (w : AWorld) t := mkAWorld (a_local w) (a_store w) t (a_faults w) (a_oidc w).
Definition with_store (w : AWorld) s := mkAWorld (a_local w) s (a_tx w) (a_faults w) (a_oidc w).
Definition with_oidc (w : AWorld) o := mkAWorld (a_local w) (a_store w) (a_tx w) (a_faults w) o.

Definition a_faulty {A} (c : Sq A) : Sq A :=
  fun w => match a_faults w with
           | true :: f => (Err Database, with_faults w f)
           | false :: f => c (with_faults w f)
           | [] => c w
           end.

(** A statement of the open transaction, and one outside any. *)
Definition stmt {A} (op : M AuthDb DbError A) : Sq A :=
  a_faulty (fun w => match op (a_tx w) with (r, t) => (r, with_tx w t) end).
Definition fetch {A} (f : AuthDb -> res DbError A) : Sq A := a_faulty (fun w => (f (a_store w), w)).

Definition a_begin : Sq unit := a_faulty (mmodify (fun w => with_tx w (a_store w))).
Definition a_commit : Sq unit := a_faulty (mmodify (fun w => with_store w (a_tx w))).

(** ** The transaction *)

Definition auth_set_active_keyset (id : KeyId) : Sq unit :=
  stmt (mmodify (fun d => set_at_keyset d (map_imap (fun k r => Some (mkAuthKeysetRow (kk_unit r)
    (String.eqb k (id_to_string id)) (kk_valid_from r) (kk_valid_to r) (kk_derivation_path r) (kk_max_order r)
    (kk_derivation_path_index r))) (at_keyset d)))).

Definition auth_add_keyset_info (i : MintKeySetInfo) : Sq unit :=
  stmt (do index <- mlift (ok_or Database (in_derivation_path_index i)) ;
        mmodify (fun d => set_at_keyset d (<[id_to_string (in_id i) :=
          mkAuthKeysetRow (unit_to_string (in_unit i)) (in_active i) (in_valid_from i) (in_final_expiry i)
            (in_derivation_path i) (in_max_order i) index]> (at_keyset d)))).

Definition insert_auth_proof (y : pubkey) (p : AuthProof) : M AuthDb DbError unit :=
  fun d => match at_proof d !! y with
           | Some _ => (Err Database, d)
           | None => (Ok tt, set_at_proof d (<[y := mkAuthProofRow (ap_keyset_id p) (ap_secret p) (ap_c p) Nut07.Unspent]>
                                               (at_proof d)))
           end.

(** An insert that fails, for whatever reason, is taken for a known proof. *)
Definition auth_add_proof (p : AuthProof) : Sq unit :=
  do y <- mlift (map_err NUT00 (auth_y p)) ;
  do_ mtry (stmt (insert_auth_proof y p)) ;
  mret tt.

Definition set_auth_state (st : Nut07.State) (r : AuthProofRow) : AuthProofRow :=
  mkAuthProofRow (ar_keyset_id r) (ar_secret r) (ar_c r) st.

(** [UPDATE .. WHERE state = :state AND y = :y]; a null state matches no row. *)
Definition update_state_where (y : pubkey) (current : option Nut07.State) (new : Nut07.State) : M AuthDb DbError unit :=
  mmodify (fun d => match current, at_proof d !! y with
                    | Some st, Some r => if decide (ar_state r = st)
                                         then set_at_proof d (<[y := set_auth_state new r]> (at_proof d)) else d
                    | _, _ => d
                    end).

Definition auth_update_proof_state (y : pubkey) (proofs_state : Nut07.State) : Sq (option Nut07.State) :=
  do current_state <- stmt (mgets (fun d => ar_state <$> at_proof d !! y)) ;
  do_ stmt (update_state_where y current_state proofs_state) ;
  mret current_state.

Fixpoint auth_add_blind_signatures (l : list (pubkey * BlindSignature)) : Sq unit :=
  match l with
  | [] => mret tt
  | (message, signature) :: l' =>
      do_ stmt (fun d => match at_blind_signature d !! message with
                         | Some _ => (Err Database, d)
                         | None => (Ok tt, set_at_sig d (<[message := mkAuthSigRow (bs_amount signature)
                                             (bs_keyset_id signature) (bs_c signature)]> (at_blind_signature d)))
                         end) ;
      auth_add_blind_signatures l'
  end.

(** Errors of single statements are skipped. *)
Fixpoint add_endpoint_rows (l : list (ProtectedEndpoint * AuthRequired)) : Sq unit :=
  match l with
  | [] => mret tt
  | (endpoint, auth) :: l' =>
      do_ mtry (stmt (mmodify (fun d => set_at_protected d
                                 (<[endpoint_to_json endpoint := auth_to_json auth]> (at_protected d))))) ;
      add_endpoint_rows l'
  end.
Definition add_protected_endpoints (endpoints : gmap ProtectedEndpoint AuthRequired) : Sq unit :=
  add_endpoint_rows (map_to_list endpoints).

Definition remove_protected_endpoints (endpoints : list ProtectedEndpoint) : Sq unit :=
  stmt (mmodify (fun d => set_at_protected d
         (filter (fun kv => kv.1 ∉ (endpoint_to_json <$> endpoints)) (at_protected d)))).

(** ** Reads *)

Definition auth_get_active_keyset_id : Sq (option string) :=
  fetch (fun d => Ok (fst <$> head (filter (fun kr => kk_active kr.2 = true) (map_to_list (at_keyset d))))).

(** Both select the columns [amounts] and [input_fee_ppk], which the table does
    not have; the second also leaves [:id] unbound. *)
Definition auth_get_keyset_info (id : KeyId) : Sq (option MintKeySetInfo) := fetch (fun _ => Err Database).
Definition auth_get_keyset_infos : Sq (list MintKeySetInfo) := fetch (fun _ => Err Database).

(** A repeated key is answered [None] the second time. *)
Fixpoint answer_states (states : gmap pubkey Nut07.State) (ys : list pubkey) : list (option Nut07.State) :=
  match ys with
  | [] => []
  | y :: ys' => (states !! y) :: answer_states (delete y states) ys'
  end.
Definition auth_get_proofs_states (ys : list pubkey) : Sq (list (option Nut07.State)) :=
  match ys with
  | [] => mret []
  | _ => fetch (fun d => Ok (answer_states (ar_state <$> filter (fun kr => kr.1 ∈ ys) (at_proof d)) ys))
  end.

(** The statement has a comma before [FROM]. *)
Definition auth_get_blind_signatures (messages : list pubkey) : Sq (list (option BlindSignature)) :=
  fetch (fun _ => Err Database).

Definition get_auth_for_endpoint (e : ProtectedEndpoint) : Sq (option AuthRequired) :=
  fetch (fun d => match at_protected d !! endpoint_to_json e with
                  | Some auth => let? a := ok_or Conversion (auth_from_json auth) in Ok (Some a)
                  | None => Ok None
                  end).

Definition read_endpoint_row (row : string * string) : res DbError (ProtectedEndpoint * option AuthRequired) :=
  let? endpoint := ok_or Conversion (endpoint_from_json row.1) in
  let? auth := ok_or Conversion (auth_from_json row.2) in
  Ok (endpoint, Some auth).
Definition get_auth_for_endpoints : Sq (gmap ProtectedEndpoint (option AuthRequired)) :=
  fetch (fun d => let? rows := collect read_endpoint_row (map_to_list (at_protected d)) in Ok (list_to_map rows)).

End defs.
End AuthDb.
Import AuthDb.

Module Auth.
Import Nut00 MintDb Mint.

Section defs.
Context {CR : Crypto} {SD : Serde} {SG : Signatory} {OL : OidcLib} {RX : RegexLib}.

Definition At (A : Type) : Type := M AWorld MError A.
Definition adb {A} (c : Sq A) : At A := mmap_err of_db_error c.

(** ** auth/mod.rs *)

Definition is_protected (endpoint : ProtectedEndpoint) : At (option AuthRequired) :=
  do local <- mgets a_local ;
  if local : bool then adb (get_auth_for_endpoint endpoint) else mret None.

(** [verify_cat] of the client of the mint; every error of it is
    [ClearAuthFailed]. *)
Definition verify_clear_auth (net : Provider) (now : N) (token : string) : At unit :=
  fun w => match a_oidc w with
           | None => (Err OidcNotSet, w)
           | Some client =>
               match verify_cat net now token client with
               | (r, client') => (map_err (fun _ => ClearAuthFailed) r, with_oidc w (Some client'))
               end
           end.

Definition verify_blind_auth (token : BlindAuthToken) : At unit :=
  mlift (signatory_verify_proofs [proof_of_auth (auth_proof token)]).

(** The previous state decides, after the new one is written; when it refuses,
    the transaction is dropped. *)
Definition check_blind_auth_proof_spendable (proof : AuthProof) : At unit :=
  do local <- mgets a_local ;
  if negb local then mfail MAmountKey else
  do y <- mlift (map_err MNUT22 (auth_y proof)) ;
  do_ adb a_begin ;
  do_ adb (auth_add_proof proof) ;
  do state <- adb (auth_update_proof_state y Nut07.Spent) ;
  do_ mlift (match state with
             | Some Nut07.Spent => Err TokenAlreadySpent
             | Some Nut07.Pending => Err TokenPending
             | _ => Ok tt
             end) ;
  adb a_commit.

Definition verify_auth (net : Provider) (now : N) (auth_token : option AuthToken) (endpoint : ProtectedEndpoint) : At unit :=
  do required <- is_protected endpoint ;
  match required with
  | None => mret tt
  | Some auth_required =>
      match auth_token with
      | None => mfail (match auth_required with Clear => ClearAuthRequired | Blind => BlindAuthRequired end)
      | Some token =>
          match auth_required, token with
          | Clear, ClearAuth cat => verify_clear_auth net now cat
          | Blind, BlindAuth bat =>
              do_ verify_blind_auth bat ;
              check_blind_auth_proof_spendable (auth_proof bat)
          | Blind, _ => mfail BlindAuthRequired
          | Clear, _ => mfail ClearAuthRequired
          end
      end
  end.

Definition auth_blind_sign (m : BlindedMessage) : At BlindSignature :=
  do sigs <- mlift (signatory_blind_sign [m]) ;
  mlift (ok_or MInternal (last sigs)).

(** ** The information of the mint (mint/mod.rs)

    [stored] is the information in the key-value table of the mint, as far as
    it concerns authentication. *)
Record AuthInfo := mkAuthInfo { nut21 : option Settings21; nut22 : option Settings22 }.

Definition endpoints_with (auth : AuthRequired) (endpoints : gmap ProtectedEndpoint (option AuthRequired))
    : list ProtectedEndpoint :=
  fst <$> filter (fun ea => ea.2 = Some auth) (map_to_list endpoints).

Definition mint_info (stored : res MError AuthInfo) : At AuthInfo :=
  do info <- mlift stored ;
  do local <- mgets a_local ;
  if local : bool then
    do auth_endpoints <- adb get_auth_for_endpoints ;
    mret (mkAuthInfo
      ((fun s => mkSettings21 (openid_discovery s) (s_client_id s) (endpoints_with Clear auth_endpoints)) <$> nut21 info)
      ((fun s => mkSettings22 (bat_max_mint s) (endpoints_with Blind auth_endpoints)) <$> nut22 info))
  else mret info.

(** [oidc_client] of [Mint::new_internal]. *)
Definition oidc_of_info (info : AuthInfo) : option OidcClient :=
  (fun s => OidcClient_new (openid_discovery s) (Some (s_client_id s))) <$> nut21 info.

(** ** issue/auth.rs *)

Fixpoint sign_auth_outputs (outputs : list BlindedMessage) : At (list BlindSignature) :=
  match outputs with
  | [] => mret []
  | m :: outputs' =>
      if negb (bm_amount m =? 1) then mfail MAmountKey else
      do s <- auth_blind_sign m ;
      do ss <- sign_auth_outputs outputs' ;
      mret (s :: ss)
  end.

Definition mint_blind_auth (net : Provider) (now : N) (stored : res MError AuthInfo) (auth_token : AuthToken)
    (r : MintAuthRequest) : At (list BlindSignature) :=
  match auth_token with
  | BlindAuth _ => mfail ClearAuthRequired
  | ClearAuth cat =>
      do_ verify_clear_auth net now cat ;
      do info <- mint_info stored ;
      do settings <- mlift (ok_or AuthSettingsUndefined (nut22 info)) ;
      if bat_max_mint settings <? ma_amount r
      then mfail (AmountOutofLimitRange 1 (bat_max_mint settings) (ma_amount r))
      else sign_auth_outputs (ma_outputs r)
  end.

(** ** keysets/auth.rs *)

Definition auth_pubkeys (keysets : Keysets) : res MError KeysetInfo :=
  ok_or MNoActiveKeyset (head (filter (fun k => ks_unit k = Amount.Auth) keysets)).

Definition auth_keysets (keysets : Keysets) : Keysets := filter (fun k => ks_unit k = Amount.Auth) keysets.

End defs.

(** ** Configuration (cdk-mintd) *)

Inductive AuthType := ATClear | ATBlind | ATNone.

Record AuthSettings := mkAuthSettings {
  cf_mint : AuthType;
  cf_get_mint_quote : AuthType;
  cf_check_mint_quote : AuthType;
  cf_melt : AuthType;
  cf_get_melt_quote : AuthType;
  cf_check_melt_quote : AuthType;
  cf_swap : AuthType;
  cf_restore : AuthType;
  cf_check_proof_state : AuthType;
  cf_websocket_auth : AuthType;
}.

(** The maps and vectors of [setup_authentication]. *)
Record EndpointLists := mkEndpointLists {
  el_protected : gmap ProtectedEndpoint AuthRequired;
  el_blind : list ProtectedEndpoint;
  el_clear : list ProtectedEndpoint;
  el_unprotected : list ProtectedEndpoint;
}.

Definition add_endpoint (l : EndpointLists) (ea : ProtectedEndpoint * AuthType) : EndpointLists :=
  let '(endpoint, auth_type) := ea in
  match auth_type with
  | ATBlind => mkEndpointLists (<[endpoint := Blind]> (el_protected l)) (el_blind l ++ [endpoint]) (el_clear l) (el_unprotected l)
  | ATClear => mkEndpointLists (<[endpoint := Clear]> (el_protected l)) (el_blind l) (el_clear l ++ [endpoint]) (el_unprotected l)
  | ATNone => mkEndpointLists (el_protected l) (el_blind l) (el_clear l) (el_unprotected l ++ [endpoint])
  end.

Definition configured (s : AuthSettings) : list (ProtectedEndpoint * AuthType) :=
  [(mkEndpoint Post MintQuoteBolt11, cf_get_mint_quote s);
   (mkEndpoint Get MintQuoteBolt11, cf_check_mint_quote s);
   (mkEndpoint Post MintBolt11, cf_mint s);
   (mkEndpoint Post MeltQuoteBolt11, cf_get_melt_quote s);
   (mkEndpoint Get MeltQuoteBolt11, cf_check_melt_quote s);
   (mkEndpoint Post MeltBolt11, cf_melt s);
   (mkEndpoint Post Swap, cf_swap s);
   (mkEndpoint Post Restore, cf_restore s);
   (mkEndpoint Post Checkstate, cf_check_proof_state s);
   (mkEndpoint Get Ws, cf_websocket_auth s)].

Definition setup_endpoints (s : AuthSettings) : EndpointLists :=
  fold_left add_endpoint (configured s)
    (mkEndpointLists {[mkEndpoint Post MintBlindAuth := Clear]} [] [mkEndpoint Post MintBlindAuth] []).

Definition setup_authentication {CR : Crypto} {OL : OidcLib} (s : AuthSettings) : Sq unit :=
  let l := setup_endpoints s in
  do_ a_begin ;
  do_ remove_protected_endpoints (el_unprotected l) ;
  do_ add_protected_endpoints (el_protected l) ;
  a_commit.

End Auth.
