(* ===== verification/Http.v ===== *)
(** * The HTTP interface of the mint (crates/cdk-axum)

    Error codes and status codes (cdk-common/src/error.rs), the reading of the
    authentication headers, the request handlers with their checks, and the
    cache of answers.  A handler runs over a [Server]: the state of
    authentication, the database of the mint and the cache.  [Env] is what a
    request finds besides: the clock, the provider of clear tokens, the
    keysets in memory and a fresh operation id.  [Json] is the form of a
    request or answer that [serde_json] prints and reads.  An entry leaves the
    cache when its time is over; this happens between requests and is not an
    operation of the code. *)
From Stdlib Require Import Ascii.
From stdpp Require Import base numbers list strings gmap.
From S2P Require Import Prelude Amount Nuts Conditions Spending States MintDb Mint Swap Issue Melt Keysets Auth.
Import Nut21 Nut22 TokenText Oidc AuthDb.

Local Open Scope N_scope.
Local Open Scope res_scope.
Local Open Scope mint_scope.

Module ErrorCodes.

Inductive ErrorCode :=
| TokenAlreadySpent
| TokenPending
| QuoteNotPaid
| QuoteExpired
| QuotePending
| KeysetNotFound
| KeysetInactive
| BlindedMessageAlreadySigned
| UnsupportedUnit
| TokensAlreadyIssued
| MintingDisabled
| InvoiceAlreadyPaid
| TokenNotVerified
| LightningError
| TransactionUnbalanced
| AmountOutofLimitRange
| WitnessMissingOrInvalid
| DuplicateInputs
| DuplicateOutputs
| MultipleUnits
| UnitMismatch
| ClearAuthRequired
| ClearAuthFailed
| BlindAuthRequired
| BlindAuthFailed
| DuplicateSignature
| Unknown (code : N).

Definition from_code (code : N) : ErrorCode :=
  match code with
  | 10002 => BlindedMessageAlreadySigned
  | 10003 => TokenNotVerified
  | 11001 => TokenAlreadySpent
  | 11002 => TransactionUnbalanced
  | 11005 => UnsupportedUnit
  | 11006 => AmountOutofLimitRange
  | 11007 => DuplicateInputs
  | 11008 => DuplicateOutputs
  | 11009 => MultipleUnits
  | 11010 => UnitMismatch
  | 11012 => TokenPending
  | 12001 => KeysetNotFound
  | 12002 => KeysetInactive
  | 20000 => LightningError
  | 20001 => QuoteNotPaid
  | 20002 => TokensAlreadyIssued
  | 20003 => MintingDisabled
  | 20005 => QuotePending
  | 20006 => InvoiceAlreadyPaid
  | 20007 => QuoteExpired
  | 20008 => WitnessMissingOrInvalid
  | 20009 => DuplicateSignature
  | 30001 => ClearAuthRequired
  | 30002 => ClearAuthFailed
  | 31001 => BlindAuthRequired
  | 31002 => BlindAuthFailed
  | _ => Unknown code
  end.

Definition to_code (self : ErrorCode) : N :=
  match self with
  | BlindedMessageAlreadySigned => 10002
  | TokenNotVerified => 10003
  | TokenAlreadySpent => 11001
  | TransactionUnbalanced => 11002
  | UnsupportedUnit => 11005
  | AmountOutofLimitRange => 11006
  | DuplicateInputs => 11007
  | DuplicateOutputs => 11008
  | MultipleUnits => 11009
  | UnitMismatch => 11010
  | TokenPending => 11012
  | KeysetNotFound => 12001
  | KeysetInactive => 12002
  | LightningError => 20000
  | QuoteNotPaid => 20001
  | TokensAlreadyIssued => 20002
  | MintingDisabled => 20003
  | QuotePending => 20005
  | InvoiceAlreadyPaid => 20006
  | QuoteExpired => 20007
  | WitnessMissingOrInvalid => 20008
  | DuplicateSignature => 20009
  | ClearAuthRequired => 30001
  | ClearAuthFailed => 30002
  | BlindAuthRequired => 31001
  | BlindAuthFailed => 31002
  | Unknown code => code
  end.

Definition map_nut11_error (e : Nut11.Error) : ErrorCode :=
  match e with
  | Nut11.SignaturesNotProvided | Nut11.InvalidSignature => WitnessMissingOrInvalid
  | Nut11.DuplicateSignature => DuplicateSignature
  | _ => Unknown 9999
  end.

Section defs.
Context {CR : Crypto}.

(** The code in [From<Error> for ErrorResponse]. *)
Definition error_code (e : Mint.MError) : ErrorCode :=
  match e with
  | Mint.TokenAlreadySpent => TokenAlreadySpent
  | Mint.UnsupportedUnit => UnsupportedUnit
  | Mint.PaymentFailed => LightningError
  | Mint.RequestAlreadyPaid => InvoiceAlreadyPaid
  | Mint.TransactionUnbalanced _ _ _ => TransactionUnbalanced
  | Mint.MintingDisabled => MintingDisabled
  | Mint.BlindedMessageAlreadySigned => BlindedMessageAlreadySigned
  | Mint.InsufficientFunds => TransactionUnbalanced
  | Mint.AmountOutofLimitRange _ _ _ => AmountOutofLimitRange
  | Mint.ExpiredQuote => QuoteExpired
  | Mint.PendingQuote => QuotePending
  | Mint.TokenPending => TokenPending
  | Mint.ClearAuthRequired => ClearAuthRequired
  | Mint.ClearAuthFailed => ClearAuthFailed
  | Mint.BlindAuthRequired => BlindAuthRequired
  | Mint.BlindAuthFailed => BlindAuthFailed
  | Mint.MNUT20 _ => WitnessMissingOrInvalid
  | Mint.DuplicateInputs => DuplicateInputs
  | Mint.DuplicateOutputs => DuplicateOutputs
  | Mint.MultipleUnits => MultipleUnits
  | Mint.UnitMismatch => UnitMismatch
  | Mint.UnpaidQuote => QuoteNotPaid
  | Mint.MNUT11 e => map_nut11_error e
  | Mint.DuplicateSignatureError => DuplicateSignature
  | _ => Unknown 9999
  end.

(** [From<ErrorResponse> for Error], at the wallet. *)
Definition error_of_response (code : ErrorCode) (detail : string) : Mint.MError :=
  match code with
  | TokenAlreadySpent => Mint.TokenAlreadySpent
  | QuoteNotPaid => Mint.UnpaidQuote
  | QuotePending => Mint.PendingQuote
  | QuoteExpired => Mint.ExpiredQuote
  | KeysetNotFound => Mint.UnknownKeySet
  | KeysetInactive => Mint.InactiveKeyset
  | BlindedMessageAlreadySigned => Mint.BlindedMessageAlreadySigned
  | UnsupportedUnit => Mint.UnsupportedUnit
  | TransactionUnbalanced => Mint.TransactionUnbalanced 0 0 0
  | MintingDisabled => Mint.MintingDisabled
  | InvoiceAlreadyPaid => Mint.RequestAlreadyPaid
  | TokenNotVerified => Mint.MDHKE Dhke.TokenNotVerified
  | LightningError => Mint.PaymentFailed
  | AmountOutofLimitRange => Mint.AmountOutofLimitRange 0 0 0
  | TokenPending => Mint.TokenPending
  | WitnessMissingOrInvalid => Mint.SignatureMissingOrInvalid
  | DuplicateInputs => Mint.DuplicateInputs
  | DuplicateOutputs => Mint.DuplicateOutputs
  | MultipleUnits => Mint.MultipleUnits
  | UnitMismatch => Mint.UnitMismatch
  | ClearAuthRequired => Mint.ClearAuthRequired
  | BlindAuthRequired => Mint.BlindAuthRequired
  | DuplicateSignature => Mint.DuplicateSignatureError
  | _ => Mint.UnknownErrorResponse detail
  end.

End defs.

Inductive StatusCode := BAD_REQUEST | UNAUTHORIZED | INTERNAL_SERVER_ERROR.

Definition status_of (code : ErrorCode) : StatusCode :=
  match code with
  | TokenAlreadySpent | TokenPending | QuoteNotPaid | QuoteExpired | QuotePending | KeysetNotFound | KeysetInactive
  | BlindedMessageAlreadySigned | UnsupportedUnit | TokensAlreadyIssued | MintingDisabled | InvoiceAlreadyPaid
  | TokenNotVerified | TransactionUnbalanced | AmountOutofLimitRange | WitnessMissingOrInvalid | DuplicateSignature
  | DuplicateInputs | DuplicateOutputs | MultipleUnits | UnitMismatch | ClearAuthRequired | BlindAuthRequired => BAD_REQUEST
  | ClearAuthFailed | BlindAuthFailed => UNAUTHORIZED
  | LightningError | Unknown _ => INTERNAL_SERVER_ERROR
  end.

End ErrorCodes.

(** What [serde_json] prints and reads of a type. *)
Class Json (A : Type) := {
  to_json : A -> option string;
  from_json : string -> option A;
}.

Module Http.
Import Nut00 Requests MintTypes MintDb Mint Swap Issue Melt Auth ErrorCodes.

Section defs.
Context {CR : Crypto} {SD : Serde} {SG : Signatory} {PY : Payments} {OG : Outgoing} {OL : OidcLib} {RX : RegexLib} {AC : AuthCodec CR}.
Context {JS : Json SwapRequest} {JM : Json MintRequest} {JL : Json MeltRequest} {JB : Json (list BlindSignature)} {JR : Json MeltResponse}.

Inductive Response :=
| ErrorResponse (status : StatusCode) (code : ErrorCode)
| Rejection (status : StatusCode) (message : string).

Definition into_response (e : MError) : Response := ErrorResponse (status_of (error_code e)) (error_code e).

Record Server := mkServer {
  sv_auth : AWorld;
  sv_mint : World;
  sv_cache : gmap string string;
}.

Record Env := mkEnv {
  env_now : N;
  env_net : Provider;
  env_keysets : Keysets;
  env_uuid : Uuid;
}.

Definition St (A : Type) : Type := M Server Response A.

Definition with_auth {A} (c : At A) : St A :=
  fun s => match c (sv_auth s) with (r, a) => (map_err into_response r, mkServer a (sv_mint s) (sv_cache s)) end.
Definition with_mint {A} (c : Mt A) : St A :=
  fun s => match c (sv_mint s) with (r, w) => (map_err into_response r, mkServer (sv_auth s) w (sv_cache s)) end.

(** ** auth.rs *)

Inductive AuthHeader :=
| HClear (token : string)
| HBlind (token : BlindAuthToken)
| HNone.

(** [From<AuthHeader> for Option<AuthToken>]. *)
Definition header_token (h : AuthHeader) : option AuthToken :=
  match h with HClear t => Some (ClearAuth t) | HBlind t => Some (BlindAuth t) | HNone => None end.

(** The value of each header, [Some None] when [to_str] refuses it. *)
Definition from_request_parts (blind clear : option (option string)) : res Response AuthHeader :=
  match blind with
  | Some bat =>
      let? token := ok_or (Rejection BAD_REQUEST "Invalid Blind-auth header value") bat in
      let? token := map_err (fun _ => Rejection BAD_REQUEST "Invalid Blind-auth header value") (bat_from_str token) in
      Ok (HBlind token)
  | None =>
      match clear with
      | Some cat => let? token := ok_or (Rejection BAD_REQUEST "Invalid Clear-auth header value") cat in Ok (HClear token)
      | None => Ok HNone
      end
  end.

Definition post_mint_auth (e : Env) (stored : res MError AuthInfo) (auth : AuthHeader) (payload : MintAuthRequest)
    : St (list BlindSignature) :=
  match auth with
  | HClear cat =>
      if String.eqb cat "" then mfail (into_response Mint.ClearAuthRequired)
      else with_auth (mint_blind_auth (env_net e) (env_now e) stored (ClearAuth cat) payload)
  | _ => mfail (into_response Mint.ClearAuthRequired)
  end.

(** ** router_handlers.rs and bolt12_router.rs *)

(** The check at the start of a handler. *)
Definition guard (e : Env) (auth : AuthHeader) (method : Method) (path : RoutePath) : St unit :=
  with_auth (verify_auth (env_net e) (env_now e) (header_token auth) (mkEndpoint method path)).

Definition post_mint_bolt11_quote (e : Env) (auth : AuthHeader) (ttl : N) (disabled : bool) (settings : option MethodSettings)
    (fresh_id : QuoteId) (unit : Amount.CurrencyUnit) (amount : option N) (description : option string) (pk : option pubkey)
    : St MintQuote :=
  do_ guard e auth Post MintQuoteBolt11 ;
  with_mint (create_mint_quote (env_now e) ttl disabled settings fresh_id unit amount description Bolt11 pk).

Definition post_mint_bolt12_quote (e : Env) (auth : AuthHeader) (ttl : N) (disabled : bool) (settings : option MethodSettings)
    (fresh_id : QuoteId) (unit : Amount.CurrencyUnit) (amount : option N) (description : option string) (pk : option pubkey)
    : St MintQuote :=
  do_ guard e auth Post MintQuoteBolt12 ;
  with_mint (create_mint_quote (env_now e) ttl disabled settings fresh_id unit amount description Bolt12 pk).

Definition get_check_mint_bolt11_quote (e : Env) (auth : AuthHeader) (quote_id : QuoteId) : St MintQuote :=
  do_ guard e auth Get MintQuoteBolt11 ;
  with_mint (check_mint_quote (env_now e) quote_id).

Definition get_check_mint_bolt12_quote (e : Env) (auth : AuthHeader) (quote_id : QuoteId) : St MintQuote :=
  do_ guard e auth Get MintQuoteBolt12 ;
  with_mint (check_mint_quote (env_now e) quote_id).

Definition post_mint_bolt11 (e : Env) (auth : AuthHeader) (payload : MintRequest) : St (list BlindSignature) :=
  do_ guard e auth Post MintBolt11 ;
  with_mint (process_mint_request (env_now e) (env_keysets e) (env_uuid e) payload).

Definition post_mint_bolt12 (e : Env) (auth : AuthHeader) (payload : MintRequest) : St (list BlindSignature) :=
  do_ guard e auth Post MintBolt12 ;
  with_mint (process_mint_request (env_now e) (env_keysets e) (env_uuid e) payload).

Definition post_melt_bolt11_quote (e : Env) (auth : AuthHeader) (ttl : N) (disabled : bool) (settings : option MeltMethodSettings)
    (mpp_supported : bool) (fresh_id : QuoteId) (request : string) (unit : Amount.CurrencyUnit) (options : option MeltOptions)
    : St MeltQuote :=
  do_ guard e auth Post MeltQuoteBolt11 ;
  with_mint (get_melt_bolt11_quote_impl (env_now e) ttl disabled settings mpp_supported fresh_id request unit options).

Definition post_melt_bolt12_quote (e : Env) (auth : AuthHeader) (ttl : N) (disabled : bool) (settings : option MeltMethodSettings)
    (mpp_supported : bool) (fresh_id : QuoteId) (request : string) (unit : Amount.CurrencyUnit) (options : option MeltOptions)
    : St MeltQuote :=
  do_ guard e auth Post MeltQuoteBolt12 ;
  with_mint (get_melt_bolt12_quote_impl (env_now e) ttl disabled settings mpp_supported fresh_id request unit options).

Definition get_check_melt_bolt11_quote (e : Env) (auth : AuthHeader) (quote_id : QuoteId) : St MeltResponse :=
  do_ guard e auth Get MeltQuoteBolt11 ;
  with_mint (check_melt_quote quote_id).

Definition post_melt_bolt11 (e : Env) (auth : AuthHeader) (payload : MeltRequest) : St MeltResponse :=
  do_ guard e auth Post MeltBolt11 ;
  with_mint (melt (env_now e) (env_keysets e) (env_uuid e) payload).

Definition post_melt_bolt12 (e : Env) (auth : AuthHeader) (payload : MeltRequest) : St MeltResponse :=
  do_ guard e auth Post MeltBolt12 ;
  with_mint (melt (env_now e) (env_keysets e) (env_uuid e) payload).

Definition post_check (e : Env) (auth : AuthHeader) (ys : list pubkey) : St (list Nut07.ProofState) :=
  do_ guard e auth Post Checkstate ;
  with_mint (check_state ys).

Definition post_swap (e : Env) (auth : AuthHeader) (payload : SwapRequest) : St (list BlindSignature) :=
  do_ guard e auth Post Nut21.Swap ;
  with_mint (process_swap_request (env_now e) (env_keysets e) (env_uuid e) payload).

Definition post_restore (e : Env) (auth : AuthHeader) (outputs : list BlindedMessage)
    : St (list (BlindedMessage * BlindSignature)) :=
  do_ guard e auth Post Restore ;
  with_mint (restore outputs).

(** ** cache/mod.rs *)

Definition MAX_PAYLOAD_SIZE : N := 10 * 1024 * 1024.

Definition calculate_key {K} `{Json K} (key : K) : option string :=
  match to_json key with
  | None => None
  | Some json =>
      if MAX_PAYLOAD_SIZE <? N.of_nat (String.length json) then None
      else Some (digest_bytes (sha256 (digest_bytes (sha256 json))))
  end.

Definition cache_get {V} `{Json V} (key : string) (cache : gmap string string) : option V := cache !! key ≫= from_json.

Definition cache_set {V} `{Json V} (key : string) (value : V) : St unit :=
  mmodify (fun s => match to_json value with
                    | Some bytes => mkServer (sv_auth s) (sv_mint s) (<[key := bytes]> (sv_cache s))
                    | None => s
                    end).

(** [post_cache_wrapper!]. *)
Definition cached {P R} `{Json P} `{Json R} (handler : AuthHeader -> P -> St R) (auth : AuthHeader) (payload : P) : St R :=
  match calculate_key payload with
  | None => handler auth payload
  | Some cache_key =>
      do found <- mgets (fun s => cache_get cache_key (sv_cache s)) ;
      match found with
      | Some cached_response => mret cached_response
      | None =>
          do response <- handler auth payload ;
          do_ cache_set cache_key response ;
          mret response
      end
  end.

Definition cache_post_swap (e : Env) := cached (post_swap e).
Definition cache_post_mint_bolt11 (e : Env) := cached (post_mint_bolt11 e).
Definition cache_post_mint_bolt12 (e : Env) := cached (post_mint_bolt12 e).
Definition cache_post_melt_bolt11 (e : Env) := cached (post_melt_bolt11 e).
Definition cache_post_melt_bolt12 (e : Env) := cached (post_melt_bolt12 e).

End defs.
End Http.
