(* ===== verification/AuthFacts.v ===== *)
(** * Authentication: theorems

    A blind token opens a protected endpoint once; what the configuration
    protects; what an accepted clear token has passed; what minting of blind
    tokens gives out; the text form of a token. *)
From Stdlib Require Import Ascii.
From stdpp Require Import base numbers list strings gmap.
From S2P Require Import Prelude Posts Amount Nuts KeysetId Bdhke Conditions States MintDb Mint MintFacts Keysets KeysetFacts Auth.
Import Nut21 Nut21Settings Nut22 TokenText Oidc AuthDb.

Local Open Scope N_scope.
Local Open Scope res_scope.
Local Open Scope mint_scope.

Module AuthFacts.
Import Nut00 Bdhke MintDb Mint MintFacts Keysets KeysetFacts Auth.

(** ** Stored forms *)

Lemma endpoint_json_inj e e' : endpoint_to_json e = endpoint_to_json e' -> e = e'.
Proof.
  intros H. apply (f_equal endpoint_from_json) in H.
  assert (Hr : forall x, endpoint_from_json (endpoint_to_json x) = Some x) by (intros [[] []]; vm_compute; reflexivity).
  rewrite !Hr in H. congruence.
Qed.

Lemma auth_json_roundtrip a : auth_from_json (auth_to_json a) = Some a.
Proof. by destruct a. Qed.

#[local] Strategy opaque [Dhke.hash_to_curve].
#[local] Arguments auth_y : simpl never.

Section facts.
Context {CR : Crypto} {SD : Serde} {SG : Signatory} {OL : OidcLib} {RX : RegexLib}.

(** ** Statements and faults *)

Definition fault (w : AWorld) : bool := default false (head (a_faults w)).
Definition next (w : AWorld) : AWorld := with_faults w (tail (a_faults w)).

Lemma a_faulty_run {A} (c : Sq A) w : a_faulty c w = if fault w then (Err Database, next w) else c (next w).
Proof. unfold a_faulty, fault, next. destruct w as [l s t [|[] f] o]; done. Qed.

Lemma next_parts w : a_local (next w) = a_local w /\ a_store (next w) = a_store w /\ a_tx (next w) = a_tx w /\ a_oidc (next w) = a_oidc w.
Proof. done. Qed.

(** What is required at an endpoint, as the tables have it. *)
Definition required (w : AWorld) (e : ProtectedEndpoint) (a : AuthRequired) : Prop :=
  a_local w = true /\ at_protected (a_store w) !! endpoint_to_json e = Some (auth_to_json a).

Lemma is_protected_run w e a : required w e a -> fault w = false -> is_protected e w = (Ok (Some a), next w).
Proof.
  intros [Hl Ha] Hf. unfold is_protected, mseq, mgets. rewrite Hl. cbn. unfold adb, mmap_err, get_auth_for_endpoint, fetch.
  rewrite a_faulty_run, Hf. cbn. rewrite Ha. cbn. by rewrite auth_json_roundtrip.
Qed.

Lemma is_protected_fault w e a : required w e a -> fault w = true -> is_protected e w = (Err (MDatabase Database), next w).
Proof.
  intros [Hl Ha] Hf. unfold is_protected, mseq, mgets. rewrite Hl. cbn. unfold adb, mmap_err, get_auth_for_endpoint, fetch.
  by rewrite a_faulty_run, Hf.
Qed.

(** ** The tables of one check of a blind token *)

Definition spent_in (d : AuthDb) (y : pubkey) : Prop := exists r, at_proof d !! y = Some r /\ ar_state r = Nut07.Spent.
Definition free_in (d : AuthDb) (y : pubkey) : Prop :=
  forall r, at_proof d !! y = Some r -> ar_state r <> Nut07.Spent /\ ar_state r <> Nut07.Pending.

(** The insert of a new proof was lost: the statement failed although there was
    no row. *)
Definition insert_lost (w : AWorld) : Prop := fault (next w) = true.

Lemma add_proof_run p y w : auth_y p = Ok y ->
  auth_add_proof p w = (Ok tt, with_tx (next w)
    (if fault w then a_tx w else match at_proof (a_tx w) !! y with
      | Some _ => a_tx w
      | None => set_at_proof (a_tx w) (<[y := mkAuthProofRow (ap_keyset_id p) (ap_secret p) (ap_c p) Nut07.Unspent]> (at_proof (a_tx w)))
      end)).
Proof.
  intros Hy. unfold auth_add_proof, mseq, mlift. rewrite Hy. cbn. unfold mtry, stmt. rewrite a_faulty_run.
  destruct (fault w); [by destruct w|]. cbn. unfold insert_auth_proof.
  destruct (at_proof (a_tx w) !! y); [by destruct w|done].
Qed.

Lemma auth_update_state_run y st w :
  auth_update_proof_state y st w =
    if fault w then (Err Database, next w) else if fault (next w) then (Err Database, next (next w)) else
    (Ok (ar_state <$> at_proof (a_tx w) !! y), with_tx (next (next w))
      (match at_proof (a_tx w) !! y with
       | Some r => set_at_proof (a_tx w) (<[y := set_auth_state st r]> (at_proof (a_tx w)))
       | None => a_tx w
       end)).
Proof.
  unfold auth_update_proof_state, mseq, stmt at 1. rewrite a_faulty_run. destruct (fault w); [done|]. cbn.
  assert (E : with_tx (next w) (a_tx w) = next w) by (by destruct w). rewrite E. unfold stmt. rewrite a_faulty_run.
  destruct (fault (next w)); [done|]. cbn. destruct (at_proof (a_tx w) !! y) as [r|] eqn:H; cbn; rewrite ?H; [|done].
  by rewrite decide_True.
Qed.

(** Accepted: the token was free and is spent now, unless the insert was lost;
    otherwise nothing is committed. *)
Lemma check_spendable_run p w r w' :
  check_blind_auth_proof_spendable p w = (r, w') ->
  (r = Ok tt /\ exists y, auth_y p = Ok y /\ free_in (a_store w) y /\
     at_protected (a_store w') = at_protected (a_store w) /\
     (forall y', y' <> y -> at_proof (a_store w') !! y' = at_proof (a_store w) !! y') /\
     (spent_in (a_store w') y \/ insert_lost w)) \/
  (r <> Ok tt /\ a_store w' = a_store w).
Proof.
  unfold check_blind_auth_proof_spendable, mseq at 1, mgets. destruct (a_local w) eqn:Hl; cbn [negb];
    [|intros [= <- <-]; by right].
  unfold mseq at 1, mlift at 1. destruct (auth_y p) as [y| |] eqn:Hy; cbn [map_err]; [|by intros [= <- <-]; right..].
  unfold mseq at 1, adb at 1, mmap_err at 1, a_begin. rewrite a_faulty_run.
  destruct (fault w) eqn:F0; cbn [fst snd map_err]; [intros [= <- <-]; by right|].
  unfold mmodify. cbn [fst snd map_err]. unfold mseq at 1, adb at 1, mmap_err at 1.
  rewrite (add_proof_run p y _ Hy). cbn [fst snd map_err].
  set (w1 := with_tx (next w) (a_store (next w))). change (fault w1) with (fault (next w)).
  change (a_tx w1) with (a_store w). set (t := if fault (next w) then a_store w else match at_proof (a_store w) !! y with
      | Some _ => a_store w
      | None => set_at_proof (a_store w) (<[y := mkAuthProofRow (ap_keyset_id p) (ap_secret p) (ap_c p) Nut07.Unspent]> (at_proof (a_store w)))
      end).
  unfold mseq at 1, adb at 1, mmap_err at 1. rewrite auth_update_state_run.
  set (w2 := with_tx (next w1) t). destruct (fault w2); cbn [fst snd map_err]; [intros [= <- <-]; by right|].
  destruct (fault (next w2)); cbn [fst snd map_err]; [intros [= <- <-]; by right|].
  change (a_tx w2) with t. unfold mseq at 1, mlift at 1.
  destruct (match ar_state <$> at_proof t !! y with
            | Some Nut07.Spent => Err TokenAlreadySpent | Some Nut07.Pending => Err TokenPending | _ => Ok tt end)
    as [[]| |] eqn:Hst; [|intros [= <- <-]; by right..].
  unfold adb, mmap_err, a_commit. rewrite a_faulty_run. destruct (fault (with_tx _ _)); cbn [fst snd map_err];
    [intros [= <- <-]; by right|]. intros [= <- <-]. left. split; [done|]. exists y. split; [done|].
  cbn [a_store with_store a_tx with_tx mmodify snd next with_faults]. subst t. unfold insert_lost.
  destruct (fault (next w)) eqn:F1.
  - destruct (at_proof (a_store w) !! y) as [row|] eqn:Hrow; cbn in Hst.
    + split; [intros r' Hr'; rewrite Hrow in Hr'; injection Hr' as <-; by destruct (ar_state row)|]. cbn. split; [done|]. split; [|by right].
      intros y' Hne. by rewrite lookup_insert_ne.
    + split; [intros r' Hr'; congruence|]. split; [done|]. split; [done|by right].
  - destruct (at_proof (a_store w) !! y) as [row|] eqn:Hrow; cbn in Hst.
    + rewrite Hrow in Hst. cbn in Hst. rewrite ?Hrow. split; [intros r' Hr'; rewrite Hrow in Hr'; injection Hr' as <-; by destruct (ar_state row)|]. cbn. split; [done|].
      split; [intros y' Hne; by rewrite lookup_insert_ne|]. left. eexists. cbn. rewrite lookup_insert_eq. eauto.
    + split; [intros r' Hr'; congruence|]. cbn. rewrite lookup_insert_eq. cbn. split; [done|].
      split; [intros y' Hne; by rewrite !lookup_insert_ne by done|]. left. eexists. cbn. rewrite lookup_insert_eq. eauto.
Qed.

Lemma clear_auth_store net now cat w : a_store (snd (verify_clear_auth net now cat w)) = a_store w.
Proof. unfold verify_clear_auth. destruct (a_oidc w); [|done]. by destruct (verify_cat _ _ _ _). Qed.

(** [verify_auth] where a blind token is required. *)
Lemma verify_blind_run net now t e w r w' : required w e Blind ->
  verify_auth net now t e w = (r, w') ->
  (r = Ok tt /\ exists bat, t = Some (BlindAuth bat) /\ signatory_verify_proofs [proof_of_auth (auth_proof bat)] = Ok tt /\
     fault w = false /\ check_blind_auth_proof_spendable (auth_proof bat) (next w) = (Ok tt, w')) \/
  (r <> Ok tt /\ a_store w' = a_store w).
Proof.
  intros Hreq. unfold verify_auth, mseq at 1. destruct (fault w) eqn:F.
  { rewrite (is_protected_fault w e Blind Hreq F). cbv beta iota. intros [= <- <-]. right. split; [discriminate|reflexivity]. }
  rewrite (is_protected_run w e Blind Hreq F). destruct t as [[cat|bat]|]; cbv beta iota.
  - unfold mfail. intros [= <- <-]. right. split; [discriminate|reflexivity].
  - unfold mseq, verify_blind_auth, mlift. destruct (signatory_verify_proofs _) as [[]| |] eqn:Hv; [|intros [= <- <-]; right; (split; [discriminate|reflexivity])..].
    intros H. pose proof H as H'. apply check_spendable_run in H' as [[-> _]|[Hr Hs]]; [left; eauto 10|by right].
  - unfold mfail. intros [= <- <-]. right. split; [discriminate|reflexivity].
Qed.

(** A spent token stays spent, whoever asks for what. *)
Lemma verify_auth_keeps_spent net now t e w y :
  spent_in (a_store w) y -> spent_in (a_store (snd (verify_auth net now t e w))) y.
Proof.
  intros Hs. unfold verify_auth, is_protected, mseq, mgets.
  destruct (a_local w) eqn:Hl; [|done]. unfold adb, mmap_err, get_auth_for_endpoint, fetch.
  rewrite a_faulty_run. destruct (fault w); [done|]. cbn [fst snd].
  assert (Hs1 : spent_in (a_store (next w)) y) by done.
  destruct (at_protected (a_store (next w)) !! endpoint_to_json e) as [j|]; [|done].
  destruct (auth_from_json j) as [a|]; [|done]. cbn [ok_or map_err].
  destruct t as [t|]; [|done]. destruct a, t as [cat|bat]; try done.
  - rewrite clear_auth_store. done.
  - unfold verify_blind_auth, mlift. destruct (signatory_verify_proofs _) as [[]| |]; [|done..].
    destruct (check_blind_auth_proof_spendable (auth_proof bat) (next w)) as [r w'] eqn:H. cbn.
    apply check_spendable_run in H as [(_ & y' & _ & Hfree & _ & Hother & _)|[_ ->]]; [|done].
    destruct Hs1 as (row & Hrow & Hsp). destruct (decide (y = y')) as [->|Hne].
    + exfalso. by destruct (Hfree row Hrow).
    + exists row. by rewrite Hother.
Qed.

(** ** Changes of what is protected *)

Lemma add_rows_run (l : list (ProtectedEndpoint * AuthRequired)) (w : AWorld) :
  exists f g, add_endpoint_rows l w = (Ok tt, with_faults (with_tx w (set_at_protected (a_tx w) g)) f).
Proof.
  revert w. induction l as [|[e a] l IH]; intros w; cbn [add_endpoint_rows].
  - exists (a_faults w), (at_protected (a_tx w)). by destruct w as [? ? [] ? ?].
  - unfold mseq, mtry, stmt. rewrite a_faulty_run. destruct (fault w); cbn.
    + destruct (IH (next w)) as (f & g & ->). by exists f, g.
    + destruct (IH (with_tx (next w) (set_at_protected (a_tx w) (<[endpoint_to_json e:=auth_to_json a]> (at_protected (a_tx w))))))
        as (f & g & ->). by exists f, g.
Qed.

Lemma setup_keeps_proofs s w : at_proof (a_store (snd (setup_authentication s w))) = at_proof (a_store w).
Proof.
  unfold setup_authentication. cbv zeta. generalize (setup_endpoints s) as l. intros l. unfold mseq at 1, a_begin. rewrite a_faulty_run.
  destruct (fault w); [done|]. cbn. unfold mseq at 1, remove_protected_endpoints, stmt. rewrite a_faulty_run.
  destruct (fault _); [done|]. cbn. unfold mseq, add_protected_endpoints.
  destruct (add_rows_run (map_to_list (el_protected l)) (with_tx (next (with_tx (next w) (a_store w)))
    (set_at_protected (a_store w) (filter (fun kv => kv.1 ∉ endpoint_to_json <$> el_unprotected l) (at_protected (a_store w))))))
    as (f & g & ->).
  unfold a_commit. rewrite a_faulty_run. by destruct (fault _).
Qed.

(** ** Histories *)

(** A request, or a start of the mint with some configuration, with its own
    schedule of faults. *)
Inductive AuthEvent :=
| Request (net : Provider) (now : N) (token : option AuthToken) (endpoint : ProtectedEndpoint)
| Configure (settings : AuthSettings).

Definition auth_step (e : list bool * AuthEvent) (w : AWorld) : AWorld :=
  let w := with_faults w e.1 in
  match e.2 with
  | Request net now token endpoint => snd (verify_auth net now token endpoint w)
  | Configure settings => snd (setup_authentication settings w)
  end.

Lemma history_keeps_spent events w y :
  spent_in (a_store w) y -> spent_in (a_store (fold_left (fun w e => auth_step e w) events w)) y.
Proof.
  revert w. induction events as [|[f e] events IH]; intros w Hs; cbn [fold_left]; [done|]. apply IH.
  unfold auth_step. cbn [fst snd]. destruct e as [net now t ep|s]; [by apply verify_auth_keeps_spent|].
  destruct Hs as (r & Hr & Hst). exists r. by rewrite setup_keeps_proofs.
Qed.

(** C35. A blind token is good for one request: once it has opened an endpoint,
    no token with the same point opens an endpoint that requires blind
    authentication again, whatever requests, configurations and faults come
    in between, unless the statement that inserted it had failed. *)
Theorem blind_token_used_once net now bat ep faults w w1 events net' now' bat' ep' faults' (w2 := fold_left (fun w e => auth_step e w) events w1)
    (Hreq : required w ep Blind)
    (Hrun : verify_auth net now (Some (BlindAuth bat)) ep (with_faults w faults) = (Ok tt, w1))
    (Hins : faults !! 2%nat <> Some true)
    (Hsame : auth_y (auth_proof bat') = auth_y (auth_proof bat))
    (Hreq' : required w2 ep' Blind) :
  fst (verify_auth net' now' (Some (BlindAuth bat')) ep' (with_faults w2 faults')) <> Ok tt.
Proof.
  assert (Hr1 : required (with_faults w faults) ep Blind) by exact Hreq.
  pose proof (verify_blind_run net now _ ep (with_faults w faults) (Ok tt) w1 Hr1 Hrun) as [(_ & b & Hb & _ & _ & H)|[? _]]; [|congruence].
  injection Hb as <-.
  apply check_spendable_run in H as [(_ & y & Hy & _ & _ & _ & Hsp)|[? _]]; [|congruence].
  assert (Hspent : spent_in (a_store w1) y).
  { destruct Hsp as [Hl|Hl]; [exact Hl|]. exfalso. unfold insert_lost, fault, next in Hl. cbn in Hl.
    destruct faults as [|? [|? [|[] ?]]]; cbn in Hl, Hins; congruence. }
  apply (history_keeps_spent events) in Hspent. change (spent_in (a_store w2) y) in Hspent.
  destruct (verify_auth net' now' (Some (BlindAuth bat')) ep' (with_faults w2 faults')) as [r w3] eqn:Hrun'.
  assert (Hr2 : required (with_faults w2 faults') ep' Blind) by exact Hreq'.
  pose proof (verify_blind_run net' now' _ ep' (with_faults w2 faults') r w3 Hr2 Hrun') as [(-> & b & Hb & _ & _ & H)|[Hne _]]; [|exact Hne].
  injection Hb as <-.
  apply check_spendable_run in H as [(_ & y' & Hy' & Hfree & _)|[? _]]; [|congruence].
  rewrite Hsame, Hy in Hy'. injection Hy' as <-. destruct Hspent as (row & Hrow & Hst). intros _. exact (proj1 (Hfree row Hrow) Hst).
Qed.

(** When the insert fails the token is accepted and not recorded: it can be
    used again. *)
Theorem lost_insert_keeps_token net now bat ep w y (f := [false; false; true])
    (Hreq : required w ep Blind) (Hy : auth_y (auth_proof bat) = Ok y) (Hnew : at_proof (a_store w) !! y = None)
    (Hsig : signatory_verify_proofs [proof_of_auth (auth_proof bat)] = Ok tt) :
  exists w', verify_auth net now (Some (BlindAuth bat)) ep (with_faults w f) = (Ok tt, w') /\ a_store w' = a_store w.
Proof.
  assert (Hr' : required (with_faults w f) ep Blind) by exact Hreq.
  unfold verify_auth, mseq at 1. rewrite (is_protected_run _ _ Blind Hr' eq_refl).
  unfold mseq at 1, verify_blind_auth, mlift. rewrite Hsig. destruct Hreq as [Hl _].
  unfold check_blind_auth_proof_spendable, mseq at 1, mgets. cbn [a_local next with_faults]. rewrite Hl. cbn [negb].
  unfold mseq at 1, mlift at 1. rewrite Hy. cbn [map_err]. unfold mseq at 1, adb at 1, mmap_err at 1, a_begin. rewrite a_faulty_run.
  unfold mmodify. cbn [fault next with_faults a_faults f tail head hd_error default from_option Datatypes.id fst snd map_err].
  unfold mseq at 1, adb at 1, mmap_err at 1. rewrite (add_proof_run _ y _ Hy). cbn [fst snd map_err].
  unfold mseq at 1, adb at 1, mmap_err at 1. rewrite auth_update_state_run. cbn. rewrite Hnew. cbn. eauto.
Qed.

(** ** What the configuration protects *)

Lemma add_rows_lookup (l : list (ProtectedEndpoint * AuthRequired)) (w : AWorld) : NoDup l.*1 -> a_faults w = [] ->
  exists w', add_endpoint_rows l w = (Ok tt, w') /\ a_faults w' = [] /\ a_store w' = a_store w /\
    forall e, at_protected (a_tx w') !! endpoint_to_json e =
      match (list_to_map l : gmap ProtectedEndpoint AuthRequired) !! e with
      | Some a => Some (auth_to_json a)
      | None => at_protected (a_tx w) !! endpoint_to_json e
      end.
Proof.
  revert w. induction l as [|[e0 a0] l IH]; intros w Hnd Hf; cbn [add_endpoint_rows]; [by exists w|].
  apply NoDup_cons in Hnd as [Hnot Hnd]. unfold mseq, mtry, stmt. rewrite a_faulty_run. unfold fault at 1. rewrite Hf. cbn.
  destruct (IH (with_tx (next w) (set_at_protected (a_tx w) (<[endpoint_to_json e0:=auth_to_json a0]> (at_protected (a_tx w))))) Hnd)
    as (w' & Hrun & Hf' & Hs' & Hl'); [cbn; by rewrite Hf|].
  exists w'. split; [done|]. split; [done|]. split; [done|]. intros e. rewrite Hl'. cbn.
  destruct (decide (e = e0)) as [->|Hne].
  - rewrite lookup_insert_eq. rewrite (not_elem_of_list_to_map_1 l e0) by done. by rewrite lookup_insert_eq.
  - rewrite (lookup_insert_ne _ e0) by done. destruct (list_to_map l !! e); [done|]. rewrite lookup_insert_ne; [done|].
    intros H%endpoint_json_inj. congruence.
Qed.

Definition required_by (t : AuthType) : option AuthRequired :=
  match t with ATBlind => Some Blind | ATClear => Some Clear | ATNone => None end.

Lemma fold_endpoints (l : list (ProtectedEndpoint * AuthType)) acc : NoDup l.*1 -> forall e,
  el_protected (fold_left add_endpoint l acc) !! e =
    match (list_to_map l : gmap ProtectedEndpoint AuthType) !! e ≫= required_by with
    | Some a => Some a | None => el_protected acc !! e end /\
  (e ∈ el_unprotected (fold_left add_endpoint l acc) <->
     (list_to_map l : gmap ProtectedEndpoint AuthType) !! e = Some ATNone \/ e ∈ el_unprotected acc).
Proof.
  revert acc. induction l as [|[e0 t0] l IH]; intros acc Hnd e; cbn [fold_left].
  { cbn. rewrite lookup_empty. cbn. split; [done|]. naive_solver. }
  apply NoDup_cons in Hnd as [Hnot Hnd]. destruct (IH (add_endpoint acc (e0, t0)) Hnd e) as [-> ->].
  cbn [list_to_map fold_right fst snd]. destruct (decide (e = e0)) as [->|Hne].
  - rewrite (not_elem_of_list_to_map_1 l e0) by done. cbn. rewrite lookup_insert_eq. cbn.
    destruct t0; cbn; rewrite ?lookup_insert_eq; (split; [done|]); set_solver.
  - rewrite (lookup_insert_ne _ e0) by done.
    destruct t0; cbn; rewrite ?lookup_insert_ne by done; (split; [done|]); set_solver.
Qed.

Lemma configured_nodup s : NoDup (configured s).*1.
Proof. apply (bool_decide_unpack _). vm_compute. exact I. Qed.

(** What the table of endpoints says after a start with these settings and
    without faults: what the settings say of the endpoints they name; a clear
    token for the minting of blind tokens; what it said before of all others. *)
Theorem configuration_spec s w e (Hf : a_faults w = []) :
  exists w', setup_authentication s w = (Ok tt, w') /\
    at_protected (a_store w') !! endpoint_to_json e =
      match (list_to_map (configured s) : gmap ProtectedEndpoint AuthType) !! e with
      | Some t => auth_to_json <$> required_by t
      | None => if decide (e = mkEndpoint Post MintBlindAuth) then Some (auth_to_json Clear)
                else at_protected (a_store w) !! endpoint_to_json e
      end.
Proof.
  pose proof (fold_endpoints (configured s)
    (mkEndpointLists {[mkEndpoint Post MintBlindAuth := Clear]} [] [mkEndpoint Post MintBlindAuth] []) (configured_nodup s)) as Hfold.
  remember (list_to_map (configured s) : gmap ProtectedEndpoint AuthType) as m eqn:Hm.
  unfold setup_authentication. cbv zeta. unfold setup_endpoints.
  revert Hfold. generalize (fold_left add_endpoint (configured s)
    (mkEndpointLists {[mkEndpoint Post MintBlindAuth := Clear]} [] [mkEndpoint Post MintBlindAuth] [])) as l. intros l Hfold.
  unfold mseq at 1, a_begin. rewrite a_faulty_run. unfold fault at 1. rewrite Hf. cbn.
  unfold mseq at 1, remove_protected_endpoints, stmt. rewrite a_faulty_run. unfold fault at 1. cbn. rewrite Hf. cbn.
  unfold mseq, add_protected_endpoints.
  destruct (add_rows_lookup (map_to_list (el_protected l)) (with_tx (next (with_tx (next w) (a_store w)))
    (set_at_protected (a_store w) (filter (fun kv => kv.1 ∉ endpoint_to_json <$> el_unprotected l) (at_protected (a_store w))))))
    as (w1 & -> & Hf1 & _ & Hl1); [apply NoDup_fst_map_to_list|cbn; by rewrite Hf|].
  unfold a_commit. rewrite a_faulty_run. unfold fault. rewrite Hf1. cbn. eexists. split; [done|]. cbn.
  rewrite Hl1, list_to_map_to_list. destruct (Hfold e) as [-> Hun]. cbn in Hun |- *.
  destruct (m !! e) as [t|] eqn:Ht; cbn.
  - destruct t; cbn; [done|done|]. destruct (decide (e = mkEndpoint Post MintBlindAuth)) as [->|Hne].
    { exfalso. subst m. vm_compute in Ht. discriminate Ht. }
    rewrite lookup_singleton_ne by done. apply map_lookup_filter_None_2. right. intros v _ Hnot. apply Hnot.
    apply list_elem_of_fmap. exists e. split; [done|]. apply Hun. by left.
  - destruct (decide (e = mkEndpoint Post MintBlindAuth)) as [->|Hne]; [by rewrite lookup_singleton_eq|].
    rewrite lookup_singleton_ne by done. destruct (at_protected (a_store w) !! endpoint_to_json e) as [v|] eqn:Hv.
    + apply map_lookup_filter_Some_2; [done|]. cbn. intros (e' & Heq%endpoint_json_inj & He')%list_elem_of_fmap.
      subst e'. apply Hun in He' as [Hs|Hs]; [congruence|by apply elem_of_nil in Hs].
    + apply map_lookup_filter_None_2. by left.
Qed.

(** No setting reaches the endpoints of bolt12. *)
Theorem bolt12_not_configured s w path m (Hf : a_faults w = [])
    (Hp : path ∈ [MintQuoteBolt12; MintBolt12; MeltQuoteBolt12; MeltBolt12]) :
  exists w', setup_authentication s w = (Ok tt, w') /\
    at_protected (a_store w') !! endpoint_to_json (mkEndpoint m path) =
    at_protected (a_store w) !! endpoint_to_json (mkEndpoint m path).
Proof.
  destruct (configuration_spec s w (mkEndpoint m path) Hf) as (w' & Hrun & Hl). exists w'. split; [done|]. rewrite Hl.
  assert (Hn : (mkEndpoint m path ∉ (configured s).*1) /\ mkEndpoint m path <> mkEndpoint Post MintBlindAuth).
  { rewrite !elem_of_cons, elem_of_nil in Hp.
    destruct Hp as [->|[->|[->|[->|[]]]]]; destruct m; (split; [|discriminate]); apply (bool_decide_unpack _); vm_compute; exact I. }
  rewrite not_elem_of_list_to_map_1 by apply Hn. rewrite decide_False by apply Hn. reflexivity.
Qed.

(** ** Clear tokens *)

(** The configuration and the key set that the client has, or is given. *)
Definition known_config (net : Provider) (c : OidcClient) (config : OidcConfig) : Prop :=
  oc_config c = Some config \/ oc_config c = None /\ fetch_config net (oc_discovery c) = Some config.
Definition known_jwks (net : Provider) (c : OidcClient) (config : OidcConfig) (jwks : jwk_set) : Prop :=
  oc_jwks c = Some jwks \/ exists i, fetch_jwks net i (jwks_uri config) = Some jwks.

(** An accepted clear token names a key of the provider, verifies under that
    key for the issuer of the provider at the time of the request, and does
    not name another client. *)
Theorem clear_token_sound net now cat (client client' : OidcClient)
    (Hrun : verify_cat net now cat client = (Ok tt, client')) :
  exists kid alg config jwks jwk key claims,
    decode_header cat = Some (Some kid, alg) /\ known_config net client config /\ known_jwks net client config jwks /\
    jwks_find jwks kid = Some jwk /\ decoding_key_of jwk = Ok key /\
    jwt_decode cat key alg (issuer config) now = Some claims /\
    (forall id v, oc_client_id client = Some id -> claims !! "client_id" = Some (Some v) -> v = id).
Proof.
  unfold verify_cat in Hrun. apply mlift_seq in Hrun as ([kid alg] & Hh%ok_or_Ok & Hrun).
  apply mlift_seq in Hrun as (k & Hk%ok_or_Ok & Hrun). subst kid.
  apply mseq_Ok in Hrun as (cc & c0 & Hc0 & Hrun). injection Hc0 as <- <-.
  apply mseq_Ok in Hrun as (config & c1 & Hconf & Hrun).
  assert (Hkc : known_config net client config /\ oc_jwks c1 = oc_jwks client /\ oc_client_id c1 = oc_client_id client).
  { unfold known_config. destruct (oc_config client) as [cf|] eqn:E; [injection Hconf as <- <-; auto|].
    unfold get_oidc_config in Hconf. apply mseq_Ok in Hconf as (c & c' & Hc & Hconf). injection Hc as <- <-.
    apply mlift_seq in Hconf as (cf & Hcf%ok_or_Ok & Hconf). injection Hconf as <- <-. auto. }
  destruct Hkc as (Hkc & Hj1 & Hid1).
  apply mseq_Ok in Hrun as (cj & c2 & Hc2 & Hrun). injection Hc2 as <- <-. rewrite Hj1 in Hrun.
  apply mseq_Ok in Hrun as (jwks & c3 & Hjw & Hrun).
  assert (Hkj : known_jwks net client config jwks /\ oc_client_id c3 = oc_client_id client).
  { unfold known_jwks. destruct (oc_jwks client) as [set|] eqn:E; [injection Hjw as <- <-; auto|].
    apply mlift_seq in Hjw as (set & Hs%ok_or_Ok & Hjw). injection Hjw as <- <-. cbn. eauto. }
  destruct Hkj as (Hkj & Hid3). apply mseq_Ok in Hrun as (jwk & c4 & Hjwk & Hrun).
  assert (Hfind : (exists jwks', known_jwks net client config jwks' /\ jwks_find jwks' k = Some jwk) /\ oc_client_id c4 = oc_client_id client).
  { destruct (jwks_find jwks k) as [j|] eqn:E; [injection Hjwk as <- <-; eauto|].
    apply mseq_Ok in Hjwk as (set & c' & Hset & [Hj%ok_or_Ok ->]%mlift_Ok).
    apply mlift_seq in Hset as (set' & Hs%ok_or_Ok & Hset). injection Hset as <- <-. unfold known_jwks. cbn. eauto 8. }
  destruct Hfind as ((jwks' & Hkj' & Hfind) & Hid4).
  apply mlift_seq in Hrun as (key & Hkey & Hrun). apply mlift_seq in Hrun as (claims & Hcl%ok_or_Ok & Hrun).
  apply mseq_Ok in Hrun as (cid & c5 & Hc5 & [Hcheck _]%mlift_Ok). injection Hc5 as <- <-.
  exists k, alg, config, jwks', jwk, key, claims. do 6 (split; [done|]). intros id v Hcid Hv.
  rewrite Hid4, Hcid in Hcheck. unfold check_client_id in Hcheck. rewrite Hv in Hcheck.
  apply ensure_Ok in Hcheck. by apply String.eqb_eq.
Qed.

(** ** Minting of blind tokens *)

Lemma sign_auth_Ok outputs w sigs w' : sign_auth_outputs outputs w = (Ok sigs, w') ->
  Forall2 (fun m s => bm_amount m = 1 /\ exists ss, signatory_blind_sign [m] = Ok ss /\ last ss = Some s) outputs sigs.
Proof.
  revert w sigs. induction outputs as [|m outputs IH]; intros w sigs H; cbn [sign_auth_outputs] in H; [injection H as <- <-; constructor|].
  destruct (bm_amount m =? 1) eqn:Ha; [|done]. cbn [negb] in H. apply mseq_Ok in H as (s & w1 & Hs & H).
  unfold auth_blind_sign in Hs. apply mlift_seq in Hs as (ss & Hss & [Hl%ok_or_Ok ->]%mlift_Ok).
  apply mseq_Ok in H as (sl & w2 & Hsl & H). injection H as <- <-. constructor; [|by eapply IH].
  apply N.eqb_eq in Ha. eauto.
Qed.

Lemma mint_blind_auth_Ok net now stored t r w sigs w' : mint_blind_auth net now stored t r w = (Ok sigs, w') ->
  exists cat w1 info w2 s, t = ClearAuth cat /\ verify_clear_auth net now cat w = (Ok tt, w1) /\
    mint_info stored w1 = (Ok info, w2) /\ nut22 info = Some s /\ ma_amount r <= bat_max_mint s /\
    sign_auth_outputs (ma_outputs r) w2 = (Ok sigs, w').
Proof.
  unfold mint_blind_auth. destruct t as [cat|]; [|done]. intros H. apply mseq_Ok in H as ([] & w1 & Hv & H).
  apply mseq_Ok in H as (info & w2 & Hi & H). apply mlift_seq in H as (s & Hs%ok_or_Ok & H).
  destruct (bat_max_mint s <? ma_amount r) eqn:Hm; [done|]. apply N.ltb_ge in Hm. eauto 12.
Qed.

(** Blind tokens are given for a verified clear token only, one signature of
    amount one per output, and at most as many as the settings allow. *)
Theorem mint_blind_auth_spec `{!SignatoryLaws SG} net now stored t r w sigs w'
    (Hrun : mint_blind_auth net now stored t r w = (Ok sigs, w')) :
  exists cat w1 info w2 s, t = ClearAuth cat /\ verify_clear_auth net now cat w = (Ok tt, w1) /\
    mint_info stored w1 = (Ok info, w2) /\ nut22 info = Some s /\
    Forall2 signs_for (ma_outputs r) sigs /\ Forall (fun x => bs_amount x = 1) sigs /\
    N.of_nat (length sigs) <= bat_max_mint s.
Proof.
  apply mint_blind_auth_Ok in Hrun as (cat & w1 & info & w2 & s & -> & Hv & Hi & Hs & Hm & Hsign).
  pose proof (sign_auth_Ok _ _ _ _ Hsign) as H2.
  assert (Hf : Forall2 (fun m x => signs_for m x /\ bs_amount x = 1) (ma_outputs r) sigs).
  { eapply Forall2_impl; [exact H2|]. cbn. intros m x (Ha & ss & Hss%blind_sign_matches & Hl).
    inversion Hss as [|? y ? l' Hy Hnil]; subst. inversion Hnil; subst. cbn in Hl. injection Hl as ->.
    split; [done|]. destruct Hy as [-> _]. done. }
  exists cat, w1, info, w2, s. do 4 (split; [done|]). split; [eapply Forall2_impl; [exact Hf|]; naive_solver|].
  split; [clear -Hf; induction Hf as [|? ? ? ? [_ ?]]; by constructor|].
  unfold ma_amount in Hm. by rewrite (Forall2_length _ _ _ Hf) in Hm.
Qed.
End facts.

(** The signatory signs for any active keyset, and the handler does not look
    at the unit: with a clear token, outputs of one unit of any keyset (sat,
    for instance) are signed, and become proofs that the mint accepts. *)
Section money.
Context {CR : Crypto} {SD : Serde} {CV : Curve CR} {BP : Bip32 CR} {CM : CurveModel CR} {CL : CurveLaws CR CV CM} {OL : OidcLib}.

Theorem blind_minting_issues_money self nonce kid info key net now stored t r w sigs w' secrets rs
    (Hk : sg_keysets self !! kid = Some (info, key)) (Hwk : well_keyed key)
    (Hlen : length rs = length secrets) (Hask : Forall2 (asks_for kid) (ma_outputs r) (zip secrets rs))
    (Hrun : mint_blind_auth (SG := db_signatory self nonce) net now stored t r w = (Ok sigs, w')) :
  exists ps, construct_proofs sigs rs secrets (keys_of (mk_keys key)) = Ok ps /\ db_verify_proofs self ps = Ok tt /\
    Forall (fun p => keyset_id p = kid) ps /\ sumN (amount <$> ps) = N.of_nat (length (ma_outputs r)).
Proof.
  apply mint_blind_auth_Ok in Hrun as (_ & _ & _ & w2 & _ & _ & _ & _ & _ & _ & Hsign%sign_auth_Ok).
  assert (Hl1 : length sigs = length (ma_outputs r)) by (symmetry; by eapply Forall2_length).
  assert (Hl2 : length (ma_outputs r) = length secrets).
  { rewrite (Forall2_length _ _ _ Hask), length_zip_with. lia. }
  cut (exists ps, construct_loop (keys_of (mk_keys key)) (zip (zip sigs rs) secrets) = Ok ps /\
         Forall (fun p => verify_one self p = Ok tt /\ keyset_id p = kid /\ amount p = 1) ps /\ length ps = length (ma_outputs r)).
  { intros (ps & Hc & Hg & Hlp). exists ps. unfold construct_proofs. rewrite Hl1, Hlen, Hl2, Nat.eqb_refl. cbn [negb orb].
    split; [done|]. split; [apply db_verify_proofs_Ok; eapply Forall_impl; [exact Hg|]; naive_solver|].
    split; [eapply Forall_impl; [exact Hg|]; naive_solver|]. rewrite <- Hl2, <- Hlp. clear -Hg.
    induction Hg as [|p ps (_ & _ & Ha) _ IH]; [done|]. rewrite fmap_cons, sumN_cons, IH, Ha. cbn [length]. lia. }
  clear Hl1 Hl2. revert secrets rs Hlen Hask.
  induction Hsign as [|m s ms sigs (Ha & ss & Hss & Hl) _ IH]; intros secrets rs Hlen Hask; [by exists []|].
  destruct secrets as [|sec secrets], rs as [|rr rs]; try done; [by inversion Hask|].
  inversion Hask as [|? ? ? ? [Hkid Hb] Hask']; subst. cbn in Hss. unfold db_blind_sign in Hss. cbn in Hss.
  destruct (sign_one self (nonce 0%nat) m) as [s'| |] eqn:Hs; [|done..]. injection Hss as <-. cbn in Hl. injection Hl as ->.
  destruct (issued_proof_good self key info _ m s sec rr Hk Hwk Hb Hs) as (p & Hp & (Hpa & Hpk & _ & Hpv & _)).
  destruct (IH secrets rs ltac:(cbn in Hlen; lia) Hask') as (ps & Hps & Hall & Hlp).
  exists (p :: ps). cbn [zip zip_with construct_loop]. rewrite Hp, Hps. split; [done|]. split; [|cbn; lia].
  constructor; [|done]. rewrite Hpa, Ha. done.
Qed.

(** And any proof of one unit, of whatever keyset, passes for a blind token. *)
Theorem money_passes_for_token self nonce p (w : AWorld) (Hamount : amount p = 1) (Hver : verify_one self p = Ok tt) :
  verify_blind_auth (SG := db_signatory self nonce) (mkBlindAuthToken (auth_of_proof p)) w = (Ok tt, w).
Proof.
  unfold verify_blind_auth, mlift. cbn. unfold verify_one in *. cbn. rewrite Hamount in Hver. by rewrite Hver.
Qed.

End money.

(** ** Text and settings *)
Section text.
Context {CR : Crypto} {AC : AuthCodec CR} {AL : AuthCodecLaws CR AC}.

Lemma strip_prefix_after p s : strip_prefix p (p ++ s)%string = Some s.
Proof. induction p as [|a p IH]; cbn [strip_prefix String.append]; [done|]. change (String a p +:+ s) with (String a (p +:+ s)). cbv beta iota. by rewrite Ascii.eqb_refl. Qed.

(** A blind token is read back from its text; a clear token is its own text. *)
Theorem blind_token_roundtrip t : bat_from_str (bat_to_string t) = Ok t.
Proof.
  unfold bat_from_str, bat_to_string. rewrite strip_prefix_after. cbn [ok_or]. rewrite url_safe_roundtrip. cbn [ok_or].
  rewrite proof_json_utf8, proof_json_roundtrip. by destruct t.
Qed.

End text.

Section routes.
Context {RX : RegexLib}.

(** The endpoints of settings: every route that matches the pattern of one of
    the raw entries, with the method of that entry. *)
Theorem expand_endpoints_spec raw acc endpoints e (Hrun : expand_endpoints raw acc = Ok endpoints) :
  e ∈ endpoints <-> e ∈ acc \/
    exists path re, (pe_method e, path) ∈ raw /\ regex_from_str path = Some re /\ is_match re (route_to_string (pe_path e)) = true.
Proof.
  revert acc Hrun. induction raw as [|[m p] raw IH]; intros acc Hrun; cbn [expand_endpoints] in Hrun.
  { injection Hrun as <-. set_solver. }
  unfold matching_route_paths in Hrun. destruct (regex_from_str p) as [re|] eqn:Hre; [|done]. cbn [ok_or] in Hrun.
  rewrite (IH _ Hrun). rewrite elem_of_union, elem_of_list_to_set, list_elem_of_fmap.
  assert (Hall : forall path, path ∈ route_iter) by (intros path; apply (bool_decide_unpack _); by destruct path).
  destruct e as [m' path']. cbn [pe_method pe_path]. split.
  - intros [[(x & [= -> ->] & [Hx _]%list_elem_of_filter)|Hacc]|(q & re' & Hq & Hrest)]; [right; exists p, re; set_solver|by left|right; exists q, re'; set_solver].
  - intros [Hacc|(q & re' & [Heq|Hq]%elem_of_cons & Hre' & Hm)]; [by left; right| |right; eauto].
    injection Heq as -> ->. left; left. exists path'. split; [done|]. apply list_elem_of_filter. split; [congruence|done].
Qed.

End routes.
End AuthFacts.
