(* ===== verification/HttpFacts.v ===== *)
(** * The HTTP interface: theorems

    What it takes to get past a protected endpoint, what a repeated request
    is answered, and which errors a wallet can tell apart. *)
From stdpp Require Import base numbers list strings gmap.
From S2P Require Import Prelude Posts Amount Nuts Conditions Spending States MintDb MintDbFacts Mint MintFacts Swap SwapFacts Issue Melt Auth Http AuthFacts.
Import Nut21 Nut22 TokenText Oidc AuthDb.

Local Open Scope N_scope.
Local Open Scope res_scope.
Local Open Scope mint_scope.

Module HttpFacts.
Import Nut00 Requests MintTypes MintDb Mint MintFacts Swap SwapFacts Issue Melt Auth AuthFacts ErrorCodes Http.

(** ** Error codes *)

(** Every code is read back as the number it is sent as. *)
Theorem code_roundtrip n : to_code (from_code n) = n.
Proof.
  unfold from_code. repeat (match goal with |- context [match ?x with _ => _ end] => is_var x; destruct x end; try reflexivity).
Qed.

Lemma known_code_roundtrip c : (forall n, c <> Unknown n) -> from_code (to_code c) = c.
Proof. destruct c; intros H; try reflexivity. by destruct (H code). Qed.

#[local] Strategy opaque [Dhke.hash_to_curve].

Section codes.
Context {CR : Crypto}.

(** The errors whose meaning a wallet gets back; amounts are lost on the way. *)
Definition same_error (e e' : MError) : Prop :=
  e' = e \/
  match e, e' with
  | Mint.TransactionUnbalanced _ _ _, Mint.TransactionUnbalanced _ _ _ => True
  | Mint.AmountOutofLimitRange _ _ _, Mint.AmountOutofLimitRange _ _ _ => True
  | _, _ => False
  end.

Definition reported (e : MError) : bool :=
  match e with
  | Mint.TokenAlreadySpent | Mint.TokenPending | Mint.UnsupportedUnit | Mint.PaymentFailed | Mint.RequestAlreadyPaid
  | Mint.MintingDisabled | Mint.BlindedMessageAlreadySigned | Mint.ExpiredQuote | Mint.PendingQuote | Mint.ClearAuthRequired
  | Mint.BlindAuthRequired | Mint.DuplicateInputs | Mint.DuplicateOutputs | Mint.MultipleUnits | Mint.UnitMismatch
  | Mint.UnpaidQuote | Mint.DuplicateSignatureError
  | Mint.TransactionUnbalanced _ _ _ | Mint.AmountOutofLimitRange _ _ _ => true
  | _ => false
  end.

(** What arrives at the wallet when the mint answers with an error. *)
Definition received (e : MError) (detail : string) : MError := error_of_response (from_code (to_code (error_code e))) detail.

(** The errors that arrive as themselves are exactly the listed ones. *)
Theorem errors_that_arrive e detail (Hdetail : e <> UnknownErrorResponse detail) :
  same_error e (received e detail) <-> reported e = true.
Proof.
  split.
  - intros H. destruct e; try reflexivity; exfalso; try (destruct H as [H|H]; [discriminate H|exact H]).
    + destruct e; destruct H as [H|H]; try discriminate H; exact H.
    + destruct H as [H|H]; [|exact H]. cbn in H. congruence.
  - destruct e; try discriminate; intros _; first [by left|by right].
Qed.

End codes.

(** ** Protected endpoints *)
Section server.
Context {CR : Crypto} {SD : Serde} {SG : Signatory} {SL : SignatoryLaws SG} {PY : Payments} {OG : Outgoing} {OL : OidcLib}.

(** The request proves what the endpoint requires: a clear token that the
    OpenID client of the mint accepts, or a blind token with a valid signature
    that was not used before and is used up now (unless its insert failed). *)
Definition authorised (e : Env) (auth : AuthHeader) (s s' : Server) (a : AuthRequired) : Prop :=
  match a with
  | Clear => exists cat client, auth = HClear cat /\ a_oidc (sv_auth s) = Some client /\
      fst (verify_cat (env_net e) (env_now e) cat client) = Ok tt
  | Blind => exists bat y, auth = HBlind bat /\ auth_y (auth_proof bat) = Ok y /\
      signatory_verify_proofs [proof_of_auth (auth_proof bat)] = Ok tt /\ free_in (a_store (sv_auth s)) y /\
      (spent_in (a_store (sv_auth s')) y \/ insert_lost (next (sv_auth s)))
  end.

Lemma guard_run e auth m p s r s' a : guard e auth m p s = (r, s') -> required (sv_auth s) (mkEndpoint m p) a ->
  sv_mint s' = sv_mint s /\ sv_cache s' = sv_cache s /\ (r = Ok tt -> authorised e auth s s' a).
Proof.
  unfold guard, with_auth. destruct (verify_auth _ _ _ _ (sv_auth s)) as [r0 w0] eqn:H. intros [= <- <-] Hreq.
  split; [reflexivity|]. split; [reflexivity|]. cbn [sv_auth]. intros Hok%map_err_Ok. subst r0. destruct a.
  - unfold verify_auth, mseq at 1 in H. destruct (fault (sv_auth s)) eqn:F.
    { rewrite (is_protected_fault _ _ Clear Hreq F) in H. discriminate H. }
    rewrite (is_protected_run _ _ Clear Hreq F) in H. destruct auth as [cat|bat|]; cbn [header_token] in H; [|discriminate H..].
    unfold verify_clear_auth in H. cbn [a_oidc next with_faults] in H. destruct (a_oidc (sv_auth s)) as [client|] eqn:Ho; [|discriminate H].
    exists cat, client. split; [reflexivity|]. split; [exact Ho|].
    destruct (verify_cat _ _ cat client) as [rr c']. injection H as H _. cbn [fst]. by apply map_err_Ok in H.
  - apply (verify_blind_run _ _ _ _ _ _ _ Hreq) in H as [(_ & bat & Ht & Hsig & _ & Hc)|[Hne _]]; [|congruence].
    apply check_spendable_run in Hc as [(_ & y & Hy & Hfree & _ & _ & Hsp)|[Hne _]]; [|congruence].
    exists bat, y. destruct auth; cbn [header_token] in Ht; try discriminate Ht. injection Ht as ->. auto.
Qed.

(** The outcomes of a request that was not let in: it is answered with an error,
    and the database of the mint and the cache are as before. *)
Definition turned_away {R} (x : res Response R) (s s' : Server) : Prop :=
  (forall v, x <> Ok v) /\ sv_mint s' = sv_mint s /\ sv_cache s' = sv_cache s.

(** A handler behind a guard acts only for an authorised request. *)
Lemma guarded_run {A} e auth m p (op : Mt A) s r s' a :
  (do_ guard e auth m p ; with_mint op : St A) s = (r, s') -> required (sv_auth s) (mkEndpoint m p) a ->
  turned_away r s s' \/ authorised e auth s s' a.
Proof.
  intros H Hreq. unfold mseq in H. destruct (guard e auth m p s) as [r1 s1] eqn:Hg.
  destruct (guard_run _ _ _ _ _ _ _ _ Hg Hreq) as (Hm & Hc & Hauth). destruct r1 as [[]| |].
  - right. specialize (Hauth eq_refl). unfold with_mint in H. destruct (op (sv_mint s1)) as [r2 w2]. injection H as <- <-. exact Hauth.
  - left. injection H as <- <-. split; [discriminate|done].
  - left. injection H as <- <-. split; [discriminate|done].
Qed.

(** The answer to this very request is in the cache, and nothing happens. *)
Definition from_cache {P R} `{Json P} `{Json R} (r : P) (x : res Response R) (s s' : Server) : Prop :=
  exists key bytes v, calculate_key r = Some key /\ sv_cache s !! key = Some bytes /\ from_json bytes = Some v /\ x = Ok v /\ s' = s.

Lemma cached_run {P R} `{Json P} `{Json R} e m p (op : P -> Mt R) auth r s x s' a :
  cached (fun auth r => do_ guard e auth m p ; with_mint (op r) : St R) auth r s = (x, s') ->
  required (sv_auth s) (mkEndpoint m p) a ->
  from_cache r x s s' \/ turned_away x s s' \/ authorised e auth s s' a.
Proof.
  unfold cached, from_cache. destruct (calculate_key r) as [key|]; [|intros Hrun Hreq; right; by eapply guarded_run].
  unfold mseq at 1, mgets, cache_get. intros Hrun Hreq. destruct (sv_cache s !! key) as [bytes|] eqn:Hb; cbn [mbind option_bind] in Hrun.
  1: destruct (from_json bytes) as [v|] eqn:Hv; [injection Hrun as <- <-; left; by exists key, bytes, v|].
  all: right; apply seq_run in Hrun as [(v & s1 & H1 & Hrun)|[(er & H1 & ->)|[H1 ->]]]; [|by eapply guarded_run in H1 as [?|?]; [left|right|]..];
    eapply guarded_run in H1 as [[Hno _]|Hauth]; [by destruct (Hno v)| |exact Hreq]; right;
    unfold mseq, cache_set, mmodify in Hrun; injection Hrun as _ <-;
    destruct a; cbn [authorised] in *; destruct (to_json v); exact Hauth.
Qed.

Context {JS : Json SwapRequest} {JM : Json MintRequest} {JL : Json MeltRequest} {JB : Json (list BlindSignature)} {JR : Json MeltResponse}.

(** C40. A protected endpoint does nothing for a request that does not carry what
    the table of endpoints requires of it.  At the routes of swaps, mints and
    melts a request is answered from the cache, where the answer to the same
    request is kept, and changes nothing; or it is turned away with an error,
    the database of the mint and the cache being as before; or it was
    authorised, by a clear token that the provider's client accepts or by a
    blind token that was good and is now used up (unless recording it failed). *)
Theorem protected_endpoints_enforced e auth s :
  (forall r x s' a, cache_post_swap e auth r s = (x, s') -> required (sv_auth s) (mkEndpoint Post Nut21.Swap) a ->
     from_cache r x s s' \/ turned_away x s s' \/ authorised e auth s s' a) /\
  (forall r x s' a, cache_post_mint_bolt11 e auth r s = (x, s') -> required (sv_auth s) (mkEndpoint Post MintBolt11) a ->
     from_cache r x s s' \/ turned_away x s s' \/ authorised e auth s s' a) /\
  (forall r x s' a, cache_post_mint_bolt12 e auth r s = (x, s') -> required (sv_auth s) (mkEndpoint Post MintBolt12) a ->
     from_cache r x s s' \/ turned_away x s s' \/ authorised e auth s s' a) /\
  (forall r x s' a, cache_post_melt_bolt11 e auth r s = (x, s') -> required (sv_auth s) (mkEndpoint Post MeltBolt11) a ->
     from_cache r x s s' \/ turned_away x s s' \/ authorised e auth s s' a) /\
  (forall r x s' a, cache_post_melt_bolt12 e auth r s = (x, s') -> required (sv_auth s) (mkEndpoint Post MeltBolt12) a ->
     from_cache r x s s' \/ turned_away x s s' \/ authorised e auth s s' a).
Proof. split_and!; intros r x s' a Hrun Hreq; eapply cached_run; first [exact Hrun|exact Hreq]. Qed.

(** ** Repeated requests *)

Lemma post_swap_Ok e auth r s sigs s' : post_swap e auth r s = (Ok sigs, s') ->
  process_swap_request (env_now e) (env_keysets e) (env_uuid e) r (sv_mint s) = (Ok sigs, sv_mint s') /\ sv_cache s' = sv_cache s.
Proof.
  intros ([] & s1 & Hg & H)%mseq_Ok. unfold guard, with_auth in Hg. destruct (verify_auth _ _ _ _ _) as [r1 w1]. injection Hg as Hr1 <-.
  unfold with_mint in H. cbn [sv_mint sv_auth sv_cache] in H. destruct (process_swap_request _ _ _ _ _) as [r2 w2] eqn:Hp. injection H as H <-.
  apply map_err_Ok in H. subst r2. split; reflexivity.
Qed.

(** Later: no spent proof has become unknown. *)
Definition later (s s2 : Server) : Prop := forall y row,
  db_proof (w_store (sv_mint s)) !! y = Some row -> pr_state row = Nut07.Spent ->
  exists row', db_proof (w_store (sv_mint s2)) !! y = Some row'.

(** C21. A swap is executed once, however often it is sent: its answer is put into
    the cache; as long as it is there, the same request gets the same answer
    and changes nothing, whoever sends it and whatever has happened since; once
    it has expired, the request is refused. *)
Theorem swap_retry_safe e auth e2 auth2 (r : SwapRequest) key answer s sigs s1 s2 x s3
    (Hkey : calculate_key r = Some key) (Hmiss : sv_cache s !! key = None)
    (Hrun : cache_post_swap e auth r s = (Ok sigs, s1)) (Hin : swap_inputs r <> [])
    (Hjson : to_json sigs = Some answer) (Hread : from_json answer = Some sigs)
    (Hlater : later s1 s2) (Hagain : cache_post_swap e2 auth2 r s2 = (x, s3)) :
  sv_cache s1 !! key = Some answer /\
  (sv_cache s2 !! key = Some answer -> x = Ok sigs /\ s3 = s2) /\
  (sv_cache s2 !! key = None -> forall sigs', x <> Ok sigs').
Proof.
  unfold cache_post_swap, cached in *. rewrite Hkey in Hrun, Hagain. unfold mseq at 1, mgets, cache_get in Hrun. rewrite Hmiss in Hrun.
  cbn [mbind option_bind] in Hrun. apply mseq_Ok in Hrun as (sg & s' & Hp & Hrun). unfold mseq, cache_set, mmodify in Hrun.
  injection Hrun as -> <-. rewrite Hjson in Hlater. apply post_swap_Ok in Hp as [Hp Hc].
  apply swap_effect in Hp as (ys & fee & Hys & _ & _ & _ & _ & _ & Hspent & _).
  unfold mseq at 1, mgets, cache_get in Hagain. rename Hlater into Hsp. rewrite Hjson. split; [apply lookup_insert_eq|]. split; intros Hhit.
  - rewrite Hhit in Hagain. cbn [mbind option_bind] in Hagain. rewrite Hread in Hagain. by injection Hagain as <- <-.
  - rewrite Hhit in Hagain. cbn [mbind option_bind] in Hagain. intros sigs' ->. apply mseq_Ok in Hagain as (sg' & s4 & Hp' & _).
    apply post_swap_Ok in Hp' as [Hp' _]. apply swap_effect in Hp' as (ys' & fee' & Hys' & _ & _ & _ & _ & _ & Hspent' & _).
    rewrite Hys in Hys'. injection Hys' as <-. destruct (swap_inputs r) as [|p ps]; [done|].
    assert (exists y, y ∈ ys) as [y Hy].
    { apply NutsFacts.ys_length in Hys. destruct ys as [|y ys]; [discriminate Hys|]. exists y. left. }
    destruct (Hspent y Hy) as [_ (row & Hrow & Hst)]. destruct (Hsp y row Hrow Hst) as [row' Hrow'].
    destruct (Hspent' y Hy) as [Hnone _]. congruence.
Qed.

(** An answer from the cache is given without a look at the token. *)
Theorem cached_answer_unguarded e auth (r : SwapRequest) key answer (sigs : list BlindSignature) s (Hkey : calculate_key r = Some key)
    (Hhit : sv_cache s !! key = Some answer) (Hread : from_json answer = Some sigs) :
  cache_post_swap e auth r s = (Ok sigs, s).
Proof.
  unfold cache_post_swap, cached. rewrite Hkey. unfold mseq, mgets, cache_get. rewrite Hhit. cbn [mbind option_bind]. by rewrite Hread.
Qed.

End server.
End HttpFacts.
