(* ===== verification/ConcreteAuth.v ===== *)
(** * Runs of authentication and of the HTTP interface

    A mint that requires blind tokens for swaps and clear tokens for mints,
    with a provider that has one key; the theorems of [AuthFacts.v] and
    [HttpFacts.v] applied to its runs.  The second module is the mint of
    [ConcreteCurve.v], whose keyset of sats signs for a request of blind
    tokens. *)
From Stdlib Require Import Ascii.
From stdpp Require Import base numbers list strings gmap.
From S2P Require Import Prelude Amount Nuts KeysetId Bdhke Conditions Concrete Spending States MintDb Mint MintFacts Swap SwapFacts Issue IssueFacts Melt MeltRuns Keysets KeysetFacts ConcreteCurve Auth Http AuthFacts HttpFacts.
Import Nut21 Nut21Settings Nut22 TokenText Oidc AuthDb.

Local Open Scope N_scope.
Local Open Scope res_scope.

(** A token is "key:claims"; the key set has the key "k". *)
#[export] Instance oidc_lib : OidcLib := {|
  jwt_alg := unit;
  jwk_set := list string;
  decoding_key := string;
  decode_header s := if String.eqb s "" then None else Some (Some "k", tt);
  jwks_find set kid := if bool_decide (kid ∈ set) then Some (RSA kid "e") else None;
  from_rsa_components n _ := Some n;
  from_ec_components _ _ := None;
  jwt_decode s key _ issuer now := if String.eqb s "good" && (now <? 100) then Some {["client_id" := Some "wallet"]} else None;
|}.

Definition provider : Provider :=
  mkProvider (fun _ => Some (mkOidcConfig "uri" "issuer" "endpoint")) (fun _ _ => Some ["k"]).

Definition settings : Auth.AuthSettings :=
  Auth.mkAuthSettings Auth.ATClear Auth.ATNone Auth.ATNone Auth.ATBlind Auth.ATNone Auth.ATNone Auth.ATBlind Auth.ATNone Auth.ATNone Auth.ATNone.

Module ConcreteAuth.
Import Nut00 Requests MintTypes MintDb Mint Concrete ConcreteMint Swap SwapFacts ConcreteSwap Auth AuthFacts ErrorCodes Http HttpFacts.

Definition fresh_world : AWorld := mkAWorld true empty_auth_db empty_auth_db [] (Some (OidcClient_new "url" (Some "wallet"))).
Definition configured_world : AWorld := snd (setup_authentication settings fresh_world).
Definition bat (secret : string) : BlindAuthToken := mkBlindAuthToken (mkAuthProof "auth" secret carol None).
Definition swap_endpoint : ProtectedEndpoint := mkEndpoint Post Nut21.Swap.

Lemma swap_needs_blind : required configured_world swap_endpoint Blind.
Proof. split; vm_compute; reflexivity. Qed.

(** The token is accepted, another request and a restart follow, and it is
    refused. *)
Definition first_use := verify_auth provider 50 (Some (BlindAuth (bat "secret-A"))) swap_endpoint (with_faults configured_world []).
Definition events : list (list bool * AuthEvent) :=
  [([], Request provider 60 (Some (BlindAuth (bat "secret-B"))) swap_endpoint); ([true], Configure settings); ([], Configure settings)].

Lemma first_use_Ok : first_use = (Ok tt, snd first_use).
Proof. assert (H : fst first_use = Ok tt) by (vm_compute; reflexivity). destruct first_use as [r w]. cbn in H. by subst r. Qed.

Lemma blind_token_used_once_witness :
  fst (verify_auth provider 70 (Some (BlindAuth (bat "secret-A"))) swap_endpoint
         (with_faults (fold_left (fun w e => auth_step e w) events (snd first_use)) [])) <> Ok tt.
Proof.
  apply (blind_token_used_once provider 50 (bat "secret-A") swap_endpoint [] configured_world (snd first_use) events).
  - exact swap_needs_blind.
  - exact first_use_Ok.
  - discriminate.
  - reflexivity.
  - split; vm_compute; reflexivity.
Defined.

(** The answer of the mint to the second use, and to a proof of the wrong
    kind. *)
Example second_use_refused :
  fst (verify_auth provider 70 (Some (BlindAuth (bat "secret-A"))) swap_endpoint (snd first_use)) = Err Mint.TokenAlreadySpent /\
  fst (verify_auth provider 70 (Some (ClearAuth "good")) swap_endpoint (snd first_use)) = Err Mint.BlindAuthRequired /\
  fst (verify_auth provider 70 (Some (ClearAuth "good")) (mkEndpoint Post MintBolt11) (snd first_use)) = Ok tt /\
  fst (verify_auth provider 170 (Some (ClearAuth "good")) (mkEndpoint Post MintBolt11) (snd first_use)) = Err Mint.ClearAuthFailed.
Proof. vm_compute. repeat split. Qed.

(** A swap at the server. *)
Definition server : Server := mkServer configured_world (start []) ∅.
Definition env (uuid : N) : Env := mkEnv 50 provider [sat_keyset] uuid.

(** Requests and answers as text. *)
#[export] Instance swap_json : Json SwapRequest := {|
  to_json r := Some (bits_of_pos (encode (map (fun p => (amount p, secret p)) (swap_inputs r), map (fun m => (bm_amount m, blinded_secret m)) (swap_outputs r))));
  from_json _ := None;
|}.
#[export] Instance signatures_json : Json (list BlindSignature) := {|
  to_json l := Some (bits_of_pos (encode (map (fun s => (bs_amount s, bs_keyset_id s, bs_c s)) l)));
  from_json s := map (fun t : N * string * ascii => mkBlindSignature t.1.1 t.1.2 t.2 None) <$> (pos_of_bits s ≫= decode);
|}.

#[export] Instance mint_json : Json MintRequest := {| to_json _ := None; from_json _ := None |}.
#[export] Instance melt_json : Json MeltRequest := {| to_json _ := None; from_json _ := None |}.
#[export] Instance melted_json : Json Melt.MeltResponse := {| to_json _ := None; from_json _ := None |}.

Definition key : string := default ""%string (calculate_key request).
Definition first_swap := cache_post_swap (env 1) (HBlind (bat "secret-A")) request server.
Definition sigs : list BlindSignature := match fst first_swap with Ok l => l | _ => [] end.
Definition answer : string := default ""%string (to_json sigs).

Lemma first_swap_Ok : first_swap = (Ok sigs, snd first_swap).
Proof.
  unfold sigs. destruct first_swap as [[l| |] s] eqn:E; [reflexivity|exfalso; apply (f_equal fst) in E; vm_compute in E; discriminate E..].
Qed.

Lemma protected_endpoints_enforced_witness : authorised (env 1) (HBlind (bat "secret-A")) server (snd first_swap) Blind.
Proof.
  destruct (protected_endpoints_enforced (PY:=ConcreteIssue.payments) (OG:=MeltRuns.outgoing StateRules.Paid None) (env 1) (HBlind (bat "secret-A")) server) as [H _].
  destruct (H request (Ok sigs) (snd first_swap) Blind first_swap_Ok swap_needs_blind) as [(k & b & v & _ & Hc & _)|[[Hno _]|Hauth]];
    [discriminate Hc|by destruct (Hno sigs)|exact Hauth].
Defined.

(** The entry is still there: the answer is repeated, for a request without a
    token. *)
Lemma swap_retry_safe_witness : fst (cache_post_swap (env 2) HNone request (snd first_swap)) = Ok sigs.
Proof.
  destruct (cache_post_swap (env 2) HNone request (snd first_swap)) as [x s3] eqn:E.
  destruct (swap_retry_safe (env 1) (HBlind (bat "secret-A")) (env 2) HNone request key answer server sigs (snd first_swap)
    (snd first_swap) x s3) as (Hkept & Hhit & _).
  - vm_compute. reflexivity.
  - reflexivity.
  - exact first_swap_Ok.
  - discriminate.
  - vm_compute. reflexivity.
  - vm_compute. reflexivity.
  - intros y row Hrow _. by exists row.
  - exact E.
  - by destruct (Hhit Hkept) as [-> _].
Defined.

(** When the entry has expired the same swap is refused, and without a token it
    does not even reach the mint. *)
Example expired_retry_refused :
  let s := mkServer (sv_auth (snd first_swap)) (sv_mint (snd first_swap)) ∅ in
  fst (cache_post_swap (env 2) (HBlind (bat "secret-B")) request s) = Err (into_response Mint.BlindedMessageAlreadySigned) /\
  fst (cache_post_swap (env 2) HNone request s) = Err (into_response Mint.BlindAuthRequired).
Proof. vm_compute. repeat split. Qed.

(** A statement that fails while the endpoints are stored is skipped: the start
    succeeds and the endpoint is open. *)
Example lost_protection :
  let w := setup_authentication settings (with_faults fresh_world [false; false; true; true; true; true]) in
  fst w = Ok tt /\ at_protected (a_store (snd w)) = ∅.
Proof. vm_compute. split; reflexivity. Qed.

End ConcreteAuth.

Module ConcreteBlindMint.
Import Nut00 KeysetId Bdhke MintDb Mint Keysets KeysetFacts ConcreteCurve ConcreteSignatory Auth AuthFacts.

Definition world : AWorld := mkAWorld true empty_auth_db empty_auth_db [] (Some (OidcClient_new "url" (Some "wallet"))).
Definition info : AuthInfo := mkAuthInfo (Some (mkSettings21 "url" "wallet" [])) (Some (mkSettings22 5 [])).
Definition sat_request : MintAuthRequest := mkMintAuthRequest [message 1 "first"; message 1 "second"].
Definition run := mint_blind_auth (SG := db_signatory (k_sig started) (fun _ => "n"%char)) provider 50 (Ok info) (ClearAuth "good") sat_request world.
Definition got : list BlindSignature := match fst run with Ok l => l | _ => [] end.

Lemma auth_run_Ok : run = (Ok got, snd run).
Proof.
  assert (H : (match fst run with Ok _ => true | _ => false end) = true) by (vm_compute; reflexivity).
  unfold got. destruct run as [[l| |] w]; [reflexivity|discriminate H..].
Qed.

(** Two sats for a clear token. *)
Lemma sats_for_a_clear_token : mk_unit sat_entry.2 = Amount.Sat /\
  exists ps, construct_proofs got [blinding; blinding] ["first"; "second"] (keys_of (mk_keys sat_entry.2)) = Ok ps /\
    db_verify_proofs (k_sig started) ps = Ok tt /\ sumN (amount <$> ps) = 2.
Proof.
  split; [vm_compute; reflexivity|].
  destruct (blind_minting_issues_money (k_sig started) (fun _ => "n"%char) sat_id sat_entry.1 sat_entry.2 provider 50 (Ok info)
    (ClearAuth "good") sat_request world got (snd run) ["first"; "second"] [blinding; blinding]) as (ps & Hc & Hv & _ & Hs).
  - exact (eq_trans sat_entry_loaded (f_equal Some (surjective_pairing sat_entry))).
  - apply sat_well_keyed.
  - reflexivity.
  - repeat constructor; vm_compute; reflexivity.
  - exact auth_run_Ok.
  - exists ps. auto.
Qed.

End ConcreteBlindMint.
