(* ===== verification/Selection.v ===== *)
(** * The wallet's choice of proofs (crates/cdk/src/wallet/proofs.rs)

    [Wallet::select_proofs] picks proofs that cover an amount: all proofs of
    inactive keysets, then one proof for each part of the split of the amount,
    then halves and quarters of the parts that are missing, then the closest
    larger proof; what is superfluous is dropped again.

    A [HashSet] of proofs is the list of its elements in the order in which
    they were inserted, and [iter] is the order in which the set is read out;
    the map of keyset fees is the list of its entries in the order in which it
    is read.  The counter [n] of the third step is an [i32], which wraps around
    in a release build. *)
From Stdlib Require Import ZArith.
From stdpp Require Import base numbers list sorting strings gmap.
From S2P Require Import Prelude Amount Nuts States.
Import Nut00.

Local Open Scope N_scope.
Local Open Scope res_scope.

Module Selection.
Section defs.
Context {CR : Crypto} {PD : EqDecision Proof} (iter : list Proof -> list Proof).

Inductive Error := InsufficientFunds | SumFailed (e : Amount.Error) | SplitFailed (e : Amount.Error).

Definition total (proofs : list Proof) : res Error N := map_err SumFailed (total_amount proofs).

(** [KeysetFeeAndAmounts]. *)
Definition KeysetFeeAndAmounts : Type := list (Id * Amount.FeeAndAmounts).

(** [sort_by(|a, b| a.cmp(b).reverse())]: stable, by amount, descending. *)
Fixpoint insert_by (le : N -> N -> bool) (p : Proof) (l : list Proof) : list Proof :=
  match l with
  | [] => [p]
  | q :: l' => if le (amount p) (amount q) then p :: l else q :: insert_by le p l'
  end.
Definition sort_desc (l : list Proof) : list Proof := foldr (insert_by (fun a b => b <=? a)) [] l.
(** [sort_by(|a, b| a.amount.cmp(&b.amount))]. *)
Definition sort_asc (l : list Proof) : list Proof := foldr (insert_by N.leb) [] l.

(** [HashSet::insert]. *)
Definition set_insert (s : list Proof) (p : Proof) : list Proof := if decide (p ∈ s) then s else s ++ [p].

(** The closure [select_proof]. *)
Fixpoint scan (selected proofs : list Proof) (target : N) (exact : bool) (last_proof : option Proof) : option Proof :=
  match proofs with
  | [] => last_proof
  | p :: proofs' =>
      if decide (p ∈ selected) then scan selected proofs' target exact last_proof
      else if amount p =? target then Some p
      else if negb exact && (target <? amount p) then scan selected proofs' target exact (Some p)
      else if amount p <? target then last_proof
      else scan selected proofs' target exact last_proof
  end.

Definition select_proof (proofs : list Proof) (target : N) (exact : bool) (selected : list Proof) : bool * list Proof :=
  match scan selected proofs target exact None with
  | Some p => (true, set_insert selected p)
  | None => (false, selected)
  end.

(** One part of the split after the other. *)
Fixpoint select_optimal (proofs : list Proof) (parts : list N) (selected : list Proof) (remaining : list N)
    : list Proof * list N :=
  match parts with
  | [] => (selected, remaining)
  | part :: parts' =>
      match select_proof proofs part true selected with
      | (true, selected') => select_optimal proofs parts' selected' remaining
      | (false, _) => select_optimal proofs parts' selected (remaining ++ [part])
      end
  end.

Fixpoint select_per_keyset (proofs : list Proof) (target : N) (fees : KeysetFeeAndAmounts) (selected : list Proof)
    (remaining : list N) : res Error (list Proof * list N) :=
  match fees with
  | [] => Ok (selected, remaining)
  | (_, fa) :: fees' =>
      let? parts := map_err SplitFailed (Amount.split target fa) in
      let '(selected, remaining) := select_optimal proofs parts selected remaining in
      select_per_keyset proofs target fees' selected remaining
  end.

(** [for _ in 0..n]: the number of proofs found, at most [n].  Every round but
    the last finds another of the proofs, which bounds the [rounds]. *)
Fixpoint select_n (rounds : nat) (proofs : list Proof) (target : N) (n : Z) (selected : list Proof) : nat * list Proof :=
  match rounds with
  | O => (O, selected)
  | S rounds' =>
      if (n <=? 0)%Z then (O, selected)
      else
        match select_proof proofs target true selected with
        | (true, selected') => let '(count, s) := select_n rounds' proofs target (n - 1) selected' in (S count, s)
        | (false, _) => (O, selected)
        end
  end.

Definition i32_wrap (z : Z) : Z := ((z + 2 ^ 31) mod 2 ^ 32 - 2 ^ 31)%Z.

(** [while let Some(curr_amount) = target_amount.checked_div(2)]: the quotient
    of a 64-bit number reaches zero within 64 rounds.  The result says whether
    the amount was found. *)
Fixpoint select_halves (rounds : nat) (proofs : list Proof) (target : N) (n : Z) (selected : list Proof)
    : bool * list Proof :=
  match rounds with
  | O => (false, selected)
  | S rounds' =>
      let curr_amount := target / 2 in
      if curr_amount =? 0 then (false, selected)
      else
        let '(count, selected) := select_n (S (length proofs)) proofs curr_amount n selected in
        let n := i32_wrap (n - Z.of_nat count) in
        if (n =? 0)%Z then (true, selected)
        else select_halves rounds' proofs curr_amount (i32_wrap (n * 2)) selected
  end.

Definition select_remaining (proofs : list Proof) (selected : list Proof) (remaining_amount : N) : list Proof :=
  match select_halves 64 proofs remaining_amount 2 selected with
  | (true, selected) => selected
  | (false, selected) => snd (select_proof proofs remaining_amount false selected)
  end.

(** The recursive calls are on shorter lists; [fuel] is the length. *)
Fixpoint least_over (fuel : nat) (proofs : list Proof) (target : N) : res Error (list Proof) :=
  let? total_amount := total proofs in
  if total_amount <? target then Err InsufficientFunds
  else if Nat.eqb (length proofs) 1 then Ok proofs
  else
    (fix loop (ixs : list nat) : res Error (list Proof) :=
      match ixs with
      | [] => Ok proofs
      | i :: ixs' =>
          let left := take i proofs in
          let right := drop i proofs in
          let? left_amount := total left in
          let? right_amount := total right in
          match fuel with
          | O => Panic
          | S fuel' =>
              if (target <=? left_amount) && (target <=? right_amount) then
                match least_over fuel' left target, least_over fuel' right target with
                | Ok left_proofs, Ok right_proofs =>
                    let? left_total := total left_proofs in
                    let? right_total := total right_proofs in
                    if left_total <? right_total then Ok left_proofs else Ok right_proofs
                | Ok left_proofs, Err _ => Ok left_proofs
                | Err _, Ok right_proofs => Ok right_proofs
                | Err _, Err _ => Err InsufficientFunds
                | _, _ => Panic
                end
              else if target <=? left_amount then least_over fuel' left target
              else if target <=? right_amount then least_over fuel' right target
              else loop ixs'
          end
      end) (seq 1 (length proofs - 1)).

Definition select_least_amount_over (proofs : list Proof) (target : N) : res Error (list Proof) :=
  least_over (length proofs) proofs target.

(** What [select_proofs] has when it comes to the fees: a result to return at
    once, or the sorted proofs and the selection. *)
Inductive Choice := Done (selected : list Proof) | Chosen (proofs selected : list Proof).
Definition chosen (c : Choice) : list Proof := match c with Done s | Chosen _ s => s end.

Definition choose (target : N) (proofs : list Proof) (active_keyset_ids : list Id) (fees : KeysetFeeAndAmounts)
    : res Error Choice :=
  if target =? 0 then Ok (Done [])
  else
    let? available := total proofs in
    let? _ := ensure (target <=? available) InsufficientFunds in
    let proofs := sort_desc proofs in
    let selected := fold_left set_insert (filter (fun p => is_active p active_keyset_ids = false) proofs) [] in
    let? inactive := total selected in
    if target <=? inactive then Ok (Done (iter selected))
    else
      let? (selected, remaining) := select_per_keyset proofs target fees selected [] in
      match remaining with
      | [] => Ok (Chosen proofs (iter selected))
      | _ =>
          let selected := iter (fold_left (select_remaining proofs) remaining selected) in
          let? total_amount := total selected in
          let? selected :=
            (if negb (total_amount =? target) && Nat.ltb 1 (length selected)
             then select_least_amount_over (sort_desc selected) target
             else Ok selected) in
          Ok (Chosen proofs selected)
      end.

(** [include_fees]; a fee that cannot be calculated counts as zero. *)
Definition include_fees (target : N) (proofs selected : list Proof) (active_keyset_ids : list Id)
    (fees : KeysetFeeAndAmounts) : res Error (list Proof) :=
  let? fee := match Fees.calculate_fee (count_by_keyset selected) (list_to_map ((fun kv => (kv.1, Amount.fee kv.2)) <$> fees)) with
              | Ok f => Ok f | Err _ => Ok 0 | Panic => Panic
              end in
  let? total_amount := total selected in
  let? net_amount := map_err SumFailed (Amount.sub total_amount fee) in
  if target <=? net_amount then Ok selected
  else
    let? remaining_amount := map_err SumFailed (Amount.sub target net_amount) in
    let remaining_proofs := filter (fun p => p ∉ selected) proofs in
    let? more := choose remaining_amount remaining_proofs active_keyset_ids [] in
    Ok (selected ++ chosen more).

Definition select_proofs (target : N) (proofs : list Proof) (active_keyset_ids : list Id) (fees : KeysetFeeAndAmounts)
    (with_fees : bool) : res Error (list Proof) :=
  let? c := choose target proofs active_keyset_ids fees in
  match c with
  | Done selected => Ok selected
  | Chosen proofs selected =>
      if with_fees then include_fees target proofs selected active_keyset_ids fees else Ok selected
  end.

(** [select_exact_proofs]; [get(..).map(|f| f.fee()).unwrap_or_default()] is the
    rate per thousand, taken as an amount. *)
Definition keyset_fee (fees : KeysetFeeAndAmounts) (id : Id) : N :=
  match head (filter (fun kv => kv.1 = id) fees) with Some (_, fa) => Amount.fee fa | None => 0 end.

Definition select_exact_proofs (target : N) (proofs : list Proof) (active_keyset_ids : list Id) (fees : KeysetFeeAndAmounts)
    (with_fees : bool) : res Error (list Proof * option (Proof * N)) :=
  let? input_proofs := select_proofs target proofs active_keyset_ids fees with_fees in
  let? total_for_proofs := match total_amount input_proofs with Ok t => Ok t | Err _ => Ok 0 | Panic => Panic end in
  if target <? total_for_proofs then
    let sorted := sort_asc input_proofs in
    match last sorted with
    | None => Ok (sorted, None)
    | Some p =>
        match (a ← Amount.checked_sub total_for_proofs (amount p);
               b ← Amount.checked_add a (keyset_fee fees (keyset_id p));
               Amount.checked_sub target b) with
        | Some exact => Ok (removelast sorted, Some (p, exact))
        | None => Ok (sorted, None)
        end
    end
  else Ok (input_proofs, None).

End defs.
End Selection.
