(* ===== verification/SelectionFacts.v ===== *)
(** * The wallet's choice of proofs: what it covers and what it does not

    For proofs worth powers of two the choice always covers an amount below
    [2^31] that the wallet has.  The fees of the chosen proofs are not covered
    when the chosen proofs do not do so by themselves. *)
From Stdlib Require Import ZArith Sorted.
From stdpp Require Import base numbers list sorting strings gmap.
From S2P Require Import Prelude Amount Nuts Conditions Concrete States Selection.
Import Nut00 Selection.

Local Open Scope N_scope.
Local Open Scope res_scope.

Module SelectionFacts.
Section facts.
Context {CR : Crypto} {PD : EqDecision Proof}.
Implicit Types (s l ps proofs : list Proof) (p q : Proof).

Definition worth l : N := sumN (amount <$> l).

Lemma worth_app l1 l2 : worth (l1 ++ l2) = worth l1 + worth l2.
Proof. unfold worth. by rewrite fmap_app, sumN_app. Qed.
Lemma worth_cons p l : worth (p :: l) = amount p + worth l.
Proof. unfold worth. by rewrite fmap_cons, sumN_cons. Qed.
Lemma worth_nil : worth [] = 0.
Proof. done. Qed.

#[local] Instance worth_Proper : Proper ((≡ₚ) ==> eq) worth.
Proof. intros l1 l2 H. induction H; rewrite ?worth_cons; lia. Qed.

Lemma worth_submseteq l1 l2 : l1 ⊆+ l2 -> worth l1 <= worth l2.
Proof. intros [k ->]%submseteq_Permutation. rewrite worth_app. lia. Qed.

Lemma total_Ok l : worth l <= U64_MAX -> total l = Ok (worth l).
Proof.
  intros H. unfold total, total_amount. change (map amount l) with (amount <$> l). rewrite Amount.try_sum_exact.
  fold (worth l). by rewrite (proj2 (N.leb_le _ _) H).
Qed.

(** ** Sorting *)

Definition ge_amount p q : Prop := amount q <= amount p.

Lemma insert_by_perm le p l : insert_by le p l ≡ₚ p :: l.
Proof.
  induction l as [|q l IH]; cbn [insert_by]; [done|]. destruct (le (amount p) (amount q)); [done|].
  rewrite IH. apply Permutation_swap.
Qed.

Lemma sort_desc_perm l : sort_desc l ≡ₚ l.
Proof. induction l as [|p l IH]; [done|]. cbn [sort_desc foldr]. fold (sort_desc l). by rewrite insert_by_perm, IH. Qed.

Lemma sort_desc_sorted l : StronglySorted ge_amount (sort_desc l).
Proof.
  induction l as [|p l IH]; cbn [sort_desc foldr]; [constructor|]. fold (sort_desc l). induction IH as [|q k Hk IH Hq]; cbn [insert_by].
  - repeat constructor.
  - destruct (N.leb_spec (amount q) (amount p)).
    + constructor; [by constructor|]. constructor; [done|]. eapply Forall_impl; [exact Hq|]. unfold ge_amount. lia.
    + constructor; [exact IH|]. rewrite insert_by_perm. constructor; [unfold ge_amount; lia|done].
Qed.

Definition le_amount p q : Prop := amount p <= amount q.

Lemma sort_asc_perm l : sort_asc l ≡ₚ l.
Proof. induction l as [|p l IH]; [done|]. cbn [sort_asc foldr]. fold (sort_asc l). by rewrite insert_by_perm, IH. Qed.

Lemma sort_asc_sorted l : StronglySorted le_amount (sort_asc l).
Proof.
  induction l as [|p l IH]; cbn [sort_asc foldr]; [constructor|]. fold (sort_asc l). induction IH as [|q k Hk IH Hq]; cbn [insert_by].
  - repeat constructor.
  - destruct (N.leb_spec (amount p) (amount q)).
    + constructor; [by constructor|]. constructor; [done|]. eapply Forall_impl; [exact Hq|]. unfold le_amount. lia.
    + constructor; [exact IH|]. rewrite insert_by_perm. constructor; [unfold le_amount; lia|done].
Qed.

Lemma last_is_largest l p q : StronglySorted le_amount (l ++ [p]) -> q ∈ l ++ [p] -> amount q <= amount p.
Proof.
  induction l as [|x l IH]; cbn; intros Hs Hq; [apply list_elem_of_singleton in Hq as ->; lia|].
  apply StronglySorted_inv in Hs as [Hs Hx]. apply elem_of_cons in Hq as [->|Hq]; [|by apply IH].
  rewrite Forall_forall in Hx. apply (Hx p). set_solver.
Qed.

(** ** One search *)

Lemma scan_Some s ps t ex o p :
  scan s ps t ex o = Some p -> (o = Some p) \/ (p ∈ ps /\ (p ∉ s) /\ t <= amount p /\ (ex = true -> amount p = t)).
Proof.
  revert o. induction ps as [|q ps IH]; intros o H; cbn [scan] in H; [by left|].
  destruct (decide (q ∈ s)) as [Hq|Hq]; [destruct (IH _ H) as [?|(? & ?)]; [by left|right; set_solver]|].
  destruct (N.eqb_spec (amount q) t) as [Ht|Ht].
  { injection H as <-. right. split; [set_solver|]. split; [done|]. split; [lia|done]. }
  destruct (negb ex && (t <? amount q)) eqn:Hb.
  { apply andb_true_iff in Hb as [He Hlt]. apply negb_true_iff in He. subst ex. apply N.ltb_lt in Hlt.
    destruct (IH _ H) as [[= <-]|(? & ?)]; right; [|set_solver]. split; [set_solver|]. split; [done|]. split; [lia|done]. }
  destruct (amount q <? t); [by left|]. destruct (IH _ H) as [?|(? & ?)]; [by left|right; set_solver].
Qed.

Lemma scan_None s ps t ex o :
  StronglySorted ge_amount ps -> scan s ps t ex o = None ->
  forall p, p ∈ ps -> p ∉ s -> amount p <> t /\ (ex = false -> amount p < t).
Proof.
  intros Hs. revert o. induction Hs as [|q ps Hs IH Hq]; intros o H p Hp Hn; cbn [scan] in H; [by apply not_elem_of_nil in Hp|].
  rewrite Forall_forall in Hq.
  destruct (decide (q ∈ s)) as [Hin|Hin]; [apply elem_of_cons in Hp as [->|Hp]; [done|by eapply IH]|].
  destruct (N.eqb_spec (amount q) t) as [Ht|Ht]; [done|].
  destruct (negb ex && (t <? amount q)) eqn:Hb.
  { exfalso. clear -H. assert (forall l, scan s l t ex (Some q) <> None) as Hc; [|by eapply Hc].
    intros l. generalize q. clear H. induction l as [|x l IH]; intros y; cbn [scan]; [done|].
    destruct (decide (x ∈ s)); [done|]. destruct (_ =? _); [done|]. destruct (_ && _); [done|]. by destruct (_ <? _). }
  destruct (N.ltb_spec (amount q) t) as [Hlt|Hge].
  - apply elem_of_cons in Hp as [->|Hp]; [split; [lia|done]|]. specialize (Hq p Hp). unfold ge_amount in Hq. split; [lia|lia].
  - apply elem_of_cons in Hp as [->|Hp]; [|by eapply IH]. split; [done|]. intros ->. cbn in Hb. apply N.ltb_ge in Hb. lia.
Qed.

(** [s'] is [s] with more proofs of [ps]. *)
Definition grown ps s s' l : Prop := s' = s ++ l /\ (forall p, p ∈ l -> p ∈ ps) /\ NoDup l /\ forall p, p ∈ l -> p ∉ s.

Lemma grown_nil ps s : grown ps s s [].
Proof. unfold grown. rewrite app_nil_r. split; [done|]. split; [set_solver|]. split; [constructor|set_solver]. Qed.

Lemma grown_trans ps s1 s2 s3 l1 l2 : grown ps s1 s2 l1 -> grown ps s2 s3 l2 -> grown ps s1 s3 (l1 ++ l2).
Proof.
  intros (-> & H1 & N1 & D1) (-> & H2 & N2 & D2). split; [by rewrite app_assoc|]. split; [set_solver|]. split; [|set_solver].
  apply NoDup_app. split; [done|]. split; [set_solver|done].
Qed.

Lemma select_proof_true ps t ex s s' :
  select_proof ps t ex s = (true, s') ->
  exists p, grown ps s s' [p] /\ t <= amount p /\ (ex = true -> amount p = t).
Proof.
  unfold select_proof. destruct (scan s ps t ex None) as [p|] eqn:H; [|done]. intros [= <-].
  apply scan_Some in H as [?|(Hp & Hn & Hle & Heq)]; [done|]. exists p. split; [|done].
  unfold set_insert. rewrite decide_False by done. split; [done|]. split; [set_solver|]. split; [|set_solver].
  apply NoDup_singleton.
Qed.

Lemma select_proof_false ps t ex s s' :
  StronglySorted ge_amount ps -> select_proof ps t ex s = (false, s') ->
  s' = s /\ forall p, p ∈ ps -> p ∉ s -> amount p <> t /\ (ex = false -> amount p < t).
Proof.
  intros Hs. unfold select_proof. destruct (scan s ps t ex None) as [p|] eqn:H; [done|]. intros [= <-].
  split; [done|]. by eapply scan_None.
Qed.

(** ** What the steps cover *)

Definition full ps s : Prop := forall p, p ∈ ps -> p ∈ s.
Definition covers ps s s' (v : N) : Prop := exists l, grown ps s s' l /\ (v <= worth l \/ full ps s').

Lemma covers_zero ps s : covers ps s s 0.
Proof. exists []. split; [apply grown_nil|left; lia]. Qed.

Lemma covers_trans ps s1 s2 s3 v1 v2 : covers ps s1 s2 v1 -> covers ps s2 s3 v2 -> covers ps s1 s3 (v1 + v2).
Proof.
  intros (l1 & G1 & H1) (l2 & G2 & H2). exists (l1 ++ l2). split; [by eapply grown_trans|]. rewrite worth_app.
  destruct H1 as [H1|H1], H2 as [H2|H2]; [left; lia|right..]; try done.
  all: destruct G2 as (-> & _); intros p Hp; apply elem_of_app; left; by apply H1.
Qed.

Lemma select_optimal_covers ps parts : forall s rem s' rem',
  select_optimal ps parts s rem = (s', rem') ->
  exists extra got, rem' = rem ++ extra /\ got + sumN extra = sumN parts /\ covers ps s s' got /\ forall x, x ∈ extra -> x ∈ parts.
Proof.
  induction parts as [|x parts IH]; intros s rem s' rem' H; cbn [select_optimal] in H.
  { injection H as <- <-. exists [], 0. rewrite app_nil_r. split; [done|]. split; [done|]. split; [apply covers_zero|set_solver]. }
  destruct (select_proof ps x true s) as [[] s1] eqn:H1.
  - apply IH in H as (extra & got & -> & Hg & Hc & Hin). exists extra, (x + got). rewrite sumN_cons. split; [done|]. split; [lia|].
    split; [|set_solver]. eapply covers_trans; [|exact Hc]. apply select_proof_true in H1 as (p & Hgr & Hle & _).
    exists [p]. split; [done|]. left. rewrite worth_cons, worth_nil. lia.
  - apply IH in H as (extra & got & -> & Hg & Hc & Hin). exists (x :: extra), got. rewrite !sumN_cons, <- app_assoc.
    split; [done|]. split; [lia|]. split; [done|set_solver].
Qed.

Lemma select_n_rounds ps c rounds : StronglySorted ge_amount ps -> forall n s count s',
  (0 <= n)%Z -> select_n rounds ps c n s = (count, s') ->
  exists l, grown ps s s' l /\ length l = count /\ (Z.of_nat count <= n)%Z /\ worth l = N.of_nat count * c /\
    ((Z.of_nat count < n)%Z -> (count < rounds)%nat -> forall p, p ∈ ps -> p ∉ s' -> amount p <> c).
Proof.
  intros Hs. induction rounds as [|rounds IH]; intros n s count s' Hn H; cbn [select_n] in H.
  { injection H as <- <-. exists []. split; [apply grown_nil|]. rewrite worth_nil. do 3 (split; [done|]). lia. }
  destruct (Z.leb_spec n 0) as [Hz|Hz].
  { injection H as <- <-. exists []. split; [apply grown_nil|]. rewrite worth_nil. do 3 (split; [done|]). lia. }
  destruct (select_proof ps c true s) as [[] s1] eqn:H1.
  - destruct (select_n rounds ps c (n - 1) s1) as [k s2] eqn:H2. injection H as <- <-. apply IH in H2 as (l & Hg & Hl & Hk & Hw & Hmore); [|lia].
    apply select_proof_true in H1 as (p & Hp & _ & Heq). exists ([p] ++ l). split; [by eapply grown_trans|].
    rewrite length_app, Hl. split; [done|]. split; [lia|]. rewrite worth_app, Hw, worth_cons, worth_nil, (Heq eq_refl). split; [lia|].
    intros Hlt Hr. apply Hmore; lia.
  - injection H as <- <-. apply select_proof_false in H1 as [_ Hno]; [|done]. exists []. split; [apply grown_nil|].
    rewrite worth_nil. do 3 (split; [done|]). intros _ _ p Hp Hn'. by apply Hno.
Qed.

Lemma select_n_spec ps c n s count s' : StronglySorted ge_amount ps -> (0 <= n)%Z ->
  select_n (S (length ps)) ps c n s = (count, s') ->
  exists l, grown ps s s' l /\ (Z.of_nat count <= n)%Z /\ worth l = N.of_nat count * c /\
    ((Z.of_nat count < n)%Z -> forall p, p ∈ ps -> p ∉ s' -> amount p <> c).
Proof.
  intros Hs Hn H. apply select_n_rounds in H as (l & Hg & Hl & Hc & Hw & Hmore); [|done|done]. exists l. do 3 (split; [done|]).
  intros Hlt. apply Hmore; [done|]. destruct Hg as (_ & Hin & Hnd & _).
  pose proof (submseteq_length _ _ (NoDup_submseteq _ _ Hnd Hin)). lia.
Qed.

(** ** Halves and quarters *)

Definition pow2 (a : N) : Prop := exists k, a = 2 ^ k.

Lemma i32_wrap_id z : (- 2 ^ 31 <= z < 2 ^ 31)%Z -> i32_wrap z = z.
Proof. intros H. unfold i32_wrap. rewrite Z.mod_small; lia. Qed.

Lemma pow2_below a j : pow2 a -> a < 2 ^ (1 + j) -> a <> 2 ^ j -> a < 2 ^ j.
Proof.
  intros [k ->] Hlt Hne. apply N.pow_lt_mono_r_iff in Hlt; [|lia]. apply N.pow_lt_mono_r_iff; [lia|].
  assert (k <> j) by congruence. lia.
Qed.

(** The loop invariant: what was found and what is looked for, [n] times the
    next half, make up the amount [r]; every smaller proof down to [2^j] has
    been taken. *)
Lemma select_halves_spec ps r s0 : StronglySorted ge_amount ps -> Forall (fun p => pow2 (amount p)) ps -> r < 2 ^ 31 ->
  forall j rounds n s l b s',
  (j < rounds)%nat -> grown ps s0 s l ->
  (j <> O -> (0 < n)%Z /\ worth l + Z.to_N n * 2 ^ N.of_nat (j - 1) = r) ->
  (forall p, p ∈ ps -> p ∉ s -> amount p < r -> amount p < 2 ^ N.of_nat j) ->
  select_halves rounds ps (2 ^ N.of_nat j) n s = (b, s') ->
  exists l', grown ps s0 s' l' /\ (if b then worth l' = r else forall p, p ∈ ps -> p ∉ s' -> r <= amount p).
Proof.
  intros Hs Hpow Hr. rewrite Forall_forall in Hpow. induction j as [|j IH]; intros rounds n s l b s' Hj Hg Hval Hseen H;
    (destruct rounds as [|rounds]; [lia|]); cbn [select_halves] in H.
  - injection H as <- <-. exists l. split; [done|]. intros p Hp Hnp. apply N.nlt_ge. intros Hlt. pose proof (Hseen p Hp Hnp Hlt) as Hx.
    destruct (Hpow p Hp) as [k Hk]. pose proof (N.pow_nonzero 2 k). change (2 ^ N.of_nat 0) with 1 in Hx. lia.
  - assert (Hdbl : 2 ^ N.of_nat (S j) = 2 * 2 ^ N.of_nat j) by (by rewrite Nat2N.inj_succ, N.pow_succ_r').
    assert (Hhalf : 2 ^ N.of_nat (S j) / 2 = 2 ^ N.of_nat j) by (rewrite Hdbl, N.mul_comm; by apply N.div_mul).
    rewrite Hhalf in H. pose proof (N.pow_nonzero 2 (N.of_nat j) ltac:(done)) as Hnz. destruct (N.eqb_spec (2 ^ N.of_nat j) 0); [done|].
    destruct (Hval ltac:(done)) as [Hn Hv]. replace (S j - 1)%nat with j in Hv by lia.
    destruct (select_n (S (length ps)) ps (2 ^ N.of_nat j) n s) as [count s1] eqn:Hc.
    apply select_n_spec in Hc as (l1 & Hg1 & Hcn & Hw1 & Hmore); [|done|lia].
    assert (Hnb : (n < 2 ^ 31)%Z) by nia. rewrite i32_wrap_id in H by lia. pose proof (grown_trans _ _ _ _ _ _ Hg Hg1) as Hg2.
    assert (Hw2 : worth (l ++ l1) + Z.to_N (n - Z.of_nat count) * 2 ^ N.of_nat j = r).
    { rewrite worth_app, Hw1. replace (Z.to_N n) with (N.of_nat count + Z.to_N (n - Z.of_nat count)) in Hv by lia. lia. }
    destruct (Z.eqb_spec (n - Z.of_nat count) 0) as [Hz|Hz].
    { injection H as <- <-. exists (l ++ l1). split; [done|]. rewrite Hz in Hw2. lia. }
    eapply (IH rounds); [lia|exact Hg2| | |exact H].
    + intros Hj0. destruct j as [|j]; [done|]. replace (S j - 1)%nat with j by lia.
      assert (Hdbl' : 2 ^ N.of_nat (S j) = 2 * 2 ^ N.of_nat j) by (by rewrite Nat2N.inj_succ, N.pow_succ_r').
      pose proof (N.pow_nonzero 2 (N.of_nat j) ltac:(done)). set (m := (n - Z.of_nat count)%Z) in *. assert (0 < m)%Z by lia.
      rewrite i32_wrap_id by nia. split; [lia|]. rewrite <- Hw2, Hdbl'. replace (Z.to_N (m * 2)) with (Z.to_N m * 2) by lia. lia.
    + intros p Hp Hnp Hlt. destruct Hg1 as (-> & _). apply pow2_below; [by apply Hpow| |].
      * rewrite N.add_1_l, <- Nat2N.inj_succ. apply Hseen; [done|set_solver|done].
      * apply Hmore; [lia|done|done].
Qed.

Lemma select_remaining_covers ps s r :
  StronglySorted ge_amount ps -> Forall (fun p => pow2 (amount p)) ps -> pow2 r -> r < 2 ^ 31 ->
  covers ps s (select_remaining ps s r) r.
Proof.
  intros Hs Hpow [k Hk] Hr. unfold select_remaining. destruct (select_halves 64 ps r 2 s) as [b s1] eqn:H.
  assert (Hkb : k < 31) by (subst r; apply N.pow_lt_mono_r_iff in Hr; lia).
  replace r with (2 ^ N.of_nat (N.to_nat k)) in H at 1 by (by rewrite N2Nat.id).
  apply (select_halves_spec ps r s Hs Hpow Hr _ _ _ _ []) in H as (l & Hg & Hb); [|lia|apply grown_nil| |].
  - destruct b; [exists l; split; [done|left; lia]|].
    destruct (select_proof ps r false s1) as [[] s2] eqn:H2; cbn [snd].
    + apply select_proof_true in H2 as (p & Hp & Hle & _). exists (l ++ [p]). split; [by eapply grown_trans|].
      left. rewrite worth_app, worth_cons. lia.
    + apply select_proof_false in H2 as [-> Hno]; [|done]. exists l. split; [done|]. right. intros p Hp.
      destruct (decide (p ∈ s1)) as [|Hn]; [done|]. pose proof (Hb p Hp Hn). destruct (Hno p Hp Hn) as [_ Hlt]. specialize (Hlt eq_refl). lia.
  - intros Hj. split; [done|]. rewrite worth_nil. change (Z.to_N 2) with 2. rewrite N.add_0_l, Hk, <- N.pow_succ_r'. f_equal. lia.
  - intros p _ _ Hlt. by rewrite N2Nat.id, <- Hk.
Qed.

Lemma fold_remaining_covers ps rem s :
  StronglySorted ge_amount ps -> Forall (fun p => pow2 (amount p)) ps -> Forall (fun r => pow2 r /\ r < 2 ^ 31) rem ->
  covers ps s (fold_left (select_remaining ps) rem s) (sumN rem).
Proof.
  intros Hs Hpow Hrem. revert s. induction Hrem as [|r rem [Hr1 Hr2] _ IH]; intros s; cbn [fold_left]; [apply covers_zero|].
  rewrite sumN_cons. eapply covers_trans; [by apply select_remaining_covers|apply IH].
Qed.

(** ** Per keyset *)

Definition pow2_keyset (kv : Id * Amount.FeeAndAmounts) : Prop :=
  exists k, Amount.amounts kv.2 = Amount.pow2_amounts k.

Lemma pow2_in_amounts k x : x ∈ Amount.pow2_amounts k -> pow2 x.
Proof. unfold Amount.pow2_amounts. intros (i & -> & _)%list_elem_of_fmap. by exists (N.of_nat i). Qed.

(** The parts of the amount for one keyset. *)
Lemma split_parts t (kv : Id * Amount.FeeAndAmounts) :
  pow2_keyset kv -> exists parts, Amount.split t kv.2 = Ok parts /\ sumN parts <= t /\ Forall (fun x => pow2 x /\ x <= t) parts /\
    (forall k, Amount.amounts kv.2 = Amount.pow2_amounts k -> t < 2 ^ N.of_nat k -> sumN parts = t).
Proof.
  intros [k Hk]. pose proof (Amount.pow2_amounts_pos k) as Hpos. exists (Amount.greedy (rev (Amount.pow2_amounts k)) t).
  rewrite Amount.split_greedy, Hk by (by rewrite Hk). split; [done|].
  assert (Hle : sumN (Amount.greedy (rev (Amount.pow2_amounts k)) t) <= t) by (apply Amount.greedy_sum_le; by apply Forall_rev).
  split; [done|]. split.
  - apply Forall_forall. intros x Hx. split; [|pose proof (sumN_elem_of _ _ Hx); lia]. apply Amount.greedy_subset in Hx.
    apply (pow2_in_amounts k). by rewrite list_elem_of_In, <- in_rev, <- list_elem_of_In in Hx.
  - intros k' Hk' Hlt. assert (k' = k) as ->; [|by apply Amount.greedy_pow2_sum].
    assert (Hl := f_equal length Hk'). unfold Amount.pow2_amounts in Hl. rewrite !length_map, !length_seq in Hl. done.
Qed.

Lemma select_per_keyset_covers ps t fees : Forall pow2_keyset fees -> forall s rem,
  exists s' extra got, select_per_keyset ps t fees s rem = Ok (s', rem ++ extra) /\ covers ps s s' got /\
    Forall (fun x => pow2 x /\ x <= t) extra /\
    ((exists kv k, kv ∈ fees /\ Amount.amounts kv.2 = Amount.pow2_amounts k /\ t < 2 ^ N.of_nat k) -> t <= got + sumN extra).
Proof.
  intros Hf. induction Hf as [|kv fees Hkv Hf IH]; intros s rem; cbn [select_per_keyset].
  { exists s, [], 0. rewrite app_nil_r. split; [done|]. split; [apply covers_zero|]. split; [constructor|]. intros (kv & k & Hin & _).
    by apply not_elem_of_nil in Hin. }
  destruct (split_parts t kv Hkv) as (parts & Hp & Hle & Hparts & Hex). destruct kv as [id fa]. cbn [snd] in *. rewrite Hp. cbn [map_err].
  destruct (select_optimal ps parts s rem) as [s1 rem1] eqn:Ho.
  apply select_optimal_covers in Ho as (extra & got & -> & Hg & Hc & Hin).
  destruct (IH s1 (rem ++ extra)) as (s' & extra' & got' & Heq & Hc' & Hx & Hsum). rewrite <- app_assoc in Heq.
  exists s', (extra ++ extra'), (got + got'). split; [exact Heq|]. split; [by eapply covers_trans|]. split.
  - apply Forall_app. split; [|done]. apply Forall_forall. intros x Hx'. rewrite Forall_forall in Hparts. apply Hparts, Hin, Hx'.
  - rewrite sumN_app. intros (kv & k & [->|Hk]%elem_of_cons & Ha & Hlt); [pose proof (Hex k Ha Hlt); lia|].
    assert (t <= got' + sumN extra') by (apply Hsum; eauto). lia.
Qed.

(** ** Dropping what is superfluous *)

Lemma take_drop_worth i l : worth (take i l) + worth (drop i l) = worth l.
Proof. by rewrite <- worth_app, take_drop. Qed.

Lemma least_over_spec t fuel : forall l,
  (length l <= fuel)%nat -> worth l <= U64_MAX -> t <= worth l ->
  exists l', least_over fuel l t = Ok l' /\ l' `sublist_of` l /\ t <= worth l'.
Proof.
  induction fuel as [|fuel IH]; intros l Hlen Hmax Hge.
  { apply Nat.le_0_r, nil_length_inv in Hlen as ->. exists []. cbn [least_over]. rewrite total_Ok by done. rewrite worth_nil in *.
    destruct (N.ltb_spec 0 t); [lia|]. done. }
  cbn [least_over]. rewrite total_Ok by done. destruct (N.ltb_spec (worth l) t); [lia|].
  destruct (Nat.eqb_spec (length l) 1) as [H1|H1]; [exists l; done|].
  assert (Hixs : forall i, i ∈ seq 1 (length l - 1) -> (1 <= i < length l)%nat) by (intros i Hi%elem_of_seq; lia).
  induction (seq 1 (length l - 1)) as [|i ixs IHi]; [exists l; done|].
  specialize (Hixs i (list_elem_of_here _ _)) as Hi. pose proof (take_drop_worth i l) as Hw.
  rewrite !total_Ok by lia.
  assert (HL : t <= worth (take i l) -> exists l', least_over fuel (take i l) t = Ok l' /\ l' `sublist_of` l /\ t <= worth l').
  { intros H2. destruct (IH (take i l)) as (l' & H3 & H4 & H5); [rewrite length_take; lia|lia|done|].
    exists l'. split; [done|]. split; [|done]. etrans; [exact H4|]. apply sublist_take. }
  assert (HR : t <= worth (drop i l) -> exists l', least_over fuel (drop i l) t = Ok l' /\ l' `sublist_of` l /\ t <= worth l').
  { intros H2. destruct (IH (drop i l)) as (l' & H3 & H4 & H5); [rewrite length_drop; lia|lia|done|].
    exists l'. split; [done|]. split; [|done]. etrans; [exact H4|]. apply sublist_drop. }
  destruct (N.leb_spec t (worth (take i l))) as [Hl|Hl], (N.leb_spec t (worth (drop i l))) as [Hr|Hr]; cbn [andb].
  - destruct (HL Hl) as (a & Ha & Has & Hat), (HR Hr) as (b & Hb & Hbs & Hbt). rewrite Ha, Hb.
    pose proof (worth_submseteq _ _ (sublist_submseteq _ _ Has)). pose proof (worth_submseteq _ _ (sublist_submseteq _ _ Hbs)).
    rewrite !total_Ok by lia. destruct (worth a <? worth b); eauto.
  - by apply HL.
  - by apply HR.
  - apply IHi. intros j Hj. apply Hixs. by apply list_elem_of_further.
Qed.

(** ** The loops end

    More rounds than the model gives the loops do not change what they return. *)

Definition left_over (ps s : list Proof) : nat := length (filter (fun p => p ∉ s) ps).

Lemma left_over_app ps s p : p ∈ ps -> p ∉ s -> (left_over ps (s ++ [p]) < left_over ps s)%nat.
Proof.
  unfold left_over. intros Hp Hn. induction ps as [|q ps IH]; [set_solver|].
  assert (Hle : forall l, (length (filter (fun p0 => p0 ∉ s ++ [p]) l) <= length (filter (fun p0 => p0 ∉ s) l))%nat).
  { induction l as [|x l IHl]; [done|]. rewrite !filter_cons. repeat case_decide; cbn [length]; set_solver by lia. }
  rewrite !filter_cons. apply elem_of_cons in Hp as [<-|Hp].
  - rewrite decide_False by set_solver. rewrite decide_True by done. cbn [length]. specialize (Hle ps). lia.
  - specialize (IH Hp). repeat case_decide; cbn [length]; set_solver by lia.
Qed.

Lemma select_n_ends ps c : forall r1 r2 n s, (left_over ps s < r1)%nat -> (left_over ps s < r2)%nat ->
  select_n r1 ps c n s = select_n r2 ps c n s.
Proof.
  induction r1 as [|r1 IH]; intros [|r2] n s H1 H2; [lia..|]. cbn [select_n]. destruct (n <=? 0)%Z; [done|].
  destruct (select_proof ps c true s) as [[] s'] eqn:Hp; [|done].
  apply select_proof_true in Hp as (p & (-> & Hin & Hnd & Hs) & _).
  assert (Hlt : (left_over ps (s ++ [p]) < left_over ps s)%nat) by (apply left_over_app; set_solver).
  by rewrite (IH r2) by lia.
Qed.

Lemma select_halves_ends ps : forall r n t s r1 r2, t < 2 ^ N.of_nat r -> (r <= r1)%nat -> (r <= r2)%nat ->
  select_halves r1 ps t n s = select_halves r2 ps t n s.
Proof.
  induction r as [|r IH]; intros n t s r1 r2 Ht H1 H2.
  - assert (t = 0) as -> by (cbn in Ht; lia). by destruct r1, r2.
  - destruct r1 as [|r1], r2 as [|r2]; [lia..|]. cbn [select_halves]. destruct (_ =? 0); [done|].
    destruct (select_n _ _ _ _ _) as [count s1]. destruct (_ =? 0)%Z; [done|]. apply IH; [|lia..].
    apply N.Div0.div_lt_upper_bound. by rewrite Nat2N.inj_succ, N.pow_succ_r' in Ht.
Qed.

Lemma total_Panic (l : list Proof) : total l <> Panic.
Proof. unfold total, total_amount. rewrite Amount.try_sum_exact. by destruct (_ <=? _). Qed.

(** A list of one proof or none is not divided. *)
Lemma least_over_short t n l : (length l <= 1)%nat -> least_over n l t = least_over 0 l t /\ least_over n l t <> Panic.
Proof.
  destruct n, l as [|p [|q l]]; cbn -[total]; intros Hl; try lia;
    (destruct (total _) as [a|e|] eqn:Ht; [by destruct (a <? t)|done|by apply total_Panic in Ht]).
Qed.

Lemma least_over_ends t : forall n m l, (length l <= n)%nat -> (length l <= m)%nat ->
  least_over n l t = least_over m l t /\ least_over n l t <> Panic.
Proof.
  induction n as [|n IH]; intros m l Hn Hm.
  { destruct (least_over_short t 0 l) as [_ H0], (least_over_short t m l) as [H1 _]; [lia..|]. by rewrite H1. }
  destruct m as [|m]. { destruct (least_over_short t (S n) l) as [H1 H2]; [lia|]. by rewrite H1 in *. }
  cbn [least_over]. destruct (total l) as [a|e|] eqn:Ht; [|done|by apply total_Panic in Ht].
  destruct (a <? t); [done|]. destruct (Nat.eqb_spec (length l) 1); [done|].
  assert (Hixs : forall i, i ∈ seq 1 (length l - 1) -> (1 <= i < length l)%nat) by (intros i Hi%elem_of_seq; lia).
  induction (seq 1 (length l - 1)) as [|i ixs IHi]; [done|]. specialize (Hixs i (list_elem_of_here _ _)) as Hi.
  destruct (total (take i l)) as [la| |] eqn:Hl; [|done|by apply total_Panic in Hl].
  destruct (total (drop i l)) as [ra| |] eqn:Hr; [|done|by apply total_Panic in Hr].
  destruct (IH m (take i l)) as [HL HLp]; [rewrite length_take; lia..|]. destruct (IH m (drop i l)) as [HR HRp]; [rewrite length_drop; lia..|].
  rewrite <- HL, <- HR. destruct (t <=? la), (t <=? ra); cbn [andb]; [|done..|apply IHi; set_solver].
  destruct (least_over n (take i l) t) as [x|e|]; [| |done]; (destruct (least_over n (drop i l) t) as [y|e'|]; [|done..]); [|done].
  destruct (total x) as [lt| |] eqn:Hx; [|done|by apply total_Panic in Hx].
  destruct (total y) as [rt| |] eqn:Hy; [|done|by apply total_Panic in Hy]. by destruct (lt <? rt).
Qed.
(** ** The choice *)

Context (iter : list Proof -> list Proof) (iter_perm : forall l, iter l ≡ₚ l).

Lemma set_insert_spec s p : set_insert s p = s \/ (set_insert s p = s ++ [p] /\ p ∉ s).
Proof. unfold set_insert. case_decide; auto. Qed.

Lemma fold_insert_spec l : forall s, NoDup s -> NoDup (fold_left set_insert l s) /\
  (forall p, p ∈ fold_left set_insert l s -> p ∈ s \/ p ∈ l).
Proof.
  induction l as [|x l IH]; intros s Hnd; cbn [fold_left]; [split; [done|by left]|].
  destruct (set_insert_spec s x) as [->|[-> Hx]].
  - destruct (IH s Hnd) as [H1 H2]. split; [done|]. intros p Hp. destruct (H2 p Hp); set_solver.
  - destruct (IH (s ++ [x])) as [H1 H2].
    { apply NoDup_app. split; [done|]. split; [set_solver|apply NoDup_singleton]. }
    split; [done|]. intros p Hp. destruct (H2 p Hp); set_solver.
Qed.

(** A choice of proofs of [ps], each once. *)
Definition picked ps s : Prop := NoDup s /\ forall p, p ∈ s -> p ∈ ps.

Lemma picked_submseteq ps s : picked ps s -> s ⊆+ ps.
Proof. intros [Hnd Hin]. by apply NoDup_submseteq. Qed.

Lemma picked_grown ps s s' l : picked ps s -> grown ps s s' l -> picked ps s'.
Proof.
  intros [Hnd Hin] (-> & Hl & Hndl & Hd). split; [|set_solver]. apply NoDup_app. split; [done|]. split; [set_solver|done].
Qed.

Lemma picked_full ps s : NoDup ps -> full ps s -> worth ps <= worth s.
Proof. intros Hnd Hf. apply worth_submseteq. by apply NoDup_submseteq. Qed.

Definition usable_fees (t : N) (fees : KeysetFeeAndAmounts) : Prop :=
  Forall pow2_keyset fees /\ exists kv k, kv ∈ fees /\ Amount.amounts kv.2 = Amount.pow2_amounts k /\ t < 2 ^ N.of_nat k.

(** The set that the three steps select covers the amount. *)
Lemma steps_cover ps t s s1 s2 extra got :
  NoDup ps -> picked ps s -> t <= worth ps -> covers ps s s1 got -> covers ps s1 s2 (sumN extra) -> t <= got + sumN extra ->
  picked ps s2 /\ t <= worth s2.
Proof.
  intros Hnd Hpk Hps H1 H2 Ht. destruct (covers_trans _ _ _ _ _ _ H1 H2) as (l & Hg & Hv).
  split; [by eapply picked_grown|]. destruct Hv as [Hv|Hv]; [destruct Hg as (-> & _); rewrite worth_app; lia|].
  pose proof (picked_full _ _ Hnd Hv). lia.
Qed.

Lemma choose_covers t proofs active fees :
  NoDup proofs -> Forall (fun p => pow2 (amount p)) proofs -> worth proofs <= U64_MAX -> t <= worth proofs -> t < 2 ^ 31 ->
  usable_fees t fees ->
  exists c, choose iter t proofs active fees = Ok c /\ chosen c ⊆+ proofs /\ t <= worth (chosen c).
Proof.
  intros Hnd Hpow Hmax Hle Hsmall [Hf Hex]. unfold choose.
  destruct (N.eqb_spec t 0) as [->|Ht0]; [exists (Done []); split; [done|]; split; [apply submseteq_nil_l|cbn; lia]|].
  rewrite total_Ok by done. rewrite (proj2 (N.leb_le _ _) Hle). cbn [ensure].
  set (ps := sort_desc proofs). pose proof (sort_desc_perm proofs) as Hperm. fold ps in Hperm.
  assert (Hndp : NoDup ps) by (by rewrite Hperm). assert (Hpowp : Forall (fun p => pow2 (amount p)) ps) by (by rewrite Hperm).
  assert (Hwp : worth ps = worth proofs) by (by rewrite Hperm).
  set (s0 := fold_left set_insert _ []). assert (Hs0 : picked ps s0).
  { destruct (fold_insert_spec (filter (fun p => is_active p active = false) ps) [] (NoDup_nil_2)) as [H1 H2]. split; [done|].
    intros p Hp. destruct (H2 p Hp) as [?|[_ ?]%list_elem_of_filter]; [set_solver|done]. }
  pose proof (worth_submseteq _ _ (picked_submseteq _ _ Hs0)) as Hw0. rewrite total_Ok by lia.
  destruct (N.leb_spec t (worth s0)) as [Hdone|_].
  { exists (Done (iter s0)). split; [done|]. cbn [chosen]. rewrite iter_perm. split; [|done]. rewrite <- Hperm. by apply picked_submseteq. }
  destruct (select_per_keyset_covers ps t fees Hf s0 []) as (s1 & extra & got & -> & Hc1 & Hx & Hsum). specialize (Hsum Hex).
  rewrite app_nil_l. pose proof (sort_desc_sorted proofs) as Hsorted. fold ps in Hsorted.
  assert (Hc2 : covers ps s1 (fold_left (select_remaining ps) extra s1) (sumN extra)).
  { apply fold_remaining_covers; [done|done|]. eapply Forall_impl; [exact Hx|]. cbn. intros x [? ?]. split; [done|lia]. }
  destruct (steps_cover ps t s0 _ _ extra got Hndp Hs0 ltac:(lia) Hc1 Hc2 Hsum) as [Hpk Hge].
  destruct extra as [|x extra]; [exists (Chosen ps (iter s1)); split; [done|]|]. 
  { cbn [chosen]. rewrite iter_perm. split; [rewrite <- Hperm; by apply picked_submseteq|done]. }
  set (s2 := fold_left (select_remaining ps) (x :: extra) s1) in *.
  pose proof (worth_submseteq _ _ (picked_submseteq _ _ Hpk)) as Hw2.
  assert (Hiw : worth (iter s2) = worth s2) by (by rewrite iter_perm). rewrite total_Ok by lia.
  destruct (negb (worth (iter s2) =? t) && Nat.ltb 1 (length (iter s2))).
  - destruct (least_over_spec t (length (sort_desc (iter s2))) (sort_desc (iter s2))) as (l & Hl & Hsub & Hlt);
      [done|rewrite sort_desc_perm; lia|rewrite sort_desc_perm; lia|].
    unfold select_least_amount_over. rewrite Hl. exists (Chosen ps l). split; [done|]. cbn [chosen]. split; [|done].
    etrans; [by apply sublist_submseteq|]. rewrite sort_desc_perm, iter_perm, <- Hperm. by apply picked_submseteq.
  - exists (Chosen ps (iter s2)). split; [done|]. cbn [chosen]. rewrite iter_perm. split; [|done]. rewrite <- Hperm. by apply picked_submseteq.
Qed.

(** The proofs that are left. *)
Lemma worth_rest s ps : NoDup ps -> s ⊆+ ps -> worth s + worth (filter (fun p => p ∉ s) ps) = worth ps.
Proof.
  intros Hnd [k Hk]%submseteq_Permutation. rewrite Hk in Hnd. apply NoDup_app in Hnd as (_ & Hd & _).
  assert (Hf : filter (fun p => p ∉ s) ps ≡ₚ k).
  { rewrite Hk, filter_app. rewrite filter_none by (intros p Hp Hn; by apply Hn).
    rewrite app_nil_l. rewrite filter_all; [done|]. intros p Hp Hs. by apply (Hd p). }
  rewrite Hf, Hk, worth_app. done.
Qed.

Lemma choose_Chosen t proofs active fees ps s :
  choose iter t proofs active fees = Ok (Chosen ps s) -> ps = sort_desc proofs.
Proof.
  unfold choose. destruct (t =? 0); [done|]. destruct (total proofs); [|done..]. destruct (ensure _ _); [|done..].
  destruct (total (fold_left _ _ _)); [|done..]. destruct (_ <=? _); [done|].
  destruct (select_per_keyset _ _ _ _ _) as [[s' [|r rem]]| |]; [by intros [= <- _]| |done..].
  destruct (total (iter _)); [|done..]. destruct (_ && _); [destruct (select_least_amount_over _ _); [|done..]|]; by intros [= <- _].
Qed.

(** Without denominations nothing is found among active proofs. *)
Lemma choose_without_fees t proofs active :
  t <> 0 -> t <= worth proofs -> worth proofs <= U64_MAX -> Forall (fun p => is_active p active = true) proofs ->
  exists c, choose iter t proofs active [] = Ok c /\ chosen c = [].
Proof.
  intros Ht Hle Hmax Hact. unfold choose. destruct (N.eqb_spec t 0); [done|]. rewrite total_Ok by done.
  rewrite (proj2 (N.leb_le _ _) Hle). cbn [ensure].
  rewrite (filter_none (fun p => is_active p active = false)); cycle 1.
  { intros p Hp Hf. rewrite sort_desc_perm in Hp. rewrite Forall_forall in Hact. by rewrite (Hact p Hp) in Hf. }
  cbn [fold_left select_per_keyset]. rewrite total_Ok by done. rewrite worth_nil. destruct (N.leb_spec t 0); [lia|].
  eexists. split; [done|]. cbn [chosen]. by apply Permutation_nil_r, iter_perm.
Qed.

Lemma calculate_fee_total counts keyset_fee : Fees.calculate_fee counts keyset_fee <> Panic.
Proof.
  unfold Fees.calculate_fee. assert (H : forall (l : list (Id * N)) n, Fees.fee_loop keyset_fee l n <> Panic).
  { induction l as [|[id n] l IH]; intros m; cbn; [done|]. destruct (keyset_fee !! id); [|done]. cbn. destruct (u64_checked_add _ _); [apply IH|done]. }
  specialize (H (map_to_list counts) 0). destruct (Fees.fee_loop _ _ _); [|done..]. by destruct (u64_checked_add _ _).
Qed.

(** ** Only proofs of the wallet are chosen *)

Lemma select_proof_from ps t ex s b s' : select_proof ps t ex s = (b, s') -> s ⊆ ps -> s' ⊆ ps.
Proof.
  unfold select_proof. destruct (scan s ps t ex None) as [p|] eqn:Hp; intros [= <- <-] Hs; [|done].
  apply scan_Some in Hp as [|[Hp _]]; [done|]. unfold set_insert. case_decide; set_solver.
Qed.

Lemma select_optimal_from ps parts : forall s rem s' rem', select_optimal ps parts s rem = (s', rem') -> s ⊆ ps -> s' ⊆ ps.
Proof.
  induction parts as [|a parts IH]; intros s rem s' rem'; cbn [select_optimal]; [by intros [= <- _]|].
  destruct (select_proof ps a true s) as [[] s1] eqn:H1; intros H Hs; eapply IH; eauto using select_proof_from.
Qed.

Lemma select_per_keyset_from ps t fees : forall s rem s' rem', select_per_keyset ps t fees s rem = Ok (s', rem') -> s ⊆ ps -> s' ⊆ ps.
Proof.
  induction fees as [|[id fa] fees IH]; intros s rem s' rem'; cbn [select_per_keyset]; [by intros [= <- _]|].
  destruct (map_err SplitFailed (Amount.split t fa)) as [parts| |]; [|done..].
  destruct (select_optimal ps parts s rem) as [s1 rem1] eqn:H1. intros H Hs. eapply IH; eauto using select_optimal_from.
Qed.

Lemma select_n_from ps t rounds : forall n s c s', select_n rounds ps t n s = (c, s') -> s ⊆ ps -> s' ⊆ ps.
Proof.
  induction rounds as [|rounds IH]; intros n s c s'; cbn [select_n]; [by intros [= _ <-]|].
  destruct (n <=? 0)%Z; [by intros [= _ <-]|]. destruct (select_proof ps t true s) as [[] s1] eqn:H1; [|by intros [= _ <-]].
  destruct (select_n rounds ps t (n - 1) s1) as [c2 s2] eqn:H2. intros [= _ <-] Hs. eapply IH; eauto using select_proof_from.
Qed.

Lemma select_halves_from ps rounds : forall t n s b s', select_halves rounds ps t n s = (b, s') -> s ⊆ ps -> s' ⊆ ps.
Proof.
  induction rounds as [|rounds IH]; intros t n s b s'; cbn [select_halves]; [by intros [= _ <-]|].
  destruct (t / 2 =? 0); [by intros [= _ <-]|].
  destruct (select_n (S (length ps)) ps (t / 2) n s) as [c s1] eqn:H1. intros H Hs. apply select_n_from in H1; [|done].
  destruct (_ =? 0)%Z; [by injection H as _ <-|]. by eapply IH.
Qed.

Lemma select_remaining_from ps rem : forall s, s ⊆ ps -> fold_left (select_remaining ps) rem s ⊆ ps.
Proof.
  induction rem as [|r rem IH]; intros s Hs; cbn [fold_left]; [done|]. apply IH. unfold select_remaining.
  destruct (select_halves 64 ps r 2 s) as [b s1] eqn:H1. apply select_halves_from in H1; [|done]. destruct b; [done|].
  destruct (select_proof ps r false s1) as [b' s2] eqn:H2. by eapply select_proof_from.
Qed.

Lemma least_over_from t fuel : forall l l', least_over fuel l t = Ok l' -> l' ⊆ l.
Proof.
  induction fuel as [|fuel IH]; intros l l'; cbn [least_over]; (destruct (total l) as [n| |]; [|done..]);
    (destruct (n <? t); [done|]); (destruct (Nat.eqb (length l) 1); [by intros [= <-]|]);
    induction (seq 1 (length l - 1)) as [|i ixs IHi]; try (by intros [= <-]).
  - destruct (total (take i l)); [|done..]. by destruct (total (drop i l)).
  - destruct (total (take i l)) as [a| |]; [|done..]. destruct (total (drop i l)) as [b| |]; [|done..].
    assert (HL : forall x, least_over fuel (take i l) t = Ok x -> x ⊆ l) by (intros x Hx; etrans; [by eapply IH|apply sublist_subseteq, sublist_take]).
    assert (HR : forall x, least_over fuel (drop i l) t = Ok x -> x ⊆ l) by (intros x Hx; etrans; [by eapply IH|apply sublist_subseteq, sublist_drop]).
    destruct ((t <=? a) && (t <=? b)).
    + destruct (least_over fuel (take i l) t) as [x| |], (least_over fuel (drop i l) t) as [z| |];
        try (intros [= <-]; auto); intros H; try done; auto.
      destruct (total x) as [tx| |]; [|done..]. destruct (total z) as [tz| |]; [|done..].
      destruct (tx <? tz); injection H as <-; auto.
    + destruct (t <=? a); [apply HL|]. destruct (t <=? b); [apply HR|]. apply IHi.
Qed.

Lemma choose_from t proofs active fees c : choose iter t proofs active fees = Ok c -> chosen c ⊆ proofs.
Proof.
  unfold choose. destruct (t =? 0); [intros [= <-]; set_solver|]. destruct (total proofs); [|done..]. destruct (ensure _ _); [|done..].
  set (ps := sort_desc proofs). assert (Hps : ps ⊆ proofs) by (intros p; by rewrite <- (sort_desc_perm proofs)).
  set (s0 := fold_left set_insert _ []). assert (Hs0 : s0 ⊆ ps).
  { intros p Hp. apply fold_insert_spec in Hp as [Hp|Hp]; [by apply not_elem_of_nil in Hp|by apply list_elem_of_filter in Hp as [_ ?]|constructor]. }
  assert (Hit : forall l, l ⊆ ps -> iter l ⊆ proofs) by (intros l Hl p; rewrite (iter_perm l); auto).
  destruct (total s0); [|done..]. destruct (_ <=? _); [intros [= <-]; cbn [chosen]; auto|].
  destruct (select_per_keyset ps t fees s0 []) as [[s [|r rem]]| |] eqn:Hk; [| |done..]; apply select_per_keyset_from in Hk; try done.
  { intros [= <-]. cbn [chosen]. auto. }
  set (s1 := fold_left _ _ s). assert (Hs1 : s1 ⊆ ps) by (by apply select_remaining_from).
  destruct (total (iter s1)); [|done..]. destruct (_ && _).
  - destruct (select_least_amount_over _ _) as [x| |] eqn:Hx; [|done..]. intros [= <-]. cbn [chosen].
    apply least_over_from in Hx. intros p Hp. apply (Hit s1 Hs1). rewrite <- (sort_desc_perm (iter s1)). auto.
  - intros [= <-]. cbn [chosen]. auto.
Qed.

Lemma select_proofs_from t proofs active fees wf s : select_proofs iter t proofs active fees wf = Ok s -> s ⊆ proofs.
Proof.
  unfold select_proofs. destruct (choose iter t proofs active fees) as [[s1|ps s1]| |] eqn:Hc; [| |done..].
  { intros [= <-]. by apply choose_from in Hc. }
  pose proof (choose_Chosen _ _ _ _ _ _ Hc) as ->. apply choose_from in Hc. cbn [chosen] in Hc. destruct wf; [|by intros [= <-]].
  unfold include_fees. intros H. inv_res H; try done.
  all: match goal with Hm : choose _ _ _ _ _ = Ok _ |- _ => apply choose_from in Hm end.
  all: intros p [Hp|Hp]%elem_of_app; [auto|].
  all: match goal with Hm : chosen _ ⊆ _ |- _ => apply Hm in Hp; apply list_elem_of_filter in Hp as [_ Hp]; by rewrite (sort_desc_perm proofs) in Hp end.
Qed.

(** The fee that the wallet computes for a selection. *)
Definition fee_of (fees : KeysetFeeAndAmounts) s : N :=
  match Fees.calculate_fee (count_by_keyset s) (list_to_map ((fun kv => (kv.1, Amount.fee kv.2)) <$> fees)) with Ok f => f | _ => 0 end.

(** ** Theorems *)

(** C18. The wallet pays when it can: for an amount below [2^31], proofs worth
    powers of two, and keysets with the usual denominations one of which can
    express the amount, the choice without fees returns proofs of the wallet, each at most once, that
    cover the amount, in whatever order the sets and maps are read; it reports
    insufficient funds exactly when the wallet has less than the amount. *)
Theorem select_proofs_covers t proofs active fees
    (Hnd : NoDup proofs) (Hpow : Forall (fun p => pow2 (amount p)) proofs) (Hmax : worth proofs <= U64_MAX)
    (Ht : t < 2 ^ 31) (Hfees : usable_fees t fees) :
  (t <= worth proofs -> exists l, select_proofs iter t proofs active fees false = Ok l /\ l ⊆+ proofs /\ t <= worth l) /\
  (worth proofs < t -> select_proofs iter t proofs active fees false = Err InsufficientFunds).
Proof.
  unfold select_proofs. split; intros Hle.
  - destruct (choose_covers t proofs active fees Hnd Hpow Hmax Hle Ht Hfees) as (c & -> & Hs & Hw). exists (chosen c).
    split; [by destruct c|done].
  - unfold choose. destruct (N.eqb_spec t 0); [lia|]. rewrite total_Ok by done.
    by rewrite (proj2 (N.leb_gt _ _) Hle).
Qed.

(** The fees are not covered: when the proofs that are chosen without fees
    do not pay for the amount and for their own fee, the choice with fees is
    the same as without, although the wallet has enough; the search for more
    proofs is made without the keysets' denominations, and finds nothing among
    active proofs. *)
Theorem fee_shortfall_ignored t proofs active fees s
    (Hnd : NoDup proofs) (Hmax : worth proofs <= U64_MAX) (Hactive : Forall (fun p => is_active p active = true) proofs)
    (Hsel : select_proofs iter t proofs active fees false = Ok s) (Hsub : s ⊆+ proofs)
    (Hshort : fee_of fees s <= worth s < t + fee_of fees s) (Henough : t + fee_of fees s <= worth proofs) :
  select_proofs iter t proofs active fees true = Ok s.
Proof.
  unfold select_proofs in *. destruct (choose iter t proofs active fees) as [[s'|ps s']| |] eqn:Hc; [done| |done..].
  injection Hsel as ->. apply choose_Chosen in Hc as ->. unfold include_fees.
  set (f := fee_of fees s) in *.
  assert (Hf : match Fees.calculate_fee (count_by_keyset s) (list_to_map ((fun kv => (kv.1, Amount.fee kv.2)) <$> fees)) with
               | Ok f => Ok (E:=Error) f | Err _ => Ok 0 | Panic => Panic end = Ok f).
  { unfold f, fee_of. pose proof (calculate_fee_total (count_by_keyset s) (list_to_map ((fun kv => (kv.1, Amount.fee kv.2)) <$> fees))).
    by destruct (Fees.calculate_fee _ _). }
  rewrite Hf. pose proof (worth_submseteq _ _ Hsub). rewrite total_Ok by lia.
  unfold Amount.sub, Amount.checked_sub, u64_checked_sub. rewrite (proj2 (N.leb_le _ _) (proj1 Hshort)). cbn [expect map_err].
  destruct (N.leb_spec t (worth s - f)); [lia|]. rewrite (proj2 (N.leb_le (worth s - f) t)) by lia. cbn [expect map_err].
  assert (Hndp : NoDup (sort_desc proofs)) by (by rewrite sort_desc_perm).
  assert (Hsubp : s ⊆+ sort_desc proofs) by (by rewrite sort_desc_perm).
  pose proof (worth_rest s (sort_desc proofs) Hndp Hsubp) as Hrest. rewrite sort_desc_perm in Hrest at 2.
  destruct (choose_without_fees (t - (worth s - f)) (filter (fun p => p ∉ s) (sort_desc proofs)) active) as (c & -> & Hcn); [lia|lia|lia| |].
  - apply Forall_forall. intros p [_ Hp]%list_elem_of_filter. rewrite sort_desc_perm in Hp. by apply (proj1 (Forall_forall _ _) Hactive).
  - by rewrite Hcn, app_nil_r.
Qed.

(** An exchange is exact: when the wallet proposes to swap one of the chosen
    proofs, the others, the amount to swap for and the rate of the keyset add
    up to the amount asked for, and with the proof they are the choice. *)
Theorem exchange_is_exact t proofs active fees with_fees rest p exact
    (H : select_exact_proofs iter t proofs active fees with_fees = Ok (rest, Some (p, exact))) :
  exists s, select_proofs iter t proofs active fees with_fees = Ok s /\ rest ++ [p] ≡ₚ s /\
    worth rest + exact + keyset_fee fees (keyset_id p) = t /\ (forall q, q ∈ s -> amount q <= amount p).
Proof.
  unfold select_exact_proofs in H. destruct (select_proofs iter t proofs active fees with_fees) as [s| |]; [|done..].
  exists s. split; [done|]. unfold total_amount in H. change (map amount s) with (amount <$> s) in H.
  rewrite Amount.try_sum_exact in H. fold (worth s) in H.
  destruct (N.leb_spec (worth s) U64_MAX) as [_|_]; [|by destruct (N.ltb_spec t 0); [lia|]].
  destruct (N.ltb_spec t (worth s)) as [Hlt|]; [|done]. destruct (last (sort_asc s)) as [x|] eqn:Hlast; [|done].
  apply last_Some in Hlast as [k Hk]. rewrite Hk, removelast_last in H.
  pose proof (sort_asc_perm s) as Hp. pose proof (sort_asc_sorted s) as Hs. rewrite Hk in Hp, Hs.
  assert (Hw : worth s = worth k + amount x) by (rewrite <- Hp, worth_app, worth_cons, worth_nil; lia).
  unfold Amount.checked_sub, Amount.checked_add, u64_checked_sub, u64_checked_add in H.
  destruct (N.leb_spec (amount x) (worth s)); [|lia]. cbn in H.
  destruct (N.leb_spec (worth s - amount x + keyset_fee fees (keyset_id x)) U64_MAX); [|done]. cbn in H.
  destruct (N.leb_spec (worth s - amount x + keyset_fee fees (keyset_id x)) t); [|done]. injection H as <- <- <-.
  split; [done|]. split; [lia|]. intros q Hq. rewrite <- Hp in Hq. by eapply last_is_largest.
Qed.

End facts.
End SelectionFacts.

(** ** Concrete selections *)
Module ConcreteSelection.
Import Concrete SelectionFacts.

#[local] Instance seckey_eq : EqDecision (@seckey crypto) := Ascii.ascii_dec.
#[local] Instance ProofDleq_eq : EqDecision ProofDleq.
Proof. solve_decision. Defined.
#[local] Instance P2PKWitness_eq : EqDecision P2PKWitness.
Proof. solve_decision. Defined.
#[local] Instance HTLCWitness_eq : EqDecision HTLCWitness.
Proof. solve_decision. Defined.
#[local] Instance Witness_eq : EqDecision Witness.
Proof. solve_decision. Defined.
#[local] Instance Proof_eq : EqDecision Proof.
Proof. solve_decision. Defined.

Definition coin (kid secret : string) (a : N) : Proof := mkProof a kid secret carol None None.
Definition keyset (kid : string) (ppk : N) : Id * Amount.FeeAndAmounts := (kid, Amount.mkFeeAndAmounts ppk (Amount.pow2_amounts 40)).
Definition same (l : list Proof) : list Proof := l.
Definition names (r : res Error (list Proof)) : option (list string) := match r with Ok l => Some (secret <$> l) | _ => None end.

Definition purse : list Proof := [coin "ks" "four" 4; coin "ks" "two" 2; coin "ks" "other two" 2; coin "ks" "one" 1].

Lemma purse_pow2 : Forall (fun p => pow2 (amount p)) purse.
Proof. repeat constructor; [by exists 2|by exists 1|by exists 1|by exists 0]. Qed.

Lemma purse_NoDup : NoDup purse.
Proof. apply (bool_decide_eq_true_1 _). vm_compute. reflexivity. Qed.

Lemma select_proofs_covers_witness :
  exists l, select_proofs same 3 purse ["ks"] [keyset "ks" 100] false = Ok l /\ l ⊆+ purse /\ 3 <= worth l.
Proof.
  apply (select_proofs_covers same (fun l => reflexivity l) 3 purse ["ks"] [keyset "ks" 100]).
  - apply purse_NoDup.
  - apply purse_pow2.
  - vm_compute. discriminate.
  - reflexivity.
  - split; [repeat constructor; by exists 40%nat|]. exists (keyset "ks" 100), 40%nat. split; [apply list_elem_of_here|done].
  - vm_compute. discriminate.
Defined.

Lemma fee_shortfall_ignored_witness :
  select_proofs same 4 purse ["ks"] [keyset "ks" 100] true = Ok [coin "ks" "four" 4].
Proof.
  apply (fee_shortfall_ignored same (fun l => reflexivity l)).
  - apply purse_NoDup.
  - vm_compute. discriminate.
  - repeat constructor.
  - vm_compute. reflexivity.
  - apply (bool_decide_eq_true_1 _). vm_compute. reflexivity.
  - split; vm_compute; [discriminate|reflexivity].
  - vm_compute. discriminate.
Defined.

Definition large_purse : list Proof := [coin "ks" "64" 64; coin "ks" "32" 32; coin "ks" "4" 4].

Lemma exchange_is_exact_witness :
  exists s, select_proofs same 97 large_purse ["ks"] [keyset "ks" 0] false = Ok s /\
    [coin "ks" "4" 4; coin "ks" "32" 32] ++ [coin "ks" "64" 64] ≡ₚ s /\
    worth [coin "ks" "4" 4; coin "ks" "32" 32] + 61 + keyset_fee [keyset "ks" 0] "ks" = 97 /\
    (forall q, q ∈ s -> amount q <= 64).
Proof.
  apply (exchange_is_exact same 97 large_purse ["ks"] [keyset "ks" 0] false _ (coin "ks" "64" 64) 61). vm_compute. reflexivity.
Defined.

(** From [2^32] on the counter of the halves reaches zero by wrapping around,
    and nothing is selected although the wallet has a larger proof. *)
Example huge_amount_selects_nothing :
  names (select_proofs same (2 ^ 32) [coin "ks" "huge" (2 ^ 33)] ["ks"] [keyset "ks" 0] false) = Some [].
Proof. vm_compute. reflexivity. Qed.

(** With two keysets the amount is selected for each of them. *)
Example two_keysets_select_twice :
  names (select_proofs same 1 [coin "ka" "first" 1; coin "kb" "second" 1] ["ka"; "kb"] [keyset "ka" 0; keyset "kb" 0] false) =
  Some ["first"; "second"]%string.
Proof. vm_compute. reflexivity. Qed.

End ConcreteSelection.
