(* ===== verification/MintUrl.v ===== *)
(** * Mint URLs (crates/cashu/src/mint_url.rs)

    A mint is known by its URL in a normal form: no slash at the end, scheme
    and host in lower case.  The URL library is not called to make it.  Text is
    lowered as in ASCII. *)
From Stdlib Require Import Ascii.
From stdpp Require Import base numbers list strings.
From S2P Require Import Prelude Hex.

Local Open Scope res_scope.
Local Open Scope string_scope.

Module MintUrl.

Inductive Error := Url | InvalidUrl.

Definition slash : ascii := "/"%char.

(** [trim_end_matches('/')]. *)
Fixpoint trim_slashes (s : string) : string :=
  match s with
  | EmptyString => EmptyString
  | String c s' => match trim_slashes s' with
                   | EmptyString => if Ascii.eqb c slash then EmptyString else String c EmptyString
                   | t => String c t
                   end
  end.

(** The first piece grows by a character. *)
Definition grow (c : ascii) (l : list string) : list string :=
  match l with p :: l' => String c p :: l' | [] => [String c EmptyString] end.

(** [split("://")]. *)
Definition at_scheme (c d e : ascii) : bool := Ascii.eqb c ":"%char && Ascii.eqb d slash && Ascii.eqb e slash.

Fixpoint split_scheme (s : string) : list string :=
  match s with
  | EmptyString => [EmptyString]
  | String c s' =>
      match s' with
      | String d (String e s'') => if at_scheme c d e then EmptyString :: split_scheme s'' else grow c (split_scheme s')
      | _ => grow c (split_scheme s')
      end
  end.

(** [split('/')]. *)
Fixpoint split_slash (s : string) : list string :=
  match s with
  | EmptyString => [EmptyString]
  | String c s' => if Ascii.eqb c slash then EmptyString :: split_slash s' else grow c (split_slash s')
  end.

Definition nth_piece (n : nat) (l : list string) : res Error string := ok_or InvalidUrl (l !! n).

Definition format_url (url : string) : res Error string :=
  let? _ := ensure (negb (String.eqb url "")) InvalidUrl in
  let url := trim_slashes url in
  let? protocol := nth_piece 0 (split_scheme url) in
  let? rest := nth_piece 1 (split_scheme url) in
  let? host := nth_piece 0 (split_slash rest) in
  let path := String.concat "/" (drop 1 (split_slash rest)) in
  let formatted_url := to_lowercase protocol ++ "://" ++ to_lowercase host in
  Ok (if String.eqb path "" then formatted_url else formatted_url ++ "/" ++ path).

Definition from_str (url : string) : res Error string := map_err (fun _ => InvalidUrl) (format_url url).

(** ** Lemmas *)

(** Induction for [split_scheme], which consumes one or three characters. *)
Lemma string_strong_ind (P : string -> Prop) :
  (forall s, (forall t, (String.length t < String.length s)%nat -> P t) -> P s) -> forall s, P s.
Proof.
  intros H s. cut (forall n t, (String.length t < n)%nat -> P t); [eauto|].
  induction n as [|n IH]; intros t Ht; [lia|]. apply H. intros u Hu. apply IH. lia.
Qed.

Lemma split_scheme_step c s :
  (exists s'', s = String slash (String slash s'') /\ c = ":"%char /\ split_scheme (String c s) = EmptyString :: split_scheme s'') \/
  (split_scheme (String c s) = grow c (split_scheme s) /\ (forall s'', c = ":"%char -> s <> String slash (String slash s''))).
Proof.
  destruct s as [|d [|e s'']]; [right; split; [done|by intros]..|]. cbn [split_scheme]. unfold at_scheme.
  destruct (Ascii.eqb_spec c ":"%char) as [->|Hc]; [|right; split; [done|]; by intros].
  destruct (Ascii.eqb_spec d slash) as [->|Hd]; [|right; split; [done|]; intros ? _ [= ? _]; done].
  destruct (Ascii.eqb_spec e slash) as [->|He]; [left; eauto|right; split; [done|]; intros ? _ [= ? _]; done].
Qed.

Lemma split_scheme_not_nil s : split_scheme s <> [].
Proof.
  destruct s as [|c s]; [done|]. destruct (split_scheme_step c s) as [(s'' & _ & _ & ->)|[-> _]]; [done|].
  by destruct (split_scheme s).
Qed.

Lemma split_scheme_one s : forall a, split_scheme s = [a] -> s = a.
Proof.
  induction s as [|c s IH]; intros a H; [by injection H as <-|].
  destruct (split_scheme_step c s) as [(s3 & -> & -> & He)|[He _]]; rewrite He in H.
  - injection H as _ H. by apply split_scheme_not_nil in H.
  - destruct (split_scheme s) as [|p l] eqn:Hs; [by apply split_scheme_not_nil in Hs|]. injection H as <- ->.
    by rewrite <- (IH p eq_refl).
Qed.

Lemma split_scheme_two s : forall a b, split_scheme s = [a; b] -> s = a ++ "://" ++ b.
Proof.
  induction s as [|c s IH]; intros a b H; [done|].
  destruct (split_scheme_step c s) as [(s'' & -> & -> & He)|[He _]]; rewrite He in H.
  - injection H as <- H%split_scheme_one. by subst.
  - destruct (split_scheme s) as [|p [|q l]] eqn:Hs; [by apply split_scheme_not_nil in Hs|done|]. injection H as <- <- ->.
    exact (f_equal (String c) (IH p q eq_refl)).
Qed.

(** Lowering keeps the separators where they are. *)
Lemma lower_colon c : ascii_lower c = ":"%char <-> c = ":"%char.
Proof. by destruct c as [[] [] [] [] [] [] [] []]. Qed.
Lemma lower_slash c : ascii_lower c = slash <-> c = slash.
Proof. by destruct c as [[] [] [] [] [] [] [] []]. Qed.

Lemma lower_slash' c : ascii_lower c = slash -> c = slash.
Proof. apply lower_slash. Qed.

Lemma map_grow c l : l <> [] -> map to_lowercase (grow c l) = grow (ascii_lower c) (map to_lowercase l).
Proof. by destruct l. Qed.

Lemma split_scheme_lower s : split_scheme (to_lowercase s) = map to_lowercase (split_scheme s).
Proof.
  induction s as [[|c s] IH] using string_strong_ind; [done|]. cbn [to_lowercase].
  destruct (split_scheme_step c s) as [(s'' & -> & -> & He)|[He Hn]]; rewrite He.
  - cbn [map to_lowercase]. rewrite <- IH by (cbn; lia). reflexivity.
  - rewrite map_grow, <- IH by (apply split_scheme_not_nil || (cbn; lia)).
    destruct (split_scheme_step (ascii_lower c) (to_lowercase s)) as [(s'' & Hs & Hc & _)|[-> _]]; [|done].
    destruct s as [|d [|e s]]; [done..|]. injection Hs as Hd He' _.
    apply (proj1 (lower_colon c)) in Hc. apply lower_slash' in Hd, He'. subst. by destruct (Hn s eq_refl).
Qed.

(** Strings that agree up to case are split at the same places. *)
Lemma split_scheme_case p r p' r' :
  split_scheme (p ++ "://" ++ r) = [p; r] ->
  to_lowercase p = to_lowercase p' -> to_lowercase r = to_lowercase r' ->
  split_scheme (p' ++ "://" ++ r') = [p'; r'].
Proof.
  intros H Hp Hr.
  assert (Hl : to_lowercase (p ++ "://" ++ r) = to_lowercase (p' ++ "://" ++ r')).
  { by rewrite !Hex.to_lower_app, Hp, Hr. }
  pose proof (split_scheme_lower (p ++ "://" ++ r)) as H1. rewrite Hl, split_scheme_lower, H in H1.
  destruct (split_scheme (p' ++ "://" ++ r')) as [|a [|b [|]]] eqn:He; try done. injection H1 as Ha Hb.
  apply split_scheme_two in He. apply string_app_inj in He as [-> He].
  - apply string_app_inj in He as [_ ->]; done.
  - rewrite <- (Hex.length_to_lowercase a), Ha, Hp. by rewrite Hex.length_to_lowercase.
Qed.

Fixpoint no_slash (s : string) : Prop :=
  match s with EmptyString => True | String c s => c <> slash /\ no_slash s end.

Lemma no_slash_lower s : no_slash s -> no_slash (to_lowercase s).
Proof. induction s as [|c s IH]; [done|]. cbn. rewrite lower_slash. naive_solver. Qed.

Lemma split_slash_not_nil s : split_slash s <> [].
Proof. destruct s as [|c s]; cbn; [done|]. destruct (Ascii.eqb c slash); [done|]. by destruct (split_slash s). Qed.

Lemma concat_grow c l : l <> [] -> String.concat "/" (grow c l) = String c (String.concat "/" l).
Proof. by destruct l as [|p [|]]. Qed.

Lemma concat_split_slash s : String.concat "/" (split_slash s) = s.
Proof.
  induction s as [|c s IH]; [done|]. cbn [split_slash]. destruct (Ascii.eqb_spec c slash) as [->|Hc].
  - pose proof (split_slash_not_nil s). destruct (split_slash s) as [|p l]; [done|].
    change (String slash (String.concat "/" (p :: l)) = String slash s). by rewrite IH.
  - by rewrite concat_grow, IH by apply split_slash_not_nil.
Qed.

Lemma split_slash_head s : exists h l, split_slash s = h :: l /\ no_slash h.
Proof.
  induction s as [|c s (h & l & Hs & Hh)]; [by exists "", []|]. cbn [split_slash].
  destruct (Ascii.eqb_spec c slash) as [->|Hc]; [by exists "", (split_slash s)|]. rewrite Hs. by exists (String c h), l.
Qed.

Lemma split_slash_app h t : no_slash h -> split_slash (h ++ "/" ++ t) = h :: split_slash t.
Proof.
  induction h as [|c h IH]; intros Hh; [done|]. destruct Hh as [Hc Hh].
  change (String c h ++ "/" ++ t) with (String c (h ++ "/" ++ t)). cbn [split_slash].
  destruct (Ascii.eqb_spec c slash); [done|]. by rewrite IH.
Qed.

Lemma split_slash_single h : no_slash h -> split_slash h = [h].
Proof.
  induction h as [|c h IH]; intros Hh; [done|]. destruct Hh as [Hc Hh]. cbn [split_slash].
  destruct (Ascii.eqb_spec c slash); [done|]. by rewrite IH.
Qed.

(** ** Trimming *)
Definition trimmed (s : string) : Prop := trim_slashes s = s.

Lemma trim_idem s : trimmed (trim_slashes s).
Proof.
  unfold trimmed. induction s as [|c s IH]; [done|]. cbn [trim_slashes]. destruct (trim_slashes s) as [|d t] eqn:Ht.
  - destruct (Ascii.eqb_spec c slash) as [->|Hc]; [done|]. cbn. by destruct (Ascii.eqb_spec c slash).
  - cbn [trim_slashes] in *. by rewrite IH.
Qed.

Lemma trimmed_cons c s : s <> "" -> trimmed (String c s) <-> trimmed s.
Proof.
  intros Hs. unfold trimmed. cbn [trim_slashes]. destruct (trim_slashes s) as [|d t].
  - split; [|by intros <-]. destruct (Ascii.eqb c slash); [done|]. by intros [= <-].
  - split; [by intros [= ->]|by intros ->].
Qed.

Lemma trimmed_app a b : b <> "" -> trimmed (a ++ b) <-> trimmed b.
Proof.
  intros Hb. induction a as [|c a IH]; [done|]. rewrite <- IH. apply trimmed_cons. by destruct a.
Qed.

Lemma trimmed_lower s : trimmed s -> trimmed (to_lowercase s).
Proof.
  unfold trimmed. assert (Hg : forall s, trim_slashes (to_lowercase s) = to_lowercase (trim_slashes s)).
  { clear. induction s as [|c s IH]; [done|]. cbn [to_lowercase trim_slashes]. rewrite IH.
    destruct (trim_slashes s); [|done]. cbn.
    destruct (Ascii.eqb_spec c slash) as [->|Hc]; [done|].
    destruct (Ascii.eqb_spec (ascii_lower c) slash) as [Hc'|]; [|done]. by apply lower_slash' in Hc'. }
  intros Hs. by rewrite Hg, Hs.
Qed.

(** ** The normal form *)

Lemma format_url_Ok s u : format_url s = Ok u ->
  exists p r host path, nth_piece 0 (split_scheme (trim_slashes s)) = Ok p /\ nth_piece 1 (split_scheme (trim_slashes s)) = Ok r /\
    no_slash host /\ (split_slash r = [host] /\ path = "" \/
      split_slash r = host :: split_slash path /\ r = host ++ "/" ++ path) /\
    u = to_lowercase p ++ "://" ++ to_lowercase host ++ (if String.eqb path "" then "" else "/" ++ path).
Proof.
  unfold format_url, ensure. destruct (negb (String.eqb s "")); [|done].
  destruct (nth_piece 0 (split_scheme (trim_slashes s))) as [p| |]; [|done..].
  destruct (nth_piece 1 (split_scheme (trim_slashes s))) as [r| |] eqn:Hr; [|done..].
  destruct (split_slash_head r) as (host & l & Hl & Hh). rewrite Hl. cbn [nth_piece]. unfold nth_piece. cbn [lookup list_lookup ok_or].
  intros [= <-]. exists p, r, host, (String.concat "/" (drop 1 (host :: l))).
  do 2 (split; [done|]). split; [done|]. cbn [drop]. split.
  - destruct l as [|q l]; [by left|right]. pose proof (concat_split_slash r) as Hc. rewrite Hl in Hc.
    change (String.concat "/" (host :: q :: l)) with (host ++ "/" ++ String.concat "/" (q :: l)) in Hc.
    split; [|done]. pose proof Hl as Hl'. rewrite <- Hc in Hl'. rewrite split_slash_app in Hl' by done. injection Hl' as Hq.
    exact (eq_trans Hl (f_equal (cons host) (eq_sym Hq))).
  - destruct (String.eqb _ ""); [by rewrite string_app_nil_r|]. by rewrite !string_app_assoc.
Qed.

Lemma length_pos_neq s : s <> "" -> negb (String.eqb s "") = true.
Proof. intros H. by destruct (String.eqb_spec s ""). Qed.

(** A mint URL in its normal form is read back unchanged, so a stored wallet
    finds its mint again: the reader is idempotent on every text in which the
    scheme separator occurs once. *)
Theorem mint_url_roundtrip s u (H : from_str s = Ok u) (Honce : length (split_scheme (trim_slashes s)) = 2%nat) :
  from_str u = Ok u.
Proof.
  unfold from_str in *. destruct (format_url s) as [u0| |] eqn:Hf; [|done..]. injection H as ->. 
  apply format_url_Ok in Hf as (p & r & host & path & Hp & Hr & Hh & Hsplit & ->).
  destruct (split_scheme (trim_slashes s)) as [|p0 [|r0 [|]]] eqn:Hs; try done. injection Hp as ->. injection Hr as ->.
  pose proof (split_scheme_two _ _ _ Hs) as Ht. pose proof (trim_idem s) as Htrim. rewrite Ht in Htrim, Hs.
  assert (Hr : r <> "" /\ trimmed r).
  { assert (r <> "") as Hne.
    { intros ->. rewrite string_app_nil_r in Htrim. by apply trimmed_app in Htrim. }
    split; [done|]. apply trimmed_app in Htrim; [|by destruct r]. by apply (trimmed_app "://" r Hne) in Htrim. }
  destruct Hr as [Hrne Hrt].
  set (rest := to_lowercase host ++ (if String.eqb path "" then "" else "/" ++ path)).
  assert (Hrest : rest <> "" /\ trimmed rest /\ to_lowercase r = to_lowercase rest /\
    exists l, split_slash rest = to_lowercase host :: l /\ String.concat "/" l = path).
  { unfold rest. destruct Hsplit as [[Hsl ->]|[_ Hre]].
    - assert (r = host) as -> by (by rewrite <- (concat_split_slash r), Hsl). cbn [String.eqb]. rewrite string_app_nil_r.
      split; [by destruct host|]. split; [by apply trimmed_lower|]. split; [by rewrite Hex.to_lowercase_idem|].
      exists []. split; [|done]. by apply split_slash_single, no_slash_lower.
    - destruct (String.eqb_spec path "") as [->|Hpath].
      { subst r. exfalso. rewrite string_app_nil_r in Hrt. by apply trimmed_app in Hrt. }
      assert (Htp : trimmed path).
      { rewrite Hre in Hrt. apply trimmed_app in Hrt; [|done]. by apply (trimmed_app "/" path Hpath) in Hrt. }
      split; [by destruct host|]. split; [apply trimmed_app; [done|]; by apply (trimmed_app "/")|].
      split; [rewrite Hre, !Hex.to_lower_app; by rewrite Hex.to_lowercase_idem|].
      exists (split_slash path). split; [by apply split_slash_app, no_slash_lower|apply concat_split_slash]. }
  destruct Hrest as (Hne & Htr & Hcase & l & Hl & Hpath).
  assert (Hu : trimmed (to_lowercase p ++ "://" ++ rest)).
  { apply trimmed_app; [by destruct rest|]. by apply (trimmed_app "://"). }
  unfold format_url. rewrite length_pos_neq by (by destruct p). cbn [ensure]. rewrite Hu.
  rewrite (split_scheme_case p r (to_lowercase p) rest Hs) by (by rewrite ?Hex.to_lowercase_idem).
  unfold nth_piece. cbn [lookup list_lookup ok_or]. rewrite Hl. cbn [lookup list_lookup ok_or].
  change (drop 1 (to_lowercase host :: l)) with l. rewrite Hpath.
  rewrite !Hex.to_lowercase_idem. unfold rest. destruct (String.eqb path ""); cbn [map_err]; by rewrite ?string_app_nil_r, ?string_app_assoc.
Qed.

Lemma mint_url_roundtrip_witness : from_str "https://mint.example/Bitcoin" = Ok "https://mint.example/Bitcoin".
Proof. apply (mint_url_roundtrip "HTTPS://Mint.Example/Bitcoin//"); reflexivity. Defined.

Example normal_form : from_str "HTTPS://Mint.Example/Bitcoin//" = Ok "https://mint.example/Bitcoin".
Proof. reflexivity. Qed.

(** A second [://] cuts the path, and what is left can end with a slash. *)
Example nested_scheme :
  from_str "https://a/b/://x" = Ok "https://a/b/" /\ from_str "https://a/b/" = Ok "https://a/b".
Proof. split; reflexivity. Qed.

End MintUrl.
