(* ===== verification/WalletDb.v ===== *)
(** * The browser wallet's store (web/nut-10-checker/src/wallet_db.rs)

    The wallet of the checker is a value in memory that is written to the
    browser's local storage, as JSON, after every change.  Each call of the web
    page opens the store again from what was written last; a [TestContext]
    keeps the copy it opened.  The types it stores (common.rs and wallet.rs of
    crates/cdk-common) are defined here too.

    The JSON codec of [serde_json] and the type of the mint's information
    document, which the store only carries, are parameters.  [pg_faults] is a
    schedule of failures of the browser's storage. *)
From stdpp Require Import base numbers list sorting strings gmap.
From S2P Require Import Prelude Amount Nuts Conditions States MintUrl.
Import Nut00.

Local Open Scope N_scope.
Local Open Scope res_scope.
Local Open Scope mint_scope.

Module WalletDb.
Import Nut11.

(** ** Data *)
Section data.
Context {CR : Crypto}.

#[global] Instance Conditions_eq_dec : EqDecision Conditions.
Proof. solve_decision. Defined.
#[global] Instance SpendingConditions_eq_dec : EqDecision SpendingConditions.
Proof. solve_decision. Defined.

Definition MintUrl := string.

Record ProofInfo := mkProofInfo {
  pi_proof : Proof;
  pi_y : pubkey;
  pi_mint_url : MintUrl;
  pi_state : Nut07.State;
  pi_spending_condition : option SpendingConditions;
  pi_unit : Amount.CurrencyUnit;
}.

Definition set_pi_state (p : ProofInfo) (st : Nut07.State) : ProofInfo :=
  mkProofInfo (pi_proof p) (pi_y p) (pi_mint_url p) st (pi_spending_condition p) (pi_unit p).

(** [ProofInfo::new]: a secret that is not a spending condition gives [None];
    reading it can panic. *)
Definition ProofInfo_new `{SD : Serde} (proof : Proof) (mint_url : MintUrl) (state : Nut07.State)
    (unit : Amount.CurrencyUnit) : res Dhke.Error ProofInfo :=
  let? y := y proof in
  let? spending_condition :=
    match sc_try_from_secret (secret proof) with
    | Ok c => Ok (Some c) | Err _ => Ok None | Panic => Panic
    end in
  Ok (mkProofInfo proof y mint_url state spending_condition unit).

(** [if let Some(x) = filter { if x != field { return false } }]. *)
Definition matches {A} (test : A -> bool) (filter : option A) : bool :=
  match filter with Some x => test x | None => true end.

Definition matches_conditions (self : ProofInfo) (mint_url : option MintUrl) (unit : option Amount.CurrencyUnit)
    (state : option (list Nut07.State)) (spending_conditions : option (list SpendingConditions)) : bool :=
  matches (fun u => bool_decide (u = pi_mint_url self)) mint_url &&
  matches (fun u => bool_decide (u = pi_unit self)) unit &&
  matches (fun l => bool_decide (pi_state self ∈ l)) state &&
  matches (fun l => match pi_spending_condition self with
                    | None => bool_decide (l = [])
                    | Some s => bool_decide (s ∈ l)
                    end) spending_conditions.

(** [MintQuote] and [MeltQuote] of the wallet. *)
Record WMintQuote := mkWMintQuote {
  wq_id : string;
  wq_mint_url : MintUrl;
  wq_payment_method : MintTypes.PaymentMethod;
  wq_amount : option N;
  wq_unit : Amount.CurrencyUnit;
  wq_request : string;
  wq_state : MintTypes.MintQuoteState;
  wq_expiry : N;
  wq_secret_key : option seckey;
  wq_amount_issued : N;
  wq_amount_paid : N;
}.

Record WMeltQuote := mkWMeltQuote {
  wm_id : string;
  wm_unit : Amount.CurrencyUnit;
  wm_amount : N;
  wm_request : string;
  wm_fee_reserve : N;
  wm_state : StateRules.MeltQuoteState;
  wm_expiry : N;
  wm_payment_preimage : option string;
  wm_payment_method : MintTypes.PaymentMethod;
}.

Inductive TransactionDirection := Incoming | Outgoing.
#[global] Instance TransactionDirection_eq_dec : EqDecision TransactionDirection.
Proof. solve_decision. Defined.

Record Transaction := mkTransaction {
  tr_mint_url : MintUrl;
  tr_direction : TransactionDirection;
  tr_amount : N;
  tr_fee : N;
  tr_unit : Amount.CurrencyUnit;
  tr_ys : list pubkey;
  tr_timestamp : N;
  tr_memo : option string;
  tr_metadata : gmap string string;
  tr_quote_id : option string;
  tr_payment_request : option string;
  tr_payment_proof : option string;
}.

(** Public keys are ordered by their compressed encoding. *)
Definition key_le (a b : pubkey) : Prop := String.leb (Nut01.to_bytes a) (Nut01.to_bytes b) = true.
#[global] Instance key_le_dec : RelDecision key_le.
Proof. intros a b. unfold key_le. apply _. Defined.

(** [TransactionId::new]. *)
Definition transaction_id (ys : list pubkey) : digest :=
  sha256 (String.concat "" (Nut01.to_bytes <$> merge_sort key_le ys)).

Definition transaction_matches (self : Transaction) (mint_url : option MintUrl) (direction : option TransactionDirection)
    (unit : option Amount.CurrencyUnit) : bool :=
  matches (fun u => bool_decide (u = tr_mint_url self)) mint_url &&
  matches (fun d => bool_decide (d = tr_direction self)) direction &&
  matches (fun u => bool_decide (u = tr_unit self)) unit.

(** nut02.rs: a keyset as the mint lists it. *)
Record KeySetInfo := mkKeySetInfo {
  ki_id : Id;
  ki_unit : Amount.CurrencyUnit;
  ki_active : bool;
  ki_input_fee_ppk : N;
  ki_final_expiry : option N;
}.

Context {MintInfo : Type}.

Record WalletState := mkWalletState {
  ws_mints : gmap MintUrl (option MintInfo);
  ws_keysets : gmap MintUrl (list KeySetInfo);
  ws_keyset_map : gmap Id KeySetInfo;
  ws_mint_quotes : gmap string WMintQuote;
  ws_melt_quotes : gmap string WMeltQuote;
  ws_keys : gmap Id (gmap N pubkey);
  ws_proofs : list ProofInfo;
  ws_keyset_counters : gmap Id N;
  ws_transactions : list Transaction;
}.

(** [WalletState::default()]. *)
Definition default_state : WalletState := mkWalletState ∅ ∅ ∅ ∅ ∅ ∅ [] ∅ [].

Definition set_proofs (s : WalletState) (l : list ProofInfo) : WalletState :=
  mkWalletState (ws_mints s) (ws_keysets s) (ws_keyset_map s) (ws_mint_quotes s) (ws_melt_quotes s) (ws_keys s) l
    (ws_keyset_counters s) (ws_transactions s).

End data.
Arguments WalletState {CR} MintInfo.

(** What is read back as it was written: a URL in its normal form, a unit and a
    payment method whose name is in lower case ([Display] writes the name of a
    custom unit in lower case, and [from_str] reads that of a payment method
    so). *)
Definition canonical (u : MintUrl) : Prop := MintUrl.from_str u = Ok u.
Definition unit_canonical (u : Amount.CurrencyUnit) : Prop := currency_from_str (unit_to_string u) = u.
Definition method_canonical (m : MintTypes.PaymentMethod) : Prop :=
  match m with
  | MintTypes.CustomMethod name => to_lowercase name = name /\ name <> "bolt11" /\ name <> "bolt12"
  | _ => True
  end.

(** Everywhere in a state. *)
Definition state_canonical {CR : Crypto} {MintInfo} (s : WalletState MintInfo) : Prop :=
  map_Forall (fun u _ => canonical u) (ws_mints s) /\
  map_Forall (fun u l => canonical u /\ Forall (unit_canonical ∘ ki_unit) l) (ws_keysets s) /\
  map_Forall (fun _ k => unit_canonical (ki_unit k)) (ws_keyset_map s) /\
  map_Forall (fun _ q => canonical (wq_mint_url q) /\ unit_canonical (wq_unit q) /\ method_canonical (wq_payment_method q)) (ws_mint_quotes s) /\
  map_Forall (fun _ q => unit_canonical (wm_unit q) /\ method_canonical (wm_payment_method q)) (ws_melt_quotes s) /\
  Forall (fun p => canonical (pi_mint_url p) /\ unit_canonical (pi_unit p)) (ws_proofs s) /\
  Forall (fun t => canonical (tr_mint_url t) /\ unit_canonical (tr_unit t)) (ws_transactions s).

(** The JSON codec of the stored state, and what it promises: URLs, units and
    payment methods are parsed again when they are read.  A state with an id or a
    number that has no JSON form has none. *)
Class StateJson (CR : Crypto) (MintInfo : Type) := {
  state_to_json : WalletState MintInfo -> option string;
  state_from_json : string -> option (WalletState MintInfo);
}.

Class StateJsonLaws (CR : Crypto) (MintInfo : Type) (J : StateJson CR MintInfo) : Prop := {
  json_roundtrip s j : state_canonical s -> state_to_json s = Some j -> state_from_json j = Some s;
}.

(** ** Operations *)
Section ops.
Context {CR : Crypto} {MintInfo : Type} {J : StateJson CR MintInfo} {S : Type}.

(** What a call of the page works on: its copy of the wallet and the key it is
    stored under, the browser's storage with its faults, and the mint. *)
Record Page := mkPage {
  pg_state : WalletState MintInfo;
  pg_key : string;
  pg_disk : gmap string string;
  pg_faults : list bool;
  pg_remote : S;
}.

Definition set_state (p : Page) (s : WalletState MintInfo) : Page :=
  mkPage s (pg_key p) (pg_disk p) (pg_faults p) (pg_remote p).

Inductive StoreError := StorageUnavailable | Serialization | NoState | Deserialization.

(** [window()], [local_storage()] and the access itself, any of which fails. *)
Definition storage {A} (f : gmap string string -> res StoreError A * gmap string string) : M Page StoreError A :=
  fun p =>
    let run fl := match f (pg_disk p) with
                  | (r, d) => (r, mkPage (pg_state p) (pg_key p) d fl (pg_remote p))
                  end in
    match pg_faults p with
    | true :: fl => (Err StorageUnavailable, mkPage (pg_state p) (pg_key p) (pg_disk p) fl (pg_remote p))
    | false :: fl => run fl
    | [] => run []
    end.

Definition save_snapshot : M Page StoreError unit :=
  do p <- mgets (fun p => p) ;
  do json <- mlift (ok_or Serialization (state_to_json (pg_state p))) ;
  storage (fun d => (Ok tt, <[pg_key p := json]> d)).

Definition load_from_localstorage (storage_key : string) : M Page StoreError (WalletState MintInfo) :=
  do json <- storage (fun d => (ok_or NoState (d !! storage_key), d)) ;
  mlift (ok_or Deserialization (state_from_json json)).

(** [LocalStorageWalletDatabase::new]. *)
Definition open (storage_key : string) : M Page StoreError unit :=
  do loaded <- mtry (load_from_localstorage storage_key) ;
  let state := match loaded with inl s => s | inr _ => default_state end in
  do_ mmodify (fun p => mkPage state storage_key (pg_disk p) (pg_faults p) (pg_remote p)) ;
  save_snapshot.

(** A change of the state, then the snapshot. *)
Definition update (f : WalletState MintInfo -> WalletState MintInfo) : M Page StoreError unit :=
  do_ mmodify (fun p => set_state p (f (pg_state p))) ;
  save_snapshot.

Definition query {A} (f : WalletState MintInfo -> A) : M Page StoreError A := mgets (fun p => f (pg_state p)).

Definition with_mints (s : WalletState MintInfo) m : WalletState MintInfo :=
  mkWalletState m (ws_keysets s) (ws_keyset_map s) (ws_mint_quotes s) (ws_melt_quotes s) (ws_keys s) (ws_proofs s)
    (ws_keyset_counters s) (ws_transactions s).
Definition with_keysets (s : WalletState MintInfo) k km : WalletState MintInfo :=
  mkWalletState (ws_mints s) k km (ws_mint_quotes s) (ws_melt_quotes s) (ws_keys s) (ws_proofs s)
    (ws_keyset_counters s) (ws_transactions s).
Definition with_mint_quotes (s : WalletState MintInfo) q : WalletState MintInfo :=
  mkWalletState (ws_mints s) (ws_keysets s) (ws_keyset_map s) q (ws_melt_quotes s) (ws_keys s) (ws_proofs s)
    (ws_keyset_counters s) (ws_transactions s).
Definition with_melt_quotes (s : WalletState MintInfo) q : WalletState MintInfo :=
  mkWalletState (ws_mints s) (ws_keysets s) (ws_keyset_map s) (ws_mint_quotes s) q (ws_keys s) (ws_proofs s)
    (ws_keyset_counters s) (ws_transactions s).
Definition with_keys (s : WalletState MintInfo) k : WalletState MintInfo :=
  mkWalletState (ws_mints s) (ws_keysets s) (ws_keyset_map s) (ws_mint_quotes s) (ws_melt_quotes s) k (ws_proofs s)
    (ws_keyset_counters s) (ws_transactions s).
Definition with_counters (s : WalletState MintInfo) c : WalletState MintInfo :=
  mkWalletState (ws_mints s) (ws_keysets s) (ws_keyset_map s) (ws_mint_quotes s) (ws_melt_quotes s) (ws_keys s)
    (ws_proofs s) c (ws_transactions s).
Definition with_transactions (s : WalletState MintInfo) t : WalletState MintInfo :=
  mkWalletState (ws_mints s) (ws_keysets s) (ws_keyset_map s) (ws_mint_quotes s) (ws_melt_quotes s) (ws_keys s)
    (ws_proofs s) (ws_keyset_counters s) t.

Definition add_mint (mint_url : MintUrl) (mint_info : option MintInfo) : M Page StoreError unit :=
  update (fun s => with_mints s (<[mint_url := mint_info]> (ws_mints s))).
Definition remove_mint (mint_url : MintUrl) : M Page StoreError unit :=
  update (fun s => with_mints s (delete mint_url (ws_mints s))).
Definition get_mint (mint_url : MintUrl) : M Page StoreError (option MintInfo) :=
  query (fun s => mjoin (ws_mints s !! mint_url)).
Definition get_mints : M Page StoreError (gmap MintUrl (option MintInfo)) := query ws_mints.

Definition update_mint_url (old_mint_url new_mint_url : MintUrl) : M Page StoreError unit :=
  update (fun s => match ws_mints s !! old_mint_url with
                   | Some info => with_mints s (<[new_mint_url := info]> (delete old_mint_url (ws_mints s)))
                   | None => s
                   end).

Definition add_mint_keysets (mint_url : MintUrl) (keysets : list KeySetInfo) : M Page StoreError unit :=
  update (fun s => with_keysets s (<[mint_url := keysets]> (ws_keysets s))
                     (fold_left (fun m k => <[ki_id k := k]> m) keysets (ws_keyset_map s))).
Definition get_mint_keysets (mint_url : MintUrl) : M Page StoreError (option (list KeySetInfo)) :=
  query (fun s => ws_keysets s !! mint_url).
Definition get_keyset_by_id (keyset_id : Id) : M Page StoreError (option KeySetInfo) :=
  query (fun s => ws_keyset_map s !! keyset_id).

Definition add_mint_quote (quote : WMintQuote) : M Page StoreError unit :=
  update (fun s => with_mint_quotes s (<[wq_id quote := quote]> (ws_mint_quotes s))).
Definition get_mint_quote (quote_id : string) : M Page StoreError (option WMintQuote) :=
  query (fun s => ws_mint_quotes s !! quote_id).
Definition get_mint_quotes : M Page StoreError (list WMintQuote) := query (fun s => (map_to_list (ws_mint_quotes s)).*2).
Definition remove_mint_quote (quote_id : string) : M Page StoreError unit :=
  update (fun s => with_mint_quotes s (delete quote_id (ws_mint_quotes s))).

Definition add_melt_quote (quote : WMeltQuote) : M Page StoreError unit :=
  update (fun s => with_melt_quotes s (<[wm_id quote := quote]> (ws_melt_quotes s))).
Definition get_melt_quote (quote_id : string) : M Page StoreError (option WMeltQuote) :=
  query (fun s => ws_melt_quotes s !! quote_id).
Definition get_melt_quotes : M Page StoreError (list WMeltQuote) := query (fun s => (map_to_list (ws_melt_quotes s)).*2).
Definition remove_melt_quote (quote_id : string) : M Page StoreError unit :=
  update (fun s => with_melt_quotes s (delete quote_id (ws_melt_quotes s))).

Definition add_keys (id : Id) (keys : gmap N pubkey) : M Page StoreError unit :=
  update (fun s => with_keys s (<[id := keys]> (ws_keys s))).
Definition get_keys (id : Id) : M Page StoreError (option (gmap N pubkey)) := query (fun s => ws_keys s !! id).
Definition remove_keys (id : Id) : M Page StoreError unit := update (fun s => with_keys s (delete id (ws_keys s))).

(** [proofs.retain(..)], then [proofs.extend(added)]: a key that is added twice
    is stored twice. *)
Definition change_proofs (added : list ProofInfo) (removed_ys : list pubkey) (l : list ProofInfo) : list ProofInfo :=
  filter (fun p => pi_y p ∉ removed_ys) l ++ added.
Definition update_proofs (added : list ProofInfo) (removed_ys : list pubkey) : M Page StoreError unit :=
  update (fun s => set_proofs s (change_proofs added removed_ys (ws_proofs s))).

(** The filter of [get_proofs]: a proof without spending condition passes every
    filter on conditions. *)
Definition passes (p : ProofInfo) (mint_url : option MintUrl) (unit : option Amount.CurrencyUnit)
    (state : option (list Nut07.State)) (spending_conditions : option (list SpendingConditions)) : bool :=
  matches (fun u => bool_decide (pi_mint_url p = u)) mint_url &&
  matches (fun u => bool_decide (pi_unit p = u)) unit &&
  matches (fun l => bool_decide (pi_state p ∈ l)) state &&
  matches (fun l => match pi_spending_condition p with Some c => bool_decide (c ∈ l) | None => true end)
    spending_conditions.
Definition get_proofs (mint_url : option MintUrl) (unit : option Amount.CurrencyUnit)
    (state : option (list Nut07.State)) (spending_conditions : option (list SpendingConditions))
    : M Page StoreError (list ProofInfo) :=
  query (fun s => filter (fun p => passes p mint_url unit state spending_conditions = true) (ws_proofs s)).

Definition restate (ys : list pubkey) (new_state : Nut07.State) (p : ProofInfo) : ProofInfo :=
  if bool_decide (pi_y p ∈ ys) then set_pi_state p new_state else p.
Definition update_proofs_state (ys : list pubkey) (new_state : Nut07.State) : M Page StoreError unit :=
  update (fun s => set_proofs s (restate ys new_state <$> ws_proofs s)).

(** The counter is a [u32]. *)
Definition increment_keyset_counter (keyset_id : Id) (count : N) : M Page StoreError N :=
  do s <- query (fun s => s) ;
  let new_value := (default 0 (ws_keyset_counters s !! keyset_id) + count) mod 2 ^ 32 in
  do_ update (fun s => with_counters s (<[keyset_id := new_value]> (ws_keyset_counters s))) ;
  mret new_value.

Definition add_transaction (t : Transaction) : M Page StoreError unit :=
  update (fun s => with_transactions s (ws_transactions s ++ [t])).
Definition get_transaction (id : digest) : M Page StoreError (option Transaction) :=
  query (fun s => head (filter (fun t => transaction_id (tr_ys t) = id) (ws_transactions s))).
Definition list_transactions (mint_url : option MintUrl) (direction : option TransactionDirection)
    (unit : option Amount.CurrencyUnit) : M Page StoreError (list Transaction) :=
  query (fun s => filter (fun t => transaction_matches t mint_url direction unit = true) (ws_transactions s)).
Definition remove_transaction (id : digest) : M Page StoreError unit :=
  update (fun s => with_transactions s (filter (fun t => transaction_id (tr_ys t) <> id) (ws_transactions s))).

(** The sum of [u64]s wraps around in a release build. *)
Definition amounts_of (l : list ProofInfo) : list N := (fun p => amount (pi_proof p)) <$> l.
Definition u64_sum (l : list N) : N := sumN l mod 2 ^ 64.
Definition get_balance (mint_url : option MintUrl) (unit : option Amount.CurrencyUnit) (states : option (list Nut07.State))
    : M Page StoreError N :=
  do proofs <- get_proofs mint_url unit states None ;
  mret (u64_sum (amounts_of proofs)).

End ops.
Arguments Page {CR} MintInfo S.
End WalletDb.
