(* ===== verification/WalletDbFacts.v ===== *)
(** * The browser wallet's store: abstraction, persistence, lost updates

    While no key is added twice, the list of proofs behaves as a map from keys
    to proofs.  A change that succeeds is found again by the next call of the
    page; a copy that was opened earlier overwrites it. *)
From stdpp Require Import base numbers list sorting strings gmap.
From S2P Require Import Prelude Amount Nuts Conditions States MintFacts MintUrl WalletDb.
Import Nut00 Nut11 WalletDb MintFacts.

Local Open Scope N_scope.
Local Open Scope mint_scope.

Module WalletDbFacts.
Section facts.
Context {CR : Crypto} {MintInfo : Type} {J : StateJson CR MintInfo} {S : Type}.
Local Abbreviation Page := (Page MintInfo S).

(** ** The list of proofs as a map *)

Definition abs (l : list ProofInfo) : gmap pubkey ProofInfo := list_to_map ((fun p => (pi_y p, p)) <$> l).

(** The wallet's proofs, as lists and as maps, under the two updates. *)
Inductive Cmd :=
| CmdProofs (added : list ProofInfo) (removed_ys : list pubkey)
| CmdState (ys : list pubkey) (new_state : Nut07.State).

Definition cmd_map (c : Cmd) (m : gmap pubkey ProofInfo) : gmap pubkey ProofInfo :=
  match c with
  | CmdProofs added removed => abs added ∪ filter (fun kv => kv.1 ∉ removed) m
  | CmdState ys st => map_imap (fun y p => Some (if bool_decide (y ∈ ys) then set_pi_state p st else p)) m
  end.

Definition cmd_list (c : Cmd) (l : list ProofInfo) : list ProofInfo :=
  match c with
  | CmdProofs added removed => change_proofs added removed l
  | CmdState ys st => restate ys st <$> l
  end.

Definition cmd_run (c : Cmd) : M Page StoreError unit :=
  match c with
  | CmdProofs added removed => update_proofs added removed
  | CmdState ys st => update_proofs_state ys st
  end.

(** The keys that a command adds are new. *)
Definition adds_fresh (c : Cmd) (m : gmap pubkey ProofInfo) : Prop :=
  match c with
  | CmdProofs added removed => NoDup (pi_y <$> added) /\ forall p, p ∈ added -> pi_y p ∈ removed \/ m !! pi_y p = None
  | CmdState _ _ => True
  end.

Fixpoint all_fresh (cs : list Cmd) (m : gmap pubkey ProofInfo) : Prop :=
  match cs with [] => True | c :: cs' => adds_fresh c m /\ all_fresh cs' (cmd_map c m) end.

Definition represents (l : list ProofInfo) (m : gmap pubkey ProofInfo) : Prop :=
  NoDup (pi_y <$> l) /\ abs l = m.

Lemma keys_of_pairs l : ((fun p => (pi_y p, p)) <$> l).*1 = pi_y <$> l.
Proof. by rewrite <- list_fmap_compose. Qed.

Lemma lookup_abs l y p : NoDup (pi_y <$> l) -> abs l !! y = Some p <-> p ∈ l /\ pi_y p = y.
Proof.
  intros Hnd. unfold abs. rewrite <- elem_of_list_to_map by (by rewrite keys_of_pairs).
  rewrite list_elem_of_fmap. split; [intros (q & [= -> ->] & ?); done|intros [? <-]; eauto].
Qed.

Lemma lookup_abs_None l y : abs l !! y = None <-> y ∉ (pi_y <$> l).
Proof. unfold abs. by rewrite <- not_elem_of_list_to_map, keys_of_pairs. Qed.

Lemma abs_values l : NoDup (pi_y <$> l) -> (map_to_list (abs l)).*2 ≡ₚ l.
Proof.
  intros Hnd. unfold abs. rewrite map_to_list_to_map by (by rewrite keys_of_pairs).
  rewrite <- list_fmap_compose. by rewrite list_fmap_id.
Qed.

Lemma restate_y ys st (l : list ProofInfo) : pi_y <$> (restate ys st <$> l) = pi_y <$> l.
Proof.
  rewrite <- list_fmap_compose. apply list_fmap_ext. intros _ p _. cbn. unfold restate. by case_bool_decide.
Qed.

Lemma change_none added (l : list ProofInfo) : change_proofs added [] l = l ++ added.
Proof.
  unfold change_proofs. f_equal. apply filter_all. intros p _. apply not_elem_of_nil.
Qed.

Lemma cmd_represents c l m : represents l m -> adds_fresh c m -> represents (cmd_list c l) (cmd_map c m).
Proof.
  intros [Hnd <-] Hf. destruct c as [added removed|ys st]; cbn [cmd_list cmd_map adds_fresh] in *.
  - destruct Hf as [Hna Hf]. assert (Hnew : NoDup (pi_y <$> change_proofs added removed l)).
    { unfold change_proofs. rewrite fmap_app. apply NoDup_app. split; [by apply (NoDup_map_filter pi_y)|]. split; [|done].
      intros y (p & -> & [Hp Hin]%list_elem_of_filter)%list_elem_of_fmap (q & Hq & Hqa)%list_elem_of_fmap.
      destruct (Hf q Hqa) as [Hr|Hn]; [congruence|]. apply lookup_abs_None in Hn. apply Hn. rewrite <- Hq.
      by apply list_elem_of_fmap_2. }
    split; [done|]. apply map_eq. intros y. apply option_eq. intros p. rewrite lookup_abs by done.
    rewrite lookup_union_Some_raw, map_lookup_filter_Some, !lookup_abs, lookup_abs_None by done. cbn.
    unfold change_proofs. rewrite elem_of_app, list_elem_of_filter. split.
    + intros [[[Hr Hin]|Hin] <-]; [right|by left]. split; [|done].
      intros (q & Hq & Hqa)%list_elem_of_fmap. destruct (Hf q Hqa) as [Hx|Hx]; [congruence|].
      apply lookup_abs_None in Hx. apply Hx. rewrite <- Hq. by apply list_elem_of_fmap_2.
    + intros [[Hin <-]|(_ & [Hin <-] & Hr)]; [by split; [right|]|]. by split; [left|].
  - split; [by rewrite restate_y|]. apply map_eq. intros y. apply option_eq. intros p.
    rewrite lookup_abs by (by rewrite restate_y). rewrite map_lookup_imap.
    rewrite list_elem_of_fmap. split.
    + intros [(q & -> & Hq) Hy]. assert (pi_y q = y) as Hqy by (unfold restate in Hy; by destruct (bool_decide _)).
      rewrite (proj2 (lookup_abs l y q Hnd)) by done. cbn. unfold restate. by rewrite Hqy.
    + destruct (abs l !! y) as [q|] eqn:Hq; [|done]. apply lookup_abs in Hq as [Hin <-]; [|done]. cbn. intros [= <-].
      unfold restate. split; [eauto|]. by case_bool_decide.
Qed.

(** ** What an operation leaves on the disk *)

(** The stored text is that of the copy in memory. *)
Definition saved (p : Page) : Prop :=
  exists j, state_to_json (pg_state p) = Some j /\ pg_disk p !! pg_key p = Some j.

(** Nothing but the copy and the storage changes in an operation of the store. *)
Definition same_place (p p' : Page) : Prop := pg_key p' = pg_key p /\ pg_remote p' = pg_remote p.

Lemma save_spec (p p' : Page) r :
  save_snapshot p = (r, p') -> pg_state p' = pg_state p /\ same_place p p' /\ (r = Ok tt -> saved p') /\
    (r <> Ok tt -> pg_disk p' = pg_disk p).
Proof.
  unfold save_snapshot, mseq, mgets, mlift, storage. intros H.
  destruct (state_to_json (pg_state p)) as [j|] eqn:Hj; cbn in H; [|injection H as <- <-; done].
  destruct (pg_faults p) as [|[] fl]; injection H as <- <-; (split; [done|]); (split; [done|]); (split; [|done]);
    try done; intros _; exists j; (split; [done|]); apply lookup_insert_eq.
Qed.

Lemma update_spec (p p' : Page) f r :
  update f p = (r, p') -> pg_state p' = f (pg_state p) /\ same_place p p' /\ (r = Ok tt -> saved p') /\
    (r <> Ok tt -> pg_disk p' = pg_disk p).
Proof. unfold update, mseq, mmodify. intros H%save_spec. cbn in H. done. Qed.

Lemma stored_reopens {JL : StateJsonLaws CR MintInfo J} f (p p' q : Page) :
  update f p = (Ok tt, p') -> state_canonical (f (pg_state p)) -> pg_disk q = pg_disk p' -> pg_faults q = [] ->
  exists q', open (pg_key p) q = (Ok tt, q') /\ pg_state q' = f (pg_state p) /\ pg_disk q' = pg_disk q.
Proof.
  intros Hupd Hcan Hdisk Hfaults.
  apply update_spec in Hupd as (Hst & [Hk _] & Hsv & _). destruct (Hsv eq_refl) as (j & Hj & Hd). rewrite Hst in Hj.
  rewrite Hk in Hd. unfold open, load_from_localstorage, mseq, mtry, storage, mlift. cbn. rewrite Hfaults, Hdisk, Hd. cbn.
  rewrite (json_roundtrip _ _ Hcan Hj). cbn. unfold save_snapshot, mseq, mgets, mlift, storage. cbn. rewrite Hj. cbn.
  eexists. split; [reflexivity|]. split; [done|]. by apply insert_id.
Qed.

(** ** Theorems *)

(** C26. The store of the page implements a map from keys to proofs: as long as the
    keys that are added are new, any sequence of changes of proofs and of their
    states, all of which succeed, does to the stored list what its mathematical
    counterparts do to the map that it represents, and every query then answers
    with the values of that map that pass the filter, each of them once. *)
Theorem store_refines_map cs (p p' : Page) m
    (Hrep : represents (ws_proofs (pg_state p)) m) (Hfresh : all_fresh cs m)
    (Hrun : mfor cmd_run cs p = (Ok tt, p')) :
  let m' := fold_left (fun m c => cmd_map c m) cs m in
  represents (ws_proofs (pg_state p')) m' /\
  forall url unit states conds, exists l,
    get_proofs url unit states conds p' = (Ok l, p') /\
    l ≡ₚ filter (fun i => passes i url unit states conds = true) (map_to_list m').*2.
Proof.
  cbv zeta. revert p m Hrep Hfresh Hrun. induction cs as [|c cs IH]; intros p m Hrep Hfresh Hrun; cbn [mfor fold_left] in *.
  - injection Hrun as <-. split; [done|]. intros url unit states conds. eexists. split; [done|].
    destruct Hrep as [Hnd <-]. by rewrite (abs_values _ Hnd).
  - destruct Hfresh as [Hf Hfs]. apply mseq_Ok in Hrun as ([] & p1 & H1 & Hrun). eapply IH; [|exact Hfs|exact Hrun].
    pose proof (cmd_represents _ _ _ Hrep Hf) as Hc.
    destruct c as [added removed|ys st]; cbn [cmd_run cmd_list] in *;
      apply update_spec in H1 as (-> & _); done.
Qed.

(** What the page has stored it finds again: after a change that succeeded,
    any later call that opens the store under the same key, with the storage
    available, starts from the changed wallet and leaves the storage as it
    was. *)
Theorem stored_wallet_reopens {JL : StateJsonLaws CR MintInfo J} f (p p' q : Page)
    (Hupd : update f p = (Ok tt, p')) (Hcan : state_canonical (f (pg_state p)))
    (Hdisk : pg_disk q = pg_disk p') (Hfaults : pg_faults q = []) :
  exists q', open (pg_key p) q = (Ok tt, q') /\ pg_state q' = f (pg_state p) /\ pg_disk q' = pg_disk q.
Proof. by eapply stored_reopens. Qed.

(** A wallet that cannot be read is erased: whatever the reason for which
    the load fails, be it a storage that is not available for a moment or a
    text of another version of the program, opening the store writes an empty
    wallet over the stored one. *)
Theorem unreadable_wallet_erased key (p p' : Page)
    (Hload : forall s, fst (load_from_localstorage key p) <> Ok s)
    (Hopen : open key p = (Ok tt, p')) :
  pg_state p' = default_state /\ exists j, state_to_json default_state = Some j /\ pg_disk p' !! key = Some j.
Proof.
  unfold open in Hopen. apply mseq_Ok in Hopen as (loaded & p1 & H1 & H). unfold mtry in H1.
  destruct (load_from_localstorage key p) as [[s|e|] p0] eqn:Hl; cbn in Hload; [by destruct (Hload s)| |done].
  injection H1 as <- <-. apply mseq_Ok in H as ([] & p2 & [= <-] & H).
  apply save_spec in H as (Hst & [Hk _] & Hsv & _). cbn in Hst, Hk. destruct (Hsv eq_refl) as (j & Hj & Hd).
  rewrite Hst in Hj. rewrite Hk in Hd. split; [done|]. eauto.
Qed.

(** A copy that was opened earlier overwrites later changes: when another
    call has changed the stored wallet in any way, the next change through the
    old copy stores that copy with its own change, so that a proof which the
    other call deleted as spent is in the wallet again. *)
Theorem old_copy_overwrites {JL : StateJsonLaws CR MintInfo J} other (q q' p p' r : Page) added i
    (Hother : update other q = (Ok tt, q')) (Hdisk : pg_disk p = pg_disk q') (Hkey : pg_key p = pg_key q)
    (Hin : i ∈ ws_proofs (pg_state p))
    (Hown : update_proofs added [] p = (Ok tt, p')) (Hcan : state_canonical (pg_state p'))
    (Hr : pg_disk r = pg_disk p') (Hf : pg_faults r = []) :
  exists r', open (pg_key q) r = (Ok tt, r') /\ i ∈ ws_proofs (pg_state r') /\
    ws_proofs (pg_state r') = ws_proofs (pg_state p) ++ added.
Proof.
  pose proof (update_spec _ _ _ _ Hown) as (Hst & _).
  assert (Hp' : ws_proofs (pg_state p') = ws_proofs (pg_state p) ++ added).
  { rewrite Hst. apply change_none. }
  rewrite Hst in Hcan. destruct (stored_reopens _ _ _ _ Hown Hcan Hr Hf) as (r' & Ho & Hs & _).
  rewrite <- Hkey. exists r'. split; [done|]. rewrite Hs, <- Hst, Hp'. split; [set_solver|done].
Qed.

End facts.
End WalletDbFacts.
