(* ===== verification/Checker.v ===== *)
(** * The NUT-10 checker (web/nut-10-checker/src)

    The web page's own operations on top of the wallet store, the protocol
    library and a mint: lib.rs, lib_helpers.rs and test_context.rs.  A mint is
    the class [MintConnector], an interface over the state [S] of whatever is
    at the other end.  Arguments that the page passes as JavaScript values are
    options: [None] is a value that does not decode.  Random secrets and
    blinding factors come from the argument [rnd]. *)
From Stdlib Require Import Ascii.
From stdpp Require Import base numbers list sorting strings gmap.
From S2P Require Import Prelude Amount Nuts Bdhke Conditions Spending States MintUrl WalletDb.
Import Nut00 Requests Nut11 Spending Bdhke WalletDb.

Local Open Scope N_scope.
Local Open Scope res_scope.
Local Open Scope mint_scope.

(** What the page asks of a mint. *)
Class MintConnector (CR : Crypto) (S NetError : Type) := {
  net_keysets : M S NetError (list KeySetInfo);
  net_keys : M S NetError (list (Id * gmap N pubkey));
  post_swap : SwapRequest -> M S NetError (list BlindSignature);
  post_check_state : list pubkey -> M S NetError (list Nut07.ProofState);
}.

Module Checker.

(** ** Denominations *)

(** [sort_by(|a, b| b.cmp(a))]. *)
Fixpoint insert_ge (x : N) (l : list N) : list N :=
  match l with
  | [] => [x]
  | y :: l' => if y <=? x then x :: l else y :: insert_ge x l'
  end.
Definition sort_ge (l : list N) : list N := foldr insert_ge [] l.

(** [while remaining >= amount]; [None] when the rounds do not suffice. *)
Fixpoint take_amount (rounds : nat) (amount remaining : N) (selected : list N) : option (N * list N) :=
  if amount <=? remaining then
    match rounds with
    | O => None
    | S rounds' => take_amount rounds' amount (remaining - amount) (selected ++ [amount])
    end
  else Some (remaining, selected).

Fixpoint take_all (rounds : nat) (sorted : list N) (remaining : N) (selected : list N) : option (N * list N) :=
  match sorted with
  | [] => Some (remaining, selected)
  | a :: sorted' =>
      '(remaining, selected) ← take_amount rounds a remaining selected;
      take_all rounds sorted' remaining selected
  end.

(** [None]: the loop does not end. *)
Definition select_denominations (rounds : nat) (target : N) (available : list N) : option (res (N * list N) (list N)) :=
  '(remaining, selected) ← take_all rounds (sort_ge available) target [];
  Some (if 0 <? remaining then Err (target, available) else Ok selected).

Definition MAX_SAFE_JS_INT : N := 9007199254740991.

(** [str::replace] of one pattern, from the left. *)
Fixpoint replace_scheme (s : string) : string :=
  match s with
  | EmptyString => EmptyString
  | String c s' =>
      match s' with
      | String d (String e s'') =>
          if MintUrl.at_scheme c d e then String "_"%char (replace_scheme s'') else String c (replace_scheme s')
      | _ => String c (replace_scheme s')
      end
  end.
Fixpoint replace_slash (s : string) : string :=
  match s with
  | EmptyString => EmptyString
  | String c s' => String (if Ascii.eqb c MintUrl.slash then "_"%char else c) (replace_slash s')
  end.
Definition storage_key (url : MintUrl) : string := ("wallet_" ++ replace_slash (replace_scheme url))%string.

Section defs.
Context {CR : Crypto} {CV : Curve CR} {SD : Serde} {MintInfo : Type} {J : StateJson CR MintInfo}.
Context {S NetError : Type} {MC : MintConnector CR S NetError}.
(** [Mnemonic::parse] accepts the words; [SecretKey::from_str]. *)
Context (mnemonic_ok : string -> bool) (seckey_from_str : string -> option seckey).

Inductive JsError :=
| InvalidMintUrl
| InvalidSeed
| BadArgument
| InvalidKey
| StoreFailed (e : StoreError)
| MintFailed (e : NetError)
| NoActiveKeyset
| KeysetNotFound
| InsufficientBalance (have need : N)
| CannotMake (target : N) (available : list N)
| BlindFailed (e : Dhke.Error)
| ConditionsFailed (e : Nut11.Error)
| ConstructFailed (e : Dhke.Error)
| ProofInfoFailed (e : Dhke.Error)
| SignFailed (e : Nut11.Error)
| YFailed (e : Dhke.Error).

Abbreviation Page := (Page MintInfo S).
Definition Js (A : Type) : Type := M Page JsError A.

Definition arg {A} (a : option A) : Js A := mlift (ok_or BadArgument a).
Definition store {A} (c : M Page StoreError A) : Js A := mmap_err StoreFailed c.
Definition net {A} (c : M S NetError A) : Js A :=
  mmap_err MintFailed (fun p => match c (pg_remote p) with
    | (r, s) => (r, mkPage (pg_state p) (pg_key p) (pg_disk p) (pg_faults p) s) end).

(** The start of every exported function that uses the wallet. *)
Definition parse_url (mint_url : string) : Js MintUrl := mlift (map_err (fun _ => InvalidMintUrl) (MintUrl.from_str mint_url)).
Definition open_wallet (mint_url seed_words : string) : Js MintUrl :=
  do url <- parse_url mint_url ;
  do_ mlift (if mnemonic_ok seed_words then Ok tt else Err InvalidSeed) ;
  do_ store (open (storage_key url)) ;
  mret url.

(** [keysets.iter().find(|k| k.active)]: of any unit. *)
Definition find_active (keysets : list KeySetInfo) : option Id :=
  ki_id <$> head (filter (fun k => ki_active k = true) keysets).
Definition active_keyset_id : Js Id :=
  do keysets <- net net_keysets ;
  mlift (ok_or NoActiveKeyset (find_active keysets)).

Definition find_keys (id : Id) (keys : list (Id * gmap N pubkey)) : option (gmap N pubkey) :=
  snd <$> head (filter (fun k => fst k = id) keys).
Definition mint_keys (id : Id) : Js (gmap N pubkey) :=
  do all_keys <- net net_keys ;
  mlift (ok_or KeysetNotFound (find_keys id all_keys)).

Definition get_mint_denominations (mint_url : string) : Js (list N) :=
  do_ parse_url mint_url ;
  do id <- active_keyset_id ;
  do keys <- mint_keys id ;
  mret (merge_sort N.le (filter (fun a => a <= MAX_SAFE_JS_INT) (map_to_list keys).*1)).

(** ** Balances *)

Record Balance := mkBalance { b_unspent : N; b_pending : N; b_spent : N; b_reserved : N; b_pending_spent : N; b_total : N }.

Definition in_state (st : Nut07.State) (l : list ProofInfo) : list ProofInfo := filter (fun p => pi_state p = st) l.

Definition balance_of (l : list ProofInfo) : Balance :=
  let sum st := u64_sum (amounts_of (in_state st l)) in
  let unspent := sum Nut07.Unspent in let pending := sum Nut07.Pending in let spent := sum Nut07.Spent in
  let reserved := sum Nut07.Reserved in let pending_spent := sum Nut07.PendingSpent in
  mkBalance unspent pending spent reserved pending_spent (u64_sum [unspent; pending; spent; reserved; pending_spent]).

Definition get_wallet_balance_by_state (mint_url seed_words : string) : Js Balance :=
  do url <- open_wallet mint_url seed_words ;
  do all_proofs <- store (get_proofs (Some url) (Some Amount.Sat) None None) ;
  mret (balance_of all_proofs).

(** [Wallet::total_balance]. *)
Definition get_wallet_balance (mint_url seed_words : string) : Js N :=
  do url <- open_wallet mint_url seed_words ;
  store (get_balance (Some url) (Some Amount.Sat) (Some [Nut07.Unspent])).

(** ** Swaps *)

Definition safe_swap (swap_request : SwapRequest) (input_ys : list pubkey) : Js (list BlindSignature) :=
  do_ store (update_proofs_state input_ys Nut07.Pending) ;
  do response <- net (post_swap swap_request) ;
  do_ store (update_proofs [] input_ys) ;
  mret response.

(** The loop that picks inputs until they cover the amount. *)
Fixpoint pick_inputs (need : N) (all : list ProofInfo) (picked : list ProofInfo) (total : N) : list ProofInfo * N :=
  match all with
  | [] => (picked, total)
  | p :: all' => if need <=? total then (picked, total)
                 else pick_inputs need all' (picked ++ [p]) ((total + amount (pi_proof p)) mod 2 ^ 64)
  end.

Definition select_inputs (url : MintUrl) (need : N) : Js (list ProofInfo * N) :=
  do all_proofs <- store (get_proofs (Some url) (Some Amount.Sat) (Some [Nut07.Unspent]) None) ;
  let '(picked, total) := pick_inputs need all_proofs [] 0 in
  if total <? need then mfail (InsufficientBalance total need) else mret (picked, total).

(** One blinded output for a secret. *)
Definition blind_output (keyset_id : Id) (amount : N) (secret : string) (fresh : seckey)
    : res JsError (BlindedMessage * (string * seckey)) :=
  let? (b, r) := map_err BlindFailed (blind_message secret None fresh) in
  Ok (BlindedMessage_new amount keyset_id b, (secret, r)).

(** Outputs for a list of amounts, each with the secret and the factor drawn
    for its position. *)
Fixpoint blind_outputs (keyset_id : Id) (secret_for : nat -> string) (factor : nat -> seckey) (i : nat) (amounts : list N)
    : res JsError (list (BlindedMessage * (string * seckey))) :=
  match amounts with
  | [] => Ok []
  | a :: amounts' =>
      let? o := blind_output keyset_id a (secret_for i) (factor i) in
      let? os := blind_outputs keyset_id secret_for factor (1 + i) amounts' in
      Ok (o :: os)
  end.

(** Randomness: the hexadecimal secret (which is also the nonce of a spending
    condition) and the blinding factor of output [i]. *)
Record Random := mkRandom { rnd_secret : nat -> string; rnd_factor : nat -> seckey }.

Definition plain_outputs (rnd : Random) (keyset_id : Id) (i : nat) (amounts : list N) :=
  blind_outputs keyset_id (rnd_secret rnd) (rnd_factor rnd) i amounts.
Definition locked_outputs (rnd : Random) (sc : SpendingConditions) (keyset_id : Id) (i : nat) (amounts : list N) :=
  blind_outputs keyset_id (fun i => sc_into_secret (rnd_secret rnd i) sc) (rnd_factor rnd) i amounts.

(** Unblinding with the keys of the keyset. *)
Definition unblind (keys : gmap N pubkey) (signatures : list BlindSignature) (sf : list (string * seckey))
    : res JsError (list Proof) :=
  map_err ConstructFailed (construct_proofs signatures sf.*2 sf.*1 keys).

Definition store_proof (url : MintUrl) (p : Proof) : Js unit :=
  do info <- mlift (map_err ProofInfoFailed (ProofInfo_new p url Nut07.Unspent Amount.Sat)) ;
  store (update_proofs [info] []).

(** The conditions of the 2-of-2 test. *)
Definition conditions_2of2 (alice_pk bob_pk : pubkey) (use_sig_all : bool) : res JsError SpendingConditions :=
  let? conditions := map_err ConditionsFailed
    (Conditions_new None (Some [bob_pk]) None (Some 2) (if use_sig_all then Some SigAll else None) None) in
  Ok (new_p2pk alice_pk (Some conditions)).

Definition parse_pubkey (s : string) : Js pubkey := mlift (map_err (fun _ => InvalidKey) (Nut01.from_str s)).

(** The outputs: locked ones of 1 and 2, then the change. *)
Definition change_outputs (rounds : nat) (rnd : Random) (id : Id) (change_amount : N) (denominations : list N)
    : option (res JsError (list (BlindedMessage * (string * seckey)))) :=
  if 0 <? change_amount then
    r ← select_denominations rounds change_amount denominations;
    Some (let? denoms := map_err (fun e => CannotMake e.1 e.2) r in plain_outputs rnd id 2 denoms)
  else Some (Ok []).

(** [swap_to_p2pk_2of2]; the result is [None] when [select_denominations] does
    not end. *)
Definition swap_to_p2pk_2of2 (rounds : nat) (rnd : Random) (mint_url seed_words alice_pubkey bob_pubkey : string)
    (denominations : option (list N)) (use_sig_all : bool) : Js (option (list Proof)) :=
  do denominations <- arg denominations ;
  let p2pk_amounts := [1; 2] in
  let total_p2pk := 3 in
  do url <- open_wallet mint_url seed_words ;
  do alice_pk <- parse_pubkey alice_pubkey ;
  do bob_pk <- parse_pubkey bob_pubkey ;
  do spending_conditions <- mlift (conditions_2of2 alice_pk bob_pk use_sig_all) ;
  do selected <- select_inputs url total_p2pk ;
  let '(inputs, input_total) := selected in
  do id <- active_keyset_id ;
  do locked <- mlift (locked_outputs rnd spending_conditions id 0 p2pk_amounts) ;
  match change_outputs rounds rnd id (input_total - total_p2pk) denominations with
  | None => mret None
  | Some change =>
      do change <- mlift change ;
      let outputs := locked ++ change in
      do signatures <- safe_swap (SwapRequest_new (pi_proof <$> inputs) outputs.*1) (pi_y <$> inputs) ;
      do keys <- mint_keys id ;
      do all_proofs <- mlift (unblind keys signatures outputs.*2) ;
      do_ mfor (store_proof url) (drop 2 all_proofs) ;
      mret (Some (take 2 all_proofs))
  end.

Definition add_proofs_to_wallet (mint_url seed_words : string) (proofs : option (list Proof)) : Js unit :=
  do url <- open_wallet mint_url seed_words ;
  do proofs <- arg proofs ;
  mfor (store_proof url) proofs.

(** ** Proof states *)

Definition check_specific_proofs_state (mint_url : string) (proofs : option (list Proof)) : Js (list Nut07.State) :=
  do_ parse_url mint_url ;
  do proofs <- arg proofs ;
  do ys <- mlift (map_err YFailed (ys proofs)) ;
  do states <- net (post_check_state ys) ;
  mret (Nut07.ps_state <$> states).

(** [*changes.entry(transition).or_insert(0) += amount]: a transition is the
    pair of states instead of their printed names, and the map is kept in the
    order in which the transitions were first seen. *)
Fixpoint add_change (transition : Nut07.State * Nut07.State) (amount : N) (changes : list (Nut07.State * Nut07.State * N))
    : list (Nut07.State * Nut07.State * N) :=
  match changes with
  | [] => [(transition, amount)]
  | (t, a) :: changes' =>
      if bool_decide (t = transition) then (t, (a + amount) mod 2 ^ 64) :: changes'
      else (t, a) :: add_change transition amount changes'
  end.

(** The loop that stores the states which have changed. *)
Fixpoint apply_states (l : list (ProofInfo * Nut07.ProofState)) (changes : list (Nut07.State * Nut07.State * N))
    : Js (list (Nut07.State * Nut07.State * N)) :=
  match l with
  | [] => mret changes
  | (info, ps) :: l' =>
      let new_state := Nut07.ps_state ps in
      if bool_decide (pi_state info = new_state) then apply_states l' changes
      else
        do_ store (update_proofs_state [pi_y info] new_state) ;
        apply_states l' (add_change (pi_state info, new_state) (amount (pi_proof info)) changes)
  end.

Definition check_proofs_state (mint_url seed_words : string) : Js (nat * list (Nut07.State * Nut07.State * N)) :=
  do url <- open_wallet mint_url seed_words ;
  do all_proofs <- store (get_proofs (Some url) (Some Amount.Sat) None None) ;
  match all_proofs with
  | [] => mret (0%nat, [])
  | _ =>
      do states <- net (post_check_state (pi_y <$> all_proofs)) ;
      do changes <- apply_states (zip all_proofs states) [] ;
      mret (length all_proofs, changes)
  end.

(** ** Spending with signatures *)

(** [SwapResult]. *)
Inductive SwapResult := SwapDone (proofs : option (list Proof)) | SwapRefused (error : NetError).

Definition parse_seckeys (secret_keys : list string) : Js (list seckey) :=
  mlift (collect (fun s => ok_or InvalidKey (seckey_from_str s)) secret_keys).

Fixpoint sign_all_sig_all (r : SwapRequest) (keys : list seckey) : res JsError SwapRequest :=
  match keys with
  | [] => Ok r
  | sk :: keys' => let? r' := map_err SignFailed (swap_sign_sig_all r sk) in sign_all_sig_all r' keys'
  end.

(** Every key signs every input. *)
Definition sign_inputs_p2pk (r : SwapRequest) (keys : list seckey) : SwapRequest :=
  fold_left (fun r sk => mkSwapRequest ((fun p => sign_p2pk p sk) <$> swap_inputs r) (swap_outputs r)) keys r.

(** The common body of [swap_with_sig_all] and [swap_with_p2pk]. *)
Definition swap_signed (rnd : Random) (mint_url : string) (proofs : option (list Proof)) (secret_keys : list string)
    (sign : SwapRequest -> list seckey -> res JsError SwapRequest) : Js SwapResult :=
  do_ parse_url mint_url ;
  do proofs <- arg proofs ;
  do secrets <- parse_seckeys secret_keys ;
  do id <- active_keyset_id ;
  do outputs <- mlift (plain_outputs rnd id 0 (amount <$> proofs)) ;
  do swap_request <- mlift (sign (SwapRequest_new proofs outputs.*1) secrets) ;
  do response <- mtry (net (post_swap swap_request)) ;
  match response with
  | inl signatures =>
      do keys <- mint_keys id ;
      do output_proofs <- mlift (unblind keys signatures outputs.*2) ;
      mret (SwapDone (Some output_proofs))
  | inr (MintFailed e) => mret (SwapRefused e)
  | inr e => mfail e
  end.

Definition swap_with_sig_all (rnd : Random) (mint_url : string) (proofs : option (list Proof)) (secret_keys : list string)
    : Js SwapResult := swap_signed rnd mint_url proofs secret_keys sign_all_sig_all.

Definition swap_with_p2pk (rnd : Random) (mint_url : string) (proofs : option (list Proof)) (secret_keys : list string)
    : Js SwapResult := swap_signed rnd mint_url proofs secret_keys (fun r keys => Ok (sign_inputs_p2pk r keys)).

Definition sign_proofs_with_sig_all (rnd : Random) (mint_url : string) (proofs : option (list Proof))
    (secret_keys : list string) : Js (list Proof) :=
  do_ parse_url mint_url ;
  do proofs <- arg proofs ;
  do secrets <- parse_seckeys secret_keys ;
  do id <- active_keyset_id ;
  do outputs <- mlift (plain_outputs rnd id 0 (amount <$> proofs)) ;
  do swap_request <- mlift (sign_all_sig_all (SwapRequest_new proofs outputs.*1) secrets) ;
  mret (swap_inputs swap_request).

Definition submit_signed_proofs (rnd : Random) (mint_url : string) (signed_proofs : option (list Proof)) : Js SwapResult :=
  do_ parse_url mint_url ;
  do signed_proofs <- arg signed_proofs ;
  do id <- active_keyset_id ;
  do outputs <- mlift (plain_outputs rnd id 0 (amount <$> signed_proofs)) ;
  do response <- mtry (net (post_swap (SwapRequest_new signed_proofs outputs.*1))) ;
  match response with
  | inl _ => mret (SwapDone None)
  | inr (MintFailed e) => mret (SwapRefused e)
  | inr e => mfail e
  end.

(** ** Building blocks for the page's tests (lib_helpers.rs) *)

(** [OutputData]: the outputs, their secrets and their blinding factors. *)
Definition OutputData : Type := list BlindedMessage * list string * list seckey.
Definition output_data (os : list (BlindedMessage * (string * seckey))) : OutputData := (os.*1, os.*2.*1, os.*2.*2).

Definition create_blinded_outputs (rnd : Random) (mint_url : string) (amounts : list N) : Js OutputData :=
  do_ parse_url mint_url ;
  do id <- active_keyset_id ;
  do outputs <- mlift (plain_outputs rnd id 0 amounts) ;
  mret (output_data outputs).

Definition create_blinded_outputs_with_p2pk (rnd : Random) (mint_url : string) (amounts : list N)
    (spending_conditions : option SpendingConditions) : Js OutputData :=
  do_ parse_url mint_url ;
  do sc <- arg spending_conditions ;
  do id <- active_keyset_id ;
  do outputs <- mlift (locked_outputs rnd sc id 0 amounts) ;
  mret (output_data outputs).

Definition read_key (s : string) : res JsError pubkey := map_err (fun _ => InvalidKey) (Nut01.from_str s).

Definition create_spending_conditions_p2pk_2of2 (pubkey1 pubkey2 : string) (locktime : option N)
    : res JsError SpendingConditions :=
  let? pk1 := read_key pubkey1 in
  let? pk2 := read_key pubkey2 in
  let? conditions := map_err ConditionsFailed
    (Conditions_new locktime (Some [pk2]) (Some [pk1]) (Some 2) (Some SigAll) (Some 1)) in
  Ok (new_p2pk pk1 (Some conditions)).

Definition create_spending_conditions_with_locktime_refund (primary_pubkey refund_pubkey : string) (locktime : N)
    : res JsError SpendingConditions :=
  let? primary_pk := read_key primary_pubkey in
  let? refund_pk := read_key refund_pubkey in
  let? conditions := map_err ConditionsFailed
    (Conditions_new (Some locktime) None (Some [refund_pk]) (Some 1) None (Some 1)) in
  Ok (new_p2pk primary_pk (Some conditions)).

Definition create_spending_conditions_multisig_locktime (primary_pubkey : string)
    (additional_pubkeys refund_pubkeys : list string) (locktime num_sigs num_sigs_refund : N)
    : res JsError SpendingConditions :=
  let? primary_pk := read_key primary_pubkey in
  let? additional_pks := collect read_key additional_pubkeys in
  let? refund_pks := collect read_key refund_pubkeys in
  let? conditions := map_err ConditionsFailed
    (Conditions_new (Some locktime) (Some additional_pks) (Some refund_pks) (Some num_sigs) None (Some num_sigs_refund)) in
  Ok (new_p2pk primary_pk (Some conditions)).

Definition create_swap_request (inputs : option (list Proof)) (outputs : option (list BlindedMessage)) : Js SwapRequest :=
  do inputs <- arg inputs ;
  do outputs <- arg outputs ;
  mret (SwapRequest_new inputs outputs).

Definition sign_swap_request_sigall (swap_request : option SwapRequest) (secret_keys : list string) : Js SwapRequest :=
  do r <- arg swap_request ;
  do secrets <- parse_seckeys secret_keys ;
  mlift (sign_all_sig_all r secrets).

Definition sign_swap_request_p2pk (swap_request : option SwapRequest) (secret_keys : list string) : Js SwapRequest :=
  do r <- arg swap_request ;
  do secrets <- parse_seckeys secret_keys ;
  mret (sign_inputs_p2pk r secrets).

Inductive Submitted := Accepted (signatures : list BlindSignature) | Refused (error : NetError).

Definition submit_swap_request (mint_url : string) (swap_request : option SwapRequest) : Js Submitted :=
  do_ parse_url mint_url ;
  do r <- arg swap_request ;
  do response <- mtry (net (post_swap r)) ;
  match response with
  | inl signatures => mret (Accepted signatures)
  | inr (MintFailed e) => mret (Refused e)
  | inr e => mfail e
  end.

(** [signatures[0]] panics on an empty list. *)
Definition unblind_signatures (mint_url : string) (signatures : option (list BlindSignature))
    (secrets : option (list string)) (blinding_factors : option (list seckey)) : Js (list Proof) :=
  do_ parse_url mint_url ;
  do signatures <- arg signatures ;
  do secrets <- arg secrets ;
  do factors <- arg blinding_factors ;
  do all_keys <- net net_keys ;
  do first <- mlift (expect (head signatures)) ;
  do keys <- mlift (ok_or KeysetNotFound (find_keys (bs_keyset_id first) all_keys)) ;
  mlift (map_err ConstructFailed (construct_proofs signatures factors secrets keys)).

(** ** A context that stays open (test_context.rs)

    Its methods work on the page as [test_context_new] leaves it: they keep
    the copy of the wallet that was opened there. *)

Record TestContext := mkTestContext { tc_url : MintUrl; tc_active_keyset_id : Id; tc_mint_keys : gmap N pubkey }.

Definition test_context_new (mint_url seed_words : string) : Js TestContext :=
  do url <- open_wallet mint_url seed_words ;
  do id <- active_keyset_id ;
  do keys <- mint_keys id ;
  mret (mkTestContext url id keys).

Definition get_proofs_to_spend (self : TestContext) (amount : N) : Js (list ProofInfo * N) := select_inputs (tc_url self) amount.

Definition ctx_create_blinded_outputs (self : TestContext) (rnd : Random) (amounts : list N) : Js OutputData :=
  do outputs <- mlift (plain_outputs rnd (tc_active_keyset_id self) 0 amounts) ;
  mret (output_data outputs).

Definition ctx_create_blinded_outputs_with_conditions (self : TestContext) (rnd : Random) (amounts : list N)
    (spending_conditions : option SpendingConditions) : Js OutputData :=
  do sc <- arg spending_conditions ;
  do outputs <- mlift (locked_outputs rnd sc (tc_active_keyset_id self) 0 amounts) ;
  mret (output_data outputs).

Definition submit_swap (swap_request : option SwapRequest) (input_ys : option (list pubkey)) : Js Submitted :=
  do r <- arg swap_request ;
  do ys <- arg input_ys ;
  do_ store (update_proofs_state ys Nut07.Pending) ;
  do response <- mtry (net (post_swap r)) ;
  match response with
  | inl signatures => do_ store (update_proofs [] ys) ; mret (Accepted signatures)
  | inr (MintFailed e) => mret (Refused e)
  | inr e => mfail e
  end.

Definition ctx_unblind_signatures (self : TestContext) (signatures : option (list BlindSignature))
    (secrets : option (list string)) (blinding_factors : option (list seckey)) : Js (list Proof) :=
  do signatures <- arg signatures ;
  do secrets <- arg secrets ;
  do factors <- arg blinding_factors ;
  mlift (map_err ConstructFailed (construct_proofs signatures factors secrets (tc_mint_keys self))).

Definition ctx_add_proofs_to_wallet (self : TestContext) (proofs : option (list Proof)) : Js unit :=
  do proofs <- arg proofs ;
  mfor (store_proof (tc_url self)) proofs.

End defs.
End Checker.
