(* ===== verification/CheckerFacts.v ===== *)
(** * Correctness of the checker's own code

    The choice of denominations; the wallet store as a map from keys to
    proofs, its persistence and its ways to lose data; what each outcome of a
    swap does to the wallet. *)
From Stdlib Require Import Ascii.
From stdpp Require Import base numbers list sorting strings gmap.
From S2P Require Import Prelude Amount Nuts Bdhke Conditions Spending States MintFacts MintUrl WalletDb WalletDbFacts Checker.
Import Nut00 Requests Nut11 Spending Bdhke WalletDb Checker MintFacts.

Local Open Scope N_scope.
Local Open Scope res_scope.
Local Open Scope mint_scope.

(** ** Denominations *)
Module DenominationFacts.

Fixpoint take_greedy (sorted : list N) (n : N) : list N :=
  match sorted with
  | [] => []
  | a :: sorted' => replicate (N.to_nat (n / a)) a ++ take_greedy sorted' (n mod a)
  end.

Definition rest_of (sorted : list N) (n : N) : N := fold_left N.modulo sorted n.

Lemma take_amount_spec rounds a n sel :
  0 < a -> (N.to_nat n <= rounds)%nat ->
  take_amount rounds a n sel = Some (n mod a, sel ++ replicate (N.to_nat (n / a)) a).
Proof.
  intros Ha. revert n sel. induction rounds as [|rounds IH]; intros n sel Hn; cbn [take_amount].
  - assert (n = 0) as -> by lia. destruct (N.leb_spec a 0); [lia|].
    by rewrite N.Div0.mod_0_l, N.Div0.div_0_l, app_nil_r.
  - destruct (N.leb_spec a n) as [Hle|Hlt].
    + rewrite IH by lia. rewrite <- app_assoc.
      assert (Hd : n / a = N.succ ((n - a) / a)).
      { replace n with (n - a + 1 * a) at 1 by lia. rewrite N.div_add by lia. lia. }
      assert (Hm : n mod a = (n - a) mod a) by (replace n with (n - a + 1 * a) at 1 by lia; by rewrite N.Div0.mod_add).
      by rewrite Hd, Hm, N2Nat.inj_succ.
    + by rewrite N.mod_small, N.div_small, app_nil_r.
Qed.

Lemma take_amount_zero rounds n sel : take_amount rounds 0 n sel = None.
Proof. revert n sel. induction rounds as [|rounds IH]; intros n sel; cbn; [by destruct n|]. destruct (N.leb_spec 0 n); [apply IH|lia]. Qed.

Lemma take_all_spec rounds l n sel :
  Forall (fun a => 0 < a) l -> (N.to_nat n <= rounds)%nat ->
  take_all rounds l n sel = Some (rest_of l n, sel ++ take_greedy l n).
Proof.
  intros Hl. revert n sel. induction Hl as [|a l Ha _ IH]; intros n sel Hn; cbn [take_all]; [by rewrite app_nil_r|].
  rewrite take_amount_spec by done. cbn. rewrite IH; [by rewrite <- app_assoc|].
  pose proof (N.Div0.mod_le n a). lia.
Qed.

Lemma take_amount_mono rounds extra a n sel r :
  take_amount rounds a n sel = Some r -> take_amount (extra + rounds) a n sel = Some r.
Proof.
  revert n sel. induction rounds as [|rounds IH]; intros n sel; cbn [take_amount].
  - destruct (a <=? n) eqn:He; [done|]. intros [= <-]. rewrite Nat.add_0_r. by destruct extra; cbn; rewrite He.
  - rewrite <- plus_n_Sm. cbn [take_amount]. destruct (a <=? n); [apply IH|done].
Qed.

Lemma take_all_mono rounds extra l n sel r :
  take_all rounds l n sel = Some r -> take_all (extra + rounds) l n sel = Some r.
Proof.
  revert n sel. induction l as [|a l IH]; intros n sel; cbn [take_all]; [done|].
  destruct (take_amount rounds a n sel) as [[n' sel']|] eqn:Ha; [|done]. cbn. intros H.
  rewrite (take_amount_mono _ _ _ _ _ _ Ha). cbn. by apply IH.
Qed.

Lemma take_all_zero rounds l n sel : 0 ∈ l -> take_all rounds l n sel = None.
Proof.
  revert n sel. induction l as [|a l IH]; intros n sel; [by intros ?%not_elem_of_nil|].
  intros [<-|H]%elem_of_cons; cbn [take_all]; [by rewrite take_amount_zero|].
  destruct (take_amount rounds a n sel) as [[n' sel']|]; cbn; [by apply IH|done].
Qed.

Lemma insert_ge_perm x l : insert_ge x l ≡ₚ x :: l.
Proof. induction l as [|y l IH]; cbn; [done|]. destruct (y <=? x); [done|]. rewrite IH. constructor. Qed.

Lemma sort_ge_perm l : sort_ge l ≡ₚ l.
Proof. induction l as [|x l IH]; cbn; [done|]. by rewrite insert_ge_perm, IH. Qed.

Lemma sort_ge_sorted l : Sorted N.ge (sort_ge l).
Proof.
  induction l as [|x l IH]; cbn; [constructor|]. unfold sort_ge in *. revert IH. generalize (foldr insert_ge [] l) as m.
  induction m as [|y m IH]; intros Hs; cbn; [repeat constructor|]. destruct (N.leb_spec y x) as [H|H].
  - constructor; [done|]. constructor. lia.
  - inversion Hs as [|? ? Hm Hy]; subst. constructor; [by apply IH|].
    destruct m as [|z m]; cbn; [constructor; lia|]. inversion Hy; subst. destruct (z <=? x); constructor; lia.
Qed.

Lemma take_greedy_sum l n : Forall (fun a => 0 < a) l -> sumN (take_greedy l n) + rest_of l n = n.
Proof.
  intros Hl. revert n. induction Hl as [|a l Ha _ IH]; intros n; cbn [take_greedy rest_of fold_left]; [unfold sumN; cbn; lia|].
  rewrite sumN_app. specialize (IH (n mod a)). unfold rest_of in IH.
  assert (Hr : forall k, sumN (replicate k a) = N.of_nat k * a).
  { induction k as [|k IHk]; [done|]. cbn [replicate]. rewrite sumN_cons, IHk. lia. }
  rewrite Hr, N2Nat.id. pose proof (N.div_mod n a ltac:(lia)). lia.
Qed.

Lemma take_greedy_subset l n x : x ∈ take_greedy l n -> x ∈ l.
Proof.
  revert n. induction l as [|a l IH]; intros n; cbn; [done|]. rewrite elem_of_app, elem_of_cons.
  intros [[-> _]%elem_of_replicate|H]; [by left|right; by eapply IH].
Qed.

(** Once the last denomination is one, nothing remains. *)
Lemma rest_of_one l n : Sorted N.ge l -> Forall (fun a => 0 < a) l -> 1 ∈ l -> rest_of l n = 0.
Proof.
  intros Hs Hl. revert n. induction Hl as [|a l Ha Hl IH]; intros n H1; [by apply not_elem_of_nil in H1|].
  cbn [rest_of fold_left]. fold (rest_of l (n mod a)).
  destruct (decide (1 ∈ l)) as [Hin|Hout]; [apply IH; [by inversion Hs|done]|].
  apply elem_of_cons in H1 as [<-|]; [|done]. rewrite N.mod_1_r.
  clear -Hl. induction Hl as [|a l Ha _ IH]; [done|]. cbn [rest_of fold_left]. fold (rest_of l (0 mod a)).
  by rewrite N.Div0.mod_0_l.
Qed.

Lemma positive_iff l : Forall (fun a => 0 < a) l <-> 0 ∉ l.
Proof.
  rewrite Forall_forall. split; [intros H H0%H; lia|]. intros H x Hx. destruct (decide (x = 0)) as [->|]; [done|lia].
Qed.

Lemma select_spec rounds target available :
  0 ∉ available -> (N.to_nat target <= rounds)%nat ->
  select_denominations rounds target available =
  Some (if 0 <? rest_of (sort_ge available) target then Err (target, available)
        else Ok (take_greedy (sort_ge available) target)).
Proof.
  intros H0 Hr. unfold select_denominations. rewrite take_all_spec; [done| |done].
  apply positive_iff. by rewrite sort_ge_perm.
Qed.

Lemma select_zero rounds target available : 0 ∈ available -> select_denominations rounds target available = None.
Proof. intros H. unfold select_denominations. by rewrite take_all_zero by (by rewrite sort_ge_perm). Qed.

Lemma select_Ok rounds target available sel : select_denominations rounds target available = Some (Ok sel) ->
  sumN sel = target /\ Forall (fun a => a ∈ available) sel.
Proof.
  intros H. destruct (decide (0 ∈ available)) as [H0|H0]; [by rewrite select_zero in H|].
  assert (Hpos : Forall (fun a => 0 < a) (sort_ge available)) by (apply positive_iff; by rewrite sort_ge_perm).
  unfold select_denominations in H. destruct (take_all rounds (sort_ge available) target []) as [r|] eqn:Ht; [|done].
  apply (take_all_mono _ (N.to_nat target)) in Ht. rewrite take_all_spec in Ht by (done || lia). injection Ht as <-. cbn in H.
  destruct (N.ltb_spec 0 (rest_of (sort_ge available) target)); [done|]. injection H as <-.
  pose proof (take_greedy_sum (sort_ge available) target Hpos). split; [lia|].
  apply Forall_forall. intros x Hx%take_greedy_subset. by rewrite sort_ge_perm in Hx.
Qed.

(** The choice of denominations for the change ends exactly when no
    denomination is zero; what it chooses are denominations of the mint that
    sum to the amount, and it always finds some when the mint has a
    denomination of one. *)
Theorem select_denominations_spec target available :
  ((exists rounds r, select_denominations rounds target available = Some r) <-> 0 ∉ available) /\
  (forall rounds sel, select_denominations rounds target available = Some (Ok sel) ->
     sumN sel = target /\ Forall (fun a => a ∈ available) sel) /\
  (0 ∉ available -> 1 ∈ available -> forall rounds, (N.to_nat target <= rounds)%nat ->
     exists sel, select_denominations rounds target available = Some (Ok sel)).
Proof.
  split; [|split].
  - split.
    + intros (rounds & r & H) H0. by rewrite select_zero in H.
    + intros H0. eexists (N.to_nat target), _. by apply select_spec.
  - intros rounds sel. apply select_Ok.
  - intros H0 H1 rounds Hr. rewrite select_spec by done. rewrite rest_of_one; [eauto|apply sort_ge_sorted| |by rewrite sort_ge_perm].
    apply positive_iff. by rewrite sort_ge_perm.
Qed.

(** ** Against the wallet library's own split *)

#[local] Instance ge_trans : Transitive N.ge.
Proof. intros x y z ? ?. lia. Qed.
#[local] Instance ge_antisymm : AntiSymm (=) N.ge.
Proof. intros x y ? ?. lia. Qed.

Lemma rev_pow2_sorted k : StronglySorted N.ge (rev (Amount.pow2_amounts k)).
Proof.
  induction k as [|k IH]; [constructor|]. rewrite Amount.rev_pow2_amounts_S. constructor; [done|].
  apply Forall_forall. intros x Hx%Amount.pow2_amounts_lt. lia.
Qed.

Lemma sort_ge_pow2 k available : available ≡ₚ Amount.pow2_amounts k -> sort_ge available = rev (Amount.pow2_amounts k).
Proof.
  intros Hp. apply (Sorted_unique N.ge).
  - apply sort_ge_sorted.
  - apply StronglySorted_Sorted, rev_pow2_sorted.
  - rewrite sort_ge_perm, Hp. apply Permutation_rev.
Qed.

Lemma take_greedy_pow2 k n : n < 2 ^ N.of_nat k ->
  take_greedy (rev (Amount.pow2_amounts k)) n = Amount.greedy (rev (Amount.pow2_amounts k)) n.
Proof.
  revert n. induction k as [|k IH]; intros n Hn; [done|]. rewrite Amount.rev_pow2_amounts_S. cbn [take_greedy Amount.greedy].
  assert (Hk : 0 < 2 ^ N.of_nat k) by (apply N.neq_0_lt_0, N.pow_nonzero; lia). rewrite Amount.pow2_S in Hn.
  rewrite IH by (apply N.mod_lt; lia). f_equal. destruct (N.leb_spec (2 ^ N.of_nat k) n) as [Hle|Hlt].
  - assert (n / 2 ^ N.of_nat k = 1) as ->; [|done]. symmetry. apply (N.div_unique _ _ _ (n - 2 ^ N.of_nat k)); lia.
  - by rewrite N.div_small.
Qed.

(** For a mint whose denominations are the powers of two below [2^k], in
    whatever order the page has them, the page's own choice of change is the
    decomposition that the wallet library computes. *)
Theorem select_denominations_is_split k fee n available rounds
    (Hav : available ≡ₚ Amount.pow2_amounts k) (Hn : n < 2 ^ N.of_nat k) (Hrounds : (N.to_nat n <= rounds)%nat) :
  exists parts, Amount.split n (Amount.mkFeeAndAmounts fee (Amount.pow2_amounts k)) = Ok parts /\
    select_denominations rounds n available = Some (Ok parts).
Proof.
  pose proof (Amount.pow2_amounts_pos k) as Hpos. exists (Amount.greedy (rev (Amount.pow2_amounts k)) n).
  split; [by apply Amount.split_greedy|].
  rewrite select_spec; [|rewrite Hav; by apply positive_iff|done]. rewrite (sort_ge_pow2 k) by done.
  pose proof (take_greedy_sum (rev (Amount.pow2_amounts k)) n ltac:(by apply Forall_rev)) as Hsum.
  rewrite take_greedy_pow2 in Hsum |- * by done. rewrite Amount.greedy_pow2_sum in Hsum by done.
  destruct (N.ltb_spec 0 (rest_of (rev (Amount.pow2_amounts k)) n)); [lia|done].
Qed.

Lemma select_denominations_is_split_witness :
  exists parts, Amount.split 11 (Amount.mkFeeAndAmounts 0 (Amount.pow2_amounts 4)) = Ok parts /\
    select_denominations 11 11 [8; 4; 2; 1] = Some (Ok parts).
Proof.
  apply select_denominations_is_split; [|reflexivity|apply Nat.leb_le; reflexivity].
  symmetry. apply (Permutation_rev [1; 2; 4; 8]).
Defined.

End DenominationFacts.

(** ** Swaps and the wallet *)
Module CheckerFacts.
Import WalletDbFacts.

Section facts.
Context {CR : Crypto} {CV : Curve CR} {SD : Serde} {MintInfo : Type} {J : StateJson CR MintInfo}.
Context {S NetError : Type} {MC : MintConnector CR S NetError}.
Local Abbreviation Page := (Page MintInfo S).
Local Abbreviation Js := (Js (MintInfo:=MintInfo) (S:=S) (NetError:=NetError)).

Lemma store_inv {A} (c : M Page StoreError A) (p p' : Page) (r : res (JsError (NetError:=NetError)) A) :
  store c p = (r, p') -> exists r0, c p = (r0, p') /\ r = map_err StoreFailed r0.
Proof. unfold store, mmap_err. destruct (c p) as [r0 p0]. intros [= <- <-]. eauto. Qed.

Lemma net_inv {A} (c : M S NetError A) (p p' : Page) (r : res JsError A) :
  net c p = (r, p') -> exists r0 s, c (pg_remote p) = (r0, s) /\ r = map_err MintFailed r0 /\
    p' = mkPage (pg_state p) (pg_key p) (pg_disk p) (pg_faults p) s.
Proof. unfold net, mmap_err. destruct (c (pg_remote p)) as [r0 s]. intros [= <- <-]. eauto. Qed.

Lemma store_update_inv f (p p' : Page) (r : res (JsError (NetError:=NetError)) unit) :
  store (update f) p = (r, p') -> pg_state p' = f (pg_state p) /\ same_place p p' /\
    ((r = Ok tt /\ saved p') \/ ((exists e, r = Err (StoreFailed e)) /\ pg_disk p' = pg_disk p)).
Proof.
  intros (r0 & H & ->)%store_inv. pose proof (update_spec _ _ _ _ H) as (Hs & Hp & Hok & Herr). split; [done|]. split; [done|].
  destruct r0 as [[]|e|]; [left; auto|right; split; [eauto|by apply Herr]|].
  exfalso. unfold update, save_snapshot, mseq, mmodify, mgets, mlift, storage in H. cbn in H.
  destruct (state_to_json _); cbn in H; [|done]. by destruct (pg_faults p) as [|[] ?].
Qed.

(** Deleting the inputs after they were marked: the marks do not matter. *)
Lemma delete_marked ys (l : list ProofInfo) :
  change_proofs [] ys (restate ys Nut07.Pending <$> l) = filter (fun p => pi_y p ∉ ys) l.
Proof.
  unfold change_proofs. rewrite app_nil_r. induction l as [|p l IH]; [done|]. rewrite fmap_cons, !filter_cons.
  assert (Hy : pi_y (restate ys Nut07.Pending p) = pi_y p) by (unfold restate; by case_bool_decide).
  rewrite Hy. case_decide as Hp; [|done]. f_equal; [|done]. unfold restate. by rewrite bool_decide_eq_false_2.
Qed.

(** The outcomes of a swap, by its answer. *)
Definition swap_outcome (req : SwapRequest) (ys : list pubkey) (p p' : Page) (r : res (JsError (NetError:=NetError)) (list BlindSignature)) : Prop :=
  match r with
  | Ok sigs => (exists s, post_swap req (pg_remote p) = (Ok sigs, s)) /\ saved p' /\
      ws_proofs (pg_state p') = filter (fun i => pi_y i ∉ ys) (ws_proofs (pg_state p))
  | Err (MintFailed e) => (exists s, post_swap req (pg_remote p) = (Err e, s)) /\ saved p' /\
      ws_proofs (pg_state p') = restate ys Nut07.Pending <$> ws_proofs (pg_state p)
  | Err (StoreFailed e) =>
      (pg_remote p' = pg_remote p /\ pg_disk p' = pg_disk p) \/
      (exists sigs s (marked : Page), post_swap req (pg_remote p) = (Ok sigs, s) /\
         ws_proofs (pg_state marked) = restate ys Nut07.Pending <$> ws_proofs (pg_state p) /\
         saved marked /\ pg_disk p' = pg_disk marked)
  | Err _ => False
  | Panic => exists s, post_swap req (pg_remote p) = (Panic, s)
  end.

Lemma safe_swap_cases req ys (p p' : Page) r : safe_swap req ys p = (r, p') -> swap_outcome req ys p p' r.
Proof.
  unfold safe_swap, swap_outcome. intros H. unfold mseq at 1 in H.
  destruct (store (update_proofs_state ys Nut07.Pending) p) as [r1 p1] eqn:H1.
  apply store_update_inv in H1 as (Hs1 & [Hk1 Hr1] & [[-> Hsv1]|[[e ->] Hd1]]); [|injection H as <- <-; left; done].
  unfold mseq at 1 in H. destruct (net (post_swap req) p1) as [r2 p2] eqn:H2.
  apply net_inv in H2 as (r0 & s & Hc & -> & ->). rewrite Hr1 in Hc.
  destruct r0 as [sigs|e|]; cbn [map_err] in H.
  - unfold mseq in H. destruct (store (update_proofs [] ys) _) as [r3 p3] eqn:H3.
    apply store_update_inv in H3 as (Hs3 & _ & [[-> Hsv3]|[[e ->] Hd3]]); injection H as <- <-.
    + split; [eauto|]. split; [done|]. rewrite Hs3. cbn. rewrite Hs1. cbn. apply delete_marked.
    + right. exists sigs, s, p1. split; [done|]. rewrite Hs1. done.
  - injection H as <- <-. split; [eauto|]. split; [exact Hsv1|]. cbn. by rewrite Hs1.
  - injection H as <- <-. eauto.
Qed.


(** C22. Every outcome of a swap through the wallet: accepted, exactly the inputs
    are gone from the wallet and from its stored copy; refused or unanswered,
    every proof is still there, in memory and stored, with the inputs pending;
    when the storage fails, either the mint was never asked, or it accepted and
    the stored copy still holds the inputs as pending. *)
Theorem safe_swap_outcomes req ys (p p' : Page) (r : res JsError (list BlindSignature)) :
  safe_swap req ys p = (r, p') ->
  match r with
  | Ok sigs => (exists s, post_swap req (pg_remote p) = (Ok sigs, s)) /\ saved p' /\
      ws_proofs (pg_state p') = filter (fun i => pi_y i ∉ ys) (ws_proofs (pg_state p))
  | Err (MintFailed e) => (exists s, post_swap req (pg_remote p) = (Err e, s)) /\ saved p' /\
      ws_proofs (pg_state p') = restate ys Nut07.Pending <$> ws_proofs (pg_state p)
  | Err (StoreFailed e) =>
      (pg_remote p' = pg_remote p /\ pg_disk p' = pg_disk p) \/
      (exists sigs s (marked : Page), post_swap req (pg_remote p) = (Ok sigs, s) /\
         ws_proofs (pg_state marked) = restate ys Nut07.Pending <$> ws_proofs (pg_state p) /\
         saved marked /\ pg_disk p' = pg_disk marked)
  | Err _ => False
  | Panic => exists s, post_swap req (pg_remote p) = (Panic, s)
  end.
Proof. apply safe_swap_cases. Qed.

(** ** Asking the mint for the states *)

(** The wallet after the mint's answer: every proof that was asked about has
    the state of the answer. *)
Definition synced (answers : list (pubkey * Nut07.State)) (i : ProofInfo) : ProofInfo :=
  match (list_to_map answers : gmap pubkey Nut07.State) !! pi_y i with Some st => set_pi_state i st | None => i end.

Definition answer_of (x : ProofInfo * Nut07.ProofState) : pubkey * Nut07.State := (pi_y x.1, Nut07.ps_state x.2).

Lemma synced_cons x l i :
  (forall y, pi_y i = y -> y = pi_y x.1 -> y ∉ (answer_of <$> l).*1) ->
  synced (answer_of <$> x :: l) i = synced (answer_of <$> l) (restate [pi_y x.1] (Nut07.ps_state x.2) i).
Proof.
  intros Hn. unfold synced, restate. cbn. rewrite lookup_insert. case_decide as Hy.
  - rewrite bool_decide_eq_true_2 by (rewrite Hy; apply list_elem_of_here). cbn.
    rewrite (not_elem_of_list_to_map_1 _ (pi_y i)); [done|]. by apply Hn.
  - rewrite bool_decide_eq_false_2; [done|]. rewrite list_elem_of_singleton. naive_solver.
Qed.

Lemma apply_states_spec (l : list (ProofInfo * Nut07.ProofState)) : forall ch (p p' : Page) ch',
  NoDup (answer_of <$> l).*1 ->
  (forall x i, x ∈ l -> i ∈ ws_proofs (pg_state p) -> pi_y i = pi_y x.1 -> pi_state i = pi_state x.1) ->
  apply_states (NetError:=NetError) l ch p = (Ok ch', p') ->
  ws_proofs (pg_state p') = synced (answer_of <$> l) <$> ws_proofs (pg_state p).
Proof.
  induction l as [|[info ps] l IH]; intros ch p p' ch' Hnd Hag H; cbn [apply_states] in H.
  { injection H as _ <-. symmetry. etrans; [|apply list_fmap_id]. apply list_fmap_ext. intros _ i _. done. }
  rewrite !fmap_cons in Hnd. apply NoDup_cons in Hnd as [Hni Hnd].
  assert (Hcons : forall i, synced (answer_of <$> (info, ps) :: l) i = synced (answer_of <$> l) (restate [pi_y info] (Nut07.ps_state ps) i)).
  { intros i. apply (synced_cons (info, ps)). intros y _ ->. exact Hni. }
  case_bool_decide as Hst.
  - rewrite (IH _ _ _ _ Hnd) by first [exact H|intros x i Hx; apply Hag; set_solver].
    apply list_fmap_ext. intros k i Hi%list_elem_of_lookup_2. rewrite Hcons. f_equal. unfold restate. case_bool_decide as Hy; [|done].
    apply list_elem_of_singleton in Hy. 
    pose proof (Hag (info, ps) i ltac:(apply list_elem_of_here) Hi Hy) as Hi'. cbn in Hi'. rewrite <- Hst, <- Hi'. by destruct i.
  - apply mseq_Ok in H as ([] & p1 & H1 & H). apply store_update_inv in H1 as (Hs1 & _ & _).
    assert (Hl1 : ws_proofs (pg_state p1) = restate [pi_y info] (Nut07.ps_state ps) <$> ws_proofs (pg_state p)) by (by rewrite Hs1).
    etrans; [eapply IH; [exact Hnd| |exact H]|].
    + intros x i Hx Hi Hy. rewrite Hl1 in Hi. apply list_elem_of_fmap in Hi as (j & -> & Hj).
      assert (Hne : pi_y x.1 <> pi_y info).
      { intros He. apply Hni. change (pi_y info) with (answer_of (info, ps)).1. cbn. rewrite <- He.
        change (pi_y x.1) with (answer_of x).1. by do 2 apply list_elem_of_fmap_2. }
      unfold restate in *. case_bool_decide as Hj'; [apply list_elem_of_singleton in Hj'; cbn in Hy; congruence|].
      apply Hag; [set_solver|done|done].
    + rewrite Hl1, <- list_fmap_compose. apply list_fmap_ext. intros k i _. cbn. by rewrite Hcons.
Qed.

Context (mnemonic_ok : string -> bool).

Lemma answers_zip (l : list ProofInfo) (states : list Nut07.ProofState) :
  answer_of <$> zip l states = zip (pi_y <$> l) (Nut07.ps_state <$> states).
Proof. revert states. induction l as [|i l IH]; intros [|st states]; cbn; [done..|]. by rewrite <- IH. Qed.

Lemma zip_keys_NoDup {A B} (l : list A) (k : list B) : NoDup l -> NoDup (zip l k).*1.
Proof.
  revert k. induction l as [|x l IH]; intros [|y k] Hnd; cbn; [constructor..|]. apply NoDup_cons in Hnd as [Hx Hnd].
  constructor; [|by apply IH]. intros Hin. apply Hx. clear -Hin. revert k Hin.
  induction l as [|z l IH]; intros [|y k] Hin; cbn in Hin; [by apply not_elem_of_nil in Hin..|].
  apply elem_of_cons in Hin as [->|Hin]; [apply list_elem_of_here|apply list_elem_of_further; by eapply IH].
Qed.

Lemma NoDup_y_inj (l : list ProofInfo) i j : NoDup (pi_y <$> l) -> i ∈ l -> j ∈ l -> pi_y i = pi_y j -> i = j.
Proof.
  intros Hnd Hi Hj He. pose proof (proj2 (lookup_abs l (pi_y i) i Hnd) (conj Hi eq_refl)) as H1.
  rewrite (proj2 (lookup_abs l (pi_y i) j Hnd) (conj Hj (eq_sym He))) in H1. by injection H1.
Qed.

(** The proofs that [check_proofs_state] asks about. *)
Definition of_mint (u : MintUrl) (i : ProofInfo) : Prop := passes i (Some u) (Some Amount.Sat) None None = true.
#[local] Instance of_mint_dec u i : Decision (of_mint u i).
Proof. unfold of_mint. apply _. Defined.

Lemma check_loop_spec u (p p' : Page) states ch :
  NoDup (pi_y <$> ws_proofs (pg_state p)) ->
  apply_states (NetError:=NetError) (zip (filter (of_mint u) (ws_proofs (pg_state p))) states) [] p = (Ok ch, p') ->
  ws_proofs (pg_state p') =
    synced (zip (pi_y <$> filter (of_mint u) (ws_proofs (pg_state p))) (Nut07.ps_state <$> states)) <$> ws_proofs (pg_state p).
Proof.
  intros Hnd H. rewrite <- answers_zip. eapply apply_states_spec; [| |exact H].
  - rewrite answers_zip. by apply zip_keys_NoDup, (NoDup_map_filter pi_y).
  - intros [info ps] i Hx Hi Hy. cbn in *. apply elem_of_zip_l, list_elem_of_filter in Hx as [_ Hx].
    by rewrite (NoDup_y_inj _ _ _ Hnd Hi Hx Hy).
Qed.

(** Asking the mint brings the wallet up to date: after a check that returns,
    every proof of the mint has the state the mint gave for it, in the order in
    which the keys were asked, and no other proof has changed. *)
Theorem check_proofs_state_syncs mint_url seed (p p' : Page) n ch
    (H : check_proofs_state mnemonic_ok mint_url seed p = (Ok (n, ch), p')) :
  exists u p0, open_wallet (NetError:=NetError) mnemonic_ok mint_url seed p = (Ok u, p0) /\
    (NoDup (pi_y <$> ws_proofs (pg_state p0)) ->
     let asked := filter (of_mint u) (ws_proofs (pg_state p0)) in
     n = length asked /\
     ((asked = [] /\ p' = p0) \/
      exists states s, post_check_state (pi_y <$> asked) (pg_remote p0) = (Ok states, s) /\
        ws_proofs (pg_state p') = synced (zip (pi_y <$> asked) (Nut07.ps_state <$> states)) <$> ws_proofs (pg_state p0))).
Proof.
  unfold check_proofs_state in H. apply mseq_Ok in H as (u & p0 & Ho & H). exists u, p0. split; [done|].
  apply mseq_Ok in H as (all & p1 & H1 & H). apply store_inv in H1 as (r0 & [= <- <-] & [= ->]). intros Hnd. cbv zeta.
  change (filter _ (ws_proofs (pg_state p0))) with (filter (of_mint u) (ws_proofs (pg_state p0))) in H.
  destruct (filter (of_mint u) (ws_proofs (pg_state p0))) as [|x l] eqn:Hf.
  - injection H as <- <- <-. auto.
  - rewrite <- Hf in *. apply mseq_Ok in H as (states & p2 & H2 & H).
    apply net_inv in H2 as ([states'| |] & s & Hc & Hr & ->); [|done..]. injection Hr as <-.
    apply mseq_Ok in H as (changes & p3 & H3 & [= <- <- <-]). split; [done|]. right. exists states, s. split; [done|].
    exact (check_loop_spec u (mkPage (pg_state p0) (pg_key p0) (pg_disk p0) (pg_faults p0) s) _ _ _ Hnd H3).
Qed.

(** ** Recovery of a refused swap *)

(** States of the wallet that differ from [s] in the states of proofs only. *)
Definition with_states (s : WalletState MintInfo) (f : ProofInfo -> Nut07.State) : WalletState MintInfo :=
  set_proofs s ((fun i => set_pi_state i (f i)) <$> ws_proofs s).

Definition serializable (s : WalletState MintInfo) : Prop := forall f, is_Some (state_to_json (with_states s f)).

Lemma restate_with_states ys st s f :
  set_proofs (with_states s f) (restate ys st <$> ws_proofs (with_states s f)) =
  with_states s (fun i => if bool_decide (pi_y i ∈ ys) then st else f i).
Proof.
  unfold with_states. cbn. f_equal. rewrite <- list_fmap_compose. apply list_fmap_ext. intros _ i _. cbn.
  unfold restate. cbn. by case_bool_decide.
Qed.

Lemma with_states_id s : with_states s pi_state = s.
Proof.
  unfold with_states. destruct s as [? ? ? ? ? ? l ? ?]. cbn. unfold set_proofs. cbn. f_equal.
  etrans; [|apply list_fmap_id]. apply list_fmap_ext. intros _ [] _. done.
Qed.

Lemma update_total (p : Page) f j :
  pg_faults p = [] -> state_to_json (f (pg_state p)) = Some j ->
  update f p = (Ok tt, mkPage (f (pg_state p)) (pg_key p) (<[pg_key p := j]> (pg_disk p)) [] (pg_remote p)).
Proof.
  intros Hf Hj. unfold update, save_snapshot, mseq, mmodify, mgets, mlift, storage. cbn. rewrite Hj. cbn. by rewrite Hf.
Qed.

Lemma apply_states_total s (l : list (ProofInfo * Nut07.ProofState)) : serializable s -> forall f ch (p : Page),
  pg_state p = with_states s f -> pg_faults p = [] ->
  exists ch' p', apply_states (NetError:=NetError) l ch p = (Ok ch', p').
Proof.
  intros Hs. induction l as [|[info ps] l IH]; intros f ch p Hp Hf; cbn [apply_states]; [eauto|].
  case_bool_decide; [by eapply IH|]. unfold mseq, store, mmap_err, update_proofs_state.
  destruct (Hs (fun i => if bool_decide (pi_y i ∈ [pi_y info]) then Nut07.ps_state ps else f i)) as [j Hj].
  rewrite <- restate_with_states, <- Hp in Hj. rewrite (update_total p _ j Hf) by exact Hj. cbn.
  eapply IH; [|done]. cbn. rewrite Hp. apply restate_with_states.
Qed.

Lemma open_wallet_Ok mint_url seed u (p p' : Page) :
  MintUrl.from_str mint_url = Ok u -> mnemonic_ok seed = true -> open (storage_key u) p = (Ok tt, p') ->
  open_wallet (NetError:=NetError) mnemonic_ok mint_url seed p = (Ok u, p').
Proof.
  intros Hu Hm Ho. unfold open_wallet, parse_url, mseq, mlift, store, mmap_err. rewrite Hu. cbn. rewrite Hm. cbn. by rewrite Ho.
Qed.

Lemma open_no_faults key (p p' : Page) r : open key p = (r, p') -> pg_faults p = [] -> pg_faults p' = [] /\ pg_remote p' = pg_remote p.
Proof.
  unfold open, load_from_localstorage, mseq, mtry, storage, mlift, save_snapshot, mgets, mmodify. intros H Hf. rewrite Hf in H.
  cbn in H. destruct (pg_disk p !! key) as [j|]; cbn in H; [destruct (state_from_json j); cbn in H|];
    (destruct (state_to_json _); cbn in H; [unfold storage in H; cbn in H; rewrite ?Hf in H|]; by injection H as _ <-).
Qed.

Lemma synced_all_unspent (l : list ProofInfo) (states : list Nut07.ProofState) i st :
  i ∈ l -> length states = length l -> Forall (fun ps => Nut07.ps_state ps = Nut07.Unspent) states ->
  synced (zip (pi_y <$> l) (Nut07.ps_state <$> states)) (set_pi_state i st) = set_pi_state i Nut07.Unspent.
Proof.
  intros Hi Hlen Hall. unfold synced.
  assert (Hl : (list_to_map (zip (pi_y <$> l) (Nut07.ps_state <$> states)) : gmap pubkey Nut07.State) !! pi_y i = Some Nut07.Unspent);
    [|cbn; by rewrite Hl].
  revert states Hlen Hall. induction l as [|j l IH]; intros [|ps states] Hlen Hall; try done; [by apply not_elem_of_nil in Hi|].
  apply Forall_cons in Hall as [Hps Hall]. cbn. rewrite lookup_insert. case_decide as Hy; [by rewrite Hps|].
  apply elem_of_cons in Hi as [->|Hi]; [done|]. apply IH; [done|by injection Hlen|done].
Qed.

(** A refused swap has left the marked inputs on the disk. *)
Lemma refused_stored req ys (p p1 : Page) e :
  safe_swap req ys p = (Err (MintFailed (NetError:=NetError) e), p1) ->
  exists p0, update_proofs_state ys Nut07.Pending p = (Ok tt, p0) /\ pg_disk p1 = pg_disk p0.
Proof.
  intros Hswap. unfold safe_swap in Hswap. unfold mseq at 1 in Hswap.
  destruct (store (update_proofs_state ys Nut07.Pending) p) as [r1 p0] eqn:H1.
  assert (H1' : r1 = Ok tt).
  { apply store_update_inv in H1 as (_ & _ & [[-> _]|[[e' ->] _]]); [done|by injection Hswap]. }
  subst r1. apply store_inv in H1 as (r0 & H1 & Hr0). destruct r0 as [[]| |]; try done. exists p0. split; [done|].
  unfold mseq at 1 in Hswap. destruct (net (post_swap req) p0) as [r2 p2] eqn:H2.
  apply net_inv in H2 as ([sigs|e2|] & s2 & _ & -> & ->); cbn [map_err] in Hswap.
  - unfold mseq in Hswap. destruct (store (update_proofs [] ys) _) as [r3 p3] eqn:H3.
    apply store_update_inv in H3 as (_ & _ & [[-> _]|[[e' ->] _]]); done.
  - by injection Hswap as _ <-.
  - done.
Qed.

Context {JL : StateJsonLaws CR MintInfo J}.

(** The proofs of a mint do not depend on the states. *)
Lemma of_mint_states u f (l : list ProofInfo) :
  filter (of_mint u) ((fun i => set_pi_state i (f i)) <$> l) = (fun i => set_pi_state i (f i)) <$> filter (of_mint u) l.
Proof.
  induction l as [|i l IH]; [done|]. rewrite fmap_cons, !filter_cons, IH. destruct (decide (of_mint u i)) as [Hi|Hi].
  - rewrite decide_True by exact Hi. done.
  - by rewrite decide_False by exact Hi.
Qed.
Lemma keys_states f (l : list ProofInfo) : pi_y <$> ((fun i => set_pi_state i (f i)) <$> l) = pi_y <$> l.
Proof. rewrite <- list_fmap_compose. by apply list_fmap_ext. Qed.

(** The states that the mint reports for the proofs it was asked about. *)
Definition reported u (p : Page) (states : list Nut07.ProofState) (i : ProofInfo) : ProofInfo :=
  synced (zip (pi_y <$> filter (of_mint u) (ws_proofs (pg_state p))) (Nut07.ps_state <$> states)) i.

Lemma reported_unspent u (p : Page) states ys : length states = length (ws_proofs (pg_state p)) ->
  Forall (fun ps => Nut07.ps_state ps = Nut07.Unspent) states ->
  Forall (fun i => of_mint u i /\ pi_state i = Nut07.Unspent) (ws_proofs (pg_state p)) ->
  (fun i => reported u p states (restate ys Nut07.Pending i)) <$> ws_proofs (pg_state p) = ws_proofs (pg_state p).
Proof.
  intros Hlen Hans Hun. assert (Hasked : filter (of_mint u) (ws_proofs (pg_state p)) = ws_proofs (pg_state p)).
  { clear -Hun. induction Hun as [|i l [Hi _] _ IH]; [done|]. by rewrite filter_cons, decide_True, IH. }
  etrans; [|apply list_fmap_id]. apply list_fmap_ext. intros k i Hi%list_elem_of_lookup_2. unfold reported. rewrite Hasked.
  pose proof (proj1 (Forall_forall _ _) Hun i Hi) as [_ Hst]. unfold restate.
  assert (Hi' : i = set_pi_state i Nut07.Unspent) by (destruct i; cbn in *; by rewrite Hst).
  case_bool_decide; [|rewrite Hi' at 1]; by rewrite synced_all_unspent.
Qed.

(** C23. After a swap that the mint refused, the page finds the stored wallet with
    the inputs pending, and a check of the proofs with the storage available
    and an answer of the mint returns and gives every proof of this mint the
    state that the mint reports for it (the keys of the stored proofs being
    distinct, and the wallet one that its JSON form carries); so when all proofs of the wallet were
    unspent proofs of this mint, and the mint reports them unspent, the wallet
    is what it was before the swap. *)
Theorem refused_swap_recovers mint_url seed u req ys (p p1 q : Page) e states s
    (Hurl : MintUrl.from_str mint_url = Ok u) (Hseed : mnemonic_ok seed = true) (Hkey : pg_key p = storage_key u)
    (Hnd : NoDup (pi_y <$> ws_proofs (pg_state p)))
    (Hcan : forall f, state_canonical (with_states (pg_state p) f)) (Hser : serializable (pg_state p))
    (Hswap : safe_swap req ys p = (Err (MintFailed (NetError:=NetError) e), p1))
    (Hdisk : pg_disk q = pg_disk p1) (Hf : pg_faults q = [])
    (Hmint : post_check_state (pi_y <$> filter (of_mint u) (ws_proofs (pg_state p))) (pg_remote q) = (Ok states, s)) :
  exists n ch q', check_proofs_state mnemonic_ok mint_url seed q = (Ok (n, ch), q') /\
    ws_proofs (pg_state q') = (fun i => reported u p states (restate ys Nut07.Pending i)) <$> ws_proofs (pg_state p) /\
    (length states = length (ws_proofs (pg_state p)) -> Forall (fun ps => Nut07.ps_state ps = Nut07.Unspent) states ->
     Forall (fun i => of_mint u i /\ pi_state i = Nut07.Unspent) (ws_proofs (pg_state p)) ->
     ws_proofs (pg_state q') = ws_proofs (pg_state p)).
Proof.
  destruct (refused_stored _ _ _ _ _ Hswap) as (p0 & H1 & Hp1).
  set (g := fun i => if bool_decide (pi_y i ∈ ys) then Nut07.Pending else pi_state i).
  assert (Hg : set_proofs (pg_state p) (restate ys Nut07.Pending <$> ws_proofs (pg_state p)) = with_states (pg_state p) g).
  { rewrite <- (with_states_id (pg_state p)) at 1 2. apply restate_with_states. }
  destruct (stored_reopens _ p p0 q H1) as (q0 & Ho & Hq0 & _); [rewrite Hg; apply Hcan|by rewrite Hdisk|done|].
  cbv beta in Hq0. pose proof Hq0 as Hpend. rewrite Hg in Hq0. rewrite Hkey in Ho.
  apply (f_equal ws_proofs) in Hpend. cbn [ws_proofs set_proofs] in Hpend.
  assert (Hq0f : pg_faults q0 = [] /\ pg_remote q0 = pg_remote q) by (by eapply open_no_faults).
  destruct Hq0f as [Hq0f Hq0r]. pose proof (f_equal ws_proofs Hq0) as Hl. unfold with_states in Hl. cbn [ws_proofs set_proofs] in Hl.
  assert (Hasked : pi_y <$> filter (of_mint u) (ws_proofs (pg_state q0)) = pi_y <$> filter (of_mint u) (ws_proofs (pg_state p)))
    by (by rewrite Hl, of_mint_states, keys_states).
  unfold check_proofs_state. unfold mseq at 1. rewrite (open_wallet_Ok _ _ _ _ _ Hurl Hseed Ho).
  unfold mseq at 1. unfold store at 1, mmap_err at 1, get_proofs, query, mgets. cbn [fst snd map_err].
  change (filter _ (ws_proofs (pg_state q0))) with (filter (of_mint u) (ws_proofs (pg_state q0))).
  destruct (filter (of_mint u) (ws_proofs (pg_state q0))) as [|x l] eqn:Hl0.
  - exists 0%nat, [], q0. split; [done|]. rewrite Hpend.
    assert (Hnone : forall l' : list ProofInfo, (fun i => reported u p states (restate ys Nut07.Pending i)) <$> l' = restate ys Nut07.Pending <$> l').
    { intros l'. apply list_fmap_ext. intros _ i _. unfold reported. by rewrite <- Hasked. }
    rewrite <- Hnone. split; [done|apply reported_unspent].
  - rewrite <- Hl0 in *. unfold mseq at 1, net, mmap_err. rewrite Hasked, Hq0r, Hmint. cbn [fst snd map_err].
    destruct (apply_states_total (pg_state p) (zip (filter (of_mint u) (ws_proofs (pg_state q0))) states) Hser g []
      (mkPage (pg_state q0) (pg_key q0) (pg_disk q0) (pg_faults q0) s) Hq0 Hq0f) as (ch & q' & Hrun).
    unfold mseq. rewrite Hrun. eexists _, _, q'. split; [reflexivity|].
    apply (check_loop_spec u (mkPage (pg_state q0) (pg_key q0) (pg_disk q0) (pg_faults q0) s)) in Hrun;
      [|cbn; by rewrite Hl, keys_states]. cbn [pg_state] in Hrun. rewrite Hasked, Hpend, <- list_fmap_compose in Hrun.
    split; [exact Hrun|]. rewrite Hrun. apply reported_unspent.
Qed.

(** ** The swap into 2-of-2 proofs *)

Lemma pick_inputs_spec need all : forall picked total picked' total',
  pick_inputs need all picked total = (picked', total') ->
  exists l rest, all = l ++ rest /\ picked' = picked ++ l /\ total' mod 2 ^ 64 = (total + sumN (amounts_of l)) mod 2 ^ 64 /\
    (total < 2 ^ 64 -> total' < 2 ^ 64).
Proof.
  induction all as [|i all IH]; intros picked total picked' total' H; cbn [pick_inputs] in H.
  - injection H as <- <-. exists [], []. rewrite !app_nil_r. cbn. unfold sumN. cbn. rewrite N.add_0_r. done.
  - destruct (need <=? total).
    + injection H as <- <-. exists [], (i :: all). rewrite app_nil_r. cbn. unfold sumN. cbn. rewrite N.add_0_r. done.
    + apply IH in H as (l & rest & -> & -> & Ht & Hb). exists (i :: l), rest. rewrite <- app_assoc. do 2 (split; [done|]).
      unfold amounts_of in *. rewrite fmap_cons, sumN_cons. split.
      * rewrite Ht, N.Div0.add_mod_idemp_l. by rewrite N.add_assoc.
      * intros _. apply Hb. apply N.mod_lt. lia.
Qed.

Lemma select_inputs_Ok u need (p p' : Page) picked total :
  select_inputs (NetError:=NetError) u need p = (Ok (picked, total), p') ->
  p' = p /\ need <= total /\ total = sumN (amounts_of picked) mod 2 ^ 64 /\
  exists rest, filter (fun i => passes i (Some u) (Some Amount.Sat) (Some [Nut07.Unspent]) None = true) (ws_proofs (pg_state p)) = picked ++ rest.
Proof.
  unfold select_inputs. intros H. apply mseq_Ok in H as (all & p1 & H1 & H). apply store_inv in H1 as (r0 & [= <- <-] & [= ->]).
  destruct (pick_inputs need _ [] 0) as [picked' total'] eqn:Hp. destruct (N.ltb_spec total' need); [done|]. injection H as <- <- <-.
  apply pick_inputs_spec in Hp as (l & rest & Hall & -> & Ht & Hb). do 2 (split; [done|]). split; [|eauto].
  rewrite N.add_0_l in Ht. change ([] ++ l) with l. rewrite <- Ht. symmetry. apply N.mod_small, Hb. lia.
Qed.

Lemma blind_outputs_amounts id sf ff i amounts os :
  blind_outputs (NetError:=NetError) id sf ff i amounts = Ok os ->
  bm_amount <$> os.*1 = amounts /\ Forall (fun m => bm_keyset_id m = id) os.*1.
Proof.
  revert i os. induction amounts as [|a amounts IH]; intros i os H; cbn [blind_outputs] in H; [injection H as <-; done|].
  unfold blind_output in H. destruct (blind_message (sf i) None (ff i)) as [[b r]| |]; [|done..]. cbn [map_err] in H.
  destruct (blind_outputs id sf ff (1 + i) amounts) as [os'| |] eqn:Ho; [|done..]. injection H as <-.
  destruct (IH _ _ Ho) as [Ha Hi]. cbn. rewrite Ha. split; [done|]. by constructor.
Qed.

(** Proofs have the amounts of the signatures they are made of. *)
Lemma construct_amounts sigs rs secrets keys ps :
  construct_proofs sigs rs secrets keys = Ok ps -> amount <$> ps = bs_amount <$> sigs.
Proof.
  unfold construct_proofs. destruct (Nat.eqb_spec (length sigs) (length rs)) as [Hl1|]; [|done].
  destruct (Nat.eqb_spec (length sigs) (length secrets)) as [Hl2|]; [|done]. cbn [negb orb].
  revert rs secrets ps Hl1 Hl2. induction sigs as [|g sigs IH]; intros [|r rs] [|x secrets] ps Hl1 Hl2 H; try done.
  { by injection H as <-. }
  cbn [zip zip_with construct_loop] in H. destruct (construct_proof keys g r x) as [q| |] eqn:Hq; [|done..].
  destruct (construct_loop keys (zip (zip sigs rs) secrets)) as [qs| |] eqn:Hqs; [|done..]. injection H as <-.
  rewrite !fmap_cons. f_equal; [|by eapply IH; [injection Hl1|injection Hl2|exact Hqs]].
  unfold construct_proof in Hq. destruct (keys !! bs_amount g); [|done]. cbn in Hq. destruct (unblind_message _ _ _); [|done..].
  by injection Hq as <-.
Qed.

Lemma store_proofs_Ok u l : forall (p p' : Page),
  mfor (store_proof (NetError:=NetError) u) l p = (Ok tt, p') ->
  exists infos, ws_proofs (pg_state p') = ws_proofs (pg_state p) ++ infos /\ pi_proof <$> infos = l /\
    Forall (fun i => pi_state i = Nut07.Unspent /\ pi_mint_url i = u) infos.
Proof.
  induction l as [|x l IH]; intros p p' H; cbn [mfor] in H.
  { injection H as <-. exists []. by rewrite app_nil_r. }
  apply mseq_Ok in H as ([] & p1 & H1 & H). unfold store_proof in H1. apply mlift_seq in H1 as (info & Hi & H1).
  apply store_update_inv in H1 as (Hs1 & _ & _). apply IH in H as (infos & Hp' & Hl & Hall).
  exists (info :: infos). rewrite Hp', Hs1. cbn. rewrite change_none, <- app_assoc. split; [done|].
  unfold ProofInfo_new in Hi. destruct (y x) as [yx| |]; [|done..]. destruct (sc_try_from_secret (secret x)) as [sc| |]; try done;
    (injection Hi as <-; cbn; split; [by rewrite Hl|by constructor]).
Qed.

(** What the page relies on: one signature per output, for its amount. *)
Definition honest : Prop := forall req s sigs s', post_swap req s = (Ok sigs, s') ->
  bs_amount <$> sigs = bm_amount <$> swap_outputs req.

Lemma change_outputs_amounts rounds rnd id c ds os :
  change_outputs (NetError:=NetError) rounds rnd id c ds = Some (Ok os) -> sumN (bm_amount <$> os.*1) = c.
Proof.
  unfold change_outputs. destruct (N.ltb_spec 0 c) as [Hc|Hc].
  - destruct (select_denominations rounds c ds) as [r|] eqn:Hs; [|done]. cbn. intros H. injection H as H.
    destruct r as [sel| |]; [|done..]. cbn in H. apply blind_outputs_amounts in H as [-> _].
    by apply DenominationFacts.select_Ok in Hs as [-> _].
  - intros [= <-]. cbn. unfold sumN. cbn. lia.
Qed.

Lemma blind_outputs_secrets id sf ff i amounts os :
  blind_outputs (NetError:=NetError) id sf ff i amounts = Ok os -> os.*2.*1 = sf <$> seq i (length amounts).
Proof.
  revert i os. induction amounts as [|a amounts IH]; intros i os H; cbn [blind_outputs] in H; [by injection H as <-|].
  unfold blind_output in H. destruct (blind_message (sf i) None (ff i)) as [[b r]| |]; [|done..]. cbn [map_err] in H.
  destruct (blind_outputs id sf ff (1 + i) amounts) as [os'| |] eqn:Ho; [|done..]. injection H as <-. cbn.
  f_equal. exact (IH _ _ Ho).
Qed.

Lemma construct_secrets sigs rs secrets keys ps : construct_proofs sigs rs secrets keys = Ok ps -> secret <$> ps = secrets.
Proof.
  unfold construct_proofs. destruct (Nat.eqb_spec (length sigs) (length rs)) as [Hl1|]; [|done].
  destruct (Nat.eqb_spec (length sigs) (length secrets)) as [Hl2|]; [|done]. cbn [negb orb].
  revert rs secrets ps Hl1 Hl2. induction sigs as [|g sigs IH]; intros [|r rs] [|x secrets] ps Hl1 Hl2 H; try done.
  { by injection H as <-. }
  cbn [zip zip_with construct_loop] in H. destruct (construct_proof keys g r x) as [q| |] eqn:Hq; [|done..].
  destruct (construct_loop keys (zip (zip sigs rs) secrets)) as [qs| |] eqn:Hqs; [|done..]. injection H as <-.
  rewrite !fmap_cons. f_equal; [|by eapply IH; [injection Hl1|injection Hl2|exact Hqs]].
  unfold construct_proof in Hq. destruct (keys !! bs_amount g); [|done]. cbn in Hq. destruct (unblind_message _ _ _); [|done..].
  by injection Hq as <-.
Qed.

(** The lock of the 2-of-2 test. *)
Definition lock_2of2 (alice bob : pubkey) (use_sig_all : bool) : SpendingConditions :=
  P2PKConditions alice (Some (mkConditions None (Some [bob]) None (Some 2) (if use_sig_all then SigAll else SigInputs) None)).

Lemma conditions_2of2_Ok a b flag sc : conditions_2of2 (NetError:=NetError) a b flag = Ok sc -> sc = lock_2of2 a b flag.
Proof. unfold conditions_2of2, lock_2of2. cbn. intros [= <-]. by destruct flag. Qed.

Lemma active_keyset_inv (p p' : Page) r : active_keyset_id (NetError:=NetError) p = (r, p') ->
  pg_state p' = pg_state p /\ pg_disk p' = pg_disk p /\ pg_key p' = pg_key p.
Proof.
  unfold active_keyset_id, mseq. destruct (net net_keysets p) as [r1 p1] eqn:H1.
  apply net_inv in H1 as (r0 & s & _ & -> & ->). intros H. destruct r0; cbn in H; by injection H as _ <-.
Qed.

Lemma mint_keys_inv id (p p' : Page) r : mint_keys (NetError:=NetError) id p = (r, p') ->
  pg_state p' = pg_state p /\ pg_disk p' = pg_disk p /\ pg_key p' = pg_key p.
Proof.
  unfold mint_keys, mseq. destruct (net net_keys p) as [r1 p1] eqn:H1.
  apply net_inv in H1 as (r0 & s & _ & -> & ->). intros H. destruct r0; cbn in H; by injection H as _ <-.
Qed.

Lemma parse_pubkey_inv k (p p' : Page) a : parse_pubkey (NetError:=NetError) k p = (Ok a, p') -> Nut01.from_str k = Ok a /\ p' = p.
Proof.
  unfold parse_pubkey. intros [H ->]%mlift_Ok. split; [|done]. destruct (Nut01.from_str k); [by injection H as ->|done..].
Qed.

Lemma safe_swap_Ok req ys (p p' : Page) sigs :
  safe_swap (NetError:=NetError) req ys p = (Ok sigs, p') ->
  (exists s, post_swap req (pg_remote p) = (Ok sigs, s)) /\
  ws_proofs (pg_state p') = filter (fun i => pi_y i ∉ ys) (ws_proofs (pg_state p)).
Proof.
  unfold safe_swap. intros H. apply mseq_Ok in H as ([] & p1 & H1 & H). apply store_update_inv in H1 as (Hs1 & [_ Hr1] & _).
  apply mseq_Ok in H as (sigs' & p2 & H2 & H). apply net_inv in H2 as ([sg| |] & s & Hc & [= ->] & ->).
  apply mseq_Ok in H as ([] & p3 & H3 & [= <- <-]). apply store_update_inv in H3 as (Hs3 & _ & _).
  rewrite Hr1 in Hc. split; [eauto|]. rewrite Hs3. cbn. rewrite Hs1. apply delete_marked.
Qed.

(** The steps of a swap into 2-of-2 proofs that returned. *)
Lemma swap_2of2_inv rounds rnd mint_url seed ak bk ds flag (p p' : Page) ps :
  swap_to_p2pk_2of2 mnemonic_ok rounds rnd mint_url seed ak bk (Some ds) flag p = (Ok (Some ps), p') ->
  exists u p0 alice bob inputs rest id locked chg sigs s s' keys all change,
    (open_wallet (NetError:=NetError) mnemonic_ok mint_url seed p = (Ok u, p0) /\
     Nut01.from_str ak = Ok alice /\ Nut01.from_str bk = Ok bob) /\
    (filter (fun i => passes i (Some u) (Some Amount.Sat) (Some [Nut07.Unspent]) None = true) (ws_proofs (pg_state p0)) = inputs ++ rest /\
     3 <= sumN (amounts_of inputs) mod 2 ^ 64) /\
    (blind_outputs (NetError:=NetError) id (fun i => sc_into_secret (rnd_secret rnd i) (lock_2of2 alice bob flag)) (rnd_factor rnd) 0 [1; 2] = Ok locked /\
     change_outputs (NetError:=NetError) rounds rnd id (sumN (amounts_of inputs) mod 2 ^ 64 - 3) ds = Some (Ok chg)) /\
    post_swap (SwapRequest_new (pi_proof <$> inputs) (locked ++ chg).*1) s = (Ok sigs, s') /\
    construct_proofs sigs (locked ++ chg).*2.*2 (locked ++ chg).*2.*1 keys = Ok all /\
    (ps = take 2 all /\ pi_proof <$> change = drop 2 all /\ Forall (fun i => pi_state i = Nut07.Unspent /\ pi_mint_url i = u) change /\
     ws_proofs (pg_state p') = filter (fun i => pi_y i ∉ pi_y <$> inputs) (ws_proofs (pg_state p0)) ++ change).
Proof.
  unfold swap_to_p2pk_2of2. intros H. apply mlift_seq in H as (ds' & [= <-] & H).
  apply mseq_Ok in H as (u & p0 & Ho & H). apply mseq_Ok in H as (alice & p1 & [Ha ->]%parse_pubkey_inv & H).
  apply mseq_Ok in H as (bob & p1 & [Hb ->]%parse_pubkey_inv & H).
  apply mlift_seq in H as (sc & ->%conditions_2of2_Ok & H).
  apply mseq_Ok in H as ([inputs total] & p1 & (-> & Hge & -> & rest & Hsel)%select_inputs_Ok & H).
  apply mseq_Ok in H as (id & p1 & (Hs1 & _ & _)%active_keyset_inv & H).
  apply mlift_seq in H as (locked & Hlk & H). unfold locked_outputs in Hlk.
  destruct (change_outputs rounds rnd id _ ds) as [chg|] eqn:Hch; [|done].
  apply mlift_seq in H as (chg' & -> & H).
  apply mseq_Ok in H as (sigs & p2 & ((s & Hpost) & Hs2)%safe_swap_Ok & H).
  apply mseq_Ok in H as (keys & p3 & (Hs3 & _ & _)%mint_keys_inv & H).
  apply mlift_seq in H as (all & Hun & H). apply mseq_Ok in H as ([] & p4 & Hst & [= <- <-]).
  unfold unblind in Hun. destruct (construct_proofs sigs _ _ keys) as [all'| |] eqn:Hc; [|done..]. injection Hun as ->.
  apply store_proofs_Ok in Hst as (change & Hw & Hpc & Hall). rewrite Hs3, Hs2, Hs1 in Hw.
  exists u, p0, alice, bob, inputs, rest, id, locked, chg', sigs, (pg_remote p1), s, keys, all, change. auto 20.
Qed.

(** C19. A swap into 2-of-2 proofs that returns has kept the value: it answers
    with two proofs of 1 and 2, locked to both keys; from the wallet exactly
    the chosen unspent inputs are gone, and the change that was added to it,
    unspent, is worth the inputs less 3. *)
Theorem swap_to_2of2_success rounds rnd mint_url seed ak bk ds flag (p p' : Page) ps
    (Hhonest : honest)
    (H : swap_to_p2pk_2of2 mnemonic_ok rounds rnd mint_url seed ak bk (Some ds) flag p = (Ok (Some ps), p')) :
  exists u p0 alice bob inputs change,
    open_wallet (NetError:=NetError) mnemonic_ok mint_url seed p = (Ok u, p0) /\
    Nut01.from_str ak = Ok alice /\ Nut01.from_str bk = Ok bob /\
    amount <$> ps = [1; 2] /\
    secret <$> ps = (fun i => sc_into_secret (rnd_secret rnd i) (lock_2of2 alice bob flag)) <$> [0; 1]%nat /\
    Forall (fun i => i ∈ ws_proofs (pg_state p0) /\ pi_state i = Nut07.Unspent) inputs /\
    ws_proofs (pg_state p') = filter (fun i => pi_y i ∉ pi_y <$> inputs) (ws_proofs (pg_state p0)) ++ change /\
    Forall (fun i => pi_state i = Nut07.Unspent /\ pi_mint_url i = u) change /\
    (sumN (amounts_of inputs) < 2 ^ 64 -> sumN (amounts_of inputs) = 3 + sumN (amounts_of change)).
Proof.
  apply swap_2of2_inv in H as (u & p0 & alice & bob & inputs & rest & id & locked & chg & sigs & s & s' & keys & all & change &
    (Ho & Ha & Hb) & (Hsel & Hge) & (Hlk & Hch) & Hpost & Hc & -> & Hpc & Hall & Hw).
  pose proof (construct_amounts _ _ _ _ _ Hc) as Ham. rewrite (Hhonest _ _ _ _ Hpost) in Ham. cbn [swap_outputs SwapRequest_new] in Ham.
  pose proof (construct_secrets _ _ _ _ _ Hc) as Hsec. rewrite !fmap_app in Ham. rewrite !fmap_app in Hsec.
  pose proof (blind_outputs_amounts _ _ _ _ _ _ Hlk) as [Hl1 _]. rewrite Hl1 in Ham.
  pose proof (blind_outputs_secrets _ _ _ _ _ _ Hlk) as Hl2. rewrite Hl2 in Hsec.
  pose proof (change_outputs_amounts _ _ _ _ _ _ Hch) as Hl3.
  exists u, p0, alice, bob, inputs, change. do 3 (split; [done|]).
  destruct all as [|q1 [|q2 all]]; try done. cbn in Ham, Hsec, Hpc. injection Ham as Ha1 Ha2 Ha3. injection Hsec as Hse1 Hse2 _.
  split; [cbn; by rewrite Ha1, Ha2|]. split; [cbn; by rewrite Hse1, Hse2|].
  split; [|split; [|split; [done|]]].
  - apply Forall_forall. intros i Hi. assert (Hin : i ∈ inputs ++ rest) by set_solver. rewrite <- Hsel in Hin.
    apply list_elem_of_filter in Hin as [Hp Hin]. split; [done|]. unfold passes in Hp. cbn in Hp.
    rewrite !andb_true_iff in Hp. destruct Hp as [[_ Hp] _]. apply bool_decide_eq_true, list_elem_of_singleton in Hp. done.
  - done.
  - intros Hlt. rewrite N.mod_small in Hge, Hl3 by done. unfold amounts_of in *.
    assert (Hc2 : (fun i => amount (pi_proof i)) <$> change = amount <$> all) by (transitivity (amount <$> (pi_proof <$> change)); [by rewrite <- list_fmap_compose|by rewrite Hpc]).
    rewrite Hc2. change (amount <$> all = bm_amount <$> chg.*1) in Ha3. rewrite Ha3, Hl3. lia.
Qed.

(** A step that fails ends the computation in its state. *)
Lemma mseq_step {T E A B} (c : M T E A) (k : A -> M T E B) t r t' :
  mseq c k t = (r, t') ->
  (exists a t1, c t = (Ok a, t1) /\ k a t1 = (r, t')) \/ (exists r0, c t = (r0, t') /\ forall a, r0 <> Ok a).
Proof.
  unfold mseq. destruct (c t) as [[a|e|] t1]; [eauto|..]; intros [= <- <-]; right; eexists; (split; [done|]); done.
Qed.

Definition pure {A} (c : Js A) : Prop := forall p r p', c p = (r, p') -> pg_state p' = pg_state p.

Lemma pure_mlift {A} (r : res JsError A) : pure (mlift r).
Proof. intros p r' p' [= _ <-]. done. Qed.
Lemma pure_parse k : pure (parse_pubkey k).
Proof. apply pure_mlift. Qed.
Lemma pure_select u need : pure (select_inputs u need).
Proof.
  intros p r p' H. unfold select_inputs in H.
  apply mseq_step in H as [(all & p1 & (r0 & [= <- <-] & _)%store_inv & H)|(r0 & (r1 & [= _ <-] & _)%store_inv & _)]; [|done].
  destruct (pick_inputs need _ [] 0) as [picked total]. by destruct (total <? need); injection H as _ <-.
Qed.
Lemma pure_active : pure active_keyset_id.
Proof. intros p r p' H. by apply active_keyset_inv in H as (? & _). Qed.

Lemma active_keyset_remote (p p' : Page) r :
  active_keyset_id (NetError:=NetError) p = (r, p') -> pg_remote p' = snd (net_keysets (pg_remote p)).
Proof.
  unfold active_keyset_id, mseq. destruct (net net_keysets p) as [r1 p1] eqn:H1.
  apply net_inv in H1 as (r0 & s & Hc & -> & ->). intros H. rewrite Hc. destruct r0; cbn in H; by injection H as _ <-.
Qed.

Lemma restate_proof ys st (l : list ProofInfo) : pi_proof <$> (restate ys st <$> l) = pi_proof <$> l.
Proof. rewrite <- list_fmap_compose. apply list_fmap_ext. intros _ i _. cbn. unfold restate. by case_bool_decide. Qed.

Lemma safe_swap_kept req ys (p p' : Page) (r : res (JsError (NetError:=NetError)) (list BlindSignature)) :
  safe_swap req ys p = (r, p') ->
  pi_proof <$> ws_proofs (pg_state p') = pi_proof <$> ws_proofs (pg_state p) \/
  exists sigs s, post_swap req (pg_remote p) = (Ok sigs, s).
Proof.
  unfold safe_swap. intros H. apply mseq_step in H as [(u & p1 & (Hs1 & [_ Hr1] & _)%store_update_inv & H)|(r0 & Hst & _)].
  2: { left. apply store_update_inv in Hst as (-> & _ & _). apply restate_proof. }
  apply mseq_step in H as [(sigs & p2 & (r2 & s & Hc & Hr & ->)%net_inv & H)|(r0 & (r2 & s & _ & _ & ->)%net_inv & _)].
  - right. rewrite <- Hr1. destruct r2; [|done..]. eauto.
  - left. cbn. rewrite Hs1. apply restate_proof.
Qed.

(** A swap into 2-of-2 proofs that fails loses nothing unless the mint has
    accepted it: the wallet still has every proof it had when it was opened, or
    the mint has answered this very call with signatures for a request whose
    inputs are proofs of the wallet. *)
Theorem swap_to_2of2_failure rounds rnd mint_url seed ak bk ds flag (p p' p0 : Page) u r
    (Hopen : open_wallet (NetError:=NetError) mnemonic_ok mint_url seed p = (Ok u, p0))
    (H : swap_to_p2pk_2of2 mnemonic_ok rounds rnd mint_url seed ak bk (Some ds) flag p = (r, p'))
    (Hr : forall ps, r <> Ok (Some ps)) :
  pi_proof <$> ws_proofs (pg_state p') = pi_proof <$> ws_proofs (pg_state p0) \/
  exists inputs outputs sigs s,
    post_swap (SwapRequest_new (pi_proof <$> inputs) outputs) (snd (net_keysets (pg_remote p0))) = (Ok sigs, s) /\
    Forall (fun i => i ∈ ws_proofs (pg_state p0)) inputs.
Proof.
  unfold swap_to_p2pk_2of2 in H. cbn [arg ok_or] in H. unfold arg, mseq at 1, mlift at 1 in H. cbn [ok_or] in H.
  unfold mseq at 1 in H. rewrite Hopen in H.
  apply mseq_step in H as [(a1 & p1 & [Ha ->]%parse_pubkey_inv & H)|(r0 & Hp%pure_parse & _)]; [|left; by rewrite Hp].
  apply mseq_step in H as [(b1 & p1 & [Hb ->]%parse_pubkey_inv & H)|(r0 & Hp%pure_parse & _)]; [|left; by rewrite Hp].
  apply mseq_step in H as [(sc & p1 & [Hsc ->]%mlift_Ok & H)|(r0 & Hp%pure_mlift & _)]; [|left; by rewrite Hp].
  apply mseq_step in H as [([inputs total] & p1 & (-> & _ & _ & rest & Hsel)%select_inputs_Ok & H)|(r0 & Hp%pure_select & _)];
    [|left; by rewrite Hp].
  apply mseq_step in H as [(id & p1 & Hid & H)|(r0 & Hp%pure_active & _)]; [|left; by rewrite Hp].
  pose proof (active_keyset_remote _ _ _ Hid) as Hrem. apply pure_active in Hid as Hs1.
  apply mseq_step in H as [(locked & p2 & [_ ->]%mlift_Ok & H)|(r0 & Hp%pure_mlift & _)]; [|left; by rewrite Hp, Hs1].
  destruct (change_outputs rounds rnd id (total - 3) ds) as [chg|]; [|left; injection H as _ <-; by rewrite Hs1].
  apply mseq_step in H as [(chg' & p2 & [_ ->]%mlift_Ok & H)|(r0 & Hp%pure_mlift & _)]; [|left; by rewrite Hp, Hs1].
  assert (Hins : Forall (fun i => i ∈ ws_proofs (pg_state p0)) inputs).
  { apply Forall_forall. intros i Hi. assert (Hin : i ∈ inputs ++ rest) by set_solver. rewrite <- Hsel in Hin.
    by apply list_elem_of_filter in Hin as [_ Hin]. }
  apply mseq_step in H as [(sigs & p2 & Hsw & H)|(r0 & Hsw & _)].
  - right. apply safe_swap_Ok in Hsw as [[s Hpost] _]. rewrite Hrem in Hpost. eauto 8.
  - pose proof (safe_swap_kept _ _ _ _ _ Hsw) as [Hk|(sg & s & Hpost)].
    + left. by rewrite Hk, Hs1.
    + right. rewrite Hrem in Hpost. eauto 8.
Qed.

End facts.
End CheckerFacts.
