(* ===== verification/CheckerMint.v ===== *)
(** * The checker against the modelled mint

    The page's interface to a mint is implemented by the mint of this
    development.  The mint keeps the promise that the page relies on; the lock
    that the page puts on its test proofs needs both signatures, so the test
    with one key is refused by the mint whatever else the request contains. *)
From Stdlib Require Import Ascii.
From stdpp Require Import base numbers list sorting strings gmap.
From S2P Require Import Prelude Amount Nuts Bdhke Conditions Spending States MintDb MintDbSpec Mint MintFacts Swap SwapFacts MintUrl WalletDb WalletDbFacts Checker CheckerFacts.
Import Nut00 Requests Nut11 Spending Bdhke MintDb MintDbSpec Mint MintFacts Swap SwapFacts WalletDb WalletDbFacts Checker CheckerFacts.

Local Open Scope N_scope.
Local Open Scope res_scope.
Local Open Scope mint_scope.

(** ** The 2-of-2 lock *)
Module LockFacts.
Section lock.
Context {CR : Crypto} {CRL : CryptoLaws CR} {SD : Serde} {SDL : SerdeLaws SD}.

(** The signatures of a proof that verify under a key. *)
Definition signed_under (p : Proof) (k : pubkey) : Prop :=
  exists sigs s g, witness_signatures (witness p) = Some sigs /\ s ∈ sigs /\ signature_from_str s = Some g /\
    Nut01.verify k (secret p) g = true.

Definition conditions_of_lock (bob : pubkey) (flag : bool) : Conditions :=
  mkConditions None (Some [bob]) None (Some 2) (if flag then SigAll else SigInputs) None.

Lemma lock_reads alice bob flag nonce :
  nut10_from_json (sc_into_secret nonce (lock_2of2 alice bob flag)) =
    Some (sc_into_nut10 nonce (lock_2of2 alice bob flag)) /\
  Conditions_try_from (default [] (Nut10.tags (Nut10.secret_data (sc_into_nut10 nonce (lock_2of2 alice bob flag))))) =
    Ok (conditions_of_lock bob flag) /\
  p2pk_keys (sc_into_nut10 nonce (lock_2of2 alice bob flag)) (conditions_of_lock bob flag) = Ok [bob; alice].
Proof.
  split; [apply nut10_json_roundtrip|]. split.
  - cbn [sc_into_nut10 lock_2of2 Nut10.Secret_new Nut10.secret_data Nut10.tags Nut10.SecretData_new fmap option_fmap option_map default from_option id].
    apply Conditions_try_from_into_tags. cbn. unfold conditions_wf. cbn. done.
  - unfold p2pk_keys. rewrite decide_True by done.
    change (Nut10.data (Nut10.secret_data (sc_into_nut10 nonce (lock_2of2 alice bob flag)))) with (Nut01.to_hex alice).
    unfold Nut01.from_str. by rewrite NutsFacts.from_hex_to_hex.
Qed.

(** The verdict on a locked proof is that of the signature count. *)
Lemma lock_verify alice bob flag nonce now p sigs :
  secret p = sc_into_secret nonce (lock_2of2 alice bob flag) -> witness_signatures (witness p) = Some sigs ->
  verify_p2pk now p = Ok tt <->
  all_parse [bob; alice] sigs /\ NoDup (hits (secret p) [bob; alice] sigs) /\
    2 <= N.of_nat (length (hits (secret p) [bob; alice] sigs)).
Proof.
  intros Hs Hw. destruct (lock_reads alice bob flag nonce) as (Hj & Hc & Hk). unfold verify_p2pk. rewrite Hs, Hj. cbn [ok_or].
  rewrite Hc, Hw. cbn [ok_or locktime conditions_of_lock]. rewrite p2pk_multisig_authorized. unfold multisig_authorized.
  rewrite Hk. cbn [num_sigs default conditions_of_lock from_option id]. split; [intros (keys & [= <-] & H); done|intros H; eauto].
Qed.

Lemma hit_signed msg keys sigs k :
  k ∈ hits msg keys sigs -> k ∈ keys /\ exists s g, s ∈ sigs /\ signature_from_str s = Some g /\ Nut01.verify k msg g = true.
Proof.
  unfold hits. intros (s & Hk & Hs)%list_elem_of_bind. destruct (signature_from_str s) as [g|] eqn:Hg; [|by apply not_elem_of_nil in Hk].
  unfold key_hits in Hk. apply list_elem_of_filter in Hk as [Hv Hk]. eauto 8.
Qed.

(** Two different entries of a list of two keys are all of them. *)
Lemma both_of_two {A} (a b : A) l : NoDup l -> (forall x, x ∈ l -> x ∈ [a; b]) -> 2 <= N.of_nat (length l) -> a ∈ l /\ b ∈ l.
Proof.
  intros Hnd Hsub Hlen. destruct l as [|x [|y l]]; cbn in Hlen; [lia..|].
  apply NoDup_cons in Hnd as [Hx Hnd].
  pose proof (Hsub x ltac:(set_solver)) as Hxa. pose proof (Hsub y ltac:(set_solver)) as Hya. set_solver.
Qed.

Lemma lock_needs_both alice bob flag nonce now p :
  secret p = sc_into_secret nonce (lock_2of2 alice bob flag) -> verify_p2pk now p = Ok tt ->
  signed_under p alice /\ signed_under p bob.
Proof.
  intros Hs Hv. assert (exists sigs, witness_signatures (witness p) = Some sigs) as [sigs Hw].
  { unfold verify_p2pk in Hv. destruct (nut10_from_json (secret p)); [|done]. cbn [ok_or] in Hv.
    destruct (Conditions_try_from _); [|done..]. destruct (witness_signatures (witness p)); [eauto|done]. }
  pose proof (proj1 (lock_verify alice bob flag nonce now p sigs Hs Hw) Hv) as (_ & Hnd & Hlen).
  destruct (both_of_two bob alice _ Hnd) as [Hb Ha]; [by intros x [Hx _]%hit_signed|done|].
  destruct (hit_signed _ _ _ _ Ha) as (_ & s & g & H1 & H2 & H3).
  destruct (hit_signed _ _ _ _ Hb) as (_ & s' & g' & H1' & H2' & H3').
  split; [exists sigs, s, g|exists sigs, s', g']; done.
Qed.

(** C27. The lock that the page puts on its test proofs: a proof locked to two
    keys is accepted only if it carries a signature of each of them, at any
    time; and a proof that both keys have signed once is accepted, when neither
    signature happens to verify under the other key. *)
Theorem two_of_two_enforced alice_sk bob_sk flag nonce now p
    (alice := seckey_public_key alice_sk) (bob := seckey_public_key bob_sk)
    (Hs : secret p = sc_into_secret nonce (lock_2of2 alice bob flag)) :
  (verify_p2pk now p = Ok tt -> signed_under p alice /\ signed_under p bob) /\
  (witness p = None -> alice <> bob ->
   Nut01.verify alice (secret p) (Nut01.sign bob_sk (secret p)) = false ->
   Nut01.verify bob (secret p) (Nut01.sign alice_sk (secret p)) = false ->
   verify_p2pk now (sign_p2pk (sign_p2pk p alice_sk) bob_sk) = Ok tt).
Proof.
  split; [by eapply lock_needs_both|]. intros Hw Hne Hab Hba.
  set (q := sign_p2pk (sign_p2pk p alice_sk) bob_sk).
  set (sa := Nut01.sign alice_sk (secret p)). set (sb := Nut01.sign bob_sk (secret p)).
  assert (Hq : witness_signatures (witness q) = Some [signature_to_string sa; signature_to_string sb]).
  { unfold q, sign_p2pk. cbn. rewrite Hw. done. }
  apply (lock_verify alice bob flag nonce now q _ Hs Hq). change (secret q) with (secret p).
  assert (Hh : hits (secret p) [bob; alice] [signature_to_string sa; signature_to_string sb] = [alice; bob]).
  { rewrite !hits_cons, hits_nil, !signature_roundtrip, app_nil_r. rewrite !key_hits_cons.
    unfold sa, sb. rewrite Hba, Hab. unfold alice, bob. rewrite !NutsFacts.verify_sign. done. }
  rewrite Hh. split; [right; repeat constructor; unfold parses; rewrite signature_roundtrip; eauto|].
  split; [|done]. repeat constructor; set_solver.
Qed.

End lock.
End LockFacts.

(** ** The mint behind the page *)
Module CheckerMint.
Import LockFacts.

Section mint.
Context {CR : Crypto} {CV : Curve CR} {SD : Serde} {SG : Signatory}.

(** The clock, the keysets the mint has loaded and the keys it publishes. *)
Context (now : N) (keysets : Keysets) (published : list (Id * gmap N pubkey)).

(** [Mint::keysets] and [Mint::pubkeys]: all but the ones for authentication. *)
Definition list_keysets : list KeySetInfo :=
  (fun k => mkKeySetInfo (ks_id k) (ks_unit k) (ks_active k) (ks_input_fee_ppk k) None) <$>
    filter (fun k => ks_unit k <> Amount.Auth) keysets.

(** The mint's world, and the next operation id. *)
Definition Remote : Type := World * N.

#[export] Instance mint_connector : MintConnector CR Remote MError := {|
  net_keysets s := (Ok list_keysets, s);
  net_keys s := (Ok published, s);
  post_swap r s := match process_swap_request now keysets s.2 r s.1 with (res, w) => (res, (w, s.2 + 1)) end;
  post_check_state ys s := match check_state ys s.1 with (res, w) => (res, (w, s.2)) end;
|}.

Context {SL : SignatoryLaws SG}.

Lemma accepted_swap r (s s' : Remote) sigs :
  post_swap r s = (Ok sigs, s') ->
  Forall2 signs_for (swap_outputs r) sigs /\
  Forall (fun p => verify_conditions now p = Ok tt) (swap_inputs r) /\
  exists fee, get_proofs_fee keysets (swap_inputs r) = Ok fee /\
    sumN (map bm_amount (swap_outputs r)) + fee = sumN (map amount (swap_inputs r)).
Proof.
  destruct s as [w0 n]. cbn -[process_swap_request]. destruct (process_swap_request now keysets n r w0) as [res w] eqn:H. intros [= -> _].
  destruct (swap_cases _ _ _ _ _ _ _ H) as [[Hno _]|(ys & Hp & Hd)]; [by destruct (Hno sigs)|]. cbv zeta in Hd.
  destruct Hd as [(sigs' & Heq & Hs & _)|[Hno _]]; [|by destruct (Hno sigs)]. injection Heq as <-.
  split; [by apply blind_sign_matches|]. split.
  - pose proof (pre_conditions _ _ _ _ _ _ Hp) as Hc. apply collect_Ok in Hc. clear -Hc.
    induction (swap_inputs r) as [|p l IH]; [done|]. cbn in Hc. inversion Hc; subst. constructor; [done|by apply IH].
  - by destruct (pre_balanced _ _ _ _ _ _ Hp) as (_ & fee & Hf & Hsum); eauto.
Qed.

(** The mint keeps the promise that the page relies on. *)
Lemma mint_honest : honest (MC:=mint_connector).
Proof.
  intros r s sigs s' (H & _ & _)%accepted_swap. clear -H. induction H as [|m g ms gs [Ha _] _ IH]; [done|].
  rewrite !fmap_cons. by rewrite Ha, IH.
Qed.

Context {CRL : CryptoLaws CR} {SDL : SerdeLaws SD} {MintInfo : Type} {J : StateJson CR MintInfo}.
Context (seckey_from_str : string -> option seckey).
Local Abbreviation Page := (Page MintInfo Remote).

Lemma swap_signed_done rnd mint_url ps keys sign (p p' : Page) out :
  swap_signed (NetError:=MError) seckey_from_str rnd mint_url (Some ps) keys sign p = (Ok (SwapDone out), p') ->
  exists sks outputs r (s s' : Remote) sigs,
    collect (fun s => ok_or (E:=JsError (NetError:=MError)) InvalidKey (seckey_from_str s)) keys = Ok sks /\
    sign (SwapRequest_new ps outputs) sks = Ok r /\ post_swap r s = (Ok sigs, s').
Proof.
  unfold swap_signed. intros H. apply mlift_seq in H as (u & _ & H). apply mlift_seq in H as (ps' & [= <-] & H).
  unfold parse_seckeys in H. apply mlift_seq in H as (sks & Hk & H). apply mseq_Ok in H as (id & p1 & _ & H).
  apply mlift_seq in H as (os & _ & H). apply mlift_seq in H as (r & Hr & H).
  apply mseq_Ok in H as (resp & p2 & Hresp & H). destruct resp as [sigs|e]; [|by destruct e].
  apply mtry_inl, net_inv in Hresp as ([sg| |] & s & Hc & Hq & ->); [|done..]. eauto 12.
Qed.

(** The test with one signature fails on this mint, as it should: when the
    page spends unsigned proofs that are locked to two keys with one of the
    keys only, the mint never accepts, whatever its database does and whatever
    other proofs are in the request; with the signature of one key not
    verifying under the other. *)
Theorem single_signer_refused rnd mint_url ps key sk alice bob nonce q (p p' : Page) out
    (Hkey : seckey_from_str key = Some sk)
    (Hin : q ∈ ps) (Hunsigned : witness q = None)
    (Hlock : secret q = sc_into_secret nonce (lock_2of2 alice bob false))
    (Hother : exists k, k ∈ [alice; bob] /\ Nut01.verify k (secret q) (Nut01.sign sk (secret q)) = false) :
  swap_with_p2pk (NetError:=MError) seckey_from_str rnd mint_url (Some ps) [key] p <> (Ok (SwapDone out), p').
Proof.
  intros H. unfold swap_with_p2pk in H. apply swap_signed_done in H as (sks & outputs & r & s & s' & sigs & Hks & Hr & Hpost).
  cbn in Hks. rewrite Hkey in Hks. injection Hks as <-. injection Hr as <-.
  apply accepted_swap in Hpost as (_ & Hcond & _). cbn [swap_inputs] in Hcond.
  rewrite Forall_fmap in Hcond. unfold without_dleqs in Hcond. rewrite Forall_fmap, Forall_forall in Hcond.
  specialize (Hcond q Hin). set (q' := mkProof (amount q) (keyset_id q) (secret q) (Nut00.c q) (witness q) None).
  change (verify_conditions now (sign_p2pk q' sk) = Ok tt) in Hcond.
  assert (Hs : secret (sign_p2pk q' sk) = sc_into_secret nonce (lock_2of2 alice bob false)) by done.
  unfold verify_conditions in Hcond. rewrite Hs, (proj1 (lock_reads alice bob false nonce)) in Hcond. cbn in Hcond.
  destruct (verify_p2pk now (sign_p2pk q' sk)) as [[]| |] eqn:Hv; [|done..].
  pose proof (lock_needs_both _ _ _ _ _ _ Hs Hv) as [Ha Hb]. destruct Hother as (k & Hk & Hno).
  assert (Hk' : signed_under (sign_p2pk q' sk) k) by (set_solver).
  destruct Hk' as (gs & g & sg & Hw & Hg & Hp & Hver). cbn in Hw. rewrite Hunsigned in Hw. injection Hw as <-.
  apply list_elem_of_singleton in Hg as ->. rewrite signature_roundtrip in Hp. injection Hp as <-.
  change (secret (sign_p2pk q' sk)) with (secret q) in Hver. cbn in Hver. congruence.
Qed.

Context (mnemonic_ok : string -> bool).

(** The page takes no account of input fees: its swap into 2-of-2 proofs
    puts the whole value of the inputs into the outputs, so when it returns
    from this mint, the fee of the chosen inputs was zero; a mint that charges
    for its inputs refuses every such swap. *)
Theorem swap_to_2of2_only_without_fee rounds rnd mint_url seed ak bk ds flag (p p' : Page) ps
    (H : swap_to_p2pk_2of2 (NetError:=MError) mnemonic_ok rounds rnd mint_url seed ak bk (Some ds) flag p = (Ok (Some ps), p')) :
  exists u p0 inputs change, open_wallet (NetError:=MError) mnemonic_ok mint_url seed p = (Ok u, p0) /\
    ws_proofs (pg_state p') = filter (fun i => pi_y i ∉ pi_y <$> inputs) (ws_proofs (pg_state p0)) ++ change /\
    3 <= sumN (amounts_of inputs) /\
    inputs `prefix_of` filter (fun i => passes i (Some u) (Some Amount.Sat) (Some [Nut07.Unspent]) None = true) (ws_proofs (pg_state p0)) /\
    (sumN (amounts_of inputs) < 2 ^ 64 -> get_proofs_fee keysets (without_dleqs (pi_proof <$> inputs)) = Ok 0).
Proof.
  apply swap_2of2_inv in H as (u & p0 & alice & bob & inputs & rest & id & locked & chg & sigs & s & s' & keys & all & change &
    (Ho & _) & (Hsel & Hge) & (Hlk & Hch) & Hpost & _ & _ & _ & _ & Hw).
  exists u, p0, inputs, change. split; [done|]. split; [done|]. split; [pose proof (N.Div0.mod_le (sumN (amounts_of inputs)) (2 ^ 64)); lia|].
  split; [by exists rest|]. intros Hlt.
  apply accepted_swap in Hpost as (_ & _ & fee & Hfee & Hsum). cbn [swap_inputs swap_outputs SwapRequest_new] in *.
  enough (fee = 0) as -> by done. rewrite N.mod_small in Hge, Hch by done.
  apply blind_outputs_amounts in Hlk as [Hl _]. apply change_outputs_amounts in Hch as Hc.
  assert (Hin : sumN (map amount (without_dleqs (pi_proof <$> inputs))) = sumN (amounts_of inputs)).
  { f_equal. unfold without_dleqs, amounts_of. rewrite map_map. cbn. clear. induction inputs as [|i l IH]; [done|]. cbn. by rewrite IH. }
  rewrite Hin in Hsum. rewrite fmap_app in Hsum. change (map bm_amount) with (fmap (M:=list) bm_amount) in Hsum.
  rewrite fmap_app, Hl, sumN_app, Hc in Hsum. change (sumN [1; 2]) with 3 in Hsum. lia.
Qed.

End mint.
End CheckerMint.
