(* ===== verification/ConcreteChecker.v ===== *)
(** * The checker at concrete values

    A concrete JSON codec for wallets with plain proofs, a mint that accepts
    or refuses every swap, and the theorems on the checker applied to them. *)
From Stdlib Require Import Ascii.
From stdpp Require Import base numbers list sorting strings gmap.
From S2P Require Import Prelude Amount Nuts Bdhke Conditions Concrete Spending States MintDb Mint MintFacts ConcreteCurve MintUrl WalletDb WalletDbFacts Checker CheckerFacts CheckerMint.
Import Nut00 Requests Nut11 Bdhke ConcreteCurve WalletDb WalletDbFacts Checker CheckerFacts.

Local Open Scope N_scope.
Local Open Scope string_scope.

Module ConcreteChecker.
#[local] Existing Instance Concrete.serde.
#[local] Existing Instance Concrete.serde_laws.

(** ** The codec *)

(** What is written of a proof: its state as a number, and no conditions. *)
Definition Row : Type := N * string * string * ascii * ascii * string * N.

Definition state_code (st : Nut07.State) : N :=
  match st with Nut07.Spent => 0 | Nut07.Unspent => 1 | Nut07.Pending => 2 | Nut07.Reserved => 3 | Nut07.PendingSpent => 4 end.
Definition code_state (n : N) : Nut07.State :=
  match n with 0 => Nut07.Spent | 1 => Nut07.Unspent | 2 => Nut07.Pending | 3 => Nut07.Reserved | _ => Nut07.PendingSpent end.

Definition to_row (i : ProofInfo) : option Row :=
  match i with
  | mkProofInfo (mkProof a kid sec c None None) y url st None Amount.Sat => Some (a, kid, sec, c, y, url, state_code st)
  | _ => None
  end.
Definition of_row (r : Row) : ProofInfo :=
  let '(a, kid, sec, c, y, url, st) := r in
  mkProofInfo (mkProof a kid sec c None None) y url (code_state st) None Amount.Sat.

Definition wallet_of (l : list ProofInfo) : WalletState unit := set_proofs default_state l.

Definition bare (s : WalletState unit) : bool :=
  bool_decide (ws_mints s = ∅) && bool_decide (ws_keysets s = ∅) && bool_decide (ws_keyset_map s = ∅) &&
  bool_decide (ws_mint_quotes s = ∅) && bool_decide (ws_melt_quotes s = ∅) && bool_decide (ws_keys s = ∅) &&
  bool_decide (ws_keyset_counters s = ∅) && match ws_transactions s with [] => true | _ => false end.

#[export] Instance json : StateJson crypto unit := {|
  state_to_json s := if bare s then Concrete.bits_of_pos ∘ encode <$> mapM to_row (ws_proofs s) else None;
  state_from_json j := wallet_of ∘ fmap of_row <$> (Concrete.pos_of_bits j ≫= decode (A:=list Row));
|}.

Lemma of_to_row i r : to_row i = Some r -> of_row r = i.
Proof. destruct i as [[? ? ? ? [] []] ? ? [] [] []]; by intros [= <-]. Qed.

Lemma bare_wallet s : bare s = true -> s = wallet_of (ws_proofs s).
Proof.
  unfold bare. rewrite !andb_true_iff, !bool_decide_eq_true. destruct s as [? ? ? ? ? ? ? ? t]. cbn.
  intros (((((((-> & ->) & ->) & ->) & ->) & ->) & ->) & Ht). by destruct t.
Qed.

#[export] Instance json_laws : StateJsonLaws crypto unit json.
Proof.
  split. intros s j _. cbn. destruct (bare s) eqn:Hb; [|done]. apply bare_wallet in Hb.
  destruct (mapM to_row (ws_proofs s)) as [rows|] eqn:Hr; [|done]. cbn. intros [= <-].
  rewrite Concrete.pos_of_bits_of_pos. cbn. rewrite decode_encode. cbn. rewrite Hb. do 2 f_equal.
  apply mapM_Some in Hr. clear -Hr. induction Hr as [|i r l rows Hi _ IH]; [done|]. rewrite fmap_cons. by rewrite (of_to_row _ _ Hi), IH.
Qed.

(** ** The mint and the page *)

Definition sign_output (m : BlindedMessage) : BlindSignature :=
  mkBlindSignature (bm_amount m) (bm_keyset_id m)
    (match sign_message "k"%char (blinded_secret m) with Ok c => c | _ => "?"%char end) None.

Definition kid : string := "00keyset".

Definition keys : gmap N (@pubkey crypto) := list_to_map [(1, "k"%char); (2, "k"%char); (4, "k"%char)].

Definition published : list (Id * gmap N (@pubkey crypto)) := [(kid, keys)].
Definition keysets : list KeySetInfo := [mkKeySetInfo kid Amount.Sat true 0 None].

(** It accepts while its state is [true], and knows no proof as spent. *)
#[export] Instance mint : MintConnector crypto bool string := {|
  net_keysets s := (Ok keysets, s);
  net_keys s := (Ok published, s);
  post_swap r s := (if (s : bool) then Ok (sign_output <$> swap_outputs r) else Err "refused", s);
  post_check_state ys s := (Ok ((fun y => Nut07.mkProofState _ y Nut07.Unspent None) <$> ys), s);
|}.

Lemma accepting_mint_honest : honest (MC:=mint).
Proof. intros r [] sigs s' H; cbn in H; [|done]. injection H as <- _. rewrite <- list_fmap_compose. by apply list_fmap_ext. Qed.

Definition url : string := "https://mint.example".
Definition coin (a : N) (y : ascii) : ProofInfo :=
  mkProofInfo (mkProof a kid (String y "secret") "c"%char None None) y url Nut07.Unspent None Amount.Sat.
Definition coins : list ProofInfo := [coin 4 "x"%char; coin 8 "y"%char].
Definition page (faults : list bool) (accepts : bool) : Page unit bool :=
  mkPage (wallet_of coins) (storage_key url) ∅ faults accepts.
Definition any_words (s : string) : bool := true.
Definition random : Random := mkRandom (fun i => String (ascii_of_nat (65 + i)) "") (fun i => ascii_of_nat (40 + 9 * i)).

(** The page after a change of it. *)
Definition after {A} (c : M (Page unit bool) StoreError A) (p : Page unit bool) : Page unit bool := snd (c p).

Lemma run_Ok {T E} (c : M T E unit) p : (match fst (c p) with Ok _ => true | _ => false end) = true -> c p = (Ok tt, snd (c p)).
Proof. by destruct (c p) as [[[]| |] ?]. Qed.

Lemma run_value {T E A} (d : A) (c : M T E A) p : (match fst (c p) with Ok _ => true | _ => false end) = true ->
  c p = (Ok (match fst (c p) with Ok a => a | _ => d end), snd (c p)).
Proof. by destruct (c p) as [[| |] ?]. Qed.

Lemma not_Ok {E A} (r : res E A) : (match r with Ok _ => true | _ => false end) = false -> forall a, r <> Ok a.
Proof. by destruct r. Qed.

Lemma not_some {E A} (r : res E (option A)) : (match r with Ok (Some _) => true | _ => false end) = false -> forall a, r <> Ok (Some a).
Proof. by destruct r as [[]| |]. Qed.

(** ** The store *)

Definition cmds : list Cmd := [CmdState ["x"%char] Nut07.Pending; CmdProofs [coin 2 "z"%char] ["x"%char]].

Lemma store_refines_map_witness :
  represents (ws_proofs (pg_state (snd (mfor cmd_run cmds (page [] true)))))
    (fold_left (fun m c => cmd_map c m) cmds (abs coins)).
Proof.
  apply (store_refines_map (J:=json) cmds (page [] true)).
  - split; [|done]. apply (bool_decide_eq_true_1 _). reflexivity.
  - split; [exact I|]. split; [|exact I]. split; [apply (bool_decide_eq_true_1 _); reflexivity|].
    intros p ->%list_elem_of_singleton. right. reflexivity.
  - apply run_Ok. vm_compute. reflexivity.
Defined.

Definition spend_x (s : WalletState unit) : WalletState unit := set_proofs s (change_proofs [] ["x"%char] (ws_proofs s)).

Lemma coins_canonical l : Forall (fun i => pi_mint_url i = url /\ pi_unit i = Amount.Sat) l -> state_canonical (wallet_of l).
Proof.
  intros H. split_and!; [apply map_Forall_empty..| |constructor]. cbn. eapply Forall_impl; [exact H|].
  intros i [-> ->]. split; reflexivity.
Qed.

Definition spent_x : Page unit bool := snd (update spend_x (page [] true)).

Lemma spent_x_Ok : update spend_x (page [] true) = (Ok tt, spent_x).
Proof. apply run_Ok. vm_compute. reflexivity. Qed.

Definition later : Page unit bool := mkPage default_state "" (pg_disk spent_x) [] true.

Lemma stored_wallet_reopens_witness :
  exists q', open (storage_key url) later = (Ok tt, q') /\
    pg_state q' = wallet_of [coin 8 "y"%char] /\ pg_disk q' = pg_disk later.
Proof.
  apply (stored_wallet_reopens (JL:=json_laws) spend_x (page [] true) spent_x); [apply spent_x_Ok| |reflexivity..].
  apply (coins_canonical [coin 8 "y"%char]). repeat constructor.
Defined.

(** The storage fails for a moment when the stored wallet is read. *)
Definition unread : Page unit bool := mkPage default_state "" (pg_disk spent_x) [true] true.

Lemma unreadable_wallet_erased_witness : pg_state (snd (open (storage_key url) unread)) = default_state.
Proof.
  apply (unreadable_wallet_erased (J:=json) (storage_key url) unread).
  - apply not_Ok. vm_compute. reflexivity.
  - apply run_Ok. vm_compute. reflexivity.
Defined.

(** The first copy still has the proof that the second one has deleted. *)
Definition old_copy : Page unit bool := mkPage (wallet_of coins) (storage_key url) (pg_disk spent_x) [] true.
Definition overwritten : Page unit bool := snd (update_proofs [coin 2 "z"%char] [] old_copy).

Definition three : list ProofInfo := (coins ++ [coin 2 "z"%char])%list.

Lemma overwritten_state : pg_state overwritten = wallet_of three.
Proof.
  assert (H : update_proofs [coin 2 "z"%char] [] old_copy = (Ok tt, overwritten)) by (apply run_Ok; vm_compute; reflexivity).
  apply update_spec in H as (-> & _). reflexivity.
Qed.

Definition reopened : Page unit bool := mkPage default_state "" (pg_disk overwritten) [] true.

Lemma old_copy_overwrites_witness :
  exists r', open (storage_key url) reopened = (Ok tt, r') /\
    coin 4 "x"%char ∈ ws_proofs (pg_state r') /\ ws_proofs (pg_state r') = three.
Proof.
  apply (old_copy_overwrites (JL:=json_laws) spend_x (page [] true) spent_x old_copy overwritten).
  - apply spent_x_Ok.
  - reflexivity.
  - reflexivity.
  - apply list_elem_of_here.
  - apply run_Ok. vm_compute. reflexivity.
  - rewrite overwritten_state. apply coins_canonical. repeat constructor.
  - reflexivity.
  - reflexivity.
Defined.

(** ** Swaps *)

Definition request : SwapRequest := SwapRequest_new [pi_proof (coin 4 "x"%char)] [].
Definition refused : Page unit bool := snd (safe_swap (NetError:=string) request ["x"%char] (page [] false)).

Lemma run_refused {A} (c : Js A) (p : Page unit bool) :
  (match fst (c p) with Err (MintFailed e) => String.eqb e "refused" | _ => false end) = true ->
  c p = (Err (MintFailed "refused"), snd (c p)).
Proof. destruct (c p) as [[|e|] ?]; try done. destruct e; try done. cbn. by intros ->%String.eqb_eq. Qed.

Lemma refused_Err : safe_swap request ["x"%char] (page [] false) = (Err (MintFailed "refused"), refused).
Proof.
  apply run_refused. vm_compute. reflexivity.
Qed.

Lemma safe_swap_outcomes_witness :
  ws_proofs (pg_state refused) = restate ["x"%char] Nut07.Pending <$> coins.
Proof. apply (safe_swap_outcomes request ["x"%char] (page [] false) refused (Err (MintFailed "refused")) refused_Err). Defined.

Definition again : Page unit bool := mkPage default_state "" (pg_disk refused) [] false.

Lemma with_states_canonical f : state_canonical (with_states (wallet_of coins) f).
Proof. apply (coins_canonical ((fun i => set_pi_state i (f i)) <$> coins)). repeat constructor. Qed.

Lemma coins_serializable : serializable (wallet_of coins).
Proof. intros f. cbn. eexists. reflexivity. Qed.

Lemma refused_swap_recovers_witness :
  exists n ch q', check_proofs_state (NetError:=string) any_words url "words" again = (Ok (n, ch), q') /\
    ws_proofs (pg_state q') = coins.
Proof.
  destruct (refused_swap_recovers any_words url "words" url request ["x"%char] (page [] false) refused again "refused"
    ((fun y => Nut07.mkProofState _ y Nut07.Unspent None) <$> (pi_y <$> coins)) false) as (n & ch & q' & Hrun & _ & Hback).
  - vm_compute. reflexivity.
  - reflexivity.
  - reflexivity.
  - apply (bool_decide_eq_true_1 _). reflexivity.
  - apply with_states_canonical.
  - apply coins_serializable.
  - apply refused_Err.
  - reflexivity.
  - reflexivity.
  - reflexivity.
  - exists n, ch, q'. split; [exact Hrun|]. apply Hback; [reflexivity|repeat constructor|repeat constructor].
Defined.

Lemma run_check (p : Page unit bool) n ch :
  (match fst (check_proofs_state (NetError:=string) any_words url "words" p) with
   | Ok r => bool_decide (r = (n, ch)) | _ => false end) = true ->
  check_proofs_state any_words url "words" p = (Ok (n, ch), snd (check_proofs_state (NetError:=string) any_words url "words" p)).
Proof. destruct (check_proofs_state _ _ _ p) as [[r| |] ?]; try done. cbn. by intros ->%bool_decide_eq_true. Qed.

Lemma check_proofs_state_syncs_witness :
  exists u p0, open_wallet (NetError:=string) any_words url "words" again = (Ok u, p0).
Proof.
  destruct (check_proofs_state_syncs any_words url "words" again
    (snd (check_proofs_state (NetError:=string) any_words url "words" again)) 2 [(Nut07.Pending, Nut07.Unspent, 4)]) as (u & p0 & H & _).
  - apply run_check. vm_compute. reflexivity.
  - eauto.
Defined.

(** ** The 2-of-2 test *)

Definition alice_key : string := Concrete.key_to_string "A"%char.
Definition bob_key : string := Concrete.key_to_string "B"%char.

(** A page whose wallet is stored, and the swap it makes. *)
Definition ready (faults : list bool) (accepts : bool) : Page unit bool :=
  mkPage default_state "" (pg_disk (snd (save_snapshot (page [] true)))) faults accepts.
Definition two_of_two (ak : string) : Js (NetError:=string) (option (list Proof)) :=
  swap_to_p2pk_2of2 any_words 10 random url "words" ak bob_key (Some [1; 2; 4]) false.
Definition locked (p : Page unit bool) : list Proof :=
  match fst (two_of_two alice_key p) with Ok (Some ps) => ps | _ => [] end.

Lemma run_two_of_two p : (match fst (two_of_two alice_key p) with Ok (Some _) => true | _ => false end) = true ->
  two_of_two alice_key p = (Ok (Some (locked p)), snd (two_of_two alice_key p)).
Proof. unfold locked. by destruct (two_of_two alice_key p) as [[[ps|]| |] ?]. Qed.

Lemma swap_to_2of2_success_witness : amount <$> locked (ready [] true) = [1; 2].
Proof.
  destruct (swap_to_2of2_success any_words 10 random url "words" alice_key bob_key [1; 2; 4] false (ready [] true)
    (snd (two_of_two alice_key (ready [] true))) (locked (ready [] true)))
    as (u & p0 & a & b & inputs & change & _ & _ & _ & Ha & _); [apply accepting_mint_honest| |exact Ha].
  apply run_two_of_two. vm_compute. reflexivity.
Defined.

Definition opened : Page unit bool := snd (open_wallet (NetError:=string) any_words url "words" (ready [] false)).

Lemma opened_Ok : open_wallet (NetError:=string) any_words url "words" (ready [] false) = (Ok url, opened).
Proof.
  assert (H : (match fst (open_wallet (NetError:=string) any_words url "words" (ready [] false)) with Ok u => String.eqb u url | _ => false end) = true)
    by (vm_compute; reflexivity).
  unfold opened. destruct (open_wallet any_words url "words" (ready [] false)) as [[u| |] ?]; try done. cbn in *. by apply String.eqb_eq in H as ->.
Qed.

Lemma swap_to_2of2_failure_witness :
  pi_proof <$> ws_proofs (pg_state (snd (two_of_two alice_key (ready [] false)))) = pi_proof <$> ws_proofs (pg_state opened) \/
  exists inputs outputs sigs s,
    post_swap (SwapRequest_new (pi_proof <$> inputs) outputs) (snd (net_keysets (pg_remote opened))) = (Ok sigs, s) /\
    Forall (fun i => i ∈ ws_proofs (pg_state opened)) inputs.
Proof.
  apply (swap_to_2of2_failure any_words 10 random url "words" alice_key bob_key [1; 2; 4] false (ready [] false)
    (snd (two_of_two alice_key (ready [] false))) opened url (fst (two_of_two alice_key (ready [] false)))).
  - apply opened_Ok.
  - apply surjective_pairing.
  - apply not_some. vm_compute. reflexivity.
Defined.

(** ** The checker against the modelled mint *)
Import LockFacts CheckerMint.

#[local] Instance signatory : Mint.Signatory := {|
  Mint.signatory_blind_sign ms := Ok (map sign_output ms);
  Mint.signatory_verify_proofs _ := Ok tt;
|}.
#[local] Instance signatory_laws : Mint.SignatoryLaws signatory.
Proof. split. intros ms ss [= <-]. induction ms; cbn; constructor; [done|]. apply IHms. Qed.

Definition lock : SpendingConditions := lock_2of2 "A"%char "B"%char false.
Definition locked_proof : Proof := mkProof 1 kid (sc_into_secret "nonce" lock) "c"%char None None.

Lemma two_of_two_enforced_witness :
  Spending.verify_p2pk 0 (Spending.sign_p2pk (Spending.sign_p2pk locked_proof "A"%char) "B"%char) = Ok tt.
Proof.
  apply (two_of_two_enforced (CR:=crypto) "A"%char "B"%char false "nonce" 0 locked_proof).
  - reflexivity.
  - reflexivity.
  - discriminate.
  - vm_compute. reflexivity.
  - vm_compute. reflexivity.
Defined.

Definition one_byte_key (s : string) : option (@seckey crypto) := match s with String k EmptyString => Some k | _ => None end.
Definition mint_keyset (fee : N) : Mint.KeysetInfo := Mint.mkKeysetInfo kid Amount.Sat true fee [1; 2; 4; 8].
Definition at_mint : Page unit Remote := mkPage (wallet_of []) (storage_key url) ∅ [] (Mint.mkWorld MintDb.empty_db MintDb.empty_db [] [], 1).

Lemma single_signer_refused_witness :
  swap_with_p2pk (MC:=mint_connector 50 [mint_keyset 0] published) (NetError:=Mint.MError) one_byte_key random url (Some [locked_proof]) ["A"] at_mint <>
    (Ok (SwapDone None), at_mint).
Proof.
  apply (single_signer_refused (CR:=crypto) 50 [mint_keyset 0] published one_byte_key random url [locked_proof] "A" "A"%char
    "A"%char "B"%char "nonce" locked_proof).
  - reflexivity.
  - apply list_elem_of_here.
  - reflexivity.
  - reflexivity.
  - exists "B"%char. split; [by do 2 constructor|]. vm_compute. reflexivity.
Defined.

(** The wallet's proofs, a mint without fee, and the swap that it accepts. *)
Definition at_free_mint : Page unit Remote :=
  mkPage default_state "" (pg_disk (snd (save_snapshot (page [] true)))) [] (Mint.mkWorld MintDb.empty_db MintDb.empty_db [] [], 1).
Definition free_run : res (JsError (NetError:=Mint.MError)) (option (list Proof)) * Page unit Remote :=
  swap_to_p2pk_2of2 (MC:=mint_connector 50 [mint_keyset 0] published) (NetError:=Mint.MError)
    any_words 10 random url "words" alice_key bob_key (Some [1; 2; 4]) false at_free_mint.
Definition answered (r : res (JsError (NetError:=Mint.MError)) (option (list Proof))) : list Proof :=
  match r with Ok (Some ps) => ps | _ => [] end.
Definition free_proofs : list Proof := answered (fst free_run).

Lemma free_run_Ok : free_run = (Ok (Some free_proofs), snd free_run).
Proof.
  assert (H : (match fst free_run with Ok (Some _) => true | _ => false end) = true) by (vm_compute; reflexivity).
  unfold free_proofs, answered. by destruct free_run as [[[ps|]| |] ?].
Qed.

Lemma swap_to_2of2_only_without_fee_witness :
  exists u p0, open_wallet (NetError:=Mint.MError) any_words url "words" at_free_mint = (Ok u, p0).
Proof.
  destruct (swap_to_2of2_only_without_fee 50 [mint_keyset 0] published any_words 10 random url "words" alice_key bob_key [1; 2; 4]
    false at_free_mint (snd free_run) free_proofs free_run_Ok) as (u & p0 & _ & _ & H & _). eauto.
Defined.

(** With a fee the same swap is refused. *)
Example fee_refused :
  (match fst (swap_to_p2pk_2of2 (MC:=mint_connector 50 [mint_keyset 100] published) (NetError:=Mint.MError)
     any_words 10 random url "words" alice_key bob_key (Some [1; 2; 4]) false at_free_mint) with
   | Err (MintFailed (Mint.TransactionUnbalanced _ _ _)) => true | _ => false end) = true.
Proof. vm_compute. reflexivity. Qed.

(** A mint that accepts the swap and then does not answer for its keys: the
    inputs are gone from the stored wallet and the new proofs are in no place. *)
Definition silent : MintConnector crypto bool string := {|
  net_keysets s := (Ok keysets, s);
  net_keys s := (Err "unreachable", s);
  post_swap r s := (Ok (sign_output <$> swap_outputs r), s);
  post_check_state ys s := (Err "unreachable", s);
|}.

Definition silent_run : res (JsError (NetError:=string)) (option (list Proof)) * Page unit bool :=
  swap_to_p2pk_2of2 (MC:=silent) any_words 10 random url "words" alice_key bob_key (Some [1; 2; 4]) false (ready [] true).

Example accepted_swap_lost :
  (match silent_run with
   | (Err (MintFailed _), p) => bool_decide (amounts_of (ws_proofs (pg_state p)) = [8])
   | _ => false
   end) = true.
Proof. vm_compute. reflexivity. Qed.

(** A proof that is added twice is counted twice. *)
Example added_twice :
  (match get_balance None None None (snd (update_proofs [coin 4 "x"%char] [] (page [] true))) with
   | (Ok total, _) => N.eqb total 16 | _ => false end) = true.
Proof. vm_compute. reflexivity. Qed.

End ConcreteChecker.
