(* ===== verification/WalletStore.v ===== *)
(** * What a wallet asks of its store (crates/cdk-common/src/database/wallet.rs)

    The trait [WalletDatabase] is the class [WalletStore]: the operations of a
    store with state [W].  [WalletStoreLaws] is what the wallet's theorems need
    of them: three views of the state (the stored proofs, the derivation
    counter of each keyset, the keysets that have a counter) and how each
    operation changes them.  A store whose write fails may or may not have made
    the change; an operation that succeeds has made it. *)
From stdpp Require Import base numbers list sorting strings gmap.
From S2P Require Import Prelude Amount Hex Nuts KeysetId Conditions States MintUrl WalletDb Posts.
Import Nut00 KeysetId WalletDb.

Local Open Scope N_scope.

Class WalletStore (CR : Crypto) (MintInfo W StoreErr : Type) := {
  st_add_mint : MintUrl -> option MintInfo -> M W StoreErr unit;
  st_remove_mint : MintUrl -> M W StoreErr unit;
  st_get_mint : MintUrl -> M W StoreErr (option MintInfo);
  st_get_mints : M W StoreErr (gmap MintUrl (option MintInfo));
  st_update_mint_url : MintUrl -> MintUrl -> M W StoreErr unit;
  st_add_mint_keysets : MintUrl -> list KeySetInfo -> M W StoreErr unit;
  st_get_mint_keysets : MintUrl -> M W StoreErr (option (list KeySetInfo));
  st_get_keyset_by_id : Id -> M W StoreErr (option KeySetInfo);
  st_add_mint_quote : WMintQuote -> M W StoreErr unit;
  st_get_mint_quote : string -> M W StoreErr (option WMintQuote);
  st_get_mint_quotes : M W StoreErr (list WMintQuote);
  st_remove_mint_quote : string -> M W StoreErr unit;
  st_add_melt_quote : WMeltQuote -> M W StoreErr unit;
  st_get_melt_quote : string -> M W StoreErr (option WMeltQuote);
  st_get_melt_quotes : M W StoreErr (list WMeltQuote);
  st_remove_melt_quote : string -> M W StoreErr unit;
  st_add_keys : KeySet -> M W StoreErr unit;
  st_get_keys : Id -> M W StoreErr (option Keys);
  st_remove_keys : Id -> M W StoreErr unit;
  st_update_proofs : list ProofInfo -> list pubkey -> M W StoreErr unit;
  st_get_proofs : option MintUrl -> option Amount.CurrencyUnit -> option (list Nut07.State) ->
    option (list Nut11.SpendingConditions) -> M W StoreErr (list ProofInfo);
  st_get_balance : option MintUrl -> option Amount.CurrencyUnit -> option (list Nut07.State) -> M W StoreErr N;
  st_update_proofs_state : list pubkey -> Nut07.State -> M W StoreErr unit;
  st_increment_keyset_counter : Id -> N -> M W StoreErr N;
  st_add_transaction : Transaction -> M W StoreErr unit;
  st_get_transaction : digest -> M W StoreErr (option Transaction);
  st_list_transactions : option MintUrl -> option TransactionDirection -> option Amount.CurrencyUnit ->
    M W StoreErr (list Transaction);
  st_remove_transaction : digest -> M W StoreErr unit;
}.

Module WalletStore.

(** The stored proofs less those whose key is removed. *)
Definition without {CR : Crypto} (removed : list pubkey) (l : list ProofInfo) : list ProofInfo :=
  filter (fun p => pi_y p ∉ removed) l.

(** New proofs: their keys are new to the store and are not removed, and their
    amounts fit the stores' signed numbers. *)
Definition fresh {CR : Crypto} (added : list ProofInfo) (removed : list pubkey) (l : list ProofInfo) : Prop :=
  NoDup (pi_y <$> added) /\ forall p, p ∈ added -> (pi_y p ∉ removed) /\ (pi_y p ∉ (pi_y <$> l)) /\ amount (pi_proof p) <= I64_MAX.

(** The proofs of a mint and a unit that are in one of the states. *)
Definition wanted {CR : Crypto} (url : MintUrl) (unit : Amount.CurrencyUnit) (states : list Nut07.State) (p : ProofInfo) : Prop :=
  pi_mint_url p = url /\ pi_unit p = unit /\ pi_state p ∈ states.
#[export] Instance wanted_dec {CR : Crypto} url unit states p : Decision (wanted url unit states p).
Proof. unfold wanted. apply _. Defined.

(** Maps that are read in the order of their keys' bytes ([BTreeMap], the tables
    of redb). *)
Definition row_le {K V} (enc : K -> string) (a b : K * V) : Prop := String.leb (enc a.1) (enc b.1) = true.
#[export] Instance row_le_dec {K V} (enc : K -> string) : RelDecision (row_le (V:=V) enc).
Proof. intros a b. unfold row_le. apply _. Defined.
Definition rows {K V} `{Countable K} (enc : K -> string) (m : gmap K V) : list (K * V) :=
  merge_sort (row_le enc) (map_to_list m).
Definition text (s : string) : string := s.

Lemma rows_perm {K V} `{Countable K} (enc : K -> string) (m : gmap K V) : rows enc m ≡ₚ map_to_list m.
Proof. unfold rows. apply merge_sort_Permutation. Qed.

(** Two stores with the same proofs, one for each key. *)
Lemma perm_by_key {CR : Crypto} (l l' : list ProofInfo) :
  NoDup (pi_y <$> l) -> NoDup (pi_y <$> l') -> (forall i, i ∈ l <-> i ∈ l') -> l ≡ₚ l'.
Proof. intros H1%NoDup_fmap_1 H2%NoDup_fmap_1 H. by apply NoDup_Permutation. Qed.

(** The filter of [ProofInfo] and the one of the interface. *)
Lemma matches_wanted {CR : Crypto} u c s p : matches_conditions p (Some u) (Some c) (Some s) None = true <-> wanted u c s p.
Proof. unfold matches_conditions, wanted, matches. rewrite !andb_true_iff, !bool_decide_eq_true. by intuition. Qed.
Lemma matches_subset {CR : Crypto} u c s sc p : matches_conditions p (Some u) (Some c) (Some s) sc = true -> wanted u c s p.
Proof. intros H. apply matches_wanted. unfold matches_conditions in *. rewrite !andb_true_iff in *. by intuition. Qed.

(** Rows that are written one after the other, each under its own key. *)
Lemma fold_insert_Some {K V A} `{Countable K} (key : A -> K) (val : A -> V) (l : list A) : forall (m : gmap K V) k v, NoDup (key <$> l) ->
  fold_left (fun m a => <[key a := val a]> m) l m !! k = Some v <->
  (exists a, a ∈ l /\ key a = k /\ val a = v) \/ ((k ∉ (key <$> l)) /\ m !! k = Some v).
Proof.
  induction l as [|a l IH]; intros m k v Hnd; cbn [fold_left].
  { split; [intros Hm; right; split; [set_solver|done]|]. intros [(a & Ha & _)|[_ Hm]]; [by apply not_elem_of_nil in Ha|done]. }
  rewrite fmap_cons, NoDup_cons in Hnd. destruct Hnd as [Hn Hnd]. rewrite IH by done. rewrite fmap_cons.
  setoid_rewrite elem_of_cons. destruct (decide (key a = k)) as [<-|Hne].
  - rewrite lookup_insert_eq. split.
    + intros [(b & Hb & Hk & Hv)|[_ [= <-]]]; [|by eauto 6]. destruct Hn. rewrite <- Hk. by apply list_elem_of_fmap_2.
    + intros [(b & [->|Hb] & Hk & <-)|[Hk _]]; [by right| |by destruct Hk; left]. destruct Hn. rewrite <- Hk. by apply list_elem_of_fmap_2.
  - rewrite lookup_insert_ne by done. split.
    + intros [(b & Hb & Hk & Hv)|[Hk Hm]]; [by eauto 6|]. right. split; [|done]. by intros [->|].
    + intros [(b & [->|Hb] & Hk & Hv)|[Hk Hm]]; [done|by eauto 6|right]. auto.
Qed.

End WalletStore.

Import WalletStore.

(** The views. *)
Class WalletView (CR : Crypto) (W : Type) := {
  proofs_of : W -> list ProofInfo;
  counter_of : W -> Id -> N;
  counted : W -> Id -> Prop;
}.

(** What an operation that has nothing to do with counters, or with proofs and
    counters, leaves alone. *)
Definition counts_kept {CR : Crypto} {W} {WV : WalletView CR W} : relation W :=
  fun w w' => (forall id, counter_of w' id = counter_of w id) /\ (forall id, counted w id -> counted w' id).
Definition quiet {CR : Crypto} {W} {WV : WalletView CR W} : relation W := fun w w' => proofs_of w' = proofs_of w /\ counts_kept w w'.

#[export] Instance counts_kept_preorder {CR : Crypto} {W} {WV : WalletView CR W} : PreOrder counts_kept.
Proof.
  split; [by intros w|]. intros w1 w2 w3 [H1 H2] [H3 H4]. split; [|by auto]. intros id. by rewrite H3.
Qed.
#[export] Instance quiet_preorder {CR : Crypto} {W} {WV : WalletView CR W} : PreOrder quiet.
Proof. split; [by intros w|]. intros w1 w2 w3 [H1 H2] [H3 H4]. split; [congruence|by etrans]. Qed.

(** A change of URL: the proofs, their keys and states, and the counters. *)
Definition coin_of {CR : Crypto} (p : ProofInfo) : pubkey * Proof * Nut07.State := (pi_y p, pi_proof p, pi_state p).
Definition moved {CR : Crypto} {W} {WV : WalletView CR W} : relation W :=
  fun w w' => coin_of <$> proofs_of w' ≡ₚ coin_of <$> proofs_of w /\ counts_kept w w'.
#[export] Instance moved_preorder {CR : Crypto} {W} {WV : WalletView CR W} : PreOrder moved.
Proof. split; [by intros w|]. intros w1 w2 w3 [H1 H2] [H3 H4]. split; by etrans. Qed.

Class WalletStoreLaws (CR : Crypto) (MintInfo W StoreErr : Type) (ST : WalletStore CR MintInfo W StoreErr)
    (WV : WalletView CR W) : Prop := {
  add_mint_quiet u i : keeps quiet (st_add_mint u i);
  get_mint_quiet u : keeps quiet (st_get_mint u);
  get_mints_quiet : keeps quiet st_get_mints;
  add_mint_keysets_quiet u l : keeps quiet (st_add_mint_keysets u l);
  add_mint_keysets_counted u l w w' : st_add_mint_keysets u l w = (Ok tt, w') -> Forall (fun k => counted w' (ki_id k)) l;
  get_mint_keysets_quiet u : keeps quiet (st_get_mint_keysets u);
  get_keyset_by_id_quiet id : keeps quiet (st_get_keyset_by_id id);
  add_mint_quote_quiet q : keeps quiet (st_add_mint_quote q);
  get_mint_quote_quiet i : keeps quiet (st_get_mint_quote i);
  get_mint_quotes_quiet : keeps quiet st_get_mint_quotes;
  remove_mint_quote_quiet i : keeps quiet (st_remove_mint_quote i);
  add_melt_quote_quiet q : keeps quiet (st_add_melt_quote q);
  get_melt_quote_quiet i : keeps quiet (st_get_melt_quote i);
  get_melt_quotes_quiet : keeps quiet st_get_melt_quotes;
  remove_melt_quote_quiet i : keeps quiet (st_remove_melt_quote i);
  add_keys_quiet k : keeps quiet (st_add_keys k);
  get_keys_quiet id : keeps quiet (st_get_keys id);
  remove_keys_quiet id : keeps quiet (st_remove_keys id);
  get_proofs_quiet u c s sc : keeps quiet (st_get_proofs u c s sc);
  get_balance_quiet u c s : keeps quiet (st_get_balance u c s);
  add_transaction_quiet t : keeps quiet (st_add_transaction t);
  get_transaction_quiet t : keeps quiet (st_get_transaction t);
  list_transactions_quiet u d c : keeps quiet (st_list_transactions u d c);
  remove_transaction_quiet t : keeps quiet (st_remove_transaction t);
  (** Removing a mint can remove counters, and changes none; a change of URL
      changes URLs only. *)
  remove_mint_kept u w w' r : st_remove_mint u w = (r, w') ->
    proofs_of w' = proofs_of w /\ forall id, counted w' id -> counted w id /\ counter_of w' id = counter_of w id;
  update_mint_url_moved u u' : keeps moved (st_update_mint_url u u');
  (** The proofs. *)
  get_proofs_wanted u c s w l w' : st_get_proofs (Some u) (Some c) (Some s) None w = (Ok l, w') ->
    l ≡ₚ filter (wanted u c s) (proofs_of w);
  get_proofs_stored u c s sc w l w' : st_get_proofs (Some u) (Some c) (Some s) sc w = (Ok l, w') ->
    l ⊆ filter (wanted u c s) (proofs_of w);
  update_proofs_Ok added removed w w' : fresh added removed (proofs_of w) ->
    st_update_proofs added removed w = (Ok tt, w') -> proofs_of w' ≡ₚ without removed (proofs_of w) ++ added;
  update_proofs_counts added removed : keeps counts_kept (st_update_proofs added removed);
  update_proofs_state_Ok ys st w w' : st_update_proofs_state ys st w = (Ok tt, w') ->
    proofs_of w' ≡ₚ (restate ys st <$> proofs_of w);
  update_proofs_state_counts ys st : keeps counts_kept (st_update_proofs_state ys st);
  (** The counters; the store counts modulo the width of a [u32]. *)
  increment_Ok id n w c w' : counted w id -> st_increment_keyset_counter id n w = (Ok c, w') ->
    c = (counter_of w id + n) mod 2 ^ 32 /\ counter_of w' id = c;
  increment_proofs id n w w' r : st_increment_keyset_counter id n w = (r, w') ->
    proofs_of w' = proofs_of w /\ (forall id', id' <> id -> counter_of w' id' = counter_of w id') /\
    (forall id', counted w id' -> counted w' id');
}.

#[export] Hint Resolve add_mint_quiet get_mint_quiet get_mints_quiet remove_keys_quiet add_mint_keysets_quiet get_mint_keysets_quiet get_keyset_by_id_quiet
  add_mint_quote_quiet get_mint_quote_quiet get_mint_quotes_quiet remove_mint_quote_quiet add_melt_quote_quiet
  get_melt_quote_quiet get_melt_quotes_quiet remove_melt_quote_quiet add_keys_quiet get_keys_quiet get_proofs_quiet
  get_balance_quiet add_transaction_quiet get_transaction_quiet list_transactions_quiet remove_transaction_quiet
  update_proofs_counts update_proofs_state_counts : keeps.

Lemma quiet_counts {CR : Crypto} {W} {WV : WalletView CR W} {E A} (c : M W E A) : keeps quiet c -> keeps counts_kept c.
Proof. apply keeps_weaken. by intros s s' [_ ?]. Qed.
Lemma quiet_moved {CR : Crypto} {W} {WV : WalletView CR W} {E A} (c : M W E A) : keeps quiet c -> keeps moved c.
Proof. apply keeps_weaken. intros s s' [H ?]. split; [by rewrite H|done]. Qed.
#[export] Hint Resolve quiet_counts : keeps.
