(* ===== verification/BrowserStore.v ===== *)
(** * The checker's store behind the wallet's interface

    [LocalStorageWalletDatabase] (web/nut-10-checker/src/wallet_db.rs) as an
    instance of the trait, and its laws.  A change is made in memory before it
    is written, so also an operation that fails moves the views as its
    description says. *)
From stdpp Require Import base numbers list sorting strings gmap.
From S2P Require Import Prelude Amount Hex Nuts KeysetId Conditions States MintUrl WalletDb Posts WalletStore.
Import Nut00 KeysetId WalletDb WalletStore.

Local Open Scope N_scope.

Module BrowserStore.
Section instance.
Context {CR : Crypto} {MintInfo : Type} {J : StateJson CR MintInfo} {S : Type}.

#[global] Instance browser_store : WalletStore CR MintInfo (Page MintInfo S) StoreError := {
  st_add_mint := add_mint;
  st_remove_mint := remove_mint;
  st_get_mint := get_mint;
  st_get_mints := get_mints;
  st_update_mint_url := update_mint_url;
  st_add_mint_keysets := add_mint_keysets;
  st_get_mint_keysets := get_mint_keysets;
  st_get_keyset_by_id := get_keyset_by_id;
  st_add_mint_quote := add_mint_quote;
  st_get_mint_quote := get_mint_quote;
  st_get_mint_quotes := get_mint_quotes;
  st_remove_mint_quote := remove_mint_quote;
  st_add_melt_quote := add_melt_quote;
  st_get_melt_quote := get_melt_quote;
  st_get_melt_quotes := get_melt_quotes;
  st_remove_melt_quote := remove_melt_quote;
  st_add_keys keyset := add_keys (id_to_string (kset_id keyset)) (kset_keys keyset);
  st_get_keys := get_keys;
  st_remove_keys := remove_keys;
  st_update_proofs := update_proofs;
  st_get_proofs := get_proofs;
  st_get_balance := get_balance;
  st_update_proofs_state := update_proofs_state;
  st_increment_keyset_counter := increment_keyset_counter;
  st_add_transaction := add_transaction;
  st_get_transaction := get_transaction;
  st_list_transactions := list_transactions;
  st_remove_transaction := remove_transaction;
}.

#[global] Instance browser_view : WalletView CR (Page MintInfo S) := {
  proofs_of p := ws_proofs (pg_state p);
  counter_of p id := default 0 (ws_keyset_counters (pg_state p) !! id);
  counted _ _ := True;
}.

(** What a write leaves in memory. *)
Lemma save_state (p : Page MintInfo S) : pg_state (snd (save_snapshot p)) = pg_state p.
Proof.
  unfold save_snapshot, mseq, mgets, mlift. cbn. destruct (state_to_json (pg_state p)); cbn; [|done].
  unfold storage. by destruct (pg_faults p) as [|[] ?].
Qed.

Lemma update_state f (p : Page MintInfo S) : pg_state (snd (update f p)) = f (pg_state p).
Proof. unfold update, mseq, mmodify. by rewrite save_state. Qed.

Lemma update_run f (p p' : Page MintInfo S) r : update f p = (r, p') -> pg_state p' = f (pg_state p).
Proof. intros H. rewrite <- update_state. by rewrite H. Qed.

Lemma update_quiet f : (forall s, ws_proofs (f s) = ws_proofs s) -> (forall s, ws_keyset_counters (f s) = ws_keyset_counters s) ->
  keeps quiet (update f : M (Page MintInfo S) StoreError unit).
Proof.
  intros Hp Hc p. unfold quiet, counts_kept. cbn [proofs_of counter_of counted browser_view].
  rewrite update_state, Hp. split; [done|]. split; [|done]. intros id. by rewrite Hc.
Qed.

Lemma query_quiet {A} (f : WalletState MintInfo -> A) : keeps quiet (query f : M (Page MintInfo S) StoreError A).
Proof. by apply keeps_gets, _. Qed.

#[local] Hint Resolve query_quiet : keeps.
#[local] Hint Extern 1 (keeps quiet (update _)) => (apply update_quiet; by intros []) : keeps.

Lemma browser_increment_run id n (p p' : Page MintInfo S) r : increment_keyset_counter id n p = (r, p') ->
  let c := (default 0 (ws_keyset_counters (pg_state p) !! id) + n) mod 2 ^ 32 in
  (forall c', r = Ok c' -> c' = c) /\
  pg_state p' = with_counters (pg_state p) (<[id := c]> (ws_keyset_counters (pg_state p))).
Proof.
  unfold increment_keyset_counter. intros H. apply seq_run in H as [(s & p1 & [= <- <-] & H)|[(e & [=] & _)|[[=] _]]].
  apply seq_run in H as [([] & p1 & H%update_run & [= <- <-])|[(e & H%update_run & ->)|[H%update_run ->]]].
  all: by rewrite H; split; [intros c' [= <-]|].
Qed.

(** The filter of the store and the one of the interface. *)
Lemma passes_wanted u c s p : passes p (Some u) (Some c) (Some s) None = true <-> wanted u c s p.
Proof.
  unfold passes, wanted, matches. rewrite !andb_true_iff, !bool_decide_eq_true. by intuition.
Qed.

#[global] Instance browser_laws : WalletStoreLaws CR MintInfo (Page MintInfo S) StoreError browser_store browser_view.
Proof.
  constructor; unfold st_add_mint, st_remove_mint, st_get_mint, st_get_mints, st_update_mint_url, st_remove_keys, st_add_mint_keysets, st_get_mint_keysets, st_get_keyset_by_id,
    st_add_mint_quote, st_get_mint_quote, st_get_mint_quotes, st_remove_mint_quote, st_add_melt_quote, st_get_melt_quote,
    st_get_melt_quotes, st_remove_melt_quote, st_add_keys, st_get_keys, st_get_proofs, st_get_balance, st_add_transaction,
    st_get_transaction, st_list_transactions, st_remove_transaction, st_update_proofs, st_update_proofs_state,
    st_increment_keyset_counter, proofs_of, counter_of, counted, browser_store, browser_view.
  all: try (intros; unfold get_mint, get_mints, get_mint_keysets, get_keyset_by_id, get_mint_quote, get_mint_quotes, get_melt_quote,
    get_melt_quotes, get_keys, get_proofs, get_transaction, list_transactions; apply query_quiet).
  all: try (intros; unfold add_mint, add_mint_keysets, add_mint_quote, remove_mint_quote, add_melt_quote, remove_melt_quote,
    add_keys, remove_keys, add_transaction, remove_transaction; apply update_quiet; by intros []).
  - intros u l w w' _. by apply Forall_forall.
  - intros u c s. unfold get_balance, get_proofs. keep.
  - intros u w w' r H%update_run. rewrite H. done.
  - intros u u'. apply quiet_moved. unfold update_mint_url. apply update_quiet; intros s; by destruct (ws_mints s !! u).
  - intros u c s w l w'. unfold get_proofs, query, mgets. intros [= <- <-]. by rewrite (list_filter_iff _ _ _ (passes_wanted u c s)).
  - intros u c s sc w l w'. unfold get_proofs, query, mgets. intros [= <- <-] p [Hp Hin]%list_elem_of_filter.
    apply list_elem_of_filter. split; [|done]. apply passes_wanted. unfold passes in *. rewrite !andb_true_iff in *. by intuition.
  - intros added removed w w' _ H. apply update_run in H. by rewrite H.
  - intros added removed p. unfold update_proofs, counts_kept. cbn [counter_of counted browser_view].
    rewrite update_state. by split.
  - intros ys st w w' H. apply update_run in H. by rewrite H.
  - intros ys st p. unfold update_proofs_state, counts_kept. cbn [counter_of counted browser_view].
    rewrite update_state. by split.
  - intros id n w c w' _ H. apply browser_increment_run in H as [Hc Hs]. specialize (Hc c eq_refl).
    split; [done|]. rewrite Hs. unfold with_counters, ws_keyset_counters at 1. by rewrite lookup_insert_eq.
  - intros id n w w' r [_ Hs]%browser_increment_run. rewrite Hs. cbn. split_and!; [done| |done].
    intros id' Hne. by rewrite lookup_insert_ne.
Qed.

End instance.
End BrowserStore.
