(* ===== verification/Token.v ===== *)
(** * Tokens (crates/cashu/src/nuts/nut00/token.rs)

    A token is the form in which proofs leave a wallet: a mint, a unit, a memo
    and proofs, with short keyset ids.  Version 3 is printed as JSON, version 4
    as CBOR, both in base64.  The three codecs ([serde_json], [ciborium] and
    [base64]) are the class [TokenCodec]; its laws are that reading undoes
    writing, for tokens whose URLs are in normal form.  [iter] is the order in
    which the hash map of proofs by keyset is read.  A string that is not the
    printed form of a keyset id does not occur where an id is expected; it is a
    [Panic] here. *)
From Stdlib Require Import Ascii.
From stdpp Require Import base numbers list sorting strings gmap.
From S2P Require Import Prelude Amount Hex Nuts KeysetId Bdhke Conditions States MintUrl WalletDb.
Import Nut00 KeysetId Nut11 WalletDb.

Local Open Scope N_scope.
Local Open Scope res_scope.

(** The id of a printed form. *)
Definition key_of (id : Id) : option KeyId :=
  match id_try_from id with
  | Ok kid => if decide (id_to_string kid = id) then Some kid else None
  | _ => None
  end.

Module Token.

(** ** Data *)
Section data.
Context {CR : Crypto}.

Record ProofV3 := mkProofV3 {
  p3_amount : N;
  p3_keyset_id : ShortKeysetId;
  p3_secret : string;
  p3_c : pubkey;
  p3_witness : option Witness;
  p3_dleq : option ProofDleq;
}.

Record ProofV4 := mkProofV4 {
  p4_amount : N;
  p4_secret : string;
  p4_c : pubkey;
  p4_witness : option Witness;
  p4_dleq : option ProofDleq;
}.

Record TokenV3Token := mkTokenV3Token { t3_mint : MintUrl; t3_proofs : list ProofV3 }.
Record TokenV3 := mkTokenV3 {
  v3_token : list TokenV3Token;
  v3_memo : option string;
  v3_unit : option Amount.CurrencyUnit;
}.

Record TokenV4Token := mkTokenV4Token { t4_keyset_id : ShortKeysetId; t4_proofs : list ProofV4 }.
Record TokenV4 := mkTokenV4 {
  v4_mint_url : MintUrl;
  v4_unit : Amount.CurrencyUnit;
  v4_memo : option string;
  v4_token : list TokenV4Token;
}.

Inductive Token := TV3 (t : TokenV3) | TV4 (t : TokenV4).

End data.

(** URLs and units in the form in which they are read back. *)
Definition v3_canonical {CR : Crypto} (t : TokenV3) : Prop :=
  Forall (fun k => canonical (t3_mint k)) (v3_token t) /\ forall u, v3_unit t = Some u -> unit_canonical u.
Definition v4_canonical {CR : Crypto} (t : TokenV4) : Prop := canonical (v4_mint_url t) /\ unit_canonical (v4_unit t).

End Token.
Import Token.

(** The codecs: base64 with the URL-safe alphabet and indifferent padding, JSON
    and CBOR, and whether bytes are UTF-8. *)
Class TokenCodec (CR : Crypto) := {
  b64_encode : string -> string;
  b64_decode : string -> option string;
  is_utf8 : string -> bool;
  v3_to_json : TokenV3 -> option string;
  v3_from_json : string -> option TokenV3;
  v4_to_cbor : TokenV4 -> option string;
  v4_from_cbor : string -> option TokenV4;
}.

Class TokenCodecLaws (CR : Crypto) (TC : TokenCodec CR) : Prop := {
  b64_roundtrip s : b64_decode (b64_encode s) = Some s;
  json_utf8 t j : v3_to_json t = Some j -> is_utf8 j = true;
  v3_json_roundtrip t j : v3_canonical t -> v3_to_json t = Some j -> v3_from_json j = Some t;
  v4_cbor_roundtrip t c : v4_canonical t -> v4_to_cbor t = Some c -> v4_from_cbor c = Some t;
}.

Module TokenOps.
Section defs.
Context {CR : Crypto} {SD : Serde} {TC : TokenCodec CR}.
Context (iter : forall A : Type, list (Id * A) -> list (Id * A)).

Inductive Error :=
| UnsupportedToken
| UnsupportedUnit
| ProofsRequired
| DuplicateProofs
| Base64Failed
| Utf8Failed
| JsonFailed
| CborFailed
| KeysetFailed (e : KeysetId.Error)
| TAmountFailed (e : Amount.Error).

(** ** Proofs in tokens (nut00/mod.rs) *)

Definition p3_into_proof (self : ProofV3) (keyset_id : Id) : Proof :=
  mkProof (p3_amount self) keyset_id (p3_secret self) (p3_c self) (p3_witness self) (p3_dleq self).
Definition p4_into_proof (self : ProofV4) (keyset_id : Id) : Proof :=
  mkProof (p4_amount self) keyset_id (p4_secret self) (p4_c self) (p4_witness self) (p4_dleq self).

Definition short_form (id : Id) : res Error ShortKeysetId :=
  match key_of id with Some k => map_err KeysetFailed (short_of_id k) | None => Panic end.

Definition p3_from_proof (p : Proof) : res Error ProofV3 :=
  let? short := short_form (keyset_id p) in
  Ok (mkProofV3 (amount p) short (secret p) (c p) (witness p) (dleq p)).
Definition p4_from_proof (p : Proof) : ProofV4 := mkProofV4 (amount p) (secret p) (c p) (witness p) (dleq p).
Definition p4_from_p3 (p : ProofV3) : ProofV4 := mkProofV4 (p3_amount p) (p3_secret p) (p3_c p) (p3_witness p) (p3_dleq p).

(** ** Construction *)

(** [acc.entry(key).and_modify(push).or_insert(vec![..])], in the order of the
    first insertion. *)
Fixpoint group_add {K A} `{EqDecision K} (k : K) (x : A) (acc : list (K * list A)) : list (K * list A) :=
  match acc with
  | [] => [(k, [x])]
  | (k', l) :: acc' => if decide (k' = k) then (k', l ++ [x]) :: acc' else (k', l) :: group_add k x acc'
  end.
Definition group_by {K A} `{EqDecision K} (f : A -> K) (l : list A) : list (K * list A) :=
  fold_left (fun acc x => group_add (f x) x acc) l [].

Definition TokenV4Token_new (keyset_id : Id) (proofs : list Proof) : res Error TokenV4Token :=
  let? short_id := short_form keyset_id in
  Ok (mkTokenV4Token short_id (p4_from_proof <$> proofs)).

Definition Token_new (mint_url : MintUrl) (proofs : list Proof) (memo : option string) (unit : Amount.CurrencyUnit)
    : res Error Token :=
  let? tokens := collect (fun kp => TokenV4Token_new kp.1 kp.2) (iter _ (group_by keyset_id proofs)) in
  Ok (TV4 (mkTokenV4 mint_url unit memo tokens)).

Definition TokenV3_new (mint_url : MintUrl) (proofs : list Proof) (memo : option string) (unit : option Amount.CurrencyUnit)
    : res Error TokenV3 :=
  match proofs with
  | [] => Err ProofsRequired
  | _ => let? ps := collect p3_from_proof proofs in Ok (mkTokenV3 [mkTokenV3Token mint_url ps] memo unit)
  end.

(** ** Contents *)

(** [Id::from_short_keyset_id] over the keysets of the mint. *)
Definition long_form (short : ShortKeysetId) (mint_keysets : list KeySetInfo) : res Error Id :=
  let? infos := collect (fun k => match key_of (ki_id k) with Some i => Ok i | None => Panic end) mint_keysets in
  let? i := map_err KeysetFailed (from_short_keyset_id short infos) in
  Ok (id_to_string i).

Definition v3_all_proofs (self : TokenV3) : list ProofV3 := v3_token self ≫= t3_proofs.
Definition v3_proofs (self : TokenV3) (mint_keysets : list KeySetInfo) : res Error (list Proof) :=
  collect (fun p => let? long_id := long_form (p3_keyset_id p) mint_keysets in Ok (p3_into_proof p long_id)) (v3_all_proofs self).

Fixpoint v4_loop (tokens : list TokenV4Token) (mint_keysets : list KeySetInfo) : res Error (list Proof) :=
  match tokens with
  | [] => Ok []
  | t :: tokens' =>
      let? long_id := long_form (t4_keyset_id t) mint_keysets in
      let? rest := v4_loop tokens' mint_keysets in
      Ok (((fun p => p4_into_proof p long_id) <$> t4_proofs t) ++ rest)
  end.
Definition v4_proofs (self : TokenV4) (mint_keysets : list KeySetInfo) : res Error (list Proof) :=
  v4_loop (v4_token self) mint_keysets.

Definition proofs (self : Token) (mint_keysets : list KeySetInfo) : res Error (list Proof) :=
  match self with TV3 t => v3_proofs t mint_keysets | TV4 t => v4_proofs t mint_keysets end.

Definition amt {A} (r : res Amount.Error A) : res Error A := map_err TAmountFailed r.

(** The sets of proofs are compared field by field: [Hash] is of the secret
    alone, [Eq] is derived. *)
Definition v3_value `{EqDecision ProofV3} (self : TokenV3) : res Error N :=
  let all := v3_all_proofs self in
  let? _ := ensure (Nat.eqb (length (remove_dups all)) (length all)) DuplicateProofs in
  let? sums := amt (collect (fun t => Amount.try_sum (p3_amount <$> t3_proofs t)) (v3_token self)) in
  amt (Amount.try_sum sums).
Definition v4_value `{EqDecision ProofV4} (self : TokenV4) : res Error N :=
  let all := v4_token self ≫= t4_proofs in
  let? _ := ensure (Nat.eqb (length (remove_dups all)) (length all)) DuplicateProofs in
  let? sums := amt (collect (fun t => Amount.try_sum (p4_amount <$> t4_proofs t)) (v4_token self)) in
  amt (Amount.try_sum sums).
Definition value `{EqDecision ProofV3} `{EqDecision ProofV4} (self : Token) : res Error N :=
  match self with TV3 t => v3_value t | TV4 t => v4_value t end.

Definition memo (self : Token) : option string := match self with TV3 t => v3_memo t | TV4 t => v4_memo t end.
Definition unit (self : Token) : option Amount.CurrencyUnit := match self with TV3 t => v3_unit t | TV4 t => Some (v4_unit t) end.
Definition mint_urls (self : TokenV3) : list MintUrl := t3_mint <$> v3_token self.
Definition is_multi_mint (self : TokenV3) : bool := Nat.ltb 1 (length (v3_token self)).
Definition mint_url (self : Token) : res Error MintUrl :=
  match self with
  | TV3 t => let urls := mint_urls t in
      let? _ := ensure (Nat.eqb (length urls) 1) UnsupportedToken in
      ok_or UnsupportedToken (head urls)
  | TV4 t => Ok (v4_mint_url t)
  end.

(** ** Spending conditions *)

Definition token_secrets (self : Token) : list string :=
  match self with
  | TV3 t => p3_secret <$> v3_all_proofs t
  | TV4 t => p4_secret <$> (v4_token t ≫= t4_proofs)
  end.

(** [if let Ok(cond) = SpendingConditions::try_from(secret)] over the secrets;
    reading one can panic. *)
Definition conditions_of (self : Token) : res Error (list SpendingConditions) :=
  let? l := collect (fun s => match sc_try_from_secret s with
                              | Ok cond => Ok [cond] | Err _ => Ok [] | Panic => Panic
                              end) (token_secrets self) in
  Ok (mjoin l).

(** The hash sets are lists without duplicates. *)
Definition spending_conditions (self : Token) : res Error (list SpendingConditions) :=
  let? l := conditions_of self in Ok (remove_dups l).

Definition p2pk_keys (f : SpendingConditions -> option (list pubkey)) (self : Token) : res Error (list pubkey) :=
  let? l := conditions_of self in
  Ok (remove_dups (l ≫= (fun cond => if bool_decide (sc_kind cond = Nut10.P2PK) then default [] (f cond) else []))).
Definition p2pk_pubkeys (self : Token) : res Error (list pubkey) := p2pk_keys sc_pubkeys self.
Definition p2pk_refund_pubkeys (self : Token) : res Error (list pubkey) := p2pk_keys sc_refund_keys self.
Definition htlc_hashes (self : Token) : res Error (list digest) :=
  let? l := conditions_of self in
  Ok (remove_dups (l ≫= (fun cond => match cond with HTLCConditions data _ => [data] | _ => [] end))).
(** A [BTreeSet] is read in ascending order. *)
Definition locktimes (self : Token) : res Error (list N) :=
  let? l := conditions_of self in
  Ok (merge_sort N.le (remove_dups (l ≫= (fun cond => match sc_locktime cond with Some t => [t] | None => [] end)))).

(** ** Printing and reading *)

(** [strip_prefix]. *)
Definition strip_prefix (p s : string) : option string :=
  if String.prefix p s then Some (String.substring (String.length p) (String.length s - String.length p) s) else None.

Definition v3_to_string (self : TokenV3) : res Error string :=
  let? json := ok_or JsonFailed (v3_to_json self) in Ok ("cashuA" ++ b64_encode json)%string.
Definition v4_to_string (self : TokenV4) : res Error string :=
  let? data := ok_or CborFailed (v4_to_cbor self) in Ok ("cashuB" ++ b64_encode data)%string.
Definition to_string (self : Token) : res Error string :=
  match self with TV3 t => v3_to_string t | TV4 t => v4_to_string t end.

Definition v3_read (s : string) : res Error TokenV3 :=
  let? decoded := ok_or Base64Failed (b64_decode s) in
  let? _ := ensure (is_utf8 decoded) Utf8Failed in
  ok_or JsonFailed (v3_from_json decoded).
Definition v4_read (s : string) : res Error TokenV4 :=
  let? decoded := ok_or Base64Failed (b64_decode s) in
  ok_or CborFailed (v4_from_cbor decoded).
Definition v3_from_str (s : string) : res Error TokenV3 :=
  let? s := ok_or UnsupportedToken (strip_prefix "cashuA" s) in v3_read s.
Definition v4_from_str (s : string) : res Error TokenV4 :=
  let? s := ok_or UnsupportedToken (strip_prefix "cashuB" s) in v4_read s.
Definition from_str (s : string) : res Error Token :=
  match strip_prefix "cashuA" s, strip_prefix "cashuB" s with
  | Some s, None => let? t := v3_read s in Ok (TV3 t)
  | None, Some s => let? t := v4_read s in Ok (TV4 t)
  | _, _ => Err UnsupportedToken
  end.

(** Raw bytes. *)
Definition v4_to_raw_bytes (self : TokenV4) : res Error string :=
  let? data := ok_or CborFailed (v4_to_cbor self) in Ok ("crawB" ++ data)%string.
Definition to_raw_bytes (self : Token) : res Error string :=
  match self with TV3 _ => Err UnsupportedToken | TV4 t => v4_to_raw_bytes t end.
Definition v4_try_from_bytes (bytes : string) : res Error TokenV4 :=
  let? _ := ensure (Nat.leb 5 (String.length bytes)) UnsupportedToken in
  let prefix := String.substring 0 5 bytes in
  let? _ := ensure (is_utf8 prefix) Utf8Failed in
  let? _ := ensure (String.eqb prefix "crawB") UnsupportedToken in
  ok_or CborFailed (v4_from_cbor (String.substring 5 (String.length bytes - 5) bytes)).
Definition try_from_bytes (bytes : string) : res Error Token := let? t := v4_try_from_bytes bytes in Ok (TV4 t).

(** ** Conversions *)

Definition v3_of_v4 (token : TokenV4) : TokenV3 :=
  let ps := v4_token token ≫= (fun t =>
    (fun p => mkProofV3 (p4_amount p) (t4_keyset_id t) (p4_secret p) (p4_c p) (p4_witness p) (p4_dleq p)) <$> t4_proofs t) in
  mkTokenV3 [mkTokenV3Token (v4_mint_url token) ps] (v4_memo token) (Some (v4_unit token)).

Definition to_v3_string (self : Token) : res Error string :=
  v3_to_string (match self with TV3 t => t | TV4 t => v3_of_v4 t end).

#[global] Instance ShortKeysetId_eq_dec : EqDecision ShortKeysetId.
Proof. solve_decision. Defined.

(** The map of proofs by short id; [iter_short] is the order in which it is read. *)
Definition v4_of_v3 (iter_short : list (ShortKeysetId * list ProofV3) -> list (ShortKeysetId * list ProofV3)) (token : TokenV3)
    : res Error TokenV4 :=
  let mint_urls := mint_urls token in
  let ps := v3_all_proofs token in
  let? _ := ensure (Nat.eqb (length mint_urls) 1) UnsupportedToken in
  let? mint_url := ok_or UnsupportedToken (head mint_urls) in
  let tokens := (fun kp => mkTokenV4Token kp.1 (p4_from_p3 <$> kp.2)) <$> iter_short (group_by p3_keyset_id ps) in
  let? u := ok_or UnsupportedUnit (v3_unit token) in
  Ok (mkTokenV4 mint_url u (v3_memo token) tokens).

End defs.
End TokenOps.
