(* ===== verification/TokenFacts.v ===== *)
(** * Correctness of tokens

    A printed token is read back as itself; the proofs of a token are the
    proofs it was made of, when their keysets are known and no two of them have
    the same short id; converting between the versions keeps the proofs; the
    value is the sum of the proofs. *)
From Stdlib Require Import Ascii.
From stdpp Require Import base numbers list sorting strings gmap.
From S2P Require Import Prelude Amount Hex Nuts KeysetId Bdhke Conditions States MintUrl WalletDb MintFacts Token.
Import Nut00 KeysetId Nut11 WalletDb Token TokenOps MintFacts.

Local Open Scope N_scope.
Local Open Scope res_scope.

Module TokenFacts.

Section facts.
Context {CR : Crypto} {SD : Serde} {TC : TokenCodec CR} {TL : TokenCodecLaws CR TC}.

(** ** Printing and reading *)

Lemma prefix_app p s : String.prefix p (p ++ s)%string = true.
Proof.
  induction p as [|a p IH]; [by destruct s|].
  change ((if ascii_dec a a then String.prefix p (p ++ s)%string else false) = true). by destruct (ascii_dec a a).
Qed.

Lemma substring_after p s : String.substring (String.length p) (String.length (p ++ s)%string - String.length p) (p ++ s)%string = s.
Proof.
  assert (Hl : (String.length (p ++ s) - String.length p)%nat = String.length s).
  { induction p as [|a p IH]; [apply Nat.sub_0_r|exact IH]. }
  rewrite Hl. clear Hl. induction p as [|a p IH]; [apply substring_all|exact IH].
Qed.

Lemma strip_prefix_app p s : strip_prefix p (p ++ s)%string = Some s.
Proof. unfold strip_prefix. by rewrite prefix_app, substring_after. Qed.

Definition token_canonical (t : Token) : Prop := match t with TV3 t => v3_canonical t | TV4 t => v4_canonical t end.

(** A token that is printed is read back as the same token, version 3 and
    version 4; the raw form of a version 4 token is read back too. *)
Theorem token_roundtrip t s (Hcan : token_canonical t) :
  (to_string t = Ok s -> from_str s = Ok t) /\ (to_raw_bytes t = Ok s -> is_utf8 "crawB" = true -> try_from_bytes s = Ok t).
Proof.
  destruct t as [t|t]; cbn [token_canonical to_string to_raw_bytes] in *; (split; [|try done]).
  - unfold v3_to_string. destruct (v3_to_json t) as [j|] eqn:Hj; [|done]. intros [= <-]. unfold from_str.
    rewrite strip_prefix_app. change (strip_prefix "cashuB" _) with (@None string). unfold v3_read.
    rewrite b64_roundtrip. cbn. by rewrite (json_utf8 _ _ Hj), (v3_json_roundtrip _ _ Hcan Hj).
  - unfold v4_to_string. destruct (v4_to_cbor t) as [j|] eqn:Hj; [|done]. intros [= <-]. unfold from_str.
    rewrite strip_prefix_app. change (strip_prefix "cashuA" _) with (@None string). unfold v4_read.
    rewrite b64_roundtrip. cbn. by rewrite (v4_cbor_roundtrip _ _ Hcan Hj).
  - unfold v4_to_raw_bytes. destruct (v4_to_cbor t) as [j|] eqn:Hj; [|done]. intros [= <-] Hu.
    unfold try_from_bytes, v4_try_from_bytes. pose proof (substring_after "crawB" j : String.substring 5 _ _ = j) as Hsub.
    change (String.length "crawB") with 5%nat in Hsub. rewrite Hsub.
    change (Nat.leb 5 (String.length ("crawB" ++ j))) with true.
    change (String.substring 0 5 ("crawB" ++ j)) with ("crawB" ++ String.substring 0 0 j)%string.
    rewrite substring_0_0. change ("crawB" ++ "")%string with "crawB"%string. rewrite Hu. cbn.
    by rewrite (v4_cbor_roundtrip _ _ Hcan Hj).
Qed.

(** ** Grouping *)

Lemma group_add_perm {K A} `{EqDecision K} (k : K) (x : A) acc : mjoin (group_add k x acc).*2 ≡ₚ mjoin acc.*2 ++ [x].
Proof.
  induction acc as [|[k' l] acc IH]; cbn; [done|]. destruct (decide (k' = k)); cbn.
  - rewrite <- !app_assoc. f_equiv. apply Permutation_app_comm.
  - by rewrite IH, app_assoc.
Qed.

Lemma group_add_keyed {K A} `{EqDecision K} (f : A -> K) (x : A) acc :
  Forall (fun kl => Forall (fun z => f z = kl.1) kl.2) acc -> Forall (fun kl => Forall (fun z => f z = kl.1) kl.2) (group_add (f x) x acc).
Proof.
  induction 1 as [|[k' l] acc Hl Hacc IH]; cbn; [by repeat constructor|]. destruct (decide (k' = f x)) as [->|].
  - constructor; [|done]. cbn in *. apply Forall_app. split; [done|]. by constructor.
  - by constructor.
Qed.

Lemma group_by_spec {K A} `{EqDecision K} (f : A -> K) (l : list A) :
  mjoin (group_by f l).*2 ≡ₚ l /\ Forall (fun kl => Forall (fun z => f z = kl.1) kl.2) (group_by f l).
Proof.
  unfold group_by. assert (Hgen : forall acc, Forall (fun kl => Forall (fun z => f z = kl.1) kl.2) acc ->
    let r := fold_left (fun acc x => group_add (f x) x acc) l acc in
    mjoin r.*2 ≡ₚ mjoin acc.*2 ++ l /\ Forall (fun kl => Forall (fun z => f z = kl.1) kl.2) r).
  { induction l as [|x l IH]; intros acc Hacc; cbn [fold_left]; [by rewrite app_nil_r|].
    destruct (IH (group_add (f x) x acc)) as [IH1 IH2]; [by apply group_add_keyed|]. cbv zeta. rewrite IH1, group_add_perm. by rewrite <- app_assoc. }
  destruct (Hgen []) as [H1 H2]; [constructor|]. done.
Qed.

Lemma group_by_nonempty {K A} `{EqDecision K} (f : A -> K) (l : list A) k : (k, []) ∉ group_by f l.
Proof.
  unfold group_by. assert (Hgen : forall acc, (k, []) ∉ acc -> (k, []) ∉ fold_left (fun acc x => group_add (f x) x acc) l acc).
  { induction l as [|x l IH]; intros acc Hacc; cbn [fold_left]; [done|]. apply IH. clear IH.
    induction acc as [|[k' m] acc IHa]; cbn; [by intros ?%list_elem_of_singleton|].
    apply not_elem_of_cons in Hacc as [Hne Hacc]. destruct (decide (k' = f x)); apply not_elem_of_cons; split; try done.
    - by destruct m.
    - by apply IHa. }
  apply Hgen. apply not_elem_of_nil.
Qed.

(** ** The proofs of a token *)

(** The keysets the receiver knows resolve the short form of an id. *)
Definition resolves (keysets : list KeySetInfo) (id : Id) : Prop :=
  forall short, short_form id = Ok short -> long_form short keysets = Ok id.

Lemma p4_roundtrip id ps : Forall (fun p => keyset_id p = id) ps -> (fun p => p4_into_proof p id) <$> (p4_from_proof <$> ps) = ps.
Proof. induction 1 as [|p ps <- _ IH]; [done|]. rewrite !fmap_cons, IH. by destruct p. Qed.

Lemma v4_loop_groups keysets groups tokens :
  Forall (fun kl => Forall (fun z => keyset_id z = kl.1) kl.2 /\ resolves keysets kl.1) groups ->
  collect (fun kp => TokenV4Token_new kp.1 kp.2) groups = Ok tokens -> v4_loop tokens keysets = Ok (mjoin groups.*2).
Proof.
  intros Hg. revert tokens. induction Hg as [|[id ps] groups [Hps Hr] _ IH]; intros tokens; cbn [collect]; [by intros [= <-]|].
  unfold TokenV4Token_new at 1. cbn [fst snd]. destruct (short_form id) as [sh| |] eqn:Hs; [|done..].
  destruct (collect _ groups) as [ts| |]; [|done..]. intros [= <-]. cbn [v4_loop t4_keyset_id t4_proofs].
  rewrite (Hr _ Hs), (IH ts eq_refl). cbn in Hps. by rewrite p4_roundtrip.
Qed.

(** Known keysets whose ids differ in their first seven bytes resolve each of
    their ids. *)
Lemma resolves_known keysets kids i :
  Forall2 (fun k kid => key_of (ki_id k) = Some kid) keysets kids -> Forall wf kids -> i ∈ kids ->
  (forall j, j ∈ kids -> String.substring 0 7 (to_vec (id j)) = String.substring 0 7 (to_vec (id i)) -> j = i) ->
  key_of (id_to_string i) = Some i -> resolves keysets (id_to_string i).
Proof.
  intros Hk Hwf Hin Hu Hi short. unfold short_form, long_form. rewrite Hi.
  assert (Hkids : collect (E:=Error) (fun k => match key_of (ki_id k) with Some i => Ok i | None => Panic end) keysets = Ok kids).
  { clear -Hk. induction Hk as [|k kid keysets kids Hk _ IH]; [done|]. cbn [collect]. by rewrite Hk, IH. }
  destruct (KeysetId.short_id_resolves i kids) as (s & Hs & _ & Hl); [by eapply Forall_forall in Hwf|done..|].
  rewrite Hs, Hkids. cbn. intros [= <-]. by rewrite Hl.
Qed.

Lemma resolves_listed keysets kids k :
  Forall2 (fun k kid => key_of (ki_id k) = Some kid) keysets kids -> Forall wf kids -> 
  (forall i j, i ∈ kids -> j ∈ kids -> String.substring 0 7 (to_vec (id j)) = String.substring 0 7 (to_vec (id i)) -> j = i) ->
  k ∈ keysets -> resolves keysets (ki_id k).
Proof.
  intros Hk Hwf Hu [n Hn]%list_elem_of_lookup. destruct (Forall2_lookup_l _ _ _ _ _ Hk Hn) as (i & Hi & Hki).
  assert (Hid : ki_id k = id_to_string i).
  { revert Hki. unfold key_of. destruct (id_try_from (ki_id k)) as [kid| |]; [|done..]. by case_decide; [intros [= <-]|]. }
  rewrite Hid in *. apply list_elem_of_lookup_2 in Hi. apply (resolves_known keysets kids); auto.
Qed.

(** C39. A token carries the proofs it was made of: whatever the order in which
    the proofs are grouped, a receiver who knows their keysets, none of which
    has the first seven bytes of another's id, reads the same proofs, and the
    mint, the memo and the unit. *)
Theorem token_carries_proofs iter url ps m u t keysets kids
    (Hiter : forall A (l : list (Id * A)), iter A l ≡ₚ l)
    (Hnew : Token_new iter url ps m u = Ok t)
    (Hkids : Forall2 (fun k kid => key_of (ki_id k) = Some kid) keysets kids) (Hwf : Forall wf kids)
    (Hunique : forall i j, i ∈ kids -> j ∈ kids ->
       String.substring 0 7 (to_vec (id j)) = String.substring 0 7 (to_vec (id i)) -> j = i)
    (Hids : Forall (fun p => keyset_id p ∈ ki_id <$> keysets) ps) :
  (exists ps', proofs t keysets = Ok ps' /\ ps' ≡ₚ ps) /\ mint_url t = Ok url /\ memo t = m /\ unit t = Some u.
Proof.
  assert (Hres : Forall (fun p => resolves keysets (keyset_id p)) ps).
  { eapply Forall_impl; [exact Hids|]. intros p (k & -> & Hk)%list_elem_of_fmap. by eapply resolves_listed. }
  unfold Token_new in Hnew. destruct (collect _ _) as [tokens| |] eqn:Hc; [|done..]. injection Hnew as <-. cbn. split; [|done].
  destruct (group_by_spec keyset_id ps) as [Hperm Hkeyed]. exists (mjoin (iter _ (group_by keyset_id ps)).*2). split.
  - apply (v4_loop_groups keysets) in Hc; [done|]. rewrite Hiter. rewrite Forall_forall in Hkeyed. rewrite Forall_forall in Hres. apply Forall_forall. intros [id l] Hin.
    split; [by apply Hkeyed|]. specialize (Hkeyed _ Hin). cbn in *. destruct l as [|p l]; [by apply group_by_nonempty in Hin|].
    rewrite Forall_cons in Hkeyed. destruct Hkeyed as [<- _]. apply Hres. rewrite <- Hperm.
    apply list_elem_of_join. exists (p :: l). split; [by left|]. apply list_elem_of_fmap. by exists (keyset_id p, p :: l).
  - rewrite <- Hperm at 2. by rewrite Hiter.
Qed.


(** ** Conversions *)

Lemma long_form_each short keysets long_id (ps : list ProofV4) : long_form short keysets = Ok long_id ->
  collect (fun p => let? l := long_form (p3_keyset_id p) keysets in Ok (p3_into_proof p l))
    ((fun p => mkProofV3 (p4_amount p) short (p4_secret p) (p4_c p) (p4_witness p) (p4_dleq p)) <$> ps) =
  Ok ((fun p => p4_into_proof p long_id) <$> ps).
Proof. intros Hl. induction ps as [|p ps IH]; [done|]. rewrite !fmap_cons. cbn [collect p3_keyset_id]. by rewrite Hl, IH. Qed.

Lemma v3_of_v4_proofs t keysets ps : v4_proofs t keysets = Ok ps -> v3_proofs (v3_of_v4 t) keysets = Ok ps.
Proof.
  unfold v4_proofs, v3_proofs, v3_all_proofs, v3_of_v4. cbn [v3_token]. change ([?x] ≫= t3_proofs) with (t3_proofs x ++ []).
  rewrite app_nil_r. cbn [t3_proofs]. revert ps. induction (v4_token t) as [|g gs IH]; intros ps; cbn [v4_loop]; [by intros [= <-]|].
  destruct (long_form (t4_keyset_id g) keysets) as [l| |] eqn:Hl; [|done..]. destruct (v4_loop gs keysets) as [rest| |]; [|done..].
  intros [= <-]. rewrite bind_cons, collect_app, (long_form_each _ _ _ _ Hl), (IH rest eq_refl). done.
Qed.

Lemma collect_perm {E A B} (f : A -> res E B) l l' ps : l ≡ₚ l' -> collect f l = Ok ps ->
  exists ps', collect f l' = Ok ps' /\ ps' ≡ₚ ps.
Proof.
  intros Hp. revert ps. induction Hp as [|x l l' _ IH|x z l|l1 l2 l3 _ IH1 _ IH2]; intros ps; cbn [collect].
  - intros [= <-]. by exists [].
  - destruct (f x) as [q| |]; [|done..]. destruct (collect f l) as [qs| |]; [|done..]. intros [= <-].
    destruct (IH qs eq_refl) as (qs' & -> & Hq). exists (q :: qs'). split; [done|]. by rewrite Hq.
  - destruct (f z) as [q1| |]; [|done..]. destruct (f x) as [q2| |]; [|done..]. destruct (collect f l) as [qs| |]; [|done..].
    intros [= <-]. exists (q2 :: q1 :: qs). split; [done|]. constructor.
  - intros (ps2 & H2 & Hq2)%IH1. apply IH2 in H2 as (ps3 & H3 & Hq3). exists ps3. split; [done|]. by rewrite Hq3.
Qed.

Lemma v4_loop_short keysets (groups : list (ShortKeysetId * list ProofV3)) ps :
  Forall (fun kl => Forall (fun z => p3_keyset_id z = kl.1) kl.2 /\ kl.2 <> []) groups ->
  collect (fun p => let? i := long_form (p3_keyset_id p) keysets in Ok (p3_into_proof p i)) (mjoin groups.*2) = Ok ps ->
  v4_loop ((fun kp => mkTokenV4Token kp.1 (p4_from_p3 <$> kp.2)) <$> groups) keysets = Ok ps.
Proof.
  intros Hg. revert ps. induction Hg as [|[sh l] groups [Hl Hne] _ IH]; intros ps; [by intros [= <-]|].
  rewrite !fmap_cons. cbn [fst snd v4_loop t4_keyset_id t4_proofs mjoin list_join]. rewrite collect_app.
  assert (Hone : forall qs, collect (fun p => let? i := long_form (p3_keyset_id p) keysets in Ok (p3_into_proof p i)) l = Ok qs ->
    exists i, long_form sh keysets = Ok i /\ qs = (fun p => p4_into_proof p i) <$> (p4_from_p3 <$> l)).
  { cbn in Hl, Hne. clear -Hl Hne. destruct l as [|p l]; [done|]. clear Hne. intros qs. cbn [collect].
    apply Forall_cons in Hl as [Hp Hl]. rewrite Hp. destruct (long_form sh keysets) as [i| |] eqn:Hi; [|done..].
    intros Hq. exists i. split; [done|]. rewrite <- Hp in Hi. rewrite !fmap_cons. revert qs Hq.
    assert (Hall : collect (fun p => let? i := long_form (p3_keyset_id p) keysets in Ok (p3_into_proof p i)) l =
      Ok ((fun p => p4_into_proof p i) <$> (p4_from_p3 <$> l))).
    { clear -Hl Hi Hp. induction Hl as [|q l Hq _ IH]; [done|]. rewrite !fmap_cons. cbn [collect]. by rewrite Hq, <- Hp, Hi, IH. }
    rewrite Hall. by intros qs [= <-]. }
  destruct (collect _ l) as [qs| |] eqn:Hq; [|done..]. destruct (Hone qs eq_refl) as (i & -> & ->).
  destruct (collect _ (mjoin groups.*2)) as [rest| |]; [|done..]. rewrite (IH rest eq_refl). done.
Qed.

(** Converting a token between the versions keeps its proofs, in the
    direction from version 3 up to their order. *)
Theorem conversion_keeps_proofs (iter_short : list (ShortKeysetId * list ProofV3) -> list (ShortKeysetId * list ProofV3)) keysets
    (Hiter : forall l, iter_short l ≡ₚ l) :
  (forall t ps, v4_proofs t keysets = Ok ps -> v3_proofs (v3_of_v4 t) keysets = Ok ps) /\
  (forall t t4 ps, v4_of_v3 iter_short t = Ok t4 -> v3_proofs t keysets = Ok ps ->
     exists ps', v4_proofs t4 keysets = Ok ps' /\ ps' ≡ₚ ps).
Proof.
  split; [intros t ps; apply v3_of_v4_proofs|]. intros t t4 ps Ht Hps. unfold v4_of_v3 in Ht. unfold v3_proofs in Hps.
  destruct (Nat.eqb _ _); [|done]. destruct (head (mint_urls t)); [|done]. destruct (v3_unit t); [|done]. injection Ht as <-.
  unfold v4_proofs. cbn [v4_token]. destruct (group_by_spec p3_keyset_id (v3_all_proofs t)) as [Hperm Hkeyed].
  pose proof (group_by_nonempty p3_keyset_id (v3_all_proofs t)) as Hne.
  apply (collect_perm _ _ (mjoin (iter_short (group_by p3_keyset_id (v3_all_proofs t))).*2)) in Hps as (ps' & Hps' & Hp);
    [|by rewrite Hiter, Hperm].
  exists ps'. split; [|done]. apply v4_loop_short; [|done]. rewrite Hiter. rewrite Forall_forall in Hkeyed. apply Forall_forall.
  intros [sh l] Hin. split; [by apply Hkeyed|]. cbn. intros ->. by apply Hne in Hin.
Qed.

(** ** Value *)

Lemma remove_dups_length {A} `{EqDecision A} (l : list A) : (length (remove_dups l) <= length l)%nat.
Proof. induction l as [|x l IH]; cbn; [lia|]. destruct (decide_rel _ x l); cbn; lia. Qed.

Lemma no_dups {A} `{EqDecision A} (l : list A) : Nat.eqb (length (remove_dups l)) (length l) = true -> NoDup l.
Proof.
  intros Hl%Nat.eqb_eq. induction l as [|x l IH]; [constructor|]. cbn in Hl. pose proof (remove_dups_length l).
  destruct (decide_rel _ x l) as [Hin|Hin]; cbn in Hl; [lia|]. constructor; [done|]. apply IH. lia.
Qed.

Lemma try_sums {A} (f : A -> list N) l sums n :
  collect (fun t => Amount.try_sum (f t)) l = Ok sums -> Amount.try_sum sums = Ok n -> n = sumN (l ≫= f).
Proof.
  intros Hc [-> _]%Amount.try_sum_Ok. revert sums Hc. induction l as [|x l IH]; intros sums; cbn [collect]; [by intros [= <-]|].
  destruct (Amount.try_sum (f x)) as [k| |] eqn:Hk; [|done..]. apply Amount.try_sum_Ok in Hk as [-> _].
  destruct (collect _ l) as [ks| |]; [|done..]. intros [= <-]. by rewrite bind_cons, sumN_cons, sumN_app, (IH ks eq_refl).
Qed.

Lemma v4_loop_amounts tokens keysets : forall ps, v4_loop tokens keysets = Ok ps ->
  amount <$> ps = tokens ≫= (fun t => p4_amount <$> t4_proofs t).
Proof.
  induction tokens as [|t tokens IH]; intros ps; cbn [v4_loop]; [by intros [= <-]|].
  destruct (long_form _ keysets) as [i| |]; [|done..]. destruct (v4_loop tokens keysets) as [rest| |]; [|done..]. intros [= <-].
  rewrite fmap_app, bind_cons, (IH rest eq_refl). f_equal. by rewrite <- list_fmap_compose.
Qed.

Lemma v3_amounts l keysets : forall ps,
  collect (fun p => let? i := long_form (p3_keyset_id p) keysets in Ok (p3_into_proof p i)) l = Ok ps -> amount <$> ps = p3_amount <$> l.
Proof.
  induction l as [|p l IH]; intros ps; cbn [collect]; [by intros [= <-]|]. destruct (long_form _ keysets) as [i| |]; [|done..].
  destruct (collect _ l) as [qs| |]; [|done..]. intros [= <-]. by rewrite !fmap_cons, (IH qs eq_refl).
Qed.

(** The value of a token is the sum of the proofs in it; it is refused when
    two of the proofs are the same in every field. *)
Theorem token_value_is_sum `{EqDecision ProofV3} `{EqDecision ProofV4} t keysets n ps
    (Hvalue : value t = Ok n) (Hproofs : proofs t keysets = Ok ps) :
  n = sumN (amount <$> ps) /\
  match t with TV3 t => NoDup (v3_all_proofs t) | TV4 t => NoDup (v4_token t ≫= t4_proofs) end.
Proof.
  destruct t as [t|t]; cbn [value proofs] in *.
  - unfold v3_value in Hvalue. destruct (Nat.eqb _ _) eqn:Hd; [|done]. cbn in Hvalue. split; [|by apply no_dups].
    unfold amt in Hvalue. destruct (collect _ _) as [sums| |] eqn:Hs; [|done..]. cbn in Hvalue. apply map_err_Ok in Hvalue.
    rewrite (try_sums _ _ _ _ Hs Hvalue), (v3_amounts _ _ _ Hproofs). unfold v3_all_proofs. f_equal.
    clear. by induction (v3_token t) as [|k l IH]; [|rewrite !bind_cons, fmap_app, IH].
  - unfold v4_value in Hvalue. destruct (Nat.eqb _ _) eqn:Hd; [|done]. cbn in Hvalue. split; [|by apply no_dups].
    unfold amt in Hvalue. destruct (collect _ _) as [sums| |] eqn:Hs; [|done..]. cbn in Hvalue. apply map_err_Ok in Hvalue.
    by rewrite (try_sums _ _ _ _ Hs Hvalue), (v4_loop_amounts _ _ _ Hproofs).
Qed.

(** Two proofs of one secret, of which at most one can be spent, both count. *)
Theorem value_counts_secret_twice `{EqDecision ProofV4} (k : pubkey) (sh : ShortKeysetId) url u :
  v4_value (mkTokenV4 url u None [mkTokenV4Token sh [mkProofV4 1 "secret" k None None; mkProofV4 2 "secret" k None None]]) = Ok 3.
Proof.
  unfold v4_value. cbn [v4_token]. change ([?t] ≫= t4_proofs) with (t4_proofs t ++ []). cbn [t4_proofs app remove_dups].
  destruct (decide_rel _ _ [_]) as [Hin|_]; [by apply list_elem_of_singleton in Hin|].
  by destruct (decide_rel _ _ []) as [Hin|_]; [apply not_elem_of_nil in Hin|].
Qed.

End facts.
End TokenFacts.
