(* ===== verification/Wallet.v ===== *)
(** * The wallet (crates/cdk/src/wallet)

    A wallet holds proofs of one mint and one unit in a store, and makes new
    ones with the mint.  This file has the data, the keysets (keysets.rs), the
    fees and the split of the change (mod.rs), swaps (swap.rs), the states of
    proofs (proofs.rs), balances and transactions, and the recovery from the
    seed (mod.rs); WalletPay.v has the payments.

    The store is the class [WalletStore], the mint the class [WalletConnector].
    [fuel] bounds the loop that splits an amount by a target value and
    [rounds] the recovery, whose length the mint decides; [Diverges] is the
    outcome of a run that needs more.  Time, random secrets and blinding
    factors, and the order in which hash maps are read are arguments.  Ids of
    keysets are carried in their printed form. *)
From stdpp Require Import base numbers list sorting strings gmap.
From S2P Require Import Prelude Amount Hex Nuts KeysetId Bdhke Conditions States MintDb Mint Keysets Secrets Selection MintUrl WalletDb Token Posts WalletStore.
Import Nut00 Requests KeysetId Bdhke Nut11 Keysets Secrets WalletDb.

Local Open Scope N_scope.
Local Open Scope res_scope.
Local Open Scope mint_scope.

(** ** The mint, as the wallet reaches it *)

(** nut23.rs: the answers of the mint about quotes. *)
Record MintQuoteResponse {CR : Crypto} := mkMintQuoteResponse {
  mr_quote : string;
  mr_request : string;
  mr_amount : option N;
  mr_unit : option Amount.CurrencyUnit;
  mr_state : MintTypes.MintQuoteState;
  mr_expiry : option N;
  mr_pubkey : option pubkey;
}.
Arguments mkMintQuoteResponse {CR} _ _ _ _ _ _ _.

Record MeltQuoteResponse {CR : Crypto} := mkMeltQuoteResponse {
  er_quote : string;
  er_amount : N;
  er_fee_reserve : N;
  er_state : StateRules.MeltQuoteState;
  er_expiry : N;
  er_payment_preimage : option string;
  er_change : option (list BlindSignature);
}.
Arguments mkMeltQuoteResponse {CR} _ _ _ _ _ _ _.

Record MintQuoteRequest {CR : Crypto} := mkMintQuoteRequest {
  nq_amount : N;
  nq_unit : Amount.CurrencyUnit;
  nq_description : option string;
  nq_pubkey : option pubkey;
}.
Arguments mkMintQuoteRequest {CR} _ _ _ _.

(** nut25.rs. *)
Record MintQuoteBolt12Request {CR : Crypto} := mkMintQuoteBolt12Request {
  nb_amount : option N;
  nb_unit : Amount.CurrencyUnit;
  nb_description : option string;
  nb_pubkey : pubkey;
}.
Arguments mkMintQuoteBolt12Request {CR} _ _ _ _.

Record MintQuoteBolt12Response {CR : Crypto} := mkMintQuoteBolt12Response {
  mb_quote : string;
  mb_request : string;
  mb_amount : option N;
  mb_unit : Amount.CurrencyUnit;
  mb_expiry : option N;
  mb_pubkey : pubkey;
  mb_amount_paid : N;
  mb_amount_issued : N;
}.
Arguments mkMintQuoteBolt12Response {CR} _ _ _ _ _ _ _ _.

Record MeltQuoteRequest := mkMeltQuoteRequest {
  eq_request : string;
  eq_unit : Amount.CurrencyUnit;
  eq_options : option MintTypes.MeltOptions;
}.

Class WalletConnector (CR : Crypto) (MintInfo S NetErr : Type) := {
  cl_get_mint_info : M S NetErr MintInfo;
  cl_get_mint_keyset : Id -> M S NetErr KeySet;
  cl_get_mint_keysets : M S NetErr (list KeySetInfo);
  cl_post_swap : SwapRequest -> M S NetErr (list BlindSignature);
  cl_post_check_state : list pubkey -> M S NetErr (list Nut07.ProofState);
  cl_post_restore : list BlindedMessage -> M S NetErr (list BlindedMessage * list BlindSignature);
  cl_post_mint_quote : MintQuoteRequest -> M S NetErr MintQuoteResponse;
  cl_get_mint_quote_status : string -> M S NetErr MintQuoteResponse;
  cl_post_mint : MintRequest -> M S NetErr (list BlindSignature);
  cl_post_melt_quote : MeltQuoteRequest -> M S NetErr MeltQuoteResponse;
  cl_get_melt_quote_status : string -> M S NetErr MeltQuoteResponse;
  cl_post_melt : MeltRequest -> M S NetErr MeltQuoteResponse;
  cl_post_mint_bolt12_quote : MintQuoteBolt12Request -> M S NetErr MintQuoteBolt12Response;
  cl_get_mint_quote_bolt12_status : string -> M S NetErr MintQuoteBolt12Response;
  cl_post_melt_bolt12_quote : MeltQuoteRequest -> M S NetErr MeltQuoteResponse;
  cl_get_melt_bolt12_quote_status : string -> M S NetErr MeltQuoteResponse;
  cl_post_melt_bolt12 : MeltRequest -> M S NetErr MeltQuoteResponse;
}.

(** What the wallet reads in the information document of a mint: its clock,
    and whether it takes descriptions for a method of payment and a unit ([None]
    when it does not mint the unit that way). *)
Class MintInfoView (MintInfo : Type) := {
  mi_time : MintInfo -> option N;
  mi_description : MintInfo -> MintTypes.PaymentMethod -> Amount.CurrencyUnit -> option bool;
}.

Module Wallet.

(** ** Data *)

(** [Wallet]; the store and the client are in the state [Client]. *)
Record Wallet := mkWallet {
  wl_mint_url : MintUrl;
  wl_unit : Amount.CurrencyUnit;
  wl_target_proof_count : N;
  wl_seed : string;
}.

(** The store and the mint. *)
Record Client (W S : Type) := mkClient { cl_store : W; cl_mint : S }.
Arguments mkClient {W S} _ _.
Arguments cl_store {W S} _.
Arguments cl_mint {W S} _.

(** Random secrets (or nonces) and blinding factors, by output. *)
Record Random {CR : Crypto} := mkRandom { rnd_secret : nat -> string; rnd_factor : nat -> seckey }.
Arguments mkRandom {CR} _ _.

(** [min_by_key]: the first of the smallest. *)
Fixpoint min_by_fee {CR : Crypto} (l : list KeySetInfo) : option KeySetInfo :=
  match l with
  | [] => None
  | k :: l' =>
      match min_by_fee l' with
      | None => Some k
      | Some m => Some (if ki_input_fee_ppk k <=? ki_input_fee_ppk m then k else m)
      end
  end.

(** [KeySetInfosMethods]. *)
Definition active (l : list KeySetInfo) : list KeySetInfo := filter (fun k => ki_active k = true) l.
Definition of_unit (u : Amount.CurrencyUnit) (l : list KeySetInfo) : list KeySetInfo := filter (fun k => ki_unit k = u) l.

(** [len() as u32] and the subtraction of [u32]s in a release build. *)
Definition len_u32 {A} (l : list A) : N := N.of_nat (length l) mod 2 ^ 32.
Definition u32_sub (a b : N) : N := (a + 2 ^ 32 - b) mod 2 ^ 32.
Definition u32_add (a b : N) : N := (a + b) mod 2 ^ 32.

(** [iter().position(..)] and [remove(idx)]. *)
Fixpoint take_out (a : N) (l : list N) : option (list N) :=
  match l with
  | [] => None
  | x :: l' => if x =? a then Some l' else (fun r => x :: r) <$> take_out a l'
  end.

(** The loop that sends the proofs whose amount is wanted and keeps the rest. *)
Fixpoint pick_amounts {CR : Crypto} (wanted : list N) (proofs to_send to_keep : list Proof) : list Proof * list Proof :=
  match proofs with
  | [] => (to_send, to_keep)
  | p :: proofs' =>
      match take_out (amount p) wanted with
      | Some wanted' => pick_amounts wanted' proofs' (to_send ++ [p]) to_keep
      | None => pick_amounts wanted proofs' to_send (to_keep ++ [p])
      end
  end.

(** [PreSwap]. *)
Record PreSwap {CR : Crypto} := mkPreSwap {
  ps_pre_mint_secrets : PreMintSecrets;
  ps_swap_request : SwapRequest;
  ps_derived_secret_count : N;
  ps_fee : N;
}.
Arguments mkPreSwap {CR} _ _ _ _.

#[global] Instance P2PKWitness_eq_dec : EqDecision P2PKWitness.
Proof. solve_decision. Defined.
#[global] Instance HTLCWitness_eq_dec : EqDecision HTLCWitness.
Proof. solve_decision. Defined.
#[global] Instance Witness_eq_dec : EqDecision Witness.
Proof. solve_decision. Defined.
#[global] Instance BlindedMessage_eq_dec {CR : Crypto} : EqDecision BlindedMessage.
Proof. solve_decision. Defined.

Section defs.
Context {CR : Crypto} {CV : Curve CR} {BP : Bip32 CR} {KDF : SeedKdf CR BP} {SD : Serde} {PD : EqDecision Proof}.
Context {MintInfo W StoreErr S NetErr : Type} {ST : WalletStore CR MintInfo W StoreErr}.
Context {MC : WalletConnector CR MintInfo S NetErr} {MI : MintInfoView MintInfo}.
Context (iter : list Proof -> list Proof) (iter_fees : Selection.KeysetFeeAndAmounts -> Selection.KeysetFeeAndAmounts).
Context (fuel : nat) (self : Wallet).

Inductive Error :=
| StoreFailed (e : StoreErr)
| NetFailed (e : NetErr)
| UnknownKeySet
| NoActiveKeyset
| BadKeysetId (e : KeysetId.Error)
| NotAnId
| MintTimeExceedsTolerance
| AmountFailed (e : Amount.Error)
| AmountOverflow
| InsufficientFunds
| FeesFailed (e : Fees.Error)
| DhkeFailed (e : Dhke.Error)
| SecretsFailed (e : Secrets.Error)
| SelectFailed (e : Selection.Error)
| TransactionNotFound
| InvalidTransactionDirection
| Internal
| UnknownQuote
| ExpiredQuote (expiry now : N)
| UnsupportedPaymentMethod
| AmountUndefined
| AmountKey
| CouldNotVerifyDleq
| DleqFailed (e : DleqError)
| IncorrectMint
| UnsupportedUnit
| InvoiceDescriptionUnsupported
| InvalidInvoice
| InvoiceAmountUndefined
| IncorrectQuoteAmount
| UnexpectedProofState
| PreimageNotProvided
| SignFailed (e : Nut11.Error)
| KeyFailed (e : Nut01.Error)
| HexFailed
| UnpaidQuote
| SignatureMissingOrInvalid
| Bolt12parse
| Diverges.

Definition Wm (A : Type) : Type := M (Client W S) Error A.

Definition store {A} (c : M W StoreErr A) : Wm A :=
  mmap_err StoreFailed (fun w => match c (cl_store w) with (r, s) => (r, mkClient s (cl_mint w)) end).
Definition net {A} (c : M S NetErr A) : Wm A :=
  mmap_err NetFailed (fun w => match c (cl_mint w) with (r, s) => (r, mkClient (cl_store w) s) end).
Definition amt {A} (r : res Amount.Error A) : Wm A := mlift (map_err AmountFailed r).
Definition dhke {A} (r : res Dhke.Error A) : Wm A := mlift (map_err DhkeFailed r).
(** A computation with fuel. *)
Definition fueled {E A} (f : E -> Error) (o : option (res E A)) : Wm A :=
  mlift (match o with Some r => map_err f r | None => Err Diverges end).
Definition key_id (id : Id) : Wm KeyId := mlift (ok_or NotAnId (key_of id)).

(** ** Keysets (keysets.rs) *)

Definition load_keyset_keys (keyset_id : Id) : Wm Keys :=
  do found <- store (st_get_keys keyset_id) ;
  match found with
  | Some keys => mret keys
  | None =>
      do keyset <- net (cl_get_mint_keyset keyset_id) ;
      do_ mlift (map_err BadKeysetId (verify_id keyset)) ;
      do_ store (st_add_keys keyset) ;
      mret (kset_keys keyset)
  end.

(** [fetch_mint_info]; an information document that cannot be had is not an
    error. *)
Definition fetch_mint_info (now : N) : Wm (option MintInfo) :=
  do r <- mtry (net cl_get_mint_info) ;
  match r with
  | inr _ => mret None
  | inl mint_info =>
      match mi_time mint_info with
      | Some mint_unix_time =>
          if 30 <? N.max now mint_unix_time - N.min now mint_unix_time then mfail MintTimeExceedsTolerance
          else do_ store (st_add_mint (wl_mint_url self) (Some mint_info)) ; mret (Some mint_info)
      | None => do_ store (st_add_mint (wl_mint_url self) (Some mint_info)) ; mret (Some mint_info)
      end
  end.

Definition refresh_keysets (now : N) : Wm (list KeySetInfo) :=
  do_ fetch_mint_info now ;
  do all_keysets <- net cl_get_mint_keysets ;
  do_ store (st_add_mint_keysets (wl_mint_url self) all_keysets) ;
  let keysets := of_unit (wl_unit self) all_keysets in
  do_ mfor (fun k => do_ load_keyset_keys (ki_id k) ; mret tt) keysets ;
  mret keysets.

Definition load_mint_keysets (now : N) : Wm (list KeySetInfo) :=
  do found <- store (st_get_mint_keysets (wl_mint_url self)) ;
  match found with Some l => mret l | None => refresh_keysets now end.

Definition get_mint_keysets : Wm (list KeySetInfo) :=
  do found <- store (st_get_mint_keysets (wl_mint_url self)) ;
  mlift (ok_or UnknownKeySet found).

Definition fetch_active_keyset (now : N) : Wm KeySetInfo :=
  do keysets <- refresh_keysets now ;
  mlift (ok_or NoActiveKeyset (min_by_fee (active keysets))).

(** The stored keysets, active or not, of every unit. *)
Definition get_active_keyset : Wm KeySetInfo :=
  do found <- store (st_get_mint_keysets (wl_mint_url self)) ;
  do keysets <- mlift (ok_or UnknownKeySet found) ;
  mlift (ok_or NoActiveKeyset (min_by_fee keysets)).

(** The amounts of a keyset in ascending order: [Keys] is a [BTreeMap]. *)
Definition key_amounts (keys : Keys) : list N := merge_sort N.le (map_to_list keys).*1.

Fixpoint fees_and_amounts (keysets : list KeySetInfo) (fees : gmap Id Amount.FeeAndAmounts) : Wm (gmap Id Amount.FeeAndAmounts) :=
  match keysets with
  | [] => mret fees
  | k :: keysets' =>
      do keys <- load_keyset_keys (ki_id k) ;
      fees_and_amounts keysets' (<[ki_id k := Amount.mkFeeAndAmounts (ki_input_fee_ppk k) (key_amounts keys)]> fees)
  end.
Definition get_keyset_fees_and_amounts : Wm (gmap Id Amount.FeeAndAmounts) :=
  do found <- store (st_get_mint_keysets (wl_mint_url self)) ;
  do keysets <- mlift (ok_or UnknownKeySet found) ;
  fees_and_amounts keysets ∅.

Definition get_keyset_fees_and_amounts_by_id (keyset_id : Id) : Wm Amount.FeeAndAmounts :=
  do fees <- get_keyset_fees_and_amounts ;
  mlift (ok_or UnknownKeySet (fees !! keyset_id)).

(** ** Fees and the split of the change (mod.rs) *)

Fixpoint fees_of_keysets (ids : list Id) (fee_per_keyset : gmap Id N) : Wm (gmap Id N) :=
  match ids with
  | [] => mret fee_per_keyset
  | keyset_id :: ids' =>
      do found <- store (st_get_keyset_by_id keyset_id) ;
      do info <- mlift (ok_or UnknownKeySet found) ;
      fees_of_keysets ids' (<[keyset_id := ki_input_fee_ppk info]> fee_per_keyset)
  end.

Definition get_proofs_fee_by_count (proofs_per_keyset : gmap Id N) : Wm N :=
  do fee_per_keyset <- fees_of_keysets (map_to_list proofs_per_keyset).*1 ∅ ;
  mlift (map_err FeesFailed (Fees.calculate_fee proofs_per_keyset fee_per_keyset)).

Definition get_proofs_fee (proofs : list Proof) : Wm N := get_proofs_fee_by_count (count_by_keyset proofs).

(** The product is not checked. *)
Definition get_keyset_count_fee (keyset_id : Id) (count : N) : Wm N :=
  do found <- store (st_get_keyset_by_id keyset_id) ;
  do info <- mlift (ok_or UnknownKeySet found) ;
  mret (div_ceil (u64_wrapping_mul (ki_input_fee_ppk info) count) 1000).

(** ** Proofs and their states (proofs.rs) *)

Definition get_proofs_with (state : option (list Nut07.State)) (spending_conditions : option (list SpendingConditions))
    : Wm (list Proof) :=
  do l <- store (st_get_proofs (Some (wl_mint_url self)) (Some (wl_unit self)) state spending_conditions) ;
  mret (pi_proof <$> l).
Definition get_unspent_proofs : Wm (list Proof) := get_proofs_with (Some [Nut07.Unspent]) None.
Definition get_pending_proofs : Wm (list Proof) := get_proofs_with (Some [Nut07.Pending]) None.
Definition get_reserved_proofs : Wm (list Proof) := get_proofs_with (Some [Nut07.Reserved]) None.
Definition get_pending_spent_proofs : Wm (list Proof) := get_proofs_with (Some [Nut07.PendingSpent]) None.

Definition unreserve_proofs (ys : list pubkey) : Wm unit := store (st_update_proofs_state ys Nut07.Unspent).

(** NUT-07: the mint's states; spent proofs leave the store. *)
Definition spent_ys (states : list Nut07.ProofState) : list pubkey :=
  Nut07.ps_y <$> filter (fun s => Nut07.ps_state s = Nut07.Spent) states.
Definition check_proofs_spent (proofs : list Proof) : Wm (list Nut07.ProofState) :=
  do ys <- dhke (ys proofs) ;
  do states <- net (cl_post_check_state ys) ;
  do_ store (st_update_proofs [] (spent_ys states)) ;
  mret states.

Definition pending_ys (states : list Nut07.ProofState) : list pubkey :=
  Nut07.ps_y <$> filter (fun s => Nut07.ps_state s <> Nut07.Spent) states.
Definition check_all_pending_proofs : Wm N :=
  do proofs <- store (st_get_proofs (Some (wl_mint_url self)) (Some (wl_unit self))
    (Some [Nut07.Pending; Nut07.Reserved; Nut07.PendingSpent]) None) ;
  match proofs with
  | [] => mret 0
  | _ =>
      do states <- check_proofs_spent (pi_proof <$> proofs) ;
      let pending_proofs := filter (fun p => pi_y p ∈ pending_ys states) proofs in
      let non_pending_proofs := filter (fun p => pi_y p ∉ pending_ys states) proofs in
      do amount <- amt (Amount.try_sum (amounts_of pending_proofs)) ;
      do_ store (st_update_proofs [] (pi_y <$> non_pending_proofs)) ;
      do balance <- amt (Amount.add 0 amount) ;
      mret balance
  end.

(** How many proofs of an amount there are. *)
Definition count_amount (a : N) (proofs : list Proof) : N := N.of_nat (length (filter (fun p => amount p = a) proofs)).
Definition needed_amounts (target_proof_count : N) (unspent_proofs : list Proof) (amounts : list N) : list N :=
  amounts ≫= (fun a => replicate (N.to_nat (target_proof_count - count_amount a unspent_proofs)) a).
Definition amounts_needed_for_state_target (fee_and_amounts : Amount.FeeAndAmounts) : Wm (list N) :=
  do unspent_proofs <- get_unspent_proofs ;
  mret (needed_amounts (wl_target_proof_count self) unspent_proofs (Amount.amounts fee_and_amounts)).

Fixpoint fill_values (change_amount : N) (needed values : list N) : res Amount.Error (list N) :=
  match needed with
  | [] => Ok values
  | amount :: needed' =>
      let? values_sum := Amount.try_sum values in
      let? s := Amount.add values_sum amount in
      fill_values change_amount needed' (if s <=? change_amount then values ++ [amount] else values)
  end.
Definition determine_split_target_values (change_amount : N) (fee_and_amounts : Amount.FeeAndAmounts) : Wm Amount.SplitTarget :=
  do needed <- amounts_needed_for_state_target fee_and_amounts ;
  do values <- amt (fill_values change_amount (Amount.sort_amounts needed) []) ;
  mret (Amount.STValues values).

(** ** Swaps (swap.rs) *)

Definition total (proofs : list Proof) : Wm N := amt (total_amount proofs).
Definition split_for (amount : N) (target : Amount.SplitTarget) (fa : Amount.FeeAndAmounts) : Wm (list N) :=
  fueled AmountFailed (Amount.split_targeted fuel amount target fa).
Definition from_seed_for (keyset_id : KeyId) (counter amount : N) (target : Amount.SplitTarget) (fa : Amount.FeeAndAmounts)
    : Wm PreMintSecrets :=
  fueled SecretsFailed (Secrets.from_seed fuel keyset_id counter (wl_seed self) amount target fa).

(** The amount to send and the change, when the fee to spend the outputs is
    added. *)
Definition add_redeem_fee (keyset_id : Id) (amount : option N) (change_amount : N) (fa : Amount.FeeAndAmounts)
    : Wm (option N * N) :=
  do parts <- fueled (fun e : Error => e) (unwrap <$> Amount.split_targeted fuel (default 0 amount) Amount.STNone fa) ;
  do fee_to_redeem <- get_keyset_count_fee keyset_id (N.of_nat (length parts)) ;
  do send_amount <- mlift (match amount with
                           | Some a => let? s := ok_or AmountOverflow (Amount.checked_add a fee_to_redeem) in Ok (Some s)
                           | None => Ok None
                           end) ;
  do change <- mlift (ok_or InsufficientFunds (Amount.checked_sub change_amount fee_to_redeem)) ;
  mret (send_amount, change).

(** The number of secrets to derive. *)
Definition secrets_needed (spending_conditions : option SpendingConditions) (send_amount change_amount : N)
    (change_split_target : Amount.SplitTarget) (fa : Amount.FeeAndAmounts) : Wm N :=
  match spending_conditions with
  | Some _ =>
      do change <- split_for change_amount change_split_target fa ;
      mret (len_u32 change)
  | None =>
      do send <- split_for send_amount Amount.STNone fa ;
      do change <- split_for change_amount change_split_target fa ;
      mret (u32_add (len_u32 send) (len_u32 change))
  end.

(** The first counter of the range that is reserved. *)
Definition reserve_counters (keyset_id : Id) (total_secrets_needed : N) : Wm N :=
  if 0 <? total_secrets_needed then
    do new_counter <- store (st_increment_keyset_counter keyset_id total_secrets_needed) ;
    mret (u32_sub new_counter total_secrets_needed)
  else mret 0.

(** The outputs to send and those of the change. *)
Definition swap_outputs_for (rnd : Random) (kid : KeyId) (count : N) (spending_conditions : option SpendingConditions)
    (send_amount change_amount : N) (change_split_target : Amount.SplitTarget) (fa : Amount.FeeAndAmounts)
    : Wm (PreMintSecrets * PreMintSecrets * N) :=
  match spending_conditions with
  | Some conditions =>
      do change <- from_seed_for kid count change_amount change_split_target fa ;
      do send <- fueled SecretsFailed (Secrets.with_conditions fuel kid (rnd_secret rnd) (rnd_factor rnd) send_amount
        Amount.STNone conditions fa) ;
      mret (send, change, N.of_nat (length (pms_secrets change)))
  | None =>
      do send <- from_seed_for kid count send_amount Amount.STNone fa ;
      do change <- from_seed_for kid (u32_add count (len_u32 (pms_secrets send))) change_amount change_split_target fa ;
      mret (send, change, N.of_nat (length (pms_secrets change) + length (pms_secrets send)))
  end.

Definition create_swap (now : N) (rnd : Random) (amount : option N) (amount_split_target : Amount.SplitTarget)
    (proofs : list Proof) (spending_conditions : option SpendingConditions) (include_fees : bool) : Wm PreSwap :=
  do active_keyset <- fetch_active_keyset now ;
  let active_keyset_id := ki_id active_keyset in
  do kid <- key_id active_keyset_id ;
  do proofs_total <- total proofs ;
  do proof_ys <- dhke (ys proofs) ;
  do_ store (st_update_proofs_state proof_ys Nut07.Reserved) ;
  do fee <- get_proofs_fee proofs ;
  do total_to_subtract <- mlift (ok_or AmountOverflow (Amount.checked_add (default 0 amount) fee)) ;
  do change_amount <- mlift (ok_or InsufficientFunds (Amount.checked_sub proofs_total total_to_subtract)) ;
  do fee_and_amounts <- get_keyset_fees_and_amounts_by_id active_keyset_id ;
  do split_amounts <- (if include_fees then add_redeem_fee active_keyset_id amount change_amount fee_and_amounts
                       else mret (amount, change_amount)) ;
  let '(send_amount, change_amount) := split_amounts in
  let send := default 0 send_amount in
  do change_split_target <- (match amount_split_target with
                             | Amount.STNone => determine_split_target_values change_amount fee_and_amounts
                             | s => mret s
                             end) ;
  do total_secrets_needed <- secrets_needed spending_conditions send change_amount change_split_target fee_and_amounts ;
  do starting_counter <- reserve_counters active_keyset_id total_secrets_needed ;
  do outputs <- swap_outputs_for rnd kid starting_counter spending_conditions send change_amount change_split_target
    fee_and_amounts ;
  let '(desired_messages, change_messages, derived_secret_count) := outputs in
  let pms := sort_secrets (combine desired_messages change_messages) in
  mret (mkPreSwap pms (SwapRequest_new proofs (blinded_messages pms)) (derived_secret_count mod 2 ^ 32) fee).

(** The conditions of a proof: its secret is of the form of NUT-10. *)
Definition is_nut10 (p : Proof) : bool := bool_decide (is_Some (nut10_from_json (secret p))).

Definition proof_infos (state : Nut07.State) (unit : Amount.CurrencyUnit) (l : list Proof) : Wm (list ProofInfo) :=
  dhke (collect (fun p => ProofInfo_new p (wl_mint_url self) state unit) l).

(** Which of the new proofs are sent, and which are kept. *)
Definition divide_proofs (amount : N) (amount_split_target : Amount.SplitTarget)
    (spending_conditions : option SpendingConditions) (fa : Amount.FeeAndAmounts) (post_swap_proofs : list Proof)
    : Wm (list Proof * list Proof) :=
  let with_condition := filter (fun p => is_nut10 p = true) post_swap_proofs in
  let without_condition := filter (fun p => is_nut10 p = false) post_swap_proofs in
  match spending_conditions with
  | Some _ => mret (with_condition, without_condition)
  | None =>
      do amount_split <- split_for amount amount_split_target fa ;
      mret (pick_amounts amount_split (rev without_condition) [] [])
  end.

Definition swap (now : N) (rnd : Random) (amount : option N) (amount_split_target : Amount.SplitTarget)
    (input_proofs : list Proof) (spending_conditions : option SpendingConditions) (include_fees : bool)
    : Wm (option (list Proof)) :=
  do_ refresh_keysets now ;
  do pre_swap <- create_swap now rnd amount amount_split_target input_proofs spending_conditions include_fees ;
  let pms := ps_pre_mint_secrets pre_swap in
  do signatures <- net (cl_post_swap (ps_swap_request pre_swap)) ;
  let active_keyset_id := id_to_string (pms_keyset_id pms) in
  do fee_and_amounts <- get_keyset_fees_and_amounts_by_id active_keyset_id ;
  do found <- store (st_get_keys active_keyset_id) ;
  do active_keys <- mlift (ok_or NoActiveKeyset found) ;
  do post_swap_proofs <- dhke (construct_proofs signatures (rs pms) (pms_secret_list pms) active_keys) ;
  do divided <- (match amount with
    | Some a =>
        do parts <- divide_proofs a amount_split_target spending_conditions fee_and_amounts post_swap_proofs ;
        let '(proofs_to_send, proofs_to_keep) := parts in
        do send_amount <- total proofs_to_send ;
        do_ amt (Amount.add a (ps_fee pre_swap)) ;
        do infos <- proof_infos Nut07.Reserved (wl_unit self) proofs_to_send ;
        mret (infos, proofs_to_keep, Some proofs_to_send)
    | None => mret ([], post_swap_proofs, None)
    end) ;
  let '(send_infos, change_proofs, send_proofs) := divided in
  do keep_infos <- proof_infos Nut07.Unspent (wl_unit self) change_proofs ;
  do deleted_ys <- dhke (ys input_proofs) ;
  do_ store (st_update_proofs (send_infos ++ keep_infos) deleted_ys) ;
  mret send_proofs.

Definition swap_from_unspent (now : N) (rnd : Random) (amount : N) (conditions : option SpendingConditions)
    (include_fees : bool) : Wm (list Proof) :=
  do available_proofs <- get_unspent_proofs ;
  do proofs_sum <- mlift (map_err (fun _ => AmountOverflow) (Amount.try_sum (Nut00.amount <$> available_proofs))) ;
  do_ mlift (ensure (amount <=? proofs_sum) InsufficientFunds) ;
  do keysets <- refresh_keysets now ;
  do keyset_fees <- get_keyset_fees_and_amounts ;
  do proofs <- mlift (map_err SelectFailed (Selection.select_proofs iter amount available_proofs
    (ki_id <$> active keysets) (iter_fees (map_to_list keyset_fees)) true)) ;
  do sent <- swap now rnd (Some amount) Amount.STNone proofs conditions include_fees ;
  mlift (ok_or InsufficientFunds sent).

(** The mint's states decide which proofs are swapped; the transaction is
    removed, and a failure of that is only logged. *)
Definition unspent_of (l : list (Proof * Nut07.ProofState)) : list Proof :=
  (filter (fun ps => Nut07.ps_state ps.2 = Nut07.Unspent) l).*1.
Definition reclaim_unspent (now : N) (rnd : Random) (proofs : list Proof) : Wm unit :=
  do proof_ys <- dhke (ys proofs) ;
  do spendable <- net (cl_post_check_state proof_ys) ;
  do_ swap now rnd None Amount.STNone (unspent_of (zip proofs spendable)) None false ;
  do_ mtry (F:=Error) (store (st_remove_transaction (transaction_id proof_ys))) ;
  mret tt.

(** [update_mint_url]: the wallet under its new URL is returned. *)
Definition update_mint_url (new_mint_url : MintUrl) : Wm Wallet :=
  do_ store (st_update_mint_url (wl_mint_url self) new_mint_url) ;
  mret (mkWallet new_mint_url (wl_unit self) (wl_target_proof_count self) (wl_seed self)).

(** ** Balances (balance.rs) *)

Definition total_balance : Wm N :=
  store (st_get_balance (Some (wl_mint_url self)) (Some (wl_unit self)) (Some [Nut07.Unspent])).
Definition total_pending_balance : Wm N := do l <- get_pending_proofs ; total l.
Definition total_reserved_balance : Wm N := do l <- get_reserved_proofs ; total l.

(** ** Transactions (transactions.rs); the order of transactions is by time,
    the latest first, then by id. *)

Definition tx_before (a b : Transaction) : Prop :=
  tr_timestamp b < tr_timestamp a \/
  (tr_timestamp a = tr_timestamp b /\
   String.leb (digest_bytes (transaction_id (tr_ys a))) (digest_bytes (transaction_id (tr_ys b))) = true).
#[local] Instance tx_before_dec : RelDecision tx_before.
Proof. intros a b. unfold tx_before. apply _. Defined.
Definition list_transactions (direction : option TransactionDirection) : Wm (list Transaction) :=
  do l <- store (st_list_transactions (Some (wl_mint_url self)) direction (Some (wl_unit self))) ;
  mret (merge_sort tx_before l).
Definition get_transaction (id : digest) : Wm (option Transaction) := store (st_get_transaction id).

Definition has_y_in (ys : list pubkey) (p : Proof) : bool :=
  match y p with Ok k => bool_decide (k ∈ ys) | _ => false end.
Definition revert_transaction (now : N) (rnd : Random) (id : digest) : Wm unit :=
  do found <- store (st_get_transaction id) ;
  do tx <- mlift (ok_or TransactionNotFound found) ;
  do_ mlift (ensure (bool_decide (tr_direction tx = Outgoing)) InvalidTransactionDirection) ;
  do pending_spent <- get_pending_spent_proofs ;
  reclaim_unspent now rnd (filter (fun p => has_y_in (tr_ys tx) p = true) pending_spent).

(** ** Recovery from the seed (mod.rs) *)

(** The outputs of a batch for which the mint has signatures. *)
Definition known_outputs (outputs : list BlindedMessage) (l : list PreMint) : list PreMint :=
  filter (fun p => pm_blinded_message p ∈ outputs) l.
Definition not_spent (l : list (Proof * Nut07.ProofState)) : list Proof :=
  (filter (fun ps => Nut07.ps_state ps.2 <> Nut07.Spent) l).*1.

(** One batch: [None] when the mint has none of it. *)
Definition restore_batch_of (keyset : KeySetInfo) (keys : Keys) (kid : KeyId) (start_counter : N) : Wm (option N) :=
  do premint_secrets <- mlift (map_err SecretsFailed
    (Secrets.restore_batch kid (wl_seed self) start_counter (u32_add start_counter 100))) ;
  do response <- net (cl_post_restore (blinded_messages premint_secrets)) ;
  let '(outputs, signatures) := response in
  match signatures with
  | [] => mret None
  | _ =>
      let known := known_outputs outputs (pms_secrets premint_secrets) in
      if negb (Nat.eqb (length outputs) (length known)) then mpanic
      else
        do proofs <- dhke (construct_proofs signatures (pm_r <$> known) (pm_secret <$> known) keys) ;
        do_ store (st_increment_keyset_counter (ki_id keyset) (len_u32 proofs)) ;
        do states <- check_proofs_spent proofs ;
        let unspent_proofs := not_spent (zip proofs states) in
        do value <- total unspent_proofs ;
        do infos <- proof_infos Nut07.Unspent (ki_unit keyset) unspent_proofs ;
        do_ store (st_update_proofs infos []) ;
        mret (Some value)
  end.

(** [while empty_batch.lt(&3)]. *)
Fixpoint restore_loop (rounds : nat) (keyset : KeySetInfo) (keys : Keys) (kid : KeyId) (empty_batch : nat)
    (start_counter restored_value : N) : Wm N :=
  if Nat.ltb empty_batch 3 then
    match rounds with
    | O => mfail Diverges
    | Datatypes.S rounds' =>
        do r <- restore_batch_of keyset keys kid start_counter ;
        match r with
        | None => restore_loop rounds' keyset keys kid (Datatypes.S empty_batch) (u32_add start_counter 100) restored_value
        | Some value =>
            do restored_value <- amt (Amount.add restored_value value) ;
            restore_loop rounds' keyset keys kid 0 (u32_add start_counter 100) restored_value
        end
    end
  else mret restored_value.

Fixpoint restore_keysets (rounds : nat) (keysets : list KeySetInfo) (restored_value : N) : Wm N :=
  match keysets with
  | [] => mret restored_value
  | keyset :: keysets' =>
      do keys <- load_keyset_keys (ki_id keyset) ;
      do kid <- key_id (ki_id keyset) ;
      do restored_value <- restore_loop rounds keyset keys kid 0 0 restored_value ;
      restore_keysets rounds keysets' restored_value
  end.

Definition restore (now : N) (rounds : nat) : Wm N :=
  do found <- store (st_get_mint (wl_mint_url self)) ;
  do_ (match found with
       | Some _ => mret tt
       | None => do_ fetch_mint_info now ; mret tt
       end) ;
  do keysets <- load_mint_keysets now ;
  restore_keysets rounds keysets 0.

End defs.
End Wallet.
