(* ===== verification/WalletFacts.v ===== *)
(** * The wallet's swaps and bookkeeping

    Proved against the interface of the store ([WalletStoreLaws]), for every
    mint: which operations leave proofs and counters alone, what a swap asks of
    the mint and what it does to the store, that no range of derivation
    counters is used twice, and what the periodic check of pending proofs
    leaves. *)
From stdpp Require Import base numbers list sorting strings gmap.
From S2P Require Import Prelude Amount Hex Nuts KeysetId Bdhke Conditions States MintDb Mint MintFacts Keysets Secrets Selection MintUrl WalletDb CheckerFacts Token Posts WalletStore Wallet.
Import Nut00 Requests KeysetId Bdhke Nut11 Keysets Secrets WalletDb WalletStore MintFacts Wallet.

Local Open Scope N_scope.
Local Open Scope res_scope.
Local Open Scope mint_scope.

(** ** Splits *)
Module SplitFacts.
Import Amount.

Lemma split_value_for_le self fa l : forall parts total parts' total', total = sumN parts -> total <= self ->
  split_value_for self fa l parts total = Ok (parts', total') -> total' = sumN parts' /\ total' <= self.
Proof.
  induction l as [|x l IH]; intros parts total parts' total' Ht Hle; cbn [split_value_for]; [by intros [= <- <-]|].
  unfold add, sub, checked_add, checked_sub. destruct (u64_checked_add x total) as [s|] eqn:Hs; [|done].
  apply u64_checked_add_Some in Hs as [-> _]. cbn [expect].
  set (step := if x + total <=? self then _ else _). destruct step as [parts1| |] eqn:Hstep; [|done..].
  assert (Hle1 : sumN parts1 <= self).
  { unfold step in Hstep. destruct (N.leb_spec (x + total) self) as [Hx|Hx].
    - injection Hstep as <-. rewrite sumN_app. unfold sumN at 2. cbn. lia.
    - destruct (u64_checked_sub self total) as [r|] eqn:Hr; [|done]. cbn [expect] in Hstep.
      apply u64_checked_sub_Some in Hr as [-> _]. destruct (split (self - total) fa) as [q| |] eqn:Hq; [|done..].
      injection Hstep as <-. apply split_Ok_le in Hq. rewrite sumN_app. lia. }
  destruct (try_sum parts1) as [t| |] eqn:Hsum; [|done..]. apply try_sum_Ok in Hsum as [-> _].
  destruct (sumN parts1 =? self); [by intros [= <- <-]|]. by apply IH.
Qed.

Lemma split_value_while_le fuel self fa pv : forall parts total parts', total = sumN parts -> total <= self ->
  split_value_while fuel self fa pv parts total = Some (Ok parts') -> sumN parts' = self.
Proof.
  induction fuel as [|fuel IH]; intros parts total parts' Ht Hle; cbn [split_value_while];
    destruct (N.leb_spec self total) as [Hge|Hlt]; try done.
  1, 2: intros [= <-]; lia.
  destruct (split_value_for self fa pv parts total) as [[p t]| |] eqn:Hf; [|done..].
  apply split_value_for_le in Hf as [-> Hle']; [|done..]. by apply IH.
Qed.

(** Whatever the denominations, the parts never exceed the amount. *)
Lemma split_targeted_le fuel self target fa parts :
  split_targeted fuel self target fa = Some (Ok parts) -> sumN parts <= self.
Proof.
  destruct target as [|v|vs]; cbn [split_targeted].
  - destruct (split self fa) as [q| |] eqn:Hq; [|done..]. intros [= <-]. rewrite sort_amounts_sum. by apply split_Ok_le in Hq.
  - destruct (self <=? v); [intros [= H]; by apply split_Ok_le in H|].
    destruct (split v fa) as [pv| |]; [|done..].
    destruct (split_value_while fuel self fa pv [] ZERO) as [[q| |]|] eqn:Hw; try done. intros [= <-].
    rewrite sort_amounts_sum. apply split_value_while_le in Hw; [lia|done|unfold ZERO; lia].
  - destruct (try_sum vs) as [t| |] eqn:Ht; [|done..]. apply try_sum_Ok in Ht as [-> _]. intros [= H]. revert H.
    destruct (N.compare_spec self (sumN vs)) as [Heq|Hlt|Hgt]; [|done|].
    + intros [= <-]. rewrite sort_amounts_sum. lia.
    + unfold sub, checked_sub. destruct (u64_checked_sub self (sumN vs)) as [r|] eqn:Hr; [|done]. cbn [expect].
      apply u64_checked_sub_Some in Hr as [-> _]. destruct (split (self - sumN vs) fa) as [q| |] eqn:Hq; [|done..].
      intros [= <-]. apply split_Ok_le in Hq. rewrite sort_amounts_sum, sumN_app. lia.
Qed.

(** Over powers of two above the amount they are the amount. *)
Lemma split_targeted_pow2 fuel k self target fa parts : amounts fa = pow2_amounts k -> self < 2 ^ N.of_nat k ->
  split_targeted fuel self target fa = Some (Ok parts) -> sumN parts = self.
Proof.
  intros Hfa Hlt. assert (Hpos : Forall (fun a => 0 < a) (amounts fa)) by (rewrite Hfa; apply pow2_amounts_pos).
  assert (Hsplit : forall n q, n < 2 ^ N.of_nat k -> split n fa = Ok q -> sumN q = n).
  { intros n q Hn Hq. rewrite split_greedy in Hq by done. injection Hq as <-. rewrite Hfa. by apply greedy_pow2_sum. }
  destruct target as [|v|vs]; cbn [split_targeted].
  - destruct (split self fa) as [q| |] eqn:Hq; [|done..]. intros [= <-]. rewrite sort_amounts_sum. by apply Hsplit.
  - destruct (self <=? v); [intros [= H]; by apply Hsplit|].
    destruct (split v fa) as [pv| |]; [|done..].
    destruct (split_value_while fuel self fa pv [] ZERO) as [[q| |]|] eqn:Hw; try done. intros [= <-].
    rewrite sort_amounts_sum. apply split_value_while_le in Hw; [done|done|unfold ZERO; lia].
  - destruct (try_sum vs) as [t| |] eqn:Ht; [|done..]. apply try_sum_Ok in Ht as [-> _]. intros [= H]. revert H.
    destruct (N.compare_spec self (sumN vs)) as [Heq|?|Hgt]; [|done|].
    + intros [= <-]. by rewrite sort_amounts_sum.
    + unfold sub, checked_sub. destruct (u64_checked_sub self (sumN vs)) as [r|] eqn:Hr; [|done]. cbn [expect].
      apply u64_checked_sub_Some in Hr as [-> _]. destruct (split (self - sumN vs) fa) as [q| |] eqn:Hq; [|done..].
      intros [= <-]. apply Hsplit in Hq; [|lia]. rewrite sort_amounts_sum, sumN_app. lia.
Qed.

End SplitFacts.

Module WalletFacts.

(** ** Frames *)
Section frames.
Context {CR : Crypto} {CV : Curve CR} {BP : Bip32 CR} {KDF : SeedKdf CR BP} {SD : Serde} {PD : EqDecision Proof}.
Context {MintInfo W StoreErr S NetErr : Type} {ST : WalletStore CR MintInfo W StoreErr}.
Context {MC : WalletConnector CR MintInfo S NetErr} {MI : MintInfoView MintInfo}.
Context {WV : WalletView CR W} {SL : WalletStoreLaws CR MintInfo W StoreErr ST WV}.
Context (fuel : nat) (self : Wallet).

Abbreviation Client := (Client W S).
Abbreviation WM := (Wm (W:=W) (StoreErr:=StoreErr) (S:=S) (NetErr:=NetErr)).

(** The proofs and counters of the store, and the counters alone. *)
Definition quiet_c : relation Client := along (cl_store : Client -> W) quiet.
Definition counts_c : relation Client := along (cl_store : Client -> W) counts_kept.

#[global] Instance quiet_c_preorder : PreOrder quiet_c.
Proof. apply along_preorder, _. Qed.
#[global] Instance counts_c_preorder : PreOrder counts_c.
Proof. apply along_preorder, _. Qed.

Lemma store_keeps {A} (R : relation W) (c : M W StoreErr A) : keeps R c ->
  keeps (along (cl_store : Client -> W) R) (store c : WM A).
Proof. intros H w. specialize (H (cl_store w)). unfold store, mmap_err. by destruct (c (cl_store w)). Qed.
Lemma net_keeps {A} (R : relation W) {PO : PreOrder R} (c : M S NetErr A) :
  keeps (along (cl_store : Client -> W) R) (net c : WM A).
Proof. intros w. unfold net, mmap_err, along. by destruct (c (cl_mint w)). Qed.
Lemma store_quiet {A} (c : M W StoreErr A) : keeps quiet c -> keeps quiet_c (store c : WM A).
Proof. apply store_keeps. Qed.
Lemma store_counts {A} (c : M W StoreErr A) : keeps counts_kept c -> keeps counts_c (store c : WM A).
Proof. apply store_keeps. Qed.
Lemma net_quiet {A} (c : M S NetErr A) : keeps quiet_c (net c : WM A).
Proof. apply net_keeps, _. Qed.
Lemma net_counts {A} (c : M S NetErr A) : keeps counts_c (net c : WM A).
Proof. apply net_keeps, _. Qed.
Lemma quiet_c_counts {E A} (c : M Client E A) : keeps quiet_c c -> keeps counts_c c.
Proof. apply keeps_weaken. by intros w w' [_ ?]. Qed.
#[local] Hint Resolve store_quiet store_counts net_quiet net_counts quiet_c_counts : keeps.

Lemma amt_quiet {A} (r : res Amount.Error A) : keeps quiet_c (amt r : WM A).
Proof. unfold amt. keep. Qed.
Lemma dhke_quiet {A} (r : res Dhke.Error A) : keeps quiet_c (dhke r : WM A).
Proof. unfold dhke. keep. Qed.
Lemma fueled_quiet {E A} (f : E -> Error) (o : option (res E A)) : keeps quiet_c (fueled f o : WM A).
Proof. unfold fueled. keep. Qed.
Lemma key_id_quiet (id : Id) : keeps quiet_c (key_id id : WM KeyId).
Proof. unfold key_id. keep. Qed.
#[local] Hint Resolve amt_quiet dhke_quiet fueled_quiet key_id_quiet : keeps.

Lemma load_keyset_keys_quiet id : keeps quiet_c (load_keyset_keys id : WM Keys).
Proof. unfold load_keyset_keys. keep. Qed.
#[local] Hint Resolve load_keyset_keys_quiet : keeps.
Lemma fetch_mint_info_quiet now : keeps quiet_c (fetch_mint_info self now : WM _).
Proof. unfold fetch_mint_info. keep. Qed.
#[local] Hint Resolve fetch_mint_info_quiet : keeps.
Lemma refresh_keysets_quiet now : keeps quiet_c (refresh_keysets self now : WM _).
Proof. unfold refresh_keysets. keep. Qed.
#[local] Hint Resolve refresh_keysets_quiet : keeps.
Lemma load_mint_keysets_quiet now : keeps quiet_c (load_mint_keysets self now : WM _).
Proof. unfold load_mint_keysets. keep. Qed.
Lemma fetch_active_keyset_quiet now : keeps quiet_c (fetch_active_keyset self now : WM _).
Proof. unfold fetch_active_keyset. keep. Qed.
Lemma get_active_keyset_quiet : keeps quiet_c (get_active_keyset self : WM _).
Proof. unfold get_active_keyset. keep. Qed.
Lemma get_mint_keysets_quiet_c : keeps quiet_c (get_mint_keysets self : WM _).
Proof. unfold get_mint_keysets. keep. Qed.
Lemma fees_and_amounts_quiet keysets : forall fees, keeps quiet_c (fees_and_amounts keysets fees : WM _).
Proof. induction keysets as [|k keysets IH]; intros fees; cbn [fees_and_amounts]; keep. Qed.
#[local] Hint Resolve fees_and_amounts_quiet : keeps.
Lemma get_keyset_fees_and_amounts_quiet : keeps quiet_c (get_keyset_fees_and_amounts self : WM _).
Proof. unfold get_keyset_fees_and_amounts. keep. Qed.
#[local] Hint Resolve get_keyset_fees_and_amounts_quiet : keeps.
Lemma get_fees_by_id_quiet id : keeps quiet_c (get_keyset_fees_and_amounts_by_id self id : WM _).
Proof. unfold get_keyset_fees_and_amounts_by_id. keep. Qed.
Lemma fees_of_keysets_quiet ids : forall fees, keeps quiet_c (fees_of_keysets ids fees : WM _).
Proof. induction ids as [|k ids IH]; intros fees; cbn [fees_of_keysets]; keep. Qed.
#[local] Hint Resolve fees_of_keysets_quiet : keeps.
Lemma get_proofs_fee_quiet l : keeps quiet_c (get_proofs_fee l : WM _).
Proof. unfold get_proofs_fee, get_proofs_fee_by_count. keep. Qed.
Lemma get_keyset_count_fee_quiet id n : keeps quiet_c (get_keyset_count_fee id n : WM _).
Proof. unfold get_keyset_count_fee. keep. Qed.
#[local] Hint Resolve get_keyset_count_fee_quiet : keeps.
Lemma get_proofs_with_quiet st sc : keeps quiet_c (get_proofs_with self st sc : WM _).
Proof. unfold get_proofs_with. keep. Qed.
#[local] Hint Resolve get_proofs_with_quiet : keeps.
Lemma determine_split_target_values_quiet n fa : keeps quiet_c (determine_split_target_values self n fa : WM _).
Proof. unfold determine_split_target_values, amounts_needed_for_state_target, get_unspent_proofs. keep. Qed.
Lemma total_quiet l : keeps quiet_c (total l : WM _).
Proof. unfold total. keep. Qed.
Lemma add_redeem_fee_quiet id a c fa : keeps quiet_c (add_redeem_fee fuel id a c fa : WM _).
Proof. unfold add_redeem_fee. keep. Qed.
Lemma secrets_needed_quiet sc a c t fa : keeps quiet_c (secrets_needed fuel sc a c t fa : WM _).
Proof. unfold secrets_needed, split_for. keep. Qed.
Lemma swap_outputs_for_quiet rnd kid c sc a b t fa : keeps quiet_c (swap_outputs_for fuel self rnd kid c sc a b t fa : WM _).
Proof. unfold swap_outputs_for, from_seed_for. keep. Qed.
Lemma proof_infos_quiet st u l : keeps quiet_c (proof_infos self st u l : WM _).
Proof. unfold proof_infos. keep. Qed.
Lemma divide_proofs_quiet a t sc fa l : keeps quiet_c (divide_proofs fuel a t sc fa l : WM _).
Proof. unfold divide_proofs, split_for. keep. Qed.

(** Runs of the two kinds of calls. *)
Lemma store_Ok {A} (c : M W StoreErr A) (w w' : Client) (a : A) :
  (store c : WM A) w = (Ok a, w') -> c (cl_store w) = (Ok a, cl_store w') /\ cl_mint w' = cl_mint w.
Proof.
  unfold store, mmap_err. destruct (c (cl_store w)) as [[x| |] s]; cbn; intros [= <- <-]; done.
Qed.
Lemma net_Ok {A} (c : M S NetErr A) (w w' : Client) (a : A) :
  (net c : WM A) w = (Ok a, w') -> c (cl_mint w) = (Ok a, cl_mint w') /\ cl_store w' = cl_store w.
Proof. unfold net, mmap_err. destruct (c (cl_mint w)) as [[x| |] s]; cbn; intros [= <- <-]; done. Qed.
Lemma lifted_Ok {E F A} (f : E -> F) (r : res E A) (w w' : Client) (a : A) : mlift (map_err f r) w = (Ok a, w') -> r = Ok a /\ w' = w.
Proof. by intros [H%map_err_Ok ->]%mlift_Ok. Qed.
Lemma fueled_Ok {E A} (f : E -> Error) (o : option (res E A)) (w w' : Client) (a : A) :
  (fueled f o : WM A) w = (Ok a, w') -> o = Some (Ok a) /\ w' = w.
Proof. unfold fueled. intros [H ->]%mlift_Ok. destruct o as [r|]; [|done]. by apply map_err_Ok in H as ->. Qed.

End frames.
#[export] Hint Resolve store_quiet store_counts net_quiet net_counts quiet_c_counts amt_quiet dhke_quiet fueled_quiet key_id_quiet
  load_keyset_keys_quiet fetch_mint_info_quiet refresh_keysets_quiet load_mint_keysets_quiet fetch_active_keyset_quiet
  get_active_keyset_quiet get_mint_keysets_quiet_c get_keyset_fees_and_amounts_quiet get_fees_by_id_quiet get_proofs_fee_quiet
  get_keyset_count_fee_quiet get_proofs_with_quiet determine_split_target_values_quiet total_quiet add_redeem_fee_quiet
  secrets_needed_quiet swap_outputs_for_quiet proof_infos_quiet divide_proofs_quiet : keeps.

(** ** Outputs *)
Section outputs.
Context {CR : Crypto} {CV : Curve CR} {BP : Bip32 CR} {KDF : SeedKdf CR BP} {SD : Serde}.

(** Both records of an output's amount. *)
Definition amounts_are (l : list PreMint) (parts : list N) : Prop :=
  pm_amount <$> l = parts /\ (bm_amount ∘ pm_blinded_message <$> l) = parts.

Lemma pre_mint_amount kid s f fr a p : pre_mint kid s f fr a = Ok p -> pm_amount p = a /\ bm_amount (pm_blinded_message p) = a /\ pm_secret p = s.
Proof. unfold pre_mint. destruct (blind_message s f fr) as [[b r]| |]; [|done..]. by intros [= <-]. Qed.

Lemma from_seed_loop_amounts seed kid parts : forall c l, from_seed_loop seed kid c parts = Ok l -> amounts_are l parts.
Proof.
  induction parts as [|a parts IH]; intros c l; cbn [from_seed_loop]; [by intros [= <-]|].
  unfold pre_mint_from_seed. destruct (secret_from_seed _ _ _); [|done..]. destruct (key_from_seed _ _ _); [|done..].
  destruct (pre_mint _ _ _ _ _) as [p| |] eqn:Hp; [|done..]. destruct (from_seed_loop _ _ _ parts) as [l'| |] eqn:Hl; [|done..].
  intros [= <-]. apply pre_mint_amount in Hp as (<- & Hb & _). apply IH in Hl as [<- Hl]. split; [done|]. rewrite fmap_cons, Hl.
  cbn. by rewrite Hb.
Qed.

Lemma from_seed_amounts fuel kid c seed a t fa pms : from_seed fuel kid c seed a t fa = Some (Ok pms) ->
  pms_keyset_id pms = kid /\
  exists parts, Amount.split_targeted fuel a t fa = Some (Ok parts) /\ from_seed_loop seed kid c parts = Ok (pms_secrets pms) /\
    amounts_are (pms_secrets pms) parts.
Proof.
  unfold from_seed. destruct (Amount.split_targeted fuel a t fa) as [[parts| |]|]; cbn; try done.
  destruct (from_seed_loop seed kid c parts) as [l| |] eqn:Hl; try done. intros [= <-]. split; [done|].
  exists parts. split_and!; [done..|]. by apply from_seed_loop_amounts in Hl.
Qed.

Lemma random_loop_amounts kid f g parts : forall i l, random_loop kid f g i parts = Ok l -> amounts_are l parts.
Proof.
  induction parts as [|a parts IH]; intros c l; cbn [random_loop]; [by intros [= <-]|].
  destruct (pre_mint _ _ _ _ _) as [p| |] eqn:Hp; [|done..]. destruct (random_loop _ _ _ _ parts) as [l'| |] eqn:Hl; [|done..].
  intros [= <-]. apply pre_mint_amount in Hp as (<- & Hb & _). apply IH in Hl as [<- Hl]. split; [done|]. rewrite fmap_cons, Hl.
  cbn. by rewrite Hb.
Qed.

Lemma with_conditions_amounts fuel kid n g a t sc fa pms : with_conditions fuel kid n g a t sc fa = Some (Ok pms) ->
  pms_keyset_id pms = kid /\
  exists parts, Amount.split_targeted fuel a t fa = Some (Ok parts) /\ amounts_are (pms_secrets pms) parts.
Proof.
  unfold with_conditions, random. destruct (Amount.split_targeted fuel a t fa) as [[parts| |]|]; cbn; try done.
  destruct (random_loop _ _ _ _ parts) as [l| |] eqn:Hl; try done. intros [= <-]. split; [done|].
  exists parts. split; [done|]. by apply random_loop_amounts in Hl.
Qed.

Lemma amounts_are_length l parts : amounts_are l parts -> length l = length parts.
Proof. intros [<- _]. by rewrite length_fmap. Qed.

Lemma insert_pm_perm p l : insert_pm p l ≡ₚ p :: l.
Proof. induction l as [|q l IH]; cbn; [done|]. destruct (_ <=? _); [done|]. rewrite IH. constructor. Qed.
Lemma sort_secrets_perm pms : pms_secrets (sort_secrets pms) ≡ₚ pms_secrets pms.
Proof. cbn. induction (pms_secrets pms) as [|p l IH]; cbn; [done|]. by rewrite insert_pm_perm, IH. Qed.

(** The secrets of a range of counters: the output at place [i] of the range
    is the one of the counter [c + i]. *)
Definition derived_at (seed : string) (kid : KeyId) (c : N) (s : string) : Prop := secret_from_seed seed kid c = Ok s.

Fixpoint counters (c : N) (n : nat) : list N := match n with 0%nat => [] | Datatypes.S n => c :: counters (c + 1) n end.
Lemma elem_of_counters n : forall c i, i ∈ counters c n <-> c <= i < c + N.of_nat n.
Proof. induction n as [|n IH]; intros c i; cbn [counters]; [rewrite elem_of_nil|rewrite elem_of_cons, IH]; lia. Qed.
Lemma NoDup_counters n : forall c, NoDup (counters c n).
Proof. induction n as [|n IH]; intros c; constructor; [rewrite elem_of_counters; lia|apply IH]. Qed.
Lemma counters_app n m : forall c, counters c (n + m) = counters c n ++ counters (c + N.of_nat n) m.
Proof. induction n as [|n IH]; intros c; cbn [counters Nat.add app]; [f_equal; lia|]. rewrite IH. do 3 f_equal. lia. Qed.

Definition derived_all (seed : string) (kid : KeyId) (l : list PreMint) (cs : list N) : Prop :=
  Forall2 (fun p c => derived_at seed kid c (pm_secret p)) l cs.

Lemma from_seed_loop_derived seed kid parts : forall c l, from_seed_loop seed kid c parts = Ok l ->
  c + N.of_nat (length parts) <= 2 ^ 32 -> derived_all seed kid l (counters c (length parts)).
Proof.
  induction parts as [|a parts IH]; intros c l; cbn [from_seed_loop length]; [intros [= <-] _; constructor|].
  unfold pre_mint_from_seed. destruct (secret_from_seed _ _ _) as [s| |] eqn:Hs; [|done..]. destruct (key_from_seed _ _ _); [|done..].
  destruct (pre_mint _ _ _ _ _) as [p| |] eqn:Hp; [|done..]. destruct (from_seed_loop _ _ _ parts) as [l'| |] eqn:Hl; [|done..].
  intros [= <-] Hc. apply pre_mint_amount in Hp as (_ & _ & <-). cbn [counters]. constructor; [done|].
  destruct parts as [|b parts]; [injection Hl as <-; constructor|]. cbn [length] in Hc. rewrite N.mod_small in Hl by lia.
  apply IH in Hl; [done|]. cbn [length]. lia.
Qed.

Lemma from_seed_loop_secrets seed kid parts : forall c l, from_seed_loop seed kid c parts = Ok l ->
  Forall (fun p => exists i, derived_at seed kid i (pm_secret p)) l.
Proof.
  induction parts as [|a parts IH]; intros c l; cbn [from_seed_loop]; [by intros [= <-]|].
  unfold pre_mint_from_seed. destruct (secret_from_seed _ _ _) as [s| |] eqn:Hs; [|done..]. destruct (key_from_seed _ _ _); [|done..].
  destruct (pre_mint _ _ _ _ _) as [p| |] eqn:Hp; [|done..]. destruct (from_seed_loop _ _ _ parts) as [l'| |] eqn:Hl; [|done..].
  intros [= <-]. apply pre_mint_amount in Hp as (_ & _ & <-). constructor; [by exists c|by eapply IH].
Qed.

End outputs.

(** ** Swaps *)
Section swaps.
Context {CR : Crypto} {CV : Curve CR} {BP : Bip32 CR} {KDF : SeedKdf CR BP} {SD : Serde} {PD : EqDecision Proof}.
Context {MintInfo W StoreErr S NetErr : Type} {ST : WalletStore CR MintInfo W StoreErr}.
Context {MC : WalletConnector CR MintInfo S NetErr} {MI : MintInfoView MintInfo}.
Context {WV : WalletView CR W} {SL : WalletStoreLaws CR MintInfo W StoreErr ST WV}.
Context (fuel : nat) (self : Wallet).

Abbreviation Client := (Client W S).
Abbreviation WM := (Wm (W:=W) (StoreErr:=StoreErr) (S:=S) (NetErr:=NetErr)).

Lemma key_of_Some id kid : key_of id = Some kid -> id = id_to_string kid.
Proof. unfold key_of. destruct (id_try_from id) as [k| |]; [|done..]. by case_decide; [intros [= <-]|]. Qed.

(** The keysets a refresh returns have counters. *)
Lemma refresh_keysets_counted now (w w' : Client) l : (refresh_keysets self now : WM _) w = (Ok l, w') ->
  Forall (fun k => counted (cl_store w') (ki_id k)) l.
Proof.
  unfold refresh_keysets. intros (i & w1 & _ & H)%mseq_Ok. apply mseq_Ok in H as (all & w2 & _ & H).
  apply mseq_Ok in H as ([] & w3 & [Ha _]%store_Ok & H). apply mseq_Ok in H as ([] & w4 & Hf & [= <- <-]).
  apply add_mint_keysets_counted in Ha. apply (keeps_run quiet_c) in Hf as (_ & _ & Hk); [|keep].
  apply Forall_forall. intros k [_ Hin]%list_elem_of_filter. rewrite Forall_forall in Ha. by apply Hk, Ha.
Qed.

Lemma min_by_fee_elem l k : min_by_fee l = Some k -> k ∈ l /\ forall k', k' ∈ l -> ki_input_fee_ppk k <= ki_input_fee_ppk k'.
Proof.
  revert k. induction l as [|a l IH]; intros k; cbn [min_by_fee]; [done|]. destruct (min_by_fee l) as [m|] eqn:Hm.
  - destruct (IH m eq_refl) as [Hin Hmin]. intros [= <-]. destruct (N.leb_spec (ki_input_fee_ppk a) (ki_input_fee_ppk m)) as [Hle|Hlt].
    + split; [by left|]. intros k' [->|Hk']%elem_of_cons; [done|]. specialize (Hmin k' Hk'). lia.
    + split; [by right|]. intros k' [->|Hk']%elem_of_cons; [lia|by apply Hmin].
  - intros [= <-]. destruct l as [|b l]; [|cbn in Hm; by destruct (min_by_fee l)]. split; [by left|].
    by intros k' ->%list_elem_of_singleton.
Qed.

Lemma fetch_active_keyset_Ok now (w w' : Client) k : (fetch_active_keyset self now : WM _) w = (Ok k, w') ->
  counted (cl_store w') (ki_id k) /\ ki_active k = true /\ ki_unit k = wl_unit self.
Proof.
  unfold fetch_active_keyset. intros (l & w1 & Hr & [Hm%ok_or_Ok ->]%mlift_Ok)%mseq_Ok.
  pose proof (refresh_keysets_counted _ _ _ _ Hr) as Hc. apply min_by_fee_elem in Hm as [Hin _].
  unfold active in Hin. apply list_elem_of_filter in Hin as [Ha Hin]. rewrite Forall_forall in Hc. split_and!; [by apply Hc|done|].
  unfold refresh_keysets in Hr. repeat (apply mseq_Ok in Hr as (? & ? & _ & Hr)). injection Hr as <- _.
  by apply list_elem_of_filter in Hin as [? _].
Qed.

Lemma reserve_counters_Ok id n (w w' : Client) c : counted (cl_store w) id -> n < 2 ^ 32 -> counter_of (cl_store w) id + n < 2 ^ 32 ->
  (reserve_counters id n : WM _) w = (Ok c, w') ->
  proofs_of (cl_store w') = proofs_of (cl_store w) /\
  (forall id', counter_of (cl_store w') id' = counter_of (cl_store w) id' + if decide (id' = id) then n else 0) /\
  (0 < n -> c = counter_of (cl_store w) id).
Proof.
  unfold reserve_counters. intros Hc Hn Hlt. destruct (N.ltb_spec 0 n) as [Hpos|Hz].
  - intros (nc & w1 & [Hi _]%store_Ok & [= <- <-])%mseq_Ok. pose proof (increment_proofs _ _ _ _ _ Hi) as (Hp & Ho & _).
    apply increment_Ok in Hi as [-> Hc']; [|done]. rewrite N.mod_small in Hc' |- * by done. split_and!; [done| |].
    + intros id'. destruct (decide (id' = id)) as [->|Hne]; [done|]. rewrite Ho by done. lia.
    + intros _. unfold u32_sub. replace (counter_of (cl_store w) id + n + 2 ^ 32 - n) with (counter_of (cl_store w) id + 1 * 2 ^ 32) by lia.
      rewrite N.Div0.mod_add. apply N.mod_small. lia.
  - intros [= <- <-]. assert (n = 0) as -> by lia. split_and!; [done| |lia]. intros id'. destruct (decide _); lia.
Qed.

Lemma secrets_needed_Ok sc a c t fa n (w w' : Client) : (secrets_needed fuel sc a c t fa : WM _) w = (Ok n, w') ->
  exists sp cp, Amount.split_targeted fuel c t fa = Some (Ok cp) /\
    match sc with Some _ => sp = [] | None => Amount.split_targeted fuel a Amount.STNone fa = Some (Ok sp) end /\
    n = (N.of_nat (length sp) + N.of_nat (length cp)) mod 2 ^ 32.
Proof.
  unfold secrets_needed, split_for. destruct sc.
  - intros (cp & w1 & [Hc ->]%fueled_Ok & [= <- <-])%mseq_Ok. exists [], cp. by rewrite N.add_0_l.
  - intros (sp & w1 & [Hs ->]%fueled_Ok & H)%mseq_Ok. apply mseq_Ok in H as (cp & w2 & [Hc ->]%fueled_Ok & [= <- <-]).
    exists sp, cp. split_and!; [done..|]. unfold u32_add, len_u32. by rewrite <- N.Div0.add_mod.
Qed.


(** The outputs of a swap: those to send and those to keep, with the counters
    they are derived from. *)
Definition outputs_from (rnd : Random) (kid : KeyId) (sc : option SpendingConditions) (start send change : N)
    (target : Amount.SplitTarget) (fa : Amount.FeeAndAmounts) (sent kept : PreMintSecrets) : Prop :=
  match sc with
  | Some c => with_conditions fuel kid (rnd_secret rnd) (rnd_factor rnd) send Amount.STNone c fa = Some (Ok sent) /\
      from_seed fuel kid start (wl_seed self) change target fa = Some (Ok kept)
  | None => from_seed fuel kid start (wl_seed self) send Amount.STNone fa = Some (Ok sent) /\
      from_seed fuel kid (u32_add start (len_u32 (pms_secrets sent))) (wl_seed self) change target fa = Some (Ok kept)
  end.

Lemma swap_outputs_for_Ok rnd kid start sc send change t fa sent kept n (w w' : Client) :
  (swap_outputs_for fuel self rnd kid start sc send change t fa : WM _) w = (Ok (sent, kept, n), w') ->
  outputs_from rnd kid sc start send change t fa sent kept /\ w' = w.
Proof.
  unfold swap_outputs_for, outputs_from, from_seed_for. destruct sc as [cnd|].
  - intros (k & w1 & [Hk ->]%fueled_Ok & H)%mseq_Ok. apply mseq_Ok in H as (s & w2 & [Hs ->]%fueled_Ok & [= <- <- <- <-]). done.
  - intros (s & w1 & [Hs ->]%fueled_Ok & H)%mseq_Ok. apply mseq_Ok in H as (k & w2 & [Hk ->]%fueled_Ok & [= <- <- <- <-]). done.
Qed.

(** Nothing is split into no parts. *)
Lemma split_zero fa parts : Amount.split_targeted fuel 0 Amount.STNone fa = Some (Ok parts) -> parts = [].
Proof.
  cbn [Amount.split_targeted]. unfold Amount.split. destruct (fold_left _ _ _) as [[acc r]| |] eqn:Hf; [|done..].
  pose proof (Amount.fold_split_step_pos _ _ _ Hf) as Hpos. destruct (Amount.fold_split_step _ [] 0 Hpos) as [rest Hr].
  rewrite Hr in Hf. injection Hf as <- _. rewrite Amount.greedy_zero by done. by intros [= <-].
Qed.

Lemma add_redeem_fee_Ok id a c fa s c' (w w' : Client) : (add_redeem_fee fuel id a c fa : WM _) w = (Ok (s, c'), w') ->
  default 0 s + c' = default 0 a + c.
Proof.
  unfold add_redeem_fee. intros (parts & w1 & [Hp ->]%fueled_Ok & H)%mseq_Ok.
  apply mseq_Ok in H as (r & w2 & Hr & H). apply mlift_seq in H as (s' & Hs & H). apply mlift_seq in H as (c2 & Hc & [= <- <- <-]).
  apply ok_or_Ok, u64_checked_sub_Some in Hc as [-> Hle]. destruct a as [a|]; cbn [default] in *.
  - destruct (Amount.checked_add a r) as [x|] eqn:Hx; [|done]. injection Hs as <-. apply u64_checked_add_Some in Hx as [-> _]. cbn. lia.
  - injection Hs as <-. cbn. assert (r = 0) as ->; [|lia].
    assert (Hq : Amount.split_targeted fuel 0 Amount.STNone fa = Some (Ok parts)).
    { cbn [Amount.split_targeted] in *. cbn in Hp. by destruct (let? p := Amount.split 0 fa in _) as [q| |]; [injection Hp as ->|..]. }
    apply split_zero in Hq as ->. unfold get_keyset_count_fee in Hr.
    apply mseq_Ok in Hr as (i & w3 & _ & Hr). apply mlift_seq in Hr as (k & _ & [= <- _]). cbn.
    unfold u64_wrapping_mul. by rewrite N.mul_0_r.
Qed.

Record Plan := mkPlan {
  pl_id : Id;
  pl_kid : KeyId;
  pl_ys : list pubkey;
  pl_fa : Amount.FeeAndAmounts;
  pl_send : N;
  pl_change : N;
  pl_target : Amount.SplitTarget;
  pl_count : N;
  pl_start : N;
  pl_sent : PreMintSecrets;
  pl_kept : PreMintSecrets;
}.

(** What [create_swap] has done when it returns: the inputs are reserved, then
    the counters, and the request is made of the outputs. *)
Definition planned (rnd : Random) (amount : option N) (proofs : list Proof) (sc : option SpendingConditions) (w w' : Client)
    (pre : PreSwap) (p : Plan) : Prop :=
  (pl_id p = id_to_string (pl_kid p) /\ ys proofs = Ok (pl_ys p)) /\
  (exists w2 w3, proofs_of (cl_store w2) ≡ₚ (restate (pl_ys p) Nut07.Reserved <$> proofs_of (cl_store w)) /\
     counts_c w w2 /\ counted (cl_store w2) (pl_id p) /\
     (exists w2', secrets_needed fuel sc (pl_send p) (pl_change p) (pl_target p) (pl_fa p) w2' = (Ok (pl_count p) : res (@Error StoreErr NetErr) N, w2)) /\
     (reserve_counters (pl_id p) (pl_count p) : WM _) w2 = (Ok (pl_start p), w3) /\ quiet_c w3 w') /\
  (pl_send p + pl_change p + ps_fee pre = sumN (Nut00.amount <$> proofs)) /\
  (exists w1 w2, (get_keyset_fees_and_amounts_by_id self (pl_id p) : WM _) w1 = (Ok (pl_fa p), w2)) /\
  outputs_from rnd (pl_kid p) sc (pl_start p) (pl_send p) (pl_change p) (pl_target p) (pl_fa p) (pl_sent p) (pl_kept p) /\
  ps_pre_mint_secrets pre = sort_secrets (combine (pl_sent p) (pl_kept p)) /\
  ps_swap_request pre = SwapRequest_new proofs (blinded_messages (ps_pre_mint_secrets pre)).

Lemma total_run l n (w w' : Client) : (total l : WM _) w = (Ok n, w') -> n = sumN (Nut00.amount <$> l) /\ w' = w.
Proof.
  unfold total, amt. intros [H ->]%lifted_Ok. split; [|done]. unfold total_amount in H.
  by apply Amount.try_sum_Ok in H as [-> _].
Qed.

(** What a swap works out before it splits anything: the fee of its inputs, and
    the denominations of the active keyset. *)
Definition swap_terms (now : N) (proofs : list Proof) : WM (N * Amount.FeeAndAmounts) :=
  do k <- fetch_active_keyset self now ;
  do pys <- dhke (ys proofs) ;
  do_ store (st_update_proofs_state pys Nut07.Reserved) ;
  do fee <- get_proofs_fee proofs ;
  do fa <- get_keyset_fees_and_amounts_by_id self (ki_id k) ;
  mret (fee, fa).

Lemma create_swap_planned now rnd amount ast proofs sc incl (w w' : Client) pre :
  (create_swap fuel self now rnd amount ast proofs sc incl : WM _) w = (Ok pre, w') ->
  exists p, planned rnd amount proofs sc w w' pre p /\ (incl = false -> pl_send p = default 0 amount) /\
    fst (swap_terms now proofs w) = Ok (ps_fee pre, pl_fa p).
Proof.
  unfold create_swap. intros (k & w1 & Hk & H)%mseq_Ok. unfold swap_terms, mseq at 1. rewrite Hk.
  pose proof (keeps_run quiet_c _ _ _ _ (fetch_active_keyset_quiet self now) Hk) as Q1.
  apply fetch_active_keyset_Ok in Hk as (Hcnt & _).
  apply mseq_Ok in H as (kid & w1' & [Hkid%ok_or_Ok%key_of_Some ->]%mlift_Ok & H). apply mseq_Ok in H as (tot & w2 & [-> ->]%total_run & H).
  apply mseq_Ok in H as (pys & w2 & [Hys ->]%lifted_Ok & H). apply mseq_Ok in H as ([] & w3 & Hst & H).
  unfold mseq at 1, dhke, mlift. rewrite Hys. cbn [map_err]. unfold mseq at 1. rewrite Hst.
  pose proof (keeps_run counts_c _ _ _ _ (store_counts _ (update_proofs_state_counts _ _)) Hst) as Q3.
  apply store_Ok in Hst as [Hst%update_proofs_state_Ok _].
  apply mseq_Ok in H as (fee & w4 & Hfee & H). unfold mseq at 1. rewrite Hfee. apply (keeps_run quiet_c) in Hfee as Q4; [|keep].
  apply mlift_seq in H as (sub & Hsub%ok_or_Ok & H). apply mlift_seq in H as (chg & Hchg%ok_or_Ok & H).
  apply u64_checked_add_Some in Hsub as [-> _]. apply u64_checked_sub_Some in Hchg as [-> Hle].
  apply mseq_Ok in H as (fa & w5 & Hfa & H). unfold mseq. rewrite Hfa. cbn [mret fst]. pose proof Hfa as Hfa'. apply (keeps_run quiet_c) in Hfa' as Q5; [|keep].
  apply mseq_Ok in H as ([sa ca] & w6 & Hsa & H).
  assert (Q6 : quiet_c w5 w6) by (revert Hsa; destruct incl; apply keeps_run; keep).
  assert (Hbal : default 0 sa + ca = default 0 amount + (sumN (Nut00.amount <$> proofs) - (default 0 amount + fee))).
  { destruct incl; [by apply add_redeem_fee_Ok in Hsa|by injection Hsa as <- <- _]. }
  apply mseq_Ok in H as (t & w7 & Ht & H). assert (Q7 : quiet_c w6 w7) by (revert Ht; destruct ast; apply keeps_run; keep).
  apply mseq_Ok in H as (n & w8 & Hn & H). pose proof Hn as Hn'. apply (keeps_run quiet_c) in Hn' as Q8; [|keep].
  apply mseq_Ok in H as (start & w9 & Hres & H). apply mseq_Ok in H as ([[sent kept] d] & w10 & [Hout ->]%swap_outputs_for_Ok & [= <- <-]).
  pose proof (transitivity Q4 (transitivity Q5 (transitivity Q6 (transitivity Q7 Q8)))) as Q.
  exists (mkPlan (ki_id k) kid pys fa (default 0 sa) ca t n start sent kept). unfold planned. cbn.
  split; [|split; [intros ->; by injection Hsa as <- _|done]]. split; [done|]. split; [|split_and!; [lia|by eauto|done..]]. exists w8, w9. destruct Q as (Qp & Qc), Q1 as (Q1p & Q1c).
  rewrite Qp, Hst, Q1p. split; [done|]. split; [|split_and!].
  - unfold counts_c, along. etrans; [exact Q1c|]. etrans; [exact Q3|exact Qc].
  - apply Qc, Q3, Hcnt.
  - eauto.
  - done.
  - reflexivity.
Qed.


(** The keyset of the outputs, and their amounts. *)
Lemma outputs_from_Ok rnd kid sc start send change t fa sent kept :
  outputs_from rnd kid sc start send change t fa sent kept ->
  pms_keyset_id sent = kid /\
  exists sp cp, Amount.split_targeted fuel send Amount.STNone fa = Some (Ok sp) /\ Amount.split_targeted fuel change t fa = Some (Ok cp) /\
    amounts_are (pms_secrets sent) sp /\ amounts_are (pms_secrets kept) cp.
Proof.
  unfold outputs_from. destruct sc as [cnd|]; intros [Hs Hk].
  - apply with_conditions_amounts in Hs as (<- & sp & Hsp & Hsa). apply from_seed_amounts in Hk as (_ & cp & Hcp & _ & Hca). eauto 10.
  - apply from_seed_amounts in Hs as (<- & sp & Hsp & _ & Hsa). apply from_seed_amounts in Hk as (_ & cp & Hcp & _ & Hca). eauto 10.
Qed.

Lemma planned_amounts rnd amount proofs sc w w' pre p : planned rnd amount proofs sc w w' pre p ->
  pms_keyset_id (ps_pre_mint_secrets pre) = pl_kid p /\
  exists sp cp, Amount.split_targeted fuel (pl_send p) Amount.STNone (pl_fa p) = Some (Ok sp) /\
    Amount.split_targeted fuel (pl_change p) (pl_target p) (pl_fa p) = Some (Ok cp) /\
    (bm_amount <$> swap_outputs (ps_swap_request pre)) ≡ₚ sp ++ cp.
Proof.
  intros (_ & _ & _ & _ & Hout & Hpms & Hreq). apply outputs_from_Ok in Hout as (Hid & sp & cp & Hsp & Hcp & [_ Hs] & [_ Hc]).
  split; [by rewrite Hpms|]. exists sp, cp. split_and!; [done..|]. rewrite Hreq. cbn. unfold blinded_messages.
  rewrite Hpms, sort_secrets_perm, <- list_fmap_compose. cbn. by rewrite fmap_app, <- Hs, <- Hc.
Qed.

(** A swap that the wallet asks for never gives more than it takes: the
    request spends the given proofs, its outputs and the fee of the inputs are
    together at most the inputs, and they are exactly the inputs when the
    keyset has the powers of two above the amount as denominations. *)
Theorem create_swap_balanced now rnd amount ast proofs sc incl (w w' : Client) pre
    (Hrun : (create_swap fuel self now rnd amount ast proofs sc incl : WM _) w = (Ok pre, w')) :
  let outputs := sumN (bm_amount <$> swap_outputs (ps_swap_request pre)) in
  let inputs := sumN (Nut00.amount <$> proofs) in
  swap_inputs (ps_swap_request pre) = without_dleqs proofs /\
  outputs + ps_fee pre <= inputs /\
  (exists fa w1 w2,
     (get_keyset_fees_and_amounts_by_id self (id_to_string (pms_keyset_id (ps_pre_mint_secrets pre))) : WM _) w1 = (Ok fa, w2) /\
     forall k, Amount.amounts fa = Amount.pow2_amounts k -> inputs < 2 ^ N.of_nat k -> outputs + ps_fee pre = inputs).
Proof.
  cbn zeta. apply create_swap_planned in Hrun as (p & Hp & _). pose proof (planned_amounts _ _ _ _ _ _ _ _ Hp) as (Hkid & sp & cp & Hsp & Hcp & Ho).
  destruct Hp as ((Hid & _) & _ & Hbal & (w1 & w2 & Hfa) & _ & _ & Hreq). split_and!.
  - by rewrite Hreq.
  - rewrite Ho, sumN_app. apply SplitFacts.split_targeted_le in Hsp, Hcp. lia.
  - exists (pl_fa p), w1, w2. rewrite Hkid, <- Hid. split; [done|]. intros k Hk Hlt. rewrite Ho, sumN_app.
    apply (SplitFacts.split_targeted_pow2 fuel k _ _ _ _ Hk) in Hsp; [|lia].
    apply (SplitFacts.split_targeted_pow2 fuel k _ _ _ _ Hk) in Hcp; lia.
Qed.


(** The outputs of a swap that are derived from the seed: all of them, or the
    change when the others are locked. *)
Definition derived_of (sc : option SpendingConditions) (p : Plan) : list PreMint :=
  match sc with Some _ => pms_secrets (pl_kept p) | None => pms_secrets (pl_sent p) ++ pms_secrets (pl_kept p) end.

Lemma planned_count rnd amount proofs sc w w' pre p : planned rnd amount proofs sc w w' pre p ->
  pl_count p = N.of_nat (length (derived_of sc p)) mod 2 ^ 32.
Proof.
  intros (_ & (w2 & w3 & _ & _ & _ & (w2' & Hn) & _) & _ & _ & Hout & _). apply secrets_needed_Ok in Hn as (sp & cp & Hcp & Hsp & ->).
  f_equal. unfold derived_of. apply outputs_from_Ok in Hout as (_ & sp' & cp' & Hsp' & Hcp' & Hs%amounts_are_length & Hc%amounts_are_length).
  rewrite Hcp' in Hcp. injection Hcp as <-. destruct sc as [cnd|].
  - rewrite Hsp. cbn. lia.
  - rewrite Hsp' in Hsp. injection Hsp as <-. rewrite length_app. lia.
Qed.

(** The derived outputs take the counters from the stored one on, and the
    stored one moves past them. *)
Lemma planned_counters rnd amount proofs sc w w' pre p : planned rnd amount proofs sc w w' pre p ->
  let n := N.of_nat (length (derived_of sc p)) in
  let c := counter_of (cl_store w) (pl_id p) in
  c + n < 2 ^ 32 ->
  (forall id, counter_of (cl_store w') id = counter_of (cl_store w) id + if decide (id = pl_id p) then n else 0) /\
  derived_all (wl_seed self) (pl_kid p) (derived_of sc p) (counters c (length (derived_of sc p))).
Proof.
  intros Hp n c Hlt. pose proof (planned_count _ _ _ _ _ _ _ _ Hp) as Hn. rewrite N.mod_small in Hn by lia. fold n in Hn.
  destruct Hp as (_ & (w2 & w3 & _ & [Hw2 _] & Hcnt & _ & Hres & [_ [Hw3 _]]) & _ & _ & Hout & _).
  apply reserve_counters_Ok in Hres as (_ & Hc & Hstart); [|done|lia|rewrite Hw2; lia]. rewrite Hn, Hw2 in Hstart.
  split; [intros id; by rewrite Hw3, Hc, Hw2, Hn|].
  destruct (decide (n = 0)) as [Hz|Hz]. { unfold n in Hz. destruct (derived_of sc p); [apply Forall2_nil_2|done]. }
  specialize (Hstart ltac:(lia)). fold c in Hstart. rewrite Hstart in Hout. unfold n, derived_of in *.
  destruct sc as [cnd|]; destruct Hout as [Hs Hk].
  - apply from_seed_amounts in Hk as (_ & cp & _ & Hl & Ha%amounts_are_length). rewrite Ha in *.
    by apply from_seed_loop_derived in Hl; [|lia].
  - apply from_seed_amounts in Hs as (_ & sp & _ & Hls & Has%amounts_are_length).
    apply from_seed_amounts in Hk as (_ & cp & _ & Hlk & Hak%amounts_are_length). rewrite length_app, Has, Hak in *.
    apply from_seed_loop_derived in Hls; [|lia]. unfold u32_add, len_u32 in Hlk. rewrite Has, !N.mod_small in Hlk by (rewrite ?N.mod_small; lia).
    apply from_seed_loop_derived in Hlk; [|lia]. rewrite counters_app. by apply Forall2_app.
Qed.

Lemma derived_all_perm seed kid l l' cs : l ≡ₚ l' -> derived_all seed kid l cs -> exists cs', cs ≡ₚ cs' /\ derived_all seed kid l' cs'.
Proof. intros Hl H. by apply (Permutation_Forall2 Hl). Qed.

(** C24. Two swaps of one keyset without spending conditions never derive an
    output twice, nor does one swap: the outputs of a swap, those to send and
    those to keep, are derived from the
    seed at the counters that follow the stored one, one counter for each, and
    the stored counter ends behind them.  So when the counters have not been set
    back between the swaps, the outputs of both are derived at counters that are
    all different, and the stored counter is above them all. *)
Theorem swaps_use_new_counters now rnd amount ast proofs incl (w1 w1' : Client) pre1
    now' rnd' amount' ast' proofs' incl' (w2 w2' : Client) pre2
    (Hrun1 : (create_swap fuel self now rnd amount ast proofs None incl : WM _) w1 = (Ok pre1, w1'))
    (Hrun2 : (create_swap fuel self now' rnd' amount' ast' proofs' None incl' : WM _) w2 = (Ok pre2, w2'))
    (Hkeyset : pms_keyset_id (ps_pre_mint_secrets pre2) = pms_keyset_id (ps_pre_mint_secrets pre1))
    (Hafter : forall id, counter_of (cl_store w1') id <= counter_of (cl_store w2) id)
    (Hroom1 : forall id, counter_of (cl_store w1) id + N.of_nat (length (pms_secrets (ps_pre_mint_secrets pre1))) < 2 ^ 32)
    (Hroom2 : forall id, counter_of (cl_store w2) id + N.of_nat (length (pms_secrets (ps_pre_mint_secrets pre2))) < 2 ^ 32) :
  exists cs1 cs2, NoDup (cs1 ++ cs2) /\
    derived_all (wl_seed self) (pms_keyset_id (ps_pre_mint_secrets pre1)) (pms_secrets (ps_pre_mint_secrets pre1)) cs1 /\
    derived_all (wl_seed self) (pms_keyset_id (ps_pre_mint_secrets pre1)) (pms_secrets (ps_pre_mint_secrets pre2)) cs2 /\
    Forall (fun c => c < counter_of (cl_store w2') (id_to_string (pms_keyset_id (ps_pre_mint_secrets pre1)))) (cs1 ++ cs2).
Proof.
  apply create_swap_planned in Hrun1 as (p1 & Hp1 & _), Hrun2 as (p2 & Hp2 & _).
  pose proof (planned_amounts _ _ _ _ _ _ _ _ Hp1) as [Hk1 _]. pose proof (planned_amounts _ _ _ _ _ _ _ _ Hp2) as [Hk2 _].
  assert (Hl : forall pre p w w' r a ps, planned r a ps None w w' pre p -> pms_secrets (ps_pre_mint_secrets pre) ≡ₚ derived_of None p).
  { intros pre p ? ? ? ? ? (_ & _ & _ & _ & _ & Hpms & _). by rewrite Hpms, sort_secrets_perm. }
  pose proof (Hl _ _ _ _ _ _ _ Hp1) as Hl1. pose proof (Hl _ _ _ _ _ _ _ Hp2) as Hl2.
  apply planned_counters in Hp1 as Hc1; [|rewrite <- Hl1; apply Hroom1]. destruct Hc1 as [Hc1 Hd1].
  apply planned_counters in Hp2 as Hc2; [|rewrite <- Hl2; apply Hroom2]. destruct Hc2 as [Hc2 Hd2].
  assert (Hid : pl_id p1 = id_to_string (pms_keyset_id (ps_pre_mint_secrets pre1)) /\ pl_id p2 = pl_id p1).
  { destruct Hp1 as ((-> & _) & _), Hp2 as ((-> & _) & _). by rewrite <- Hk1, <- Hk2, Hkeyset. }
  destruct Hid as [Hid1 Hid2]. rewrite Hkeyset in Hk2. rewrite <- Hk1 in Hd1. rewrite <- Hk2 in Hd2. rewrite Hid2 in Hd2.
  apply (derived_all_perm _ _ _ _ _ (symmetry Hl1)) in Hd1 as (cs1 & Hcs1 & Hd1).
  apply (derived_all_perm _ _ _ _ _ (symmetry Hl2)) in Hd2 as (cs2 & Hcs2 & Hd2).
  exists cs1, cs2. rewrite <- Hid1. specialize (Hc1 (pl_id p1)). specialize (Hc2 (pl_id p1)). specialize (Hafter (pl_id p1)).
  rewrite Hid2 in Hc2. rewrite decide_True in Hc1, Hc2 by done. split_and!; [rewrite <- Hcs1, <- Hcs2|done|done|rewrite <- Hcs1, <- Hcs2].
  - apply NoDup_app. split_and!; [apply NoDup_counters| |apply NoDup_counters]. intros c. rewrite !elem_of_counters. lia.
  - apply Forall_app. split; apply Forall_forall; intros c; rewrite elem_of_counters; lia.
Qed.


(** Which proofs go where. *)
Lemma pick_amounts_perm l : forall ws a b a' b', pick_amounts ws l a b = (a', b') -> a' ++ b' ≡ₚ a ++ b ++ l.
Proof.
  induction l as [|p l IH]; intros ws a b a' b'; cbn [pick_amounts]; [intros [= <- <-]; by rewrite app_nil_r|].
  destruct (take_out (Nut00.amount p) ws) as [ws'|]; intros ->%IH.
  - rewrite <- (app_assoc a [p]). f_equiv. cbn. by rewrite <- Permutation_middle.
  - by rewrite <- (app_assoc b [p]).
Qed.

Lemma filter_bool_perm {A} (f : A -> bool) (l : list A) : filter (fun x => f x = true) l ++ filter (fun x => f x = false) l ≡ₚ l.
Proof.
  induction l as [|x l IH]; [done|]. rewrite !filter_cons. destruct (f x) eqn:Hx; cbn.
  - rewrite decide_True, decide_False by done. cbn. by rewrite IH.
  - rewrite decide_False, decide_True by done. by rewrite <- Permutation_middle, IH.
Qed.

(** Secrets from the seed are not spending conditions. *)
Definition plain_seed : Prop := forall kid c s, derived_at (wl_seed self) kid c s -> nut10_from_json s = None.

(** The infos of a list of proofs. *)
Definition infos_of (st : Nut07.State) (l : list Proof) (infos : list ProofInfo) : Prop :=
  pi_proof <$> infos = l /\
  Forall (fun i => pi_state i = st /\ pi_mint_url i = wl_mint_url self /\ pi_unit i = wl_unit self /\ y (pi_proof i) = Ok (pi_y i)) infos.

Lemma ProofInfo_new_Ok p u st c i : ProofInfo_new p u st c = Ok i ->
  pi_proof i = p /\ pi_state i = st /\ pi_mint_url i = u /\ pi_unit i = c /\ y p = Ok (pi_y i).
Proof.
  unfold ProofInfo_new. destruct (y p) as [k| |]; [|done..]. destruct (sc_try_from_secret (secret p)); [| |done]; by intros [= <-].
Qed.

Lemma proof_infos_Ok st l infos (w w' : Client) : (proof_infos self st (wl_unit self) l : WM _) w = (Ok infos, w') ->
  infos_of st l infos /\ w' = w.
Proof.
  unfold proof_infos, dhke. intros [H ->]%lifted_Ok. split; [|done]. apply collect_Ok in H.
  induction H as [|p i l infos (<- & Hst & Hu & Hc & Hy)%ProofInfo_new_Ok _ [IH1 IH2]]; [done|]. split; [cbn; by rewrite IH1|].
  constructor; [|done]. by split_and!.
Qed.

Lemma divide_proofs_Ok a t sc fa l sent kept (w w' : Client) : (divide_proofs fuel a t sc fa l : WM _) w = (Ok (sent, kept), w') ->
  (sc = None -> Forall (fun p => nut10_from_json (secret p) = None) l) -> sent ++ kept ≡ₚ l.
Proof.
  unfold divide_proofs. destruct sc as [cnd|]; intros H Hn.
  - injection H as <- <- _. apply filter_bool_perm.
  - apply mseq_Ok in H as (ws & w1 & _ & H). injection H as H _. apply pick_amounts_perm in H. rewrite H. cbn.
    rewrite <- Permutation_rev, filter_all; [done|]. specialize (Hn eq_refl). rewrite Forall_forall in Hn.
    intros p Hp. unfold is_nut10. rewrite bool_decide_eq_false, Hn by done. by intros [? ?].
Qed.


(** Outputs that are derived are plain. *)
Lemma planned_plain rnd amount proofs w w' pre p : plain_seed -> planned rnd amount proofs None w w' pre p ->
  Forall (fun s => nut10_from_json s = None) (pms_secret_list (ps_pre_mint_secrets pre)).
Proof.
  intros Hpl (_ & _ & _ & _ & [Hs Hk] & Hpms & _). unfold pms_secret_list. rewrite Hpms, sort_secrets_perm. cbn.
  apply from_seed_amounts in Hs as (_ & sp & _ & Hs%from_seed_loop_secrets & _).
  apply from_seed_amounts in Hk as (_ & cp & _ & Hk%from_seed_loop_secrets & _).
  rewrite Forall_fmap, Forall_app. split; eapply Forall_impl; [exact Hs| |exact Hk|]; intros q [i Hi]; by eapply Hpl.
Qed.

(** The run of [swap] that succeeds. *)
Lemma swap_inv now rnd amount ast proofs sc incl (w w' : Client) r :
  (swap fuel self now rnd amount ast proofs sc incl : WM _) w = (Ok r, w') ->
  exists w0 w1 w2 pre p sigs keys new send_infos keep_infos kept dys,
    (quiet_c w w0 /\ planned rnd amount proofs sc w0 w1 pre p /\ (incl = false -> pl_send p = default 0 amount) /\
     fst (swap_terms now proofs w0) = Ok (ps_fee pre, pl_fa p)) /\
    ((exists l, (refresh_keysets self now : WM _) w = (Ok l, w0)) /\
     (create_swap fuel self now rnd amount ast proofs sc incl : WM _) w0 = (Ok pre, w1)) /\
    cl_post_swap (ps_swap_request pre) (cl_mint w1) = (Ok sigs, cl_mint w2) /\ cl_store w2 = cl_store w1 /\
    construct_proofs sigs (rs (ps_pre_mint_secrets pre)) (pms_secret_list (ps_pre_mint_secrets pre)) keys = Ok new /\
    match amount with
    | Some a => exists sent fa (w3 w4 w6 : Client), r = Some sent /\
        (get_keyset_fees_and_amounts_by_id self (id_to_string (pms_keyset_id (ps_pre_mint_secrets pre))) : WM _) w2 = (Ok fa, w6) /\
        (divide_proofs fuel a ast sc fa new : WM _) w3 = (Ok (sent, kept), w4) /\
        infos_of Nut07.Reserved sent send_infos
    | None => r = None /\ kept = new /\ send_infos = []
    end /\
    infos_of Nut07.Unspent kept keep_infos /\ ys proofs = Ok dys /\
    (exists w5, quiet_c w2 w5 /\ st_update_proofs (send_infos ++ keep_infos) dys (cl_store w5) = (Ok tt, cl_store w')).
Proof.
  unfold swap. intros (l & w0 & H0 & H)%mseq_Ok. apply (keeps_run quiet_c) in H0 as Q0; [|keep].
  apply mseq_Ok in H as (pre & w1 & Hpre & H). destruct (create_swap_planned _ _ _ _ _ _ _ _ _ _ Hpre) as (p & Hp & Hs). apply mseq_Ok in H as (sigs & w2 & [Hn1 Hn2]%net_Ok & H).
  apply mseq_Ok in H as (fa & w3 & Hfa & H). apply (keeps_run quiet_c) in Hfa as Q3; [|keep].
  apply mseq_Ok in H as (found & w4 & Hk & H). apply (keeps_run quiet_c) in Hk as Q4; [|keep].
  apply mlift_seq in H as (keys & _ & H). apply mseq_Ok in H as (new & w5 & [Hnew ->]%lifted_Ok & H).
  apply mseq_Ok in H as ([[si kept] sp] & w6 & Hd & H).
  apply mseq_Ok in H as (ki & w7 & [Hki ->]%proof_infos_Ok & H). apply mseq_Ok in H as (dys & w8 & [Hdys ->]%lifted_Ok & H).
  apply mseq_Ok in H as ([] & w9 & [Hu _]%store_Ok & [= <- <-]).
  exists w0, w1, w2, pre, p, sigs, keys, new, si, ki, kept, dys. split; [done|]. split; [by split; [exists l|]|]. do 3 (split; [done|]).
  assert (Q6 : quiet_c w4 w6). { revert Hd. apply keeps_run. keep. }
  split; [|split; [done|split; [done|]]].
  - destruct amount as [a|]; [|by injection Hd as <- <- <- _].
    apply mseq_Ok in Hd as ([sent kept'] & w10 & Hdiv & Hd). apply mseq_Ok in Hd as (n & w11 & _ & Hd).
    apply mseq_Ok in Hd as (m & w12 & _ & Hd). apply mseq_Ok in Hd as (infos & w13 & [Hi _]%proof_infos_Ok & [= <- <- <- _]).
    exists sent, fa, w4, w10, w3. done.
  - exists w6. split; [|done]. etrans; [exact Q3|]. by etrans.
Qed.


Lemma take_out_Some a l l' : take_out a l = Some l' -> l ≡ₚ a :: l'.
Proof.
  revert l'. induction l as [|x l IH]; intros l'; cbn [take_out]; [done|]. destruct (N.eqb_spec x a) as [->|]; [by intros [= <-]|].
  destruct (take_out a l) as [r|]; [|done]. intros [= <-]. rewrite (IH r eq_refl). constructor.
Qed.
Lemma take_out_None a l : take_out a l = None -> a ∉ l.
Proof.
  induction l as [|x l IH]; cbn [take_out]; [intros _; apply not_elem_of_nil|]. destruct (N.eqb_spec x a) as [->|]; [done|].
  destruct (take_out a l) as [r|]; [done|]. intros _. apply not_elem_of_cons. split; [done|]. by apply IH.
Qed.

(** Amounts that are all there are all picked. *)
Lemma pick_amounts_all l : forall ws a b a' b', pick_amounts ws l a b = (a', b') -> ws ⊆+ (Nut00.amount <$> l) ->
  (Nut00.amount <$> a') ≡ₚ (Nut00.amount <$> a) ++ ws.
Proof.
  induction l as [|p l IH]; intros ws a b a' b'; cbn [pick_amounts].
  { intros [= <- <-] ->%submseteq_nil_r. by rewrite app_nil_r. }
  rewrite fmap_cons. destruct (take_out (Nut00.amount p) ws) as [ws'|] eqn:Ht; intros H Hsub.
  - apply take_out_Some in Ht. rewrite Ht in Hsub. rewrite (IH _ _ _ _ _ H), Ht, fmap_app, <- app_assoc; [done|].
    apply submseteq_cons_l in Hsub as (l' & Hl%Permutation_cons_inv & Hsub). by rewrite Hl.
  - apply take_out_None in Ht. apply (IH _ _ _ _ _ H). apply submseteq_cons_r in Hsub as [?|(ws' & Hws & _)]; [done|].
    rewrite Hws in Ht. set_solver.
Qed.


(** A mint that signs what it is asked to sign. *)
Definition signs_swaps : Prop :=
  forall r m sigs m', cl_post_swap r m = (Ok sigs, m') -> (bs_amount <$> sigs) = (bm_amount <$> swap_outputs r).

Lemma restate_without dys st (l : list ProofInfo) : without dys (restate dys st <$> l) = without dys l.
Proof.
  unfold without, restate. induction l as [|p l IH]; [done|]. rewrite fmap_cons, !filter_cons, IH.
  case_bool_decide as Hin; cbn; [|done]. by rewrite !decide_False by (by intros ?).
Qed.
Lemma restate_same_ys dys st (l : list ProofInfo) : pi_y <$> (restate dys st <$> l) = pi_y <$> l.
Proof. rewrite <- list_fmap_compose. apply list_fmap_ext. intros _ p _. unfold restate. cbn. by case_bool_decide. Qed.

Lemma fresh_perm added removed (l l' : list ProofInfo) : (pi_y <$> l) ≡ₚ (pi_y <$> l') -> fresh added removed l -> fresh added removed l'.
Proof. intros Hl [Hn Hf]. split; [done|]. intros p Hp. rewrite <- Hl. by apply Hf. Qed.

(** Without conditions and target, the parts of the amount are found. *)
Lemma divided_exact k fa fa2 a sp new sent kept (w w' : Client) :
  Amount.split_targeted fuel a Amount.STNone fa = Some (Ok sp) -> Amount.amounts fa2 = Amount.pow2_amounts k ->
  Amount.amounts fa = Amount.amounts fa2 -> Forall (fun q => nut10_from_json (secret q) = None) new -> sp ⊆+ (Nut00.amount <$> new) ->
  a < 2 ^ N.of_nat k ->
  (divide_proofs fuel a Amount.STNone None fa2 new : WM _) w = (Ok (sent, kept), w') -> sumN (Nut00.amount <$> sent) = a.
Proof.
  intros Hsp Hk Hfa Hn Hsub Hlt. unfold divide_proofs. intros (ws & w1 & [Hws ->]%fueled_Ok & H)%mseq_Ok. injection H as H _.
  assert (Heq : ws = sp). { cbn [Amount.split_targeted] in *. unfold Amount.split in *. rewrite Hfa, Hws in Hsp. by injection Hsp. }
  subst ws. apply pick_amounts_all in H as ->.
  - cbn. by eapply SplitFacts.split_targeted_pow2.
  - rewrite <- Permutation_rev, filter_all; [done|]. rewrite Forall_forall in Hn. intros q Hq. unfold is_nut10.
    rewrite bool_decide_eq_false, Hn by done. by intros [? ?].
Qed.

(** The reserved inputs leave the store as the unreserved ones would. *)
Lemma without_swapped (l5 l l' : list ProofInfo) dys st added : l5 ≡ₚ (restate dys st <$> l) -> fresh added dys l ->
  (fresh added dys l5 -> l' ≡ₚ without dys l5 ++ added) -> l' ≡ₚ without dys l ++ added.
Proof.
  intros Hl5 Hf H. rewrite H by (eapply fresh_perm; [|exact Hf]; by rewrite Hl5, restate_same_ys). unfold without at 1. rewrite Hl5.
  by fold (without dys (restate dys st <$> l)); rewrite restate_without.
Qed.

Lemma reserve_counters_proofs id n (w w' : Client) c : (reserve_counters id n : WM _) w = (Ok c, w') ->
  proofs_of (cl_store w') = proofs_of (cl_store w).
Proof.
  unfold reserve_counters. destruct (0 <? n); [|by intros [= _ <-]].
  intros (nc & w1 & [Hi _]%store_Ok & [= _ <-])%mseq_Ok. by apply increment_proofs in Hi as [-> _].
Qed.

(** What a swap that returns has done to the store, whatever the mint has
    signed: the new proofs are made of its signatures. *)
Lemma swap_settled now rnd amount ast proofs sc incl (w w' : Client) r : plain_seed ->
  (swap fuel self now rnd amount ast proofs sc incl : WM _) w = (Ok r, w') ->
  exists w0 w1 w2 pre p sigs sent kept new send_infos keep_infos fa2 (w4 : Client),
    (((exists l, (refresh_keysets self now : WM _) w = (Ok l, w0)) /\
      (create_swap fuel self now rnd amount ast proofs sc incl : WM _) w0 = (Ok pre, w1)) /\
     cl_post_swap (ps_swap_request pre) (cl_mint w1) = (Ok sigs, cl_mint w2) /\ cl_store w2 = cl_store w1) /\
    (planned rnd amount proofs sc w0 w1 pre p /\ (incl = false -> pl_send p = default 0 amount) /\
     fst (swap_terms now proofs w0) = Ok (ps_fee pre, pl_fa p)) /\
    (r = (fun _ => sent) <$> amount /\ (amount = None -> sent = []) /\ sent ++ kept ≡ₚ new /\
     Nut00.amount <$> new = bs_amount <$> sigs /\ secret <$> new = pms_secret_list (ps_pre_mint_secrets pre)) /\
    (infos_of Nut07.Reserved sent send_infos /\ infos_of Nut07.Unspent kept keep_infos /\
     (fresh (send_infos ++ keep_infos) (pl_ys p) (proofs_of (cl_store w)) ->
      proofs_of (cl_store w') ≡ₚ without (pl_ys p) (proofs_of (cl_store w)) ++ send_infos ++ keep_infos)) /\
    (amount <> None -> (get_keyset_fees_and_amounts_by_id self (pl_id p) : WM _) w2 = (Ok fa2, w4)) /\
    (forall a, amount = Some a -> exists (w5 w6 : Client), (divide_proofs fuel a ast sc fa2 new : WM _) w5 = (Ok (sent, kept), w6)).
Proof.
  intros Hplain (w0 & w1 & w2 & pre & p & sigs & keys & new & si & ki & kept & dys & (Q0 & Hp & Hs & Hterms) & Hpre & Hpost & Hw2 & Hnew & Hd &
    Hki & Hdys & w5 & Q5 & Hu)%swap_inv.
  pose proof (planned_amounts _ _ _ _ _ _ _ _ Hp) as (Hkid & _). pose proof Hp as Hp'.
  destruct Hp as ((Hid & Hys) & (w3 & w4 & Hres & _ & _ & _ & Hr & Q4) & _).
  rewrite Hys in Hdys. injection Hdys as <-.
  assert (Hnp : sc = None -> Forall (fun q => nut10_from_json (secret q) = None) new).
  { intros ->. apply planned_plain in Hp'; [|done]. rewrite <- (CheckerFacts.construct_secrets _ _ _ _ _ Hnew) in Hp'. by rewrite Forall_fmap in Hp'. }
  assert (Hdiv : exists sent, r = (fun _ => sent) <$> amount /\ (amount = None -> sent = []) /\ infos_of Nut07.Reserved sent si /\
    sent ++ kept ≡ₚ new /\ exists fa2 (w8 : Client),
      (amount <> None -> (get_keyset_fees_and_amounts_by_id self (pl_id p) : WM _) w2 = (Ok fa2, w8)) /\
      forall a, amount = Some a -> exists (w9 w10 : Client), (divide_proofs fuel a ast sc fa2 new : WM _) w9 = (Ok (sent, kept), w10)).
  { destruct amount as [a|].
    - destruct Hd as (sent & fa & w6 & w7 & w9 & -> & Hg & Hdv & Hsi). exists sent. split_and!; [done..| |].
      + by eapply divide_proofs_Ok.
      + exists fa, w9. rewrite Hid, <- Hkid. split; [done|]. intros b [= <-]. eauto.
    - destruct Hd as (-> & -> & ->). exists []. split_and!; [done..|]. by exists (pl_fa p), w. }
  destruct Hdiv as (sent & Hr' & Hnone & Hsi & Hperm & fa2 & w8 & Hg & Hdv).
  exists w0, w1, w2, pre, p, sigs, sent, kept, new, si, ki, fa2, w8. split; [done|]. split; [done|].
  split; [split_and!; [done..|exact (CheckerFacts.construct_amounts _ _ _ _ _ Hnew)|exact (CheckerFacts.construct_secrets _ _ _ _ _ Hnew)]|].
  split; [|done]. do 2 (split; [done|]). intros Hfresh.
  apply (without_swapped (proofs_of (cl_store w5)) _ _ _ Nut07.Reserved); [|done|].
  - destruct Q5 as [-> _], Q4 as [Hq4 _], Q0 as [Hq0 _]. rewrite Hw2, Hq4, <- Hq0, <- Hres. apply reserve_counters_proofs in Hr. by rewrite Hr.
  - intros Hf. by apply update_proofs_Ok in Hu.
Qed.

(** The fee and the denominations that a whole swap works with, and the
    denominations it finds when it divides the new proofs. *)
Definition swap_charge (now : N) (proofs : list Proof) : WM (N * Amount.FeeAndAmounts) :=
  do_ refresh_keysets self now ; swap_terms now proofs.
Definition swap_parts now rnd amount ast proofs sc incl : WM Amount.FeeAndAmounts :=
  do_ refresh_keysets self now ;
  do pre <- create_swap fuel self now rnd amount ast proofs sc incl ;
  do_ net (cl_post_swap (ps_swap_request pre)) ;
  get_keyset_fees_and_amounts_by_id self (id_to_string (pms_keyset_id (ps_pre_mint_secrets pre))).

(** C20. A swap that returns has replaced its inputs: the inputs have left the
    store; the proofs to send, which it returns, are stored as reserved and the
    others as unspent; with a mint that signs the amounts it is asked for, new
    proofs and the fee that the wallet works out for the inputs are together
    worth no more than the inputs.  When the denominations of the active keyset
    are the powers of two above the amounts, they are worth exactly the inputs,
    and (when no conditions, no split target and no fee of the receiver are
    asked for, and the keyset has the same denominations at the end) the proofs
    to send are worth exactly the amount. *)
Theorem wallet_swap_success now rnd amount ast proofs sc incl (w w' : Client) r
    (Hrun : (swap fuel self now rnd amount ast proofs sc incl : WM _) w = (Ok r, w'))
    (Hsigns : signs_swaps) (Hplain : plain_seed) :
  exists sent kept fee fa send_infos keep_infos dys,
    r = (fun _ => sent) <$> amount /\ (amount = None -> sent = []) /\ ys proofs = Ok dys /\
    infos_of Nut07.Reserved sent send_infos /\ infos_of Nut07.Unspent kept keep_infos /\
    (fresh (send_infos ++ keep_infos) dys (proofs_of (cl_store w)) ->
     proofs_of (cl_store w') ≡ₚ without dys (proofs_of (cl_store w)) ++ send_infos ++ keep_infos) /\
    fst (swap_charge now proofs w) = Ok (fee, fa) /\
    sumN (Nut00.amount <$> sent ++ kept) + fee <= sumN (Nut00.amount <$> proofs) /\
    (forall k, Amount.amounts fa = Amount.pow2_amounts k -> sumN (Nut00.amount <$> proofs) < 2 ^ N.of_nat k ->
       sumN (Nut00.amount <$> sent ++ kept) + fee = sumN (Nut00.amount <$> proofs) /\
       (incl = false -> ast = Amount.STNone -> sc = None -> forall a, amount = Some a ->
          exists fa2, fst (swap_parts now rnd amount ast proofs sc incl w) = Ok fa2 /\
            (Amount.amounts fa2 = Amount.pow2_amounts k -> sumN (Nut00.amount <$> sent) = a))).
Proof.
  apply swap_settled in Hrun as (w0 & w1 & w2 & pre & p & sigs & sent & kept & new & si & ki & fa2 & w4 & (((l & Href) & Hcr) & Hpost & Hw2) & (Hp & Hs & Hterms) &
    (Hr & Hnone & Hperm & Ham & Hsec) & (Hsi & Hki & Hst) & Hg & Hdv); [|done].
  pose proof (planned_amounts _ _ _ _ _ _ _ _ Hp) as (Hkid & sp & cp & Hsp & Hcp & Ho). pose proof Hp as Hp'. pose proof Hpost as Hpost'.
  destruct Hp as ((Hid & Hys) & _ & Hbal & _ & _). apply Hsigns in Hpost. rewrite <- Ham in Hpost.
  assert (Hsum : sumN (Nut00.amount <$> sent ++ kept) = sumN sp + sumN cp) by (by rewrite Hperm, Hpost, Ho, sumN_app).
  exists sent, kept, (ps_fee pre), (pl_fa p), si, ki, (pl_ys p). do 5 (split; [done|]). rewrite Hsum. split; [done|].
  split; [unfold swap_charge, mseq; by rewrite Href|].
  split; [apply SplitFacts.split_targeted_le in Hsp, Hcp; lia|]. intros k Hk Hlt. split.
  - apply (SplitFacts.split_targeted_pow2 fuel k _ _ _ _ Hk) in Hsp; [|lia].
    apply (SplitFacts.split_targeted_pow2 fuel k _ _ _ _ Hk) in Hcp; lia.
  - intros -> -> -> a ->. exists fa2. split.
    + unfold swap_parts, mseq at 1. rewrite Href. unfold mseq at 1. rewrite Hcr. unfold mseq, net, mmap_err. rewrite Hpost'. cbn [map_err].
      rewrite Hkid, <- Hid. specialize (Hg ltac:(done)). destruct w2 as [st m]. cbn [cl_store cl_mint] in *. subst st. cbn [fst snd map_err].
      by rewrite Hg.
    + intros Hk2. destruct (Hdv a eq_refl) as (w9 & w10 & Hdiv). specialize (Hs eq_refl). cbn in Hs. subst a.
      apply planned_plain in Hp'; [|done]. rewrite <- Hsec, Forall_fmap in Hp'.
      eapply (divided_exact k (pl_fa p) fa2 _ sp); [done|done|by rewrite Hk|exact Hp'| |lia|exact Hdiv].
      rewrite Hpost, Ho. by apply submseteq_inserts_r.
Qed.


(** A swap that the mint refuses changes nothing at the mint that the
    wallet could undo, and leaves the inputs reserved: they are stored, but no
    longer among the unspent ones. *)
Theorem wallet_swap_refused now rnd amount ast proofs sc incl (w w0 w1 : Client) l pre e m
    (Hrefresh : (refresh_keysets self now : WM _) w = (Ok l, w0))
    (Hcreate : (create_swap fuel self now rnd amount ast proofs sc incl : WM _) w0 = (Ok pre, w1))
    (Hrefused : cl_post_swap (ps_swap_request pre) (cl_mint w1) = (Err e, m)) :
  exists w' dys, (swap fuel self now rnd amount ast proofs sc incl : WM _) w = (Err (NetFailed e), w') /\
    ys proofs = Ok dys /\ proofs_of (cl_store w') ≡ₚ (restate dys Nut07.Reserved <$> proofs_of (cl_store w)).
Proof.
  pose proof Hcreate as Hc. apply create_swap_planned in Hc as (p & ((_ & Hys) & (w2 & w3 & Hp & _ & _ & _ & Hr & [Q _]) & _) & _).
  apply (keeps_run quiet_c) in Hrefresh as Q0; [|keep]. destruct Q0 as [Q0 _].
  exists (mkClient (cl_store w1) m), (pl_ys p). split; [|split; [done|]].
  - unfold swap, mseq. rewrite Hrefresh, Hcreate. unfold net, mmap_err. by rewrite Hrefused.
  - cbn. rewrite Q. apply reserve_counters_proofs in Hr. by rewrite Hr, Hp, Q0.
Qed.

(** ** The check of pending proofs *)

(** Stored under their own key, each once. *)
Definition well_keyed (l : list ProofInfo) : Prop :=
  NoDup (pi_y <$> l) /\ Forall (fun i => y (pi_proof i) = Ok (pi_y i)) l.

(** A mint that answers for every key, in order. *)
Definition answers_states : Prop :=
  forall ks m states m', cl_post_check_state ks m = (Ok states, m') -> Nut07.ps_y <$> states = ks.

Lemma keys_of_stored l ks : Forall (fun i => y (pi_proof i) = Ok (pi_y i)) l -> ys (pi_proof <$> l) = Ok ks -> ks = (pi_y <$> l).
Proof.
  intros Hl H%collect_Ok. rewrite Forall2_fmap_l in H. induction H as [|i k l ks Hik _ IH]; [done|].
  apply Forall_cons in Hl as [Hi Hl]. change (y (pi_proof i) = Ok k) in Hik.
  rewrite Hi in Hik. injection Hik as <-. rewrite fmap_cons. f_equal. by apply IH.
Qed.

Lemma update_removed ks (w w' : Client) : (store (st_update_proofs [] ks) : WM _) w = (Ok tt, w') ->
  proofs_of (cl_store w') ≡ₚ without ks (proofs_of (cl_store w)).
Proof.
  intros [H _]%store_Ok. apply update_proofs_Ok in H; [by rewrite app_nil_r in H|]. split; [constructor|]. by intros p ?%not_elem_of_nil.
Qed.

Lemma states_partition states x : NoDup (Nut07.ps_y <$> states) -> x ∈ (Nut07.ps_y <$> states) ->
  x ∈ pending_ys states <-> (x ∉ spent_ys states).
Proof.
  unfold pending_ys, spent_ys. induction states as [|s states IH]; [by intros _ ?%not_elem_of_nil|].
  rewrite fmap_cons, NoDup_cons, elem_of_cons. intros [Hn Hd] Hx. rewrite !filter_cons.
  assert (Hsub : forall P `{forall z, Decision (P z)}, x ∈ Nut07.ps_y <$> filter P states -> x ∈ Nut07.ps_y <$> states).
  { intros P ?. rewrite !list_elem_of_fmap. intros (z & -> & [_ Hz]%list_elem_of_filter). eauto. }
  destruct (decide (Nut07.ps_state s = Nut07.Spent)) as [He|He].
  - rewrite (decide_False (P:=Nut07.ps_state s <> Nut07.Spent)) by (by intros ?). rewrite fmap_cons, elem_of_cons.
    destruct Hx as [->|Hx]; [|rewrite IH by done; set_solver]. split; [by intros ?%Hsub|]. intros Hc. exfalso. apply Hc. by left.
  - rewrite (decide_True (P:=Nut07.ps_state s <> Nut07.Spent)) by done. rewrite fmap_cons, elem_of_cons.
    destruct Hx as [->|Hx]; [|rewrite IH by done; set_solver]. split; [|by left]. by intros _ ?%Hsub.
Qed.


Lemma without_twice (a b : list pubkey) (l : list ProofInfo) : without b (without a l) = without (a ++ b) l.
Proof.
  unfold without. rewrite list_filter_filter. apply list_filter_iff. intros p. set_solver.
Qed.

Lemma filter_same {A} (P Q : A -> Prop) `{forall x, Decision (P x)} `{forall x, Decision (Q x)} (l : list A) :
  (forall x, x ∈ l -> P x <-> Q x) -> filter P l = filter Q l.
Proof.
  induction l as [|x l IH]; intros HPQ; [done|]. rewrite !filter_cons, IH by (intros z Hz; apply HPQ; by right).
  destruct (HPQ x) as [H1 H2]; [by left|]. by destruct (decide (P x)), (decide (Q x)); try done; exfalso; auto.
Qed.

(** The check of the pending proofs (pending, reserved or handed out) removes
    exactly those that the mint reports as spent, keeps all other proofs of the
    store, and returns the value of the pending ones that remain. *)
Theorem pending_check_settles (w w' : Client) n (Hrun : (check_all_pending_proofs self : WM _) w = (Ok n, w'))
    (Hkeys : well_keyed (proofs_of (cl_store w))) (Hanswers : answers_states) :
  let pending := filter (wanted (wl_mint_url self) (wl_unit self) [Nut07.Pending; Nut07.Reserved; Nut07.PendingSpent])
                   (proofs_of (cl_store w)) in
  (pending = [] /\ n = 0 /\ proofs_of (cl_store w') = proofs_of (cl_store w)) \/
  (exists states l, l ≡ₚ pending /\ cl_post_check_state (pi_y <$> l) (cl_mint w) = (Ok states, cl_mint w') /\
     proofs_of (cl_store w') ≡ₚ without (spent_ys states) (proofs_of (cl_store w)) /\
     n = sumN (amounts_of (without (spent_ys states) pending))).
Proof.
  cbn zeta. unfold check_all_pending_proofs in Hrun. apply mseq_Ok in Hrun as (l & w1 & Hget & H).
  apply (keeps_run quiet_c) in Hget as Q1; [|keep]. apply store_Ok in Hget as [Hl%get_proofs_wanted Hm1]. destruct Q1 as [Q1 _].
  destruct l as [|i l]. { left. injection H as <- <-. by apply Permutation_nil_l in Hl. }
  right. set (ps := i :: l) in *. assert (Hps : well_keyed ps).
  { destruct Hkeys as [Hn Hf]. split; [rewrite Hl; by apply NoDup_map_filter|rewrite Hl].
    rewrite Forall_forall in Hf |- *. intros p [_ Hp]%list_elem_of_filter. by apply Hf. }
  apply mseq_Ok in H as (states & w2 & Hchk & H). unfold check_proofs_spent in Hchk.
  apply mseq_Ok in Hchk as (ks & w3 & [Hks ->]%lifted_Ok & Hchk). apply keys_of_stored in Hks as ->; [|apply Hps].
  apply mseq_Ok in Hchk as (sts & w4 & [Hpost Hs4]%net_Ok & Hchk). apply mseq_Ok in Hchk as ([] & w5 & Hu1 & [= <- <-]).
  pose proof Hu1 as [_ Hm5]%store_Ok. apply update_removed in Hu1.
  apply mseq_Ok in H as (a & w6 & [Ha ->]%lifted_Ok & H). apply Amount.try_sum_Ok in Ha as [-> _].
  apply mseq_Ok in H as ([] & w7 & Hu2 & H). pose proof Hu2 as [_ Hm7]%store_Ok. apply update_removed in Hu2.
  apply mseq_Ok in H as (b & w8 & [Hb ->]%lifted_Ok & [= <- <-]).
  pose proof (Hanswers _ _ _ _ Hpost) as Hans.
  assert (Hnd : NoDup (Nut07.ps_y <$> sts)) by (rewrite Hans; apply Hps).
  assert (Hpart : forall p, p ∈ ps -> pi_y p ∈ pending_ys sts <-> (pi_y p ∉ spent_ys sts)).
  { intros p Hp. apply states_partition; [done|]. rewrite Hans. by apply list_elem_of_fmap_2. }
  exists sts, ps. rewrite Hm1 in Hpost. split_and!; [done|by rewrite Hpost, Hm7, Hm5|..].
  - rewrite Hu2. unfold without at 1. rewrite Hu1, Hs4, Q1. fold (without (pi_y <$> filter (fun p => pi_y p ∉ pending_ys sts) ps) (without (spent_ys sts) (proofs_of (cl_store w)))).
    rewrite without_twice. unfold without. rewrite (list_filter_iff (fun p => pi_y p ∉ spent_ys sts ++ _) (fun p => pi_y p ∉ spent_ys sts)); [done|].
    intros q. rewrite not_elem_of_app. split; [by intros [? _]|]. intros Hq. split; [done|].
    intros (p & Heq & [Hnp Hp]%list_elem_of_filter)%list_elem_of_fmap. rewrite Heq in Hq. by apply Hnp, Hpart.
  - unfold Amount.add, Amount.checked_add in Hb. destruct (u64_checked_add _ _) as [s'|] eqn:Hs; [|done]. injection Hb as <-.
    apply u64_checked_add_Some in Hs as [-> _]. rewrite N.add_0_l. unfold without. unfold amounts_of.
    rewrite <- Hl. f_equal. f_equal. by apply filter_same.
Qed.

End swaps.
End WalletFacts.
