(* ===== verification/WalletPay.v ===== *)
(** * Payments of the wallet (crates/cdk/src/wallet)

    Sending and receiving tokens (send.rs, receive.rs), minting against a paid
    invoice (issue/issue_bolt11.rs), paying an invoice (melt/melt_bolt11.rs,
    melt/mod.rs) and the checks of a token before it is taken (mod.rs).

    Besides the arguments of Wallet.v: [iter_groups] is the order in which the
    proofs of a token are grouped, [iter_keys] the one in which signing keys are
    read; [invoice_amount] is the parser of invoices, with the amount in msat,
    and [offer_of] that of offers, [None] for a string that is neither.  An
    invoice is sent to the mint in the form it was given. *)
From stdpp Require Import base numbers list sorting strings gmap.
From S2P Require Import Prelude Amount Hex Nuts KeysetId Bdhke Conditions Spending States MintDb Mint Keysets Melt Secrets Selection MintUrl WalletDb Token Posts WalletStore Wallet.
Import Nut00 Requests KeysetId Bdhke Nut11 Spending Keysets Secrets WalletDb Token Wallet.

Local Open Scope N_scope.
Local Open Scope res_scope.
Local Open Scope mint_scope.

Module WalletPay.

(** ** Data *)

Inductive SendKind := OnlineExact | OnlineTolerance (t : N) | OfflineExact | OfflineTolerance (t : N).
#[global] Instance SendKind_eq_dec : EqDecision SendKind.
Proof. solve_decision. Defined.
Definition is_online (k : SendKind) : bool := match k with OnlineExact | OnlineTolerance _ => true | _ => false end.
Definition is_offline (k : SendKind) : bool := match k with OfflineExact | OfflineTolerance _ => true | _ => false end.
Definition has_tolerance (k : SendKind) : bool := match k with OnlineTolerance _ | OfflineTolerance _ => true | _ => false end.
Definition tolerance_of (k : SendKind) : option N := match k with OnlineTolerance t | OfflineTolerance t => Some t | _ => None end.

Record SendMemo := mkSendMemo { sm_memo : string; sm_include_memo : bool }.

Section data.
Context {CR : Crypto}.

Record SendOptions := mkSendOptions {
  so_memo : option SendMemo;
  so_conditions : option SpendingConditions;
  so_amount_split_target : Amount.SplitTarget;
  so_send_kind : SendKind;
  so_include_fee : bool;
  so_max_proofs : option N;
  so_metadata : gmap string string;
}.

Record PreparedSend := mkPreparedSend {
  pd_amount : N;
  pd_options : SendOptions;
  pd_proofs_to_swap : list Proof;
  pd_swap_fee : N;
  pd_proofs_to_send : list Proof;
  pd_send_fee : N;
}.

Record ReceiveOptions := mkReceiveOptions {
  ro_amount_split_target : Amount.SplitTarget;
  ro_p2pk_signing_keys : list seckey;
  ro_preimages : list string;
  ro_metadata : gmap string string;
}.

(** [Melted] (cdk-common/src/common.rs). *)
Record Melted := mkMelted {
  md_state : StateRules.MeltQuoteState;
  md_preimage : option string;
  md_change : option (list Proof);
  md_amount : N;
  md_fee_paid : N;
}.

(** [x_only_public_key]: the compressed form without its first byte. *)
Definition x_only_public_key (k : pubkey) : string := String.substring 1 32 (Nut01.to_bytes k).

Definition memo_of (m : option SendMemo) : option string :=
  m ≫= (fun m => if sm_include_memo m then Some (sm_memo m) else None).

(** [MintQuote::new] and [amount_mintable] of the wallet. *)
Definition WMintQuote_new (id : string) (url : MintUrl) (method : MintTypes.PaymentMethod) (amount : option N)
    (unit : Amount.CurrencyUnit) (request : string) (expiry : N) (sk : option seckey) : WMintQuote :=
  mkWMintQuote id url method amount unit request MintTypes.QUnpaid expiry sk 0 0.
Definition set_wq_state (q : WMintQuote) (st : MintTypes.MintQuoteState) : WMintQuote :=
  mkWMintQuote (wq_id q) (wq_mint_url q) (wq_payment_method q) (wq_amount q) (wq_unit q) (wq_request q) st (wq_expiry q)
    (wq_secret_key q) (wq_amount_issued q) (wq_amount_paid q).
Definition is_issued (st : MintTypes.MintQuoteState) : bool := match st with MintTypes.QIssued => true | _ => false end.
Definition is_paid (st : MintTypes.MintQuoteState) : bool := match st with MintTypes.QPaid => true | _ => false end.
Definition wq_amount_mintable (q : WMintQuote) : N :=
  if wq_amount_paid q <? wq_amount_issued q then 0
  else
    let difference := wq_amount_paid q - wq_amount_issued q in
    if (difference =? 0) && negb (is_issued (wq_state q)) then default difference (wq_amount q) else difference.

Definition set_wm_state (q : WMeltQuote) (st : StateRules.MeltQuoteState) : WMeltQuote :=
  mkWMeltQuote (wm_id q) (wm_unit q) (wm_amount q) (wm_request q) (wm_fee_reserve q) st (wm_expiry q)
    (wm_payment_preimage q) (wm_payment_method q).

End data.

Section defs.
Context {CR : Crypto} {CV : Curve CR} {BP : Bip32 CR} {KDF : SeedKdf CR BP} {SD : Serde} {PD : EqDecision Proof}.
Context {MintInfo W StoreErr S NetErr : Type} {ST : WalletStore CR MintInfo W StoreErr}.
Context {MC : WalletConnector CR MintInfo S NetErr} {MI : MintInfoView MintInfo} {TC : TokenCodec CR}.
Context (iter : list Proof -> list Proof) (iter_fees : Selection.KeysetFeeAndAmounts -> Selection.KeysetFeeAndAmounts).
Context (iter_groups : forall A : Type, list (Id * A) -> list (Id * A)) (iter_keys : list seckey -> list seckey).
Context (invoice_amount : string -> option (option N)) (offer_of : string -> option (option Melt.OfferAmount)).
Context (fuel : nat) (self : Wallet).

(** The errors of the wallet, of tokens, and of the check of a token's
    conditions. *)
Inductive PayError :=
| WalletFailed (e : Error (StoreErr:=StoreErr) (NetErr:=NetErr))
| TokenFailed (e : TokenOps.Error)
| MultiMintTokenNotSupported
| IncorrectWallet
| InvalidSpendConditions
| P2PKConditionsNotMet
| LocktimeNotProvided
| NotANut10Secret
| ConditionsFailed (e : Nut11.Error).

Abbreviation WM := (Wm (W:=W) (StoreErr:=StoreErr) (S:=S) (NetErr:=NetErr)).
Definition Pm (A : Type) : Type := M (Client W S) PayError A.
Definition wallet {A} (c : WM A) : Pm A := mmap_err WalletFailed c.
Definition token {A} (r : res TokenOps.Error A) : Pm A := mlift (map_err TokenFailed r).

(** ** Sending (send.rs) *)

(** The loop that sends the proofs whose amounts are wanted and swaps the
    others. *)
Definition split_proofs_to_send (force_swap exact_proofs : bool) (kind : SendKind) (send_amounts : list N) (proofs : list Proof)
    : list Proof * list Proof :=
  if force_swap then ([], proofs)
  else if exact_proofs || is_offline kind || has_tolerance kind then (proofs, [])
  else pick_amounts send_amounts proofs [] [].

Definition internal_prepare_send (amount : N) (opts : SendOptions) (proofs : list Proof) (force_swap : bool) : WM PreparedSend :=
  do active_keyset <- get_active_keyset self ;
  let active_keyset_id := ki_id active_keyset in
  do fee_and_amounts <- get_keyset_fees_and_amounts_by_id self active_keyset_id ;
  do send <- (if so_include_fee opts then
                do send_split <- fueled AmountFailed (Amount.split_with_fee fuel amount fee_and_amounts) ;
                do send_fee <- get_proofs_fee_by_count {[active_keyset_id := N.of_nat (length send_split)]} ;
                mret (send_split, send_fee)
              else
                do send_split <- Wallet.amt (Amount.split amount fee_and_amounts) ;
                mret (send_split, 0)) ;
  let '(send_amounts, send_fee) := send in
  do proof_ys <- dhke (ys proofs) ;
  do_ store (st_update_proofs_state proof_ys Nut07.Reserved) ;
  do proofs_total <- total proofs ;
  do wanted <- Wallet.amt (Amount.add amount send_fee) ;
  let few_enough := match so_max_proofs opts with Some n => N.of_nat (length proofs) <=? n | None => true end in
  let exact_proofs := (proofs_total =? wanted) && few_enough in
  let '(proofs_to_send, proofs_to_swap) :=
    split_proofs_to_send force_swap exact_proofs (so_send_kind opts) send_amounts proofs in
  do swap_fee <- get_proofs_fee proofs_to_swap ;
  mret (mkPreparedSend amount opts proofs_to_swap swap_fee proofs_to_send send_fee).

Definition prepare_send (now amount : N) (opts : SendOptions) : WM PreparedSend :=
  let kind := so_send_kind opts in
  do_ (if is_online kind then do_ mtry (F:=Error) (refresh_keysets self now) ; mret tt else mret tt) ;
  do keyset_fees <- get_keyset_fees_and_amounts self ;
  do matching <- get_proofs_with self (Some [Nut07.Unspent]) ((fun c => [c]) <$> so_conditions opts) ;
  do available_sum <- total matching ;
  do available <- (if available_sum <? amount then
                     if bool_decide (so_conditions opts = None) || is_offline kind then mfail InsufficientFunds
                     else
                       do all <- get_proofs_with self (Some [Nut07.Unspent]) (Some []) ;
                       mret (all, true)
                   else mret (matching, false)) ;
  let '(available_proofs, force_swap) := available in
  do keysets <- get_mint_keysets self ;
  do selected_proofs <- mlift (map_err SelectFailed (Selection.select_proofs iter amount available_proofs
    (ki_id <$> active keysets) (iter_fees (map_to_list keyset_fees)) (so_include_fee opts))) ;
  do selected_total <- total selected_proofs ;
  do send_fee <- (if so_include_fee opts then get_proofs_fee selected_proofs else mret 0) ;
  do wanted <- Wallet.amt (Amount.add amount send_fee) ;
  if selected_total =? wanted then internal_prepare_send amount opts selected_proofs force_swap
  else if bool_decide (kind = OfflineExact) then mfail InsufficientFunds
  else
    match tolerance_of kind with
    | Some tolerance =>
        do over <- Wallet.amt (Amount.sub selected_total amount) ;
        if (tolerance <? over) && is_offline kind then mfail InsufficientFunds
        else internal_prepare_send amount opts selected_proofs force_swap
    | None => internal_prepare_send amount opts selected_proofs force_swap
    end.

(** [PreparedSend]. *)
Definition pd_proofs (p : PreparedSend) : list Proof := pd_proofs_to_swap p ++ pd_proofs_to_send p.
Definition pd_fee (p : PreparedSend) : res Amount.Error N := Amount.add (pd_swap_fee p) (pd_send_fee p).

(** The proofs of the token, once the others are swapped. *)
Definition swapped_to_send (now : N) (rnd : Random) (p : PreparedSend) : WM (list Proof) :=
  do total_send_amount <- Wallet.amt (Amount.add (pd_amount p) (pd_send_fee p)) ;
  match pd_proofs_to_swap p with
  | [] => mret (pd_proofs_to_send p)
  | _ =>
      do have <- total (pd_proofs_to_send p) ;
      do swap_amount <- Wallet.amt (Amount.sub total_send_amount have) ;
      do new <- swap fuel self now rnd (Some swap_amount) Amount.STNone (pd_proofs_to_swap p) (so_conditions (pd_options p)) false ;
      mret (pd_proofs_to_send p ++ default [] new)
  end.

(** The part of [confirm] before the token is made. *)
Definition hand_out (now : N) (rnd : Random) (m : option SendMemo) (p : PreparedSend) : WM (list Proof * option string) :=
  do total_send_fee <- Wallet.amt (pd_fee p) ;
  do active_keyset <- fetch_active_keyset self now ;
  do_ get_keyset_fees_and_amounts_by_id self (ki_id active_keyset) ;
  do proofs_to_send <- swapped_to_send now rnd p ;
  do sent_total <- total proofs_to_send ;
  do_ mlift (ensure (negb (sent_total <? pd_amount p)) InsufficientFunds) ;
  do sendable <- get_proofs_with self (Some [Nut07.Reserved; Nut07.Unspent]) ((fun c => [c]) <$> so_conditions (pd_options p)) ;
  do sendable_proof_ys <- dhke (ys sendable) ;
  do send_ys <- dhke (ys proofs_to_send) ;
  do_ mlift (ensure (forallb (fun k => bool_decide (k ∈ sendable_proof_ys)) send_ys) UnexpectedProofState) ;
  do_ store (st_update_proofs_state send_ys Nut07.PendingSpent) ;
  let memo := memo_of (match so_memo (pd_options p) with Some m => Some m | None => m end) in
  do_ store (st_add_transaction (mkTransaction (wl_mint_url self) Outgoing (pd_amount p) total_send_fee (wl_unit self) send_ys now
    memo (so_metadata (pd_options p)) None None None)) ;
  mret (proofs_to_send, memo).

Definition confirm (now : N) (rnd : Random) (m : option SendMemo) (p : PreparedSend) : Pm Token :=
  do sent <- wallet (hand_out now rnd m p) ;
  token (TokenOps.Token_new iter_groups (wl_mint_url self) sent.1 sent.2 (wl_unit self)).

Definition cancel (p : PreparedSend) : WM unit :=
  do reserved <- get_reserved_proofs self ;
  do reserved_ys <- dhke (ys reserved) ;
  do all_ys <- dhke (ys (pd_proofs p)) ;
  do_ mlift (ensure (forallb (fun k => bool_decide (k ∈ reserved_ys)) all_ys) UnexpectedProofState) ;
  store (st_update_proofs_state all_ys Nut07.Unspent).

(** ** Receiving (receive.rs) *)

(** A map built from pairs: a later pair replaces an earlier one. *)
Definition map_of {A} (l : list (string * A)) : gmap string A := list_to_map (rev l).

Definition hash_preimage (p : string) : res (Error (StoreErr:=StoreErr) (NetErr:=NetErr)) (string * string) :=
  let? bytes := map_err (fun _ => HexFailed) (Hex.decode p) in
  Ok (digest_to_string (sha256 bytes), p).

(** The signatures on a proof, for the keys that the receiver has. *)
Definition sign_with (signing_keys : gmap string seckey) (keys : list pubkey) (p : Proof) : Proof :=
  fold_left (fun p k => match signing_keys !! x_only_public_key k with Some sk => sign_p2pk p sk | None => p end) keys p.

Definition check_dleq (p : Proof) : WM unit :=
  match dleq p with
  | None => mret tt
  | Some _ =>
      do keys <- load_keyset_keys (keyset_id p) ;
      do key <- mlift (ok_or AmountKey (keys !! amount p)) ;
      mlift (map_err DleqFailed (proof_verify_dleq p key))
  end.

(** One proof: its preimage and signatures, and whether it is to be signed with
    all the others. *)
Definition prepare_proof (preimages : gmap string string) (signing_keys : gmap string seckey) (p : Proof) : WM (Proof * bool) :=
  do_ check_dleq p ;
  match nut10_from_json (secret p) with
  | None => mret (p, false)
  | Some secret10 =>
      let sd := Nut10.secret_data secret10 in
      match Conditions_try_from (default [] (Nut10.tags sd)) with
      | Panic => mpanic
      | Err _ => mret (p, false)
      | Ok conditions =>
          let pubkeys := default [] (pubkeys conditions) in
          do r <- (match Nut10.kind secret10 with
                   | Nut10.P2PK =>
                       do data_key <- mlift (map_err KeyFailed (Nut01.from_str (Nut10.data sd))) ;
                       mret (p, pubkeys ++ [data_key])
                   | Nut10.HTLC =>
                       do preimage <- mlift (ok_or PreimageNotProvided (preimages !! Nut10.data sd)) ;
                       mret (add_preimage p preimage, pubkeys)
                   end) ;
          mret (sign_with signing_keys r.2 r.1, bool_decide (sig_flag conditions = SigAll))
      end
  end.

Fixpoint prepare_proofs (preimages : gmap string string) (signing_keys : gmap string seckey) (l : list Proof)
    : WM (list Proof * bool) :=
  match l with
  | [] => mret ([], false)
  | p :: l' =>
      do r <- prepare_proof preimages signing_keys p ;
      do rest <- prepare_proofs preimages signing_keys l' ;
      mret (r.1 :: rest.1, r.2 || rest.2)
  end.

(** The outputs are signed one by one with every key of the receiver. *)
Definition sign_outputs (keys : list seckey) (r : SwapRequest) : SwapRequest :=
  mkSwapRequest (swap_inputs r) ((fun m => fold_left bm_sign_p2pk keys m) <$> swap_outputs r).

(** Swap the prepared proofs and keep what the mint gives for them. *)
Definition claim_proofs (now : N) (rnd : Random) (active_keyset_id : Id) (keys : Keys) (target : Amount.SplitTarget)
    (sign_keys : list seckey) (proofs : list Proof) : WM N :=
  do proofs_info <- proof_infos self Nut07.Pending (wl_unit self) proofs ;
  do_ store (st_update_proofs proofs_info []) ;
  do pre_swap <- create_swap fuel self now rnd None target proofs None false ;
  let pms := ps_pre_mint_secrets pre_swap in
  do signatures <- net (cl_post_swap (sign_outputs sign_keys (ps_swap_request pre_swap))) ;
  do recv_proofs <- dhke (construct_proofs signatures (rs pms) (pms_secret_list pms) keys) ;
  do_ store (st_increment_keyset_counter active_keyset_id (len_u32 recv_proofs)) ;
  do total_amount <- total recv_proofs ;
  do recv_proof_infos <- proof_infos self Nut07.Unspent (wl_unit self) recv_proofs ;
  do_ store (st_update_proofs recv_proof_infos (pi_y <$> proofs_info)) ;
  mret total_amount.

Definition receive_proofs (now : N) (rnd : Random) (proofs : list Proof) (opts : ReceiveOptions) (memo : option string) : WM N :=
  do_ refresh_keysets self now ;
  do active_keyset <- fetch_active_keyset self now ;
  let active_keyset_id := ki_id active_keyset in
  do keys <- load_keyset_keys active_keyset_id ;
  do proofs_amount <- total proofs ;
  do proofs_ys <- dhke (ys proofs) ;
  do hashed <- mlift (collect hash_preimage (ro_preimages opts)) ;
  let signing_keys := map_of ((fun s => (x_only_public_key (seckey_public_key s), s)) <$> ro_p2pk_signing_keys opts) in
  do prepared <- prepare_proofs (map_of hashed) signing_keys proofs ;
  let '(proofs, sig_all) := prepared in
  let sign_keys := if sig_all : bool then iter_keys (map_to_list signing_keys).*2 else [] in
  do total_amount <- claim_proofs now rnd active_keyset_id keys (ro_amount_split_target opts) sign_keys proofs ;
  do fee <- Wallet.amt (Amount.sub proofs_amount total_amount) ;
  do_ store (st_add_transaction (mkTransaction (wl_mint_url self) Incoming total_amount fee (wl_unit self) proofs_ys now memo
    (ro_metadata opts) None None None)) ;
  mret total_amount.

Definition receive (now : N) (rnd : Random) (encoded_token : string) (opts : ReceiveOptions) : Pm N :=
  do tok <- token (TokenOps.from_str encoded_token) ;
  do_ mlift (ensure (bool_decide (default Amount.Sat (TokenOps.unit tok) = wl_unit self)) (WalletFailed UnsupportedUnit)) ;
  do keysets_info <- wallet (load_mint_keysets self now) ;
  do proofs <- token (TokenOps.proofs tok keysets_info) ;
  do_ mlift (match tok with
             | TV3 t => ensure (negb (TokenOps.is_multi_mint t)) MultiMintTokenNotSupported
             | TV4 _ => Ok tt
             end) ;
  do url <- token (TokenOps.mint_url tok) ;
  do_ mlift (ensure (bool_decide (wl_mint_url self = url)) (WalletFailed IncorrectMint)) ;
  wallet (receive_proofs now rnd proofs opts (TokenOps.memo tok)).

(** A token that cannot be printed panics. *)
Definition receive_raw (now : N) (rnd : Random) (binary_token : string) (opts : ReceiveOptions) : Pm N :=
  do tok <- token (TokenOps.try_from_bytes binary_token) ;
  do token_str <- token (unwrap (TokenOps.to_string tok)) ;
  receive now rnd token_str opts.

(** ** Minting (issue/issue_bolt11.rs, issue/issue_bolt12.rs) *)

(** Whether the mint takes a description. *)
Definition check_description (method : MintTypes.PaymentMethod) (description : option string) : WM unit :=
  match description with
  | None => mret tt
  | Some _ =>
      do found <- store (st_get_mint (wl_mint_url self)) ;
      do info <- mlift (ok_or IncorrectMint found) ;
      do takes <- mlift (ok_or UnsupportedUnit (mi_description info method (wl_unit self))) ;
      mlift (ensure takes InvoiceDescriptionUnsupported)
  end.

Definition mint_quote (now : N) (secret_key : seckey) (amount : N) (description : option string) : WM WMintQuote :=
  do_ refresh_keysets self now ;
  do_ check_description MintTypes.Bolt11 description ;
  do r <- net (cl_post_mint_quote (mkMintQuoteRequest amount (wl_unit self) description (Some (seckey_public_key secret_key)))) ;
  let quote := WMintQuote_new (mr_quote r) (wl_mint_url self) MintTypes.Bolt11 (Some amount) (wl_unit self) (mr_request r)
    (default 0 (mr_expiry r)) (Some secret_key) in
  do_ store (st_add_mint_quote quote) ;
  mret quote.

Definition mint_quote_state (quote_id : string) : WM MintQuoteResponse :=
  do response <- net (cl_get_mint_quote_status quote_id) ;
  do found <- store (st_get_mint_quote quote_id) ;
  do_ (match found with
       | Some quote => store (st_add_mint_quote (set_wq_state quote (mr_state response)))
       | None => mret tt
       end) ;
  mret response.

(** The outputs of a mint request; counters are taken for outputs from the seed. *)
Definition mint_outputs_for (rnd : Random) (active_keyset_id : Id) (kid : KeyId) (amount : N) (target : Amount.SplitTarget)
    (spending_conditions : option SpendingConditions) (fa : Amount.FeeAndAmounts) : WM PreMintSecrets :=
  match spending_conditions with
  | Some conditions =>
      fueled SecretsFailed (Secrets.with_conditions fuel kid (rnd_secret rnd) (rnd_factor rnd) amount target conditions fa)
  | None =>
      do amount_split <- split_for fuel amount target fa ;
      let num_secrets := len_u32 amount_split in
      do new_counter <- store (st_increment_keyset_counter active_keyset_id num_secrets) ;
      from_seed_for fuel self kid (u32_sub new_counter num_secrets) amount target fa
  end.

(** A signature without a DLEQ proof is taken, one with a wrong proof is not. *)
Fixpoint check_signatures (l : list (BlindSignature * PreMint)) : WM unit :=
  match l with
  | [] => mret tt
  | (sig, premint) :: l' =>
      do keys <- load_keyset_keys (bs_keyset_id sig) ;
      do key <- mlift (ok_or AmountKey (keys !! bs_amount sig)) ;
      do_ (match bs_verify_dleq sig key (blinded_secret (pm_blinded_message premint)) with
           | Ok _ | Err MissingDleqProof => mret tt
           | Err _ => mfail CouldNotVerifyDleq
           | Panic => mpanic
           end) ;
      check_signatures l'
  end.

(** The request to the mint, and the proofs made of its answer. *)
Definition request_proofs (active_keyset_id : Id) (pms : PreMintSecrets) (request : MintRequest) : WM (list Proof) :=
  do signatures <- net (cl_post_mint request) ;
  do keys <- load_keyset_keys active_keyset_id ;
  do_ check_signatures (zip signatures (pms_secrets pms)) ;
  dhke (construct_proofs signatures (rs pms) (pms_secret_list pms) keys).

(** Store the new proofs, and the transaction. *)
Definition keep_minted (now : N) (quote_id request : string) (quote_unit : Amount.CurrencyUnit) (proofs : list Proof) : WM unit :=
  do infos <- proof_infos self Nut07.Unspent quote_unit proofs ;
  do_ store (st_update_proofs infos []) ;
  do minted <- total proofs ;
  do proof_ys <- dhke (ys proofs) ;
  store (st_add_transaction (mkTransaction (wl_mint_url self) Incoming minted 0 (wl_unit self) proof_ys now None ∅ (Some quote_id)
    (Some request) None)).

Definition mint (now : N) (rnd : Random) (quote_id : string) (target : Amount.SplitTarget)
    (spending_conditions : option SpendingConditions) : WM (list Proof) :=
  do_ refresh_keysets self now ;
  do found <- store (st_get_mint_quote quote_id) ;
  do quote_info <- mlift (ok_or UnknownQuote found) ;
  do_ mlift (ensure (bool_decide (wq_payment_method quote_info = MintTypes.Bolt11)) UnsupportedPaymentMethod) ;
  let amount_mintable := wq_amount_mintable quote_info in
  do_ mlift (ensure (negb (amount_mintable =? 0)) AmountUndefined) ;
  do active_keyset <- fetch_active_keyset self now ;
  let active_keyset_id := ki_id active_keyset in
  do kid <- key_id active_keyset_id ;
  do fee_and_amounts <- get_keyset_fees_and_amounts_by_id self active_keyset_id ;
  do pms <- mint_outputs_for rnd active_keyset_id kid amount_mintable target spending_conditions fee_and_amounts ;
  let request := mkMintRequest quote_id (blinded_messages pms) None in
  let request := match wq_secret_key quote_info with Some sk => mint_sign request sk | None => request end in
  do proofs <- request_proofs active_keyset_id pms request ;
  do_ store (st_remove_mint_quote (wq_id quote_info)) ;
  do_ keep_minted now quote_id (wq_request quote_info) (wq_unit quote_info) proofs ;
  mret proofs.

Fixpoint check_mint_quotes (now : N) (rnd : Random) (quotes : list WMintQuote) (total_amount : N) : WM N :=
  match quotes with
  | [] => mret total_amount
  | q :: quotes' =>
      do response <- mint_quote_state (wq_id q) ;
      if is_paid (mr_state response) then
        do proofs <- mint now rnd (wq_id q) Amount.STNone None ;
        do t <- total proofs ;
        do total_amount <- Wallet.amt (Amount.add total_amount t) ;
        check_mint_quotes now rnd quotes' total_amount
      else if wq_expiry q <=? now then
        do_ store (st_remove_mint_quote (wq_id q)) ;
        check_mint_quotes now rnd quotes' total_amount
      else check_mint_quotes now rnd quotes' total_amount
  end.
Definition check_all_mint_quotes (now : N) (rnd : Random) : WM N :=
  do mint_quotes <- store st_get_mint_quotes ;
  check_mint_quotes now rnd mint_quotes 0.

Definition get_active_mint_quotes (now : N) : WM (list WMintQuote) :=
  do mint_quotes <- store st_get_mint_quotes ;
  mret (filter (fun q => wq_mint_url q = wl_mint_url self /\ is_issued (wq_state q) = false /\ now < wq_expiry q) mint_quotes).

Definition mint_bolt12_quote (now : N) (secret_key : seckey) (amount : option N) (description : option string) : WM WMintQuote :=
  do_ refresh_keysets self now ;
  do_ check_description MintTypes.Bolt12 description ;
  do r <- net (cl_post_mint_bolt12_quote (mkMintQuoteBolt12Request amount (wl_unit self) description (seckey_public_key secret_key))) ;
  let quote := WMintQuote_new (mb_quote r) (wl_mint_url self) MintTypes.Bolt12 amount (wl_unit self) (mb_request r)
    (default 0 (mb_expiry r)) (Some secret_key) in
  do_ store (st_add_mint_quote quote) ;
  mret quote.

Definition set_wq_amounts (q : WMintQuote) (issued paid : N) : WMintQuote :=
  mkWMintQuote (wq_id q) (wq_mint_url q) (wq_payment_method q) (wq_amount q) (wq_unit q) (wq_request q) (wq_state q) (wq_expiry q)
    (wq_secret_key q) issued paid.

Definition mint_bolt12_quote_state (quote_id : string) : WM MintQuoteBolt12Response :=
  do response <- net (cl_get_mint_quote_bolt12_status quote_id) ;
  do found <- store (st_get_mint_quote quote_id) ;
  do_ (match found with
       | Some quote => store (st_add_mint_quote (set_wq_amounts quote (mb_amount_issued response) (mb_amount_paid response)))
       | None => mret tt
       end) ;
  mret response.

Definition mint_bolt12 (now : N) (rnd : Random) (quote_id : string) (amount : option N) (target : Amount.SplitTarget)
    (spending_conditions : option SpendingConditions) : WM (list Proof) :=
  do_ refresh_keysets self now ;
  do found <- store (st_get_mint_quote quote_id) ;
  do quote_info <- mlift (ok_or UnknownQuote found) ;
  do active_keyset <- fetch_active_keyset self now ;
  let active_keyset_id := ki_id active_keyset in
  do kid <- key_id active_keyset_id ;
  do fee_and_amounts <- get_keyset_fees_and_amounts_by_id self active_keyset_id ;
  do amount <- (match amount with
                | Some amount => mret amount
                | None =>
                    do state <- mint_bolt12_quote_state quote_id ;
                    Wallet.amt (Amount.sub (mb_amount_paid state) (mb_amount_issued state))
                end) ;
  do_ mlift (ensure (negb (amount =? 0)) UnpaidQuote) ;
  do pms <- mint_outputs_for rnd active_keyset_id kid amount target spending_conditions fee_and_amounts ;
  do secret_key <- mlift (ok_or SignatureMissingOrInvalid (wq_secret_key quote_info)) ;
  let request := mint_sign (mkMintRequest quote_id (blinded_messages pms) None) secret_key in
  do proofs <- request_proofs active_keyset_id pms request ;
  do found <- store (st_get_mint_quote quote_id) ;
  do quote_info <- mlift (ok_or UnpaidQuote found) ;
  do minted <- total proofs ;
  do issued <- Wallet.amt (Amount.add (wq_amount_issued quote_info) minted) ;
  do_ store (st_add_mint_quote (set_wq_amounts quote_info issued (wq_amount_paid quote_info))) ;
  do_ keep_minted now quote_id (wq_request quote_info) (wq_unit quote_info) proofs ;
  mret proofs.

(** ** Melting (melt/melt_bolt11.rs, melt/melt_bolt12.rs, melt/mod.rs) *)

Definition is_bitcoin_unit (u : Amount.CurrencyUnit) : bool := bool_decide (u = Amount.Msat) || bool_decide (u = Amount.Sat).

(** The quote of the mint's answer. *)
Definition quote_of (r : MeltQuoteResponse) (request : string) (method : MintTypes.PaymentMethod) : WMeltQuote :=
  mkWMeltQuote (er_quote r) (wl_unit self) (er_amount r) request (er_fee_reserve r) (er_state r) (er_expiry r)
    (er_payment_preimage r) method.

Definition melt_quote (now : N) (request : string) (options : option MintTypes.MeltOptions) : WM WMeltQuote :=
  do_ refresh_keysets self now ;
  do invoice <- mlift (ok_or InvalidInvoice (invoice_amount request)) ;
  do quote_res <- net (cl_post_melt_quote (mkMeltQuoteRequest request (wl_unit self) options)) ;
  do_ (if is_bitcoin_unit (wl_unit self) then
         do amount_msat <- mlift (ok_or InvoiceAmountUndefined
           (match options with Some o => Some (Melt.amount_msat o) | None => invoice end)) ;
         do amount_quote_unit <- Wallet.amt (Amount.to_unit amount_msat Amount.Msat (wl_unit self)) ;
         mlift (ensure (er_amount quote_res =? amount_quote_unit) IncorrectQuoteAmount)
       else mret tt) ;
  let quote := quote_of quote_res request MintTypes.Bolt11 in
  do_ store (st_add_melt_quote quote) ;
  mret quote.

(** [amount_for_offer(&offer, &CurrencyUnit::Msat).ok()]. *)
Definition offer_msat (o : option Melt.OfferAmount) : option N :=
  oa ← o;
  match Melt.offer_value tt oa with
  | Ok (a, currency) => match Amount.to_unit a currency Amount.Msat with Ok n => Some n | _ => None end
  | _ => None
  end.

Definition melt_bolt12_quote (request : string) (options : option MintTypes.MeltOptions) : WM WMeltQuote :=
  do quote_res <- net (cl_post_melt_bolt12_quote (mkMeltQuoteRequest request (wl_unit self) options)) ;
  do_ (if is_bitcoin_unit (wl_unit self) then
         do offer <- mlift (ok_or Bolt12parse (offer_of request)) ;
         do amount_msat <- mlift (ok_or AmountUndefined
           (match options with Some o => Some (Melt.amount_msat o) | None => offer_msat offer end)) ;
         do amount_quote_unit <- mlift (unwrap (Amount.to_unit amount_msat Amount.Msat (wl_unit self))) ;
         mlift (ensure (er_amount quote_res =? amount_quote_unit) IncorrectQuoteAmount)
       else mret tt) ;
  let quote := quote_of quote_res request MintTypes.Bolt12 in
  do_ store (st_add_melt_quote quote) ;
  mret quote.

(** nut08.rs. *)
Definition er_change_amount (r : MeltQuoteResponse) : option N :=
  change ← er_change r;
  match Amount.try_sum (bs_amount <$> change) with Ok n => Some n | _ => None end.

(** The pending proofs of the wallet are taken for those of the quote. *)
Definition add_transaction_for_pending_melt (now : N) (quote : WMeltQuote) (response : MeltQuoteResponse) : WM unit :=
  if bool_decide (wm_state quote = er_state response) then mret tt
  else if bool_decide (er_state response = StateRules.Paid) then
    do pending_proofs <- get_pending_proofs self ;
    let proofs_total := match total_amount pending_proofs with Ok t => t | _ => 0 end in
    let change_total := default 0 (er_change_amount response) in
    let fee := default 0 (a ← Amount.checked_sub proofs_total (er_amount response); Amount.checked_sub a change_total) in
    do pending_ys <- dhke (ys pending_proofs) ;
    store (st_add_transaction (mkTransaction (wl_mint_url self) Outgoing (er_amount response) fee (wm_unit quote) pending_ys now
      None ∅ (Some (wm_id quote)) (Some (wm_request quote)) (er_payment_preimage response)))
  else mret tt.

(** The answer of the mint about a quote is recorded. *)
Definition record_melt_status (now : N) (quote_id : string) (response : MeltQuoteResponse) : WM MeltQuoteResponse :=
  do found <- store (st_get_melt_quote quote_id) ;
  do_ (match found with
       | Some quote =>
           do_ mtry (F:=Error) (add_transaction_for_pending_melt now quote response) ;
           store (st_add_melt_quote (set_wm_state quote (er_state response)))
       | None => mret tt
       end) ;
  mret response.
Definition melt_quote_status (now : N) (quote_id : string) : WM MeltQuoteResponse :=
  do response <- net (cl_get_melt_quote_status quote_id) ; record_melt_status now quote_id response.
Definition melt_bolt12_quote_status (now : N) (quote_id : string) : WM MeltQuoteResponse :=
  do response <- net (cl_get_melt_bolt12_quote_status quote_id) ; record_melt_status now quote_id response.

(** The checks of [mod.rs]. *)
Definition get_active_melt_quotes (now : N) : WM (list WMeltQuote) :=
  do quotes <- store st_get_melt_quotes ;
  mret (filter (fun q => wm_state q = StateRules.MPending \/ (wm_state q = StateRules.Unpaid /\ now < wm_expiry q)) quotes).
Definition get_pending_melt_quotes : WM (list WMeltQuote) :=
  do quotes <- store st_get_melt_quotes ;
  mret (filter (fun q => wm_state q = StateRules.MPending) quotes).
Definition check_pending_melt_quotes (now : N) : WM unit :=
  do quotes <- get_pending_melt_quotes ;
  mfor (fun q => do_ melt_quote_status now (wm_id q) ; mret tt) quotes.

(** [Melted::from_proofs]: too much change is a panic. *)
Definition from_proofs (state : StateRules.MeltQuoteState) (preimage : option string) (amount : N) (proofs : list Proof)
    (change_proofs : option (list Proof)) : res Amount.Error Melted :=
  let? proofs_amount := total_amount proofs in
  let? change_amount := match change_proofs with Some l => total_amount l | None => Ok 0 end in
  let? spent := Amount.add amount change_amount in
  let? fee_paid := expect (Amount.checked_sub proofs_amount spent) in
  Ok (mkMelted state preimage change_proofs amount fee_paid).

(** The blank outputs for the change. *)
Definition blank_outputs_for (active_keyset_id : Id) (kid : KeyId) (change_amount : N) : WM PreMintSecrets :=
  if change_amount =? 0 then mret (mkPreMintSecrets [] kid)
  else
    let num_secrets := blank_count change_amount in
    do new_counter <- store (st_increment_keyset_counter active_keyset_id num_secrets) ;
    mlift (map_err SecretsFailed
      (from_seed_blank kid (u32_sub new_counter num_secrets) (wl_seed self) change_amount)).

(** A melt that the mint refuses: the unspent inputs are swapped, and the error
    is that of the mint. *)
Definition or_reclaim (now : N) (rnd : Random) (proofs : list Proof) (c : M S NetErr MeltQuoteResponse) : WM MeltQuoteResponse :=
  do r <- mtry (net c) ;
  match r with
  | inl response => mret response
  | inr err => do_ reclaim_unspent fuel self now rnd proofs ; mfail err
  end.
Definition send_melt (now : N) (rnd : Random) (method : MintTypes.PaymentMethod) (proofs : list Proof) (request : MeltRequest)
    : WM MeltQuoteResponse :=
  match method with
  | MintTypes.Bolt11 => or_reclaim now rnd proofs (cl_post_melt request)
  | MintTypes.Bolt12 => or_reclaim now rnd proofs (cl_post_melt_bolt12 request)
  | MintTypes.CustomMethod _ => mfail UnsupportedPaymentMethod
  end.

(** The proofs of the change; promises beyond the outputs are an error. *)
Definition change_proofs_of (pms : PreMintSecrets) (keys : Keys) (change : option (list BlindSignature)) : WM (option (list Proof)) :=
  match change with
  | None => mret None
  | Some change =>
      let n := if Nat.ltb (length (pms_secrets pms)) (length change) then length (pms_secrets pms) else length change in
      do l <- dhke (construct_proofs change (take n (rs pms)) (take n (pms_secret_list pms)) keys) ;
      mret (Some l)
  end.

(** What the wallet stores when the mint has answered, whatever the state. *)
Definition settle_melt (now : N) (metadata : gmap string string) (quote_id : string) (quote_info : WMeltQuote) (proofs : list Proof)
    (pms : PreMintSecrets) (active_keyset_id : Id) (response : MeltQuoteResponse) : WM Melted :=
  do found <- store (st_get_keys active_keyset_id) ;
  do active_keys <- mlift (ok_or NoActiveKeyset found) ;
  do change_proofs <- change_proofs_of pms active_keys (er_change response) ;
  do melted <- Wallet.amt (from_proofs (er_state response) (er_payment_preimage response) (wm_amount quote_info) proofs change_proofs) ;
  do infos <- (match change_proofs with
               | Some l => do_ total l ; proof_infos self Nut07.Unspent (wm_unit quote_info) l
               | None => mret []
               end) ;
  do_ store (st_remove_melt_quote (wm_id quote_info)) ;
  do deleted_ys <- dhke (ys proofs) ;
  do_ store (st_update_proofs infos deleted_ys) ;
  do_ store (st_add_transaction (mkTransaction (wl_mint_url self) Outgoing (md_amount melted) (md_fee_paid melted) (wl_unit self)
    deleted_ys now None metadata (Some quote_id) (Some (wm_request quote_info)) (er_payment_preimage response))) ;
  mret melted.

Definition melt_proofs_with_metadata (now : N) (rnd : Random) (quote_id : string) (proofs : list Proof)
    (metadata : gmap string string) : WM Melted :=
  do found <- store (st_get_melt_quote quote_id) ;
  do quote_info <- mlift (ok_or UnknownQuote found) ;
  do_ mlift (ensure (now <? wm_expiry quote_info) (ExpiredQuote (wm_expiry quote_info) now)) ;
  do proofs_total <- total proofs ;
  do inputs_needed <- Wallet.amt (Amount.add (wm_amount quote_info) (wm_fee_reserve quote_info)) ;
  do_ mlift (ensure (negb (proofs_total <? inputs_needed)) InsufficientFunds) ;
  do proof_ys <- dhke (ys proofs) ;
  do_ store (st_update_proofs_state proof_ys Nut07.Pending) ;
  do active_keyset <- fetch_active_keyset self now ;
  let active_keyset_id := ki_id active_keyset in
  do kid <- key_id active_keyset_id ;
  do change_amount <- Wallet.amt (Amount.sub proofs_total (wm_amount quote_info)) ;
  do pms <- blank_outputs_for active_keyset_id kid change_amount ;
  let request := mkMeltRequest quote_id (without_dleqs proofs) (Some (blinded_messages pms)) in
  do response <- send_melt now rnd (wm_payment_method quote_info) proofs request ;
  settle_melt now metadata quote_id quote_info proofs pms active_keyset_id response.
Definition melt_proofs (now : N) (rnd : Random) (quote_id : string) (proofs : list Proof) : WM Melted :=
  melt_proofs_with_metadata now rnd quote_id proofs ∅.

(** The keysets of the unit, active or not, are taken as the active ones. *)
Definition melt_with_metadata (now : N) (rnd : Random) (quote_id : string) (metadata : gmap string string) : WM Melted :=
  do found <- store (st_get_melt_quote quote_id) ;
  do quote_info <- mlift (ok_or UnknownQuote found) ;
  do_ mlift (ensure (now <? wm_expiry quote_info) (ExpiredQuote (wm_expiry quote_info) now)) ;
  do inputs_needed_amount <- Wallet.amt (Amount.add (wm_amount quote_info) (wm_fee_reserve quote_info)) ;
  do available_proofs <- get_unspent_proofs self ;
  do keysets <- refresh_keysets self now ;
  do keyset_fees <- get_keyset_fees_and_amounts self ;
  do selected <- mlift (map_err SelectFailed (Selection.select_exact_proofs iter inputs_needed_amount available_proofs
    (ki_id <$> keysets) (iter_fees (map_to_list keyset_fees)) true)) ;
  do input_proofs <- (match selected.2 with
    | Some (proof, exact_amount) =>
        do new <- swap fuel self now rnd (Some exact_amount) Amount.STNone [proof] None false ;
        do new_proofs <- mlift (ok_or Internal new) ;
        mret (selected.1 ++ new_proofs)
    | None => mret selected.1
    end) ;
  melt_proofs_with_metadata now rnd quote_id input_proofs metadata.
Definition melt (now : N) (rnd : Random) (quote_id : string) : WM Melted := melt_with_metadata now rnd quote_id ∅.

(** ** Checks of a token (mod.rs) *)

(** What a payee asks of the proofs of a token: refund keys, keys, locktime and
    number of signatures. *)
Record Terms := mkTerms {
  tm_refund_keys : option (list pubkey);
  tm_pubkeys : option (list pubkey);
  tm_locktime : option N;
  tm_num_sigs : option N;
}.
Definition terms_of (sc : SpendingConditions) : Terms :=
  match sc with
  | P2PKConditions data None => mkTerms None (Some [data]) None None
  | P2PKConditions data (Some c) =>
      mkTerms (refund_keys c) (Some (data :: default [] (pubkeys c))) (locktime c) (num_sigs c)
  | HTLCConditions _ None => mkTerms None None None None
  | HTLCConditions _ (Some c) => mkTerms (refund_keys c) (pubkeys c) (locktime c) (num_sigs c)
  end.

Definition subset_of (l l' : list pubkey) : bool := forallb (fun k => bool_decide (k ∈ l')) l.
Definition is_nil {A} (l : list A) : bool := match l with [] => true | _ => false end.

(** The refund keys of a proof. *)
Definition check_refund (terms : Terms) (pc : SpendingConditions) : res PayError unit :=
  match sc_refund_keys pc with
  | None => Ok tt
  | Some proof_refund_keys =>
      let? proof_locktime := ok_or LocktimeNotProvided (sc_locktime pc) in
      match tm_refund_keys terms, tm_locktime terms with
      | Some condition_refund_keys, Some condition_locktime =>
          let? _ := ensure (negb (proof_locktime <? condition_locktime)) P2PKConditionsNotMet in
          ensure (negb (negb (is_nil condition_refund_keys) && negb (subset_of proof_refund_keys condition_refund_keys)))
            P2PKConditionsNotMet
      | _, _ => Err P2PKConditionsNotMet
      end
  end.

Definition check_terms (terms : Terms) (proof : Proof) : res PayError unit :=
  let? secret10 := ok_or NotANut10Secret (nut10_from_json (secret proof)) in
  let? pc := map_err ConditionsFailed (sc_try_from_nut10 secret10) in
  let? _ := ensure (bool_decide (tm_num_sigs terms = sc_num_sigs pc)) P2PKConditionsNotMet in
  let wanted := default [] (tm_pubkeys terms) in
  let proof_pubkeys := default [] (sc_pubkeys pc) in
  let? _ := ensure (Nat.eqb (length proof_pubkeys) (length wanted) && subset_of proof_pubkeys wanted) P2PKConditionsNotMet in
  check_refund terms pc.

Fixpoint check_all_terms (terms : Terms) (l : list Proof) : res PayError unit :=
  match l with
  | [] => Ok tt
  | p :: l' => let? _ := check_terms terms p in check_all_terms terms l'
  end.

Definition verify_token_p2pk (now : N) (tok : Token) (spending_conditions : SpendingConditions) : Pm unit :=
  let terms := terms_of spending_conditions in
  do_ mlift (ensure (negb (bool_decide (is_Some (tm_refund_keys terms)) && bool_decide (tm_locktime terms = None)))
    InvalidSpendConditions) ;
  do url <- token (TokenOps.mint_url tok) ;
  do_ mlift (ensure (bool_decide (url = wl_mint_url self)) IncorrectWallet) ;
  do keysets_info <- wallet (load_mint_keysets self now) ;
  do proofs <- token (TokenOps.proofs tok keysets_info) ;
  mlift (check_all_terms terms proofs).

(** The keys are looked up in the cache, and loaded the first time. *)
Fixpoint check_dleqs (keys_cache : gmap Id Keys) (l : list Proof) : WM unit :=
  match l with
  | [] => mret tt
  | p :: l' =>
      do r <- (match keys_cache !! keyset_id p with
               | Some keys => mret (keys, keys_cache)
               | None =>
                   do keys <- load_keyset_keys (keyset_id p) ;
                   mret (keys, <[keyset_id p := keys]> keys_cache)
               end) ;
      let '(keys, keys_cache) := r in
      do mint_pubkey <- mlift (ok_or AmountKey (keys !! amount p)) ;
      do_ mlift (map_err (fun _ => CouldNotVerifyDleq) (proof_verify_dleq p mint_pubkey)) ;
      check_dleqs keys_cache l'
  end.

Definition verify_token_dleq (now : N) (tok : Token) : Pm unit :=
  do keysets_info <- wallet (load_mint_keysets self now) ;
  do proofs <- token (TokenOps.proofs tok keysets_info) ;
  wallet (check_dleqs ∅ proofs).

End defs.
End WalletPay.
