(* ===== verification/WalletPayFacts.v ===== *)
(** * Properties of payments

    Stated for any store and any mint behind the interfaces, like those of
    WalletFacts.v: sending, receiving, minting and melting. *)
From stdpp Require Import base numbers list sorting strings gmap.
From S2P Require Import Prelude Amount Hex Nuts KeysetId Bdhke Conditions Spending States MintDb Mint MintFacts Keysets Melt Secrets Selection SelectionFacts MintUrl WalletDb Token TokenFacts Posts WalletStore Wallet CheckerFacts WalletFacts WalletPay.
Import Nut00 Requests KeysetId Bdhke Nut11 Spending Keysets Secrets WalletDb Token WalletStore MintFacts Wallet WalletFacts WalletPay.

Local Open Scope N_scope.
Local Open Scope res_scope.
Local Open Scope mint_scope.

Module WalletPayFacts.

Section sends.
Context {CR : Crypto} {CV : Curve CR} {BP : Bip32 CR} {KDF : SeedKdf CR BP} {SD : Serde} {PD : EqDecision Proof}.
Context {MintInfo W StoreErr S NetErr : Type} {ST : WalletStore CR MintInfo W StoreErr}.
Context {MC : WalletConnector CR MintInfo S NetErr} {MI : MintInfoView MintInfo} {TC : TokenCodec CR}.
Context {WV : WalletView CR W} {SL : WalletStoreLaws CR MintInfo W StoreErr ST WV}.
Context (iter : list Proof -> list Proof) (iter_perm : forall l, iter l ≡ₚ l).
Context (iter_fees : Selection.KeysetFeeAndAmounts -> Selection.KeysetFeeAndAmounts).
Context (fuel : nat) (self : Wallet).

Abbreviation Client := (Client W S).
Abbreviation WM := (Wm (W:=W) (StoreErr:=StoreErr) (S:=S) (NetErr:=NetErr)).
Abbreviation stored w := (proofs_of (cl_store w)).

(** ** Stored proofs *)

Lemma restate_twice ks st st' (i : ProofInfo) : restate ks st' (restate ks st i) = restate ks st' i.
Proof. unfold restate. destruct (bool_decide (pi_y i ∈ ks)) eqn:H; cbn; by rewrite H. Qed.
Lemma restate_same ks st (l : list ProofInfo) : (forall i, i ∈ l -> pi_y i ∈ ks -> pi_state i = st) -> restate ks st <$> l = l.
Proof.
  intros H. rewrite <- (list_fmap_id l) at 2. apply list_fmap_ext. intros j i Hi%list_elem_of_lookup_2. unfold restate.
  case_bool_decide as Hk; [|done]. specialize (H i Hi Hk). destruct i; cbn in *. by subst.
Qed.

Lemma restate_same_proof ks st (i : ProofInfo) : pi_proof (restate ks st i) = pi_proof i.
Proof. unfold restate. by destruct (bool_decide _). Qed.
Lemma restate_key ks st (i : ProofInfo) : pi_y (restate ks st i) = pi_y i.
Proof. unfold restate. by destruct (bool_decide _). Qed.

Lemma well_keyed_inj l (i j : ProofInfo) : well_keyed l -> i ∈ l -> j ∈ l -> pi_y i = pi_y j -> i = j.
Proof.
  intros [Hn _] [a Ha]%list_elem_of_lookup [b Hb]%list_elem_of_lookup He.
  assert (a = b) as ->; [|congruence]. eapply (NoDup_lookup (pi_y <$> l)); [done| |]; rewrite list_lookup_fmap.
  - by rewrite Ha.
  - rewrite Hb. cbn. by rewrite He.
Qed.

Lemma restate_keyed ks st l : well_keyed l -> well_keyed (restate ks st <$> l).
Proof.
  intros [Hn Hf]. split; [by rewrite restate_same_ys|]. rewrite Forall_fmap. eapply Forall_impl; [exact Hf|].
  intros i Hi. unfold compose, restate. by case_bool_decide.
Qed.
Lemma well_keyed_perm l l' : l ≡ₚ l' -> well_keyed l -> well_keyed l'.
Proof. intros H [Hn Hf]. split; [by rewrite <- H|by rewrite <- H]. Qed.

(** Proofs that are stored in a state. *)
Definition stored_as (st : Nut07.State) (l : list ProofInfo) (ps : list Proof) : Prop :=
  forall p, p ∈ ps -> exists i, i ∈ l /\ pi_proof i = p /\ pi_state i = st /\
    pi_mint_url i = wl_mint_url self /\ pi_unit i = wl_unit self.

Lemma stored_as_ys st l ps ks : well_keyed l -> stored_as st l ps -> ys ps = Ok ks ->
  forall k, k ∈ ks -> exists i, i ∈ l /\ pi_y i = k /\ pi_state i = st /\ pi_mint_url i = wl_mint_url self /\ pi_unit i = wl_unit self.
Proof.
  intros [_ Hf] Hs Hys%collect_Ok k Hk. apply (list_elem_of_lookup_1 ks) in Hk as [n Hn].
  destruct (Forall2_lookup_r _ _ _ _ _ Hys Hn) as (p & Hp & Hy). apply list_elem_of_lookup_2 in Hp.
  destruct (Hs p Hp) as (i & Hi & Hip & Hst & Hu). exists i. split_and!; try done; [|by apply Hu..].
  rewrite Forall_forall in Hf. specialize (Hf i Hi). rewrite Hip in Hf. change (y p = Ok k) in Hy. rewrite Hf in Hy. by injection Hy.
Qed.

Lemma update_state_Ok ks st (w w' : Client) : (store (st_update_proofs_state ks st) : WM _) w = (Ok tt, w') ->
  stored w' ≡ₚ (restate ks st <$> stored w).
Proof. intros [H _]%store_Ok. by apply update_proofs_state_Ok in H. Qed.

Lemma get_proofs_with_Ok st sc (w w' : Client) l : (get_proofs_with self (Some [st]) sc : WM _) w = (Ok l, w') ->
  stored_as st (stored w) l /\ stored w' = stored w.
Proof.
  unfold get_proofs_with. intros (il & w1 & Hg & [= <- <-])%mseq_Ok. apply (keeps_run quiet_c) in Hg as Q; [|keep].
  apply store_Ok in Hg as [Hg%get_proofs_stored _]. split; [|apply Q].
  intros p (i & -> & Hi)%list_elem_of_fmap. apply Hg, list_elem_of_filter in Hi as [(Hu & Hc & Hs) Hi]. exists i.
  split_and!; try done. by apply list_elem_of_singleton in Hs.
Qed.

(** ** Sending *)

Lemma get_proofs_fee_by_count_quiet m : keeps quiet_c (get_proofs_fee_by_count m : WM _).
Proof. unfold get_proofs_fee_by_count. keep. apply fees_of_keysets_quiet. Qed.
#[local] Hint Resolve get_proofs_fee_by_count_quiet : keeps.

Lemma split_proofs_to_send_perm force exact kind ws ps a b :
  split_proofs_to_send force exact kind ws ps = (a, b) -> b ++ a ≡ₚ ps.
Proof.
  unfold split_proofs_to_send. destruct force; [intros [= <- <-]; by rewrite app_nil_r|].
  destruct (_ || _); [by intros [= <- <-]|]. intros ->%pick_amounts_perm%(Permutation_trans (Permutation_app_comm b a)). done.
Qed.

(** The proofs of a prepared send are those selected, and are reserved. *)
Lemma internal_prepare_send_Ok amount opts ps force (w w' : Client) p :
  (internal_prepare_send fuel self amount opts ps force : WM _) w = (Ok p, w') ->
  pd_amount p = amount /\ pd_options p = opts /\ pd_proofs p ≡ₚ ps /\
  exists ks, ys ps = Ok ks /\ stored w' ≡ₚ (restate ks Nut07.Reserved <$> stored w).
Proof.
  unfold internal_prepare_send. intros (k & w1 & H1 & H)%mseq_Ok. apply (keeps_run quiet_c) in H1 as [Q1 _]; [|keep].
  apply mseq_Ok in H as (fa & w2 & H2 & H). apply (keeps_run quiet_c) in H2 as [Q2 _]; [|keep].
  apply mseq_Ok in H as ([parts fee] & w3 & H3 & H). apply (keeps_run quiet_c) in H3 as [Q3 _]; [|keep].
  apply mseq_Ok in H as (ks & w4 & [Hys ->]%lifted_Ok & H). apply mseq_Ok in H as ([] & w5 & Hu%update_state_Ok & H).
  apply mseq_Ok in H as (t & w6 & [_ ->]%lifted_Ok & H). apply mseq_Ok in H as (wn & w7 & [_ ->]%lifted_Ok & H). cbn zeta in H.
  destruct (split_proofs_to_send _ _ _ _ _) as [ts tw] eqn:Hsp. apply split_proofs_to_send_perm in Hsp.
  apply mseq_Ok in H as (sf & w8 & H8 & [= <- <-]). apply (keeps_run quiet_c) in H8 as [Q8 _]; [|keep].
  split_and!; try done. exists ks. split; [done|]. by rewrite Q8, Hu, Q3, Q2, Q1.
Qed.

Lemma prepare_send_Ok now amount opts (w w' : Client) p :
  (prepare_send iter iter_fees fuel self now amount opts : WM _) w = (Ok p, w') ->
  pd_amount p = amount /\ pd_options p = opts /\
  exists ps ks, pd_proofs p ≡ₚ ps /\ stored_as Nut07.Unspent (stored w) ps /\ ys ps = Ok ks /\
    stored w' ≡ₚ (restate ks Nut07.Reserved <$> stored w).
Proof.
  unfold prepare_send. intros ([] & w1 & H1 & H)%mseq_Ok. apply (keeps_run quiet_c) in H1 as [Q1 _]; [|keep].
  apply mseq_Ok in H as (fees & w2 & H2 & H). apply (keeps_run quiet_c) in H2 as [Q2 _]; [|keep].
  apply mseq_Ok in H as (l & w3 & [Hl Q3]%get_proofs_with_Ok & H).
  apply mseq_Ok in H as (t & w4 & [_ ->]%lifted_Ok & H).
  apply mseq_Ok in H as ([av force] & w5 & Hav & H).
  assert (Hst : stored_as Nut07.Unspent (stored w) av /\ stored w5 = stored w3).
  { rewrite Q2, Q1 in Hl. destruct (t <? amount); [|by injection Hav as <- _ <-].
    destruct (_ || _); [done|]. apply mseq_Ok in Hav as (l2 & w6 & [Hl2 Q6]%get_proofs_with_Ok & [= <- _ <-]).
    by rewrite Q3, Q2, Q1 in Hl2. }
  destruct Hst as [Hst Q5]. apply mseq_Ok in H as (kss & w6 & H6 & H). apply (keeps_run quiet_c) in H6 as [Q6 _]; [|keep].
  apply mseq_Ok in H as (sel & w7 & [Hsel%SelectionFacts.select_proofs_from ->]%lifted_Ok & H); [|done].
  apply mseq_Ok in H as (st & w8 & [_ ->]%lifted_Ok & H).
  apply mseq_Ok in H as (sf & w9 & H9 & H). apply (keeps_run quiet_c) in H9 as [Q9 _]; [|keep].
  apply mseq_Ok in H as (wn & w10 & [_ ->]%lifted_Ok & H).
  assert (Hi : exists w11, stored w11 = stored w9 /\ (internal_prepare_send fuel self amount opts sel force : WM _) w11 = (Ok p, w')).
  { destruct (st =? wn); [eauto|]. case_bool_decide; [done|]. destruct (tolerance_of _); [|eauto].
    apply mseq_Ok in H as (o & w12 & [_ ->]%lifted_Ok & H). destruct (_ && _); [done|eauto]. }
  destruct Hi as (w11 & Q11 & (Ha & Ho & Hp & ks & Hys & Hs)%internal_prepare_send_Ok). do 2 (split; [done|]).
  exists sel, ks. split_and!; [done| |done|by rewrite Hs, Q11, Q9, Q6, Q5, Q3, Q2, Q1].
  intros q Hq. by apply Hst, Hsel.
Qed.
Lemma ys_perm (ps ps' : list Proof) ks : ps ≡ₚ ps' -> ys ps = Ok ks -> exists ks', ys ps' = Ok ks' /\ ks ≡ₚ ks'.
Proof.
  unfold ys. intros Hp. revert ks. induction Hp as [|p l l' _ IH|p q l|l1 l2 l3 _ IH1 _ IH2]; intros ks; cbn [collect]; [intros [= <-]; by exists []| | |].
  - destruct (y p) as [k| |]; [|done..]. destruct (collect y l) as [k1| |]; [|done..]. intros [= <-].
    destruct (IH k1 eq_refl) as (k2 & -> & H2). exists (k :: k2). split; [done|]. by constructor.
  - destruct (y q) as [j| |]; [|done..]. destruct (y p) as [k| |]; [|done..]. destruct (collect y l) as [k1| |]; [|done..].
    intros [= <-]. eexists. split; [done|]. by constructor.
  - intros (k1 & H1 & Hk1)%IH1. apply IH2 in H1 as (k2 & H2 & Hk2). exists k2. split; [done|]. by etrans.
Qed.

Lemma ys_stored (l : list ProofInfo) : Forall (fun i => y (pi_proof i) = Ok (pi_y i)) l -> ys (pi_proof <$> l) = Ok (pi_y <$> l).
Proof.
  unfold ys. induction 1 as [|i l Hi _ IH]; [done|]. rewrite !fmap_cons. cbn [collect]. by rewrite Hi, IH.
Qed.

Lemma store_Err {A} (c : M W StoreErr A) (w w' : Client) e : (store c : WM A) w = (Err e, w') -> exists e', e = StoreFailed e'.
Proof. unfold store, mmap_err. destruct (c (cl_store w)) as [[x|e'|] s]; cbn; intros [= <- _]. eauto. Qed.

(** Reading the proofs in a state either fails in the store or gives the keys of
    those proofs. *)
Lemma get_state_keys st (w w' : Client) r : well_keyed (stored w) ->
  (do l <- get_proofs_with self (Some [st]) None ; dhke (ys l) : WM _) w = (r, w') ->
  stored w' = stored w /\
  match r with
  | Ok ks => ks ≡ₚ (pi_y <$> filter (wanted (wl_mint_url self) (wl_unit self) [st]) (stored w))
  | Err e => exists e', e = StoreFailed e'
  | Panic => True
  end.
Proof.
  intros Hk H. split. { apply (keeps_run quiet_c) in H as [Q _]; [done|keep]. }
  unfold get_proofs_with in H. apply seq_run in H as [(l & w1 & Hg & H)|[(e & Hg & ->)|[Hg ->]]]; [| |done].
  - apply seq_run in Hg as [(il & w2 & Hg & [= <- <-])|[(? & _ & [=])|[_ [=]]]].
    apply store_Ok in Hg as [Hl%get_proofs_wanted _]. unfold dhke, mlift in H. rewrite ys_stored in H.
    + injection H as <- _. cbn. by rewrite Hl.
    + rewrite Hl. destruct Hk as [_ Hf]. rewrite Forall_forall in Hf |- *. intros i [_ Hi]%list_elem_of_filter. by apply Hf.
  - apply seq_run in Hg as [(il & w2 & _ & [=])|[(e' & Hg & [= ->])|[_ [=]]]]. by apply store_Err in Hg.
Qed.

Lemma restate_perm (ks ks' : list pubkey) st (i : ProofInfo) : ks ≡ₚ ks' -> restate ks st i = restate ks' st i.
Proof. intros H. unfold restate. by rewrite (bool_decide_ext _ (pi_y i ∈ ks')) by by rewrite H. Qed.

(** What is reserved is found among the reserved. *)
Lemma reserved_all (l l' : list ProofInfo) ks all rys :
  (forall k, k ∈ ks -> exists i, i ∈ l /\ pi_y i = k /\ pi_state i = Nut07.Unspent /\ pi_mint_url i = wl_mint_url self /\ pi_unit i = wl_unit self) ->
  ks ≡ₚ all -> l' ≡ₚ (restate ks Nut07.Reserved <$> l) ->
  rys ≡ₚ (pi_y <$> filter (wanted (wl_mint_url self) (wl_unit self) [Nut07.Reserved]) l') ->
  forallb (fun k => bool_decide (k ∈ rys)) all = true.
Proof.
  intros Hu Hks Hl Hr. apply forallb_forall. intros k Hk%list_elem_of_In. rewrite <- Hks in Hk. apply bool_decide_eq_true. rewrite Hr.
  destruct (Hu k Hk) as (i & Hi & <- & _ & Hm & Hc). apply list_elem_of_fmap. exists (restate ks Nut07.Reserved i).
  unfold restate. rewrite bool_decide_true by done. split; [done|]. rewrite Hl. apply list_elem_of_filter. split.
  - split_and!; [done..|]. by left.
  - apply list_elem_of_fmap. exists i. split; [|done]. unfold restate. by rewrite bool_decide_true.
Qed.

(** C38. Cancelling undoes preparing: a prepared send that is cancelled is never
    refused for the state of its proofs, and when the store does not fail,
    the store has the same proofs in the same states as before. *)
Theorem prepare_cancel_restores now amount opts (w w' w'' : Client) p r
    (Hprep : (prepare_send iter iter_fees fuel self now amount opts : WM _) w = (Ok p, w'))
    (Hkeys : well_keyed (stored w)) (Hcancel : (cancel self p : WM _) w' = (r, w'')) :
  r <> Err UnexpectedProofState /\ (r = Ok tt -> stored w'' ≡ₚ stored w).
Proof.
  apply prepare_send_Ok in Hprep as (_ & _ & ps & ks & Hperm & Hst & Hys & Hw').
  pose proof (stored_as_ys _ _ _ _ Hkeys Hst Hys) as Hunspent. symmetry in Hperm. apply ys_perm with (ks:=ks) in Hperm as (all & Hall & Hks); [|done].
  assert (Hkeys' : well_keyed (stored w')) by (eapply well_keyed_perm; [symmetry; exact Hw'|by apply restate_keyed]).
  unfold cancel, get_reserved_proofs in Hcancel. rewrite seq_regroup in Hcancel.
  apply seq_run in Hcancel as [(rys & w1 & Hg & H)|[(e & Hg & ->)|[Hg ->]]]; [|by apply get_state_keys in Hg as [_ [e' ->]]|done].
  apply get_state_keys in Hg as [Q1 Hr]; [|done]. unfold dhke in H. rewrite Hall in H. unfold mseq at 1, mlift in H. cbn [map_err] in H.
  rewrite (reserved_all (stored w) (stored w') ks all rys) in H by done. split.
  - intros ->. by apply store_Err in H as [e' [=]].
  - intros ->. apply update_state_Ok in H. rewrite H, Q1, Hw', <- list_fmap_compose.
    rewrite (list_fmap_ext _ (restate ks Nut07.Unspent)).
    + rewrite restate_same; [done|]. intros i Hi Hin. destruct (Hunspent _ Hin) as (j & Hj & Hy & Hs & _).
      by rewrite (well_keyed_inj _ i j Hkeys Hi Hj (eq_sym Hy)).
    + intros j i _. unfold compose. by rewrite (restate_perm all ks), restate_twice by done.
Qed.

Lemma get_proofs_with_in sts sc (w w' : Client) l : (get_proofs_with self (Some sts) sc : WM _) w = (Ok l, w') ->
  (forall p, p ∈ l -> exists i, i ∈ stored w /\ pi_proof i = p /\ pi_state i ∈ sts) /\ stored w' = stored w.
Proof.
  unfold get_proofs_with. intros (il & w1 & Hg & [= <- <-])%mseq_Ok. apply (keeps_run quiet_c) in Hg as Q; [|keep].
  apply store_Ok in Hg as [Hg%get_proofs_stored _]. split; [|apply Q].
  intros p (i & -> & Hi)%list_elem_of_fmap. apply Hg, list_elem_of_filter in Hi as [(_ & _ & Hs) Hi]. by exists i.
Qed.

Lemma ys_elem (l : list Proof) ks k : ys l = Ok ks -> k ∈ ks -> exists p, p ∈ l /\ y p = Ok k.
Proof.
  intros Hys%collect_Ok [n Hn]%list_elem_of_lookup. destruct (Forall2_lookup_r _ _ _ _ _ Hys Hn) as (p & Hp & Hy).
  exists p. by apply list_elem_of_lookup_2 in Hp.
Qed.

Lemma hand_out_Ok now rnd m pd (w w' : Client) l memo :
  (hand_out fuel self now rnd m pd : WM _) w = (Ok (l, memo), w') ->
  pd_amount pd <= sumN (Nut00.amount <$> l) /\ (pd_proofs_to_swap pd = [] -> l = pd_proofs_to_send pd) /\
  exists (w1 : Client) ks, ys l = Ok ks /\ stored w' ≡ₚ (restate ks Nut07.PendingSpent <$> stored w1) /\
    forall k, k ∈ ks -> exists i, i ∈ stored w1 /\ y (pi_proof i) = Ok k /\ pi_state i ∈ [Nut07.Reserved; Nut07.Unspent].
Proof.
  unfold hand_out. intros (fee & w1 & [_ ->]%lifted_Ok & H)%mseq_Ok. apply mseq_Ok in H as (ak & w2 & _ & H).
  apply mseq_Ok in H as (fa & w3 & _ & H). apply mseq_Ok in H as (out & w4 & Hsw & H).
  apply mseq_Ok in H as (t & w5 & [-> ->]%total_run & H). apply mseq_Ok in H as ([] & w6 & [Hen ->]%mlift_Ok & H).
  apply ensure_Ok, negb_true_iff, N.ltb_ge in Hen. apply mseq_Ok in H as (sl & w7 & [Hsl Q7]%get_proofs_with_in & H).
  apply mseq_Ok in H as (sys & w8 & [Hsys ->]%lifted_Ok & H). apply mseq_Ok in H as (ks & w9 & [Hks ->]%lifted_Ok & H).
  apply mseq_Ok in H as ([] & w10 & [Hall ->]%mlift_Ok & H). apply ensure_Ok in Hall.
  apply mseq_Ok in H as ([] & w11 & Hu%update_state_Ok & H). apply mseq_Ok in H as ([] & w12 & Ht & [= -> _ <-]).
  apply (keeps_run quiet_c) in Ht as [Q12 _]; [|keep]. split; [done|]. split.
  - intros Hnil. unfold swapped_to_send in Hsw. apply mseq_Ok in Hsw as (ts & w13 & _ & Hsw). rewrite Hnil in Hsw. by injection Hsw.
  - exists w7, ks. split_and!; [done|by rewrite Q12, Hu|]. intros k Hk. rewrite forallb_forall in Hall.
    apply list_elem_of_In, Hall, bool_decide_eq_true in Hk. destruct (ys_elem _ _ _ Hsys Hk) as (p & Hp & Hy).
    rewrite Q7. destruct (Hsl p Hp) as (i & Hi & <- & Hs). by exists i.
Qed.

(** C29. A send that is confirmed hands out proofs worth at least the amount (the
    prepared ones, when none are swapped), makes its token of exactly those
    proofs, and leaves each of them stored, and stored as pending-spent only: it
    is no longer among the proofs that are selected or handed out. *)
Theorem send_hands_out iter_groups now rnd m pd (w w' : Client) tok
    (Hrun : (confirm iter_groups fuel self now rnd m pd : Pm (W:=W) (StoreErr:=StoreErr) (S:=S) (NetErr:=NetErr) _) w = (Ok tok, w'))
    (Hkeys : well_keyed (stored w')) :
  exists l memo ks, TokenOps.Token_new iter_groups (wl_mint_url self) l memo (wl_unit self) = Ok tok /\
    pd_amount pd <= sumN (Nut00.amount <$> l) /\ (pd_proofs_to_swap pd = [] -> l = pd_proofs_to_send pd) /\ ys l = Ok ks /\
    (forall i, i ∈ stored w' -> pi_y i ∈ ks -> pi_state i = Nut07.PendingSpent) /\
    (forall k, k ∈ ks -> exists i, i ∈ stored w' /\ pi_y i = k /\ pi_state i = Nut07.PendingSpent).
Proof.
  unfold confirm in Hrun. apply mseq_Ok in Hrun as ([l memo] & w1 & Hh & Ht). apply lifted_Ok in Ht as [Ht <-]. cbn [fst snd] in Ht.
  unfold wallet, mmap_err in Hh. destruct (hand_out fuel self now rnd m pd w) as [[[l' memo']| |] w2] eqn:Ho; [|done..].
  cbn in Hh. injection Hh as -> -> ->. apply hand_out_Ok in Ho as (Hge & Hsame & w2 & ks & Hys & Hst & Hall).
  exists l, memo, ks. do 4 (split; [done|]).
  split.
  - intros i Hi Hk. rewrite Hst in Hi. apply list_elem_of_fmap in Hi as (j & -> & Hj). unfold restate in *.
    destruct (bool_decide (pi_y j ∈ ks)) eqn:Hb; [done|]. by apply bool_decide_eq_false in Hb.
  - intros k Hk. destruct (Hall k Hk) as (i & Hi & Hy & Hs).
    assert (Hin : restate ks Nut07.PendingSpent i ∈ stored w') by (rewrite Hst; by apply list_elem_of_fmap_2).
    assert (Hyi : pi_y i = k).
    { destruct Hkeys as [_ Hf]. rewrite Forall_forall in Hf. specialize (Hf _ Hin).
      rewrite restate_same_proof, restate_key, Hy in Hf. by injection Hf. }
    exists (restate ks Nut07.PendingSpent i). split; [done|]. unfold restate. by rewrite bool_decide_true by (by rewrite Hyi).
Qed.

(** ** Receiving *)

Lemma infos_keys st l infos : infos_of self st l infos -> ys l = Ok (pi_y <$> infos).
Proof.
  intros [<- Hf]. apply ys_stored. eapply Forall_impl; [exact Hf|]. by intros i (_ & _ & _ & ?).
Qed.

(** Preparing a proof changes its witness only. *)
Definition same_coin (p q : Proof) : Prop := secret q = secret p /\ amount q = amount p.
Lemma sign_with_same sk keys : forall p, same_coin p (sign_with sk keys p).
Proof.
  unfold sign_with. induction keys as [|k keys IH]; intros p; cbn [fold_left]; [done|].
  destruct (sk !! x_only_public_key k) as [s|]; [|apply IH]. destruct (IH (sign_p2pk p s)) as [H1 H2]. split; [by rewrite H1|by rewrite H2].
Qed.

Lemma check_dleq_quiet p : keeps quiet_c (check_dleq p : WM _).
Proof. unfold check_dleq. keep. Qed.
#[local] Hint Resolve check_dleq_quiet : keeps.
Lemma prepare_proof_quiet pre sk p : keeps quiet_c (prepare_proof pre sk p : WM _).
Proof. unfold prepare_proof. keep. Qed.
#[local] Hint Resolve prepare_proof_quiet : keeps.
Lemma prepare_proofs_quiet pre sk l : keeps quiet_c (prepare_proofs pre sk l : WM _).
Proof. induction l as [|p l IH]; cbn [prepare_proofs]; keep. Qed.
#[local] Hint Resolve prepare_proofs_quiet : keeps.

Lemma prepare_proof_same pre sk p (w w' : Client) q b :
  (prepare_proof pre sk p : WM _) w = (Ok (q, b), w') -> same_coin p q.
Proof.
  unfold prepare_proof. intros ([] & w1 & _ & H)%mseq_Ok. destruct (nut10_from_json (secret p)) as [s10|]; [|by injection H as <- _ _].
  cbn zeta in H. destruct (Conditions_try_from _) as [c| |]; [|by injection H as <- _ _|done].
  apply mseq_Ok in H as ([p' keys] & w2 & Hk & H). injection H as <- _ _. cbn [fst snd].
  destruct (sign_with_same sk keys p') as [H1 H2]. unfold same_coin. rewrite H1, H2. destruct (Nut10.kind s10).
  - apply mseq_Ok in Hk as (dk & w3 & _ & Hk). by injection Hk as <- _ _.
  - apply mseq_Ok in Hk as (pr & w3 & _ & Hk). by injection Hk as <- _ _.
Qed.

Lemma prepare_proofs_same pre sk l : forall (w w' : Client) l' b,
  (prepare_proofs pre sk l : WM _) w = (Ok (l', b), w') -> Forall2 same_coin l l'.
Proof.
  induction l as [|p l IH]; intros w w' l' b; cbn [prepare_proofs]; [by intros [= <- _ _]|].
  intros ([q b1] & w1 & Hp%prepare_proof_same & H)%mseq_Ok. apply mseq_Ok in H as ([rest b2] & w2 & Hr%IH & H).
  injection H as <- _ _. by constructor.
Qed.

Lemma same_coins_ys l l' : Forall2 same_coin l l' -> ys l' = ys l.
Proof.
  unfold ys. induction 1 as [|p q l l' [Hs _] _ IH]; [done|]. cbn [collect]. unfold y at 1 3. by rewrite Hs, IH.
Qed.
Lemma same_coins_amounts l l' : Forall2 same_coin l l' -> Nut00.amount <$> l' = Nut00.amount <$> l.
Proof. induction 1 as [|p q l l' [_ Ha] _ IH]; [done|]. by rewrite !fmap_cons, Ha, IH. Qed.

Lemma sign_outputs_amounts keys r : bm_amount <$> swap_outputs (sign_outputs keys r) = bm_amount <$> swap_outputs r.
Proof.
  unfold sign_outputs. cbn [swap_outputs]. rewrite <- list_fmap_compose. apply list_fmap_ext. intros _ m _. unfold compose.
  revert m. induction keys as [|k keys IH]; intros m; cbn [fold_left]; [done|]. by rewrite IH.
Qed.

Lemma planned_le rnd amount proofs sc w w' pre p : planned fuel self rnd amount proofs sc w w' pre p ->
  sumN (bm_amount <$> swap_outputs (ps_swap_request pre)) + ps_fee pre <= sumN (Nut00.amount <$> proofs).
Proof.
  intros Hp. pose proof (planned_amounts _ _ _ _ _ _ _ _ _ _ Hp) as (_ & sp & cp & Hsp & Hcp & Ho).
  destruct Hp as (_ & _ & Hbal & _). rewrite Ho, sumN_app. apply SplitFacts.split_targeted_le in Hsp, Hcp. lia.
Qed.

Lemma planned_exact rnd amount proofs sc w w' pre p : planned fuel self rnd amount proofs sc w w' pre p ->
  forall k, Amount.amounts (pl_fa p) = Amount.pow2_amounts k -> sumN (Nut00.amount <$> proofs) < 2 ^ N.of_nat k ->
  sumN (bm_amount <$> swap_outputs (ps_swap_request pre)) + ps_fee pre = sumN (Nut00.amount <$> proofs).
Proof.
  intros Hp k Hk Hlt. pose proof (planned_amounts _ _ _ _ _ _ _ _ _ _ Hp) as (_ & sp & cp & Hsp & Hcp & Ho).
  destruct Hp as (_ & _ & Hbal & _). rewrite Ho, sumN_app.
  apply (SplitFacts.split_targeted_pow2 fuel k _ _ _ _ Hk) in Hsp; [|lia].
  apply (SplitFacts.split_targeted_pow2 fuel k _ _ _ _ Hk) in Hcp; lia.
Qed.

Lemma without_none (l : list ProofInfo) : without [] l = l.
Proof. apply filter_all. intros i _. by intros ?%not_elem_of_nil. Qed.

(** The fee and the denominations that a receive works with: those of the swap of
    the prepared proofs, once they are stored as pending. *)
Definition claim_charge (now : N) (ps : list Proof) : WM (N * Amount.FeeAndAmounts) :=
  do infos <- proof_infos self Nut07.Pending (wl_unit self) ps ;
  do_ store (st_update_proofs infos []) ;
  swap_terms self now ps.
Definition receive_charge (now : N) (proofs : list Proof) (opts : ReceiveOptions) : WM (N * Amount.FeeAndAmounts) :=
  do_ refresh_keysets self now ;
  do k <- fetch_active_keyset self now ;
  do_ load_keyset_keys (ki_id k) ;
  do hashed <- mlift (collect hash_preimage (ro_preimages opts)) ;
  let signing_keys := map_of ((fun s => (x_only_public_key (seckey_public_key s), s)) <$> ro_p2pk_signing_keys opts) in
  do prepared <- prepare_proofs (map_of hashed) signing_keys proofs ;
  claim_charge now prepared.1.

(** The swap of the received proofs. *)
Lemma claim_proofs_Ok now rnd id keys t sk ps (w w' : Client) n : signs_swaps ->
  (claim_proofs fuel self now rnd id keys t sk ps : WM _) w = (Ok n, w') ->
  exists ks infos fee fa, ys ps = Ok ks /\ n = sumN (amounts_of infos) /\
    fst (claim_charge now ps w) = Ok (fee, fa) /\ n + fee <= sumN (Nut00.amount <$> ps) /\
    (forall k, Amount.amounts fa = Amount.pow2_amounts k -> sumN (Nut00.amount <$> ps) < 2 ^ N.of_nat k ->
       n + fee = sumN (Nut00.amount <$> ps)) /\
    Forall (fun i => pi_state i = Nut07.Unspent /\ pi_mint_url i = wl_mint_url self /\ pi_unit i = wl_unit self /\
      y (pi_proof i) = Ok (pi_y i)) infos /\
    (NoDup ks -> (forall k, k ∈ ks -> k ∉ pi_y <$> stored w) -> Forall (fun a => a <= I64_MAX) (Nut00.amount <$> ps) ->
     fresh infos ks (stored w) -> stored w' ≡ₚ stored w ++ infos).
Proof.
  clear iter iter_perm iter_fees. intros Hsigns. unfold claim_proofs. intros (pin & w1 & Hpin' & H)%mseq_Ok. pose proof Hpin' as [Hpin ->]%proof_infos_Ok.
  apply mseq_Ok in H as ([] & w2 & Hu1' & H). pose proof Hu1' as [Hu1 _]%store_Ok.
  apply mseq_Ok in H as (pre & w3 & (p & Hp & _ & Hterms)%create_swap_planned & H). cbn zeta in H.
  apply mseq_Ok in H as (sigs & w4 & [Hpost Hw4]%net_Ok & H). apply mseq_Ok in H as (new & w5 & [Hnew ->]%lifted_Ok & H).
  apply mseq_Ok in H as (c & w6 & [Hc _]%store_Ok & H). apply increment_proofs in Hc as [Hc _].
  apply mseq_Ok in H as (tot & w7 & [-> ->]%total_run & H). apply mseq_Ok in H as (infos & w8 & [Hinf ->]%proof_infos_Ok & H).
  apply mseq_Ok in H as ([] & w9 & [Hu2 _]%store_Ok & [= <- <-]).
  pose proof (planned_le _ _ _ _ _ _ _ _ Hp) as Hle. pose proof (planned_exact _ _ _ _ _ _ _ _ Hp) as Heq. destruct Hp as ((_ & Hys) & (wa & wb & Hres & _ & _ & _ & Hr & [Q _]) & _).
  apply Hsigns in Hpost. rewrite sign_outputs_amounts, <- (CheckerFacts.construct_amounts _ _ _ _ _ Hnew) in Hpost.
  pose proof (infos_keys _ _ _ Hpin) as Hk. rewrite Hk in Hys. injection Hys as Hys.
  exists (pi_y <$> pin), infos, (ps_fee pre), (pl_fa p). pose proof Hinf as [Hinf1 Hf]. rewrite <- Hinf1. split_and!; [done| | | | |done|].
  - unfold amounts_of. by rewrite <- list_fmap_compose.
  - unfold claim_charge, mseq at 1. rewrite Hpin'. unfold mseq. by rewrite Hu1'.
  - rewrite Hinf1, Hpost. done.
  - intros j Hj Hlt. rewrite Hinf1, Hpost. by eapply Heq.
  - intros Hnd Hnew' Hmax Hfr. apply update_proofs_Ok in Hu1; cycle 1.
    { split; [done|]. intros i Hi. split; [by intros ?%not_elem_of_nil|]. split; [by apply Hnew', list_elem_of_fmap_2|].
      destruct Hpin as [<- _]. rewrite Forall_forall in Hmax. by apply Hmax, list_elem_of_fmap_2, list_elem_of_fmap_2. }
    rewrite without_none in Hu1.
    assert (Hs6 : stored w6 ≡ₚ (restate (pi_y <$> pin) Nut07.Reserved <$> stored w ++ pin)).
    { rewrite Hc, Hw4, Q. apply reserve_counters_proofs in Hr. by rewrite Hr, Hres, <- Hys, Hu1. }
    rewrite (without_swapped (stored w6) (stored w ++ pin) _ (pi_y <$> pin) Nut07.Reserved infos Hs6).
    + unfold without. rewrite filter_app, filter_all, (filter_none _ pin), app_nil_r; [done| |].
      * intros i Hi Hn. by apply Hn, list_elem_of_fmap_2.
      * intros i Hi Hk'. by apply (Hnew' _ Hk'), list_elem_of_fmap_2.
    + destruct Hfr as [H1 H2]. split; [done|]. intros i Hi. destruct (H2 i Hi) as (H3 & H4 & H5). split_and!; [done| |done]. rewrite fmap_app. set_solver.
    + intros Hf'. by apply update_proofs_Ok in Hu2.
Qed.

(** C30. Receiving takes the value over: a receive that returns has exchanged
    the proofs it was given, none of which stays in the store, for new unspent
    ones of the wallet, which are worth what it returns.  With the fee that the
    wallet works out for the given proofs they are worth no more than these,
    and exactly as much when the denominations of the active keyset are the
    powers of two above the amount. *)
Theorem receive_takes_over iter_keys now rnd proofs opts memo (w w' : Client) n
    (Hrun : (receive_proofs iter_keys fuel self now rnd proofs opts memo : WM _) w = (Ok n, w')) (Hsigns : signs_swaps) :
  exists ks infos fee fa, ys proofs = Ok ks /\ n = sumN (amounts_of infos) /\
    fst (receive_charge now proofs opts w) = Ok (fee, fa) /\ n + fee <= sumN (Nut00.amount <$> proofs) /\
    (forall k, Amount.amounts fa = Amount.pow2_amounts k -> sumN (Nut00.amount <$> proofs) < 2 ^ N.of_nat k ->
       n + fee = sumN (Nut00.amount <$> proofs)) /\
    Forall (fun i => pi_state i = Nut07.Unspent /\ pi_mint_url i = wl_mint_url self /\ pi_unit i = wl_unit self /\
      y (pi_proof i) = Ok (pi_y i)) infos /\
    (NoDup ks -> (forall k, k ∈ ks -> k ∉ pi_y <$> stored w) -> Forall (fun a => a <= I64_MAX) (Nut00.amount <$> proofs) ->
     fresh infos ks (stored w) -> stored w' ≡ₚ stored w ++ infos).
Proof.
  unfold receive_proofs in Hrun. apply mseq_Ok in Hrun as (? & w1 & H1 & H). pose proof H1 as R1. apply (keeps_run quiet_c) in H1 as [Q1 _]; [|keep].
  apply mseq_Ok in H as (k & w2 & H2 & H). pose proof H2 as R2. apply (keeps_run quiet_c) in H2 as [Q2 _]; [|keep]. cbn zeta in H.
  apply mseq_Ok in H as (keys & w3 & H3 & H). pose proof H3 as R3. apply (keeps_run quiet_c) in H3 as [Q3 _]; [|keep].
  apply mseq_Ok in H as (tot & w4 & [_ ->]%total_run & H). apply mseq_Ok in H as (ks & w5 & [_ ->]%lifted_Ok & H).
  apply mlift_seq in H as (hs & Hhs & H). apply mseq_Ok in H as ([ps sa] & w6 & Hp & H). pose proof Hp as R6.
  apply (keeps_run quiet_c) in Hp as Q6; [|keep]. destruct Q6 as [Q6 _]. apply prepare_proofs_same in Hp.
  apply mseq_Ok in H as (n' & w7 & Hcl & H). apply mseq_Ok in H as (fee' & w8 & [_ ->]%lifted_Ok & H).
  apply mseq_Ok in H as ([] & w9 & Ht & [= <- <-]). apply (keeps_run quiet_c) in Ht as [Q9 _]; [|keep].
  apply claim_proofs_Ok in Hcl as (kl & infos & fee & fa & Hys & Hn & Hch & Hle & Heq & Hf & Hst); [|done].
  exists kl, infos, fee, fa. rewrite (same_coins_ys _ _ Hp) in Hys. rewrite (same_coins_amounts _ _ Hp) in Hle, Heq, Hst.
  rewrite Q9. rewrite Q6, Q3, Q2, Q1 in Hst. split; [done|]. split; [done|]. split; [|done].
  unfold receive_charge, mseq at 1. rewrite R1. unfold mseq at 1. rewrite R2. unfold mseq at 1. rewrite R3.
  unfold mseq at 1, mlift. rewrite Hhs. cbn zeta. unfold mseq at 1. by rewrite R6.
Qed.

(** ** Minting *)

(** The infos of new proofs of a unit. *)
Definition kept_as (u : Amount.CurrencyUnit) (l : list Proof) (infos : list ProofInfo) : Prop :=
  pi_proof <$> infos = l /\
  Forall (fun i => pi_state i = Nut07.Unspent /\ pi_mint_url i = wl_mint_url self /\ pi_unit i = u /\ y (pi_proof i) = Ok (pi_y i)) infos.

Lemma proof_infos_kept u l infos (w w' : Client) : (proof_infos self Nut07.Unspent u l : WM _) w = (Ok infos, w') ->
  kept_as u l infos /\ w' = w.
Proof.
  unfold proof_infos, dhke. intros [H ->]%lifted_Ok. split; [|done]. apply collect_Ok in H.
  induction H as [|p i l infos (<- & Hst & Hu & Hc & Hy)%ProofInfo_new_Ok _ [IH1 IH2]]; [done|]. split; [cbn; by rewrite IH1|].
  constructor; [|done]. by split_and!.
Qed.

(** A mint that signs the amounts it is asked to sign. *)
Definition signs_mints : Prop :=
  forall r m sigs m', cl_post_mint r m = (Ok sigs, m') -> (bs_amount <$> sigs) = (bm_amount <$> mint_outputs r).

Lemma mint_outputs_for_Ok rnd id kid a t sc fa pms (w w' : Client) :
  (mint_outputs_for fuel self rnd id kid a t sc fa : WM _) w = (Ok pms, w') ->
  stored w' = stored w /\ exists parts, Amount.split_targeted fuel a t fa = Some (Ok parts) /\
    bm_amount <$> blinded_messages pms = parts.
Proof.
  unfold mint_outputs_for. destruct sc as [c|].
  - intros [H ->]%fueled_Ok. apply with_conditions_amounts in H as (_ & sp & Hsp & [_ Ha]). split; [done|]. exists sp. split; [done|].
    unfold blinded_messages. by rewrite <- list_fmap_compose.
  - intros (parts & w1 & [Hp ->]%fueled_Ok & H)%mseq_Ok. apply mseq_Ok in H as (nc & w2 & [Hi _]%store_Ok & H).
    apply increment_proofs in Hi as [Hi _]. apply fueled_Ok in H as [Hf ->].
    apply from_seed_amounts in Hf as (_ & sp & Hsp & _ & [_ Ha]). split; [done|]. exists sp. split; [done|].
    unfold blinded_messages. by rewrite <- list_fmap_compose.
Qed.

Lemma check_signatures_quiet l : keeps quiet_c (check_signatures l : WM _).
Proof. induction l as [|[sg pm] l IH]; cbn [check_signatures]; keep. Qed.
#[local] Hint Resolve check_signatures_quiet : keeps.
Lemma request_proofs_quiet id pms r : keeps quiet_c (request_proofs id pms r : WM _).
Proof. unfold request_proofs. keep. Qed.
#[local] Hint Resolve request_proofs_quiet : keeps.

Lemma request_proofs_amounts id pms r (w w' : Client) l : signs_mints ->
  (request_proofs id pms r : WM _) w = (Ok l, w') -> Nut00.amount <$> l = bm_amount <$> mint_outputs r.
Proof.
  intros Hs. unfold request_proofs. intros (sigs & w1 & [Hp _]%net_Ok & H)%mseq_Ok. apply mseq_Ok in H as (keys & w2 & _ & H).
  apply mseq_Ok in H as ([] & w3 & _ & [Hc _]%lifted_Ok). rewrite (CheckerFacts.construct_amounts _ _ _ _ _ Hc). by eapply Hs.
Qed.

Lemma keep_minted_Ok now qid req u l (w w' : Client) : (keep_minted self now qid req u l : WM _) w = (Ok tt, w') ->
  exists infos, kept_as u l infos /\ (fresh infos [] (stored w) -> stored w' ≡ₚ stored w ++ infos).
Proof.
  unfold keep_minted. intros (infos & w1 & [Hk ->]%proof_infos_kept & H)%mseq_Ok. apply mseq_Ok in H as ([] & w2 & [Hu _]%store_Ok & H).
  apply mseq_Ok in H as (n & w3 & [_ ->]%total_run & H). apply mseq_Ok in H as (ks & w4 & [_ ->]%lifted_Ok & H).
  apply (keeps_run quiet_c) in H as [Q _]; [|keep]. exists infos. split; [done|]. intros Hf.
  apply update_proofs_Ok in Hu; [|done]. by rewrite Q, Hu, without_none.
Qed.

(** C34. Minting gets what was paid: a mint of a bolt11 quote that returns adds to
    the store exactly the proofs it returns, as unspent proofs of the quote's
    unit; with a mint that signs the amounts it is asked for they are worth no
    more than the quote's mintable amount, and exactly that amount when the
    keyset has the powers of two above it as denominations. *)
Theorem mint_gets_paid_amount now rnd quote_id target sc (w w' : Client) l
    (Hrun : (mint fuel self now rnd quote_id target sc : WM _) w = (Ok l, w')) (Hsigns : signs_mints) :
  exists q infos (w1 w2 : W), st_get_mint_quote quote_id w1 = (Ok (Some q), w2) /\
    wq_payment_method q = MintTypes.Bolt11 /\ 0 < wq_amount_mintable q /\ kept_as (wq_unit q) l infos /\
    (fresh infos [] (stored w) -> stored w' ≡ₚ stored w ++ infos) /\
    sumN (Nut00.amount <$> l) <= wq_amount_mintable q /\
    (exists id fa (w3 w4 : Client), (get_keyset_fees_and_amounts_by_id self id : WM _) w3 = (Ok fa, w4) /\
       forall k, Amount.amounts fa = Amount.pow2_amounts k -> wq_amount_mintable q < 2 ^ N.of_nat k ->
         sumN (Nut00.amount <$> l) = wq_amount_mintable q).
Proof.
  unfold mint in Hrun. apply mseq_Ok in Hrun as (? & w1 & H1 & H). apply (keeps_run quiet_c) in H1 as [Q1 _]; [|keep].
  apply mseq_Ok in H as (found & w2 & H2 & H). apply (keeps_run quiet_c) in H2 as Q2; [|keep]. destruct Q2 as [Q2 _].
  apply store_Ok in H2 as [H2 _]. apply mlift_seq in H as (q & Hq%ok_or_Ok & H). subst found.
  apply mlift_seq in H as ([] & Hm%ensure_Ok%bool_decide_eq_true & H). cbn zeta in H.
  apply mlift_seq in H as ([] & Ha%ensure_Ok%negb_true_iff%N.eqb_neq & H).
  apply mseq_Ok in H as (ak & w3 & H3 & H). apply (keeps_run quiet_c) in H3 as [Q3 _]; [|keep]. cbn zeta in H.
  apply mseq_Ok in H as (kid & w4 & [_ ->]%mlift_Ok & H). apply mseq_Ok in H as (fa & w5 & Hfa & H).
  pose proof (keeps_run quiet_c _ _ _ _ (get_fees_by_id_quiet _ _) Hfa) as [Q5 _].
  apply mseq_Ok in H as (pms & w6 & [Q6 (parts & Hparts & Hb)]%mint_outputs_for_Ok & H).
  apply mseq_Ok in H as (l' & w7 & Hr & H). pose proof (keeps_run quiet_c _ _ _ _ (request_proofs_quiet _ _ _) Hr) as [Q7 _].
  apply mseq_Ok in H as ([] & w8 & H8 & H). apply (keeps_run quiet_c) in H8 as [Q8 _]; [|keep].
  apply mseq_Ok in H as ([] & w9 & (infos & Hk & Hst)%keep_minted_Ok & [= -> <-]).
  assert (Hl : Nut00.amount <$> l = parts).
  { apply request_proofs_amounts in Hr as ->; [|done]. rewrite <- Hb. by destruct (wq_secret_key q). }
  exists q, infos, (cl_store w1), (cl_store w2). rewrite Q8, Q7, Q6, Q5, Q3, Q2, Q1 in Hst. rewrite Hl.
  split_and!; [done|done|lia|done|done|by apply SplitFacts.split_targeted_le in Hparts|].
  exists (ki_id ak), fa, w3, w5. split; [done|]. intros k Hk2 Hlt. by eapply SplitFacts.split_targeted_pow2.
Qed.

(** ** Melting *)

Lemma from_proofs_Ok st pre a ps ch m : from_proofs st pre a ps ch = Ok m ->
  md_state m = st /\ md_change m = ch /\ md_amount m = a /\
  a + md_fee_paid m + sumN (Nut00.amount <$> default [] ch) = sumN (Nut00.amount <$> ps).
Proof.
  unfold from_proofs, total_amount. destruct (Amount.try_sum (map Nut00.amount ps)) as [t| |] eqn:Ht; [|done..].
  apply Amount.try_sum_Ok in Ht as [-> _].
  assert (Hc : forall c, match ch with Some l => Amount.try_sum (map Nut00.amount l) | None => Ok 0 end = Ok c ->
    c = sumN (Nut00.amount <$> default [] ch)).
  { intros c. destruct ch as [cl|]; [by intros [-> _]%Amount.try_sum_Ok|by intros [= <-]]. }
  destruct (match ch with Some l => Amount.try_sum (map Nut00.amount l) | None => Ok 0 end) as [c| |]; [|done..].
  specialize (Hc c eq_refl). unfold Amount.add, Amount.checked_add, Amount.checked_sub.
  destruct (u64_checked_add a c) as [sp|] eqn:Hs; [|done]. cbn [expect]. destruct (u64_checked_sub _ sp) as [f|] eqn:Hf; [|done].
  cbn [expect]. intros [= <-]. cbn [md_state md_change md_amount md_fee_paid].
  apply u64_checked_add_Some in Hs as [-> _]. apply u64_checked_sub_Some in Hf as [-> Hle]. split_and!; [done..|].
  change (map Nut00.amount ps) with (Nut00.amount <$> ps) in *. lia.
Qed.

(** An answer of the mint: the store is as it was. *)
Lemma send_melt_Ok now rnd method ps r (w w' : Client) resp : (send_melt fuel self now rnd method ps r : WM _) w = (Ok resp, w') ->
  stored w' = stored w /\ (cl_post_melt r (cl_mint w) = (Ok resp, cl_mint w') \/ cl_post_melt_bolt12 r (cl_mint w) = (Ok resp, cl_mint w')).
Proof.
  assert (Ho : forall c, (or_reclaim fuel self now rnd ps c : WM _) w = (Ok resp, w') -> stored w' = stored w /\ c (cl_mint w) = (Ok resp, cl_mint w')).
  { intros c. unfold or_reclaim. intros (r' & w1 & Ht & H)%mseq_Ok. destruct r' as [x|e].
    - injection H as <- <-. unfold mtry, net, mmap_err in Ht. destruct (c (cl_mint w)) as [[z| |] m]; cbn in Ht; [|done..].
      by injection Ht as <- <-.
    - by apply mseq_Ok in H as (? & ? & _ & [=]). }
  unfold send_melt. destruct method; [| |done]; intros [H1 H2]%Ho; auto.
Qed.

Lemma change_proofs_of_quiet pms keys ch : keeps quiet_c (change_proofs_of pms keys ch : WM _).
Proof. unfold change_proofs_of. keep. Qed.

Lemma settle_melt_Ok now md qid q ps pms id resp (w w' : Client) m :
  (settle_melt self now md qid q ps pms id resp : WM _) w = (Ok m, w') ->
  exists infos ks, ys ps = Ok ks /\ md_state m = er_state resp /\ md_amount m = wm_amount q /\
    kept_as (wm_unit q) (default [] (md_change m)) infos /\
    md_amount m + md_fee_paid m + sumN (amounts_of infos) = sumN (Nut00.amount <$> ps) /\
    (fresh infos ks (stored w) -> stored w' ≡ₚ without ks (stored w) ++ infos).
Proof.
  unfold settle_melt. intros (found & w1 & H1 & H)%mseq_Ok. apply (keeps_run quiet_c) in H1 as [Q1 _]; [|keep].
  apply mlift_seq in H as (keys & _ & H). apply mseq_Ok in H as (ch & w2 & H2 & H).
  apply (keeps_run quiet_c) in H2 as [Q2 _]; [|apply change_proofs_of_quiet].
  apply mseq_Ok in H as (m' & w3 & [Hm ->]%lifted_Ok & H). apply from_proofs_Ok in Hm as (Hst & Hch & Ham & Hsum).
  apply mseq_Ok in H as (infos & w4 & H4 & H).
  assert (Hk : kept_as (wm_unit q) (default [] ch) infos /\ w4 = w2).
  { destruct ch as [cl|]; [|by injection H4 as <- <-]. apply mseq_Ok in H4 as (n & w5 & [_ ->]%total_run & H4). by apply proof_infos_kept in H4. }
  destruct Hk as [Hk ->]. apply mseq_Ok in H as ([] & w5 & H5 & H). apply (keeps_run quiet_c) in H5 as [Q5 _]; [|keep].
  apply mseq_Ok in H as (ks & w6 & [Hys ->]%lifted_Ok & H). apply mseq_Ok in H as ([] & w7 & [Hu _]%store_Ok & H).
  apply mseq_Ok in H as ([] & w8 & H8 & [= <- <-]). apply (keeps_run quiet_c) in H8 as [Q8 _]; [|keep].
  exists infos, ks. rewrite Hch. split_and!; [done..| |].
  - destruct Hk as [Hk _]. rewrite Ham. rewrite <- Hk in Hsum. unfold amounts_of. by rewrite <- list_fmap_compose in Hsum.
  - intros Hf. rewrite Q8. rewrite Q2, Q1 in Q5. rewrite <- Q5 in Hf |- *. by apply update_proofs_Ok in Hu.
Qed.

(** C28. A melt that returns balances: its inputs, worth at least the amount and
    the reserve, have left the store, the change has joined it as unspent
    proofs, and amount, fee and change are together exactly the inputs.  The
    state that the mint reports does not matter to this. *)
Theorem melt_balances now rnd quote_id proofs metadata (w w' : Client) m
    (Hrun : (melt_proofs_with_metadata fuel self now rnd quote_id proofs metadata : WM _) w = (Ok m, w')) :
  exists q infos ks (w1 w2 : W), st_get_melt_quote quote_id w1 = (Ok (Some q), w2) /\ now < wm_expiry q /\
    wm_amount q + wm_fee_reserve q <= sumN (Nut00.amount <$> proofs) /\ ys proofs = Ok ks /\
    kept_as (wm_unit q) (default [] (md_change m)) infos /\ md_amount m = wm_amount q /\
    md_amount m + md_fee_paid m + sumN (amounts_of infos) = sumN (Nut00.amount <$> proofs) /\
    (exists r resp (m1 m2 : S), (cl_post_melt r m1 = (Ok resp, m2) \/ cl_post_melt_bolt12 r m1 = (Ok resp, m2)) /\
       melt_inputs r = without_dleqs proofs /\ md_state m = er_state resp) /\
    (fresh infos ks (stored w) -> stored w' ≡ₚ without ks (stored w) ++ infos).
Proof.
  unfold melt_proofs_with_metadata in Hrun. apply mseq_Ok in Hrun as (found & w1 & H1 & H).
  apply (keeps_run quiet_c) in H1 as Q1; [|keep]. destruct Q1 as [Q1 _]. apply store_Ok in H1 as [H1 _].
  apply mlift_seq in H as (q & Hq%ok_or_Ok & H). subst found. apply mlift_seq in H as ([] & He%ensure_Ok%N.ltb_lt & H).
  apply mseq_Ok in H as (tot & w2 & [-> ->]%total_run & H). apply mseq_Ok in H as (need & w3 & [Hn ->]%lifted_Ok & H).
  apply mlift_seq in H as ([] & Hge%ensure_Ok%negb_true_iff%N.ltb_ge & H).
  apply mseq_Ok in H as (ks & w4 & [Hys ->]%lifted_Ok & H). apply mseq_Ok in H as ([] & w5 & Hu%update_state_Ok & H).
  apply mseq_Ok in H as (ak & w6 & H6 & H). apply (keeps_run quiet_c) in H6 as [Q6 _]; [|keep]. cbn zeta in H.
  apply mseq_Ok in H as (kid & w7 & [_ ->]%mlift_Ok & H). apply mseq_Ok in H as (cha & w8 & [_ ->]%lifted_Ok & H).
  apply mseq_Ok in H as (pms & w9 & H9 & H). assert (Q9 : stored w9 = stored w6).
  { unfold blank_outputs_for in H9. destruct (cha =? 0); [by injection H9 as _ <-|].
    apply mseq_Ok in H9 as (nc & w10 & [Hi _]%store_Ok & [_ ->]%lifted_Ok). by apply increment_proofs in Hi as [? _]. }
  apply mseq_Ok in H as (resp & w11 & [Q11 Hpost]%send_melt_Ok & H).
  apply settle_melt_Ok in H as (infos & ks' & Hys' & Hst & Ham & Hk & Hsum & Hstored).
  rewrite Hys in Hys'. injection Hys' as <-. unfold Amount.add, Amount.checked_add in Hn.
  destruct (u64_checked_add _ _) as [x|] eqn:Hx; [|done]. injection Hn as <-. apply u64_checked_add_Some in Hx as [-> _].
  exists q, infos, ks, (cl_store w), (cl_store w1). split_and!; try done.
  - eexists _, resp, (cl_mint w9), (cl_mint w11). split_and!; [exact Hpost|done|done].
  - intros Hf. apply (without_swapped (stored w11) _ _ _ Nut07.Pending); [by rewrite Q11, Q9, Q6, Hu, Q1|done..].
Qed.

(** ** The check of a token *)

Abbreviation PayError := (PayError (StoreErr:=StoreErr) (NetErr:=NetErr)).
Abbreviation PM := (Pm (W:=W) (StoreErr:=StoreErr) (S:=S) (NetErr:=NetErr)).

Lemma subset_of_spec l l' : subset_of l l' = true <-> l ⊆ l'.
Proof.
  unfold subset_of. rewrite forallb_forall. split; intros H k Hk.
  - by apply list_elem_of_In, H, bool_decide_eq_true in Hk.
  - by apply bool_decide_eq_true, H, list_elem_of_In.
Qed.

Lemma p2pk_pubkeys_NoDup pc : sc_kind pc = Nut10.P2PK -> NoDup (default [] (sc_pubkeys pc)).
Proof. destruct pc as [d o|]; [intros _; apply NoDup_elements|done]. Qed.

(** What a proof must grant, for the terms of a payee. *)
Definition grants (terms : Terms) (p : Proof) : Prop :=
  exists pc, sc_try_from_secret (secret p) = Ok pc /\ sc_num_sigs pc = tm_num_sigs terms /\
    default [] (sc_pubkeys pc) ⊆ default [] (tm_pubkeys terms) /\
    (sc_kind pc = Nut10.P2PK -> default [] (sc_pubkeys pc) ≡ₚ default [] (tm_pubkeys terms)) /\
    forall rk, sc_refund_keys pc = Some rk -> exists lt tlt trk, sc_locktime pc = Some lt /\ tm_locktime terms = Some tlt /\ tlt <= lt /\
      tm_refund_keys terms = Some trk /\ (trk = [] \/ rk ⊆ trk).

Lemma check_refund_Ok terms pc rk : (check_refund terms pc : res PayError _) = Ok tt -> sc_refund_keys pc = Some rk ->
  exists lt tlt trk, sc_locktime pc = Some lt /\ tm_locktime terms = Some tlt /\ tlt <= lt /\
    tm_refund_keys terms = Some trk /\ (trk = [] \/ rk ⊆ trk).
Proof.
  unfold check_refund. intros H Hrk. rewrite Hrk in H. destruct (sc_locktime pc) as [lt|]; [|done]. cbn [ok_or] in H.
  destruct (tm_refund_keys terms) as [trk|]; [|done]. destruct (tm_locktime terms) as [tlt|]; [|done].
  destruct (ensure (negb (lt <? tlt)) P2PKConditionsNotMet) as [[]| |] eqn:He; [|done..]. apply ensure_Ok, negb_true_iff, N.ltb_ge in He.
  apply ensure_Ok, negb_true_iff, andb_false_iff in H. exists lt, tlt, trk. split_and!; [done..|].
  destruct H as [H|H]; apply negb_false_iff in H; [left; by destruct trk|right; by apply subset_of_spec].
Qed.

Lemma check_terms_Ok terms p : NoDup (default [] (tm_pubkeys terms)) -> (check_terms terms p : res PayError _) = Ok tt -> grants terms p.
Proof.
  unfold check_terms, grants, sc_try_from_secret. intros Hnd H. destruct (nut10_from_json (secret p)) as [s10|]; [|done].
  cbn [ok_or] in *. destruct (sc_try_from_nut10 s10) as [pc| |]; [|done..]. cbn [map_err] in H. exists pc. split; [done|].
  destruct (ensure (bool_decide _) _) as [[]| |] eqn:He; [|done..]. apply ensure_Ok, bool_decide_eq_true in He.
  destruct (ensure (Nat.eqb _ _ && _) _) as [[]| |] eqn:Hk; [|done..]. apply ensure_Ok, andb_true_iff in Hk as [Hl%Nat.eqb_eq Hs%subset_of_spec].
  split_and!; [done|done| |intros rk; by apply check_refund_Ok]. intros Hkind%p2pk_pubkeys_NoDup.
  apply submseteq_length_Permutation; [by apply NoDup_submseteq|lia].
Qed.

Lemma check_all_terms_Ok terms l : NoDup (default [] (tm_pubkeys terms)) -> (check_all_terms terms l : res PayError _) = Ok tt -> Forall (grants terms) l.
Proof.
  intros Hnd. induction l as [|p l IH]; cbn [check_all_terms]; [constructor|].
  destruct (check_terms terms p) as [[]| |] eqn:Hp; [|done..]. intros H. constructor; [by apply check_terms_Ok|by apply IH].
Qed.

(** A token that passes the check against a payee's conditions is of the
    wallet's mint, and every proof in it is locked with exactly the signature
    threshold asked for and to no other keys than those asked for (to exactly
    them, when it is a P2PK proof); its refund keys, if it has any, are allowed
    and cannot be used before the locktime asked for. *)
Theorem verified_token_grants now tok sc (w w' : Client)
    (Hrun : (verify_token_p2pk self now tok sc : PM _) w = (Ok tt, w')) (Hnd : NoDup (default [] (tm_pubkeys (terms_of sc)))) :
  TokenOps.mint_url tok = Ok (wl_mint_url self) /\
  exists keysets proofs, TokenOps.proofs tok keysets = Ok proofs /\ Forall (grants (terms_of sc)) proofs.
Proof.
  unfold verify_token_p2pk in Hrun. cbn zeta in Hrun. apply mlift_seq in Hrun as ([] & _ & H).
  apply mseq_Ok in H as (url & w1 & [Hurl ->]%lifted_Ok & H). apply mlift_seq in H as ([] & ->%ensure_Ok%bool_decide_eq_true & H).
  apply mseq_Ok in H as (ks & w2 & _ & H). apply mseq_Ok in H as (l & w3 & [Hl ->]%lifted_Ok & [H _]%mlift_Ok).
  split; [done|]. exists ks, l. split; [done|]. by apply check_all_terms_Ok.
Qed.

End sends.

(** ** Blank outputs *)
Section blanks.
Import Amount.

Lemma greedy_length k : forall j x, x < 2 ^ N.of_nat j -> (length (greedy (rev (pow2_amounts k)) x) <= j)%nat.
Proof.
  induction k as [|k IH]; intros j x Hx; [cbn; lia|]. rewrite rev_pow2_amounts_S. cbn [greedy]. rewrite length_app.
  assert (0 < 2 ^ N.of_nat k) by (apply N.neq_0_lt_0, N.pow_nonzero; lia).
  destruct (N.leb_spec (2 ^ N.of_nat k) x) as [Hle|Hlt].
  - assert (2 ^ N.of_nat k < 2 ^ N.of_nat j) as Hkj%N.pow_lt_mono_r_iff by lia; [|lia].
    specialize (IH k (x mod 2 ^ N.of_nat k) ltac:(apply N.mod_lt; lia)). cbn [length]. lia.
  - rewrite N.mod_small by done. cbn [length]. by apply IH.
Qed.

Lemma greedy_power k : forall j, (length (greedy (rev (pow2_amounts k)) (2 ^ j)) <= 1)%nat.
Proof.
  induction k as [|k IH]; intros j; [cbn; lia|]. rewrite rev_pow2_amounts_S. cbn [greedy]. rewrite length_app.
  destruct (N.leb_spec (2 ^ N.of_nat k) (2 ^ j)) as [Hle|Hlt].
  - apply N.pow_le_mono_r_iff in Hle; [|lia]. replace j with (j - N.of_nat k + N.of_nat k) by lia.
    rewrite N.pow_add_r, N.Div0.mod_mul, greedy_zero by (apply Forall_rev, pow2_amounts_pos). cbn. lia.
  - rewrite N.mod_small by done. cbn [length]. apply IH.
Qed.

Lemma blank_count_bound k r x : x <= r -> (length (greedy (rev (pow2_amounts k)) x) <= N.to_nat (blank_count r))%nat.
Proof.
  intros Hx. unfold blank_count. destruct (N.le_gt_cases r 1) as [Hr|Hr].
  - transitivity 1%nat; [|lia]. apply greedy_length. cbn. lia.
  - apply N.log2_up_spec in Hr. destruct (decide (x = 2 ^ N.log2_up r)) as [->|Hne]; [pose proof (greedy_power k (N.log2_up r)); lia|].
    transitivity (N.to_nat (N.log2_up r)); [|lia]. apply greedy_length. rewrite N2Nat.id. lia.
Qed.

Context {CR : Crypto} {CV : Curve CR} {BP : Bip32 CR} {KDF : SeedKdf CR BP}.

Lemma from_seed_blank_length kid c seed r pms : from_seed_blank kid c seed r = Ok pms ->
  length (blinded_messages pms) = if r =? 0 then 0%nat else N.to_nat (blank_count r).
Proof.
  unfold from_seed_blank, blinded_messages. destruct (r =? 0); [by intros [= <-]|].
  destruct (from_seed_loop _ _ _ _) as [l| |] eqn:Hl; [|done..]. intros [= <-]. cbn [pms_secrets].
  apply from_seed_loop_amounts, amounts_are_length in Hl. by rewrite length_fmap, Hl, length_replicate.
Qed.

(** C37. No change is lost: over the denominations of powers of two, the blank
    outputs that the wallet makes for the most that can come back are enough
    for the mint to give back any lower amount in full, whatever their number,
    and without a reordering of the amounts. *)
Theorem blank_outputs_suffice kid counter seed reserve pms k fee change
    (Hblank : from_seed_blank kid counter seed reserve = Ok pms) (Hle : change <= reserve) (Hk : reserve < 2 ^ N.of_nat k) :
  exists amounts, Melt.change_amounts (mkFeeAndAmounts fee (pow2_amounts k)) change (blinded_messages pms) = Ok amounts /\
    split change (mkFeeAndAmounts fee (pow2_amounts k)) = Ok amounts /\
    sumN (bm_amount <$> Melt.change_messages amounts (blinded_messages pms)) = change.
Proof.
  apply from_seed_blank_length in Hblank. unfold Melt.change_amounts. rewrite split_greedy by apply pow2_amounts_pos.
  set (parts := greedy _ change). cbn [map_err]. assert (Hlen : (length parts <= length (blinded_messages pms))%nat).
  { rewrite Hblank. destruct (N.eqb_spec reserve 0) as [->|]; [|by apply blank_count_bound].
    assert (change = 0) as -> by lia. unfold parts. rewrite greedy_zero by (apply Forall_rev, pow2_amounts_pos). done. }
  rewrite (proj2 (Nat.ltb_ge _ _) Hlen). exists parts. do 2 (split; [done|]). unfold Melt.change_messages.
  transitivity (sumN parts); [|unfold parts; apply greedy_pow2_sum; lia]. f_equal.
  rewrite <- (fst_zip parts (blinded_messages pms)) at 2 by done. rewrite <- list_fmap_compose.
  apply list_fmap_ext. by intros _ [a m] _.
Qed.

End blanks.
End WalletPayFacts.
