(* ===== verification/AuthWallet.v ===== *)
(** * Authentication of the wallet (crates/cdk/src/wallet/auth)

    A wallet at a mint with protected endpoints holds a clear token of an
    identity provider, a refresh token for it, and blind tokens: proofs of the
    unit auth that it mints with the clear token and gives away one per request.

    The state is that of the wallet with the refresh token, the client of the
    provider (that of [Auth.v]) and the protected endpoints.  The provider, the
    clock and the HTTP transport are parameters, random secrets are arguments. *)
From stdpp Require Import base numbers list sorting strings gmap.
From S2P Require Import Prelude Amount Hex Nuts KeysetId Bdhke Conditions Spending States MintDb Mint Keysets Auth Melt Secrets Selection MintUrl WalletDb Token Posts WalletStore Wallet.
Import Oidc Nut00 Requests KeysetId Bdhke Nut11 Nut21 Nut22 Keysets Secrets WalletDb Wallet.

Local Open Scope N_scope.
Local Open Scope res_scope.
Local Open Scope mint_scope.

(** [AuthMintConnector] (auth_connector.rs). *)
Class AuthConnector (CR : Crypto) (MintInfo S NetErr : Type) := {
  ac_get_auth_token : M S NetErr AuthToken;
  ac_set_auth_token : AuthToken -> M S NetErr unit;
  ac_get_mint_info : M S NetErr MintInfo;
  ac_get_mint_blind_auth_keyset : Id -> M S NetErr KeySet;
  ac_get_mint_blind_auth_keysets : M S NetErr (list KeySetInfo);
  ac_post_mint_blind_auth : list BlindedMessage -> M S NetErr (list BlindSignature);
}.

(** The answer at the URL of a token endpoint to a refresh token of a client: the
    new clear token, and a new refresh token if there is one. *)
Class TokenEndpoint := token_response : string -> string -> string -> option (string * option string).

(** The id of the clients in the information of a mint. *)
Class MintAuthView (MintInfo : Type) := mi_client_id : MintInfo -> option string.

Module AuthWallet.
Section defs.
Context {CR : Crypto} {CV : Curve CR} {SD : Serde}.
Context {OL : OidcLib} {TE : TokenEndpoint}.
Context {MintInfo W StoreErr S NetErr : Type} {ST : WalletStore CR MintInfo W StoreErr}.
Context {AC : AuthConnector CR MintInfo S NetErr} {AV : MintAuthView MintInfo}.
Context (fuel : nat) (mint_url : MintUrl) (provider : nat -> Provider) (now : N).

Record AuthState := mkAuthState {
  aw_client : Client W S;
  aw_refresh_token : option string;
  aw_oidc : option OidcClient;
  aw_protected_endpoints : gmap ProtectedEndpoint AuthRequired;
}.

Inductive AwError :=
| WalletErr (e : Wallet.Error (StoreErr:=StoreErr) (NetErr:=NetErr))
| OidcFailed (e : Oidc.Error)
| BlindTokenSet                     (* Cannot set blind auth token directly *)
| CouldNotGetMintInfo
| NothingToRefresh                  (* No refresh token or OIDC client available *)
| InsufficientBlindAuthTokens
| ClearAuthRequired
| ClearAuthFailed
| DleqProofNotProvided
| AuthSettingsUndefined.

Definition Am (A : Type) : Type := M AuthState AwError A.
Abbreviation WM := (Wm (W:=W) (StoreErr:=StoreErr) (S:=S) (NetErr:=NetErr)).
Definition set_client (s : AuthState) (c : Client W S) : AuthState := mkAuthState c (aw_refresh_token s) (aw_oidc s) (aw_protected_endpoints s).
Definition wal {A} (c : WM A) : Am A :=
  mmap_err WalletErr (fun s => match c (aw_client s) with (r, cl) => (r, set_client s cl) end).
Definition set_oidc (s : AuthState) (o : option OidcClient) : AuthState := mkAuthState (aw_client s) (aw_refresh_token s) o (aw_protected_endpoints s).
(** A call of the client of the provider, if there is one. *)
Definition oidc {A} (absent : Am A) (c : Ot A) : Am A := fun s =>
  match aw_oidc s with
  | Some o => match c o with (r, o') => (map_err OidcFailed r, set_oidc s (Some o')) end
  | None => absent s
  end.
(** [OidcClient::refresh_access_token] (oidc_client.rs). *)
Definition oidc_refresh_access_token (client_id refresh_token : string) : Ot (string * option string) :=
  do config <- get_oidc_config (provider 1) ;
  mlift (ok_or Oidc.Reqwest (token_response (token_endpoint config) client_id refresh_token)).

(** ** Tokens of the provider *)

Definition get_auth_token : Am AuthToken := wal (net ac_get_auth_token).
(** The provider answers differently each time: 0 is the check of the token the
    wallet has, 1 the refresh, 2 the check of a new token. *)
Definition check_cat (call : nat) (token : string) : Am unit :=
  oidc (mret tt) (Oidc.verify_cat (provider call) now token).
Definition verify_cat (token : AuthToken) : Am unit :=
  match token with
  | ClearAuth clear_token => check_cat 0 clear_token
  | BlindAuth _ => mfail BlindTokenSet
  end.
Definition set_auth_token (token : AuthToken) : Am unit :=
  match token with
  | ClearAuth clear_token => do_ check_cat 2 clear_token ; wal (net (ac_set_auth_token token))
  | BlindAuth _ => mfail BlindTokenSet
  end.
Definition get_refresh_token : Am (option string) := mgets aw_refresh_token.
Definition set_refresh_token (token : option string) : Am unit :=
  mmodify (fun s => mkAuthState (aw_client s) token (aw_oidc s) (aw_protected_endpoints s)).
Definition get_oidc_client : Am (option OidcClient) := mgets aw_oidc.
Definition set_oidc_client (client : option OidcClient) : Am unit :=
  mmodify (fun s => set_oidc s client).
(** [get_mint_info]: a failure is not an error. *)
Definition get_mint_info : Am (option MintInfo) :=
  do r <- mtry (F:=AwError) (wal (net ac_get_mint_info)) ;
  mret (match r with inl i => Some i | inr _ => None end).
Definition refresh_access_token : Am unit :=
  do o <- mgets aw_oidc ;
  do t <- get_refresh_token ;
  match o, t with
  | Some _, Some refresh_token =>
      do info <- get_mint_info ;
      do mint_info <- mlift (ok_or CouldNotGetMintInfo info) ;
      do client_id <- mlift (ok_or CouldNotGetMintInfo (mi_client_id mint_info)) ;
      do token_response <- oidc (mfail NothingToRefresh) (oidc_refresh_access_token client_id refresh_token) ;
      do_ set_refresh_token token_response.2 ;
      set_auth_token (ClearAuth token_response.1)
  | _, _ => mfail NothingToRefresh
  end.

(** ** Keysets of blind tokens *)

Definition load_keyset_keys (keyset_id : Id) : WM Keys :=
  do found <- store (st_get_keys keyset_id) ;
  match found with
  | Some keys => mret keys
  | None =>
      do keyset <- net (ac_get_mint_blind_auth_keyset keyset_id) ;
      do_ mlift (map_err BadKeysetId (verify_id keyset)) ;
      do_ store (st_add_keys keyset) ;
      mret (kset_keys keyset)
  end.
Definition ensure_keys (k : KeySetInfo) : WM unit :=
  do found <- store (st_get_keys (ki_id k)) ;
  match found with
  | Some _ => mret tt
  | None => do_ load_keyset_keys (ki_id k) ; mret tt
  end.
Definition refresh_keysets : WM (list KeySetInfo) :=
  do keysets <- net ac_get_mint_blind_auth_keysets ;
  do_ store (st_add_mint_keysets mint_url keysets) ;
  let auth_keysets := of_unit Amount.Auth keysets in
  do_ mfor ensure_keys auth_keysets ;
  mret auth_keysets.
(** The stored keysets of the unit sat. *)
Definition load_mint_keysets : WM (list KeySetInfo) :=
  do found <- store (st_get_mint_keysets mint_url) ;
  match found with
  | Some keysets_info =>
      match of_unit Amount.Sat keysets_info with
      | [] => refresh_keysets
      | auth_keysets => mret auth_keysets
      end
  | None => refresh_keysets
  end.
Definition fetch_active_keyset : WM KeySetInfo :=
  do auth_keysets <- refresh_keysets ;
  mlift (ok_or NoActiveKeyset (head auth_keysets)).

(** ** Blind tokens *)

Definition get_unspent_auth_proofs : WM (list AuthProof) :=
  do l <- store (st_get_proofs (Some mint_url) (Some Amount.Auth) (Some [Nut07.Unspent]) None) ;
  mret (auth_of_proof <$> (pi_proof <$> l)).
Definition total_blind_auth_balance : WM N := do l <- get_unspent_auth_proofs ; mret (N.of_nat (length l)).

(** The first unspent token leaves the store. *)
Definition get_blind_auth_token : WM (option BlindAuthToken) :=
  do unspent <- get_unspent_auth_proofs ;
  match unspent with
  | proof :: _ =>
      do key <- dhke (auth_y proof) ;
      do_ store (st_update_proofs [] [key]) ;
      mret (Some (mkBlindAuthToken proof))
  | [] => mret None
  end.

Definition is_protected (method : ProtectedEndpoint) : Am (option AuthRequired) :=
  mgets (fun s => aw_protected_endpoints s !! method).
Definition get_auth_for_request (method : ProtectedEndpoint) : Am (option AuthToken) :=
  do required <- is_protected method ;
  match required with
  | Some Clear => do t <- get_auth_token ; mret (Some t)
  | Some Blind =>
      do t <- wal get_blind_auth_token ;
      do proof <- mlift (ok_or InsufficientBlindAuthTokens t) ;
      mret (Some (BlindAuth (without_dleq proof)))
  | None => mret None
  end.

(** ** Minting blind tokens *)

(** The clear token is checked, and refreshed when there is a refresh token. *)
Definition prepare_cat : Am unit :=
  do auth_token <- get_auth_token ;
  match auth_token with
  | ClearAuth cat =>
      if String.eqb cat "" then mfail ClearAuthRequired
      else
        do_ mtry (F:=AwError) (verify_cat auth_token) ;
        do has_refresh <- mgets (fun s => bool_decide (is_Some (aw_refresh_token s))) ;
        if has_refresh : bool then refresh_access_token else mret tt
  | BlindAuth _ => mfail ClearAuthFailed
  end.

(** Every signature needs a DLEQ proof, under the key of its keyset and amount. *)
Fixpoint check_auth_signatures (l : list (BlindSignature * PreMint)) : Am unit :=
  match l with
  | [] => mret tt
  | (sig, premint) :: l' =>
      do keys <- wal (load_keyset_keys (bs_keyset_id sig)) ;
      do key <- mlift (ok_or (WalletErr AmountKey) (keys !! bs_amount sig)) ;
      do_ (match bs_verify_dleq sig key (blinded_secret (pm_blinded_message premint)) with
           | Ok _ => mret tt
           | Err MissingDleqProof => mfail DleqProofNotProvided
           | Err _ => mfail (WalletErr CouldNotVerifyDleq)
           | Panic => mpanic
           end) ;
      check_auth_signatures l'
  end.

Definition mint_blind_auth (rnd : Random) (amount : N) : Am (list Proof) :=
  do known <- wal (store (st_get_mint mint_url)) ;
  do_ (match known with None => do_ get_mint_info ; mret tt | Some _ => mret tt end) ;
  do_ prepare_cat ;
  do keysets <- wal load_mint_keysets ;
  do active_keyset <- wal fetch_active_keyset ;
  let active_keyset_id := ki_id active_keyset in
  let fee := match (list_to_map (rev ((fun k => (ki_id k, k)) <$> keysets)) : gmap Id KeySetInfo) !! active_keyset_id with
             | Some k => ki_input_fee_ppk k | None => 0 end in
  do active_keys <- wal (load_keyset_keys active_keyset_id) ;
  do kid <- wal (key_id active_keyset_id) ;
  do pms <- wal (fueled SecretsFailed (random fuel kid (rnd_secret rnd) (rnd_factor rnd) amount (Amount.STValue 1)
                   (Amount.mkFeeAndAmounts fee (key_amounts active_keys)))) ;
  do signatures <- wal (net (ac_post_mint_blind_auth (blinded_messages pms))) ;
  do keys <- wal (load_keyset_keys active_keyset_id) ;
  if negb (Nat.eqb (length signatures) (length (pms_secrets pms))) then mpanic
  else
    do_ check_auth_signatures (zip signatures (pms_secrets pms)) ;
    do proofs <- wal (dhke (construct_proofs signatures (rs pms) (pms_secret_list pms) keys)) ;
    do infos <- wal (dhke (collect (fun p => ProofInfo_new p mint_url Nut07.Unspent Amount.Auth) proofs)) ;
    do_ wal (store (st_update_proofs infos [])) ;
    mret proofs.

(** ** The methods of the wallet (mod.rs)

    A wallet without settings for authentication has no such part: minting
    fails, setting a token does nothing. *)

Definition Ow (A : Type) : Type := M (option AuthState) AwError A.
Definition on_auth {A} (absent : res AwError A) (c : Am A) : Ow A := fun o =>
  match o with
  | Some s => match c s with (r, s') => (r, Some s') end
  | None => (absent, None)
  end.
Definition wallet_mint_blind_auth (rnd : Random) (amount : N) : Ow (list Proof) :=
  on_auth (Err AuthSettingsUndefined) (mint_blind_auth rnd amount).
Definition wallet_get_unspent_auth_proofs : Ow (list AuthProof) :=
  on_auth (Err AuthSettingsUndefined) (wal get_unspent_auth_proofs).
Definition set_cat (cat : string) : Ow unit := on_auth (Ok tt) (set_auth_token (ClearAuth cat)).
Definition wallet_set_refresh_token (refresh_token : string) : Ow unit := on_auth (Ok tt) (set_refresh_token (Some refresh_token)).
Definition wallet_refresh_access_token : Ow unit := on_auth (Ok tt) refresh_access_token.
End defs.

(** ** The HTTP client (mint_connector/http_client.rs)

    The transport is a parameter; its errors include those of joining the paths
    of a URL. *)

Record AuthHttpClient (CR : Crypto) (T : Type) := mkAuthHttpClient { cat : AuthToken; transport : T }.
Arguments mkAuthHttpClient {CR T} _ _.
Arguments cat {CR T} _.
Arguments transport {CR T} _.

Class AuthTransport (CR : Crypto) (MintInfo T NetErr : Type) := {
  tr_info : M T NetErr MintInfo;
  tr_blind_keys : Id -> M T NetErr (list KeySet);
  tr_blind_keysets : M T NetErr (list KeySetInfo);
  tr_blind_mint : option AuthToken -> list BlindedMessage -> M T NetErr (list BlindSignature);
}.

Section http.
Context {CR : Crypto} {MintInfo T NetErr : Type} {TR : AuthTransport CR MintInfo T NetErr}.

Definition new_http_client (given : option AuthToken) (t : T) : AuthHttpClient CR T :=
  mkAuthHttpClient (default (ClearAuth "") given) t.
Definition http {A} (c : M T NetErr A) : M (AuthHttpClient CR T) NetErr A := fun s =>
  match c (transport s) with (r, t) => (r, mkAuthHttpClient (cat s) t) end.
Definition http_get_auth_token : M (AuthHttpClient CR T) NetErr AuthToken := mgets cat.
Definition http_set_auth_token (token : AuthToken) : M (AuthHttpClient CR T) NetErr unit :=
  mmodify (fun s => mkAuthHttpClient token (transport s)).
Definition http_get_mint_info : M (AuthHttpClient CR T) NetErr MintInfo := http tr_info.
(** [drain(0..1)] of an empty vector panics. *)
Definition http_get_mint_blind_auth_keyset (keyset_id : Id) : M (AuthHttpClient CR T) NetErr KeySet :=
  do keysets <- http (tr_blind_keys keyset_id) ;
  match keysets with
  | keyset :: _ => mret keyset
  | [] => mpanic
  end.
Definition http_get_mint_blind_auth_keysets : M (AuthHttpClient CR T) NetErr (list KeySetInfo) := http tr_blind_keysets.
Definition http_post_mint_blind_auth (outputs : list BlindedMessage) : M (AuthHttpClient CR T) NetErr (list BlindSignature) :=
  do token <- mgets cat ;
  http (tr_blind_mint (Some token) outputs).

#[export] Instance http_connector : AuthConnector CR MintInfo (AuthHttpClient CR T) NetErr := {
  ac_get_auth_token := http_get_auth_token;
  ac_set_auth_token := http_set_auth_token;
  ac_get_mint_info := http_get_mint_info;
  ac_get_mint_blind_auth_keyset := http_get_mint_blind_auth_keyset;
  ac_get_mint_blind_auth_keysets := http_get_mint_blind_auth_keysets;
  ac_post_mint_blind_auth := http_post_mint_blind_auth;
}.
End http.
End AuthWallet.
