(* ===== verification/AuthWalletFacts.v ===== *)
(** * Properties of the wallet's authentication

    Proved against the interface of the store, for every provider and every mint:
    a blind token is given away at most once and comes from the store, what
    minting blind tokens adds to the store and which signatures it accepts, and
    what becomes of the tokens of the provider. *)
From stdpp Require Import base numbers list sorting strings gmap.
From S2P Require Import Prelude Amount Hex Nuts KeysetId Bdhke Conditions Spending States MintDb Mint MintFacts Keysets Auth Melt Secrets Selection MintUrl WalletDb CheckerFacts Token Posts WalletStore Wallet WalletFacts WalletPay WalletPayFacts AuthWallet.
Import Oidc Nut00 Requests KeysetId Bdhke Nut11 Nut21 Nut22 Keysets Secrets WalletDb WalletStore MintFacts Wallet WalletFacts AuthWallet.

Local Open Scope N_scope.
Local Open Scope res_scope.
Local Open Scope mint_scope.

Module AuthWalletFacts.
Section facts.
Context {CR : Crypto} {CV : Curve CR} {SD : Serde}.
Context {OL : OidcLib} {TE : TokenEndpoint}.
Context {MintInfo W StoreErr S NetErr : Type} {ST : WalletStore CR MintInfo W StoreErr}.
Context {AC : AuthConnector CR MintInfo S NetErr} {AV : MintAuthView MintInfo}.
Context {WV : WalletView CR W} {SL : WalletStoreLaws CR MintInfo W StoreErr ST WV}.
Context (fuel : nat) (mint_url : MintUrl) (provider : nat -> Provider) (now : N).

Abbreviation Client := (Client W S).
Abbreviation WM := (Wm (W:=W) (StoreErr:=StoreErr) (S:=S) (NetErr:=NetErr)).
Abbreviation AuthState := (AuthState (W:=W) (S:=S)).
Abbreviation Am := (Am (W:=W) (StoreErr:=StoreErr) (S:=S) (NetErr:=NetErr)).

#[local] Hint Resolve store_quiet net_quiet dhke_quiet fueled_quiet key_id_quiet : keeps.

(** ** Blind tokens that are given away *)

(** The tokens the wallet can give, and those it has once some keys are gone. *)
Definition spendable (p : ProofInfo) : Prop := wanted mint_url Amount.Auth [Nut07.Unspent] p.
Definition keyed (l : list ProofInfo) : Prop := Forall (fun i => y (pi_proof i) = Ok (pi_y i)) l.

Lemma token_given (w w' : Client) t : (get_blind_auth_token mint_url : WM _) w = (Ok (Some t), w') ->
  exists i k, i ∈ proofs_of (cl_store w) /\ spendable i /\ auth_proof t = auth_of_proof (pi_proof i) /\
    auth_y (auth_proof t) = Ok k /\ proofs_of (cl_store w') ≡ₚ without [k] (proofs_of (cl_store w)) /\ cl_mint w' = cl_mint w.
Proof.
  unfold get_blind_auth_token, get_unspent_auth_proofs. intros (l & w1 & H1 & H)%mseq_Ok.
  apply mseq_Ok in H1 as (infos & w2 & Hg & [= <- <-]).
  apply (keeps_run quiet_c) in Hg as Q; [|keep]. apply store_Ok in Hg as [Hg Hm]. apply get_proofs_wanted in Hg.
  destruct infos as [|i infos]; [done|]. cbn [fmap list_fmap] in H.
  apply mseq_Ok in H as (k & w3 & [Hk ->]%lifted_Ok & H). apply mseq_Ok in H as ([] & w4 & Hu & [= <- <-]).
  pose proof Hu as [_ Hm']%store_Ok. apply update_removed in Hu.
  assert (Hi : i ∈ filter (wanted mint_url Amount.Auth [Nut07.Unspent]) (proofs_of (cl_store w))) by (rewrite <- Hg; set_solver).
  apply list_elem_of_filter in Hi as [Hw Hi]. destruct Q as [Q _]. rewrite Q in Hu. exists i, k. split_and!; auto. congruence.
Qed.

Lemma no_token_given (w w' : Client) : (get_blind_auth_token mint_url : WM _) w = (Ok None, w') ->
  proofs_of (cl_store w') = proofs_of (cl_store w).
Proof.
  unfold get_blind_auth_token, get_unspent_auth_proofs. intros (l & w1 & H1 & H)%mseq_Ok.
  apply (keeps_run quiet_c) in H1 as [Q _]; [|keep]. destruct l; [by injection H as <-|].
  apply mseq_Ok in H as (k & w3 & _ & H). by apply mseq_Ok in H as ([] & w4 & _ & ?).
Qed.

#[local] Instance without_proper ks : Proper (Permutation ==> Permutation) (without ks).
Proof. intros l l' H. unfold without. by rewrite H. Qed.
Lemma elem_of_without ks (l : list ProofInfo) i : i ∈ without ks l <-> i ∈ l /\ (pi_y i ∉ ks).
Proof. unfold without. rewrite list_elem_of_filter. tauto. Qed.
Lemma keyed_without ks l l' : l' ≡ₚ without ks l -> keyed l -> keyed l'.
Proof.
  unfold keyed. rewrite !Forall_forall. intros Hp Hl i Hi. apply Hl. rewrite Hp in Hi. by apply elem_of_without in Hi as [? _].
Qed.

(** ** Any number of requests, one after the other *)

Fixpoint draw (n : nat) : WM (list BlindAuthToken) :=
  match n with
  | 0%nat => mret []
  | Datatypes.S n =>
      do t <- get_blind_auth_token mint_url ;
      match t with
      | Some t => do l <- draw n ; mret (t :: l)
      | None => mret []
      end
  end.

(** Blind tokens that are given away come from the store, are unspent there, have
    different secrets however many are asked for, and are gone from the store. *)
Theorem tokens_given_once n : forall (w w' : Client) l, keyed (proofs_of (cl_store w)) -> draw n w = (Ok l, w') ->
  Forall (fun t => exists i, i ∈ proofs_of (cl_store w) /\ spendable i /\ auth_proof t = auth_of_proof (pi_proof i)) l /\
  NoDup ((fun t => ap_secret (auth_proof t)) <$> l) /\
  (exists ks, proofs_of (cl_store w') ≡ₚ without ks (proofs_of (cl_store w)) /\
     Forall2 (fun t k => auth_y (auth_proof t) = Ok k) l ks).
Proof.
  induction n as [|n IH]; cbn [draw]; intros w w' l Hk H.
  { injection H as <- <-. split_and!; [constructor..|]. exists []. split; [|constructor]. by rewrite WalletPayFacts.without_none. }
  apply mseq_Ok in H as ([t|] & w1 & Ht & H).
  2: { injection H as <- <-. apply no_token_given in Ht. split_and!; [constructor..|]. exists []. split; [|constructor].
       by rewrite Ht, WalletPayFacts.without_none. }
  apply token_given in Ht as (i & k & Hi & Hw & Ha & Hy & Hp & _). apply mseq_Ok in H as (l' & w2 & Hd & [= <- <-]).
  destruct (IH w1 w2 l') as (H1 & H2 & ks & H3 & H4); [by eapply keyed_without|done|].
  split_and!.
  - constructor; [by eauto|]. eapply Forall_impl; [exact H1|]. intros t' (j & Hj & ? & ?). rewrite Hp in Hj.
    apply elem_of_without in Hj as [Hj _]. eauto.
  - rewrite fmap_cons. constructor; [|done]. intros (t' & Hs & Ht')%list_elem_of_fmap.
    rewrite Forall_forall in H1. destruct (H1 _ Ht') as (j & Hj & _ & Hja). rewrite Hp in Hj. apply elem_of_without in Hj as [Hj Hn].
    apply Hn. apply list_elem_of_singleton. unfold keyed in Hk. rewrite Forall_forall in Hk. specialize (Hk _ Hj).
    rewrite Hja in Hs. unfold auth_y in Hy. rewrite Hs in Hy. change (y (pi_proof j) = Ok k) in Hy.
    rewrite Hk in Hy. by injection Hy.
  - exists (k :: ks). split; [|by constructor]. rewrite H3, Hp, without_twice. done.
Qed.

(** ** Frames and runs of the computations of the store *)

Definition quiet_a : relation AuthState := along aw_client quiet_c.
#[local] Instance quiet_a_preorder : PreOrder quiet_a.
Proof. apply along_preorder, _. Qed.

Lemma auth_wal_quiet {A} (c : WM A) : keeps quiet_c c -> keeps quiet_a (wal c : Am A).
Proof. intros H s. specialize (H (aw_client s)). unfold wal, mmap_err, quiet_a, along. by destruct (c (aw_client s)). Qed.
Lemma auth_modify_quiet (f : AuthState -> AuthState) : (forall s, aw_client (f s) = aw_client s) -> keeps quiet_a (mmodify f : Am unit).
Proof. intros Hf s. unfold quiet_a, along. cbn. by rewrite Hf. Qed.
Lemma oidc_quiet {A} (absent : Am A) (c : Ot A) : keeps quiet_a absent -> keeps quiet_a (oidc absent c : Am A).
Proof. intros H s. specialize (H s). unfold oidc. destruct (aw_oidc s) as [o|]; [|done]. by destruct (c o). Qed.
#[local] Hint Resolve auth_wal_quiet auth_modify_quiet oidc_quiet keeps_ret keeps_fail : keeps.

Lemma load_auth_keys_quiet id : keeps quiet_c (load_keyset_keys id : WM Keys).
Proof. unfold load_keyset_keys. keep. Qed.
#[local] Hint Resolve load_auth_keys_quiet : keeps.
Lemma ensure_keys_quiet k : keeps quiet_c (ensure_keys k : WM unit).
Proof. unfold ensure_keys. keep. Qed.
#[local] Hint Resolve ensure_keys_quiet : keeps.
Lemma refresh_auth_keysets_quiet : keeps quiet_c (refresh_keysets mint_url : WM _).
Proof. unfold refresh_keysets. keep. Qed.
#[local] Hint Resolve refresh_auth_keysets_quiet : keeps.
Lemma load_auth_keysets_quiet : keeps quiet_c (load_mint_keysets mint_url : WM _).
Proof. unfold load_mint_keysets. keep. Qed.
Lemma fetch_auth_keyset_quiet : keeps quiet_c (fetch_active_keyset mint_url : WM _).
Proof. unfold fetch_active_keyset. keep. Qed.
Lemma refresh_access_token_quiet : keeps quiet_a (refresh_access_token provider now : Am unit).
Proof. unfold refresh_access_token, get_refresh_token, get_mint_info, set_refresh_token, set_auth_token, check_cat. keep. Qed.
#[local] Hint Resolve load_auth_keysets_quiet fetch_auth_keyset_quiet refresh_access_token_quiet : keeps.
Lemma prepare_cat_quiet : keeps quiet_a (prepare_cat provider now : Am unit).
Proof. unfold prepare_cat, get_auth_token, verify_cat, check_cat. keep. Qed.
Lemma auth_signatures_quiet l : keeps quiet_a (check_auth_signatures l : Am unit).
Proof. induction l as [|[sig pm] l IH]; cbn [check_auth_signatures]; keep. Qed.
#[local] Hint Resolve prepare_cat_quiet auth_signatures_quiet : keeps.

Lemma auth_wal_Ok {A} (c : WM A) (s s' : AuthState) a : (wal c : Am A) s = (Ok a, s') ->
  c (aw_client s) = (Ok a, aw_client s') /\ aw_refresh_token s' = aw_refresh_token s /\ aw_oidc s' = aw_oidc s /\
  aw_protected_endpoints s' = aw_protected_endpoints s.
Proof. unfold wal, mmap_err. destruct (c (aw_client s)) as [[x| |] cl]; cbn; intros [= <- <-]; done. Qed.

Lemma mtry_wal {A} (c : WM A) (s s' : AuthState) r : (mtry (wal c : Am A) : Am _) s = (r, s') ->
  aw_refresh_token s' = aw_refresh_token s /\ aw_oidc s' = aw_oidc s /\ aw_protected_endpoints s' = aw_protected_endpoints s.
Proof. unfold mtry, wal, mmap_err. destruct (c (aw_client s)) as [[x| |] cl]; cbn; intros [= <- <-]; done. Qed.

(** ** Minting blind tokens *)

(** A signature is accepted with a proof under the key of its amount in the
    keyset it names, as the wallet has or loads it. *)
Definition accepted (sp : BlindSignature * PreMint) : Prop :=
  exists (cl cl' : Client) keys key, (load_keyset_keys (bs_keyset_id sp.1) : WM Keys) cl = (Ok keys, cl') /\
    keys !! bs_amount sp.1 = Some key /\ bs_verify_dleq sp.1 key (blinded_secret (pm_blinded_message sp.2)) = Ok tt.

Lemma checked_signatures l : forall (s s' : AuthState), (check_auth_signatures l : Am unit) s = (Ok tt, s') -> Forall accepted l.
Proof.
  induction l as [|[sig pm] l IH]; cbn [check_auth_signatures]; intros s s' H; [constructor|].
  apply mseq_Ok in H as (keys & s1 & [Hl _]%auth_wal_Ok & H). apply mlift_seq in H as (key & Hk%ok_or_Ok & H).
  apply mseq_Ok in H as ([] & s3 & Hd & H). constructor; [|by eapply IH]. eexists _, _, keys, key. split_and!; [exact Hl|done|].
  cbn [fst snd]. destruct (bs_verify_dleq _ _ _) as [[]|[]|]; by try discriminate.
Qed.

(** What is stored for a proof that was minted. *)
Definition auth_row (p : Proof) (i : ProofInfo) : Prop :=
  pi_proof i = p /\ pi_mint_url i = mint_url /\ pi_state i = Nut07.Unspent /\ pi_unit i = Amount.Auth /\ y p = Ok (pi_y i).

Lemma auth_rows ps infos : collect (fun p => ProofInfo_new p mint_url Nut07.Unspent Amount.Auth) ps = Ok infos -> Forall2 auth_row ps infos.
Proof.
  intros H%collect_Ok. eapply Forall2_impl; [exact H|]. cbn. intros p i Hi%ProofInfo_new_Ok. unfold auth_row. naive_solver.
Qed.

(** Blind tokens that are minted are stored as unspent, each signature was
    accepted under the keyset it names, and nothing else of the store's proofs
    changes. *)
Theorem minted_tokens_stored rnd amount (s s' : AuthState) ps : (mint_blind_auth fuel mint_url provider now rnd amount : Am _) s = (Ok ps, s') ->
  exists infos pms sigs keys,
    Forall2 auth_row ps infos /\ construct_proofs sigs (rs pms) (pms_secret_list pms) keys = Ok ps /\
    length sigs = length (pms_secrets pms) /\ Forall accepted (zip sigs (pms_secrets pms)) /\
    (fresh infos [] (proofs_of (cl_store (aw_client s))) ->
     proofs_of (cl_store (aw_client s')) ≡ₚ proofs_of (cl_store (aw_client s)) ++ infos).
Proof.
  unfold mint_blind_auth. intros H. apply mseq_Ok in H as (known & s1 & H1 & H). apply mseq_Ok in H as ([] & s2 & H2 & H).
  apply mseq_Ok in H as ([] & s3 & H3 & H). apply mseq_Ok in H as (keysets & s4 & H4 & H).
  apply mseq_Ok in H as (act & s5 & H5 & H). apply mseq_Ok in H as (akeys & s6 & H6 & H).
  apply mseq_Ok in H as (kid & s7 & H7 & H). apply mseq_Ok in H as (pms & s8 & H8 & H).
  apply mseq_Ok in H as (sigs & s9 & H9 & H). apply mseq_Ok in H as (keys & s10 & H10 & H).
  destruct (Nat.eqb_spec (length sigs) (length (pms_secrets pms))) as [Hl|]; [|done]. cbn [negb] in H.
  apply mseq_Ok in H as ([] & s11 & H11 & H). apply mseq_Ok in H as (ps' & s12 & H12 & H).
  apply mseq_Ok in H as (infos & s13 & H13 & H). apply mseq_Ok in H as ([] & s14 & H14 & [= <- <-]).
  assert (Q : quiet_a s s13).
  { assert (Hg : keeps quiet_a (get_mint_info : Am (option MintInfo))) by (unfold get_mint_info; keep).
    apply (keeps_run quiet_a) in H1, H3, H4, H5, H6, H7, H8, H9, H10, H12, H13; try keep.
    apply (keeps_run quiet_a) in H2; [|destruct known; keep]. apply (keeps_run quiet_a) in H11; [|keep].
    do 12 (etrans; [eassumption|]). assumption. }
  apply checked_signatures in H11. apply auth_wal_Ok in H12 as [[Hc _]%lifted_Ok _], H13 as [[Hi _]%lifted_Ok _].
  apply auth_wal_Ok in H14 as [[Hu _]%store_Ok _]. destruct Q as [Q _]. rewrite <- Q.
  exists infos, pms, sigs, keys. split_and!; [by apply auth_rows|done..|]. intros Hf.
  apply update_proofs_Ok in Hu; [|done]. by rewrite WalletPayFacts.without_none in Hu.
Qed.

(** ** Tokens for requests *)

(** A request to an endpoint of blind tokens carries a stored token without the
    proof of its signature, and the store no longer has it. *)
Theorem blind_request_token method (s s' : AuthState) t : aw_protected_endpoints s !! method = Some Blind ->
  (get_auth_for_request mint_url method : Am _) s = (Ok t, s') ->
  exists i k, i ∈ proofs_of (cl_store (aw_client s)) /\ spendable i /\
    t = Some (BlindAuth (mkBlindAuthToken (mkAuthProof (keyset_id (pi_proof i)) (secret (pi_proof i)) (c (pi_proof i)) None))) /\
    y (pi_proof i) = Ok k /\ proofs_of (cl_store (aw_client s')) ≡ₚ without [k] (proofs_of (cl_store (aw_client s))).
Proof.
  intros Hm. unfold get_auth_for_request, is_protected. intros (r & s1 & [= <- <-] & H)%mseq_Ok. rewrite Hm in H.
  apply mseq_Ok in H as (o & s2 & [Ht _]%auth_wal_Ok & H). apply mlift_seq in H as (b & ->%ok_or_Ok & [= <- <-]).
  apply token_given in Ht as (i & k & Hi & Hs & Ha & Hy & Hp & _). exists i, k. unfold without_dleq. rewrite Ha in Hy |- *.
  split_and!; done.
Qed.

(** An endpoint that is not protected needs no token, and nothing changes. *)
Theorem open_request_free method (s : AuthState) : aw_protected_endpoints s !! method = None ->
  (get_auth_for_request mint_url method : Am _) s = (Ok None, s).
Proof. intros H. unfold get_auth_for_request, is_protected, mseq, mgets. by rewrite H. Qed.

(** ** Tokens of the provider *)

(** After a refresh the wallet has the refresh token of the response; a response
    without one leaves it with none, and it cannot refresh again. *)
Theorem refresh_token_replaced (s s' : AuthState) : (refresh_access_token provider now : Am unit) s = (Ok tt, s') ->
  exists o id old new, aw_oidc s = Some o /\ aw_refresh_token s = Some old /\
    fst (oidc_refresh_access_token provider id old o) = Ok new /\ aw_refresh_token s' = new.2 /\
    (new.2 = None -> (refresh_access_token provider now : Am unit) s' = (Err NothingToRefresh, s')).
Proof.
  unfold refresh_access_token at 1, get_refresh_token. intros (o & s1 & [= <- <-] & H)%mseq_Ok.
  apply mseq_Ok in H as (old & s1 & [= <- <-] & H). destruct (aw_oidc s) as [o|] eqn:Eo, (aw_refresh_token s) as [old|] eqn:Er; try done.
  apply mseq_Ok in H as (info & s2 & Hi & H). apply mlift_seq in H as (mi & _ & H). apply mlift_seq in H as (id & _ & H).
  assert (Ho : aw_oidc s2 = Some o).
  { apply mseq_Ok in Hi as (r & s3 & Ht & [= _ <-]). apply mtry_wal in Ht as (_ & -> & _). done. }
  apply mseq_Ok in H as (new & s3 & Hnew & H). unfold oidc in Hnew. rewrite Ho in Hnew.
  destruct (oidc_refresh_access_token provider id old o) as [r o'] eqn:Hrun. injection Hnew as Hnew%map_err_Ok <-.
  apply mseq_Ok in H as ([] & s4 & [= <-] & H).
  assert (Hr : aw_refresh_token s' = new.2).
  { apply mseq_Ok in H as ([] & s5 & Hc & [_ [-> _]]%auth_wal_Ok). unfold check_cat, oidc in Hc. cbn [aw_oidc set_oidc] in Hc.
    destruct (Oidc.verify_cat _ _ _ _). by injection Hc as _ <-. }
  exists o, id, old, new. rewrite Hrun. split_and!; [done..|]. intros Hn. unfold refresh_access_token, get_refresh_token, mseq, mgets.
  rewrite Hr, Hn. by destruct (aw_oidc s').
Qed.

(** Minting needs a clear token: without one nothing is asked of the mint but
    its information. *)
Theorem clear_token_needed (s s1 : AuthState) token :
  (get_auth_token : Am AuthToken) s = (Ok token, s1) -> (token = ClearAuth "" \/ exists b, token = BlindAuth b) ->
  exists e, (e = ClearAuthRequired \/ e = ClearAuthFailed) /\ (prepare_cat provider now : Am unit) s = (Err e, s1).
Proof. intros H Ht. unfold prepare_cat, mseq. rewrite H. destruct Ht as [->|[b ->]]; eauto. Qed.

(** A clear token that the provider accepts is refreshed all the same: when the
    refresh fails, minting fails. *)
Theorem accepted_token_refreshed (s s1 : AuthState) o o' text :
  (get_auth_token : Am AuthToken) s = (Ok (ClearAuth text), s1) -> text <> "" ->
  aw_oidc s1 = Some o -> Oidc.verify_cat (provider 0) now text o = (Ok tt, o') -> is_Some (aw_refresh_token s1) ->
  (prepare_cat provider now : Am unit) s = refresh_access_token provider now (set_oidc s1 (Some o')).
Proof.
  intros H Hne Ho Hv Hr. unfold prepare_cat, mseq at 1. rewrite H. destruct (String.eqb_spec text ""); [done|].
  unfold mseq at 1, mtry, verify_cat, check_cat, oidc, mgets. rewrite Ho, Hv. cbn [map_err].
  unfold mseq. by rewrite bool_decide_true.
Qed.

(** ** Keysets *)

(** The keyset that tokens are minted with is the first one of the unit auth that
    the mint lists, whether it is active or not. *)
Theorem first_keyset_taken (cl cl' : Client) k : (fetch_active_keyset mint_url : WM _) cl = (Ok k, cl') ->
  exists keysets, fst (ac_get_mint_blind_auth_keysets (cl_mint cl)) = Ok keysets /\ head (of_unit Amount.Auth keysets) = Some k.
Proof.
  unfold fetch_active_keyset, refresh_keysets. intros (l & w1 & H & Hh)%mseq_Ok. apply mlift_Ok in Hh as [Hh%ok_or_Ok _].
  apply mseq_Ok in H as (keysets & w2 & [Hn _]%net_Ok & H). apply mseq_Ok in H as ([] & w3 & _ & H).
  apply mseq_Ok in H as ([] & w4 & _ & [= <- <-]). exists keysets. by rewrite Hn.
Qed.

End facts.

(** A response without keysets makes the HTTP client panic. *)
Theorem empty_keys_panic {CR : Crypto} {MintInfo T NetErr W StoreErr} {TR : AuthTransport CR MintInfo T NetErr}
    {CV : Curve CR} {SD : Serde} {ST : WalletStore CR MintInfo W StoreErr} (cl : Client W (AuthHttpClient CR T)) id w t :
  st_get_keys id (cl_store cl) = (Ok None, w) -> tr_blind_keys id (transport (cl_mint cl)) = (Ok [], t) ->
  fst ((AuthWallet.load_keyset_keys id : Wm (NetErr:=NetErr) Keys) cl) = Panic.
Proof.
  intros Hw Ht. unfold AuthWallet.load_keyset_keys, store, net, mmap_err, mseq at 1. rewrite Hw. cbn.
  unfold mseq, http_get_mint_blind_auth_keyset, http, mseq. cbn. by rewrite Ht.
Qed.
End AuthWalletFacts.
