(* ===== verification/PayRequest.v ===== *)
(** * Payment requests (crates/cashu/src/nuts/nut18, crates/cdk/src/wallet/payment_request.rs)

    Module [Nut18]: payment requests, their transports and conditions, and
    their text.  Module [PayRequest]: paying a request from a wallet and making
    a request.

    The CBOR form of a request is a parameter with its law; base64 is that of
    tokens.  Nostr and HTTP are a parameter too: what came of delivering a
    payload over a transport. *)
From stdpp Require Import base numbers list sorting strings gmap.
From S2P Require Import Prelude Amount Hex Nuts KeysetId Bdhke Conditions Spending States MintDb Mint Keysets Melt Secrets Selection MintUrl WalletDb Token Posts WalletStore Wallet WalletPay.
Import Nut00 Requests KeysetId Bdhke Nut11 Spending Keysets Secrets WalletDb Token Wallet WalletPay.

Local Open Scope N_scope.
Local Open Scope res_scope.
Local Open Scope mint_scope.
Local Open Scope string_scope.

Module Nut18.

(** ** Transports (transport.rs) *)

Inductive TransportType := Nostr | HttpPost.
#[global] Instance TransportType_eq_dec : EqDecision TransportType.
Proof. solve_decision. Defined.
Inductive Error := InvalidPrefix | CiboriumError | Base64Error.

Definition transport_type_from_str (s : string) : res Error TransportType :=
  if String.eqb (to_lowercase s) "nostr" then Ok Nostr
  else if String.eqb (to_lowercase s) "post" then Ok HttpPost
  else Err InvalidPrefix.

Record Transport := mkTransport { tr_type : TransportType; tr_target : string; tr_tags : option (list (list string)) }.
Record TransportBuilder := mkTransportBuilder {
  tb_type : option TransportType; tb_target : option string; tb_tags : option (list (list string)) }.
Definition transport_builder : TransportBuilder := mkTransportBuilder None None None.
Definition set_transport_type (t : TransportType) (b : TransportBuilder) : TransportBuilder := mkTransportBuilder (Some t) (tb_target b) (tb_tags b).
Definition set_target (s : string) (b : TransportBuilder) : TransportBuilder := mkTransportBuilder (tb_type b) (Some s) (tb_tags b).
Definition add_tag (tag : list string) (b : TransportBuilder) : TransportBuilder :=
  mkTransportBuilder (tb_type b) (tb_target b) (Some (default [] (tb_tags b) ++ [tag])%list).
Definition set_tags (l : list (list string)) (b : TransportBuilder) : TransportBuilder := mkTransportBuilder (tb_type b) (tb_target b) (Some l).
Definition build_transport (b : TransportBuilder) : res string Transport :=
  let? t := ok_or "Transport type is required" (tb_type b) in
  let? target := ok_or "Target is required" (tb_target b) in
  Ok (mkTransport t target (tb_tags b)).

(** ** Conditions without a nonce (secret.rs) *)

Record Nut10SecretRequest := mkNut10SecretRequest { nr_kind : Nut10.Kind; nr_data : string; nr_tags : option (list (list string)) }.
Definition request_of_secret (s : Nut10.Secret) : Nut10SecretRequest :=
  mkNut10SecretRequest (Nut10.kind s) (Nut10.data (Nut10.secret_data s)) (Nut10.tags (Nut10.secret_data s)).
Definition secret_of_request (fresh_nonce : string) (r : Nut10SecretRequest) : Nut10.Secret :=
  Nut10.Secret_new fresh_nonce (nr_kind r) (nr_data r) (nr_tags r).

Section defs.
Context {CR : Crypto}.

Definition request_of_conditions (sc : SpendingConditions) : Nut10SecretRequest :=
  match sc with
  | P2PKConditions data conditions => mkNut10SecretRequest Nut10.P2PK (Nut01.to_hex data) (Conditions_into_tags <$> conditions)
  | HTLCConditions data conditions => mkNut10SecretRequest Nut10.HTLC (digest_to_string data) (Conditions_into_tags <$> conditions)
  end.

(** ** Requests (payment_request.rs) *)

Record PaymentRequest := mkPaymentRequest {
  pq_payment_id : option string;
  pq_amount : option N;
  pq_unit : option Amount.CurrencyUnit;
  pq_single_use : option bool;
  pq_mints : option (list MintUrl);
  pq_description : option string;
  pq_transports : list Transport;
  pq_nut10 : option Nut10SecretRequest;
}.

(** [PaymentRequestBuilder] has the fields of a request; these are its methods. *)
Definition pr_builder : PaymentRequest := mkPaymentRequest None None None None None None [] None.
Definition add_mint (u : MintUrl) (b : PaymentRequest) : PaymentRequest :=
  mkPaymentRequest (pq_payment_id b) (pq_amount b) (pq_unit b) (pq_single_use b) (Some (default [] (pq_mints b) ++ [u])%list) (pq_description b) (pq_transports b) (pq_nut10 b).
Definition add_transport (t : Transport) (b : PaymentRequest) : PaymentRequest :=
  mkPaymentRequest (pq_payment_id b) (pq_amount b) (pq_unit b) (pq_single_use b) (pq_mints b) (pq_description b) (pq_transports b ++ [t])%list (pq_nut10 b).

Record PaymentRequestPayload := mkPayload {
  pp_id : option string;
  pp_memo : option string;
  pp_mint : MintUrl;
  pp_unit : Amount.CurrencyUnit;
  pp_proofs : list Proof;
}.

Class RequestCodec := {
  request_to_cbor : PaymentRequest -> option string;
  request_from_cbor : string -> option PaymentRequest;
}.
(** URLs and the unit in the form in which they are read back. *)
Definition request_canonical (r : PaymentRequest) : Prop :=
  Forall canonical (default [] (pq_mints r)) /\ forall u, pq_unit r = Some u -> unit_canonical u.
Class RequestCodecLaws (RC : RequestCodec) : Prop := {
  request_cbor_roundtrip r s : request_canonical r -> request_to_cbor r = Some s -> request_from_cbor s = Some r;
}.

Context {TC : TokenCodec CR} {RC : RequestCodec}.

(** [Display], whose failure makes [to_string] panic, and [FromStr]. *)
Definition PAYMENT_REQUEST_PREFIX : string := "creqA".
Definition request_to_string (r : PaymentRequest) : res Error string :=
  match request_to_cbor r with
  | Some data => Ok (PAYMENT_REQUEST_PREFIX ++ b64_encode data)
  | None => Panic
  end.
Definition request_from_str (s : string) : res Error PaymentRequest :=
  let? s := ok_or InvalidPrefix (TokenOps.strip_prefix PAYMENT_REQUEST_PREFIX s) in
  let? decoded := ok_or Base64Error (b64_decode s) in
  ok_or CiboriumError (request_from_cbor decoded).
End defs.
End Nut18.

Module PayRequest.
Import Nut18.

(** Nostr first, to hide the payer's address. *)
Definition find_transport (t : TransportType) (l : list Transport) : option Transport := head (filter (fun x => tr_type x = t) l).
Definition preferred_transport (l : list Transport) : option Transport :=
  match find_transport Nostr l with Some t => Some t | None => find_transport HttpPost l end.

Section pay.
Context {CR : Crypto} {CV : Curve CR} {BP : Bip32 CR} {KDF : SeedKdf CR BP} {SD : Serde} {PD : EqDecision Proof}.
Context {MintInfo W StoreErr S NetErr DeliveryErr : Type} {ST : WalletStore CR MintInfo W StoreErr}.
Context {MC : WalletConnector CR MintInfo S NetErr} {MI : MintInfoView MintInfo} {TC : TokenCodec CR}.
Context (iter : list Proof -> list Proof) (iter_fees : Selection.KeysetFeeAndAmounts -> Selection.KeysetFeeAndAmounts).
Context (iter_groups : forall A : Type, list (Id * A) -> list (Id * A)).
Context (deliver : Transport -> PaymentRequestPayload -> res DeliveryErr unit).
Context (fuel : nat) (self : Wallet).

Inductive PrError :=
| Paying (e : PayError (StoreErr:=StoreErr) (NetErr:=NetErr))
| AmountUndefined
| NoTransport
| DeliveryFailed (e : DeliveryErr).

Definition Qm (A : Type) : Type := M (Client W S) PrError A.
Definition paying {A} (c : Pm (W:=W) (StoreErr:=StoreErr) (S:=S) (NetErr:=NetErr) A) : Qm A := mmap_err Paying c.

Definition pay_options : SendOptions := mkSendOptions None None Amount.STNone OnlineExact true None ∅.
Definition amount_of (r : PaymentRequest) (custom_amount : option N) : option N :=
  match pq_amount r with Some a => Some a | None => custom_amount end.

(** The proofs of a token, with the keysets from the store or the mint. *)
Definition proofs_of_token (now : N) (token : Token) : Pm (W:=W) (StoreErr:=StoreErr) (S:=S) (NetErr:=NetErr) (list Proof) :=
  do url <- WalletPay.token (TokenOps.mint_url token) ;
  do found <- wallet (store (st_get_mint_keysets url)) ;
  do keysets_info <- (match found with Some l => mret l | None => wallet (load_mint_keysets self now) end) ;
  WalletPay.token (TokenOps.proofs token keysets_info).

Definition pay_request (now : N) (rnd : Random) (r : PaymentRequest) (custom_amount : option N) : Qm unit :=
  do amount <- mlift (ok_or AmountUndefined (amount_of r custom_amount)) ;
  let transport := preferred_transport (pq_transports r) in
  do prepared_send <- paying (wallet (prepare_send iter iter_fees fuel self now amount pay_options)) ;
  do token <- paying (confirm iter_groups fuel self now rnd None prepared_send) ;
  do proofs <- paying (proofs_of_token now token) ;
  match transport with
  | Some t => mlift (map_err DeliveryFailed (deliver t (mkPayload (pq_payment_id r) None (wl_mint_url self) (wl_unit self) proofs)))
  | None => mfail NoTransport
  end.
End pay.

(** ** Making a request *)

Section create.
Context {CR : Crypto}.

Record CreateRequestParams := mkCreateRequestParams {
  cp_amount : option N;
  cp_unit : string;
  cp_description : option string;
  cp_pubkeys : option (list string);
  cp_num_sigs : N;
  cp_hash : option string;
  cp_preimage : option string;
  cp_transport : string;
  cp_http_url : option string;
  cp_nostr_relays : option (list string);
}.

Inductive CreateError := BadHash | BadConditions (e : Hex.Error) | NoRelays | BadRelays | BadProfile.

(** [SpendingConditions::new_htlc] of nut11/mod.rs. *)
Definition new_htlc (preimage : string) (conditions : option Conditions) : res CreateError SpendingConditions :=
  let? bytes := map_err BadConditions (Hex.decode preimage) in
  Ok (HTLCConditions (sha256 bytes) conditions).

Definition parsed_keys (l : list string) : list pubkey := omap (fun s => match Nut01.from_str s with Ok k => Some k | _ => None end) l.
Definition request_conditions (pubkeys : list pubkey) (num_sigs : N) : Conditions := mkConditions None (Some pubkeys) None (Some num_sigs) SigInputs None.
Definition hash_conditions (hash : string) (conditions : option Conditions) : res CreateError SpendingConditions :=
  let? h := ok_or BadHash (digest_from_str hash) in Ok (HTLCConditions h conditions).

Definition get_pr_spending_conditions (params : CreateRequestParams) : res CreateError (option SpendingConditions) :=
  match cp_pubkeys params with
  | Some pubkey_strings =>
      match parsed_keys pubkey_strings with
      | [] => Ok None
      | key :: keys =>
          let num_sigs := N.min (cp_num_sigs params) (N.of_nat (length (key :: keys))) in
          match cp_hash params, cp_preimage params with
          | Some hash_str, _ => let? sc := hash_conditions hash_str (Some (request_conditions (key :: keys) num_sigs)) in Ok (Some sc)
          | None, Some preimage => let? sc := new_htlc preimage (Some (request_conditions (key :: keys) num_sigs)) in Ok (Some sc)
          | None, None => Ok (Some (new_p2pk key (Some (request_conditions keys num_sigs))))
          end
      end
  | None =>
      match cp_hash params, cp_preimage params with
      | Some hash_str, _ => let? sc := hash_conditions hash_str None in Ok (Some sc)
      | None, Some preimage => let? sc := new_htlc preimage None in Ok (Some sc)
      | None, None => Ok None
      end
  end.

(** The transport of a request.  [profile] makes the address of fresh keys with
    the given relays: [None] when a relay can not be read, [Some None] when the
    address can not be written. *)
Context (profile : list string -> option (option string)).
Definition create_transports (params : CreateRequestParams) : res CreateError (list Transport) :=
  let transport_type := to_lowercase (cp_transport params) in
  if String.eqb transport_type "nostr" then
    match cp_nostr_relays params with
    | None | Some [] => Err NoRelays
    | Some relays =>
        let? target := ok_or BadRelays (profile relays) in
        let? target := ok_or BadProfile target in
        Ok [mkTransport Nostr target (Some [["n"; "17"]])]
    end
  else if String.eqb transport_type "http" then
    Ok (match cp_http_url params with Some url => [mkTransport HttpPost url None] | None => [] end)
  else Ok [].

(** [mints] are the mints of the wallet. *)
Definition create_request (mints : list MintUrl) (params : CreateRequestParams) : res CreateError PaymentRequest :=
  let? transports := create_transports params in
  let? conditions := get_pr_spending_conditions params in
  Ok (mkPaymentRequest None (cp_amount params) (Some (Nut00.currency_from_str (cp_unit params))) (Some true) (Some mints)
        (cp_description params) transports (request_of_conditions <$> conditions)).
End create.
End PayRequest.
