(* ===== verification/PayRequestFacts.v ===== *)
(** * Properties of payment requests

    A request reads back from its text and its conditions from the request.  A
    payment that returns was delivered over the preferred transport and holds
    proofs worth at least the amount; one that could not be delivered has
    handed out its proofs all the same.  What the payer is asked for besides the
    amount is ignored. *)
From stdpp Require Import base numbers list sorting strings gmap.
From S2P Require Import Prelude Amount Hex Nuts KeysetId Bdhke Conditions Spending States MintDb Mint MintFacts Keysets Melt Secrets Selection MintUrl WalletDb Token TokenFacts Posts WalletStore Wallet WalletFacts WalletPay WalletPayFacts PayRequest.
Import Nut00 Requests KeysetId Bdhke Nut11 Spending Keysets Secrets WalletDb Token WalletStore MintFacts Wallet WalletFacts WalletPay WalletPayFacts Nut18 PayRequest.

Local Open Scope N_scope.
Local Open Scope res_scope.
Local Open Scope mint_scope.

Module PayRequestFacts.

(** ** Text and conditions *)

Section text.
Context {CR : Crypto} {TC : TokenCodec CR} {RC : RequestCodec} {TL : TokenCodecLaws CR TC} {RL : RequestCodecLaws RC}.

(** A request with URLs as they are read back is read from its text. *)
Theorem request_text_roundtrip r s : request_canonical r -> request_to_string r = Ok s -> request_from_str s = Ok r.
Proof.
  intros Hc. unfold request_to_string. destruct (request_to_cbor r) as [d|] eqn:E; [|done]. intros [= <-]. unfold request_from_str.
  rewrite TokenFacts.strip_prefix_app. cbn. rewrite b64_roundtrip. cbn. by rewrite (request_cbor_roundtrip r d Hc E).
Qed.

(** A payer who makes a secret of the conditions of a request locks to exactly
    the conditions it was made of. *)
Theorem request_conditions_roundtrip {SD : Serde} {CL : CryptoLaws CR} {SL : SerdeLaws SD} nonce sc : sc_wf sc ->
  sc_try_from_nut10 (secret_of_request nonce (request_of_conditions sc)) = Ok sc.
Proof.
  intros Hwf. pose proof (spending_conditions_roundtrip nonce sc Hwf) as H. unfold sc_try_from_secret, sc_into_secret in H.
  rewrite nut10_json_roundtrip in H. cbn in H. by destruct sc.
Qed.

(** ** Conditions of a new request *)

(** Keys that can not be read are left out; when none is left the request has
    no condition at all, whatever hash or preimage was given. *)
Theorem unreadable_keys_drop_conditions (params : CreateRequestParams) l :
  cp_pubkeys params = Some l -> parsed_keys l = [] -> get_pr_spending_conditions params = Ok None.
Proof. intros H E. unfold get_pr_spending_conditions. by rewrite H, E. Qed.

(** Keys alone give a lock to exactly the keys that could be read, with at most
    as many signatures as there are keys. *)
Theorem keys_give_p2pk (params : CreateRequestParams) l key keys :
  cp_pubkeys params = Some l -> cp_hash params = None -> cp_preimage params = None -> parsed_keys l = key :: keys ->
  exists sc, get_pr_spending_conditions params = Ok (Some sc) /\
    (forall k, k ∈ default [] (sc_pubkeys sc) <-> exists s, s ∈ l /\ Nut01.from_str s = Ok k) /\
    sc_num_sigs sc = Some (N.min (cp_num_sigs params) (N.of_nat (length (key :: keys)))).
Proof.
  intros Hl Hh Hp Hk. unfold get_pr_spending_conditions. rewrite Hl, Hk, Hh, Hp. eexists. split; [reflexivity|]. split; [|done].
  intros k. cbn. rewrite elem_of_elements. change ({[key]} ∪ list_to_set keys) with (list_to_set (key :: keys) : gset pubkey).
  rewrite elem_of_list_to_set, <- Hk. unfold parsed_keys. rewrite list_elem_of_omap. split.
  - intros (s & Hs & E). destruct (Nut01.from_str s) eqn:F; [|done..]. injection E as <-. eauto.
  - intros (s & Hs & E). exists s. by rewrite E.
Qed.
End text.

(** ** Paying *)

Section pay.
Context {CR : Crypto} {CV : Curve CR} {BP : Bip32 CR} {KDF : SeedKdf CR BP} {SD : Serde} {PD : EqDecision Proof}.
Context {MintInfo W StoreErr S NetErr DeliveryErr : Type} {ST : WalletStore CR MintInfo W StoreErr}.
Context {MC : WalletConnector CR MintInfo S NetErr} {MI : MintInfoView MintInfo} {TC : TokenCodec CR}.
Context {WV : WalletView CR W} {SL : WalletStoreLaws CR MintInfo W StoreErr ST WV}.
Context (iter : list Proof -> list Proof) (iter_perm : forall l, iter l ≡ₚ l).
Context (iter_fees : Selection.KeysetFeeAndAmounts -> Selection.KeysetFeeAndAmounts).
Context (iter_groups : forall A : Type, list (Id * A) -> list (Id * A)).
Context (deliver : Transport -> PaymentRequestPayload -> res DeliveryErr unit).
Context (fuel : nat) (self : Wallet).
Abbreviation Client := (Client W S).
Abbreviation stored w := (proofs_of (cl_store w)).
Abbreviation QM := (Qm (W:=W) (StoreErr:=StoreErr) (S:=S) (NetErr:=NetErr) (DeliveryErr:=DeliveryErr)).
Abbreviation PM := (Pm (W:=W) (StoreErr:=StoreErr) (S:=S) (NetErr:=NetErr)).
Abbreviation pay_request := (pay_request iter iter_fees iter_groups deliver fuel self : N -> Random -> PaymentRequest -> option N -> QM unit).

(** The result does not depend on the unit, mints and conditions of the
    request: it is paid in the unit and at the mint of the wallet, with proofs
    that anyone can spend. *)
Theorem pay_ignores_terms now rnd id amount transports custom unit unit' single single' mints mints' d d' nut10 nut10' :
  pay_request now rnd (mkPaymentRequest id amount unit single mints d transports nut10) custom =
  pay_request now rnd (mkPaymentRequest id amount unit' single' mints' d' transports nut10') custom.
Proof. reflexivity. Qed.

(** Proofs worth an amount that are stored as handed out, and only so. *)
Definition handed_out (amount : N) (l : list Proof) (w : Client) : Prop :=
  amount <= sumN (Nut00.amount <$> l) /\
  exists ks, ys l = Ok ks /\ (forall i, i ∈ stored w -> pi_y i ∈ ks -> pi_state i = Nut07.PendingSpent) /\
    forall k, k ∈ ks -> exists i, i ∈ stored w /\ y (pi_proof i) = Ok k.

Lemma confirm_handed_out now rnd m pd (w w' : Client) tok :
  (confirm iter_groups fuel self now rnd m pd : PM _) w = (Ok tok, w') ->
  exists l memo, TokenOps.Token_new iter_groups (wl_mint_url self) l memo (wl_unit self) = Ok tok /\ handed_out (pd_amount pd) l w'.
Proof.
  unfold confirm. intros ([l memo] & w1 & Hh & [Ht <-]%lifted_Ok)%mseq_Ok. unfold wallet, mmap_err in Hh.
  destruct (hand_out fuel self now rnd m pd w) as [[[l' memo']| |] w2] eqn:Ho; [|done..]. cbn in Hh. injection Hh as -> -> ->.
  apply hand_out_Ok in Ho as (Hge & _ & w2 & ks & Hys & Hst & Hall). exists l, memo. split; [done|]. split; [done|]. exists ks. split; [done|].
  split.
  - intros i Hi Hk. rewrite Hst in Hi. apply list_elem_of_fmap in Hi as (j & -> & Hj). unfold restate in *.
    destruct (bool_decide (pi_y j ∈ ks)) eqn:Hb; [done|]. by apply bool_decide_eq_false in Hb.
  - intros k Hk. destruct (Hall k Hk) as (i & Hi & Hy & _). exists (restate ks Nut07.PendingSpent i).
    split; [rewrite Hst; by apply list_elem_of_fmap_2|]. by rewrite restate_same_proof.
Qed.

Lemma paying_Ok {A} (c : PM A) (w w' : Client) a : (paying c : QM A) w = (Ok a, w') -> c w = (Ok a, w').
Proof. unfold paying, mmap_err. destruct (c w) as [[x|e|] w1]; cbn; congruence. Qed.
Lemma wallet_quiet_Ok {A} (c : Wm (W:=W) (StoreErr:=StoreErr) (S:=S) (NetErr:=NetErr) A) (w w' : Client) a :
  keeps quiet_c c -> (wallet c : PM A) w = (Ok a, w') -> stored w' = stored w.
Proof.
  intros K. unfold wallet, mmap_err. pose proof (K w) as Q. destruct (c w) as [[x|e|] w1]; cbn; try done. intros [= _ <-]. apply Q.
Qed.
Lemma proofs_of_token_quiet now tok (w w' : Client) l : (proofs_of_token self now tok : PM _) w = (Ok l, w') -> stored w' = stored w.
Proof.
  unfold proofs_of_token. intros (u & w1 & [_ ->]%lifted_Ok & (found & w2 & H2%wallet_quiet_Ok & H)%mseq_Ok)%mseq_Ok; [|keep].
  apply mseq_Ok in H as (ks & w3 & H3 & [_ <-]%lifted_Ok). rewrite <- H2. destruct found; [by injection H3 as _ <-|].
  apply wallet_quiet_Ok in H3; [done|keep].
Qed.

(** What a run of [paying] can be. *)
Lemma paying_seq {A B} (c : PM A) (k : A -> QM B) (w w' : Client) r : mseq (paying c) k w = (r, w') ->
  (exists a w1, c w = (Ok a, w1) /\ k a w1 = (r, w')) \/ (exists e, r = Err (Paying e)) \/ r = Panic.
Proof.
  unfold mseq, paying, mmap_err. destruct (c w) as [[a|e|] w1]; cbn; [eauto|intros [= <- _]; eauto..].
Qed.

(** A payment that is delivered, or fails to be: its token is made and the
    proofs of it are handed out. *)
Definition reached (r : PaymentRequest) (custom : option N) (out : res (PrError (StoreErr:=StoreErr) (NetErr:=NetErr) (DeliveryErr:=DeliveryErr)) unit) (w' : Client) : Prop :=
  exists amount l memo tok ks proofs, amount_of r custom = Some amount /\ handed_out amount l w' /\
    TokenOps.Token_new iter_groups (wl_mint_url self) l memo (wl_unit self) = Ok tok /\ TokenOps.proofs tok ks = Ok proofs /\
    out = match preferred_transport (pq_transports r) with
          | Some t => map_err DeliveryFailed (deliver t (mkPayload (pq_payment_id r) None (wl_mint_url self) (wl_unit self) proofs))
          | None => Err NoTransport
          end.
Lemma pay_steps now rnd r custom (w w' : Client) out : pay_request now rnd r custom w = (out, w') ->
  (exists e, out = Err (Paying e)) \/ out = Err AmountUndefined \/ out = Panic \/ reached r custom out w'.
Proof.
  unfold PayRequest.pay_request. intros H. unfold mseq at 1, mlift in H. destruct (amount_of r custom) as [amount|] eqn:Ha; cbn [ok_or] in H; [|injection H as <- _; auto].
  apply paying_seq in H as [(pd & w1 & H1 & H)|[?| ->]]; [|auto..].
  assert (pd_amount pd = amount) as Hpd.
  { unfold wallet, mmap_err in H1. destruct (prepare_send _ _ _ _ _ _ _ w) as [[x|e|] w2] eqn:Hp; cbn in H1; [|done..]. injection H1 as <- <-.
    by apply (prepare_send_Ok iter iter_perm) in Hp as (? & _). }
  apply paying_seq in H as [(tok & w2 & H2 & H)|[?| ->]]; [|auto..]. apply confirm_handed_out in H2 as (l & memo & Ht & Hh).
  apply paying_seq in H as [(proofs & w3 & H3 & H)|[?| ->]]; [|auto..].
  pose proof (proofs_of_token_quiet _ _ _ _ _ H3) as Q.
  assert (exists ks, TokenOps.proofs tok ks = Ok proofs) as [ks Hks].
  { unfold proofs_of_token in H3. apply mseq_Ok in H3 as (u & w4 & _ & (f & w5 & _ & (ks & w6 & _ & [Hk _]%lifted_Ok)%mseq_Ok)%mseq_Ok). eauto. }
  right. right. right. exists amount, l, memo, tok, ks, proofs. split_and!; [done| |done|done|].
  - rewrite Hpd in Hh. destruct Hh as (Hge & kk & Hy & H4 & H5). split; [done|]. exists kk. destruct (preferred_transport _); cbn in H; injection H as _ <-; by rewrite Q.
  - destruct (preferred_transport _); cbn in H; by injection H as <- _.
Qed.

(** A payment that returns was delivered over the preferred transport: its
    payload names the mint and unit of the wallet and holds the proofs of a
    token made of proofs worth at least the amount, which are stored as handed
    out. *)
Theorem pay_request_delivers now rnd r custom (w w' : Client) : pay_request now rnd r custom w = (Ok tt, w') ->
  exists amount t l memo tok ks proofs, amount_of r custom = Some amount /\ preferred_transport (pq_transports r) = Some t /\
    handed_out amount l w' /\ TokenOps.Token_new iter_groups (wl_mint_url self) l memo (wl_unit self) = Ok tok /\ TokenOps.proofs tok ks = Ok proofs /\
    deliver t (mkPayload (pq_payment_id r) None (wl_mint_url self) (wl_unit self) proofs) = Ok tt.
Proof.
  intros [[e ?]|[?|[?|(amount & l & memo & tok & ks & proofs & H1 & H2 & H3 & H4 & H5)]]]%pay_steps; try done.
  destruct (preferred_transport (pq_transports r)) as [t|] eqn:E; [|done]. symmetry in H5. apply map_err_Ok in H5. eauto 20.
Qed.

(** A payment that can not be delivered, for want of a transport or because
    the delivery fails, has handed out proofs worth at least the amount, and
    the token with them is gone. *)
Theorem undelivered_payment_hands_out now rnd r custom (w w' : Client) out : pay_request now rnd r custom w = (out, w') ->
  (out = Err NoTransport \/ exists e, out = Err (DeliveryFailed e)) -> exists amount l, amount_of r custom = Some amount /\ handed_out amount l w'.
Proof.
  intros H Hout. apply pay_steps in H as [[e ->]|[->|[->|(amount & l & memo & tok & ks & proofs & H1 & H2 & _)]]]; [destruct Hout as [|[]]; done..|eauto].
Qed.

(** A request without a transport is never paid. *)
Theorem no_transport_never_pays now rnd r custom (w w' : Client) out : preferred_transport (pq_transports r) = None ->
  pay_request now rnd r custom w = (out, w') -> out <> Ok tt.
Proof.
  intros Hn [[e ->]|[->|[->|(amount & l & memo & tok & ks & proofs & _ & _ & _ & _ & ->)]]]%pay_steps; try done. by rewrite Hn.
Qed.
End pay.
End PayRequestFacts.
