(* ===== verification/MultiMint.v ===== *)
(** * A wallet of several mints (crates/cdk/src/wallet/multi_mint_wallet.rs)

    [MultiMintWallet] keeps one wallet for each mint, all of one unit and over one
    store, and moves value between mints by melting at one and minting at the
    other.  The state is the map of wallets, each with its client, and the store
    and the mints that the wallets share; the operations are those of Wallet.v and
    WalletPay.v, run for the wallet of a URL with its client.

    A spawned task runs from its start to its end: [order] is the order in which
    the runtime runs the tasks of an operation.  [recv] is the next event of a
    subscription, a notice of the mint, its end, or the time limit; [rounds]
    bounds the number of notices waited for ([TransferDiverges] beyond).  Time, random
    values and new keys are in [Chance]. *)
From stdpp Require Import base numbers list sorting strings gmap.
From S2P Require Import Prelude Amount Hex Nuts KeysetId Bdhke Conditions Spending States MintDb Mint Keysets Melt Secrets Selection MintUrl WalletDb Token Posts WalletStore Wallet WalletPay.
Import Nut00 KeysetId Bdhke Nut11 Keysets Secrets WalletDb Token WalletStore Wallet WalletPay.

Local Open Scope N_scope.
Local Open Scope res_scope.
Local Open Scope mint_scope.

Module MultiMint.

(** ** Data *)

Inductive TransferMode := ExactReceive (amount : N) | FullBalance.

Record TransferResult := mkTransferResult {
  tf_amount_sent : N;
  tf_amount_received : N;
  tf_fees_paid : N;
  tf_source_balance_after : N;
  tf_target_balance_after : N;
}.

Record MultiMintReceiveOptions {CR : Crypto} := mkMultiMintReceiveOptions {
  mro_allow_untrusted : bool;
  mro_transfer_to_mint : option MintUrl;
  mro_receive_options : ReceiveOptions;
}.
Arguments mkMultiMintReceiveOptions {CR} _ _ _.

Record MultiMintSendOptions {CR : Crypto} := mkMultiMintSendOptions {
  mso_allow_transfer : bool;
  mso_max_transfer_amount : option N;
  mso_allowed_mints : list MintUrl;
  mso_excluded_mints : list MintUrl;
  mso_send_options : SendOptions;
}.
Arguments mkMultiMintSendOptions {CR} _ _ _ _ _.

(** What a subscription to a mint quote gives next. *)
Inductive Recv := Notice (state : option MintTypes.MintQuoteState) | Closed | Elapsed.

(** Time, random values and new keys. *)
Record Chance {CR : Crypto} := mkChance { ch_now : N; ch_random : nat -> Random; ch_key : nat -> seckey }.
Arguments mkChance {CR} _ _ _.

#[local] Instance tx_before_dec {CR : Crypto} : RelDecision tx_before.
Proof. intros a b. unfold tx_before. apply _. Defined.

Section defs.
Context {CR : Crypto} {CV : Curve CR} {BP : Bip32 CR} {KDF : SeedKdf CR BP} {SD : Serde} {PD : EqDecision Proof}.
Context {MintInfo W StoreErr S NetErr : Type} {ST : WalletStore CR MintInfo W StoreErr}.
Context {MI : MintInfoView MintInfo} {TC : TokenCodec CR}.
Context (iter : list Proof -> list Proof) (iter_fees : Selection.KeysetFeeAndAmounts -> Selection.KeysetFeeAndAmounts).
Context (iter_keys : list seckey -> list seckey) (invoice_amount : string -> option (option N)).
Context (fuel rounds : nat) (order : forall A : Type, list A -> list A).

Abbreviation Conn := (WalletConnector CR MintInfo S NetErr).
Context (http : MintUrl -> Conn) (recv : Conn -> MintUrl -> string -> S -> Recv * S).

Record WalletConfig := mkWalletConfig { wc_mint_connector : option Conn; wc_target_proof_count : option N }.

(** A [Wallet] with its client; its subscriptions keep the client it was made
    with. *)
Record Entry := mkEntry { en_wallet : Wallet; en_client : Conn; en_subscription : Conn }.

(** [MultiMintWallet]: a proxy or Tor gives the client of a URL. *)
Record MultiMintWallet := mkMultiMintWallet {
  mw_seed : string;
  mw_unit : Amount.CurrencyUnit;
  mw_transport : option (MintUrl -> Conn);
}.

Record State := mkState { ms_wallets : gmap MintUrl Entry; ms_client : Client W S }.

Abbreviation PayErr := (PayError (StoreErr:=StoreErr) (NetErr:=NetErr)).
Inductive MmError :=
| Failed (e : PayErr)
| UnknownMint (mint_url : MintUrl)
| BadUrl
| MultiMintCurrencyUnitMismatch (expected found : Amount.CurrencyUnit)
| TransferTimeout (source_mint target_mint : MintUrl) (amount : N)
| TaskPanicked
| TransferDiverges.

Definition Mm (A : Type) : Type := M State MmError A.
Abbreviation WM := (Wm (W:=W) (StoreErr:=StoreErr) (S:=S) (NetErr:=NetErr)).
Abbreviation PM := (Pm (W:=W) (StoreErr:=StoreErr) (S:=S) (NetErr:=NetErr)).

Context (self : MultiMintWallet).

(** Wallet operations. *)
Definition pay {A} (c : PM A) : Mm A :=
  mmap_err Failed (fun s => match c (ms_client s) with (r, cl) => (r, mkState (ms_wallets s) cl) end).
Definition wal {A} (c : WM A) : Mm A := pay (wallet c).
Definition tok {A} (r : res TokenOps.Error A) : Mm A := mlift (map_err (fun e => Failed (TokenFailed e)) r).
Definition amts {A} (r : res Amount.Error A) : Mm A := mlift (map_err (fun e => Failed (WalletFailed (AmountFailed e))) r).
Definition insufficient_funds : MmError := Failed (WalletFailed InsufficientFunds).

(** [Error::InsufficientFunds], which the selection of proofs returns too. *)
Definition is_insufficient (e : MmError) : bool :=
  match e with
  | Failed (WalletFailed InsufficientFunds) | Failed (WalletFailed (SelectFailed Selection.InsufficientFunds)) => true
  | _ => false
  end.

(** The wallets in the order of their URLs, and the wallet of a URL. *)
Definition entries : Mm (list (MintUrl * Entry)) := mgets (fun s => rows text (ms_wallets s)).
Definition find_wallet (mint_url : MintUrl) : Mm Entry :=
  do found <- mgets (fun s => ms_wallets s !! mint_url) ;
  mlift (ok_or (UnknownMint mint_url) found).

(** ** The set of wallets *)

Definition new_entry (mint_url : MintUrl) (target_proof_count : N) (c : Conn) : Entry :=
  mkEntry (mkWallet mint_url (mw_unit self) target_proof_count (mw_seed self)) c c.

(** A client of the configuration comes first, then proxy or Tor; only the
    default client reads the URL again. *)
Definition create_wallet_with_config (mint_url : MintUrl) (config : option WalletConfig) : res MmError Entry :=
  let target_proof_count := default 3 (config ≫= wc_target_proof_count) in
  match config ≫= wc_mint_connector with
  | Some custom => Ok (new_entry mint_url target_proof_count custom)
  | None =>
      match mw_transport self with
      | Some transport => Ok (new_entry mint_url target_proof_count (transport mint_url))
      | None =>
          let? url := map_err (fun _ => BadUrl) (MintUrl.from_str mint_url) in
          Ok (new_entry url target_proof_count (http url))
      end
  end.

Definition insert_wallet (mint_url : MintUrl) (e : Entry) : Mm unit :=
  mmodify (fun s => mkState (<[mint_url := e]> (ms_wallets s)) (ms_client s)).
Definition add_mint (mint_url : MintUrl) : Mm unit :=
  do e <- mlift (create_wallet_with_config mint_url None) ; insert_wallet mint_url e.
Definition add_mint_with_config (mint_url : MintUrl) (config : WalletConfig) : Mm unit :=
  do e <- mlift (create_wallet_with_config mint_url (Some config)) ; insert_wallet mint_url e.
Definition remove_mint (mint_url : MintUrl) : Mm unit :=
  mmodify (fun s => mkState (delete mint_url (ms_wallets s)) (ms_client s)).

Definition get_wallets : Mm (list Entry) := do l <- entries ; mret l.*2.
Definition get_wallet (mint_url : MintUrl) : Mm (option Entry) := mgets (fun s => ms_wallets s !! mint_url).
Definition has_mint (mint_url : MintUrl) : Mm bool := mgets (fun s => bool_decide (is_Some (ms_wallets s !! mint_url))).

Definition reconfigured (config : WalletConfig) (e : Entry) : Entry :=
  let w := en_wallet e in
  mkEntry (mkWallet (wl_mint_url w) (wl_unit w) (default (wl_target_proof_count w) (wc_target_proof_count config)) (wl_seed w))
    (default (en_client e) (wc_mint_connector config)) (en_subscription e).
Definition set_mint_config (mint_url : MintUrl) (config : WalletConfig) : Mm unit :=
  do known <- has_mint mint_url ;
  if known then mmodify (fun s => mkState (alter (reconfigured config) mint_url (ms_wallets s)) (ms_client s))
  else add_mint_with_config mint_url config.

(** The mints of the store that have proofs of the unit, or all of them when no
    mint has. *)
Fixpoint load_mints (all_proofs : list ProofInfo) (mints : list MintUrl) : Mm unit :=
  match mints with
  | [] => mret tt
  | mint_url :: mints =>
      do_ (if is_nil all_proofs || existsb (fun p => bool_decide (pi_mint_url p = mint_url)) all_proofs then
             do known <- has_mint mint_url ;
             if known : bool then mret tt else add_mint mint_url
           else mret tt) ;
      load_mints all_proofs mints
  end.
Definition load_wallets : Mm unit :=
  do mints <- wal (Wallet.store st_get_mints) ;
  do all_proofs <- wal (Wallet.store (st_get_proofs None (Some (mw_unit self)) None None)) ;
  load_mints all_proofs (map_to_list mints).*1.

(** ** Sums over the wallets *)

Definition balance_of (e : Entry) : Mm N := wal (total_balance (en_wallet e)).

Fixpoint collect_wallets {A} (f : Entry -> Mm A) (l : list (MintUrl * Entry)) (acc : gmap MintUrl A) : Mm (gmap MintUrl A) :=
  match l with
  | [] => mret acc
  | (mint_url, e) :: l => do a <- f e ; collect_wallets f l (<[mint_url := a]> acc)
  end.
Definition get_balances : Mm (gmap MintUrl N) := do l <- entries ; collect_wallets balance_of l ∅.
Definition list_proofs : Mm (gmap MintUrl (list Proof)) :=
  do l <- entries ; collect_wallets (fun e => wal (get_unspent_proofs (en_wallet e))) l ∅.

Fixpoint all_transactions (direction : option TransactionDirection) (l : list (MintUrl * Entry)) (acc : list Transaction)
    : Mm (list Transaction) :=
  match l with
  | [] => mret acc
  | (_, e) :: l => do t <- wal (list_transactions (en_wallet e) direction) ; all_transactions direction l (acc ++ t)
  end.
Definition list_transactions (direction : option TransactionDirection) : Mm (list Transaction) :=
  do l <- entries ; do t <- all_transactions direction l [] ; mret (merge_sort tx_before t).

(** [total += f(wallet)?] over the wallets. *)
Fixpoint sum_wallets (f : MintUrl -> Entry -> Mm N) (l : list (MintUrl * Entry)) (total : N) : Mm N :=
  match l with
  | [] => mret total
  | (mint_url, e) :: l => do a <- f mint_url e ; do total <- amts (Amount.add total a) ; sum_wallets f l total
  end.
Definition total_balance : Mm N := do l <- entries ; sum_wallets (fun _ => balance_of) l 0.

(** ** Operations of one wallet *)

Definition mint_quote_at (ch : Chance) (key : nat) (e : Entry) (amount : N) (description : option string) : Mm WMintQuote :=
  wal (WalletPay.mint_quote (MC:=en_client e) (en_wallet e) (ch_now ch) (ch_key ch key) amount description).
Definition melt_quote_at (ch : Chance) (e : Entry) (request : string) (options : option MintTypes.MeltOptions) : Mm WMeltQuote :=
  wal (WalletPay.melt_quote (MC:=en_client e) invoice_amount (en_wallet e) (ch_now ch) request options).
Definition melt_at (ch : Chance) (n : nat) (e : Entry) (quote_id : string) : Mm Melted :=
  wal (WalletPay.melt (MC:=en_client e) iter iter_fees fuel (en_wallet e) (ch_now ch) (ch_random ch n) quote_id).
Definition mint_at (ch : Chance) (n : nat) (e : Entry) (quote_id : string) (conditions : option SpendingConditions) : Mm (list Proof) :=
  wal (WalletPay.mint (MC:=en_client e) fuel (en_wallet e) (ch_now ch) (ch_random ch n) quote_id Amount.STNone conditions).
Definition prepare_send_at (ch : Chance) (e : Entry) (amount : N) (opts : SendOptions) : Mm PreparedSend :=
  wal (WalletPay.prepare_send (MC:=en_client e) iter iter_fees fuel (en_wallet e) (ch_now ch) amount opts).
Definition swap_at (ch : Chance) (n : nat) (e : Entry) (amount : option N) (proofs : list Proof) (conditions : option SpendingConditions)
    : Mm (option (list Proof)) :=
  wal (Wallet.swap (MC:=en_client e) fuel (en_wallet e) (ch_now ch) (ch_random ch n) amount Amount.STNone proofs conditions false).

Definition mint_quote (ch : Chance) (mint_url : MintUrl) (amount : N) (description : option string) : Mm WMintQuote :=
  do e <- find_wallet mint_url ; mint_quote_at ch 0 e amount description.
Definition check_mint_quote (mint_url : MintUrl) (quote_id : string) : Mm WMintQuote :=
  do e <- find_wallet mint_url ;
  do_ wal (WalletPay.mint_quote_state (MC:=en_client e) quote_id) ;
  do found <- wal (Wallet.store (st_get_mint_quote quote_id)) ;
  mlift (ok_or (Failed (WalletFailed UnknownQuote)) found).
Definition check_quotes_at (ch : MintUrl -> Chance) (mint_url : MintUrl) (e : Entry) : Mm N :=
  wal (WalletPay.check_all_mint_quotes (MC:=en_client e) fuel (en_wallet e) (ch_now (ch mint_url)) (ch_random (ch mint_url) 0)).
Definition check_all_mint_quotes (ch : MintUrl -> Chance) (mint_url : option MintUrl) : Mm N :=
  match mint_url with
  | Some mint_url => do e <- find_wallet mint_url ; check_quotes_at ch mint_url e
  | None => do l <- entries ; sum_wallets (check_quotes_at ch) l 0
  end.
Definition mint (ch : Chance) (mint_url : MintUrl) (quote_id : string) (conditions : option SpendingConditions) : Mm (list Proof) :=
  do e <- find_wallet mint_url ; mint_at ch 0 e quote_id conditions.
Definition restore (ch : Chance) (batches : nat) (mint_url : MintUrl) : Mm N :=
  do e <- find_wallet mint_url ; wal (Wallet.restore (MC:=en_client e) (en_wallet e) (ch_now ch) batches).
Definition verify_token_p2pk (ch : Chance) (token : Token) (conditions : SpendingConditions) : Mm unit :=
  do mint_url <- tok (TokenOps.mint_url token) ;
  do e <- find_wallet mint_url ;
  pay (WalletPay.verify_token_p2pk (MC:=en_client e) (en_wallet e) (ch_now ch) token conditions).
Definition verify_token_dleq (ch : Chance) (token : Token) : Mm unit :=
  do mint_url <- tok (TokenOps.mint_url token) ;
  do e <- find_wallet mint_url ;
  pay (WalletPay.verify_token_dleq (MC:=en_client e) (en_wallet e) (ch_now ch) token).
Definition melt_quote (ch : Chance) (mint_url : MintUrl) (bolt11 : string) (options : option MintTypes.MeltOptions) : Mm WMeltQuote :=
  do e <- find_wallet mint_url ; melt_quote_at ch e bolt11 options.
Definition melt_with_mint (ch : Chance) (mint_url : MintUrl) (quote_id : string) : Mm Melted :=
  do e <- find_wallet mint_url ; melt_at ch 0 e quote_id.
Definition fetch_mint_info (ch : Chance) (mint_url : MintUrl) : Mm (option MintInfo) :=
  do e <- find_wallet mint_url ; wal (Wallet.fetch_mint_info (MC:=en_client e) (en_wallet e) (ch_now ch)).

(** ** Transfers *)

Definition handle_exact_receive_transfer (ch : Chance) (source target : Entry) (amount source_balance : N) : Mm (WMintQuote * WMeltQuote) :=
  do mint_quote <- mint_quote_at ch 0 target amount None ;
  do melt_quote <- melt_quote_at ch source (wq_request mint_quote) None ;
  do total_needed <- amts (Amount.add (wm_amount melt_quote) (wm_fee_reserve melt_quote)) ;
  if source_balance <? total_needed then mfail insufficient_funds else mret (mint_quote, melt_quote).

Definition handle_full_balance_transfer (ch : Chance) (source target : Entry) (source_balance : N) : Mm (WMintQuote * WMeltQuote) :=
  if source_balance =? 0 then mfail insufficient_funds
  else
    do dummy_mint_quote <- mint_quote_at ch 0 target source_balance None ;
    do probe_melt_quote <- melt_quote_at ch source (wq_request dummy_mint_quote) None ;
    do receive_amount <- mlift (ok_or insufficient_funds (Amount.checked_sub source_balance (wm_fee_reserve probe_melt_quote))) ;
    if receive_amount =? 0 then mfail insufficient_funds
    else
      do final_mint_quote <- mint_quote_at ch 1 target receive_amount None ;
      do final_melt_quote <- melt_quote_at ch source (wq_request final_mint_quote) None ;
      mret (final_mint_quote, final_melt_quote).

(** The next event of the target's subscription. *)
Definition next_event (target : Entry) (quote_id : string) : Mm Recv := fun s =>
  match recv (en_subscription target) (wl_mint_url (en_wallet target)) quote_id (cl_mint (ms_client s)) with
  | (ev, w) => (Ok ev, mkState (ms_wallets s) (mkClient (cl_store (ms_client s)) w))
  end.

(** Notices are read until one says that the quote is paid; each starts the time
    limit again. *)
Fixpoint wait_and_mint (n : nat) (ch : Chance) (source target : Entry) (quote : WMintQuote) : Mm unit :=
  match n with
  | O => mfail TransferDiverges
  | Datatypes.S n =>
      do ev <- next_event target (wq_id quote) ;
      match ev with
      | Notice (Some MintTypes.QPaid) => do_ mint_at ch 1 target (wq_id quote) None ; mret tt
      | Notice _ => wait_and_mint n ch source target quote
      | Closed | Elapsed =>
          mfail (TransferTimeout (wl_mint_url (en_wallet source)) (wl_mint_url (en_wallet target)) (default 0 (wq_amount quote)))
      end
  end.

Definition execute_transfer (ch : Chance) (source target : Entry) (final_mint_quote : WMintQuote) (final_melt_quote : WMeltQuote)
    : Mm (Melted * N) :=
  do melted <- melt_at ch 0 source (wm_id final_melt_quote) ;
  do_ wait_and_mint rounds ch source target final_mint_quote ;
  mret (melted, default 0 (wq_amount final_mint_quote)).

Definition transfer (ch : Chance) (source_mint_url target_mint_url : MintUrl) (mode : TransferMode) : Mm TransferResult :=
  do source <- find_wallet source_mint_url ;
  do target <- find_wallet target_mint_url ;
  do source_balance_initial <- balance_of source ;
  do quotes <- (match mode with
                | ExactReceive amount => handle_exact_receive_transfer ch source target amount source_balance_initial
                | FullBalance => handle_full_balance_transfer ch source target source_balance_initial
                end) ;
  do executed <- execute_transfer ch source target quotes.1 quotes.2 ;
  do source_balance_final <- balance_of source ;
  do target_balance_final <- balance_of target ;
  do amount_sent <- amts (Amount.sub source_balance_initial source_balance_final) ;
  mret (mkTransferResult amount_sent executed.2 (md_fee_paid executed.1) source_balance_final target_balance_final).

(** ** Tasks *)

(** A task that has ended, with its outcome. *)
Definition task {A} (c : Mm A) : Mm (res MmError A) := fun s => match c s with (r, s') => (Ok r, s') end.
Fixpoint run_tasks {A} (l : list (nat * Mm A)) : Mm (gmap nat (res MmError A)) :=
  match l with
  | [] => mret ∅
  | (i, c) :: l => do r <- task c ; do m <- run_tasks l ; mret (<[i := r]> m)
  end.
(** [task.await]: a task that panicked is an error. *)
Definition join {A} (r : option (res MmError A)) : res MmError A :=
  match r with Some (Ok a) => Ok a | Some (Err e) => Err e | _ => Err TaskPanicked end.
(** All tasks run, in the order of the runtime; they are awaited in the order in
    which they were spawned, until one has failed. *)
Definition await_all {A} (tasks : list (Mm A)) : Mm (list (res MmError A)) :=
  let numbered := zip (seq 0 (length tasks)) tasks in
  do m <- run_tasks (order (nat * Mm A) numbered) ;
  mret ((fun i => join (m !! i)) <$> seq 0 (length tasks)).

(** What each source sends: all it has, until nothing remains. *)
Fixpoint plan_transfers (remaining_amount : N) (source_mints : list (MintUrl * N)) : list (MintUrl * N) :=
  match source_mints with
  | [] => []
  | (source_mint_url, available_balance) :: source_mints =>
      if remaining_amount =? 0 then []
      else
        let transfer_amount := N.min remaining_amount available_balance in
        (source_mint_url, transfer_amount) :: plan_transfers (remaining_amount - transfer_amount) source_mints
  end.
Fixpoint sum_transfers (l : list (res MmError N)) (total_transferred : N) : Mm N :=
  match l with
  | [] => mret total_transferred
  | r :: l => do a <- mlift r ; do total_transferred <- amts (Amount.add total_transferred a) ; sum_transfers l total_transferred
  end.
Definition transfer_task (ch : MintUrl -> Chance) (target_mint_url : MintUrl) (part : MintUrl * N) : Mm N :=
  do result <- transfer (ch part.1) part.1 target_mint_url (ExactReceive part.2) ; mret (tf_amount_received result).
Definition transfer_parallel (ch : MintUrl -> Chance) (target_mint_url : MintUrl) (total_amount : N) (source_mints : list (MintUrl * N))
    : Mm unit :=
  do results <- await_all (transfer_task ch target_mint_url <$> plan_transfers total_amount source_mints) ;
  do_ sum_transfers results 0 ;
  mret tt.

(** ** Sending *)

(** The mints that value can be moved from. *)
Definition may_send (opts : MultiMintSendOptions) (mint_url source_mint_url : MintUrl) : bool :=
  negb (bool_decide (source_mint_url = mint_url)) && negb (bool_decide (source_mint_url ∈ mso_excluded_mints opts)) &&
  (is_nil (mso_allowed_mints opts) || bool_decide (source_mint_url ∈ mso_allowed_mints opts)).
Fixpoint find_sources (opts : MultiMintSendOptions) (mint_url : MintUrl) (l : list (MintUrl * Entry)) (available_for_transfer : N)
    (source_mints : list (MintUrl * N)) : Mm (N * list (MintUrl * N)) :=
  match l with
  | [] => mret (available_for_transfer, source_mints)
  | (source_mint_url, e) :: l =>
      if may_send opts mint_url source_mint_url then
        do balance <- balance_of e ;
        if 0 <? balance then
          do available_for_transfer <- amts (Amount.add available_for_transfer balance) ;
          find_sources opts mint_url l available_for_transfer (source_mints ++ [(source_mint_url, balance)])
        else find_sources opts mint_url l available_for_transfer source_mints
      else find_sources opts mint_url l available_for_transfer source_mints
  end.

Definition prepare_send (ch : Chance) (task_ch : MintUrl -> Chance) (mint_url : MintUrl) (amount : N) (opts : MultiMintSendOptions)
    : Mm PreparedSend :=
  do target_wallet <- find_wallet mint_url ;
  do target_balance <- balance_of target_wallet ;
  if amount <=? target_balance then prepare_send_at ch target_wallet amount (mso_send_options opts)
  else if negb (mso_allow_transfer opts) then mfail insufficient_funds
  else
    do transfer_needed <- amts (Amount.sub amount target_balance) ;
    do_ (match mso_max_transfer_amount opts with
         | Some max_transfer => if max_transfer <? transfer_needed then mfail insufficient_funds else mret tt
         | None => mret tt
         end) ;
    do l <- entries ;
    do found <- find_sources opts mint_url l 0 [] ;
    if found.1 <? transfer_needed then mfail insufficient_funds
    else
      do_ transfer_parallel task_ch mint_url transfer_needed found.2 ;
      do target_wallet <- find_wallet mint_url ;
      prepare_send_at ch target_wallet amount (mso_send_options opts).

(** ** Receiving *)

(** The proofs are taken by the wallet of their mint; when that fails, a mint
    that was added for a transfer is dropped again. *)
Definition receive_at (ch : Chance) (mint_url : MintUrl) (is_trusted : bool) (opts : MultiMintReceiveOptions) (token : Token) : Mm N :=
  do e <- find_wallet mint_url ;
  do url <- tok (TokenOps.mint_url token) ;
  do known <- wal (Wallet.store (st_get_mint_keysets url)) ;
  do keysets_info <- (match known with
                      | Some keysets_info => mret keysets_info
                      | None => wal (load_mint_keysets (MC:=en_client e) (en_wallet e) (ch_now ch))
                      end) ;
  do proofs <- tok (TokenOps.proofs token keysets_info) ;
  do received <- mtry (wal (WalletPay.receive_proofs (MC:=en_client e) iter_keys fuel (en_wallet e) (ch_now ch) (ch_random ch 2) proofs
                    (mro_receive_options opts) (TokenOps.memo token))) ;
  match received with
  | inl amount => mret amount
  | inr err =>
      do_ (if negb is_trusted && bool_decide (is_Some (mro_transfer_to_mint opts)) then remove_mint mint_url else mret tt) ;
      mfail err
  end.

(** The whole balance is moved to the target; to have nothing to move is no
    failure. *)
Definition move_out (ch : Chance) (mint_url target_mint : MintUrl) : Mm unit :=
  do known <- has_mint target_mint ;
  if negb known then do_ remove_mint mint_url ; mfail (UnknownMint target_mint)
  else
    do transfer_result <- mtry (transfer ch mint_url target_mint FullBalance) ;
    do_ (match transfer_result with
         | inl _ => mret tt
         | inr e => if is_insufficient e then mret tt else mfail e
         end) ;
    remove_mint mint_url.

Definition receive (ch : Chance) (encoded_token : string) (opts : MultiMintReceiveOptions) : Mm N :=
  do token <- tok (TokenOps.from_str encoded_token) ;
  let unit := default Amount.Sat (TokenOps.unit token) in
  do_ mlift (ensure (bool_decide (unit = mw_unit self)) (MultiMintCurrencyUnitMismatch (mw_unit self) unit)) ;
  do mint_url <- tok (TokenOps.mint_url token) ;
  do is_trusted <- has_mint mint_url ;
  do_ mlift (ensure (is_trusted || mro_allow_untrusted opts) (UnknownMint mint_url)) ;
  do_ (if is_trusted : bool then mret tt else add_mint mint_url) ;
  do amount_received <- receive_at ch mint_url is_trusted opts token ;
  do_ (match mro_transfer_to_mint opts with
       | Some target_mint => if is_trusted then mret tt else move_out ch mint_url target_mint
       | None => mret tt
       end) ;
  mret amount_received.

(** ** Paying *)

(** The loop that spawns a task for each item stops at an unknown mint; the
    tasks spawned before run. *)
Fixpoint spawn {A B} (wallets : gmap MintUrl Entry) (f : Entry -> A -> Mm B) (l : list (MintUrl * A)) : list (Mm B) * option MmError :=
  match l with
  | [] => ([], None)
  | (mint_url, a) :: l =>
      match wallets !! mint_url with
      | None => ([], Some (UnknownMint mint_url))
      | Some e => let '(tasks, err) := spawn wallets f l in (f e a :: tasks, err)
      end
  end.
Definition in_parallel {A B} (f : Entry -> A -> Mm B) (l : list (MintUrl * A)) : Mm (list (MintUrl * B)) :=
  do wallets <- mgets ms_wallets ;
  let '(tasks, err) := spawn wallets f l in
  do results <- await_all tasks ;
  do_ mlift (match err with Some e => Err e | None => Ok tt end) ;
  do values <- mlift (collect (fun r => r) results) ;
  mret (zip l.*1 values).
Definition mpp_melt_quote (ch : Chance) (bolt11 : string) (mint_amounts : list (MintUrl * N)) : Mm (list (MintUrl * WMeltQuote)) :=
  in_parallel (fun e amount => melt_quote_at ch e bolt11 (Some (MintTypes.Mpp (u64_wrapping_mul amount 1000)))) mint_amounts.
Definition mpp_melt (ch : MintUrl -> Chance) (quotes : list (MintUrl * string)) : Mm (list (MintUrl * Melted)) :=
  in_parallel (fun e quote_id => melt_at (ch (wl_mint_url (en_wallet e))) 0 e quote_id) quotes.

Fixpoint eligible_wallets (amount : N) (l : list (MintUrl * Entry)) : Mm (list Entry) :=
  match l with
  | [] => mret []
  | (_, e) :: l =>
      do balance <- balance_of e ;
      do rest <- eligible_wallets amount l ;
      mret (if amount <=? balance then e :: rest else rest)
  end.
(** The quote with the lowest reserve of those within the limit, the first one
    when equal. *)
Definition better (max_fee : option N) (quote : WMeltQuote) (best : option (WMeltQuote * Entry)) : bool :=
  match max_fee with Some m => wm_fee_reserve quote <=? m | None => true end &&
  match best with Some (b, _) => wm_fee_reserve quote <? wm_fee_reserve b | None => true end.
Fixpoint best_quote (ch : Chance) (bolt11 : string) (options : option MintTypes.MeltOptions) (max_fee : option N) (l : list Entry)
    (best : option (WMeltQuote * Entry)) : Mm (option (WMeltQuote * Entry)) :=
  match l with
  | [] => mret best
  | e :: l =>
      do r <- mtry (melt_quote_at ch e bolt11 options) ;
      best_quote ch bolt11 options max_fee l
        (match r with inl quote => if better max_fee quote best then Some (quote, e) else best | inr _ => best end)
  end.
Definition melt (ch : Chance) (bolt11 : string) (options : option MintTypes.MeltOptions) (max_fee : option N) : Mm Melted :=
  do invoice <- mlift (ok_or (Failed (WalletFailed InvalidInvoice)) (invoice_amount bolt11)) ;
  do msats <- mlift (ok_or (Failed (WalletFailed InvoiceAmountUndefined)) invoice) ;
  do l <- entries ;
  do eligible <- eligible_wallets (msats / 1000) l ;
  do_ mlift (ensure (negb (is_nil eligible)) insufficient_funds) ;
  do best <- best_quote ch bolt11 options max_fee eligible None ;
  match best with
  | Some (quote, e) => melt_at ch 0 e (wm_id quote)
  | None => mfail insufficient_funds
  end.

(** ** Swapping *)

Fixpoint swap_first (ch : Chance) (amount : option N) (conditions : option SpendingConditions) (l : list (MintUrl * Entry))
    : Mm (option (list Proof)) :=
  match l with
  | [] => mfail insufficient_funds
  | (_, e) :: l =>
      do balance <- balance_of e ;
      if 0 <? balance then
        do proofs <- wal (get_unspent_proofs (en_wallet e)) ;
        if negb (is_nil proofs) then swap_at ch 0 e amount proofs conditions
        else swap_first ch amount conditions l
      else swap_first ch amount conditions l
  end.
Definition swap (ch : Chance) (amount : option N) (conditions : option SpendingConditions) : Mm (option (list Proof)) :=
  do l <- entries ; swap_first ch amount conditions l.

(** A swap that fails is left out of the sum. *)
Definition consolidate_at (ch : MintUrl -> Chance) (mint_url : MintUrl) (e : Entry) : Mm N :=
  do proofs <- wal (get_unspent_proofs (en_wallet e)) ;
  if Nat.ltb 1 (length proofs) then
    do proofs_amount <- wal (Wallet.total proofs) ;
    do r <- mtry (swap_at (ch mint_url) 0 e (Some proofs_amount) proofs None) ;
    mret (match r with inl _ => proofs_amount | inr _ => 0 end)
  else mret 0.
Definition consolidate (ch : MintUrl -> Chance) : Mm N := do l <- entries ; sum_wallets (consolidate_at ch) l 0.

End defs.
End MultiMint.
