(* ===== verification/MultiMintFacts.v ===== *)
(** * Properties of the wallet of several mints

    Which mints are trusted after an operation, which mints value is moved from
    and how much of it, what a transfer delivers, when it ends, and what is paid
    when several mints pay together. *)
From stdpp Require Import base numbers list sorting strings gmap.
From S2P Require Import Prelude Amount Hex Nuts KeysetId Bdhke Conditions Spending States MintDb Mint MintFacts Keysets Melt Secrets Selection MintUrl WalletDb Token Posts WalletStore Wallet WalletFacts WalletPay WalletPayFacts MultiMint.
Import Nut00 KeysetId Bdhke Nut11 Keysets Secrets WalletDb Token WalletStore Wallet WalletPay MintFacts WalletFacts MultiMint.

Local Open Scope N_scope.
Local Open Scope res_scope.
Local Open Scope mint_scope.

Module MultiMintFacts.

(** ** The plan of a transfer *)

Lemma plan_transfers_spec l : forall n, Forall (fun p => 0 < p.2) l ->
  Forall (fun p => 0 < p.2) (plan_transfers n l) /\ (plan_transfers n l).*1 `prefix_of` l.*1 /\
  Forall2 (fun p q => p.2 <= q.2) (plan_transfers n l) (take (length (plan_transfers n l)) l) /\
  sumN (plan_transfers n l).*2 = N.min n (sumN l.*2).
Proof.
  induction l as [|[u b] l IH]; intros n Hl; cbn [plan_transfers].
  - cbn. split_and!; [constructor|done|constructor|lia].
  - apply Forall_cons in Hl as [Hb Hl]. cbn in Hb. destruct (N.eqb_spec n 0) as [->|Hn].
    + split_and!; [constructor|apply prefix_nil|constructor|]. cbn. lia.
    + destruct (IH (n - N.min n b) Hl) as (H1 & H2 & H3 & H4). split_and!.
      * constructor; [cbn; lia|done].
      * cbn. by apply prefix_cons.
      * cbn. constructor; [cbn; lia|done].
      * cbn [fmap list_fmap snd]. rewrite !sumN_cons, H4. lia.
Qed.

Section facts.
Context {CR : Crypto} {CV : Curve CR} {BP : Bip32 CR} {KDF : SeedKdf CR BP} {SD : Serde} {PD : EqDecision Proof}.
Context {MintInfo W StoreErr S NetErr : Type} {ST : WalletStore CR MintInfo W StoreErr}.
Context {MI : MintInfoView MintInfo} {TC : TokenCodec CR}.
Context {WV : WalletView CR W} {SL : WalletStoreLaws CR MintInfo W StoreErr ST WV}.
Context (iter : list Proof -> list Proof) (iter_fees : Selection.KeysetFeeAndAmounts -> Selection.KeysetFeeAndAmounts).
Context (iter_keys : list seckey -> list seckey) (invoice_amount : string -> option (option N)).
Context (fuel rounds : nat) (order : forall A : Type, list A -> list A).
Abbreviation Conn := (WalletConnector CR MintInfo S NetErr).
Context (http : MintUrl -> Conn) (recv : Conn -> MintUrl -> string -> S -> Recv * S).
Abbreviation Multi := (MultiMintWallet (CR:=CR) (MintInfo:=MintInfo) (S:=S) (NetErr:=NetErr)).
Context (self : Multi).
Abbreviation State := (State (CR:=CR) (MintInfo:=MintInfo) (W:=W) (S:=S) (NetErr:=NetErr)).
Abbreviation Entry := (Entry (CR:=CR) (MintInfo:=MintInfo) (S:=S) (NetErr:=NetErr)).
Abbreviation MmError := (MmError (StoreErr:=StoreErr) (NetErr:=NetErr)).
Abbreviation MM A := (M State MmError A).

(** ** Frames *)

(** The set of wallets is left alone; so are the proofs of the store. *)
Definition same_wallets : relation State := fun s s' => ms_wallets s' = ms_wallets s.
#[local] Instance same_wallets_preorder : PreOrder same_wallets.
Proof. split; [by intros s|]. unfold same_wallets. intros s1 s2 s3 H1 H2. congruence. Qed.
Definition quiet_m : relation State := fun s s' => same_wallets s s' /\ quiet_c (ms_client s) (ms_client s').
#[local] Instance quiet_m_preorder : PreOrder quiet_m.
Proof. split; [by intros s|]. intros s1 s2 s3 [H1 H2] [H3 H4]. split; [by etrans|by etrans]. Qed.

Lemma pay_same {A} (c : Pm (W:=W) (S:=S) A) : keeps same_wallets (pay c : MM A).
Proof. intros s. unfold pay, mmap_err, same_wallets. by destruct (c (ms_client s)). Qed.
Lemma wal_same {A} (c : Wm (W:=W) (S:=S) A) : keeps same_wallets (wal c : MM A).
Proof. apply pay_same. Qed.
Lemma wal_quiet {A} (c : Wm (W:=W) (S:=S) A) : keeps quiet_c c -> keeps quiet_m (wal c : MM A).
Proof.
  intros H s. split; [apply wal_same|]. specialize (H (ms_client s)). unfold wal, pay, wallet, mmap_err.
  destruct (c (ms_client s)) as [r cl]. done.
Qed.
Lemma lift_same {A} (r : res MmError A) : keeps same_wallets (mlift r : MM A).
Proof. by intros s. Qed.
Lemma next_event_same e i : keeps same_wallets (next_event recv e i : MM _).
Proof. intros s. unfold next_event, same_wallets. by destruct (recv _ _ _ _). Qed.
#[local] Hint Resolve pay_same wal_same lift_same next_event_same : keeps.
#[local] Hint Extern 2 (keeps same_wallets (mint_quote_at _ _ _ _ _)) => apply wal_same : keeps.
#[local] Hint Extern 2 (keeps same_wallets (melt_quote_at _ _ _ _ _)) => apply wal_same : keeps.
#[local] Hint Extern 2 (keeps same_wallets (melt_at _ _ _ _ _ _ _)) => apply wal_same : keeps.
#[local] Hint Extern 2 (keeps same_wallets (mint_at _ _ _ _ _ _)) => apply wal_same : keeps.
#[local] Hint Extern 2 (keeps same_wallets (prepare_send_at _ _ _ _ _ _ _)) => apply wal_same : keeps.
#[local] Hint Extern 2 (keeps same_wallets (swap_at _ _ _ _ _ _ _)) => apply wal_same : keeps.
#[local] Hint Extern 2 (keeps same_wallets (balance_of _)) => apply wal_same : keeps.
#[local] Hint Extern 2 (keeps same_wallets (amts _)) => apply lift_same : keeps.
#[local] Hint Extern 2 (keeps same_wallets (tok _)) => apply lift_same : keeps.

Lemma find_wallet_same u : keeps same_wallets (find_wallet u : MM _).
Proof. unfold find_wallet. keep. Qed.
Lemma entries_same : keeps same_wallets (entries : MM _).
Proof. unfold entries. keep. Qed.
Lemma has_mint_same u : keeps same_wallets (has_mint u : MM _).
Proof. unfold has_mint. keep. Qed.
#[local] Hint Resolve find_wallet_same entries_same has_mint_same : keeps.

Lemma wait_and_mint_same n ch e e' q : keeps same_wallets (wait_and_mint fuel recv n ch e e' q : MM _).
Proof. induction n as [|n IH]; cbn [wait_and_mint]; keep. Qed.
#[local] Hint Resolve wait_and_mint_same : keeps.
Lemma transfer_same ch u u' m : keeps same_wallets (transfer iter iter_fees invoice_amount fuel rounds recv ch u u' m : MM _).
Proof. unfold transfer, handle_exact_receive_transfer, handle_full_balance_transfer, execute_transfer. keep. Qed.
#[local] Hint Resolve transfer_same : keeps.

Lemma task_same {A} (c : MM A) : keeps same_wallets c -> keeps same_wallets (task c).
Proof. intros H s. specialize (H s). unfold task. by destruct (c s). Qed.
Lemma run_tasks_same {A} (l : list (nat * MM A)) : Forall (fun t => keeps same_wallets t.2) l -> keeps same_wallets (run_tasks l).
Proof.
  induction 1 as [|[i c] l H _ IH]; cbn [run_tasks]; [keep|]. apply keeps_seq; [apply _|by apply task_same|intros r]. keep.
Qed.
Lemma await_all_same {A} (tasks : list (MM A)) (Horder : forall B (l : list B), order B l ≡ₚ l) :
  Forall (keeps same_wallets) tasks -> keeps same_wallets (await_all order tasks).
Proof.
  intros H. unfold await_all. apply keeps_seq; [apply _| |intros m; keep]. apply run_tasks_same. rewrite Horder.
  apply Forall_forall. intros [i c] Hin. apply elem_of_zip_r in Hin. cbn. by eapply Forall_forall in H.
Qed.

(** ** Results of wallet operations *)

Lemma lift_seq_run {A B} (x : res MmError A) (k : A -> MM B) (s s' : State) r :
  mseq (mlift x) k s = (r, s') -> (exists a, x = Ok a /\ k a s = (r, s')) \/ s' = s.
Proof. unfold mseq, mlift. destruct x; [eauto|..]; intros [= _ <-]; by right. Qed.
Lemma wal_Ok {A} (c : Wm (W:=W) (S:=S) A) (s s' : State) a : (wal c : MM A) s = (Ok a, s') ->
  c (ms_client s) = (Ok a, ms_client s') /\ ms_wallets s' = ms_wallets s.
Proof.
  unfold wal, pay, wallet, mmap_err. destruct (c (ms_client s)) as [[x| |] cl]; cbn; [|done..]. by intros [= <- <-].
Qed.
Lemma wal_Err {A} (c : Wm (W:=W) (S:=S) A) (s s' : State) e : (wal c : MM A) s = (Err e, s') -> exists e', e = Failed (WalletFailed e').
Proof. unfold wal, pay, wallet, mmap_err. destruct (c (ms_client s)) as [[x|x|] cl]; cbn; [done| |done]. intros [= <- <-]. eauto. Qed.

Lemma mint_quote_at_Ok ch k (e : Entry) n d (s s' : State) q : (mint_quote_at ch k e n d : MM _) s = (Ok q, s') -> wq_amount q = Some n.
Proof.
  intros [H _]%wal_Ok. unfold WalletPay.mint_quote in H. apply mseq_Ok in H as (? & ? & _ & H). apply mseq_Ok in H as (? & ? & _ & H).
  apply mseq_Ok in H as (r & ? & _ & H). apply mseq_Ok in H as (? & ? & _ & [= <- _]). done.
Qed.

Lemma find_wallet_Ok u (s s' : State) e : (find_wallet u : MM _) s = (Ok e, s') -> ms_wallets s !! u = Some e /\ s' = s.
Proof. unfold find_wallet. intros (o & s1 & [= <- <-] & [H ->]%mlift_Ok)%mseq_Ok. split; [|done]. destruct (ms_wallets s !! u); [|done]. by injection H as ->. Qed.

(** The wait ends with the proofs of the quote. *)
Lemma wait_and_mint_Ok n ch (e e' : Entry) q : forall (s s' : State), (wait_and_mint fuel recv n ch e e' q : MM _) s = (Ok tt, s') ->
  exists s1 l, (mint_at fuel ch 1 e' (wq_id q) None : MM _) s1 = (Ok l, s').
Proof.
  induction n as [|n IH]; intros s s'; cbn [wait_and_mint]; [done|]. intros (ev & s1 & _ & H)%mseq_Ok.
  destruct ev as [[[]|]| |]; try done; try (by apply IH in H). apply mseq_Ok in H as (l & s2 & H & [= <-]). eauto.
Qed.

(** A transfer of an exact amount that returns has melted at the source a quote
    that its balance covered, fee reserve included, and has minted at the target
    a quote over exactly the amount asked for. *)
Theorem transfer_delivers ch source target n (s s' : State) r
    (Hrun : (transfer iter iter_fees invoice_amount fuel rounds recv ch source target (ExactReceive n) : MM _) s = (Ok r, s')) :
  tf_amount_received r = n /\
  exists es et mq eq m balance l (s1 s2 s3 s4 : State),
    ms_wallets s !! source = Some es /\ ms_wallets s !! target = Some et /\
    (balance_of es : MM _) s = (Ok balance, s1) /\ wq_amount mq = Some n /\ wm_amount eq + wm_fee_reserve eq <= balance /\
    (melt_at iter iter_fees fuel ch 0 es (wm_id eq) : MM _) s2 = (Ok m, s3) /\ tf_fees_paid r = md_fee_paid m /\
    (exists s5, (mint_at fuel ch 1 et (wq_id mq) None : MM _) s4 = (Ok l, s5)).
Proof.
  unfold transfer in Hrun. apply mseq_Ok in Hrun as (es & ? & [Hes ->]%find_wallet_Ok & H).
  apply mseq_Ok in H as (et & ? & [Het ->]%find_wallet_Ok & H). apply mseq_Ok in H as (b & s1 & Hb & H).
  apply mseq_Ok in H as ([mq eq] & s2 & Hq & H). unfold handle_exact_receive_transfer in Hq.
  apply mseq_Ok in Hq as (mq' & s3 & Hmq & Hq). apply mseq_Ok in Hq as (eq' & s4 & _ & Hq).
  apply mseq_Ok in Hq as (t & s5 & [Ht ->]%mlift_Ok & Hq). destruct (N.ltb_spec b t) as [|Hle]; [done|]. injection Hq as -> -> ->.
  apply mseq_Ok in H as ([m x] & s6 & He & H). unfold execute_transfer in He. apply mseq_Ok in He as (m' & s7 & Hm & He).
  apply mseq_Ok in He as ([] & s8 & (s9 & l & Hl)%wait_and_mint_Ok & [= -> <- <-]).
  apply mseq_Ok in H as (b1 & s10 & _ & H). apply mseq_Ok in H as (b2 & s11 & _ & H). apply mseq_Ok in H as (sent & s12 & _ & [= <- _]).
  pose proof (mint_quote_at_Ok _ _ _ _ _ _ _ _ Hmq) as Ha. cbn in *. rewrite Ha. split; [done|].
  unfold Amount.add, Amount.checked_add, u64_checked_add in Ht. destruct (_ <=? _); [|done]. injection Ht as <-.
  exists es, et, mq, eq, m, b, l, s1, s2, s7, s9. split_and!; eauto.
Qed.

(** ** Which mints are trusted *)

Abbreviation receive := (receive iter iter_fees iter_keys invoice_amount fuel rounds http recv self).
Abbreviation move_out := (move_out iter iter_fees invoice_amount fuel rounds recv).
Abbreviation receive_at := (receive_at iter_keys fuel).

(** The wallet of a URL is kept or dropped, and no other. *)
Definition dropping (u : MintUrl) : relation State := fun s s' => ms_wallets s' = ms_wallets s \/ ms_wallets s' = delete u (ms_wallets s).
#[local] Instance dropping_preorder u : PreOrder (dropping u).
Proof.
  split; [by left|]. unfold dropping. intros s1 s2 s3 [H1|H1] [H2|H2]; rewrite H2, H1; [by left|by right..|].
  right. by rewrite delete_delete_eq.
Qed.
Lemma same_dropping {A} u (c : MM A) : keeps same_wallets c -> keeps (dropping u) c.
Proof. apply keeps_weaken. by left. Qed.
Lemma remove_mint_dropping u : keeps (dropping u) (remove_mint u : MM _).
Proof. intros s. by right. Qed.
#[local] Hint Resolve same_dropping remove_mint_dropping : keeps.

Lemma receive_at_trusted ch u opts t : keeps same_wallets (receive_at ch u true opts t : MM _).
Proof. unfold MultiMint.receive_at. keep. Qed.
Lemma receive_at_dropping ch u b opts t : keeps (dropping u) (receive_at ch u b opts t : MM _).
Proof. unfold MultiMint.receive_at. keep; by apply same_dropping; keep. Qed.
Lemma move_out_dropping ch u v : keeps (dropping u) (move_out ch u v : MM _).
Proof. unfold MultiMint.move_out. keep; by apply same_dropping; keep. Qed.
Lemma move_out_Ok ch u v (s s' : State) : (move_out ch u v : MM _) s = (Ok tt, s') -> ms_wallets s' = delete u (ms_wallets s).
Proof.
  unfold MultiMint.move_out. intros (known & s1 & [= <- <-] & H)%mseq_Ok. destruct (negb _).
  { by apply mseq_Ok in H as (? & ? & _ & ?). }
  apply mseq_Ok in H as (r & s2 & H2 & H). apply (keeps_run same_wallets) in H2; [|keep]. rewrite <- H2.
  apply mseq_Ok in H as ([] & s3 & H3 & [= <-]). cbn. f_equal. apply (keeps_run same_wallets) in H3; [done|keep].
Qed.

(** The wallets that a token leaves behind: the set stays as it was, or the
    token's mint has joined it.  A mint that is not trusted joins only when the
    caller allows it, and does not stay when its value was to be moved to
    another mint and the call succeeded. *)
Theorem receive_keeps_trust ch encoded opts (s s' : State) r (Hrun : (receive ch encoded opts : MM _) s = (r, s')) :
  ms_wallets s' = ms_wallets s \/
  exists t u e, TokenOps.from_str encoded = Ok t /\ TokenOps.mint_url t = Ok u /\ ms_wallets s !! u = None /\
    mro_allow_untrusted opts = true /\ default Amount.Sat (TokenOps.unit t) = mw_unit self /\
    create_wallet_with_config (StoreErr:=StoreErr) http self u None = Ok e /\ ms_wallets s' = <[u := e]> (ms_wallets s) /\
    (is_Some (mro_transfer_to_mint opts) -> forall n, r <> Ok n).
Proof.
  unfold MultiMint.receive in Hrun. apply lift_seq_run in Hrun as [(t & Ht%map_err_Ok & H)| ->]; [|by left]. cbn zeta in H.
  apply lift_seq_run in H as [([] & Hu%ensure_Ok%bool_decide_eq_true & H)| ->]; [|by left].
  apply lift_seq_run in H as [(u & Hm%map_err_Ok & H)| ->]; [|by left].
  unfold has_mint at 1, mgets in H. unfold mseq at 1 in H. destruct (decide (is_Some (ms_wallets s !! u))) as [Hk|Hk].
  { rewrite bool_decide_true in H by done. left. change (same_wallets s s'). revert H. apply keeps_run. pose proof (receive_at_trusted ch u opts t). cbn [orb]. keep. }
  rewrite bool_decide_false in H by done. apply eq_None_not_Some in Hk. cbn [orb] in H.
  apply lift_seq_run in H as [([] & Ha%ensure_Ok & H)| ->]; [|by left]. unfold add_mint at 1 in H. rewrite <- seq_regroup in H.
  apply lift_seq_run in H as [(e & He & H)| ->]; [|by left]. unfold insert_wallet at 1, mmodify in H. unfold mseq at 1 in H.
  set (s1 := mkState (<[u := e]> (ms_wallets s)) (ms_client s)) in H.
  assert (Hd : dropping u s1 s').
  { revert H. apply keeps_run. pose proof (receive_at_dropping ch u false opts t). pose proof (move_out_dropping ch u). keep. }
  destruct Hd as [Hd|Hd]; rewrite Hd; cbn [s1 ms_wallets]; [right|left; by rewrite delete_insert_id].
  exists t, u, e. split_and!; [done..|]. intros [v Hv] n ->. rewrite Hv in H. apply mseq_Ok in H as (x & s2 & H2 & H).
  apply mseq_Ok in H as ([] & s3 & H3%move_out_Ok & [= _ <-]). pose proof (keeps_run _ _ _ _ _ (receive_at_dropping ch u false opts t) H2) as Hd2.
  assert (Hx : ms_wallets s3 !! u = None) by (rewrite H3; apply lookup_delete_eq). rewrite Hd in Hx. cbn in Hx. by rewrite lookup_insert_eq in Hx.
Qed.

(** When the value of such a mint can not be moved for want of funds (its fee
    reserve is as large as the balance, or its input fees are not covered) the
    mint is dropped all the same, with the value in it. *)
Theorem shortfall_drops_mint ch u v (s s1 : State) e (Hv : is_Some (ms_wallets s !! v))
    (Hmove : (transfer iter iter_fees invoice_amount fuel rounds recv ch u v FullBalance : MM _) s = (Err e, s1)) (He : is_insufficient e = true) :
  (move_out ch u v : MM _) s = (Ok tt, mkState (delete u (ms_wallets s)) (ms_client s1)).
Proof.
  assert (Hw : same_wallets s s1) by (revert Hmove; apply keeps_run, transfer_same).
  unfold MultiMint.move_out, mseq at 1, has_mint, mgets. rewrite bool_decide_true by done. cbn [negb]. unfold mseq at 1, mtry. rewrite Hmove.
  unfold mseq. rewrite He. unfold remove_mint, mmodify, mret. by rewrite Hw.
Qed.

(** ** Sending *)

Abbreviation prepare_send := (prepare_send iter iter_fees invoice_amount fuel rounds order recv).
Abbreviation transfer_parallel := (transfer_parallel iter iter_fees invoice_amount fuel rounds order recv).

Lemma balance_quiet (e : Entry) : keeps quiet_m (balance_of e : MM _).
Proof. apply wal_quiet. unfold Wallet.total_balance. apply store_quiet. auto with keeps. Qed.

Lemma find_sources_spec opts u l : forall n acc (s s' : State) r, (find_sources opts u l n acc : MM _) s = (Ok r, s') ->
  exists found, r.2 = acc ++ found /\ r.1 = n + sumN found.*2 /\ found.*1 `sublist_of` l.*1 /\
    Forall (fun p => may_send opts u p.1 = true /\ 0 < p.2) found.
Proof.
  induction l as [|[v e] l IH]; intros n acc s s' r; cbn [find_sources].
  { intros [= <- _]. exists []. cbn. rewrite app_nil_r. split_and!; [done|lia|done|constructor]. }
  destruct (may_send opts u v) eqn:Hm; [|intros (f & ? & ? & ? & ?)%IH; exists f; split_and!; [done..|by apply sublist_cons|done]].
  intros (b & s1 & _ & H)%mseq_Ok. destruct (N.ltb_spec 0 b); [|apply IH in H as (f & ? & ? & ? & ?); exists f; split_and!; [done..|by apply sublist_cons|done]].
  apply mseq_Ok in H as (n' & s2 & [Hn%map_err_Ok ->]%mlift_Ok & (f & H1 & H2 & H3 & H4)%IH).
  unfold Amount.add, Amount.checked_add, u64_checked_add in Hn. destruct (_ <=? _); [|done]. injection Hn as <-.
  exists ((v, b) :: f). rewrite H1, <- app_assoc. split_and!; [done|rewrite H2; cbn [fmap list_fmap snd]; rewrite sumN_cons; cbn; lia|by apply sublist_skip|by constructor].
Qed.

Lemma rows_keys_NoDup (m : gmap MintUrl Entry) : NoDup (rows text m).*1.
Proof. rewrite (rows_perm text m). apply NoDup_fst_map_to_list. Qed.

Lemma may_send_spec opts u v : may_send opts u v = true <->
  v <> u /\ (v ∉ mso_excluded_mints opts) /\ (mso_allowed_mints opts = [] \/ v ∈ mso_allowed_mints opts).
Proof.
  unfold may_send. rewrite !andb_true_iff, !negb_true_iff, !bool_decide_eq_false, orb_true_iff, bool_decide_eq_true.
  destruct (mso_allowed_mints opts); cbn; naive_solver.
Qed.

(** A send that needed value of other mints moved exactly what was missing, no
    more than the caller's limit, at most once from each mint, and only from mints
    that the caller allows and does not exclude. *)
Theorem send_transfers_within_limits ch tch u n opts (s s' : State) p (Hrun : (prepare_send ch tch u n opts : MM _) s = (Ok p, s')) :
  exists e b s1, ms_wallets s !! u = Some e /\ (balance_of e : MM _) s = (Ok b, s1) /\
    (n <= b \/
     (b < n /\ mso_allow_transfer opts = true /\ (forall m, mso_max_transfer_amount opts = Some m -> n - b <= m) /\
      exists sources s2 s3, (transfer_parallel tch u (n - b) sources : MM _) s2 = (Ok tt, s3) /\
        let plan := plan_transfers (n - b) sources in
        sumN plan.*2 = n - b /\ NoDup plan.*1 /\
        Forall (fun part => part.1 <> u /\ (part.1 ∉ mso_excluded_mints opts) /\
          (mso_allowed_mints opts = [] \/ part.1 ∈ mso_allowed_mints opts) /\ is_Some (ms_wallets s !! part.1) /\ 0 < part.2) plan)).
Proof.
  unfold MultiMint.prepare_send in Hrun. apply mseq_Ok in Hrun as (e & ? & [He ->]%find_wallet_Ok & H).
  apply mseq_Ok in H as (b & s1 & Hb & H). exists e, b, s1. do 2 (split; [done|]). destruct (N.leb_spec n b) as [|Hlt]; [by left|right].
  split; [done|]. destruct (mso_allow_transfer opts); [|done]. cbn [negb] in H. split; [done|].
  apply mseq_Ok in H as (needed & s2 & [Hn%map_err_Ok ->]%mlift_Ok & H).
  unfold Amount.sub, Amount.checked_sub, u64_checked_sub in Hn. destruct (_ <=? _); [|done]. injection Hn as <-.
  apply mseq_Ok in H as ([] & s3 & Hmax & H). apply mseq_Ok in H as (l & s4 & [= <- <-] & H).
  apply mseq_Ok in H as (found & s5 & (f & Hf1 & Hf2 & Hf3 & Hf4)%find_sources_spec & H). cbn in Hf1, Hf2.
  destruct (N.ltb_spec found.1 (n - b)) as [|Hge]; [done|]. apply mseq_Ok in H as ([] & s6 & Hp & H). rewrite Hf1 in Hp.
  assert (Hw : ms_wallets s3 = ms_wallets s).
  { apply (keeps_run quiet_m _ _ _ _ (balance_quiet e)) in Hb as [Hb _]. rewrite <- Hb.
    destruct (mso_max_transfer_amount opts) as [m|]; [destruct (m <? n - b)|]; [done|by injection Hmax as <-..]. }
  split. { intros m E. rewrite E in Hmax. destruct (N.ltb_spec m (n - b)); [done|lia]. }
  exists f, s5, s6. split; [done|]. cbn zeta.
  destruct (plan_transfers_spec f (n - b)) as (P1 & P2 & _ & P4); [eapply Forall_impl; [exact Hf4|]; by intros ? []|].
  assert (Hnd : NoDup f.*1) by (eapply sublist_NoDup; [apply rows_keys_NoDup|exact Hf3]).
  split_and!; [lia| |].
  - destruct P2 as [k P2]. rewrite P2 in Hnd. by apply NoDup_app in Hnd as [? _].
  - apply Forall_forall. intros part Hin. rewrite Forall_forall in P1. specialize (P1 part Hin).
    assert (Hpart : part.1 ∈ f.*1) by (destruct P2 as [k ->]; apply elem_of_app; left; by apply list_elem_of_fmap_2).
    pose proof (list_elem_of_fmap_1 _ _ _ Hpart) as (q & Hpq & Hq). rewrite Forall_forall in Hf4. destruct (Hf4 q Hq) as [Hm _].
    apply may_send_spec in Hm as (M1 & M2 & M3). rewrite Hpq in *. split_and!; [done..| |done].
    assert (Hr : q.1 ∈ (rows text (ms_wallets s3)).*1) by (eapply elem_of_submseteq; [exact Hpart|by apply sublist_submseteq]).
    rewrite (rows_perm text (ms_wallets s3)) in Hr. apply list_elem_of_fmap in Hr as ([k x] & Hk & Hx%elem_of_map_to_list).
    rewrite Hk, <- Hw. by exists x.
Qed.

(** What is refused before a transfer changes no proof: too little balance
    without the permission to transfer, or more than may be transferred. *)
Theorem send_refused_quiet ch tch u n opts (s s1 : State) e b (He : ms_wallets s !! u = Some e) (Hb : (balance_of e : MM _) s = (Ok b, s1))
    (Hlt : b < n) (Hno : mso_allow_transfer opts = false \/ exists m, mso_max_transfer_amount opts = Some m /\ m < n - b) :
  (prepare_send ch tch u n opts : MM _) s = (Err insufficient_funds, s1) /\ quiet_m s s1.
Proof.
  split; [|revert Hb; apply keeps_run, balance_quiet].
  unfold MultiMint.prepare_send, mseq at 1, find_wallet, mseq at 1, mgets, mlift. rewrite He. cbn [ok_or]. unfold mseq at 1. rewrite Hb.
  apply N.leb_gt in Hlt as Hle. rewrite Hle. destruct (mso_allow_transfer opts); [|done]. destruct Hno as [|(m & Hm & Hlm)]; [done|].
  cbn [negb]. unfold mseq at 1, amts, mlift, Amount.sub, Amount.checked_sub, u64_checked_sub.
  rewrite (proj2 (N.leb_le b n)) by lia. cbn [expect map_err]. unfold mseq at 1. rewrite Hm, (proj2 (N.ltb_lt _ _) Hlm). done.
Qed.

(** ** Waiting *)

(** The events of a subscription, and those that end the wait. *)
Fixpoint events (e : Entry) (quote_id : string) (n : nat) (w : S) : list Recv :=
  match n with
  | O => []
  | Datatypes.S n => let '(ev, w') := recv (en_subscription e) (wl_mint_url (en_wallet e)) quote_id w in ev :: events e quote_id n w'
  end.
Definition decisive (ev : Recv) : Prop := match ev with Notice (Some MintTypes.QPaid) | Closed | Elapsed => True | _ => False end.

(** The wait for a payment ends when its notice comes, the subscription closes
    or the time runs out; notices of other states do not end it, however many
    there are and however long they take. *)
Theorem wait_ends ch (e e' : Entry) q n : forall (s : State),
  (Exists decisive (events e' (wq_id q) n (cl_mint (ms_client s))) -> fst ((wait_and_mint fuel recv n ch e e' q : MM _) s) <> Err TransferDiverges) /\
  (Forall (fun ev => ~ decisive ev) (events e' (wq_id q) n (cl_mint (ms_client s))) ->
   fst ((wait_and_mint fuel recv n ch e e' q : MM _) s) = Err TransferDiverges).
Proof.
  induction n as [|n IH]; intros s; cbn [events wait_and_mint]; [split; [by intros ?%Exists_nil|done]|].
  unfold mseq, next_event. destruct (recv _ _ _ _) as [ev w]. set (s1 := mkState _ _). destruct (IH s1) as [IH1 IH2].
  rewrite Exists_cons, Forall_cons. split.
  - intros Hex. assert (Hcases : decisive ev \/ (~ decisive ev /\ Exists decisive (events e' (wq_id q) n w))).
    { destruct ev as [[[]|]| |]; cbn; intuition. }
    destruct ev as [[[]|]| |]; try done; try (apply IH1; cbn in *; tauto).
    destruct (mint_at fuel ch 1 e' (wq_id q) None s1) as [[l|er|] s2] eqn:Hm; cbn; [done| |done].
    apply wal_Err in Hm as [er' ->]. done.
  - intros [Hnd Hall]. destruct ev as [[[]|]| |]; try (by destruct Hnd); by apply IH2.
Qed.

(** ** Paying *)

(** Payments of several mints: when a mint of the list is not known the call
    fails, but the payments listed before it have been made. *)
Theorem parallel_pays_before_error {A B} (f : Entry -> A -> MM B) u v a b l e (s s1 : State) r
    (Horder : forall C (k : list C), order C k ≡ₚ k)
    (Hu : ms_wallets s !! u = Some e) (Hv : ms_wallets s !! v = None) (Hpaid : f e a s = (Ok r, s1)) :
  in_parallel order f ((u, a) :: (v, b) :: l) s = (Err (UnknownMint v), s1).
Proof.
  unfold in_parallel, mseq at 1, mgets. cbn [spawn]. rewrite Hu, Hv. unfold mseq at 1, await_all. cbn [length seq zip]. cbn zeta.
  unfold mseq at 1. lazymatch goal with |- context [order ?T ?k] => assert (Ho : order T k = k) by (apply Permutation_singleton_r; apply Horder) end.
  rewrite Ho. cbn [zip_with run_tasks]. unfold mseq at 1, task. rewrite Hpaid. done.
Qed.

Lemma best_quote_within ch bolt11 o m l : forall best (s s' : State) q e,
  (forall q' e', best = Some (q', e') -> wm_fee_reserve q' <= m) ->
  (best_quote invoice_amount ch bolt11 o (Some m) l best : MM _) s = (Ok (Some (q, e)), s') -> wm_fee_reserve q <= m.
Proof.
  induction l as [|x l IH]; intros best s s' q e Hbest; cbn [best_quote]; [intros [= -> _]; eauto|].
  intros (r & s1 & _ & H)%mseq_Ok. revert H. apply IH. intros q' e'. destruct r as [q1|]; [|apply Hbest].
  destruct (better (Some m) q1 best) eqn:Hb; [|apply Hbest]. intros [= <- _]. unfold better in Hb. apply andb_true_iff in Hb as [Hb _]. by apply N.leb_le.
Qed.

(** A payment from any mint keeps to the limit on the fee. *)
Theorem melt_within_max_fee ch bolt11 o m (s s' : State) md
    (Hrun : (MultiMint.melt iter iter_fees invoice_amount fuel ch bolt11 o (Some m) : MM _) s = (Ok md, s')) :
  exists q e s1, wm_fee_reserve q <= m /\ (melt_at iter iter_fees fuel ch 0 e (wm_id q) : MM _) s1 = (Ok md, s').
Proof.
  unfold MultiMint.melt in Hrun. apply mseq_Ok in Hrun as (i & s1 & _ & H). apply mseq_Ok in H as (ms & s2 & _ & H).
  apply mseq_Ok in H as (l & s3 & _ & H). apply mseq_Ok in H as (el & s4 & _ & H). apply mseq_Ok in H as ([] & s5 & _ & H).
  apply mseq_Ok in H as (best & s6 & Hbest & H). destruct best as [[q e]|]; [|done]. exists q, e, s6. split; [|done].
  by eapply best_quote_within; [|exact Hbest].
Qed.

(** ** Loading *)

Lemma load_mints_spec ps l : forall (s s' : State), NoDup l -> (load_mints http self ps l : MM _) s = (Ok tt, s') ->
  forall u, is_Some (ms_wallets s' !! u) <->
    is_Some (ms_wallets s !! u) \/ (u ∈ l /\ (ps = [] \/ exists p, p ∈ ps /\ pi_mint_url p = u)).
Proof.
  induction l as [|v l IH]; intros s s' Hnd; cbn [load_mints]; [intros [= <-] u; split; [by left|intros [|[?%not_elem_of_nil _]]; done]|].
  apply NoDup_cons in Hnd as [Hv Hnd]. intros ([] & s1 & H1 & H)%mseq_Ok u. rewrite (IH _ _ Hnd H u), elem_of_cons.
  assert (Hc : (is_nil ps || existsb (fun p => bool_decide (pi_mint_url p = v)) ps = true) <-> (ps = [] \/ exists p, p ∈ ps /\ pi_mint_url p = v)).
  { rewrite orb_true_iff, existsb_exists. setoid_rewrite bool_decide_eq_true. setoid_rewrite <- list_elem_of_In. destruct ps; cbn; naive_solver. }
  destruct (is_nil ps || _).
  - apply mseq_Ok in H1 as (k & s2 & [= <- <-] & H1). case_bool_decide as Hk.
    + injection H1 as <-. split; [naive_solver|]. intros [?|[[->|?] ?]]; [by left|by left|by right].
    + unfold add_mint in H1. apply mseq_Ok in H1 as (e & s3 & [_ ->]%mlift_Ok & [= <-]). cbn. rewrite lookup_insert_is_Some'. naive_solver.
  - injection H1 as <-. split; [naive_solver|]. intros [?|[[->|?] ?]]; [by left| |by right]. exfalso. naive_solver.
Qed.

(** A wallet that is opened has the mints of its store that hold proofs of its
    unit, or all of them when none does. *)
Theorem load_finds_mints (s s' : State) (Hnew : ms_wallets s = ∅) (Hrun : (load_wallets http self : MM _) s = (Ok tt, s')) :
  exists mints ps w1 w2, st_get_mints (cl_store (ms_client s)) = (Ok mints, w1) /\
    st_get_proofs None (Some (mw_unit self)) None None w1 = (Ok ps, w2) /\
    forall u, is_Some (ms_wallets s' !! u) <-> is_Some (mints !! u) /\ (ps = [] \/ exists p, p ∈ ps /\ pi_mint_url p = u).
Proof.
  unfold load_wallets in Hrun. apply mseq_Ok in Hrun as (mints & s1 & [[H1 _]%store_Ok Hw1]%wal_Ok & H).
  apply mseq_Ok in H as (ps & s2 & [[H2 _]%store_Ok Hw2]%wal_Ok & H). exists mints, ps, (cl_store (ms_client s1)), (cl_store (ms_client s2)).
  split_and!; [done..|]. intros u. rewrite (load_mints_spec _ _ _ _ (NoDup_fst_map_to_list mints) H u), Hw2, Hw1, Hnew, lookup_empty.
  assert (Hin : u ∈ (map_to_list mints).*1 <-> is_Some (mints !! u)).
  { rewrite list_elem_of_fmap. split; [intros ([k x] & -> & Hx%elem_of_map_to_list); by exists x|].
    intros [x Hx%elem_of_map_to_list]. by exists (u, x). }
  rewrite Hin. split; [intros [[]%is_Some_None|]; done|by right].
Qed.

End facts.
End MultiMintFacts.
