(* ===== verification/Stmt.v ===== *)
(** * SQL statements (crates/cdk-sql-common/src/stmt.rs)

    The statements of the stores are written with named placeholders.  They are
    split into raw text and placeholders, values are bound to the names, and the
    text is printed with numbered placeholders for the engine; both the parts and
    the printed text are kept in a cache that all statements share.

    Text is ASCII; the type of values is a parameter.  [fuel] bounds the loop
    over the characters by the length of the text, which is enough. *)
From Stdlib Require Import Ascii.
From stdpp Require Import base numbers list strings gmap.
From S2P Require Import Prelude.

Local Open Scope res_scope.
Local Open Scope mint_scope.
Local Open Scope string_scope.

Module Stmt.
Section defs.
Context {Value : Type}.

Inductive PlaceholderValue := VOne (value : Value) | VSet (values : list Value).
Inductive SqlPart := Raw (raw : string) | Placeholder (name : string) (value : option PlaceholderValue).
Inductive Error := UnterminatedStringLiteral | InvalidPlaceholder | MissingPlaceholder (name : string).

(** [char::is_alphanumeric] or an underscore, and [char::is_whitespace]. *)
Definition between (a b : nat) (c : ascii) : bool := Nat.leb a (nat_of_ascii c) && Nat.leb (nat_of_ascii c) b.
Definition is_name_char (c : ascii) : bool :=
  between 48 57 c || between 65 90 c || between 97 122 c || Ascii.eqb c "_".
Definition is_whitespace (c : ascii) : bool := between 9 13 c || Ascii.eqb c " ".
Definition double_quote : ascii := ascii_of_nat 34.
Definition is_quote (c : ascii) : bool := Ascii.eqb c "'" || Ascii.eqb c double_quote.

Definition push (s : string) (c : ascii) : string := s ++ String c "".

(** ** Splitting *)

(** The rest of a string literal, doubled quotes included; what was read is
    appended to [current]. *)
Fixpoint literal (quote : ascii) (current s : string) : option (string * string) :=
  match s with
  | EmptyString => None
  | String c s' =>
      if Ascii.eqb c quote then
        match s' with
        | String d s'' => if Ascii.eqb d quote then literal quote (push (push current c) d) s'' else Some (push current c, s')
        | EmptyString => Some (push current c, s')
        end
      else literal quote (push current c) s'
  end.

Fixpoint name_of (name s : string) : string * string :=
  match s with
  | String c s' => if is_name_char c then name_of (push name c) s' else (name, s)
  | EmptyString => (name, s)
  end.

Definition flush (current : string) (parts : list SqlPart) : list SqlPart :=
  if String.eqb current "" then parts else (parts ++ [Raw current])%list.

Fixpoint split_loop (fuel : nat) (s current : string) (parts : list SqlPart) : res Error (list SqlPart) :=
  match fuel with
  | O => Panic
  | S fuel =>
      match s with
      | EmptyString => Ok (flush current parts)
      | String c s' =>
          if is_quote c then
            match literal c (push current c) s' with
            | Some (current, s'') => split_loop fuel s'' current parts
            | None => Err UnterminatedStringLiteral
            end
          else if Ascii.eqb c ":" then
            let parts := flush current parts in
            let '(name, s'') := name_of "" s' in
            if String.eqb name "" then Err InvalidPlaceholder
            else split_loop fuel s'' "" (parts ++ [Placeholder name None])%list
          else split_loop fuel s' (push current c) parts
      end
  end.
Definition split_sql_parts (input : string) : res Error (list SqlPart) := split_loop (S (String.length input)) input "" [].

(** ** Statements *)

(** The cache, whose lock a panic can poison. *)
Record Cache := mkCache { ca_entries : gmap string (list SqlPart * option string); ca_poisoned : bool }.
Definition cache_get (sql : string) (c : Cache) : option (list SqlPart * option string) :=
  if ca_poisoned c then None else ca_entries c !! sql.
Definition cache_write (f : gmap string (list SqlPart * option string) -> gmap string (list SqlPart * option string)) (c : Cache) : Cache :=
  if ca_poisoned c then c else mkCache (f (ca_entries c)) false.

Record Statement := mkStatement { sm_cached_sql : option string; sm_sql : option string; sm_parts : list SqlPart }.

(** [query]: the parts come from the cache or are put there. *)
Definition query (sql : string) : M Cache Error Statement :=
  do cached <- mgets (cache_get sql) ;
  match cached with
  | Some (parts, cached_sql) => mret (mkStatement cached_sql None parts)
  | None =>
      do parts <- mlift (split_sql_parts sql) ;
      do_ mmodify (cache_write (<[sql := (parts, None)]>)) ;
      mret (mkStatement None (Some sql) parts)
  end.

Definition bind_part (name : string) (value : PlaceholderValue) (part : SqlPart) : SqlPart :=
  match part with
  | Placeholder n v => if String.eqb n name then Placeholder n (Some value) else part
  | Raw _ => part
  end.
Definition bind_value (name : string) (value : PlaceholderValue) (self : Statement) : Statement :=
  mkStatement (sm_cached_sql self) (sm_sql self) (bind_part name value <$> sm_parts self).
Definition bind (name : string) (value : Value) : Statement -> Statement := bind_value name (VOne value).
Definition bind_vec (name : string) (values : list Value) : Statement -> Statement := bind_value name (VSet values).

(** [str::trim]. *)
Fixpoint trim_start (s : string) : string :=
  match s with String c s' => if is_whitespace c then trim_start s' else s | EmptyString => s end.
Fixpoint trim_end (s : string) : string :=
  match s with
  | EmptyString => EmptyString
  | String c s' => match trim_end s' with
                   | EmptyString => if is_whitespace c then EmptyString else String c EmptyString
                   | t => String c t
                   end
  end.
Definition trim (s : string) : string := trim_end (trim_start s).

(** The values of a part, and its text when [n] values came before. *)
Definition part_values (part : SqlPart) : res Error (list Value) :=
  match part with
  | Raw _ => Ok []
  | Placeholder name None => Err (MissingPlaceholder name)
  | Placeholder _ (Some (VOne v)) => Ok [v]
  | Placeholder _ (Some (VSet l)) => Ok l
  end.
Definition numbered (i : nat) : string := "$" ++ u64_to_string (N.of_nat i).
Definition part_text (n : nat) (part : SqlPart) : string :=
  match part with
  | Raw raw => trim raw
  | Placeholder _ (Some (VSet l)) => String.concat ", " (numbered <$> seq (S n) (length l))
  | Placeholder _ _ => numbered (S n)
  end.
Fixpoint print_parts (parts : list SqlPart) (values : list Value) (can_be_cached : bool) : res Error (list string * list Value * bool) :=
  match parts with
  | [] => Ok ([], values, can_be_cached)
  | part :: parts =>
      let? l := part_values part in
      let can_be_cached := match part with Placeholder _ (Some (VSet _)) => false | _ => can_be_cached end in
      let? r := print_parts parts (values ++ l)%list can_be_cached in
      Ok (part_text (length values) part :: r.1.1, r.1.2, r.2)
  end.

Definition set_printed (original_sql printed : string) (m : gmap string (list SqlPart * option string)) :=
  alter (fun e => (e.1, Some printed)) original_sql m.
Definition to_sql (self : Statement) : M Cache Error (string * list Value) :=
  match sm_cached_sql self with
  | Some cached_sql =>
      do values <- mlift (collect part_values (sm_parts self)) ;
      mret (cached_sql, concat values)
  | None =>
      do r <- mlift (print_parts (sm_parts self) [] true) ;
      let '(pieces, values, can_be_cached) := r in
      let sql := String.concat " " pieces in
      do_ (match sm_sql self with
           | Some original_sql => if can_be_cached : bool then mmodify (cache_write (set_printed original_sql sql)) else mret tt
           | None => mret tt
           end) ;
      mret (sql, values)
  end.

End defs.
Arguments SqlPart Value : clear implicits.
Arguments PlaceholderValue Value : clear implicits.
Arguments Statement Value : clear implicits.
Arguments Cache Value : clear implicits.
End Stmt.
