(* ===== verification/StmtFacts.v ===== *)
(** * Properties of SQL statements

    Splitting a statement loses nothing and always ends; the cache changes no
    statement whose placeholders have single values; a statement fails to print
    exactly when a placeholder has no value. *)
From Stdlib Require Import Ascii.
From stdpp Require Import base numbers list strings gmap.
From S2P Require Import Prelude MintFacts Stmt.
Import MintFacts Stmt.

Local Open Scope res_scope.
Local Open Scope mint_scope.
Local Open Scope string_scope.

Module StmtFacts.
Section facts.
Context {Value : Type}.
Abbreviation SqlPart := (SqlPart Value).
Abbreviation Statement := (Statement Value).
Abbreviation Cache := (Cache Value).

(** ** Splitting *)

Lemma push_app s c t : push s c ++ t = s ++ String c t.
Proof. unfold push. by rewrite string_app_assoc. Qed.

(** Induction for [literal], which consumes one or two characters. *)
Lemma string_two_ind (P : string -> Prop) : P "" -> (forall c, P (String c "")) ->
  (forall c d s, P s -> P (String d s) -> P (String c (String d s))) -> forall s, P s.
Proof.
  intros H0 H1 H2. assert (H : forall s, P s /\ forall c, P (String c s)); [|apply H].
  induction s as [|d s [IH1 IH2]]; split; auto.
Qed.

Lemma literal_app q s : forall current current' s', literal q current s = Some (current', s') ->
  current' ++ s' = current ++ s /\ (String.length s' < String.length s)%nat.
Proof.
  induction s as [|c|c d s IH1 IH2] using string_two_ind; intros cur cur' s'; cbn [literal]; [done| |].
  - destruct (Ascii.eqb c q); [|done]. intros [= <- <-]. rewrite push_app. split; [done|cbn; lia].
  - destruct (Ascii.eqb c q).
    + destruct (Ascii.eqb d q).
      * intros [H Hl]%IH1. rewrite !push_app in H. split; [done|cbn; lia].
      * intros [= <- <-]. rewrite push_app. split; [done|cbn; lia].
    + intros [H Hl]%IH2. rewrite push_app in H. split; [done|cbn in *; lia].
Qed.

Lemma name_of_app s : forall n n' s', name_of n s = (n', s') -> n' ++ s' = n ++ s /\ (String.length s' <= String.length s)%nat.
Proof.
  induction s as [|c s IH]; intros n n' s'; cbn [name_of]; [intros [= <- <-]; done|].
  destruct (is_name_char c); [|intros [= <- <-]; done]. intros [H Hl]%IH. rewrite push_app in H. split; [done|cbn; lia].
Qed.

(** The text of the parts. *)
Definition part_source (p : SqlPart) : string := match p with Raw raw => raw | Placeholder name _ => ":" ++ name end.
Fixpoint source (l : list SqlPart) : string := match l with [] => "" | p :: l => part_source p ++ source l end.

Lemma source_app l l' : source (l ++ l')%list = source l ++ source l'.
Proof. induction l as [|p l IH]; [done|]. cbn. by rewrite IH, string_app_assoc. Qed.
Lemma source_flush current l : source (flush current l) = source l ++ current.
Proof.
  unfold flush. destruct (String.eqb_spec current "") as [->|]; [by rewrite string_app_nil_r|]. rewrite source_app. cbn. by rewrite string_app_nil_r.
Qed.

Definition unbound (p : SqlPart) : Prop := match p with Raw raw => raw <> "" | Placeholder name v => name <> "" /\ v = None end.
Lemma flush_unbound current l : Forall unbound l -> Forall unbound (flush current l).
Proof. unfold flush. destruct (String.eqb_spec current ""); [done|]. intros H. apply Forall_app. split; [done|]. by constructor. Qed.

Lemma split_loop_spec fuel : forall s current parts, (String.length s < fuel)%nat ->
  split_loop fuel s current parts <> Panic /\
  forall l, split_loop fuel s current parts = Ok l -> source l = source parts ++ current ++ s /\ (Forall unbound parts -> Forall unbound l).
Proof.
  induction fuel as [|fuel IH]; intros s current parts Hf; [lia|]. destruct s as [|c s]; cbn [split_loop].
  { split; [done|]. intros l [= <-]. rewrite source_flush, string_app_nil_r. split; [done|apply flush_unbound]. }
  cbn in Hf. destruct (is_quote c).
  { destruct (literal c (push current c) s) as [[cur s']|] eqn:Hl; [|by split]. apply literal_app in Hl as [Hl Hlen]. rewrite push_app in Hl.
    destruct (IH s' cur parts) as [H1 H2]; [lia|]. split; [done|]. intros l E. destruct (H2 l E) as [-> ?]. split; [|done]. by rewrite Hl. }
  destruct (Ascii.eqb_spec c ":") as [->|Hc].
  { destruct (name_of "" s) as [name s'] eqn:Hn. apply name_of_app in Hn as [Hn Hlen]. cbn in Hn.
    destruct (String.eqb_spec name "") as [|Hne]; [by split|]. destruct (IH s' "" (flush current parts ++ [Placeholder name None])%list) as [H1 H2]; [lia|].
    split; [done|]. intros l E. destruct (H2 l E) as [-> Hu]. rewrite source_app, source_flush. cbn. split.
    - rewrite string_app_nil_r, !string_app_assoc. change ("" ++ s') with s'. by rewrite Hn.
    - intros Hp. apply Hu. apply Forall_app. split; [by apply flush_unbound|]. by constructor. }
  destruct (IH s (push current c) parts) as [H1 H2]; [lia|]. split; [done|]. intros l E. destruct (H2 l E) as [-> ?]. split; [|done]. by rewrite push_app.
Qed.

(** Splitting always ends, and a statement that is split has the same text as
    its parts together; no part is empty and no placeholder has a value yet. *)
Theorem split_sql_parts_spec input : split_sql_parts input <> (Panic : res Error (list SqlPart)) /\
  forall l : list SqlPart, split_sql_parts input = Ok l -> source l = input /\ Forall unbound l.
Proof.
  destruct (split_loop_spec (S (String.length input)) input "" []) as [H1 H2]; [lia|]. split; [done|].
  intros l E. destruct (H2 l E) as [-> Hu]. split; [done|]. apply Hu. constructor.
Qed.

(** ** The cache *)

(** Parts up to the values bound to them, and parts without sets. *)
Definition unbind (p : SqlPart) : SqlPart := match p with Raw raw => Raw raw | Placeholder name _ => Placeholder name None end.
Definition single (p : SqlPart) : Prop := match p with Placeholder _ (Some (VSet _)) => False | _ => True end.

(** The text of parts that have single values. *)
Fixpoint single_pieces (n : nat) (l : list SqlPart) : list string :=
  match l with
  | [] => []
  | Raw raw :: l => trim raw :: single_pieces n l
  | Placeholder _ _ :: l => numbered (S n) :: single_pieces (S n) l
  end.
Lemma single_pieces_unbind l : forall n, single_pieces n (unbind <$> l) = single_pieces n l.
Proof. induction l as [|[r|name v] l IH]; intros n; cbn; [done|by rewrite IH..]. Qed.

Lemma print_single l : Forall single l -> forall vs b,
  print_parts l vs b = match collect part_values l with
                       | Ok w => Ok (single_pieces (length vs) l, (vs ++ concat w)%list, b)
                       | Err e => Err e
                       | Panic => Panic
                       end.
Proof.
  induction 1 as [|p l Hp Hl IH]; intros vs b; cbn [print_parts collect]; [by rewrite app_nil_r|].
  destruct (part_values p) as [w| |] eqn:Hw; [|done..]. rewrite IH.
  assert (Hlen : length (vs ++ w) = match p with Raw _ => length vs | _ => S (length vs) end).
  { rewrite length_app. destruct p as [r|name [[v|x]|]]; cbn in *; [injection Hw as <-; cbn; lia|injection Hw as <-; cbn; lia|done..]. }
  destruct (collect part_values l) as [ws| |]; [|done..]. cbn [concat]. rewrite <- app_assoc, Hlen.
  destruct p as [r|name [[v|x]|]]; cbn in *; [done|done|done|done].
Qed.

Lemma print_cachable l : forall vs b pieces vs', print_parts l vs b = Ok (pieces, vs', true) -> b = true /\ Forall single l.
Proof.
  induction l as [|p l IH]; intros vs b pieces vs'; cbn [print_parts]; [intros [= _ _ ->]; by split|].
  destruct (part_values p) as [w| |]; [|done..]. destruct (print_parts l _ _) as [[[ps vs1] b1]| |] eqn:E; [|done..]. cbn.
  intros [= _ _ ->]. apply IH in E as [Hb Hl]. destruct p as [r|name [[v|x]|]]; [by repeat constructor..|done|by repeat constructor].
Qed.

(** What the cache holds is right: the parts of its statements, and the text
    they have with single values. *)
Definition entry_ok (sql : string) (e : list SqlPart * option string) : Prop :=
  split_sql_parts sql = Ok e.1 /\ forall printed, e.2 = Some printed -> printed = String.concat " " (single_pieces 0 e.1).
Definition cache_ok (c : Cache) : Prop := map_Forall entry_ok (ca_entries c).

(** A statement made of a text by binding values. *)
Definition made_of (sql : string) (st : Statement) : Prop :=
  (exists l, split_sql_parts sql = Ok l /\ unbind <$> sm_parts st = unbind <$> l) /\
  (forall printed, sm_cached_sql st = Some printed -> printed = String.concat " " (single_pieces 0 (sm_parts st))) /\
  (sm_sql st = None \/ sm_sql st = Some sql).

Lemma bind_unbind name v p : unbind (bind_part name v p) = unbind p.
Proof. destruct p as [r|n w]; cbn; [done|]. by destruct (String.eqb n name). Qed.
Lemma bind_made_of sql name v st : made_of sql st -> made_of sql (bind_value name v st).
Proof.
  intros ((l & Hl & Hu) & Hc & Hs). split_and!; [|cbn|done].
  - exists l. split; [done|]. cbn. rewrite <- list_fmap_compose, <- Hu. apply list_fmap_ext. intros _ p _. apply bind_unbind.
  - intros printed ->%Hc. rewrite <- (single_pieces_unbind (bind_part name v <$> sm_parts st)), <- list_fmap_compose.
    rewrite (list_fmap_ext _ unbind) by (intros _ p _; apply bind_unbind). by rewrite single_pieces_unbind.
Qed.

Lemma query_made_of sql (c c' : Cache) st : cache_ok c -> query sql c = (Ok st, c') -> made_of sql st /\ cache_ok c'.
Proof.
  intros Hc. unfold query, mseq at 1, mgets, cache_get. destruct (ca_poisoned c) eqn:Hp; [|destruct (ca_entries c !! sql) as [[l o]|] eqn:He].
  - intros (l & Hl & H)%mlift_seq. unfold mseq, mmodify, cache_write in H. rewrite Hp in H. injection H as <- <-. split; [|done].
    split_and!; [by exists l|done|by right].
  - intros [= <- <-]. destruct (Hc _ _ He) as [H1 H2]. cbn in H1, H2. split; [|done]. split_and!; [by exists l|done|by left].
  - intros (l & Hl & H)%mlift_seq. unfold mseq, mmodify, cache_write in H. rewrite Hp in H. injection H as <- <-.
    split; [split_and!; [by exists l|done|by right]|]. apply map_Forall_insert_2; [by split|done].
Qed.

Lemma to_sql_cache_ok sql (c c' : Cache) st r : cache_ok c -> made_of sql st -> to_sql st c = (Ok r, c') -> cache_ok c'.
Proof.
  intros Hc ((l & Hl & Hu) & Hcs & Hs). unfold to_sql. destruct (sm_cached_sql st).
  { intros (vs & _ & [= <- <-])%mlift_seq. done. }
  intros ([[ps vs] b] & Hp & H)%mlift_seq. destruct (sm_sql st) as [sql'|]; [|by injection H as <- <-].
  destruct Hs as [|[= ->]]; [done|]. destruct b; [|by injection H as <- <-]. unfold mseq, mmodify, cache_write in H.
  destruct (ca_poisoned c); injection H as <- <-; [done|]. unfold cache_ok, set_printed. cbn. intros k e He.
  destruct (decide (k = sql)) as [->|Hne]; [|rewrite lookup_alter_ne in He by done; by apply Hc].
  rewrite lookup_alter_eq in He. apply fmap_Some in He as (e0 & He0 & ->). destruct (Hc _ _ He0) as [H1 _]. split; [done|]. cbn.
  intros printed [= <-]. destruct (print_cachable _ _ _ _ _ Hp) as [_ Hsi]. rewrite (print_single _ Hsi) in Hp.
  destruct (collect _ _); [|done..]. injection Hp as <- _. rewrite Hl in H1. injection H1 as ->.
  by rewrite <- single_pieces_unbind, Hu, single_pieces_unbind.
Qed.

(** A statement whose placeholders have single values prints as it would
    without the cache, whatever statements came before: the text with its
    placeholders numbered in order, and the values in that order. *)
Theorem cache_is_transparent sql (c : Cache) st (Hst : made_of sql st) (Hsingle : Forall single (sm_parts st)) :
  fst (to_sql st c) = fst (to_sql (mkStatement None None (sm_parts st)) (mkCache ∅ false)).
Proof.
  destruct Hst as (_ & Hcs & _). unfold to_sql. cbn [sm_cached_sql sm_sql sm_parts]. unfold mseq, mlift. rewrite (print_single _ Hsingle).
  destruct (sm_cached_sql st) as [printed|].
  - destruct (collect part_values (sm_parts st)) as [ws| |]; [|done..]. cbn. f_equal. f_equal. by apply Hcs.
  - destruct (collect part_values (sm_parts st)) as [ws| |]; [|done..]. destruct (sm_sql st); [|done]. cbn. done.
Qed.

(** Statements that are used one after the other, over one cache. *)
Inductive uses : Cache -> Cache -> Prop :=
| uses_query sql c c' st : query sql c = (Ok st, c') -> uses c c'
| uses_print sql c c' st r : made_of sql st -> to_sql st c = (Ok r, c') -> uses c c'.

Theorem statements_keep_cache c (Huses : rtc uses (mkCache ∅ false) c) : cache_ok c.
Proof.
  assert (H : forall c1 c2, rtc uses c1 c2 -> cache_ok c1 -> cache_ok c2).
  { clear. induction 1 as [|c1 c2 c3 [sql ? ? st Hq|sql ? ? st r Hm Ht] _ IH]; [done|..]; intros Hc; apply IH.
    - by eapply query_made_of.
    - by eapply to_sql_cache_ok. }
  by apply (H _ _ Huses).
Qed.

(** A set in a statement that was printed before with a single value: the
    text has one placeholder, the values are those of the set. *)
Theorem cached_text_ignores_sets name raw v1 (values : list Value) :
  let parts v := [Raw raw; Placeholder name (Some v)] in
  exists printed c, to_sql (mkStatement None (Some "q") (parts (VOne v1))) (mkCache {["q" := (unbind <$> parts (VOne v1), None)]} false) = (Ok (printed, [v1]), c) /\
    fst (to_sql (mkStatement (ca_entries c !! "q" ≫= snd) None (parts (VSet values))) c) = Ok (printed, values).
Proof.
  cbn zeta. exists (String.concat " " [trim raw; numbered 1]).
  exists (mkCache (set_printed "q" (String.concat " " [trim raw; numbered 1]) {["q" := ([Raw raw; Placeholder name None], None)]}) false). split; [reflexivity|].
  unfold set_printed. cbn [ca_entries]. rewrite lookup_alter_eq, lookup_singleton_eq. unfold to_sql, mseq, mlift. cbn [sm_cached_sql sm_parts mbind option_bind fmap option_fmap option_map snd].
  cbn. by rewrite app_nil_r.
Qed.

(** A statement prints exactly when each placeholder has a value. *)
Theorem to_sql_missing (l : list SqlPart) :
  (exists r, fst (to_sql (mkStatement None None l) (mkCache ∅ false)) = Ok r) <->
  Forall (fun p => match p with Placeholder _ None => False | _ => True end) l.
Proof.
  unfold to_sql. cbn [sm_cached_sql sm_sql sm_parts]. unfold mseq, mlift.
  assert (H : forall vs b, (exists r, print_parts l vs b = Ok r) <-> Forall (fun p => match p with Placeholder _ None => False | _ => True end) l).
  { induction l as [|p l IH]; intros vs b; cbn [print_parts]; [split; [constructor|eauto]|]. rewrite Forall_cons, <- (IH (vs ++ match part_values p with Ok w => w | _ => [] end)%list
      (match p with Placeholder _ (Some (VSet _)) => false | _ => b end)).
    destruct p as [r|name [[v|x]|]]; cbn; try (destruct (print_parts l _ _); cbn; naive_solver). }
  rewrite <- (H [] true). destruct (print_parts l [] true) as [[[ps vs] b]| |]; cbn; naive_solver.
Qed.

End facts.
End StmtFacts.
