(* ===== verification/Pool.v ===== *)
(** * The connection pool (crates/cdk-sql-common/src/pool.rs)

    The SQL stores take their connections from a pool that many tasks share.  A
    call of [get_timeout] decides under the lock of the queue what it will do;
    it raises the counter of connections in use after it has let the lock go,
    and opens a connection after that.  These are separate steps here, so the
    steps of several calls can come in any order.

    A connection is known by the number under which it was opened.  Its stale
    flag is shared with the driver, which can set it at any time.  The lock is
    never poisoned: no code that holds it panics. *)
From stdpp Require Import base numbers list gmap.
From S2P Require Import Prelude.

Local Open Scope N_scope.

Module Pool.

(** A call of [get_timeout], from the call to the return of its connection. *)
Inductive Phase :=
| Waiting                (* on the condition variable *)
| Popped (conn : nat)    (* took a free connection, counter not yet raised *)
| Slot                   (* may open a connection, counter not yet raised *)
| Opening                (* counter raised, in [new_resource] *)
| Holding (conn : nat).  (* a [PooledResource] *)

Record Pool := mkPool {
  pl_queue : list nat;          (* free connections, the next one first *)
  pl_in_use : N;
  pl_max_size : N;
  pl_calls : gmap nat Phase;    (* calls in progress and resources given out *)
  pl_opened : nat;
  pl_stale : gset nat;
  pl_failed : nat               (* opens that failed *)
}.

Definition new (max_size : N) : Pool := mkPool [] 0 max_size ∅ 0 ∅ 0.

Definition set_call (call : nat) (p : Phase) (s : Pool) : Pool :=
  mkPool (pl_queue s) (pl_in_use s) (pl_max_size s) (<[call := p]> (pl_calls s)) (pl_opened s) (pl_stale s) (pl_failed s).
Definition end_call (call : nat) (s : Pool) : Pool :=
  mkPool (pl_queue s) (pl_in_use s) (pl_max_size s) (delete call (pl_calls s)) (pl_opened s) (pl_stale s) (pl_failed s).
Definition set_queue (q : list nat) (s : Pool) : Pool :=
  mkPool q (pl_in_use s) (pl_max_size s) (pl_calls s) (pl_opened s) (pl_stale s) (pl_failed s).
Definition set_in_use (n : N) (s : Pool) : Pool :=
  mkPool (pl_queue s) n (pl_max_size s) (pl_calls s) (pl_opened s) (pl_stale s) (pl_failed s).

(** One round of the loop in [get_timeout], under the lock: take the free
    connection that was returned last; a stale one is dropped, and the round
    goes on as if there had been none. *)
Definition open_or_wait (call : nat) (s : Pool) : Pool :=
  if pl_in_use s <? pl_max_size s then set_call call Slot s else set_call call Waiting s.
Definition round (call : nat) (s : Pool) : Pool :=
  match pl_queue s with
  | c :: q =>
      if bool_decide (c ∈ pl_stale s) then open_or_wait call (set_queue q s)
      else set_call call (Popped c) (set_queue q s)
  | [] => open_or_wait call s
  end.

Definition increment_connection_counter (s : Pool) : Pool := set_in_use (fetch_add (pl_in_use s)) s.

(** [new_resource] returned: a connection, or an error that [?] passes on. *)
Definition open_done (call : nat) (ok : bool) (s : Pool) : Pool :=
  if ok then
    mkPool (pl_queue s) (pl_in_use s) (pl_max_size s) (<[call := Holding (pl_opened s)]> (pl_calls s)) (S (pl_opened s))
      (pl_stale s) (pl_failed s)
  else
    mkPool (pl_queue s) (pl_in_use s) (pl_max_size s) (delete call (pl_calls s)) (pl_opened s) (pl_stale s) (S (pl_failed s)).

(** [PooledResource::drop], which holds the lock throughout. *)
Definition release (call conn : nat) (s : Pool) : Pool :=
  end_call call (set_in_use (fetch_sub (pl_in_use s)) (set_queue (conn :: pl_queue s) s)).

Definition mark_stale (conn : nat) (s : Pool) : Pool :=
  mkPool (pl_queue s) (pl_in_use s) (pl_max_size s) (pl_calls s) (pl_opened s) ({[conn]} ∪ pl_stale s) (pl_failed s).

(** The steps of the calls and of the driver.  A waiting call can wake at any
    time; [Timeout] ends it with an error. *)
Inductive Action :=
| Get (call : nat) | Wake (call : nat) | Timeout (call : nat)
| Count (call : nat) | Open (call : nat) (ok : bool)
| Release (call : nat) | MarkStale (conn : nat).

Definition step (a : Action) (s : Pool) : option Pool :=
  match a with
  | Get call => match pl_calls s !! call with None => Some (round call s) | Some _ => None end
  | Wake call => match pl_calls s !! call with Some Waiting => Some (round call s) | _ => None end
  | Timeout call => match pl_calls s !! call with Some Waiting => Some (end_call call s) | _ => None end
  | Count call =>
      match pl_calls s !! call with
      | Some (Popped c) => Some (set_call call (Holding c) (increment_connection_counter s))
      | Some Slot => Some (set_call call Opening (increment_connection_counter s))
      | _ => None
      end
  | Open call ok => match pl_calls s !! call with Some Opening => Some (open_done call ok s) | _ => None end
  | Release call => match pl_calls s !! call with Some (Holding c) => Some (release call c s) | _ => None end
  | MarkStale c => Some (mark_stale c s)
  end.
Fixpoint run (l : list Action) (s : Pool) : option Pool :=
  match l with
  | [] => Some s
  | a :: l => match step a s with Some s' => run l s' | None => None end
  end.

(** [Pool::drop] runs when nothing refers to the pool, so no resource is given
    out and nobody will notify its wait.  It returns, or waits for ever. *)
Inductive Dropped := Returned | Hangs.
Definition drop_pool (s : Pool) : Dropped := if pl_in_use s =? 0 then Returned else Hangs.

End Pool.
