(* ===== verification/PoolFacts.v ===== *)
(** * Properties of the connection pool

    In every interleaving a connection is given to one call at a time and the
    counter is the number of calls that have or open a connection, plus the
    opens that failed.  When the calls do not overlap between deciding and
    counting, the connections stay within the limit of the pool; when they do,
    the limit can be exceeded.  A failed open takes a place for good: as many
    failures as the limit leave a pool that never gives out a connection, and
    one is enough for the drop of the pool to wait for ever. *)
From stdpp Require Import base numbers list gmap.
From S2P Require Import Prelude Pool.
Import Pool.

Local Open Scope N_scope.

Module PoolFacts.

(** ** Sums over the calls *)

(** Calls that the counter counts, calls that it will count, both. *)
Definition counted (p : Phase) : N := match p with Opening | Holding _ => 1 | _ => 0 end.
Definition pending (p : Phase) : N := match p with Popped _ | Slot => 1 | _ => 0 end.
Definition busy (p : Phase) : N := match p with Waiting => 0 | _ => 1 end.
Lemma busy_split (m : gmap nat Phase) : map_sum busy m = map_sum counted m + map_sum pending m.
Proof. apply map_sum_plus. by intros []. Qed.

(** ** Steps *)

Lemma run_app l1 l2 s : run (l1 ++ l2) s = match run l1 s with Some s' => run l2 s' | None => None end.
Proof. revert s. induction l1 as [|a l1 IH]; intros s; cbn; [done|]. destruct (step a s); [apply IH|done]. Qed.

(** An invariant of the steps holds after every run. *)
Lemma run_invariant (P : Pool -> Prop) : (forall a s s', P s -> step a s = Some s' -> P s') ->
  forall l s s', P s -> run l s = Some s' -> P s'.
Proof.
  intros Hstep l. induction l as [|a l IH]; intros s s' Hs; cbn; [congruence|].
  destruct (step a s) as [s1|] eqn:E; [eauto|done].
Qed.

(** What a round does: it takes a free connection, finds a place or waits. *)
Lemma round_cases (P : Pool -> Prop) call s :
  (forall c q, pl_queue s = c :: q -> c ∉ pl_stale s -> P (set_call call (Popped c) (set_queue q s))) ->
  (pl_in_use s < pl_max_size s -> P (set_call call Slot (set_queue (tail (pl_queue s)) s))) ->
  (pl_max_size s <= pl_in_use s -> P (set_call call Waiting (set_queue (tail (pl_queue s)) s))) ->
  P (round call s).
Proof.
  intros Hp Hs Hw. unfold round. destruct s as [q n mx cs op st fl]. cbn in *. destruct q as [|c q].
  - unfold open_or_wait. cbn. destruct (N.ltb_spec n mx); auto.
  - case_bool_decide; [|eauto]. unfold open_or_wait, set_queue. cbn. destruct (N.ltb_spec n mx); auto.
Qed.

Lemma step_max_size a s s' : step a s = Some s' -> pl_max_size s' = pl_max_size s.
Proof.
  destruct a as [call|call|call|call|call ok|call|c]; cbn; try (destruct (pl_calls s !! call) as [[]|]; try done); intros [= <-]; try done;
    [by apply round_cases..|by destruct ok].
Qed.

(** ** One connection, one user *)

Definition has (s : Pool) (call c : nat) : Prop := pl_calls s !! call = Some (Popped c) \/ pl_calls s !! call = Some (Holding c).

Record distinct (s : Pool) : Prop := {
  d_queue : NoDup (pl_queue s);
  d_old : forall c, c ∈ pl_queue s -> (c < pl_opened s)%nat;
  d_has_old : forall call c, has s call c -> (c < pl_opened s)%nat;
  d_has_free : forall call c, has s call c -> c ∉ pl_queue s;
  d_has_one : forall c1 c2 c, has s c1 c -> has s c2 c -> c1 = c2
}.

(** Calls that change to a phase without a connection, or drop out. *)
Lemma distinct_shrink s s' : distinct s -> sublist (pl_queue s') (pl_queue s) -> (pl_opened s <= pl_opened s')%nat ->
  (forall call c, has s' call c -> has s call c) -> distinct s'.
Proof.
  intros [H1 H2 H3 H4 H5] Hq Ho Hh. split.
  - by eapply sublist_NoDup.
  - intros c Hc. eapply Nat.lt_le_trans; [|exact Ho]. by eapply H2, elem_of_sublist.
  - intros call c H. eapply Nat.lt_le_trans; [by eapply H3, Hh|done].
  - intros call c H Hc. apply (H4 call c (Hh _ _ H)). by eapply elem_of_sublist.
  - eauto.
Qed.

Lemma has_set_call s call p i c : has (set_call call p s) i c ->
  (i = call /\ (p = Popped c \/ p = Holding c)) \/ (i <> call /\ has s i c).
Proof.
  unfold has, set_call. cbn. destruct (decide (i = call)) as [->|N]; [rewrite lookup_insert_eq; naive_solver|rewrite lookup_insert_ne by done; auto].
Qed.
Lemma tail_sublist {A} (l : list A) : sublist (tail l) l.
Proof. destruct l; cbn; [done|by apply sublist_cons]. Qed.

(** A call that gets a connection nobody has. *)
Lemma distinct_give s s' call c : distinct s -> sublist (pl_queue s') (pl_queue s) -> (pl_opened s <= pl_opened s')%nat ->
  (c < pl_opened s')%nat -> c ∉ pl_queue s' -> (forall i, has s i c -> i = call) ->
  (forall i d, has s' i d -> (i = call /\ d = c) \/ has s i d) -> distinct s'.
Proof.
  intros [H1 H2 H3 H4 H5] Hq Ho Hc Hf Hn Hh. split.
  - by eapply sublist_NoDup.
  - intros d Hd. eapply Nat.lt_le_trans; [|exact Ho]. by eapply H2, elem_of_sublist.
  - intros i d [[_ ->]|H]%Hh; [done|]. eapply Nat.lt_le_trans; [by eapply H3|done].
  - intros i d [[_ ->]|H]%Hh; [done|]. intros Hd. apply (H4 i d H). by eapply elem_of_sublist.
  - intros i j d [[-> ->]|Hi]%Hh [[-> E]|Hj]%Hh; [done|symmetry; eauto|subst d; eauto|eauto].
Qed.

Lemma distinct_round call s : distinct s -> (forall c, ~ has s call c) -> distinct (round call s).
Proof.
  intros D Hno. apply round_cases.
  - intros c q Hq Hst. pose proof (d_queue s D) as Hnd. rewrite Hq in Hnd. apply NoDup_cons in Hnd as [Hc Hnd].
    eapply (distinct_give s _ call c); cbn; rewrite ?Hq; try done.
    + by apply sublist_cons.
    + apply (d_old s D). rewrite Hq. by left.
    + intros i Hi. exfalso. apply (d_has_free s D i c Hi). rewrite Hq. by left.
    + intros i d [[-> [[= ->]|[=]]]|[_ H]]%has_set_call; auto.
  - intros _. eapply distinct_shrink; [done|apply tail_sublist|done|]. intros i c [[-> [[=]|[=]]]|[_ H]]%has_set_call; done.
  - intros _. eapply distinct_shrink; [done|apply tail_sublist|done|]. intros i c [[-> [[=]|[=]]]|[_ H]]%has_set_call; done.
Qed.

Lemma distinct_step a s s' : distinct s -> step a s = Some s' -> distinct s'.
Proof.
  intros D. destruct a as [call|call|call|call|call ok|call|c]; cbn;
    try (destruct (pl_calls s !! call) as [[]|] eqn:E; try done); intros [= <-].
  - apply distinct_round; [done|]. intros c [H|H]; congruence.
  - apply distinct_round; [done|]. intros c [H|H]; congruence.
  - eapply distinct_shrink; [done..|]. intros i c. unfold has. cbn. by intros [[_ ?]%lookup_delete_Some|[_ ?]%lookup_delete_Some]; [left|right].
  - eapply distinct_shrink; [done..|]. intros i c [[-> [[=]|[= ->]]]|[_ H]]%has_set_call; [by left|done].
  - eapply distinct_shrink; [done..|]. intros i c [[-> [[=]|[=]]]|[_ H]]%has_set_call; done.
  - destruct ok; cbn.
    + eapply (distinct_give s _ call (pl_opened s)); cbn; try done; [lia|lia|..].
      * intros H%(d_old s D). lia.
      * intros i H%(d_has_old s D). lia.
      * intros i d. unfold has. cbn. destruct (decide (i = call)) as [->|N]; [rewrite lookup_insert_eq|by rewrite lookup_insert_ne by done; auto].
        intros [[=]|[= <-]]; auto.
    + eapply distinct_shrink; [done..|]. intros i c. unfold has. cbn. by intros [[_ ?]%lookup_delete_Some|[_ ?]%lookup_delete_Some]; [left|right].
  - assert (has s call conn) as Hh by by right.
    assert (forall i d, has (release call conn s) i d -> i <> call /\ has s i d) as Hr.
    { intros i d. unfold has, release. cbn. by intros [[? ?]%lookup_delete_Some|[? ?]%lookup_delete_Some]; split; eauto. }
    destruct D as [H1 H2 H3 H4 H5]. split; cbn.
    + apply NoDup_cons. eauto.
    + intros d [->|Hd]%elem_of_cons; eauto.
    + intros i d [_ H]%Hr. eauto.
    + intros i d [N H]%Hr [->|Hd]%elem_of_cons; [by apply N, (H5 _ _ conn)|by apply (H4 i d)].
    + intros i j d [_ Hi]%Hr [_ Hj]%Hr. eauto.
  - by apply (distinct_shrink s).
Qed.

(** However the calls interleave, a connection that one call has is not free
    and no other call has it. *)
Theorem one_user_per_connection max_size l s : run l (new max_size) = Some s ->
  NoDup (pl_queue s) /\
  (forall call c, has s call c -> c ∉ pl_queue s) /\
  (forall call1 call2 c, has s call1 c -> has s call2 c -> call1 = call2).
Proof.
  intros H. assert (distinct s) as [? ? ? ? ?]; [|eauto].
  eapply (run_invariant distinct distinct_step); [|done].
  split; cbn; [apply NoDup_nil_2|intros c []%elem_of_nil|..]; unfold has; cbn; intros; exfalso; naive_solver.
Qed.

(** ** The counter *)

Definition users (s : Pool) : N := map_sum counted (pl_calls s) + N.of_nat (pl_failed s).

Lemma users_round call s :
  (forall p, counted p = 0 -> map_sum counted (<[call := p]> (pl_calls s)) = map_sum counted (pl_calls s)) ->
  users (round call s) = users s /\ pl_in_use (round call s) = pl_in_use s.
Proof. intros H. unfold users. apply round_cases; intros; cbn; by rewrite H. Qed.

Definition counts (s : Pool) : Prop := pl_in_use s = users s mod (U64_MAX + 1).

Ltac pool_simpl := unfold users, release, end_call, set_call, increment_connection_counter, set_in_use, set_queue, open_done in *;
  cbn [pl_queue pl_in_use pl_max_size pl_calls pl_opened pl_stale pl_failed] in *.

Lemma counts_step a s s' : counts s -> step a s = Some s' -> counts s'.
Proof.
  unfold counts. intros C. destruct a as [call|call|call|call|call ok|call|c]; cbn -[users];
    try (destruct (pl_calls s !! call) as [[]|] eqn:E; try done); intros [= <-].
  - destruct (users_round call s) as [-> ->]; [intros; by apply map_sum_new|done].
  - destruct (users_round call s) as [-> ->]; [intros; by eapply map_sum_same|done].
  - pool_simpl. rewrite C. by rewrite (map_sum_delete _ _ _ _ E).
  - pool_simpl. rewrite C, fetch_add_mod. f_equal. pose proof (map_sum_replace counted _ _ _ (Holding conn) E) as T. cbn in T. lia.
  - pool_simpl. rewrite C, fetch_add_mod. f_equal. pose proof (map_sum_replace counted _ _ _ Opening E) as T. cbn in T. lia.
  - destruct ok; pool_simpl; rewrite C; f_equal.
    + pose proof (map_sum_replace counted _ _ _ (Holding (pl_opened s)) E) as T. cbn in T. lia.
    + rewrite (map_sum_delete _ _ _ _ E). cbn [counted]. lia.
  - pool_simpl. rewrite C. rewrite (map_sum_delete counted _ _ _ E). cbn [counted].
    etransitivity; [|apply fetch_sub_mod]. do 2 f_equal. lia.
  - done.
Qed.

(** In every interleaving the counter is, modulo its width, the number of calls
    that open or hold a connection and of opens that failed. *)
Theorem counter_counts_users max_size l s : run l (new max_size) = Some s -> pl_in_use s = users s mod (U64_MAX + 1).
Proof. apply (run_invariant counts counts_step). by vm_compute. Qed.

(** ** The limit *)

(** Runs in which no call decides while another has decided and not counted. *)
Definition decides (a : Action) : bool := match a with Get _ | Wake _ => true | _ => false end.
Fixpoint apart (l : list Action) (s : Pool) : Prop :=
  match l with
  | [] => True
  | a :: l => (decides a -> map_sum pending (pl_calls s) = 0) /\ match step a s with Some s' => apart l s' | None => True end
  end.

(** Free connections, calls with a place and failures. *)
Definition places (s : Pool) : N := N.of_nat (length (pl_queue s)) + map_sum busy (pl_calls s) + N.of_nat (pl_failed s).
Definition bounded (s : Pool) : Prop := counts s /\ places s <= pl_max_size s /\ pl_max_size s <= U64_MAX.

Lemma bounded_round call s : bounded s -> map_sum pending (pl_calls s) = 0 -> counts (round call s) ->
  (forall q, map_sum busy (<[call := q]> (pl_calls s)) = busy q + map_sum busy (pl_calls s)) -> bounded (round call s).
Proof.
  intros (C & Hp & Hm) Hn C' Ht. split; [done|]. pose proof (busy_split (pl_calls s)) as B. rewrite Hn in B.
  assert (pl_in_use s = map_sum busy (pl_calls s) + N.of_nat (pl_failed s)) as Hu.
  { rewrite C. unfold users. unfold places in Hp. rewrite N.mod_small; lia. }
  clear C'. unfold places in *. apply round_cases; pool_simpl; rewrite ?Ht.
  - intros c q Hq _. rewrite Hq in Hp. rewrite Ht. cbn [length busy] in *. split; [lia|done].
  - intros Hlt. rewrite ?Ht. cbn [busy]. destruct (pl_queue s); cbn [tail length] in *; split; lia.
  - intros _. rewrite ?Ht. cbn [busy]. destruct (pl_queue s); cbn [tail length] in *; split; lia.
Qed.

Lemma bounded_step a s s' : bounded s -> (decides a -> map_sum pending (pl_calls s) = 0) -> step a s = Some s' -> bounded s'.
Proof.
  intros B Hd Hs. pose proof (counts_step a s s' (proj1 B) Hs) as C'. revert Hs.
  destruct a as [call|call|call|call|call ok|call|c]; cbn in *;
    try (destruct (pl_calls s !! call) as [[]|] eqn:E; try done); intros [= <-].
  - apply bounded_round; auto. intros q. by apply map_sum_insert.
  - apply bounded_round; auto. intros q. pose proof (map_sum_replace busy _ _ _ q E) as T. cbn in T. lia.
  - destruct B as (C & Hp & Hm). split; [done|]. split; [|done]. unfold places in *. cbn. rewrite (map_sum_delete busy _ _ _ E) in Hp. lia.
  - destruct B as (C & Hp & Hm). split; [done|]. split; [|done]. unfold places in *. cbn. by rewrite (map_sum_same busy _ _ _ (Holding conn) E).
  - destruct B as (C & Hp & Hm). split; [done|]. split; [|done]. unfold places in *. cbn. by rewrite (map_sum_same busy _ _ _ Opening E).
  - destruct B as (C & Hp & Hm). split; [done|]. split; [|by destruct ok]. unfold places in *. destruct ok; cbn.
    + by rewrite (map_sum_same busy _ _ _ (Holding (pl_opened s)) E).
    + rewrite (map_sum_delete busy _ _ _ E) in Hp. cbn [busy] in Hp. lia.
  - destruct B as (C & Hp & Hm). split; [done|]. split; [|done]. unfold places, release in *. cbn -[N.of_nat].
    rewrite (map_sum_delete busy _ _ _ E) in Hp. cbn [busy] in Hp. lia.
  - done.
Qed.

(** When no call decides between another's decision and its count, free
    connections, connections given out and failures stay within the limit. *)
Theorem limit_kept_apart max_size l s : max_size <= U64_MAX -> apart l (new max_size) -> run l (new max_size) = Some s ->
  N.of_nat (length (pl_queue s)) + map_sum busy (pl_calls s) + N.of_nat (pl_failed s) <= max_size.
Proof.
  intros Hm. assert (bounded (new max_size)) as B by (split; [done|split; [apply N.le_0_l|done]]).
  change max_size with (pl_max_size (new max_size)) at 2.
  assert (forall s0, bounded s0 -> pl_max_size s0 = max_size -> apart l s0 -> run l s0 = Some s -> bounded s /\ pl_max_size s = max_size) as H.
  { clear B. induction l as [|a l IH]; intros s0 B Hx Ha; cbn; [intros [= <-]; done|]. cbn in Ha. destruct Ha as [Hd Ha].
    destruct (step a s0) as [s1|] eqn:E; [|done]. intros Hr. apply (IH s1); [by eapply bounded_step| |done..].
    rewrite <- Hx. by eapply step_max_size. }
  intros Ha Hr. destruct (H _ B eq_refl Ha Hr) as [(_ & Hp & _) Hx]. cbn. by rewrite Hx in Hp.
Qed.

(** Two calls that decide at the same time both open a connection of a pool for one. *)
Theorem overlapping_calls_exceed_limit :
  exists s, run [Get 0; Get 1; Count 0; Count 1; Open 0 true; Open 1 true] (new 1) = Some s /\
    pl_calls s = {[ 0%nat := Holding 0; 1%nat := Holding 1 ]}.
Proof. eexists. split; [vm_compute; reflexivity|]. by vm_compute. Qed.

(** ** Failures *)

(** A pool in which nothing can happen any more. *)
Definition exhausted (s : Pool) : Prop :=
  pl_queue s = [] /\ pl_max_size s <= pl_in_use s /\ forall call p, pl_calls s !! call = Some p -> p = Waiting.

Lemma exhausted_round call s : exhausted s -> exhausted (round call s).
Proof.
  intros (Hq & Hm & Hc). apply round_cases; [congruence|lia|]. intros _. split; [by rewrite Hq|]. split; [done|].
  intros i p. cbn. rewrite lookup_insert_Some. naive_solver.
Qed.
Lemma exhausted_step a s s' : exhausted s -> step a s = Some s' -> exhausted s'.
Proof.
  intros X. pose proof X as (Hq & Hm & Hc). destruct a as [call|call|call|call|call ok|call|c]; cbn;
    try (destruct (pl_calls s !! call) as [[]|] eqn:E; try done; try (by apply Hc in E)); intros [= <-].
  - by apply exhausted_round.
  - by apply exhausted_round.
  - split; [done|]. split; [done|]. intros i p. cbn. intros [_ H]%lookup_delete_Some. eauto.
  - done.
Qed.

Definition failing_call (call : nat) : list Action := [Get call; Count call; Open call false].
Lemma failing_call_run n max_size s : n < max_size -> max_size <= U64_MAX -> pl_queue s = [] -> pl_in_use s = n -> pl_max_size s = max_size ->
  pl_calls s = ∅ -> exists s', run (failing_call 0) s = Some s' /\ pl_queue s' = [] /\ pl_in_use s' = n + 1 /\ pl_max_size s' = max_size /\ pl_calls s' = ∅.
Proof.
  intros Hn Hm Hq Hu Hx Hc. destruct s as [q u mx cs op st fl]. cbn in *. subst. cbn.
  rewrite lookup_empty. unfold round, open_or_wait. cbn. destruct (N.ltb_spec n max_size); [|lia]. cbn.
  rewrite lookup_insert_eq. cbn. rewrite lookup_insert_eq. eexists. split; [reflexivity|]. cbn.
  rewrite !delete_insert_eq, delete_empty. split; [done|]. split; [|done]. unfold fetch_add. apply N.mod_small. lia.
Qed.

Lemma failing_calls_exhaust k max_size s : max_size <= U64_MAX -> pl_queue s = [] -> pl_in_use s + N.of_nat k = max_size -> pl_max_size s = max_size ->
  pl_calls s = ∅ -> exists s', run (concat (replicate k (failing_call 0))) s = Some s' /\ exhausted s'.
Proof.
  intros Hm. revert s. induction k as [|k IH]; intros s Hq Hu Hx Hc.
  - exists s. split; [done|]. split; [done|]. split; [lia|]. intros i p. by rewrite Hc, lookup_empty.
  - destruct (failing_call_run (pl_in_use s) max_size s) as (s1 & H1 & Hq1 & Hu1 & Hx1 & Hc1); [lia|done..|].
    destruct (IH s1) as (s2 & H2 & X); [done|lia|done..|]. exists s2. split; [|done].
    change (concat (replicate (S k) (failing_call 0))) with (failing_call 0 ++ concat (replicate k (failing_call 0)))%list.
    by rewrite run_app, H1.
Qed.

(** As many failed opens as the limit, one after the other, leave a pool that
    never gives out a connection again. *)
Theorem failures_exhaust_pool max_size : max_size <= U64_MAX ->
  exists s, run (concat (replicate (N.to_nat max_size) (failing_call 0))) (new max_size) = Some s /\
    forall l s', run l s = Some s' -> forall call c, pl_calls s' !! call <> Some (Holding c).
Proof.
  intros Hm. destruct (failing_calls_exhaust (N.to_nat max_size) max_size (new max_size)) as (s & Hr & X); [done|done|cbn; lia|done|done|].
  exists s. split; [done|]. intros l s' Hl call c H.
  destruct (run_invariant exhausted exhausted_step l s s' X Hl) as (_ & _ & Hc). by apply Hc in H.
Qed.

(** The drop of a pool nobody uses returns exactly when no open ever failed. *)
Theorem drop_hangs_after_failure max_size l s : run l (new max_size) = Some s -> pl_calls s = ∅ ->
  N.of_nat (pl_failed s) <= U64_MAX -> drop_pool s = Returned <-> pl_failed s = 0%nat.
Proof.
  intros Hr Hc Hf. assert (counts s) as C. { apply (run_invariant counts counts_step l (new max_size)); [by vm_compute|done]. }
  unfold counts, users in C. rewrite Hc in C. cbn [map_sum] in C. unfold drop_pool.
  replace (map_sum counted ∅) with 0 in C by done. rewrite N.add_0_l, N.mod_small in C by lia. rewrite C.
  destruct (N.eqb_spec (N.of_nat (pl_failed s)) 0); split; intros; try done; lia.
Qed.

(** A connection that is returned is what the next call to wake gets, unless
    it went stale. *)
Theorem released_connection_reused a b c s s1 : pl_calls s !! a = Some (Holding c) -> c ∉ pl_stale s ->
  pl_calls s !! b = Some Waiting -> step (Release a) s = Some s1 ->
  exists s2, run [Wake b; Count b] s1 = Some s2 /\ pl_calls s2 !! b = Some (Holding c) /\ pl_calls s2 !! a = None /\ pl_queue s2 = pl_queue s.
Proof.
  intros Ha Hs Hb. cbn. rewrite Ha. intros [= <-]. assert (a <> b) as N by congruence.
  unfold release. cbn. rewrite lookup_delete_ne, Hb by done. unfold round. cbn. rewrite bool_decide_eq_false_2 by done. cbn.
  rewrite lookup_insert_eq. eexists. split; [reflexivity|]. cbn.
  rewrite lookup_insert_eq, !lookup_insert_ne, lookup_delete_eq by done. done.
Qed.

End PoolFacts.
