(* ===== verification/Conn.v ===== *)
(** * Connections of the SQL stores

    What the stores put between themselves and a connection of an SQL engine:
    transactions ([ConnectionWithTransaction] of cdk-sql-common/src/database.rs),
    migrations (common.rs), the configurations of SQLite and PostgreSQL, and the
    connection to PostgreSQL, which a task of its own opens
    (cdk-sqlite/src/common.rs and async_sqlite.rs, cdk-postgres/src/lib.rs).
    The engines are parameters: class [Driver] has their statements, [DriverLaws]
    what SQL promises of them. *)
From Stdlib Require Import Ascii.
From stdpp Require Import base numbers list strings gmap.
From S2P Require Import Prelude Stmt.
Import Stmt.

Local Open Scope mint_scope.
Local Open Scope string_scope.

Module Conn.

(** ** The statements of an engine that are used here *)

Class Driver (Conn Error : Type) := {
  begin_stmt : M Conn Error unit;                    (* BEGIN IMMEDIATE, START TRANSACTION *)
  commit_stmt : M Conn Error unit;
  rollback_stmt : M Conn Error unit;
  create_migrations : M Conn Error unit;             (* CREATE TABLE IF NOT EXISTS migrations *)
  select_migration : string -> M Conn Error bool;    (* is there a row with this name *)
  insert_migration : string -> M Conn Error unit;
  batch : string -> M Conn Error unit
}.

(** A connection has durable tables and, in a transaction, tables of its own.
    [names] reads the table migrations, [script] is what a script does. *)
Class DriverLaws (Conn Error Tables : Type) `{Driver Conn Error} := {
  durable : Conn -> Tables;
  working : Conn -> option Tables;
  names : Tables -> gset string;
  add_name : string -> Tables -> Tables;
  script : string -> Tables -> Tables;
  names_add n t : names (add_name n t) = {[n]} ∪ names t;
  names_script q t : names (script q t) = names t;
  begin_Ok c c' : begin_stmt c = (Ok tt, c') -> working c = None /\ durable c' = durable c /\ working c' = Some (durable c);
  begin_Err c c' e : begin_stmt c = (Err e, c') -> durable c' = durable c;
  commit_Ok c c' t : working c = Some t -> commit_stmt c = (Ok tt, c') -> durable c' = t /\ working c' = None;
  commit_Err c c' e : commit_stmt c = (Err e, c') -> durable c' = durable c;
  rollback_durable c : durable (snd (rollback_stmt c)) = durable c;
  no_panic c : fst (begin_stmt c) <> Panic /\ fst (commit_stmt c) <> Panic /\ fst (create_migrations c) <> Panic /\
    (forall n, fst (select_migration n c) <> Panic) /\ (forall n, fst (insert_migration n c) <> Panic) /\ (forall q, fst (batch q c) <> Panic);
  create_run c t : working c = Some t -> durable (snd (create_migrations c)) = durable c /\
    (fst (create_migrations c) = Ok tt -> working (snd (create_migrations c)) = Some t);
  select_run n c t : working c = Some t -> durable (snd (select_migration n c)) = durable c /\
    (forall b, fst (select_migration n c) = Ok b -> b = bool_decide (n ∈ names t) /\ working (snd (select_migration n c)) = Some t);
  insert_run n c t : working c = Some t -> durable (snd (insert_migration n c)) = durable c /\
    (fst (insert_migration n c) = Ok tt -> working (snd (insert_migration n c)) = Some (add_name n t));
  batch_run q c t : working c = Some t -> durable (snd (batch q c)) = durable c /\
    (fst (batch q c) = Ok tt -> working (snd (batch q c)) = Some (script q t))
}.

Section transactions.
Context {Cn Error : Type} `{Driver Cn Error}.

(** A transaction around a body: a [ConnectionWithTransaction] that is dropped
    before it is committed rolls back; one whose commit fails does not. *)
Definition in_transaction {A} (body : M Cn Error A) : M Cn Error A :=
  do_ begin_stmt ;
  fun c => match body c with
           | (Ok a, c') => mseq commit_stmt (fun _ => mret a) c'
           | (r, c') => (r, snd (rollback_stmt c'))
           end.

(** ** Migrations: (driver or empty, name, script) *)

Definition Migration : Type := string * string * string.
Definition relevant (db_prefix : string) (m : Migration) : bool := String.eqb m.1.1 "" || String.eqb m.1.1 db_prefix.
Definition migrate_one (db_prefix : string) (m : Migration) : M Cn Error unit :=
  if negb (relevant db_prefix m) then mret tt
  else
    do found <- select_migration m.1.2 ;
    if found : bool then mret tt
    else do_ batch m.2 ; insert_migration m.1.2.
Definition migrate (db_prefix : string) (migrations : list Migration) : M Cn Error unit :=
  do_ create_migrations ; mfor (migrate_one db_prefix) migrations.

(** [SQLMintDatabase::migrate] and [SQLMintAuthDatabase::migrate]. *)
Definition migrate_store (db_prefix : string) (migrations : list Migration) : M Cn Error unit :=
  in_transaction (migrate db_prefix migrations).
End transactions.

(** ** SQLite *)

Record SqliteConfig := mkSqliteConfig { sc_path : option string; sc_password : option string }.
Definition contains (s sub : string) : bool := match String.index 0 sub s with Some _ => true | None => false end.
Definition sqlite_path (path : string) : option string := if contains path ":memory:" then None else Some path.
Definition sqlite_config (path : string) (password : option string) : SqliteConfig := mkSqliteConfig (sqlite_path path) password.
Definition sqlite_max_size (c : SqliteConfig) : N := match sc_password c with None => 1 | Some _ => 20 end.

(** The script of a batch: the one raw part of the statement. *)
Inductive BatchError := EmptySql | BatchPlaceholders.
Definition batch_script {Value} (st : Statement Value) : res BatchError string :=
  match rev (sm_parts st) with
  | [] => Err EmptySql
  | [Raw sql] => Ok sql
  | _ => Err BatchPlaceholders
  end.

(** ** PostgreSQL *)

Definition is_space : ascii -> bool := is_whitespace.
Fixpoint split_whitespace_from (current s : string) : list string :=
  match s with
  | EmptyString => if String.eqb current "" then [] else [current]
  | String c s' =>
      if is_space c then (if String.eqb current "" then split_whitespace_from "" s' else current :: split_whitespace_from "" s')
      else split_whitespace_from (push current c) s'
  end.
Definition split_whitespace : string -> list string := split_whitespace_from "".
Definition schema_of (token : string) : option string :=
  if String.prefix "schema=" token then Some (String.substring 7 (String.length token - 7) token) else None.
Fixpoint strip_tokens (schema : option string) (tokens : list string) : option string * list string :=
  match tokens with
  | [] => (schema, [])
  | t :: tokens =>
      match schema_of t with
      | Some rest => strip_tokens (Some rest) tokens
      | None => let r := strip_tokens schema tokens in (r.1, t :: r.2)
      end
  end.
Definition strip_schema (input : string) : option string * string :=
  let r := strip_tokens None (split_whitespace input) in (r.1, String.concat " " r.2).

Inductive SslMode := NoTls | NativeTls (accept_invalid_certs accept_invalid_hostnames : bool).
(** The TLS connector is built; when that fails the code goes on without TLS. *)
Definition build_tls (built : bool) (certs hosts : bool) : SslMode := if built then NativeTls certs hosts else NoTls.
Definition ssl_mode (built : bool) (url : string) : SslMode :=
  if contains url "sslmode=verify-full" then build_tls built false false
  else if contains url "sslmode=verify-ca" then build_tls built false true
  else if contains url "sslmode=prefer" || contains url "sslmode=allow" || contains url "sslmode=require" then build_tls built true true
  else NoTls.
Record PgConfig := mkPgConfig { pc_url : string; pc_schema : option string; pc_tls : SslMode }.
Definition pg_config (built : bool) (conn_str : string) : PgConfig :=
  let '(schema, url) := strip_schema conn_str in mkPgConfig url schema (ssl_mode built url).

Section postgres.
Context {Client Error : Type}.
Variables (Timeout FailedConnection : Error).

(** What a connection shares with its task: the client, an error that is taken
    by the first who reads it, and the stale flag of the pool. *)
Record PgConn := mkPgConn { pg_result : option Client; pg_error : option Error; pg_stale : bool }.
Definition pg_new : PgConn := mkPgConn None None false.

(** How the task ends. *)
Inductive Connected := ConnectFailed (e : Error) | SchemaFailed (e : Error) | Done (client : Client).
Definition connect_task (tls : SslMode) (o : Connected) (c : PgConn) : PgConn :=
  match o with
  | ConnectFailed e => mkPgConn (pg_result c) (Some e) false
  | SchemaFailed e => mkPgConn (pg_result c) (Some e) (match tls with NoTls => false | NativeTls _ _ => true end)
  | Done client => mkPgConn (match pg_result c with Some x => Some x | None => Some client end) (pg_error c) (pg_stale c)
  end.
(** The socket of a connection that was made is closed. *)
Definition closed (c : PgConn) : PgConn := mkPgConn (pg_result c) (pg_error c) true.

(** [inner]: the client or an error.  The task can end before the call, between
    its checks and its wait (the notice is lost), during the wait or later. *)
Inductive Ends := Before | Between (o : Connected) | During (o : Connected) | Never.
Definition take_error (c : PgConn) : option Error * PgConn := (pg_error c, mkPgConn (pg_result c) None (pg_stale c)).
Definition after_wait (c : PgConn) : res Error Client * PgConn :=
  match pg_result c with
  | Some client => (Ok client, c)
  | None => match take_error c with
            | (Some e, c') => (Err e, c')
            | (None, c') => (Err FailedConnection, c')
            end
  end.
Definition inner (tls : SslMode) (ends : Ends) (c : PgConn) : res Error Client * PgConn :=
  match pg_result c with
  | Some client => (Ok client, c)
  | None =>
      match take_error c with
      | (Some e, c') => (Err e, c')
      | (None, c') =>
          match ends with
          | Before | Never => (Err Timeout, c')
          | Between o => (Err Timeout, connect_task tls o c')
          | During o => after_wait (connect_task tls o c')
          end
      end
  end.
End postgres.
End Conn.
