(* ===== verification/ConnFacts.v ===== *)
(** * Properties of connections

    Migrating a store applies the missing scripts in order, all of them or
    none; doing it again changes nothing; a script reaches the engine as it was
    written.  A connection to PostgreSQL that could not be made stays in the
    pool and fails for ever. *)
From Stdlib Require Import Ascii.
From stdpp Require Import base numbers list strings gmap.
From S2P Require Import Prelude MintFacts Stmt StmtFacts Pool Conn.
Import MintFacts Stmt StmtFacts Pool Conn.

Local Open Scope mint_scope.
Local Open Scope string_scope.

Module ConnFacts.

(** ** Migrations *)

Section migrations.
Context {Cn Error Tables : Type} `{HD : Driver Cn Error} {HL : DriverLaws Cn Error Tables}.

(** The tables after the missing migrations of a driver. *)
Definition migrated_one (db_prefix : string) (t : Tables) (m : Migration) : Tables :=
  if relevant db_prefix m && negb (bool_decide (m.1.2 ∈ names t)) then add_name m.1.2 (script m.2 t) else t.
Definition migrated (db_prefix : string) : list Migration -> Tables -> Tables := fun l t => fold_left (migrated_one db_prefix) l t.

(** A computation in a transaction leaves the durable tables and turns the
    working ones into [f t]. *)
Definition works (c : M Cn Error unit) (f : Tables -> Tables) : Prop := forall s t, working s = Some t ->
  fst (c s) <> Panic /\ durable (snd (c s)) = durable s /\ (fst (c s) = Ok tt -> working (snd (c s)) = Some (f t)).

Lemma works_seq c d f g : works c f -> works d g -> works (do_ c ; d) (fun t => g (f t)).
Proof.
  intros Hc Hd s t Ht. unfold mseq. destruct (Hc s t Ht) as (Hp & Hdu & Hok). destruct (c s) as [[[]|e|] s1]; cbn in *; [|done..].
  destruct (Hd s1 (f t)) as (Hp' & Hdu' & Hok'); [auto|]. split_and!; [done|congruence|done].
Qed.
Lemma works_mono c f g : works c f -> (forall t, f t = g t) -> works c g.
Proof. intros H E s t Ht. rewrite <- E. auto. Qed.
Lemma works_ret : works (mret tt) id.
Proof. by intros s t Ht. Qed.
Lemma works_batch q : works (batch q) (script q).
Proof. intros s t Ht. destruct (batch_run q s t Ht). split_and!; [apply (no_panic s)|auto..]. Qed.
Lemma works_insert n : works (insert_migration n) (add_name n).
Proof. intros s t Ht. destruct (insert_run n s t Ht). split_and!; [apply (no_panic s)|auto..]. Qed.
Lemma works_create : works create_migrations id.
Proof. intros s t Ht. destruct (create_run s t Ht). split_and!; [apply (no_panic s)|auto..]. Qed.

Lemma works_select n (k : bool -> M Cn Error unit) f : (forall b, works (k b) (f b)) ->
  works (mseq (select_migration n) k) (fun t => f (bool_decide (n ∈ names t)) t).
Proof.
  intros Hk s t Ht. destruct (select_run n s t Ht) as [Hd Hb]. pose proof (no_panic s) as (_ & _ & _ & Hp & _). specialize (Hp n).
  unfold mseq. destruct (select_migration n s) as [[b|e|] s1]; cbn in *; [|done..].
  destruct (Hb b eq_refl) as [<- Hw]. destruct (Hk b s1 t Hw) as (? & ? & ?). split_and!; [done|congruence|done].
Qed.
Lemma works_one p m : works (migrate_one p m) (fun t => migrated_one p t m).
Proof.
  unfold migrate_one, migrated_one. destruct (relevant p m); cbn; [|apply works_ret].
  eapply works_mono; [apply (works_select _ _ (fun b t => if b : bool then t else add_name m.1.2 (script m.2 t)))|].
  { intros []; [apply works_ret|]. exact (works_seq _ _ _ _ (works_batch m.2) (works_insert m.1.2)). }
  intros t. cbn. by case_bool_decide.
Qed.
Lemma works_migrate p l : works (migrate p l) (migrated p l).
Proof.
  assert (works (mfor (migrate_one p) l) (migrated p l)) as H.
  { induction l as [|m l IH]; [apply works_ret|]. apply (works_seq _ _ _ _ (works_one p m) IH). }
  apply (works_seq _ _ _ _ works_create H).
Qed.

(** Migrating a store has all of its effect or none: when it returns, the
    durable tables are those with the missing migrations applied in order and no
    transaction is open; when it fails they are what they were. *)
Theorem migrate_store_all_or_nothing p l c c' r : migrate_store p l c = (r, c') ->
  (r = Ok tt /\ durable c' = migrated p l (durable c) /\ working c' = None) \/
  ((exists e, r = Err e) /\ durable c' = durable c).
Proof.
  unfold migrate_store, in_transaction, mseq at 1. pose proof (no_panic c) as (Hp & _).
  destruct (begin_stmt c) as [[[]|e|] c1] eqn:Hb; [|intros [= <- <-]; right; split; [eauto|by eapply begin_Err]|done].
  apply begin_Ok in Hb as (_ & Hd & Hw). destruct (works_migrate p l c1 _ Hw) as (Hnp & Hd1 & Hok).
  destruct (migrate p l c1) as [[[]|e|] c2]; cbn in *; [| |done].
  - specialize (Hok eq_refl). unfold mseq, mret. pose proof (no_panic c2) as (_ & Hp2 & _).
    destruct (commit_stmt c2) as [[[]|e|] c3] eqn:Hc; intros [= <- <-]; [left|right|done].
    + destruct (commit_Ok c2 c3 _ Hok Hc). split_and!; congruence.
    + split; [eauto|]. apply commit_Err in Hc. congruence.
  - intros [= <- <-]. right. split; [eauto|]. rewrite rollback_durable. congruence.
Qed.

Lemma names_one p t m : names (migrated_one p t m) = if relevant p m then {[m.1.2]} ∪ names t else names t.
Proof.
  unfold migrated_one. destruct (relevant p m); cbn; [|done]. case_bool_decide; cbn; [set_solver|].
  by rewrite names_add, names_script.
Qed.
Lemma names_migrated p l t : names (migrated p l t) = list_to_set ((fun m => m.1.2) <$> filter (fun m => relevant p m) l) ∪ names t.
Proof.
  revert t. induction l as [|m l IH]; intros t; [set_solver|].
  change (migrated p (m :: l) t) with (migrated p l (migrated_one p t m)). rewrite IH, names_one.
  destruct (relevant p m) eqn:E; [rewrite filter_cons_True by by rewrite E|rewrite filter_cons_False by (rewrite E; tauto)]; set_solver.
Qed.
Lemma migrated_done p l t : (forall m, m ∈ l -> relevant p m -> m.1.2 ∈ names t) -> migrated p l t = t.
Proof.
  intros H. induction l as [|m l IH]; [done|]. cbn. assert (migrated_one p t m = t) as ->; [|apply IH; set_solver].
  unfold migrated_one. destruct (relevant p m) eqn:E; [|done]. rewrite bool_decide_eq_true_2; [done|]. apply H; [set_solver|by rewrite E].
Qed.

(** Migrations are recorded by name, and migrating again does nothing. *)
Theorem migrate_again p l t : migrated p l (migrated p l t) = migrated p l t /\
  names (migrated p l t) = list_to_set ((fun m => m.1.2) <$> filter (fun m => relevant p m) l) ∪ names t.
Proof.
  split; [|apply names_migrated]. apply migrated_done. intros m Hm Hr. rewrite names_migrated.
  apply elem_of_union_l, elem_of_list_to_set, list_elem_of_fmap. exists m. split; [done|]. by apply list_elem_of_filter.
Qed.

(** An engine on which a failed commit leaves the transaction open: the
    connection goes back to the pool like this, and no transaction can be
    started on it again. *)
Theorem failed_commit_blocks_connection (A B : Type) (body : M Cn Error A) (next : M Cn Error B) c c' e :
  (forall s, working s <> None -> exists e', begin_stmt s = (Err e', s)) ->
  (forall s e' s', commit_stmt s = (Err e', s') -> s' = s) ->
  (forall s s' a, working s <> None -> body s = (Ok a, s') -> working s' <> None) ->
  (exists s s' a, begin_stmt c = (Ok tt, s) /\ body s = (Ok a, s') /\ fst (commit_stmt s') = Err e) ->
  snd (in_transaction body c) = c' ->
  exists e', in_transaction next c' = (Err e', c').
Proof.
  intros Hb Hc Hbody (s & s' & a & H1 & H2 & H3) <-. assert (snd (in_transaction body c) = s') as ->.
  { unfold in_transaction, mseq. rewrite H1, H2. destruct (commit_stmt s') as [r s3] eqn:E. cbn in H3. subst r. by apply Hc in E as ->. }
  apply begin_Ok in H1 as (_ & _ & Hw). destruct (Hb s') as [e' He]; [apply (Hbody s s' a); [by rewrite Hw|done]|].
  exists e'. unfold in_transaction, mseq. by rewrite He.
Qed.
End migrations.

(** The script of a migration that SQLite gets is the text of the statement. *)
Theorem batch_script_verbatim {Value} input (l : list (SqlPart Value)) sql :
  split_sql_parts input = Ok l -> batch_script (mkStatement None None l) = Ok sql -> sql = input.
Proof.
  intros [Hs _]%(proj2 (split_sql_parts_spec input)). unfold batch_script. cbn.
  destruct (rev l) as [|[raw|] [|]] eqn:E; try done. intros [= ->].
  assert (l = [Raw sql]) as -> by by rewrite <- (rev_involutive l), E. cbn in Hs. by rewrite string_app_nil_r in Hs.
Qed.

(** ** PostgreSQL *)

(** The schema is the last one that is given, and no token that gives one is left. *)
Theorem strip_tokens_spec l : forall schema,
  (strip_tokens schema l).1 = foldl (fun s t => match schema_of t with Some r => Some r | None => s end) schema l /\
  (strip_tokens schema l).2 = filter (fun t => schema_of t = None) l.
Proof.
  induction l as [|t l IH]; intros schema; [done|]. cbn [strip_tokens foldl]. destruct (schema_of t) as [r|] eqn:E.
  - rewrite filter_cons_False by by rewrite E. apply IH.
  - rewrite filter_cons_True by done. destruct (IH schema) as [-> ->]. done.
Qed.

Section postgres.
Context {Client Error : Type} (Timeout FailedConnection : Error).

Abbreviation PgConn := (@PgConn Client Error).
Fixpoint inners (tls : SslMode) (n : nat) (c : PgConn) : list (res Error Client) * PgConn :=
  match n with
  | O => ([], c)
  | S n => let '(r, c1) := inner Timeout FailedConnection tls Before c in let '(l, c2) := inners tls n c1 in (r :: l, c2)
  end.

(** When the server could not be reached, every use of the connection fails:
    the first with the error of the connection, the others after a timeout.  The
    connection is never marked as stale. *)
Theorem failed_pg_connection_fails_forever tls e n :
  let c := connect_task tls (ConnectFailed e) pg_new in
  (inners tls (S n) c).1 = Err e :: replicate n (Err Timeout) /\ pg_stale (inners tls (S n) c).2 = false.
Proof.
  cbn zeta. assert (forall c : PgConn, pg_result c = None -> pg_error c = None ->
    (inners tls n c).1 = replicate n (Err Timeout) /\ pg_stale (inners tls n c).2 = pg_stale c) as H.
  { induction n as [|n IH]; intros c Hr He; [done|]. cbn [inners]. unfold inner, take_error. rewrite Hr, He.
    destruct (IH (mkPgConn (pg_result c) None (pg_stale c))) as [H1 H2]; [done..|]. rewrite Hr in H1, H2.
    destruct (inners _ n _). cbn in *. by rewrite H1, H2. }
  destruct (H (mkPgConn None None false) eq_refl eq_refl) as [H1 H2]. cbn [inners]. unfold inner, take_error. cbn.
  destruct (inners _ n _). cbn in *. by rewrite H1, H2.
Qed.

(** A task that ends between the checks of a call and its wait: the call times
    out although the connection is made, and the next one gets the client. *)
Theorem notice_can_be_lost tls (client : Client) :
  let r := inner Timeout FailedConnection tls (Between (Done client)) pg_new in
  fst r = Err Timeout /\ fst (inner Timeout FailedConnection tls Before (snd r)) = Ok client.
Proof. by split. Qed.

(** A connection that is not stale comes back to the next call. *)
Theorem failed_pg_connection_reused max_size s :
  (0 < max_size)%N -> run [Get 0; Count 0; Open 0 true; Release 0; Get 1; Count 1] (new max_size) = Some s ->
  pl_calls s !! 1%nat = Some (Holding 0).
Proof.
  intros Hm. destruct max_size as [|m]; [done|]. vm_compute. by intros [= <-].
Qed.
End postgres.
End ConnFacts.
