(* ===== verification/PubSub.v ===== *)
(** * Publish and subscribe (crates/cdk-common/src/pub_sub and cdk-axum/src/ws)

    Module [PubSub]: the manager of subscriptions.  Events have topics; a
    subscription listens to topics and has a bounded channel of its own, from
    which its owner receives.  A subscriber remembers the latest event that was
    sent to it and drops a repetition.

    Module [WsServer]: a web socket connection of the mint.  For each request to
    subscribe it starts a task that forwards the events of the subscription to
    the connection.

    Topics, events and names are parameters.  The steps of tasks are separate
    operations.  Subscription ids are counted without wrapping. *)
From stdpp Require Import base numbers list strings gmap.
From S2P Require Import Prelude.

Local Open Scope N_scope.

Module PubSub.

Definition DEFAULT_CHANNEL_SIZE : nat := 10000.

Section core.
Context {Topic Event SubId : Type} `{Countable Topic} `{EqDecision Event}.
Variable get_topics : Event -> list Topic.

(** ** A subscriber and its channel *)

Record Subscriber := mkSubscriber {
  sb_subscription : SubId;
  sb_latest : option Event;
  sb_queue : list (SubId * Event);
  sb_closed : bool               (* the receiver is gone *)
}.

(** [mpsc::Sender::try_send], whose error is ignored. *)
Definition try_send (event : Event) (s : Subscriber) : Subscriber :=
  if sb_closed s || (DEFAULT_CHANNEL_SIZE <=? length (sb_queue s))%nat then s
  else mkSubscriber (sb_subscription s) (sb_latest s) (sb_queue s ++ [(sb_subscription s, event)]) (sb_closed s).
Definition send (event : Event) (s : Subscriber) : Subscriber :=
  let s' := mkSubscriber (sb_subscription s) (Some event) (sb_queue s) (sb_closed s) in
  if decide (sb_latest s = Some event) then s' else try_send event s'.

(** ** The manager *)

Record Pubsub := mkPubsub {
  ps_listeners : gset (Topic * nat);
  ps_subscribers : gmap nat Subscriber;
  ps_counter : nat;                        (* unique_subscription_counter *)
  ps_active : N;                           (* active_subscribers *)
  ps_subscriptions : gmap nat (list Topic) (* the [ActiveSubscription]s that exist *)
}.
Definition new : Pubsub := mkPubsub ∅ ∅ 0 0 ∅.

(** The entries [(topic, 0)..] of the index, up to another topic. *)
Definition listening (s : Pubsub) (topic : Topic) : list nat :=
  filter (fun id => (topic, id) ∈ ps_listeners s) (seq 0 (ps_counter s)).
Definition send_to (event : Event) (id : nat) (s : Pubsub) : Pubsub :=
  mkPubsub (ps_listeners s) (alter (send event) id (ps_subscribers s)) (ps_counter s) (ps_active s) (ps_subscriptions s).
Definition deliver (event : Event) (st : gset nat * Pubsub) (id : nat) : gset nat * Pubsub :=
  if decide (id ∈ st.1) then st else ({[id]} ∪ st.1, send_to event id st.2).
Definition publish_internal (event : Event) (s : Pubsub) : Pubsub :=
  snd (fold_left (fun st topic => fold_left (deliver event) (listening s topic) st) (get_topics event) (∅, s)).

(** [subscribe]: the counters change before the topics are read. *)
Definition subscribe {Error} (name : SubId) (topics : res Error (list Topic)) : M Pubsub Error nat := fun s =>
  let id := ps_counter s in
  let active := fetch_add (ps_active s) in
  match topics with
  | Ok l => (Ok id, mkPubsub (list_to_set ((fun t => (t, id)) <$> l) ∪ ps_listeners s)
                      (<[id := mkSubscriber name None [] false]> (ps_subscribers s)) (S id) active
                      (<[id := l]> (ps_subscriptions s)))
  | Err e => (Err e, mkPubsub (ps_listeners s) (ps_subscribers s) (S id) active (ps_subscriptions s))
  | Panic => (Panic, mkPubsub (ps_listeners s) (ps_subscribers s) (S id) active (ps_subscriptions s))
  end.

(** The task that sends earlier events to a new subscriber. *)
Definition fetch_events (id : nat) (events : list Event) (s : Pubsub) : Pubsub :=
  fold_left (fun s e => send_to e id s) events s.

(** [ActiveSubscription::try_recv] and its drop. *)
Definition try_recv (id : nat) (s : Pubsub) : option Event * Pubsub :=
  match ps_subscribers s !! id with
  | Some sub =>
      match sb_queue sub with
      | (_, event) :: q =>
          (Some event, mkPubsub (ps_listeners s) (<[id := mkSubscriber (sb_subscription sub) (sb_latest sub) q (sb_closed sub)]> (ps_subscribers s))
                         (ps_counter s) (ps_active s) (ps_subscriptions s))
      | [] => (None, s)
      end
  | None => (None, s)
  end.
Definition close (s : Subscriber) : Subscriber := mkSubscriber (sb_subscription s) (sb_latest s) [] true.
Definition drop_subscription (id : nat) (s : Pubsub) : Pubsub :=
  match ps_subscriptions s !! id with
  | Some topics =>
      mkPubsub (ps_listeners s ∖ list_to_set ((fun t => (t, id)) <$> topics)) (alter close id (ps_subscribers s)) (ps_counter s)
        (fetch_sub (ps_active s)) (delete id (ps_subscriptions s))
  | None => s
  end.

(** The operations, in any order. *)
Inductive Action :=
| Subscribe (name : SubId) (topics : option (list Topic))
| Publish (event : Event)
| Fetched (id : nat) (events : list Event)
| Recv (id : nat)
| Gone (id : nat).
Definition topics_read (o : option (list Topic)) : res unit (list Topic) := match o with Some l => Ok l | None => Err tt end.
Definition act (a : Action) (s : Pubsub) : Pubsub :=
  match a with
  | Subscribe name topics => snd (subscribe name (topics_read topics) s)
  | Publish event => publish_internal event s
  | Fetched id events => fetch_events id events s
  | Recv id => snd (try_recv id s)
  | Gone id => drop_subscription id s
  end.
Definition acts (l : list Action) (s : Pubsub) : Pubsub := fold_left (fun s a => act a s) l s.
End core.
Arguments Subscriber : clear implicits.
Arguments Pubsub Topic Event SubId {_ _}.
Arguments Action : clear implicits.
End PubSub.

(** ** Web sockets of the mint *)

Module WsServer.
Import PubSub.

Definition PUBLISHER_SIZE : nat := 100.

(** error.rs, with the codes of JSON-RPC. *)
Inductive WsError := ParseError | InvalidRequest | MethodNotFound | InvalidParams | InternalError | ServerError (code : Z) (message : string).
Definition ws_error_body (e : WsError) : Z * string :=
  match e with
  | ParseError => (-32700, "Parse error")
  | InvalidRequest => (-32600, "Invalid Request")
  | MethodNotFound => (-32601, "Method not found")
  | InvalidParams => (-32602, "Invalid params")
  | InternalError => (-32603, "Internal error")
  | ServerError code message => (code, message)
  end%Z%string.

Section server.
Context {Topic Event SubId : Type} `{Countable Topic} `{Countable SubId} `{EqDecision Event}.

(** A connection: its subscriptions with the handles of their tasks, the
    channel of its tasks, and what was sent to the client.  [wx_tasks] are the
    tasks that run, each with its name and the subscription it owns. *)
Record WsContext := mkWsContext {
  wx_subscriptions : gmap SubId nat;
  wx_publisher : list (SubId * Event);
  wx_closed : bool;
  wx_sent : list (SubId * Event);
  wx_tasks : list (SubId * nat)
}.
Definition ws_new : WsContext := mkWsContext ∅ [] false [] [].
Definition Ws : Type := Pubsub Topic Event SubId * WsContext.

(** subscribe.rs. *)
Definition handle_subscribe {Error} (id : SubId) (topics : res Error (list Topic)) : M Ws WsError SubId := fun '(p, c) =>
  if decide (is_Some (wx_subscriptions c !! id)) then (Err InvalidParams, (p, c))
  else
    match subscribe id topics p with
    | (Ok sub, p') =>
        (Ok id, (p', mkWsContext (<[id := length (wx_tasks c)]> (wx_subscriptions c)) (wx_publisher c) (wx_closed c) (wx_sent c) (wx_tasks c ++ [(id, sub)])))
    | (Err _, p') => (Err ParseError, (p', c))
    | (Panic, p') => (Panic, (p', c))
    end.

(** unsubscribe.rs: the handle of the task is dropped, which leaves it running. *)
Definition handle_unsubscribe (id : SubId) : M Ws WsError SubId := fun '(p, c) =>
  match wx_subscriptions c !! id with
  | Some _ => (Ok id, (p, mkWsContext (delete id (wx_subscriptions c)) (wx_publisher c) (wx_closed c) (wx_sent c) (wx_tasks c)))
  | None => (Err InvalidParams, (p, c))
  end.

(** A round of a task: it receives an event and forwards it. *)
Definition forward (task : nat) : Ws -> Ws := fun '(p, c) =>
  match wx_tasks c !! task with
  | Some (name, sub) =>
      match try_recv sub p with
      | (Some event, p') =>
          if wx_closed c || (PUBLISHER_SIZE <=? length (wx_publisher c))%nat then (p', c)
          else (p', mkWsContext (wx_subscriptions c) (wx_publisher c ++ [(name, event)]) (wx_closed c) (wx_sent c) (wx_tasks c))
      | (None, p') => (p', c)
      end
  | None => (p, c)
  end.

(** The connection takes an event from its channel and sends it to the client,
    unless the client has unsubscribed. *)
Definition notify : Ws -> Ws := fun '(p, c) =>
  match wx_publisher c with
  | (id, event) :: l =>
      (p, mkWsContext (wx_subscriptions c) l (wx_closed c)
            (if decide (is_Some (wx_subscriptions c !! id)) then wx_sent c ++ [(id, event)] else wx_sent c) (wx_tasks c))
  | [] => (p, c)
  end.

(** The end of [main_websocket]: the connection and its handles are dropped. *)
Definition ws_close : Ws -> Ws := fun '(p, c) => (p, mkWsContext ∅ [] true (wx_sent c) (wx_tasks c)).

Inductive WsAction := WsSubscribe (id : SubId) (topics : option (list Topic)) | WsUnsubscribe (id : SubId) | WsForward (task : nat) | WsNotify | WsClose.
Definition ws_act (a : WsAction) (s : Ws) : Ws :=
  match a with
  | WsSubscribe id topics => snd (handle_subscribe id (topics_read topics) s)
  | WsUnsubscribe id => snd (handle_unsubscribe id s)
  | WsForward task => forward task s
  | WsNotify => notify s
  | WsClose => ws_close s
  end.
Definition ws_acts (l : list WsAction) (s : Ws) : Ws := fold_left (fun s a => ws_act a s) l s.
End server.
End WsServer.
