(* ===== verification/PubSubFacts.v ===== *)
(** * Properties of publish and subscribe

    An event goes to every subscription that listens to one of its topics, and
    once; the index has exactly the topics of the subscriptions that exist; the
    number of active subscribers is theirs and that of the requests that could
    not be read.  A client of a web socket gets the events it asked for, but
    what it subscribed to is never given up. *)
From stdpp Require Import base numbers list gmap.
From S2P Require Import Prelude PubSub.
Import PubSub WsServer.

Local Open Scope N_scope.

Module PubSubFacts.
Section core.
Context {Topic Event SubId : Type} `{Countable Topic} `{EqDecision Event} (get_topics : Event -> list Topic).
Abbreviation Pubsub := (Pubsub Topic Event SubId).
Implicit Types (s : Pubsub) (e : Event) (id : nat).

(** ** Publishing *)

Lemma fold_nested {A B C} (f : A -> C -> A) (g : B -> list C) l a :
  fold_left (fun a b => fold_left f (g b) a) l a = fold_left f (concat (g <$> l)) a.
Proof. revert a. induction l as [|b l IH]; intros a; cbn; [done|]. by rewrite IH, fold_left_app. Qed.

Lemma deliver_lookup e ids : forall sent s, let r := fold_left (deliver e) ids (sent, s) in
  ps_listeners r.2 = ps_listeners s /\ ps_counter r.2 = ps_counter s /\ ps_active r.2 = ps_active s /\ ps_subscriptions r.2 = ps_subscriptions s /\
  forall id, ps_subscribers r.2 !! id =
    if decide (id ∈ ids /\ id ∉ sent) then send e <$> ps_subscribers s !! id else ps_subscribers s !! id.
Proof.
  induction ids as [|i ids IH]; intros sent s; cbn zeta.
  - by split_and!.
  - cbn [fold_left]. unfold deliver at 2 4 6 8 10. cbn [fst snd]. destruct (decide (i ∈ sent)) as [Hi|Hi].
    + destruct (IH sent s) as (-> & -> & -> & -> & Hs). split_and!; try done. intros id. rewrite Hs.
      apply decide_ext. set_solver.
    + destruct (IH ({[i]} ∪ sent) (send_to e i s)) as (-> & -> & -> & -> & Hs). split_and!; try done. intros id. rewrite Hs. cbn.
      destruct (decide (id = i)) as [->|N].
      * rewrite lookup_alter_eq, decide_False, decide_True; [done|set_solver..].
      * rewrite lookup_alter_ne by done. apply decide_ext. set_solver.
Qed.

Lemma elem_of_listening s t id : id ∈ listening s t <-> (t, id) ∈ ps_listeners s /\ (id < ps_counter s)%nat.
Proof. unfold listening. rewrite list_elem_of_filter, elem_of_seq. naive_solver lia. Qed.

Lemma publish_frame e s : let s' := publish_internal get_topics e s in
  ps_listeners s' = ps_listeners s /\ ps_counter s' = ps_counter s /\ ps_active s' = ps_active s /\ ps_subscriptions s' = ps_subscriptions s.
Proof. unfold publish_internal. rewrite fold_nested. cbn zeta. destruct (deliver_lookup e (concat (listening s <$> get_topics e)) ∅ s) as (? & ? & ? & ? & _). done. Qed.

(** ** The index *)

Record wf s : Prop := {
  wf_listeners : forall t id, (t, id) ∈ ps_listeners s <-> exists l, ps_subscriptions s !! id = Some l /\ t ∈ l;
  wf_old : forall id, is_Some (ps_subscriptions s !! id) -> (id < ps_counter s)%nat;
  wf_subscriber : forall id, is_Some (ps_subscriptions s !! id) -> is_Some (ps_subscribers s !! id)
}.

Lemma wf_new : wf new.
Proof.
  split; [|unfold new; cbn; by intros id [? Hx%lookup_empty_Some]..]. intros t id. cbn. split; [set_solver|]. intros (l & Hl & _). by rewrite lookup_empty in Hl.
Qed.

Lemma send_to_fold_frame id events s : let s' := fetch_events id events s in
  ps_listeners s' = ps_listeners s /\ ps_counter s' = ps_counter s /\ ps_active s' = ps_active s /\ ps_subscriptions s' = ps_subscriptions s /\
  dom (ps_subscribers s') = dom (ps_subscribers s).
Proof.
  unfold fetch_events. revert s. induction events as [|e l IH]; intros s; [done|]. cbn [fold_left].
  destruct (IH (send_to e id s)) as (-> & -> & -> & -> & ->). cbn. by rewrite dom_alter_L.
Qed.

(** Equal on everything but the contents of subscribers. *)
Lemma wf_same s s' : wf s -> ps_listeners s' = ps_listeners s -> ps_counter s' = ps_counter s -> ps_subscriptions s' = ps_subscriptions s ->
  (forall id, is_Some (ps_subscribers s !! id) -> is_Some (ps_subscribers s' !! id)) -> wf s'.
Proof. intros [H1 H2 H3] El Ec Es Hd. split; rewrite ?El, ?Ec, ?Es; eauto. Qed.

Lemma wf_publish e s : wf s -> wf (publish_internal get_topics e s).
Proof.
  intros W. destruct (publish_frame e s) as (? & ? & _ & ?). apply (wf_same s); auto.
  intros id Hs. unfold publish_internal. rewrite fold_nested.
  destruct (deliver_lookup e (concat (listening s <$> get_topics e)) ∅ s) as (_ & _ & _ & _ & ->).
  destruct (decide _); [|done]. by apply fmap_is_Some.
Qed.

Lemma wf_recv id s : wf s -> wf (try_recv id s).2.
Proof.
  intros W. unfold try_recv. destruct (ps_subscribers s !! id) as [sub|] eqn:E; [|done]. destruct (sb_queue sub) as [|[n e] q]; [done|].
  apply (wf_same s); try done. intros i. cbn. destruct (decide (i = id)) as [->|N]; [by rewrite lookup_insert_eq|by rewrite lookup_insert_ne].
Qed.

Lemma wf_drop id s : wf s -> wf (drop_subscription id s).
Proof.
  intros [H1 H2 H3]. unfold drop_subscription. destruct (ps_subscriptions s !! id) as [l|] eqn:E; [|done]. split; cbn.
  - intros t i. rewrite elem_of_difference, elem_of_list_to_set, list_elem_of_fmap, H1. split.
    + intros [(l' & Hl & Ht) Hn]. exists l'. split; [|done]. apply lookup_delete_Some. split; [|done]. intros <-. apply Hn. exists t. split; [done|congruence].
    + intros (l' & [Hne Hl]%lookup_delete_Some & Ht). split; [eauto|]. intros (t' & [= -> ->] & _). done.
  - intros i [l' [_ Hl]%lookup_delete_Some]. apply H2. eauto.
  - intros i [l' [Hne Hl]%lookup_delete_Some]. rewrite lookup_alter_ne by done. apply H3. eauto.
Qed.

Lemma wf_subscribe {Error} name (topics : res Error (list Topic)) s : wf s -> wf (subscribe name topics s).2.
Proof.
  intros [H1 H2 H3]. unfold subscribe. destruct topics as [l|e|]; split; cbn; try done.
  - intros t i. rewrite elem_of_union, elem_of_list_to_set, list_elem_of_fmap. destruct (decide (i = ps_counter s)) as [->|N].
    + rewrite lookup_insert_eq. split; [|intros (l' & [= <-] & Ht); left; eauto].
      intros [(t' & [= ->] & Ht)|(l' & Hl & Ht)%H1]; [eauto|]. exfalso. assert (ps_counter s < ps_counter s)%nat; [apply H2; eauto|lia].
    + rewrite lookup_insert_ne, H1 by done. split; [|eauto]. intros [(t' & E & _)|?]; [congruence|done].
  - intros i. destruct (decide (i = ps_counter s)) as [->|N]; [lia|]. rewrite lookup_insert_ne by done. intros Hi%H2. lia.
  - intros i. destruct (decide (i = ps_counter s)) as [->|N]; [by rewrite !lookup_insert_eq|]. rewrite !lookup_insert_ne by done. auto.
  - intros i Hi%H2. lia.
  - intros i Hi%H2. lia.
Qed.

Lemma wf_act a s : wf s -> wf (act get_topics a s).
Proof.
  intros W. destruct a as [name topics|e|id l|id|id]; cbn [act].
  - by apply wf_subscribe.
  - by apply wf_publish.
  - destruct (send_to_fold_frame id l s) as (? & ? & _ & ? & Hd). apply (wf_same s); auto.
    intros i. rewrite <- !elem_of_dom. by rewrite Hd.
  - by apply wf_recv.
  - by apply wf_drop.
Qed.
Lemma wf_acts l s : wf s -> wf (acts get_topics l s).
Proof. revert s. induction l as [|a l IH]; intros s W; [done|]. apply IH, wf_act, W. Qed.

(** Publishing sends the event once to every subscription that listens to one
    of its topics and to no other, in every history. *)
Theorem publish_reaches_listeners (l : list (Action Topic Event SubId)) e id :
  let s := acts get_topics l new in
  ps_subscribers (publish_internal get_topics e s) !! id =
    if decide (Exists (fun t => (t, id) ∈ ps_listeners s) (get_topics e)) then send e <$> ps_subscribers s !! id else ps_subscribers s !! id.
Proof.
  cbn zeta. set (s := acts get_topics l new). assert (wf s) as W by apply wf_acts, wf_new.
  unfold publish_internal. rewrite fold_nested. destruct (deliver_lookup e (concat (listening s <$> get_topics e)) ∅ s) as (_ & _ & _ & _ & ->).
  apply decide_ext. rewrite Exists_exists, list_elem_of_In, in_concat. split.
  - intros [(ids & Hin & Hid) _]. apply list_elem_of_In, list_elem_of_fmap in Hin as (t & -> & Ht).
    apply list_elem_of_In, elem_of_listening in Hid as [Hl _]. eauto.
  - intros (t & Ht & Hl). split; [|set_solver]. exists (listening s t). split.
    + apply list_elem_of_In, list_elem_of_fmap. eauto.
    + apply list_elem_of_In, elem_of_listening. split; [done|]. apply (wf_old s W). apply (wf_listeners s W) in Hl as (x & -> & _). done.
Qed.

(** In every history the index is that of the subscriptions that exist. *)
Theorem index_is_subscriptions (l : list (Action Topic Event SubId)) t id :
  let s := acts get_topics l new in
  (t, id) ∈ ps_listeners s <-> exists topics, ps_subscriptions s !! id = Some topics /\ t ∈ topics.
Proof. cbn zeta. apply wf_listeners, wf_acts, wf_new. Qed.

(** ** The number of subscribers *)

Definition unread (a : Action Topic Event SubId) : bool := match a with Subscribe _ None => true | _ => false end.

Definition accounts (failed : nat) s : Prop := wf s /\ ps_active s = N.of_nat (size (ps_subscriptions s) + failed) mod (U64_MAX + 1).
Lemma accounts_act a s failed : accounts failed s -> accounts (failed + if unread a then 1 else 0)%nat (act get_topics a s).
Proof.
  intros [W Ha]. split; [by apply wf_act|]. destruct a as [name [topics|]|e|id l|id|id]; cbn [act unread topics_read]; rewrite ?Nat.add_0_r.
  - cbn -[N.of_nat fetch_add]. rewrite Ha, fetch_add_mod, map_size_insert_None.
    + f_equal. lia.
    + destruct (ps_subscriptions s !! ps_counter s) eqn:E; [|done]. assert (ps_counter s < ps_counter s)%nat; [apply (wf_old s W); eauto|lia].
  - cbn -[N.of_nat fetch_add]. rewrite Ha, fetch_add_mod. f_equal. lia.
  - destruct (publish_frame e s) as (_ & _ & -> & ->). done.
  - destruct (send_to_fold_frame id l s) as (_ & _ & -> & -> & _). done.
  - unfold try_recv. destruct (ps_subscribers s !! id) as [sub|]; [|done]. by destruct (sb_queue sub) as [|[]].
  - unfold drop_subscription. destruct (ps_subscriptions s !! id) as [l|] eqn:E; [|done]. cbn -[N.of_nat fetch_sub].
    rewrite Ha. rewrite map_size_delete, E. assert (size (ps_subscriptions s) <> 0)%nat.
    { intros Z%map_size_empty_iff. by rewrite Z, lookup_empty in E. }
    etransitivity; [|apply fetch_sub_mod]. do 2 f_equal. lia.
Qed.

(** The number of active subscribers is that of the subscriptions that exist and
    of the requests whose topics could not be read, which never go away. *)
Theorem active_counts_unread (l : list (Action Topic Event SubId)) :
  let s := acts get_topics l new in
  ps_active s = N.of_nat (size (ps_subscriptions s) + length (filter (fun a => unread a) l)) mod (U64_MAX + 1).
Proof.
  cbn zeta. assert (forall s failed, accounts failed s -> accounts (failed + length (filter (fun a => unread a) l)) (acts get_topics l s)) as Hl.
  { induction l as [|a l IH]; intros s failed A; [by rewrite Nat.add_0_r|]. apply (accounts_act a), IH in A. cbn [acts fold_left].
    replace (failed + length (filter (fun a => unread a) (a :: l)))%nat with (failed + (if unread a then 1 else 0) + length (filter (fun a => unread a) l))%nat; [done|].
    destruct (unread a) eqn:E; [rewrite filter_cons_True by by rewrite E|rewrite filter_cons_False by (rewrite E; tauto)]; cbn; lia. }
  apply (Hl new 0%nat). split; [apply wf_new|by vm_compute].
Qed.

(** ** Repetitions *)

(** Sending an event again does nothing. *)
Theorem send_again e (b : Subscriber Event SubId) : send e (send e b) = send e b.
Proof.
  unfold send at 1. assert (sb_latest (send e b) = Some e) as E.
  { unfold send. destruct (decide _); [done|]. unfold try_send. by destruct (_ || _). }
  rewrite decide_True by done. destruct (send e b) as [n la q cl]. cbn in E. by subst.
Qed.

(** An event that finds the channel full is lost, and sending it again after
    there is room does not help. *)
Theorem lost_event_stays_lost e n la q q' : la <> Some e -> length q = DEFAULT_CHANNEL_SIZE ->
  sb_queue (send e (mkSubscriber n (sb_latest (send e (mkSubscriber n la q false))) q' false)) = q' /\ sb_queue (send e (mkSubscriber n la q false)) = q :> list (SubId * Event).
Proof.
  intros Hn Hq. assert (send e (mkSubscriber n la q false) = mkSubscriber n (Some e) q false) as E.
  { assert ((DEFAULT_CHANNEL_SIZE <=? length q)%nat = true) as Hf by (apply Nat.leb_le; lia).
    unfold send, try_send. cbn [sb_latest sb_queue sb_closed sb_subscription orb]. by rewrite decide_False, Hf. }
  rewrite E. split; [|done]. unfold send. cbn. by rewrite decide_True.
Qed.
End core.

(** ** Web sockets *)

Section server.
Context {Topic Event SubId : Type} `{Countable Topic} `{Countable SubId} `{EqDecision Event} (get_topics : Event -> list Topic).
Abbreviation Pubsub := (Pubsub Topic Event SubId).
Abbreviation Ws := (@Ws Topic Event SubId _ _ _ _).

Lemma recv_frame id (p : Pubsub) : ps_listeners (try_recv id p).2 = ps_listeners p /\ ps_subscriptions (try_recv id p).2 = ps_subscriptions p.
Proof. unfold try_recv. destruct (ps_subscribers p !! id) as [b|]; [|done]. by destruct (sb_queue b) as [|[]]. Qed.

Lemma ws_act_grows (a : WsAction) (s : Ws) : wf s.1 ->
  wf (ws_act a s).1 /\ ps_listeners s.1 ⊆ ps_listeners (ws_act a s).1 /\ ps_subscriptions s.1 ⊆ ps_subscriptions (ws_act a s).1.
Proof.
  destruct s as [p c]. cbn [fst]. intros W. destruct a as [id topics|id|task| |]; cbn [ws_act].
  - unfold handle_subscribe. destruct (decide _); [done|]. pose proof (wf_subscribe id (topics_read topics) p W) as W'.
    destruct topics as [l|]; cbn in *; [|done]. split_and!; [done|set_solver|]. apply insert_subseteq.
    destruct (ps_subscriptions p !! ps_counter p) eqn:E; [|done]. assert (ps_counter p < ps_counter p)%nat; [apply (wf_old p W); eauto|lia].
  - unfold handle_unsubscribe. by destruct (wx_subscriptions c !! id).
  - unfold forward. destruct (wx_tasks c !! task) as [[n sub]|]; [|done]. pose proof (wf_recv sub p W) as W'. destruct (recv_frame sub p) as [E1 E2].
    destruct (try_recv sub p) as [[e|] p']; cbn in *; [destruct (_ || _)|]; cbn; by rewrite E1, E2.
  - unfold notify. by destruct (wx_publisher c) as [|[]].
  - done.
Qed.

(** Whatever a client does, unsubscribing and closing the connection included,
    no subscription of the mint ends. *)
Theorem ws_never_gives_up_subscriptions (l : list WsAction) (s : Ws) : wf s.1 ->
  ps_listeners s.1 ⊆ ps_listeners (ws_acts l s).1 /\ ps_subscriptions s.1 ⊆ ps_subscriptions (ws_acts l s).1.
Proof.
  revert s. induction l as [|a l IH]; intros s W; [done|]. destruct (ws_act_grows a s W) as (W' & H1 & H2).
  destruct (IH _ W') as [H3 H4]. cbn [ws_acts fold_left]. split; [set_solver|by etransitivity].
Qed.

(** A client that subscribes gets an event with one of its topics that is
    published afterwards, when its channel is empty. *)
Theorem ws_client_gets_event id (topics : list Topic) (p : Pubsub) c s e t :
  wf p -> wx_subscriptions c !! id = None -> wx_publisher c = [] -> wx_closed c = false ->
  handle_subscribe id (Ok topics : res unit _) (p, c) = (Ok id, s) -> t ∈ topics -> t ∈ get_topics e ->
  let s' := ws_acts [WsForward (length (wx_tasks c)); WsNotify] (publish_internal get_topics e s.1, s.2) in
  wx_sent s'.2 = wx_sent c ++ [(id, e)].
Proof.
  intros W Hi Hp Hc. unfold handle_subscribe. rewrite decide_False by by (rewrite Hi; intros []). cbn. intros [= <-] Ht He. cbn zeta. cbn [fst snd].
  match goal with |- context [publish_internal _ _ ?x] => set (p1 := x) end.
  assert (wf p1) as W1 by apply (wf_subscribe id (Ok topics : res unit _) p W).
  assert (ps_subscribers (publish_internal get_topics e p1) !! ps_counter p = Some (mkSubscriber id (Some e) [(id, e)] false)) as Hs.
  { unfold publish_internal. rewrite fold_nested. destruct (deliver_lookup get_topics e (concat (listening p1 <$> get_topics e)) ∅ p1) as (_ & _ & _ & _ & ->).
    rewrite decide_True.
    - subst p1. cbn. rewrite lookup_insert_eq. done.
    - split; [|set_solver]. apply list_elem_of_In, in_concat. exists (listening p1 t).
      split; apply list_elem_of_In; [by apply list_elem_of_fmap_2|]. apply elem_of_listening. subst p1. cbn. split; [set_solver|lia]. }
  cbn [ws_acts fold_left ws_act]. unfold forward. cbn [wx_tasks snd fst]. rewrite lookup_app_r, Nat.sub_diag by lia. cbn [lookup list_lookup].
  unfold try_recv. rewrite Hs. cbn [sb_queue]. rewrite Hp, Hc. cbn. rewrite lookup_insert_eq, decide_True by eauto. done.
Qed.
End server.

(** A client that unsubscribes and subscribes again under the same name gets
    every event twice. *)
Theorem ws_resubscribed_gets_twice :
  let s := ws_acts [WsSubscribe 7%nat (Some [1%nat]); WsUnsubscribe 7%nat; WsSubscribe 7%nat (Some [1%nat])] (new, ws_new) in
  let s' := ws_acts [WsForward 0; WsForward 1; WsNotify; WsNotify] (publish_internal (fun e : nat => [1%nat]) 5%nat s.1, s.2) in
  wx_sent s'.2 = [(7%nat, 5%nat); (7%nat, 5%nat)].
Proof. by vm_compute. Qed.
End PubSubFacts.
