(* ===== verification/Remote.v ===== *)
(** * Subscriptions to a remote mint (crates/cdk-common/src/pub_sub/remote_consumer.rs)

    The wallet's side of publish and subscribe.  Many local subscriptions share
    one subscription per topic at the remote side, which a counter keeps alive;
    the latest event of a topic is kept for those who come later.  A background
    loop keeps a stream open or polls.

    The transport is behind the operations: what it is told goes into a bounded
    channel, what it relays is an operation, and names that it draws are
    arguments. *)
From stdpp Require Import base numbers list strings gmap.
From S2P Require Import Prelude PubSub.
Import PubSub.

Local Open Scope mint_scope.
Local Open Scope N_scope.

Module Remote.

Definition INTERNAL_POLL_SIZE : nat := 1000.
Inductive Error :=
| NoSubscription | ParsingError (text : string) | Internal | InternalStr (text : string)
| NotSupported | ChannelFull | ChannelClosed.

Section consumer.
Context {Topic Event SubId : Type} `{Countable Topic} `{Countable SubId} `{EqDecision Event}.
Variable get_topics : Event -> list Topic.

Inductive StreamCtrl := CtrlSubscribe (name : SubId) (topic : Topic) | CtrlUnsubscribe (name : SubId) | CtrlStop.
Record UniqueSubscription := mkUnique { us_name : SubId; us_total : N }.

(** The channel to the transport, while there is a stream. *)
Record Ctrl := mkCtrl { ct_queue : list StreamCtrl; ct_closed : bool }.
Record Consumer := mkConsumer {
  co_pubsub : Pubsub Topic Event SubId;
  co_remote : gmap Topic UniqueSubscription;
  co_subscriptions : gmap SubId (list Topic);
  co_stream : option Ctrl;
  co_cached : gmap Topic Event
}.
Definition new_consumer : Consumer := mkConsumer new ∅ ∅ None ∅.
Definition set_pubsub (p : Pubsub Topic Event SubId) (s : Consumer) : Consumer := mkConsumer p (co_remote s) (co_subscriptions s) (co_stream s) (co_cached s).
Definition set_remote (r : gmap Topic UniqueSubscription) (s : Consumer) : Consumer := mkConsumer (co_pubsub s) r (co_subscriptions s) (co_stream s) (co_cached s).
Definition set_subscriptions (m : gmap SubId (list Topic)) (s : Consumer) : Consumer := mkConsumer (co_pubsub s) (co_remote s) m (co_stream s) (co_cached s).
Definition set_stream (c : option Ctrl) (s : Consumer) : Consumer := mkConsumer (co_pubsub s) (co_remote s) (co_subscriptions s) c (co_cached s).
Definition set_cached (m : gmap Topic Event) (s : Consumer) : Consumer := mkConsumer (co_pubsub s) (co_remote s) (co_subscriptions s) (co_stream s) m.

Definition message_to_stream (message : StreamCtrl) : M Consumer Error unit := fun s =>
  match co_stream s with
  | None => (Ok tt, s)
  | Some c =>
      if ct_closed c then (Err ChannelClosed, s)
      else if (INTERNAL_POLL_SIZE <=? length (ct_queue c))%nat then (Err ChannelFull, s)
      else (Ok tt, set_stream (Some (mkCtrl (ct_queue c ++ [message]) false)) s)
  end.

(** The transport reads the next message. *)
Definition take_message (s : Consumer) : option StreamCtrl * Consumer :=
  match co_stream s with
  | Some (mkCtrl (m :: q) closed) => (Some m, set_stream (Some (mkCtrl q closed)) s)
  | _ => (None, s)
  end.

(** ** Subscribing *)

(** The loop over the topics; [names] are the names that the transport draws. *)
Definition subscribe_topic (names : Topic -> SubId) (topic : Topic) : M Consumer Error (list Event) := fun s =>
  match co_remote s !! topic with
  | Some u =>
      (Ok (match co_cached s !! topic with Some v => [v] | None => [] end),
       set_remote (<[topic := mkUnique (us_name u) (us_total u + 1)]> (co_remote s)) s)
  | None =>
      mseq (message_to_stream (CtrlSubscribe (names topic) topic)) (fun _ => mret [])
        (set_remote (<[topic := mkUnique (names topic) 1]> (co_remote s)) s)
  end.
Fixpoint subscribe_topics (names : Topic -> SubId) (topics : list Topic) : M Consumer Error (list Event) :=
  match topics with
  | [] => mret []
  | t :: topics =>
      do l <- subscribe_topic names t ;
      do l' <- subscribe_topics names topics ;
      mret (l ++ l')%list
  end.
Definition subscribe_inner (name : SubId) (topics : list Topic) : M Consumer Error nat := fun s =>
  match subscribe name (Ok topics : res Error _) (co_pubsub s) with (r, p) => (r, set_pubsub p s) end.

(** The subscription in the local manager, and the events that are known. *)
Definition remote_subscribe (name : SubId) (topics : res Error (list Topic)) (names : Topic -> SubId) : M Consumer Error (nat * list Event) :=
  do topics <- mlift topics ;
  do known <- mgets (fun s => bool_decide (is_Some (co_subscriptions s !! name))) ;
  if known : bool then mfail NoSubscription
  else
    do previous_messages <- subscribe_topics names topics ;
    do_ mmodify (fun s => set_subscriptions (<[name := topics]> (co_subscriptions s)) s) ;
    do id <- subscribe_inner name topics ;
    mret (id, previous_messages).

(** ** Unsubscribing *)

Definition unsubscribe_topic (topic : Topic) : M Consumer Error unit := fun s =>
  match co_remote s !! topic with
  | None => (Ok tt, s)
  | Some u =>
      let total := us_total u - 1 in
      if total =? 0 then
        message_to_stream (CtrlUnsubscribe (us_name u)) (set_cached (delete topic (co_cached s)) (set_remote (delete topic (co_remote s)) s))
      else (Ok tt, set_remote (<[topic := mkUnique (us_name u) total]> (co_remote s)) s)
  end.
Definition unsubscribe (name : SubId) : M Consumer Error unit := fun s =>
  match co_subscriptions s !! name with
  | None => (Err NoSubscription, s)
  | Some topics =>
      (do_ mfor unsubscribe_topic topics ;
       do empty <- mgets (fun s => bool_decide (co_remote s = ∅)) ;
       if empty : bool then message_to_stream CtrlStop else mret tt)
        (set_subscriptions (delete name (co_subscriptions s)) s)
  end.
(** The drop of a [RemoteActiveConsumer] with its local subscription. *)
Definition drop_remote (name : SubId) (id : nat) (s : Consumer) : Consumer :=
  let s := snd (unsubscribe name s) in set_pubsub (drop_subscription id (co_pubsub s)) s.

(** [InternalRelay::send]: the publication is a task of its own, which runs here
    at once. *)
Definition relay (event : Event) (s : Consumer) : Consumer :=
  set_pubsub (publish_internal get_topics event (co_pubsub s))
    (set_cached (fold_left (fun m t => <[t := event]> m) (get_topics event) (co_cached s)) s).

(** The next event of a remote consumer: those it was given at the start first. *)
Definition next_event (previous : list Event) (id : nat) (s : Consumer) : option Event * list Event * Consumer :=
  match previous with
  | e :: l => (Some e, l, s)
  | [] => let '(o, p) := try_recv id (co_pubsub s) in (o, [], set_pubsub p s)
  end.

(** ** The background loop *)

Definition STREAM_CONNECTION_BACKOFF : N := 2000.
Definition STREAM_CONNECTION_MAX_BACKOFF : N := 30000.
Definition POLL_SLEEP : N := 2000.

(** The start of a stream gives the transport a new channel and the current
    subscriptions; its end takes the channel away. *)
Definition current_subscriptions (s : Consumer) : list (SubId * Topic) :=
  (fun e => (us_name e.2, e.1)) <$> map_to_list (co_remote s).
Definition start_stream (s : Consumer) : list (SubId * Topic) * Consumer :=
  (current_subscriptions s, set_stream (Some (mkCtrl [] false)) s).
Definition end_stream (s : Consumer) : Consumer := set_stream None s.
End consumer.

Record Loop := mkLoop { lp_stream_supported : bool; lp_poll_supported : bool; lp_backoff : N; lp_retry_at : option N }.
Definition loop_start : Loop := mkLoop true true STREAM_CONNECTION_BACKOFF None.
Inductive Effect := Sleep (millis : N) | Stream | Poll.

(** A round of the loop in [stream], or [None] when it ends.  [ended] is the
    time at which the stream ended. *)
Definition stream_due (prefer_polling : bool) (now : N) (l : Loop) : bool :=
  lp_stream_supported l && negb prefer_polling && match lp_retry_at l with Some t => t <? now | None => true end.
Definition after_stream (outcome : option Error) (ended : N) (l : Loop) : Loop :=
  match outcome with
  | Some err =>
      mkLoop (match err with NotSupported => false | _ => lp_stream_supported l end) (lp_poll_supported l)
        (N.min (lp_backoff l + STREAM_CONNECTION_BACKOFF) STREAM_CONNECTION_MAX_BACKOFF) (Some (ended + lp_backoff l))
  | None => mkLoop (lp_stream_supported l) (lp_poll_supported l) STREAM_CONNECTION_BACKOFF (lp_retry_at l)
  end.
Definition loop_round (still_running prefer_polling no_subscriptions : bool) (now ended : N) (streamed polled : option Error) (l : Loop) :
  option (Loop * list Effect) :=
  if (negb (lp_stream_supported l) && negb (lp_poll_supported l)) || negb still_running then None
  else if no_subscriptions then Some (l, [Sleep 100])
  else
    let due := stream_due prefer_polling now l in
    let l1 := if due then after_stream streamed ended l else l in
    let effects1 := if due then [Stream] else [] in
    if lp_poll_supported l1 then
      Some (mkLoop (lp_stream_supported l1) (match polled with Some NotSupported => false | _ => true end) (lp_backoff l1) (lp_retry_at l1),
            effects1 ++ [Poll; Sleep POLL_SLEEP])%list
    else Some (l1, effects1).
End Remote.
