(* ===== verification/RemoteFacts.v ===== *)
(** * Properties of subscriptions to a remote mint

    As long as the channel to the transport takes the messages, a topic is
    subscribed at the remote side exactly while a local subscription has it,
    and the transport knows exactly these topics.  A message that is not taken
    leaves a topic behind.  The loop waits between 2 and 30 seconds before it
    opens a stream again; when it can only stream it does not wait at all. *)
From stdpp Require Import base numbers list gmap.
From S2P Require Import Prelude MintFacts PubSub PubSubFacts Remote.
Import MintFacts PubSub PubSubFacts Remote.

Local Open Scope mint_scope.
Local Open Scope N_scope.

Module RemoteFacts.
Section consumer.
Context {Topic Event SubId : Type} `{Countable Topic} `{Countable SubId} `{EqDecision Event} (get_topics : Event -> list Topic).
Abbreviation Consumer := (@Consumer Topic Event SubId _ _ _ _).
Implicit Types (s : Consumer) (t : Topic) (name : SubId).

(** ** Counting *)

Definition occ t (l : list Topic) : N := N.of_nat (length (filter (fun t' => t' = t) l)).
Definition wanted s t : N := map_sum (occ t) (co_subscriptions s).
Definition total s t : N := match co_remote s !! t with Some u => us_total u | None => 0 end.
Definition positive s : Prop := forall t u, co_remote s !! t = Some u -> 0 < us_total u.
Definition counted s : Prop := positive s /\ forall t, total s t = wanted s t.

Lemma occ_cons t a l : occ t (a :: l) = (if decide (a = t) then 1 else 0) + occ t l.
Proof.
  unfold occ. destruct (decide (a = t)); [rewrite filter_cons_True by done|rewrite filter_cons_False by done]; cbn [length]; lia.
Qed.

Lemma occ_pos t l : 0 < occ t l <-> t ∈ l.
Proof.
  induction l as [|a l IH]; [unfold occ; cbn; split; [lia|by intros ?%not_elem_of_nil]|]. rewrite occ_cons, elem_of_cons, <- IH.
  destruct (decide (a = t)) as [->|]; split; intros; [by left|lia|right; lia|]. destruct H1 as [->|?]; [done|lia].
Qed.
Lemma wanted_pos s t : 0 < wanted s t -> exists name topics, co_subscriptions s !! name = Some topics /\ t ∈ topics.
Proof.
  unfold wanted. induction (co_subscriptions s) as [|name l m Hn IH] using map_ind; [by vm_compute|]. rewrite map_sum_insert by done. intros Hp.
  destruct (decide (t ∈ l)) as [Ht|Ht]; [exists name, l; by rewrite lookup_insert_eq|].
  assert (occ t l = 0) by (rewrite <- occ_pos in Ht; lia). destruct IH as (n' & l' & Hl & Ht'); [lia|]. exists n', l'.
  split; [|done]. rewrite lookup_insert_ne; congruence.
Qed.

Lemma total_insert s t u t' : total (set_remote (<[t := u]> (co_remote s)) s) t' = if decide (t = t') then us_total u else total s t'.
Proof. unfold total. cbn. destruct (decide (t = t')) as [->|N]; [by rewrite lookup_insert_eq|by rewrite lookup_insert_ne]. Qed.
Lemma total_delete s t t' : total (set_remote (delete t (co_remote s)) s) t' = if decide (t = t') then 0 else total s t'.
Proof. unfold total. cbn. destruct (decide (t = t')) as [->|N]; [by rewrite lookup_delete_eq|by rewrite lookup_delete_ne]. Qed.

(** What the channel takes changes nothing else. *)
Lemma message_frame m s r s' : message_to_stream m s = (r, s') ->
  co_remote s' = co_remote s /\ co_subscriptions s' = co_subscriptions s /\ co_cached s' = co_cached s /\ co_pubsub s' = co_pubsub s.
Proof. unfold message_to_stream. destruct (co_stream s) as [c|]; [destruct (ct_closed c); [|destruct (_ <=? _)%nat]|]; by intros [= <- <-]. Qed.
Lemma total_same s s' : co_remote s' = co_remote s -> forall t, total s' t = total s t.
Proof. intros E t. unfold total. by rewrite E. Qed.
Lemma positive_same s s' : co_remote s' = co_remote s -> positive s -> positive s'.
Proof. intros E P t u. rewrite E. apply P. Qed.

Lemma positive_insert s t u : positive s -> 0 < us_total u -> positive (set_remote (<[t := u]> (co_remote s)) s).
Proof. intros P Hu t' u'. cbn. rewrite lookup_insert_Some. intros [[_ <-]|[_ ?]]; [done|by eapply P]. Qed.
Lemma positive_delete s t : positive s -> positive (set_remote (delete t (co_remote s)) s).
Proof. intros P t' u'. cbn. intros [_ ?]%lookup_delete_Some. by eapply P. Qed.

Lemma subscribe_topic_Ok names t s l s' : positive s -> subscribe_topic names t s = (Ok l, s') ->
  positive s' /\ co_subscriptions s' = co_subscriptions s /\ forall t', total s' t' = total s t' + if decide (t = t') then 1 else 0.
Proof.
  intros P. unfold subscribe_topic. destruct (co_remote s !! t) as [u|] eqn:E.
  - intros [= <- <-]. split; [apply positive_insert; [done|cbn; lia]|]. split; [done|]. intros t'. rewrite total_insert. cbn.
    destruct (decide (t = t')) as [<-|]; [|lia]. unfold total. by rewrite E.
  - intros (a & s1 & Hm & [= <- <-])%mseq_Ok. apply message_frame in Hm as (E1 & E2 & _). split_and!; [|done|].
    + eapply positive_same; [done|]. by apply positive_insert.
    + intros t'. rewrite (total_same _ _ E1), total_insert. destruct (decide (t = t')) as [<-|]; [|lia]. unfold total. rewrite E. cbn. lia.
Qed.
Lemma subscribe_topics_Ok names l : forall s r s', positive s -> subscribe_topics names l s = (Ok r, s') ->
  positive s' /\ co_subscriptions s' = co_subscriptions s /\ forall t, total s' t = total s t + occ t l.
Proof.
  induction l as [|a l IH]; intros s r s' P; cbn [subscribe_topics].
  - intros [= <- <-]. split_and!; [done..|]. intros t. unfold occ. cbn. lia.
  - intros (x & s1 & H1 & (y & s2 & H2 & [= <- <-])%mseq_Ok)%mseq_Ok. apply subscribe_topic_Ok in H1 as (P1 & S1 & T1); [|done].
    apply IH in H2 as (P2 & S2 & T2); [|done]. split_and!; [done|congruence|]. intros t. rewrite T2, T1, occ_cons. lia.
Qed.

Lemma unsubscribe_topic_Ok t s s' : positive s -> unsubscribe_topic t s = (Ok tt, s') ->
  positive s' /\ co_subscriptions s' = co_subscriptions s /\ forall t', total s' t' = total s t' - if decide (t = t') then 1 else 0.
Proof.
  intros P. unfold unsubscribe_topic. destruct (co_remote s !! t) as [u|] eqn:E; [destruct (N.eqb_spec (us_total u - 1) 0) as [Z|Z]|].
  - intros Hm. apply message_frame in Hm as (E1 & E2 & _). cbn in *. split_and!; [|done|].
    + eapply (positive_same (set_remote (delete t (co_remote s)) s)); [done|]. by apply positive_delete.
    + intros t'. rewrite (total_same (set_remote (delete t (co_remote s)) s) s' E1), total_delete.
      destruct (decide (t = t')) as [<-|]; [|lia]. unfold total. rewrite E. lia.
  - intros [= <-]. split_and!; [|done|].
    + apply positive_insert; [done|cbn; lia].
    + intros t'. rewrite total_insert. cbn. destruct (decide (t = t')) as [<-|]; [|lia]. unfold total. by rewrite E.
  - intros [= <-]. split_and!; [done..|]. intros t'. destruct (decide (t = t')) as [<-|]; [|lia]. unfold total. by rewrite E.
Qed.
Lemma unsubscribe_topics_Ok l : forall s s', positive s -> mfor unsubscribe_topic l s = (Ok tt, s') ->
  positive s' /\ co_subscriptions s' = co_subscriptions s /\ forall t, total s' t = total s t - occ t l.
Proof.
  induction l as [|a l IH]; intros s s' P; cbn [mfor].
  - intros [= <-]. split_and!; [done..|]. intros t. unfold occ. cbn. lia.
  - intros ([] & s1 & H1 & H2)%mseq_Ok. apply unsubscribe_topic_Ok in H1 as (P1 & S1 & T1); [|done].
    apply IH in H2 as (P2 & S2 & T2); [|done]. split_and!; [done|congruence|]. intros t. rewrite T2, T1, occ_cons. lia.
Qed.

Lemma subscribe_counted name topics names s r s' : counted s -> remote_subscribe name topics names s = (Ok r, s') -> counted s'.
Proof.
  intros [P T]. unfold remote_subscribe.
  intros (l & s1 & [Hl <-]%mlift_Ok & (known & s2 & [= <- <-] & H1)%mseq_Ok)%mseq_Ok.
  case_bool_decide as Hk; [done|]. apply mseq_Ok in H1 as (ev & s2 & H2 & (u & s3 & [= <- <-] & H4)%mseq_Ok).
  apply subscribe_topics_Ok in H2 as (P2 & S2 & T2); [|done].
  apply mseq_Ok in H4 as (id & s4 & H4 & [= <- <-]). unfold subscribe_inner in H4. cbn in H4. injection H4 as <- <-.
  split; [exact P2|]. intros t. transitivity (total s2 t); [done|]. rewrite T2, T. unfold wanted. cbn. rewrite S2, map_sum_insert; [lia|].
  apply eq_None_not_Some. done.
Qed.

Lemma unsubscribe_counted name s s' : counted s -> unsubscribe name s = (Ok tt, s') -> counted s'.
Proof.
  intros [P T]. unfold unsubscribe. destruct (co_subscriptions s !! name) as [l|] eqn:E; [|done].
  intros ([] & s1 & H1 & (b & s2 & [= <- <-] & H2)%mseq_Ok)%mseq_Ok.
  apply unsubscribe_topics_Ok in H1 as (P1 & S1 & T1); [|done].
  assert (counted s1) as C1.
  { split; [done|]. intros t. rewrite T1. transitivity (total s t - occ t l); [done|]. rewrite T. unfold wanted. rewrite S1. cbn.
    rewrite (map_sum_delete _ _ _ _ E). lia. }
  destruct (bool_decide _) in H2; [|by injection H2 as <-]. apply message_frame in H2 as (E1 & E2 & _). destruct C1 as [P2 T2].
  split; [by eapply positive_same|]. intros t. rewrite (total_same _ _ E1), T2. unfold wanted. by rewrite E2.
Qed.

(** ** Histories in which the channel takes all messages *)

Inductive step : Consumer -> Consumer -> Prop :=
| StepSubscribe s s' name topics names r : remote_subscribe name topics names s = (Ok r, s') -> step s s'
| StepRefused s s' name names : is_Some (co_subscriptions s !! name) -> (forall l, remote_subscribe name (Ok l) names s = (Err NoSubscription, s')) -> step s s'
| StepUnsubscribe s s' name : unsubscribe name s = (Ok tt, s') -> step s s'
| StepRelay s e : step s (relay get_topics e s)
| StepStart s : step s (snd (start_stream s))
| StepTake s : step s (snd (take_message s))
| StepEnd s : step s (end_stream s)
| StepLocal s p : step s (set_pubsub p s).

Lemma take_frame s : co_remote (snd (take_message s)) = co_remote s /\ co_subscriptions (snd (take_message s)) = co_subscriptions s.
Proof. unfold take_message. by destruct (co_stream s) as [[[|m q] c]|]. Qed.

(** In these histories a topic is subscribed at the remote side exactly while a
    local subscription has it, with the number of its subscribers. *)
Theorem remote_topics_are_wanted s t : rtc step new_consumer s ->
  (forall u, co_remote s !! t = Some u -> us_total u = wanted s t) /\
  (is_Some (co_remote s !! t) <-> exists name topics, co_subscriptions s !! name = Some topics /\ t ∈ topics).
Proof.
  intros Hr. assert (counted s) as [P T].
  { assert (counted new_consumer) as C0 by (split; [by intros ? ? ?|done]). revert C0. induction Hr as [|s1 s2 s3 Hs _ IH]; [done|]. intros C. apply IH.
    destruct Hs as [s1 s2 name topics names r Hx|s1 s2 name names Hk Hx|s1 s2 name Hx|s1 e|s1|s1|s1|s1 p]; try done.
    - by eapply subscribe_counted.
    - specialize (Hx []). unfold remote_subscribe in Hx. unfold mseq, mlift, mgets in Hx. rewrite bool_decide_eq_true_2 in Hx by done. by injection Hx as <-.
    - by eapply unsubscribe_counted.
    - destruct (take_frame s1) as [E1 E2]. destruct C as [P T]. split; [by eapply positive_same|].
      intros t'. rewrite (total_same _ _ E1), T. unfold wanted. by rewrite E2. }
  specialize (T t). unfold total in T. split; [by intros u Hu; rewrite Hu in T|]. unfold wanted in T. split.
  - intros [u Hu]. rewrite Hu in T. specialize (P t u Hu). apply wanted_pos. unfold wanted. lia.
  - intros (name & l & Hn & Ht). destruct (co_remote s !! t) as [u|] eqn:E; [done|]. rewrite (map_sum_delete _ _ _ _ Hn) in T.
    assert (0 < occ t l); [by apply occ_pos|lia].
Qed.
(** ** What the transport knows *)

Definition told (K : gset (SubId * Topic)) (m : @StreamCtrl Topic SubId) : gset (SubId * Topic) :=
  match m with
  | CtrlSubscribe n t => {[(n, t)]} ∪ K
  | CtrlUnsubscribe n => filter (fun p => p.1 <> n) K
  | CtrlStop => K
  end.
Definition entry s (n : SubId) t : Prop := exists u, co_remote s !! t = Some u /\ us_name u = n.
(** With the messages it has not read yet, the transport knows the remote subscriptions. *)
Definition mirrors (K : gset (SubId * Topic)) s : Prop :=
  forall c, co_stream s = Some c -> forall n t, (n, t) ∈ fold_left told (ct_queue c) K <-> entry s n t.
Definition unique_names s : Prop := forall n t t', entry s n t -> entry s n t' -> t = t'.
Definition synced K s : Prop := mirrors K s /\ unique_names s.
(** Names that were never drawn before. *)
Definition fresh_names (names : Topic -> SubId) s : Prop :=
  (forall t t', names t = names t' -> t = t') /\ forall t t', co_remote s !! t = None -> ~ entry s (names t) t'.

Lemma mirrors_same K s s' : (forall n t, entry s' n t <-> entry s n t) -> co_stream s' = co_stream s -> mirrors K s -> mirrors K s'.
Proof. intros E Es M c. rewrite Es. intros Hc n t. rewrite E. by apply M. Qed.
Lemma unique_same s s' : (forall n t, entry s' n t <-> entry s n t) -> unique_names s -> unique_names s'.
Proof. intros E U n t t'. rewrite !E. apply U. Qed.

(** A message that the channel takes while the remote subscriptions change the same way. *)
Lemma synced_message K s m s1 s' : synced K s -> co_stream s1 = co_stream s -> unique_names s1 ->
  (forall K', (forall n t, (n, t) ∈ K' <-> entry s n t) -> forall n t, (n, t) ∈ told K' m <-> entry s1 n t) ->
  message_to_stream m s1 = (Ok tt, s') -> synced K s'.
Proof.
  intros [M U] Es U1 Hm H'. pose proof (message_frame _ _ _ _ H') as (Er & _). assert (forall n t, entry s' n t <-> entry s1 n t) as E'.
  { intros n t. unfold entry. by rewrite Er. }
  split; [|by eapply unique_same]. unfold message_to_stream in H'. rewrite Es in H'. destruct (co_stream s) as [c|] eqn:Hc.
  - destruct (ct_closed c); [done|]. destruct (_ <=? _)%nat; [done|]. injection H' as <-. intros c' [= <-] n t. cbn [ct_queue].
    rewrite fold_left_app. cbn [fold_left]. rewrite (Hm (fold_left told (ct_queue c) K)); [by rewrite E'|]. by apply M.
  - injection H' as <-. intros c'. rewrite Es. done.
Qed.

Lemma entry_insert s t u n t' : entry (set_remote (<[t := u]> (co_remote s)) s) n t' <-> if decide (t = t') then us_name u = n else entry s n t'.
Proof.
  unfold entry. cbn. destruct (decide (t = t')) as [<-|N]; [rewrite lookup_insert_eq; naive_solver|by rewrite lookup_insert_ne].
Qed.
Lemma entry_delete s t n t' : entry (set_remote (delete t (co_remote s)) s) n t' <-> t <> t' /\ entry s n t'.
Proof. unfold entry. cbn. setoid_rewrite lookup_delete_Some. naive_solver. Qed.

(** A counter that changes leaves names alone. *)
Lemma entry_recount s t u k n t' : co_remote s !! t = Some u -> entry (set_remote (<[t := mkUnique (us_name u) k]> (co_remote s)) s) n t' <-> entry s n t'.
Proof. intros Hu. rewrite entry_insert. destruct (decide (t = t')) as [<-|]; [|done]. unfold entry. cbn. naive_solver. Qed.

Lemma subscribe_topic_synced K names t s l s' : synced K s -> fresh_names names s -> subscribe_topic names t s = (Ok l, s') ->
  synced K s' /\ fresh_names names s'.
Proof.
  intros S [Hinj Hf]. unfold subscribe_topic. destruct (co_remote s !! t) as [u|] eqn:E.
  - intros [= <- <-]. destruct S as [M U]. pose proof (fun n t' => entry_recount s t u (us_total u + 1) n t' E) as Ee. split; [split|split].
    + by eapply mirrors_same.
    + by eapply unique_same.
    + done.
    + intros t1 t2 Hn. rewrite Ee. apply Hf. cbn in Hn. by apply lookup_insert_None in Hn as [? _].
  - intros ([] & s1 & Hm & [= <- <-])%mseq_Ok. pose proof (message_frame _ _ _ _ Hm) as (Er & _).
    assert (forall n t', entry (set_remote (<[t := mkUnique (names t) 1]> (co_remote s)) s) n t' <-> if decide (t = t') then names t = n else entry s n t') as Ee
      by (intros; apply entry_insert).
    split.
    + refine (synced_message K s _ _ _ S _ _ _ Hm); [done|..].
      * intros n t1 t2. rewrite !Ee. pose proof (proj2 S) as U. destruct (decide (t = t1)) as [<-|], (decide (t = t2)) as [<-|]; [done|..|apply U].
        -- intros <- He. by apply Hf in He.
        -- intros He <-. by apply Hf in He.
      * intros K' HK n t'. cbn [told]. rewrite elem_of_union, elem_of_singleton, HK, Ee. destruct (decide (t = t')) as [<-|].
        -- split; [|intros <-; by left]. intros [[= ->]|(u & Hu & _)]; [done|congruence].
        -- split; [intros [[= -> ->]|]; done|by right].
    + split; [done|]. intros t1 t2. rewrite Er. cbn. intros [Hn Hne]%lookup_insert_None.
      assert (entry s1 (names t1) t2 <-> entry (set_remote (<[t := mkUnique (names t) 1]> (co_remote s)) s) (names t1) t2) as -> by (unfold entry; by rewrite Er).
      rewrite Ee. destruct (decide (t = t2)); [intros Heq%Hinj; congruence|by apply Hf].
Qed.
Lemma subscribe_topics_synced K names l : forall s r s', synced K s -> fresh_names names s -> subscribe_topics names l s = (Ok r, s') -> synced K s'.
Proof.
  induction l as [|a l IH]; intros s r s' S F; cbn [subscribe_topics]; [by intros [= <- <-]|].
  intros (x & s1 & H1 & (y & s2 & H2 & [= <- <-])%mseq_Ok)%mseq_Ok. apply (subscribe_topic_synced K) in H1 as [S1 F1]; [|done..]. by eapply IH.
Qed.

Lemma unsubscribe_topic_synced K t s s' : synced K s -> unsubscribe_topic t s = (Ok tt, s') -> synced K s'.
Proof.
  intros S. unfold unsubscribe_topic. destruct (co_remote s !! t) as [u|] eqn:E; [|by intros [= <-]]. destruct (_ =? 0).
  - intros Hm. set (s1 := set_remote (delete t (co_remote s)) s) in Hm.
    assert (forall n t', entry (set_cached (delete t (co_cached s)) s1) n t' <-> t <> t' /\ entry s n t') as Ee by (intros; apply entry_delete).
    refine (synced_message K s _ _ _ S _ _ _ Hm); [done|..].
    + intros n t1 t2. rewrite !Ee. intros [_ H1] [_ H2]. by eapply (proj2 S).
    + intros K' HK n t'. cbn [told]. rewrite elem_of_filter, HK, Ee. cbn [fst]. split; intros [Hne He]; (split; [|done]).
      * intros <-. apply Hne. destruct He as (u' & Hu' & <-). congruence.
      * intros ->. apply Hne. eapply (proj2 S); [by exists u|done].
  - intros [= <-]. destruct S as [M U]. pose proof (fun n t' => entry_recount s t u (us_total u - 1) n t' E) as Ee.
    split; [by eapply mirrors_same|by eapply unique_same].
Qed.
Lemma unsubscribe_topics_synced K l : forall s s', synced K s -> mfor unsubscribe_topic l s = (Ok tt, s') -> synced K s'.
Proof.
  induction l as [|a l IH]; intros s s' S; cbn [mfor]; [by intros [= <-]|].
  intros ([] & s1 & H1 & H2)%mseq_Ok. eapply IH; [|done]. by eapply unsubscribe_topic_synced.
Qed.

(** Histories as above, with what the transport has read and with names that
    were never drawn before. *)
Inductive sync : gset (SubId * Topic) * Consumer -> gset (SubId * Topic) * Consumer -> Prop :=
| SyncSubscribe K s s' name topics names r : fresh_names names s -> remote_subscribe name topics names s = (Ok r, s') -> sync (K, s) (K, s')
| SyncUnsubscribe K s s' name : unsubscribe name s = (Ok tt, s') -> sync (K, s) (K, s')
| SyncRelay K s e : sync (K, s) (K, relay get_topics e s)
| SyncStart K s : sync (K, s) (list_to_set (fst (start_stream s)), snd (start_stream s))
| SyncTake K s m s' : take_message s = (Some m, s') -> sync (K, s) (told K m, s')
| SyncEnd K s : sync (K, s) (K, end_stream s).

Lemma start_synced s : unique_names s -> synced (list_to_set (fst (start_stream s))) (snd (start_stream s)).
Proof.
  intros U. split; [|exact U]. intros c [= <-] n t. cbn. unfold current_subscriptions. rewrite elem_of_list_to_set, list_elem_of_fmap. unfold entry. cbn. split.
  - intros ([t' u] & [= -> ->] & Hu%elem_of_map_to_list). eauto.
  - intros (u & Hu & <-). exists (t, u). split; [done|]. by apply elem_of_map_to_list.
Qed.

Lemma subscribe_synced K name topics names s r s' : synced K s -> fresh_names names s -> remote_subscribe name topics names s = (Ok r, s') -> synced K s'.
Proof.
  intros S F. unfold remote_subscribe.
  intros (l & s1 & [Hl <-]%mlift_Ok & (known & s2 & [= <- <-] & H1)%mseq_Ok)%mseq_Ok.
  case_bool_decide as Hk; [done|]. apply mseq_Ok in H1 as (ev & s2 & H2 & (u & s3 & [= <- <-] & H4)%mseq_Ok).
  apply (subscribe_topics_synced K) in H2 as [M U]; [|done..].
  apply mseq_Ok in H4 as (id & s4 & H4 & [= <- <-]). unfold subscribe_inner in H4. cbn in H4. by injection H4 as <- <-.
Qed.
Lemma unsubscribe_synced K name s s' : synced K s -> unsubscribe name s = (Ok tt, s') -> synced K s'.
Proof.
  intros S. unfold unsubscribe. destruct (co_subscriptions s !! name) as [l|] eqn:E; [|done].
  intros ([] & s1 & H1 & (b & s2 & [= <- <-] & H2)%mseq_Ok)%mseq_Ok.
  apply (unsubscribe_topics_synced K) in H1 as [M U]; [|exact S].
  destruct (bool_decide _) in H2; [|by injection H2 as <-]. by refine (synced_message K s1 _ _ _ _ _ _ _ H2).
Qed.

(** While a stream is open, the transport knows the remote subscriptions once
    it has read its messages: it is told of every topic that comes or goes. *)
Theorem transport_knows_topics K s c n t : rtc sync (∅, new_consumer) (K, s) -> co_stream s = Some c ->
  (n, t) ∈ fold_left told (ct_queue c) K <-> exists u, co_remote s !! t = Some u /\ us_name u = n.
Proof.
  intros Hr. assert (synced K s) as [M _]; [|intros Hc; exact (M c Hc n t)].
  assert (forall x y, rtc sync x y -> synced x.1 x.2 -> synced y.1 y.2) as Hind.
  { clear. induction 1 as [|x y z Hs _ IH]; [done|]. intros S. apply IH.
    destruct Hs as [K s s' name topics names r F Hx|K s s' name Hx|K s e|K s|K s m s' Hx|K s]; cbn in *.
    - exact (subscribe_synced _ _ _ _ _ _ _ S F Hx).
    - exact (unsubscribe_synced _ _ _ _ S Hx).
    - exact S.
    - apply start_synced, S.
    - unfold take_message in Hx. destruct (co_stream s) as [[[|m' q] cl]|] eqn:E; try done. injection Hx as -> <-. destruct S as [M U].
      split; [|exact U]. intros c [= <-] n t. cbn. exact (M _ E n t).
    - destruct S as [M U]. by split. }
  apply (Hind (∅, new_consumer) (K, s) Hr). split; [done|]. intros ? ? ? (u & Hu & _). cbn in Hu. by apply lookup_empty_Some in Hu.
Qed.

(** ** Messages that are not taken *)

(** A new topic that the channel does not take is counted although nobody has
    it: the request fails and no subscription remembers the topic. *)
Theorem refused_message_leaves_topic name t names s c :
  co_subscriptions s !! name = None -> co_remote s !! t = None -> co_stream s = Some c -> ct_closed c = true ->
  exists s', remote_subscribe name (Ok [t]) names s = (Err ChannelClosed, s') /\
    co_remote s' !! t = Some (mkUnique (names t) 1) /\ co_subscriptions s' = co_subscriptions s.
Proof.
  intros Hn Ht Hs Hc. unfold remote_subscribe. unfold mseq at 1 2, mlift, mgets. rewrite bool_decide_eq_false_2 by by rewrite Hn; intros [].
  unfold mseq. cbn [subscribe_topics]. unfold mseq, subscribe_topic. rewrite Ht. unfold mseq, message_to_stream. cbn. rewrite Hs, Hc.
  eexists. split; [reflexivity|]. cbn. by rewrite lookup_insert_eq.
Qed.

(** A local subscription that ends while the channel is closed keeps its other
    topics subscribed. *)
Theorem refused_message_keeps_topics name t1 t2 u1 u2 s c :
  t1 <> t2 -> co_subscriptions s !! name = Some [t1; t2] -> co_remote s !! t1 = Some u1 -> us_total u1 = 1 -> co_remote s !! t2 = Some u2 ->
  co_stream s = Some c -> ct_closed c = true ->
  exists s', unsubscribe name s = (Err ChannelClosed, s') /\ co_remote s' !! t2 = Some u2 /\ co_subscriptions s' !! name = None.
Proof.
  intros Hne Hn H1 Hu H2 Hs Hc. unfold unsubscribe. rewrite Hn. unfold mseq. cbn [mfor]. unfold mseq, unsubscribe_topic. cbn. rewrite H1, Hu. cbn.
  unfold message_to_stream. cbn. rewrite Hs, Hc. eexists. split; [reflexivity|]. cbn. by rewrite lookup_delete_ne, lookup_delete_eq.
Qed.
End consumer.

(** An event that arrives when nobody has its topic stays, and is given as the
    latest one to the second subscriber that comes. *)
Theorem late_event_stays_cached :
  let s := relay (fun e : nat => [1%nat]) 5%nat new_consumer in
  let s1 := snd (remote_subscribe 7%nat (Ok [1%nat]) (fun _ => 0%nat) s) in
  fst (remote_subscribe 8%nat (Ok [1%nat]) (fun _ => 0%nat) s1) = Ok (1%nat, [5%nat]).
Proof. by vm_compute. Qed.

(** ** The loop *)

Definition loop_ok (l : Loop) : Prop := STREAM_CONNECTION_BACKOFF <= lp_backoff l /\ lp_backoff l <= STREAM_CONNECTION_MAX_BACKOFF.
(** The wait before a stream is opened again is between 2 and 30 seconds: a
    stream that failed is not opened again before that. *)
Theorem stream_backoff_bounded running prefer empty now ended streamed polled l l' effects :
  loop_ok l -> loop_round running prefer empty now ended streamed polled l = Some (l', effects) ->
  loop_ok l' /\ (stream_due prefer now l = true -> empty = false -> streamed <> None ->
    exists t, lp_retry_at l' = Some t /\ ended + STREAM_CONNECTION_BACKOFF <= t /\ t <= ended + STREAM_CONNECTION_MAX_BACKOFF).
Proof.
  unfold loop_ok, loop_round, STREAM_CONNECTION_BACKOFF, STREAM_CONNECTION_MAX_BACKOFF. intros [H1 H2]. destruct (_ || _); [done|].
  destruct empty; [intros [= <- <-]; by split|]. destruct (stream_due prefer now l); cbn [after_stream].
  - destruct streamed as [err|]; cbn; unfold STREAM_CONNECTION_BACKOFF, STREAM_CONNECTION_MAX_BACKOFF;
      destruct (lp_poll_supported l); intros [= <- <-]; cbn; (split; [lia|]); intros; try done; eexists; (split; [reflexivity|lia]).
  - destruct (lp_poll_supported l); intros [= <- <-]; cbn; by split.
Qed.

(** The loop ends exactly when it is told to, or when neither way is supported. *)
Theorem loop_ends running prefer empty now ended streamed polled l :
  loop_round running prefer empty now ended streamed polled l = None <-> running = false \/ (lp_stream_supported l = false /\ lp_poll_supported l = false).
Proof.
  unfold loop_round. destruct (lp_stream_supported l), (lp_poll_supported l), running; cbn; split; intros H;
    try done; try (by left); try (by right); try (by destruct H as [|[]]);
    destruct empty; try done; destruct (stream_due _ _ _); try done; destruct streamed; cbn in *; try done; destruct (lp_poll_supported l); done.
Qed.

(** Without polling the loop does nothing and does not sleep, round after round,
    until a stream is due: a loop that prefers polling never leaves this state. *)
Theorem loop_spins prefer now ended streamed polled l : lp_stream_supported l = true -> lp_poll_supported l = false -> stream_due prefer now l = false ->
  loop_round true prefer false now ended streamed polled l = Some (l, []) /\ stream_due true now l = false.
Proof.
  intros Hs Hp Hd. unfold loop_round. rewrite Hs, Hp, Hd. cbn. rewrite Hp. split; [done|]. unfold stream_due. by rewrite Hs.
Qed.
End RemoteFacts.
