(* ===== verification/RedbWallet.v ===== *)
(** * The wallet's redb store (crates/cdk-redb/src/wallet)

    [WalletRedbDatabase]: a key-value database with transactions.  A table is a
    finite map read in the order of its keys' bytes; a write transaction is
    [write], which leaves the tables as they were unless it commits, and a read
    transaction is [read], a snapshot.  [rd_faults] decides which of the calls to
    the database fail.  One definition per method of the trait [WalletDatabase],
    the migrations between the versions of the file, and opening it.

    Values that are stored as JSON are read back as themselves (URLs in their
    normal form), but for quotes: their layout changed between versions, so
    their JSON text is kept and [QuoteJson] reads it.  The JSON of a proof repeats
    its key, which is kept once. *)
From stdpp Require Import base numbers list sorting strings gmap fin_maps.
From S2P Require Import Prelude Amount Hex Nuts KeysetId Conditions States MintUrl WalletDb Token Posts WalletStore.
Import Nut00 KeysetId WalletDb WalletStore.

Local Open Scope N_scope.
Local Open Scope res_scope.
Local Open Scope mint_scope.

Module RedbWallet.

(** ** Quotes of the first versions (crates/cdk-redb/src/migrations.rs) *)

Record V0MintQuote := mkV0MintQuote {
  v0q_id : string;
  v0q_mint_url : MintUrl;
  v0q_amount : N;
  v0q_unit : Amount.CurrencyUnit;
  v0q_request : string;
  v0q_paid : bool;
  v0q_expiry : N;
}.

Record V1MintQuote := mkV1MintQuote {
  v1q_id : string;
  v1q_mint_url : MintUrl;
  v1q_amount : N;
  v1q_unit : Amount.CurrencyUnit;
  v1q_request : string;
  v1q_state : MintTypes.MintQuoteState;
  v1q_expiry : N;
}.

Record V0MeltQuote := mkV0MeltQuote {
  v0m_id : string;
  v0m_unit : Amount.CurrencyUnit;
  v0m_amount : N;
  v0m_request : string;
  v0m_fee_reserve : N;
  v0m_paid : bool;
  v0m_expiry : N;
}.

Record V1MeltQuote := mkV1MeltQuote {
  v1m_id : string;
  v1m_unit : Amount.CurrencyUnit;
  v1m_amount : N;
  v1m_request : string;
  v1m_fee_reserve : N;
  v1m_state : StateRules.MeltQuoteState;
  v1m_expiry : N;
  v1m_payment_preimage : option string;
}.

Definition v1_of_mint_quote (quote : V0MintQuote) : V1MintQuote :=
  mkV1MintQuote (v0q_id quote) (v0q_mint_url quote) (v0q_amount quote) (v0q_unit quote) (v0q_request quote)
    (if v0q_paid quote then MintTypes.QPaid else MintTypes.QUnpaid) (v0q_expiry quote).
Definition v1_of_melt_quote (quote : V0MeltQuote) : V1MeltQuote :=
  mkV1MeltQuote (v0m_id quote) (v0m_unit quote) (v0m_amount quote) (v0m_request quote) (v0m_fee_reserve quote)
    (if v0m_paid quote then StateRules.Paid else StateRules.Unpaid) (v0m_expiry quote) None.

(** [serde_json] on quotes. *)
Class QuoteJson (CR : Crypto) := {
  mint_quote_to_json : WMintQuote -> string;
  mint_quote_from_json : string -> option WMintQuote;
  melt_quote_to_json : WMeltQuote -> string;
  melt_quote_from_json : string -> option WMeltQuote;
  v0_mint_from_json : string -> option V0MintQuote;
  v1_mint_to_json : V1MintQuote -> string;
  v0_melt_from_json : string -> option V0MeltQuote;
  v1_melt_to_json : V1MeltQuote -> string;
}.
Class QuoteJsonLaws (CR : Crypto) (QJ : QuoteJson CR) : Prop := {
  mint_quote_json q : mint_quote_from_json (mint_quote_to_json q) = Some q;
  melt_quote_json q : melt_quote_from_json (melt_quote_to_json q) = Some q;
}.

Section defs.
Context {CR : Crypto} {QJ : QuoteJson CR} {MintInfo : Type}.

Inductive RedbError :=
| Storage
| Serde
| ParseInt
| BadUrl
| Io
| UnknownY
| UnknownDatabaseVersion
| Duplicate
| BadKeysetId (e : KeysetId.Error).

(** ** Tables *)

Record ProofValue := mkProofValue {
  pv_proof : Proof;
  pv_mint_url : MintUrl;
  pv_state : Nut07.State;
  pv_spending_condition : option Nut11.SpendingConditions;
  pv_unit : Amount.CurrencyUnit;
}.

Record Tables := mkTables {
  rt_version : option string;
  rt_mints : gmap MintUrl (option MintInfo);
  rt_mint_keysets : gmap MintUrl (gset Id);
  rt_keysets : gmap Id KeySetInfo;
  rt_mint_quotes : gmap string string;
  rt_melt_quotes : gmap string string;
  rt_mint_keys : gmap Id Keys;
  rt_proofs : gmap pubkey ProofValue;
  rt_counters : gmap Id N;
  rt_transactions : gmap string Transaction;
  rt_u32 : gmap N Id;
}.

Definition set_version (t : Tables) v := mkTables v (rt_mints t) (rt_mint_keysets t) (rt_keysets t) (rt_mint_quotes t)
  (rt_melt_quotes t) (rt_mint_keys t) (rt_proofs t) (rt_counters t) (rt_transactions t) (rt_u32 t).
Definition set_mints (t : Tables) v := mkTables (rt_version t) v (rt_mint_keysets t) (rt_keysets t) (rt_mint_quotes t)
  (rt_melt_quotes t) (rt_mint_keys t) (rt_proofs t) (rt_counters t) (rt_transactions t) (rt_u32 t).
Definition set_mint_keysets (t : Tables) v := mkTables (rt_version t) (rt_mints t) v (rt_keysets t) (rt_mint_quotes t)
  (rt_melt_quotes t) (rt_mint_keys t) (rt_proofs t) (rt_counters t) (rt_transactions t) (rt_u32 t).
Definition set_keysets (t : Tables) v := mkTables (rt_version t) (rt_mints t) (rt_mint_keysets t) v (rt_mint_quotes t)
  (rt_melt_quotes t) (rt_mint_keys t) (rt_proofs t) (rt_counters t) (rt_transactions t) (rt_u32 t).
Definition set_mint_quotes (t : Tables) v := mkTables (rt_version t) (rt_mints t) (rt_mint_keysets t) (rt_keysets t) v
  (rt_melt_quotes t) (rt_mint_keys t) (rt_proofs t) (rt_counters t) (rt_transactions t) (rt_u32 t).
Definition set_melt_quotes (t : Tables) v := mkTables (rt_version t) (rt_mints t) (rt_mint_keysets t) (rt_keysets t)
  (rt_mint_quotes t) v (rt_mint_keys t) (rt_proofs t) (rt_counters t) (rt_transactions t) (rt_u32 t).
Definition set_mint_keys (t : Tables) v := mkTables (rt_version t) (rt_mints t) (rt_mint_keysets t) (rt_keysets t)
  (rt_mint_quotes t) (rt_melt_quotes t) v (rt_proofs t) (rt_counters t) (rt_transactions t) (rt_u32 t).
Definition set_proofs (t : Tables) v := mkTables (rt_version t) (rt_mints t) (rt_mint_keysets t) (rt_keysets t)
  (rt_mint_quotes t) (rt_melt_quotes t) (rt_mint_keys t) v (rt_counters t) (rt_transactions t) (rt_u32 t).
Definition set_counters (t : Tables) v := mkTables (rt_version t) (rt_mints t) (rt_mint_keysets t) (rt_keysets t)
  (rt_mint_quotes t) (rt_melt_quotes t) (rt_mint_keys t) (rt_proofs t) v (rt_transactions t) (rt_u32 t).
Definition set_transactions (t : Tables) v := mkTables (rt_version t) (rt_mints t) (rt_mint_keysets t) (rt_keysets t)
  (rt_mint_quotes t) (rt_melt_quotes t) (rt_mint_keys t) (rt_proofs t) (rt_counters t) v (rt_u32 t).
Definition set_u32 (t : Tables) v := mkTables (rt_version t) (rt_mints t) (rt_mint_keysets t) (rt_keysets t)
  (rt_mint_quotes t) (rt_melt_quotes t) (rt_mint_keys t) (rt_proofs t) (rt_counters t) (rt_transactions t) v.

(** ** Transactions *)

Record Redb := mkRedb { rd_tables : Tables; rd_faults : list bool }.
Definition Op (A : Type) : Type := M Redb RedbError A.

(** A call that can fail. *)
Definition fault : Op unit := fun s =>
  match rd_faults s with
  | [] => (Ok tt, s)
  | b :: l => ((if b then Err Storage else Ok tt) : res RedbError unit, mkRedb (rd_tables s) l)
  end.
Definition table (f : Tables -> Tables) : Op unit := mmodify (fun s => mkRedb (f (rd_tables s)) (rd_faults s)).
Definition from_table {A} (f : Tables -> A) : Op A := mgets (fun s => f (rd_tables s)).
(** [begin_write], then the body, then [commit]; dropped before, the transaction
    aborts. *)
Definition write {A} (c : Op A) : Op A := fun s =>
  match (do_ fault ; do a <- c ; do_ fault ; mret a) s with
  | (Ok a, s') => (Ok a, s')
  | (r, s') => (r, mkRedb (rd_tables s) (rd_faults s'))
  end.
Definition read {A} (f : Tables -> A) : Op A := do_ fault ; from_table f.
(** [abort], and the error of the method. *)
Definition refuse_when (b : bool) (e : RedbError) : Op unit := if b then do_ fault ; mfail e else mret tt.

(** [u32::from(id)]. *)
Definition id_u32 (id : Id) : res RedbError N := match key_of id with Some k => Ok (id_to_u32 k) | None => Panic end.

(** ** Mints *)

Definition add_mint (mint_url : MintUrl) (mint_info : option MintInfo) : Op unit :=
  write (table (fun t => set_mints t (<[mint_url := mint_info]> (rt_mints t)))).
(** The keysets of the mint stay. *)
Definition remove_mint (mint_url : MintUrl) : Op unit :=
  write (table (fun t => set_mints t (delete mint_url (rt_mints t)))).
Definition get_mint (mint_url : MintUrl) : Op (option MintInfo) := read (fun t => mjoin (rt_mints t !! mint_url)).
(** The text of a URL is parsed, and [unwrap]ped. *)
Definition get_mints : Op (gmap MintUrl (option MintInfo)) :=
  do l <- read (fun t => rows text (rt_mints t)) ;
  do mints <- mlift (collect (fun kv => let? u := unwrap (MintUrl.from_str kv.1) in Ok (u, kv.2)) l) ;
  mret (fold_left (fun m kv => <[kv.1 := kv.2]> m) mints ∅).

(** ** Keysets *)

Definition insert_multi (u : MintUrl) (id : Id) (m : gmap MintUrl (gset Id)) : gmap MintUrl (gset Id) :=
  <[u := {[id]} ∪ default ∅ (m !! u)]> m.

(** The number of an id is taken over; the id it belonged to is returned. *)
Definition insert_u32 (id : Id) : Op (option Id) :=
  do n <- mlift (id_u32 id) ;
  do existing <- from_table (fun t => rt_u32 t !! n) ;
  do_ table (fun t => set_u32 t (<[n := id]> (rt_u32 t))) ;
  mret existing.

Definition another (existing : option Id) (id : Id) : bool :=
  match existing with None => false | Some id' => bool_decide (id' <> id) end.

(** A keyset that is known keeps its unit and its expiry. *)
Definition store_keyset (mint_url : MintUrl) (keyset : KeySetInfo) (existing_keyset : option KeySetInfo) : Op unit :=
  match existing_keyset with
  | Some k =>
      table (fun t => set_keysets t (<[ki_id k := mkKeySetInfo (ki_id k) (ki_unit k) (ki_active keyset) (ki_input_fee_ppk keyset)
        (ki_final_expiry k)]> (rt_keysets t)))
  | None =>
      do_ table (fun t => set_mint_keysets t (insert_multi mint_url (ki_id keyset) (rt_mint_keysets t))) ;
      table (fun t => set_keysets t (<[ki_id keyset := keyset]> (rt_keysets t)))
  end.

(** The loop stops at an id whose number belongs to another. *)
Fixpoint insert_keysets (mint_url : MintUrl) (keysets : list KeySetInfo) : Op bool :=
  match keysets with
  | [] => mret false
  | keyset :: keysets =>
      do existing_keyset <- from_table (fun t => rt_keysets t !! ki_id keyset) ;
      do existing <- insert_u32 (ki_id keyset) ;
      if another existing (ki_id keyset) then mret true
      else do_ store_keyset mint_url keyset existing_keyset ; insert_keysets mint_url keysets
  end.
Definition add_mint_keysets (mint_url : MintUrl) (keysets : list KeySetInfo) : Op unit :=
  write (do existing_u32 <- insert_keysets mint_url keysets ; refuse_when existing_u32 Duplicate).

Definition get_mint_keysets (mint_url : MintUrl) : Op (option (list KeySetInfo)) :=
  do keysets <- read (fun t => omap (fun id => rt_keysets t !! id)
                  (rows text (set_to_map (fun id => (id, tt)) (default ∅ (rt_mint_keysets t !! mint_url)))).*1) ;
  mret (match keysets with [] => None | _ => Some keysets end).
Definition get_keyset_by_id (keyset_id : Id) : Op (option KeySetInfo) := read (fun t => rt_keysets t !! keyset_id).

(** ** Quotes *)

Definition from_json {A} (reader : string -> option A) (o : option string) : res RedbError (option A) :=
  match o with None => Ok None | Some j => let? a := ok_or Serde (reader j) in Ok (Some a) end.

Definition add_mint_quote (quote : WMintQuote) : Op unit :=
  write (table (fun t => set_mint_quotes t (<[wq_id quote := mint_quote_to_json quote]> (rt_mint_quotes t)))).
Definition get_mint_quote (quote_id : string) : Op (option WMintQuote) :=
  do j <- read (fun t => rt_mint_quotes t !! quote_id) ; mlift (from_json mint_quote_from_json j).
(** A row that can not be read is left out. *)
Definition get_mint_quotes : Op (list WMintQuote) :=
  read (fun t => omap (fun kv => mint_quote_from_json kv.2) (rows text (rt_mint_quotes t))).
Definition remove_mint_quote (quote_id : string) : Op unit :=
  write (table (fun t => set_mint_quotes t (delete quote_id (rt_mint_quotes t)))).

Definition add_melt_quote (quote : WMeltQuote) : Op unit :=
  write (table (fun t => set_melt_quotes t (<[wm_id quote := melt_quote_to_json quote]> (rt_melt_quotes t)))).
Definition get_melt_quote (quote_id : string) : Op (option WMeltQuote) :=
  do j <- read (fun t => rt_melt_quotes t !! quote_id) ; mlift (from_json melt_quote_from_json j).
Definition get_melt_quotes : Op (list WMeltQuote) :=
  read (fun t => omap (fun kv => melt_quote_from_json kv.2) (rows text (rt_melt_quotes t))).
Definition remove_melt_quote (quote_id : string) : Op unit :=
  write (table (fun t => set_melt_quotes t (delete quote_id (rt_melt_quotes t)))).

(** ** Keys *)

Definition add_keys (keyset : KeySet) : Op unit :=
  let id := id_to_string (kset_id keyset) in
  write (do_ mlift (map_err BadKeysetId (verify_id keyset)) ;
         do existing_keys <- from_table (fun t => bool_decide (is_Some (rt_mint_keys t !! id))) ;
         do_ table (fun t => set_mint_keys t (<[id := kset_keys keyset]> (rt_mint_keys t))) ;
         let n := id_to_u32 (kset_id keyset) in
         do existing <- from_table (fun t => rt_u32 t !! n) ;
         do_ table (fun t => set_u32 t (<[n := id]> (rt_u32 t))) ;
         refuse_when (existing_keys || another existing id) Duplicate).
Definition get_keys (keyset_id : Id) : Op (option Keys) := read (fun t => rt_mint_keys t !! keyset_id).
(** The number of the id stays taken. *)
Definition remove_keys (keyset_id : Id) : Op unit :=
  write (table (fun t => set_mint_keys t (delete keyset_id (rt_mint_keys t)))).

(** ** Proofs *)

Definition value_of (p : ProofInfo) : ProofValue :=
  mkProofValue (pi_proof p) (pi_mint_url p) (pi_state p) (pi_spending_condition p) (pi_unit p).
Definition info_of (y : pubkey) (v : ProofValue) : ProofInfo :=
  mkProofInfo (pv_proof v) y (pv_mint_url v) (pv_state v) (pv_spending_condition v) (pv_unit v).

(** The new proofs are written first, the removed ones deleted after. *)
Definition update_proofs (added : list ProofInfo) (deleted_ys : list pubkey) : Op unit :=
  write (do_ mfor (fun p => table (fun t => set_proofs t (<[pi_y p := value_of p]> (rt_proofs t)))) added ;
         mfor (fun y => table (fun t => set_proofs t (delete y (rt_proofs t)))) deleted_ys).

Definition stored_proofs (m : gmap pubkey ProofValue) : list ProofInfo :=
  (fun kv => info_of kv.1 kv.2) <$> rows Nut01.to_bytes m.
Definition get_proofs (mint_url : option MintUrl) (unit : option Amount.CurrencyUnit) (state : option (list Nut07.State))
    (spending_conditions : option (list Nut11.SpendingConditions)) : Op (list ProofInfo) :=
  read (fun t => filter (fun p => matches_conditions p mint_url unit state spending_conditions = true) (stored_proofs (rt_proofs t))).
Definition get_balance (mint_url : option MintUrl) (unit : option Amount.CurrencyUnit) (state : option (list Nut07.State)) : Op N :=
  do proofs <- get_proofs mint_url unit state None ; mret (u64_sum (amounts_of proofs)).

Definition set_pv_state (v : ProofValue) (st : Nut07.State) : ProofValue :=
  mkProofValue (pv_proof v) (pv_mint_url v) st (pv_spending_condition v) (pv_unit v).
(** The proofs are read from the snapshot that was taken before the write
    transaction began. *)
Definition write_states (snapshot : gmap pubkey ProofValue) (ys : list pubkey) (state : Nut07.State) : Op unit :=
  write (mfor (fun y => do v <- mlift (ok_or UnknownY (snapshot !! y)) ;
                        table (fun t => set_proofs t (<[y := set_pv_state v state]> (rt_proofs t)))) ys).
Definition update_proofs_state (ys : list pubkey) (state : Nut07.State) : Op unit :=
  do snapshot <- read rt_proofs ; write_states snapshot ys state.

(** The counter is a [u32]. *)
Definition increment_keyset_counter (keyset_id : Id) (count : N) : Op N :=
  write (do current_counter <- from_table (fun t => default 0 (rt_counters t !! keyset_id)) ;
         let new_counter := (current_counter + count) mod 2 ^ 32 in
         do_ table (fun t => set_counters t (<[keyset_id := new_counter]> (rt_counters t))) ;
         mret new_counter).

(** ** Transactions of the wallet *)

Definition add_transaction (x : Transaction) : Op unit :=
  write (table (fun t => set_transactions t (<[digest_bytes (transaction_id (tr_ys x)) := x]> (rt_transactions t)))).
Definition get_transaction (id : digest) : Op (option Transaction) := read (fun t => rt_transactions t !! digest_bytes id).
Definition list_transactions (mint_url : option MintUrl) (direction : option TransactionDirection) (unit : option Amount.CurrencyUnit)
    : Op (list Transaction) :=
  read (fun t => filter (fun x => transaction_matches x mint_url direction unit = true) (rows text (rt_transactions t)).*2).
Definition remove_transaction (id : digest) : Op unit :=
  write (table (fun t => set_transactions t (delete (digest_bytes id) (rt_transactions t)))).

(** ** A mint that moves: the proofs of the mint, and the mint quotes that have
    expired, of every mint. *)

Definition set_pi_url (p : ProofInfo) (u : MintUrl) : ProofInfo :=
  mkProofInfo (pi_proof p) (pi_y p) u (pi_state p) (pi_spending_condition p) (pi_unit p).
Definition set_wq_url (q : WMintQuote) (u : MintUrl) : WMintQuote :=
  mkWMintQuote (wq_id q) u (wq_payment_method q) (wq_amount q) (wq_unit q) (wq_request q) (wq_state q) (wq_expiry q)
    (wq_secret_key q) (wq_amount_issued q) (wq_amount_paid q).
Definition update_mint_url (now : N) (old_mint_url new_mint_url : MintUrl) : Op unit :=
  do proofs <- get_proofs (Some old_mint_url) None None None ;
  let updated_proofs := (fun p => set_pi_url p new_mint_url) <$> proofs in
  do_ match updated_proofs with [] => mret tt | _ => update_proofs updated_proofs [] end ;
  do quotes <- get_mint_quotes ;
  mfor (fun q => add_mint_quote (set_wq_url q new_mint_url)) (filter (fun q => wq_expiry q < now) quotes).

(** ** Migrations *)

(** A quote that can not be read as one of version 0 is removed. *)
Definition migrate_quote (migrated : string -> option string) (m : gmap string string) (kv : string * string) : gmap string string :=
  match migrated kv.2 with Some j => <[kv.1 := j]> m | None => delete kv.1 m end.
Definition migrate_mint_quotes_00_to_01 : Op unit :=
  do old <- read (fun t => map_to_list (rt_mint_quotes t)) ;
  write (table (fun t => set_mint_quotes t
    (fold_left (migrate_quote (fun j => v1_mint_to_json ∘ v1_of_mint_quote <$> v0_mint_from_json j)) old (rt_mint_quotes t)))).
Definition migrate_melt_quotes_00_to_01 : Op unit :=
  do old <- read (fun t => map_to_list (rt_melt_quotes t)) ;
  write (table (fun t => set_melt_quotes t
    (fold_left (migrate_quote (fun j => v1_melt_to_json ∘ v1_of_melt_quote <$> v0_melt_from_json j)) old (rt_melt_quotes t)))).
Definition migrate_00_to_01 : Op N :=
  do_ migrate_mint_quotes_00_to_01 ; do_ migrate_melt_quotes_00_to_01 ; mret 1.

Definition parse_url (u : MintUrl) : res RedbError MintUrl := map_err (fun _ => BadUrl) (MintUrl.from_str u).
Definition migrate_mints_table_01_to_02 : Op unit :=
  do mints <- read (fun t => rows text (rt_mints t)) ;
  write (mfor (fun kv => do u <- mlift (parse_url kv.1) ;
                         table (fun t => set_mints t (<[u := kv.2]> (delete kv.1 (rt_mints t))))) mints).
Definition migrate_mint_keyset_table_01_to_02 : Op unit :=
  do mints <- read (fun t => rows text (rt_mint_keysets t)) ;
  write (mfor (fun kv => do u <- mlift (parse_url kv.1) ;
                         table (fun t => set_mint_keysets t
                           (fold_left (fun m id => insert_multi u id m) (elements kv.2) (delete kv.1 (rt_mint_keysets t))))) mints).
Definition migrate_01_to_02 : Op N :=
  do_ migrate_mints_table_01_to_02 ; do_ migrate_mint_keyset_table_01_to_02 ; mret 2.

(** [flat_map(Id::from_str)]. *)
Definition readable_id (s : Id) : option Id := match id_try_from s with Ok k => Some (id_to_string k) | _ => None end.
Definition all_ids (t : Tables) : gset Id :=
  list_to_set (omap readable_id ((map_to_list (rt_mint_keys t)).*1 ++ (map_to_list (rt_keysets t)).*1)).
(** The numbers that were already taken. *)
Fixpoint insert_ids (ids : list Id) (duplicate : bool) : Op bool :=
  match ids with
  | [] => mret duplicate
  | id :: ids => do existing <- insert_u32 id ; insert_ids ids (duplicate || bool_decide (is_Some existing))
  end.
Definition migrate_02_to_03 : Op N :=
  write (do ids <- from_table all_ids ;
         do duplicate <- insert_ids (elements ids) false ;
         do_ refuse_when duplicate Duplicate ;
         mret 3).

Definition bump (c : N) : N := if 0 <? c then (c + 1) mod 2 ^ 32 else c.
Definition migrate_03_to_04 : Op N :=
  write (do_ table (fun t => set_counters t (bump <$> rt_counters t)) ; mret 4).

(** ** Opening *)

Definition DATABASE_VERSION : N := 4.
Definition u32_parse (s : string) : option N := n ← u64_parse s; guard (n < 2 ^ 32);; Some n.

(** A table of versions that can not be opened is taken for a new file. *)
Definition file_version : Op (option string) :=
  do_ fault ;
  do opened <- mtry fault ;
  match opened with inl _ => do_ fault ; from_table rt_version | inr _ => mret None end.

Definition write_version : Op unit :=
  write (table (fun t => set_version t (Some (u64_to_string DATABASE_VERSION)))).

Definition when_version (n current : N) (migrate : Op N) : Op N := if current =? n then migrate else mret current.
Definition migrate (current_file_version : N) : Op unit :=
  do v1 <- when_version 0 current_file_version migrate_00_to_01 ;
  do v2 <- when_version 1 v1 migrate_01_to_02 ;
  do v3 <- when_version 2 v2 migrate_02_to_03 ;
  do v4 <- when_version 3 v3 migrate_03_to_04 ;
  do_ mlift (ensure (v4 =? DATABASE_VERSION) UnknownDatabaseVersion) ;
  write_version.

(** [WalletRedbDatabase::new]: whether the directory exists is asked twice. *)
Definition open (parent_exists parent_still_exists : bool) : Op unit :=
  do_ mlift (ensure parent_exists Io) ;
  do_ fault ;
  do db_version <- file_version ;
  do_ match db_version with
      | Some v =>
          do current_file_version <- mlift (ok_or ParseInt (u32_parse v)) ;
          match current_file_version ?= DATABASE_VERSION with
          | Lt => migrate current_file_version
          | Eq => mret tt
          | Gt => mfail UnknownDatabaseVersion
          end
      | None => write_version
      end ;
  do_ mlift (ensure parent_still_exists Io) ;
  do_ fault ;
  fault.

End defs.
Arguments Tables {CR} MintInfo.
Arguments Redb {CR} MintInfo.
End RedbWallet.
