(* ===== verification/RedbWalletFacts.v ===== *)
(** * Properties of the wallet's redb store

    The store implements the interface of the wallet; the numbers of keyset ids
    stay unique; a change of state fails as a whole or is made as a whole, but
    from a snapshot that can be old; what the migrations do, and what opening a
    file does. *)
From stdpp Require Import base numbers list sorting strings gmap fin_maps.
From S2P Require Import Prelude Amount Hex Nuts KeysetId Conditions States MintFacts MintUrl WalletDb Token Posts WalletStore RedbWallet.
Import Nut00 KeysetId WalletDb WalletStore MintFacts RedbWallet.

Local Open Scope N_scope.
Local Open Scope res_scope.
Local Open Scope mint_scope.

Module RedbWalletFacts.
Section facts.
Context {CR : Crypto} {QJ : QuoteJson CR} {MintInfo : Type}.
Abbreviation Redb := (Redb MintInfo).
Abbreviation Tables := (Tables MintInfo).
Abbreviation Op A := (M Redb RedbError A).

Definition redb_store (now : N) : WalletStore CR MintInfo Redb RedbError := {|
  st_add_mint := add_mint;
  st_remove_mint := remove_mint;
  st_get_mint := get_mint;
  st_get_mints := get_mints;
  st_update_mint_url := update_mint_url now;
  st_add_mint_keysets := add_mint_keysets;
  st_get_mint_keysets := get_mint_keysets;
  st_get_keyset_by_id := get_keyset_by_id;
  st_add_mint_quote := add_mint_quote;
  st_get_mint_quote := get_mint_quote;
  st_get_mint_quotes := get_mint_quotes;
  st_remove_mint_quote := remove_mint_quote;
  st_add_melt_quote := add_melt_quote;
  st_get_melt_quote := get_melt_quote;
  st_get_melt_quotes := get_melt_quotes;
  st_remove_melt_quote := remove_melt_quote;
  st_add_keys := add_keys;
  st_get_keys := get_keys;
  st_remove_keys := remove_keys;
  st_update_proofs := update_proofs;
  st_get_proofs := get_proofs;
  st_get_balance := get_balance;
  st_update_proofs_state := update_proofs_state;
  st_increment_keyset_counter := increment_keyset_counter;
  st_add_transaction := add_transaction;
  st_get_transaction := get_transaction;
  st_list_transactions := list_transactions;
  st_remove_transaction := remove_transaction;
|}.

#[local] Instance redb_view : WalletView CR Redb := {
  proofs_of s := stored_proofs (rt_proofs (rd_tables s));
  counter_of s id := default 0 (rt_counters (rd_tables s) !! id);
  counted _ _ := True;
}.

(** ** Frames *)

(** A relation on tables, seen through the store. *)
Abbreviation on_tables R := (along (S:=Redb) rd_tables R).

Definition quiet_t : relation Tables := fun t t' => rt_proofs t' = rt_proofs t /\ rt_counters t' = rt_counters t.
Definition counts_t : relation Tables := fun t t' => rt_counters t' = rt_counters t.
#[local] Instance quiet_t_preorder : PreOrder quiet_t.
Proof. split; [by intros t|]. intros t1 t2 t3 [] []. split; congruence. Qed.
#[local] Instance counts_t_preorder : PreOrder counts_t.
Proof. split; [by intros t|]. unfold counts_t. intros t1 t2 t3 H1 H2. congruence. Qed.

Lemma quiet_on {A} (c : Op A) : keeps (on_tables quiet_t) c -> keeps quiet c.
Proof. apply keeps_weaken. intros s s' [H1 H2]. unfold quiet, counts_kept. cbn. rewrite H1, H2. done. Qed.
Lemma counts_on {A} (c : Op A) : keeps (on_tables counts_t) c -> keeps counts_kept c.
Proof. apply keeps_weaken. unfold along, counts_t, counts_kept. intros s s' H. cbn. by rewrite H. Qed.

Lemma redb_fault_same s : rd_tables (snd ((fault : Op _) s)) = rd_tables s.
Proof. unfold fault. by destruct (rd_faults s) as [|[] ?]. Qed.

Section frames.
Context (R : relation Tables) {PO : PreOrder R}.
Lemma redb_fault_keeps : keeps (on_tables R) (fault : Op _).
Proof. intros s. unfold along. by rewrite redb_fault_same. Qed.
Lemma table_keeps f : (forall t, R t (f t)) -> keeps (on_tables R) (table f : Op _).
Proof. intros H s. apply H. Qed.
Lemma from_table_keeps {A} (f : Tables -> A) : keeps (on_tables R) (from_table f : Op A).
Proof. apply keeps_gets, _. Qed.
Lemma read_keeps {A} (f : Tables -> A) : keeps (on_tables R) (read f : Op A).
Proof. apply keeps_seq; [apply _|apply redb_fault_keeps|]. intros _. apply from_table_keeps. Qed.
Lemma write_keeps {A} (c : Op A) : keeps (on_tables R) c -> keeps (on_tables R) (write c).
Proof.
  intros H. assert (H' : keeps (on_tables R) (do_ fault ; do a <- c ; do_ fault ; mret a)).
  { apply keeps_seq; [apply _|apply redb_fault_keeps|intros _]. apply keeps_seq; [apply _|done|intros a].
    apply keeps_seq; [apply _|apply redb_fault_keeps|intros _]. apply keeps_ret, _. }
  intros s. specialize (H' s). unfold write. destruct (mseq _ _ s) as [[a| |] s']; cbn in *; [done|apply PO..].
Qed.
Lemma refuse_keeps b e : keeps (on_tables R) (refuse_when b e : Op _).
Proof. unfold refuse_when. destruct b; [|apply keeps_ret, _]. apply keeps_seq; [apply _|apply redb_fault_keeps|intros _]. apply keeps_fail, _. Qed.
End frames.
#[local] Hint Resolve redb_fault_keeps from_table_keeps read_keeps write_keeps refuse_keeps : keeps.
#[local] Hint Extern 1 (keeps (along rd_tables quiet_t) (table _)) => (apply table_keeps; intros ?; by split) : keeps.
#[local] Hint Extern 1 (keeps (along rd_tables counts_t) (table _)) => (apply table_keeps; intros ?; done) : keeps.

(** What a transaction did: its body on the tables as they were, or nothing. *)
Lemma write_run {A} (c : Op A) s r s' : write c s = (r, s') ->
  (exists a s1 s2, r = Ok a /\ rd_tables s1 = rd_tables s /\ c s1 = (Ok a, s2) /\ rd_tables s' = rd_tables s2) \/
  ((forall a, r <> Ok a) /\ rd_tables s' = rd_tables s).
Proof.
  unfold write. destruct ((do_ fault; do a <- c; do_ fault; mret a) s) as [[a| |] s1] eqn:H; intros [= <- <-]; [|by right..].
  left. apply mseq_Ok in H as ([] & s2 & H2 & H). apply mseq_Ok in H as (a' & s3 & H3 & H). apply mseq_Ok in H as ([] & s4 & H4 & [= <- <-]).
  exists a', s2, s3. pose proof (redb_fault_same s) as F1. pose proof (redb_fault_same s3) as F2. rewrite H2 in F1. rewrite H4 in F2. done.
Qed.
Lemma write_Ok {A} (c : Op A) s a s' : write c s = (Ok a, s') ->
  exists s1 s2, rd_tables s1 = rd_tables s /\ c s1 = (Ok a, s2) /\ rd_tables s' = rd_tables s2.
Proof. intros [(a' & s1 & s2 & [= <-] & H1 & H2 & H3)|[H _]]%write_run; [eauto|by destruct (H a)]. Qed.

Lemma read_Ok {A} (f : Tables -> A) s a s' : read f s = (Ok a, s') -> a = f (rd_tables s) /\ rd_tables s' = rd_tables s.
Proof.
  unfold read. intros ([] & s1 & H1 & [= <- <-])%mseq_Ok. pose proof (redb_fault_same s) as F. rewrite H1 in F. cbn in F. by rewrite F.
Qed.

Lemma table_for {A} (f : A -> Tables -> Tables) l s : mfor (fun a => table (f a)) l s =
  (Ok tt, mkRedb (fold_left (fun t a => f a t) l (rd_tables s)) (rd_faults s)).
Proof. revert s. induction l as [|a l IH]; intros s; [by destruct s|]. cbn [mfor fold_left]. unfold mseq, table, mmodify. by rewrite IH. Qed.

(** ** Proofs *)

Lemma info_value i : info_of (pi_y i) (value_of i) = i.
Proof. by destruct i. Qed.
Lemma value_info k v : value_of (info_of k v) = v.
Proof. by destruct v. Qed.

Lemma stored_elem m i : i ∈ stored_proofs m <-> m !! pi_y i = Some (value_of i).
Proof.
  unfold stored_proofs. rewrite rows_perm, list_elem_of_fmap. split.
  - intros ([k v] & -> & Hin%elem_of_map_to_list). by rewrite value_info.
  - intros H%elem_of_map_to_list. exists (pi_y i, value_of i). split; [|done]. symmetry. apply info_value.
Qed.
Lemma stored_NoDup m : NoDup (pi_y <$> stored_proofs m).
Proof.
  unfold stored_proofs. rewrite rows_perm, <- list_fmap_compose. apply (NoDup_fst_map_to_list m).
Qed.

Lemma set_proofs_fold {A} (g : A -> gmap pubkey ProofValue -> gmap pubkey ProofValue) l (t : Tables) :
  fold_left (fun t a => set_proofs t (g a (rt_proofs t))) l t = set_proofs t (fold_left (fun m a => g a m) l (rt_proofs t)).
Proof. revert t. induction l as [|a l IH]; intros t; cbn [fold_left]; [by destruct t|]. by rewrite IH. Qed.

Lemma fold_delete_Some (ys : list pubkey) : forall (m : gmap pubkey ProofValue) k v,
  fold_left (fun m y => delete y m) ys m !! k = Some v <-> (k ∉ ys) /\ m !! k = Some v.
Proof.
  induction ys as [|y ys IH]; intros m k v; cbn [fold_left]; [set_solver|].
  rewrite IH, lookup_delete_Some, not_elem_of_cons. naive_solver.
Qed.

Lemma update_proofs_tables added removed (s s' : Redb) : update_proofs added removed s = (Ok tt, s') ->
  rd_tables s' = set_proofs (rd_tables s) (fold_left (fun m y => delete y m) removed
    (fold_left (fun m p => <[pi_y p := value_of p]> m) added (rt_proofs (rd_tables s)))).
Proof.
  intros (s1 & s2 & H1 & H & H2)%write_Ok. unfold mseq in H. rewrite !table_for in H. injection H as <-. rewrite H2, <- H1.
  cbn [rd_tables]. by rewrite (set_proofs_fold (fun p m => <[pi_y p := value_of p]> m)), (set_proofs_fold (fun y m => delete y m)).
Qed.

Lemma redb_update_proofs added removed (s s' : Redb) : fresh added removed (proofs_of s) ->
  update_proofs added removed s = (Ok tt, s') -> proofs_of s' ≡ₚ without removed (proofs_of s) ++ added.
Proof.
  intros [Hnd Hf] H%update_proofs_tables. cbn. rewrite H. cbn. set (m := rt_proofs (rd_tables s)). apply perm_by_key.
  - apply stored_NoDup.
  - rewrite fmap_app. apply NoDup_app. split_and!; [|intros k Hk Hin|done].
    + apply NoDup_map_filter, stored_NoDup.
    + apply list_elem_of_fmap in Hin as (p & -> & Hp). destruct (Hf p Hp) as (_ & Hx & _). apply Hx. apply list_elem_of_fmap in Hk as (i & Hi & Hk).
      rewrite Hi. apply list_elem_of_fmap_2. by apply list_elem_of_filter in Hk as [_ ?].
  - intros i. rewrite elem_of_app. unfold without. rewrite list_elem_of_filter, !stored_elem, fold_delete_Some.
    rewrite (fold_insert_Some pi_y value_of) by done. split.
    + intros (Hr & [(p & Hp & Hy & Hv)|[_ Hm]]); [|by left]. right. by rewrite <- (info_value i), <- Hy, <- Hv, info_value.
    + intros [[Hr Hm]|Hp]; [|split; [by apply Hf|left; eauto]]. split; [done|]. right. split; [|done].
      intros (p & Hy & Hp)%list_elem_of_fmap. destruct (Hf p Hp) as (_ & Hx & _). apply Hx. rewrite <- Hy.
      apply list_elem_of_fmap_2. cbn. by apply stored_elem.
Qed.

(** The rows that a change of state leaves, when it is made from a snapshot. *)
Lemma states_loop (snapshot : gmap pubkey ProofValue) st ks : forall (s s' : Redb),
  mfor (fun y => do v <- mlift (ok_or UnknownY (snapshot !! y)) ;
          table (fun t => set_proofs t (<[y := set_pv_state v st]> (rt_proofs t)))) ks s = (Ok tt, s') ->
  exists m, rd_tables s' = set_proofs (rd_tables s) m /\ (forall y, y ∈ ks -> is_Some (snapshot !! y)) /\
    forall k, m !! k = if bool_decide (k ∈ ks) then flip set_pv_state st <$> snapshot !! k else rt_proofs (rd_tables s) !! k.
Proof.
  induction ks as [|y ks IH]; intros s s'; cbn [mfor].
  { intros [= <-]. exists (rt_proofs (rd_tables s)). split; [by destruct (rd_tables s)|]. split; [by intros y ?%not_elem_of_nil|done]. }
  intros ([] & s1 & H1 & H)%mseq_Ok. apply mseq_Ok in H1 as (v & s2 & [Hv ->]%mlift_Ok & [= <-]).
  destruct (snapshot !! y) as [v'|] eqn:Hy; [|done]. injection Hv as ->. apply IH in H as (m & Ht & Hin & Hm). exists m.
  split; [by rewrite Ht|]. split; [intros k [->|Hk]%elem_of_cons; eauto|]. intros k. rewrite Hm. cbn [rd_tables rt_proofs set_proofs].
  destruct (decide (k ∈ ks)) as [Hk|Hk]; [rewrite !bool_decide_true by (by rewrite ?elem_of_cons; auto); done|].
  rewrite (bool_decide_false (k ∈ ks)) by done. destruct (decide (k = y)) as [->|Hne].
  - rewrite bool_decide_true by (by rewrite elem_of_cons; left). by rewrite lookup_insert_eq, Hy.
  - rewrite bool_decide_false by (by rewrite elem_of_cons; intros []). by rewrite lookup_insert_ne.
Qed.

Lemma redb_update_state ks st (s s' : Redb) : update_proofs_state ks st s = (Ok tt, s') ->
  proofs_of s' ≡ₚ (restate ks st <$> proofs_of s).
Proof.
  unfold update_proofs_state. intros (m0 & s1 & [-> H1]%read_Ok & H)%mseq_Ok. apply write_Ok in H as (s2 & s3 & H2 & H & H3).
  apply states_loop in H as (m & Ht & _ & Hm). cbn. rewrite H3, Ht. cbn [rt_proofs set_proofs]. rewrite H2, H1 in Hm.
  assert (Hy : forall i, pi_y (restate ks st i) = pi_y i) by (intros i; unfold restate; by case_bool_decide).
  apply perm_by_key; [apply stored_NoDup| |].
  { rewrite <- list_fmap_compose. rewrite (list_fmap_ext _ pi_y) by (intros _ i _; apply Hy). apply stored_NoDup. }
  intros i. rewrite list_elem_of_fmap, stored_elem, Hm. split.
  - intros Hi. case_bool_decide as Hk.
    + apply fmap_Some in Hi as (v & Hv & Hi). exists (info_of (pi_y i) v). rewrite stored_elem, value_info. split; [|done].
      unfold restate. rewrite bool_decide_true by done. rewrite <- (info_value i) at 1. by rewrite Hi.
    + exists i. rewrite stored_elem. split; [|done]. unfold restate. by rewrite bool_decide_false.
  - intros (j & -> & Hj%stored_elem). rewrite Hy, Hj. unfold restate. by case_bool_decide.
Qed.

Lemma redb_increment id n (s s' : Redb) r : increment_keyset_counter id n s = (r, s') ->
  rt_proofs (rd_tables s') = rt_proofs (rd_tables s) /\
  (forall id', id' <> id -> rt_counters (rd_tables s') !! id' = rt_counters (rd_tables s) !! id') /\
  forall c, r = Ok c -> c = (default 0 (rt_counters (rd_tables s) !! id) + n) mod 2 ^ 32 /\ rt_counters (rd_tables s') !! id = Some c.
Proof.
  intros [(c & s1 & s2 & -> & H1 & [= <- <-] & ->)|[Hr ->]]%write_run; cbn; rewrite ?H1; split_and!; [done| |  |done..|].
  - intros id' Hne. by rewrite lookup_insert_ne.
  - intros c [= <-]. by rewrite lookup_insert_eq.
  - intros c ->. by destruct (Hr c).
Qed.

(** ** The interface *)

Lemma insert_keysets_quiet u l : keeps (on_tables quiet_t) (insert_keysets u l : Op _).
Proof. induction l as [|k l IH]; cbn [insert_keysets]; unfold insert_u32, store_keyset; keep. Qed.
#[local] Hint Resolve insert_keysets_quiet : keeps.

(** A change of URL writes the proofs back with what they are worth and their
    states. *)
Definition coins (m : gmap pubkey ProofValue) : gmap pubkey (Proof * Nut07.State) := (fun v => (pv_proof v, pv_state v)) <$> m.
Lemma stored_coins m : coin_of <$> stored_proofs m ≡ₚ (fun kv => (kv.1, kv.2.1, kv.2.2)) <$> map_to_list (coins m).
Proof.
  unfold stored_proofs, coins. rewrite rows_perm, map_to_list_fmap, <- !list_fmap_compose. apply reflexive_eq, list_fmap_ext. by intros _ [k v] _.
Qed.
Lemma rewrite_coins l : forall m, Forall (fun i => fst <$> (coins m !! pi_y i) = Some (pi_proof i) /\ snd <$> (coins m !! pi_y i) = Some (pi_state i)) l ->
  coins (fold_left (fun m p => <[pi_y p := value_of p]> m) l m) = coins m.
Proof.
  intros m H. revert m H. induction l as [|i l IH]; intros m H; cbn [fold_left]; [done|]. apply Forall_cons in H as [[H1 H2] Hl].
  assert (Hm : coins (<[pi_y i := value_of i]> m) = coins m).
  { unfold coins at 1. rewrite fmap_insert. apply insert_id. fold (coins m). destruct (coins m !! pi_y i) as [[x st]|]; cbn in *; congruence. }
  rewrite IH; [done|]. by rewrite Hm.
Qed.
Lemma update_back l (s : Redb) : (forall i, i ∈ l -> exists p, p ∈ proofs_of s /\ coin_of i = coin_of p) -> moved s (snd (update_proofs l [] s)).
Proof.
  intros Hl. destruct (update_proofs l [] s) as [r s'] eqn:H. cbn [snd]. destruct r as [[]| |]; cycle 1.
  1-2: apply write_run in H as [(? & ? & ? & [=] & _)|[_ H]]; unfold moved, counts_kept; cbn; by rewrite H.
  apply update_proofs_tables in H. unfold moved, counts_kept. cbn. rewrite H. cbn. split; [|done]. rewrite !stored_coins, rewrite_coins; [done|].
  apply Forall_forall. intros i (p & Hp%stored_elem & [= Hy Hx Hst])%Hl. rewrite Hy, Hx, Hst. unfold coins. by rewrite lookup_fmap, Hp.
Qed.
Lemma redb_update_url now u u' : keeps moved (update_mint_url now u u' : Op _).
Proof.
  intros s. destruct (update_mint_url now u u' s) as [r s'] eqn:H. cbn [snd]. unfold update_mint_url in H.
  assert (Hq : keeps moved (get_proofs (Some u) None None None : Op _)) by (apply quiet_moved, quiet_on; unfold get_proofs; keep).
  specialize (Hq s). apply seq_run in H as [(l & s1 & Hl & H)|[(e & Hl & _)|[Hl _]]]; rewrite Hl in Hq; [|done..].
  etrans; [exact Hq|]. apply read_Ok in Hl as [-> Ht]. cbv zeta in H. set (l := _ <$> _) in H.
  assert (Hu : moved s1 (snd ((match l with [] => mret tt | _ => update_proofs l [] end : Op _) s1))).
  { destruct l as [|i l'] eqn:El; [done|]. rewrite <- El in *. apply update_back. intros j (p & -> & [_ Hp]%list_elem_of_filter)%list_elem_of_fmap.
    exists p. cbn. by rewrite Ht. }
  assert (Hr : keeps moved (do quotes <- get_mint_quotes ; mfor (fun q => add_mint_quote (set_wq_url q u')) (filter (fun q => wq_expiry q < now) quotes) : Op _)).
  { apply quiet_moved, quiet_on. unfold get_mint_quotes, add_mint_quote. keep. }
  apply seq_run in H as [([] & s2 & H2 & H)|[(e & H2 & _)|[H2 _]]]; rewrite H2 in Hu; [|done..].
  etrans; [exact Hu|]. specialize (Hr s2). by rewrite H in Hr.
Qed.

Lemma redb_laws now : WalletStoreLaws CR MintInfo Redb RedbError (redb_store now) redb_view.
Proof.
  constructor; unfold st_add_mint, st_remove_mint, st_get_mint, st_get_mints, st_update_mint_url, st_remove_keys, st_add_mint_keysets, st_get_mint_keysets, st_get_keyset_by_id,
    st_add_mint_quote, st_get_mint_quote, st_get_mint_quotes, st_remove_mint_quote, st_add_melt_quote, st_get_melt_quote,
    st_get_melt_quotes, st_remove_melt_quote, st_add_keys, st_get_keys, st_get_proofs, st_get_balance, st_add_transaction,
    st_get_transaction, st_list_transactions, st_remove_transaction, st_update_proofs, st_update_proofs_state,
    st_increment_keyset_counter, redb_store.
  all: try (intros; apply quiet_on; unfold add_mint, get_mint, get_mints, remove_keys, add_mint_keysets, get_mint_keysets, get_keyset_by_id, add_mint_quote,
    get_mint_quote, get_mint_quotes, remove_mint_quote, add_melt_quote, get_melt_quote, get_melt_quotes, remove_melt_quote, add_keys,
    get_keys, get_proofs, get_balance, add_transaction, get_transaction, list_transactions, remove_transaction, get_proofs;
    first [apply write_keeps; [apply _|]; keep|keep]; fail).
  - intros u l w w' _. by apply Forall_forall.
  - intros u w w' r. unfold remove_mint. intros [([] & s1 & s2 & _ & H1 & [= <-] & H)|[_ H]]%write_run; cbn; rewrite H; [cbn; rewrite H1|]; done.
  - intros u u'. apply redb_update_url.
  - intros u c s w l w' [-> _]%read_Ok. by rewrite (list_filter_iff _ _ _ (matches_wanted u c s)).
  - intros u c s sc w l w' [-> _]%read_Ok p [Hp Hin]%list_elem_of_filter. apply list_elem_of_filter. split; [|done]. by eapply matches_subset.
  - intros added removed w w'. apply redb_update_proofs.
  - intros added removed. apply counts_on. unfold update_proofs. apply write_keeps; [apply _|]. keep.
  - intros ks st w w'. apply redb_update_state.
  - intros ks st. apply counts_on. unfold update_proofs_state. apply keeps_seq; [apply _|keep|intros m].
    unfold write_states. apply write_keeps; [apply _|]. keep.
  - intros id n w c w' _ (_ & _ & H)%redb_increment. destruct (H c eq_refl) as [-> Hc]. split; [done|]. cbn. by rewrite Hc.
  - intros id n w w' r (Hp & Ho & _)%redb_increment. cbn. rewrite Hp. split_and!; [done| |done]. intros id' Hne. by rewrite Ho.
Qed.

(** ** The numbers of keyset ids *)

(** Every id that is stored has its number, and a number belongs to one id. *)
Definition stored_id (t : Tables) (id : Id) : Prop := is_Some (rt_mint_keys t !! id) \/ is_Some (rt_keysets t !! id).
Definition numbered (t : Tables) : Prop :=
  map_Forall (fun n id => id_u32 id = Ok n) (rt_u32 t) /\ map_Forall (fun id k => ki_id k = id) (rt_keysets t) /\
  forall id, stored_id t id -> exists n, rt_u32 t !! n = Some id.

Lemma numbered_unique t id id' n : numbered t -> stored_id t id -> stored_id t id' -> id_u32 id = Ok n -> id_u32 id' = Ok n -> id = id'.
Proof.
  intros (Hn & _ & Hs) [m Hm]%Hs [m' Hm']%Hs E E'. pose proof (Hn _ _ Hm) as E1. pose proof (Hn _ _ Hm') as E2. cbn in E1, E2. congruence.
Qed.

(** An id takes its number, which is free or its own. *)
Lemma numbered_insert (t : Tables) n id (Hn : id_u32 id = Ok n) (Hfree : another (rt_u32 t !! n) id = false) (H : numbered t) :
  numbered (set_u32 t (<[n := id]> (rt_u32 t))).
Proof.
  destruct H as (H1 & H2 & H3). split_and!; [by apply map_Forall_insert_2|done|]. cbn. intros i Hi. destruct (H3 i Hi) as [m Hm].
  destruct (decide (n = m)) as [<-|Hne]; [|exists m; by rewrite lookup_insert_ne]. exists n. rewrite lookup_insert_eq.
  unfold another in Hfree. rewrite Hm in Hfree. apply bool_decide_eq_false in Hfree. f_equal. symmetry. by destruct (decide (i = id)).
Qed.

Lemma numbered_stored (t t' : Tables) : rt_u32 t' = rt_u32 t -> map_Forall (fun id k => ki_id k = id) (rt_keysets t') ->
  (forall id, stored_id t' id -> stored_id t id \/ exists n, rt_u32 t !! n = Some id) -> numbered t -> numbered t'.
Proof.
  intros Hu Hk Hs (H1 & H2 & H3). split_and!; [by rewrite Hu|done|]. rewrite Hu. intros id [Hi|Hi]%Hs; [by apply H3|done].
Qed.

Lemma insert_u32_run id s r s' : (insert_u32 id : Op _) s = (Ok r, s') ->
  exists n, id_u32 id = Ok n /\ r = rt_u32 (rd_tables s) !! n /\ rd_tables s' = set_u32 (rd_tables s) (<[n := id]> (rt_u32 (rd_tables s))).
Proof. intros (n & s1 & [Hn ->]%mlift_Ok & [= <- <-])%mseq_Ok. eauto. Qed.

Lemma store_keyset_numbered u k existing s s' (H : numbered (rd_tables s)) (Hex : existing = rt_keysets (rd_tables s) !! ki_id k)
    (Hn : exists n, rt_u32 (rd_tables s) !! n = Some (ki_id k)) :
  (store_keyset u k existing : Op _) s = (Ok tt, s') -> numbered (rd_tables s').
Proof.
  intros Hrun. assert (Hid : forall k0, existing = Some k0 -> ki_id k0 = ki_id k).
  { intros k0 E. rewrite Hex in E. destruct H as (_ & H & _). by apply (H _ _ E). }
  destruct existing as [k0|]; injection Hrun as <-; (apply (numbered_stored (rd_tables s)); [done| | |done]).
  all: cbn; rewrite ?(Hid _ eq_refl).
  - apply map_Forall_insert_2; [done|apply H].
  - intros id [Hi|Hi]; [by left; left|]. cbn in Hi. rewrite lookup_insert_is_Some in Hi. destruct Hi as [<-|[_ Hi]]; [by right|by left; right].
  - apply map_Forall_insert_2; [done|apply H].
  - intros id [Hi|Hi]; [by left; left|]. cbn in Hi. rewrite lookup_insert_is_Some in Hi. destruct Hi as [<-|[_ Hi]]; [by right|by left; right].
Qed.

Lemma insert_keysets_numbered u l : forall s s', numbered (rd_tables s) -> (insert_keysets u l : Op _) s = (Ok false, s') ->
  numbered (rd_tables s').
Proof.
  induction l as [|k l IH]; intros s s' H; cbn [insert_keysets]; [by intros [= <-]|].
  intros (ex & s1 & [= <- <-] & H1)%mseq_Ok. apply mseq_Ok in H1 as (ex32 & s2 & (n & Hn & -> & H2)%insert_u32_run & H1).
  destruct (another _ _) eqn:Ha; [done|]. apply mseq_Ok in H1 as ([] & s3 & H3 & H1). revert H1. apply IH.
  assert (numbered (rd_tables s2)) by (rewrite H2; by apply numbered_insert).
  eapply store_keyset_numbered; [done| | |done]; rewrite H2; [done|]. exists n. cbn. apply lookup_insert_eq.
Qed.

Lemma refuse_Ok b e s s' : (refuse_when b e : Op _) s = (Ok tt, s') -> b = false /\ s' = s.
Proof. unfold refuse_when. destruct b; [|by intros [= <-]]. by intros ([] & s1 & _ & ?)%mseq_Ok. Qed.

Lemma add_mint_keysets_numbered u l (s s' : Redb) r : numbered (rd_tables s) -> add_mint_keysets u l s = (r, s') -> numbered (rd_tables s').
Proof.
  intros H [([] & s1 & s2 & -> & H1 & Hr & ->)|[_ ->]]%write_run; [|done].
  apply mseq_Ok in Hr as (b & s3 & H3 & [-> ->]%refuse_Ok). revert H3. apply insert_keysets_numbered. by rewrite H1.
Qed.

Lemma add_keys_numbered k (s s' : Redb) r (Hk : key_of (id_to_string (kset_id k)) = Some (kset_id k)) :
  numbered (rd_tables s) -> add_keys k s = (r, s') -> numbered (rd_tables s').
Proof.
  intros H [([] & s1 & s2 & -> & H1 & Hr & ->)|[_ ->]]%write_run; [|done]. rewrite <- H1 in H.
  apply mseq_Ok in Hr as ([] & s3 & [_ ->]%mlift_Ok & Hr). apply mseq_Ok in Hr as (e & s4 & [= <- <-] & Hr).
  apply mseq_Ok in Hr as ([] & s5 & [= <-] & Hr). apply mseq_Ok in Hr as (e & s6 & [= <- <-] & Hr).
  apply mseq_Ok in Hr as ([] & s7 & [= <-] & [Hd ->]%refuse_Ok). apply orb_false_iff in Hd as [_ Hd]. cbn in Hd |- *.
  assert (Hn : id_u32 (id_to_string (kset_id k)) = Ok (id_to_u32 (kset_id k))) by (unfold id_u32; by rewrite Hk).
  pose proof (numbered_insert _ _ _ Hn Hd H) as (I1 & I2 & I3). split_and!; [done|done|]. cbn in *. intros id [Hi|Hi]; [|apply I3; by right].
  cbn in Hi. rewrite lookup_insert_is_Some in Hi. destruct Hi as [<-|[_ Hi]]; [|apply I3; by left]. eexists. apply lookup_insert_eq.
Qed.

(** The methods that write, and the states of a store that is used through
    them. *)
Inductive step : Redb -> Redb -> Prop :=
| StepAddMint u i r s s' : add_mint u i s = (r, s') -> step s s'
| StepRemoveMint u r s s' : remove_mint u s = (r, s') -> step s s'
| StepUpdateMintUrl now u u' r s s' : update_mint_url now u u' s = (r, s') -> step s s'
| StepAddMintKeysets u l r s s' : add_mint_keysets u l s = (r, s') -> step s s'
| StepAddMintQuote q r s s' : add_mint_quote q s = (r, s') -> step s s'
| StepRemoveMintQuote i r s s' : remove_mint_quote i s = (r, s') -> step s s'
| StepAddMeltQuote q r s s' : add_melt_quote q s = (r, s') -> step s s'
| StepRemoveMeltQuote i r s s' : remove_melt_quote i s = (r, s') -> step s s'
| StepAddKeys k r s s' : key_of (id_to_string (kset_id k)) = Some (kset_id k) -> add_keys k s = (r, s') -> step s s'
| StepRemoveKeys i r s s' : remove_keys i s = (r, s') -> step s s'
| StepUpdateProofs a d r s s' : update_proofs a d s = (r, s') -> step s s'
| StepUpdateProofsState ks st r s s' : update_proofs_state ks st s = (r, s') -> step s s'
| StepIncrement i n r s s' : increment_keyset_counter i n s = (r, s') -> step s s'
| StepAddTransaction x r s s' : add_transaction x s = (r, s') -> step s s'
| StepRemoveTransaction i r s s' : remove_transaction i s = (r, s') -> step s s'.

(** What the other methods leave alone; keys can be removed. *)
Definition ids_t : relation Tables := fun t t' => rt_u32 t' = rt_u32 t /\ rt_keysets t' = rt_keysets t /\ rt_mint_keys t' ⊆ rt_mint_keys t.
#[local] Instance ids_t_preorder : PreOrder ids_t.
Proof. split; [by intros t|]. intros t1 t2 t3 (? & ? & ?) (? & ? & ?). split_and!; [congruence..|by etrans]. Qed.
#[local] Hint Extern 1 (keeps (along rd_tables ids_t) (table _)) => (apply table_keeps; intros ?; by split_and!) : keeps.

Lemma ids_numbered t t' : ids_t t t' -> numbered t -> numbered t'.
Proof.
  intros (H1 & H2 & H3). intros H. apply (numbered_stored t); [done|rewrite H2; apply H| |done].
  intros id [[x Hi]|Hi]; left; [left|by right; rewrite <- H2]. exists x. by eapply lookup_weaken.
Qed.

Lemma step_numbered s s' : step s s' -> numbered (rd_tables s) -> numbered (rd_tables s').
Proof.
  assert (W : forall A (c : Op A) s r s', keeps (on_tables ids_t) c -> c s = (r, s') -> numbered (rd_tables s) -> numbered (rd_tables s')).
  { intros A c w r w' Hk Hr. apply ids_numbered. by apply (keeps_run _ _ _ _ _ Hk Hr). }
  destruct 1 as [? ? ? ? ? H|? ? ? ? H|? ? ? ? ? ? H|? ? ? ? ? H|? ? ? ? H|? ? ? ? H|? ? ? ? H|? ? ? ? H|? ? ? ? ? H|? ? ? ? H|
    ? ? ? ? ? H|? ? ? ? ? H|? ? ? ? ? H|? ? ? ? H|? ? ? ? H].
  4: intros Hn; by eapply add_mint_keysets_numbered.
  8: intros Hn; by eapply add_keys_numbered.
  all: eapply W; [|exact H]; unfold add_mint, remove_mint, update_mint_url, add_mint_quote, remove_mint_quote, add_melt_quote,
    remove_melt_quote, update_proofs, update_proofs_state, increment_keyset_counter, add_transaction, remove_transaction, get_mint_quotes,
    get_proofs, write_states; keep; try (apply write_keeps; [apply _|keep]; fail).
  - apply write_keeps; [apply _|]. apply table_keeps. intros t. split_and!; [done..|]. cbn. apply delete_subseteq.
Qed.

(** Whatever methods are called on a store, and whatever calls of the database
    fail, two keyset ids that it knows have different numbers: the keys of a
    mint can not take over the derivation paths of another keyset's keys. *)
Theorem redb_numbers_unique s s' id id' n (Hstart : numbered (rd_tables s)) (Hsteps : rtc step s s')
    (Hid : stored_id (rd_tables s') id) (Hid' : stored_id (rd_tables s') id') (Hn : id_u32 id = Ok n) (Hn' : id_u32 id' = Ok n) : id = id'.
Proof.
  apply (numbered_unique (rd_tables s') id id' n); try done. clear -Hstart Hsteps. induction Hsteps; eauto using step_numbered.
Qed.

(** ** Changes of state *)

(** A key that is not stored refuses the whole change. *)
Theorem unknown_key_refuses_change ks st y t (Hin : y ∈ ks) (Hno : rt_proofs t !! y = None) :
  (update_proofs_state ks st : Op _) (mkRedb t []) = (Err UnknownY, mkRedb t []).
Proof.
  unfold update_proofs_state, mseq, read, write_states. cbn.
  assert (Hloop : forall t1, exists t2, mfor (fun k => do v <- mlift (ok_or UnknownY (rt_proofs t !! k)) ;
      table (fun t => set_proofs t (<[k := set_pv_state v st]> (rt_proofs t)))) ks (mkRedb t1 []) = (Err UnknownY, mkRedb t2 [] : Redb)).
  { clear -Hin Hno. induction ks as [|k ks IH]; intros t1; [by apply not_elem_of_nil in Hin|]. cbn [mfor]. unfold mseq at 1, mseq at 1, mlift at 1.
    destruct (rt_proofs t !! k) as [v|] eqn:Hk; [|by eexists]. cbn [ok_or]. unfold table at 1, mmodify. cbn [rd_tables rd_faults]. apply IH.
    apply elem_of_cons in Hin as [->|]; [by rewrite Hno in Hk|done]. }
  destruct (Hloop t) as [t2 E]. unfold write, mseq at 1. cbn [fault rd_faults]. unfold mseq at 1. by rewrite E.
Qed.

(** The snapshot can be older than the table: a proof that was removed in
    between, by another task, is stored again with the state asked for. *)
Theorem stale_snapshot_restores_proof snapshot t y v st (Hold : snapshot !! y = Some v) (Hgone : rt_proofs t !! y = None) :
  exists t', (write_states snapshot [y] st : Op _) (mkRedb t []) = (Ok tt, mkRedb t' []) /\ info_of y (set_pv_state v st) ∈ stored_proofs (rt_proofs t').
Proof.
  eexists. split.
  - unfold write_states, write, mseq at 1. cbn [fault rd_faults]. unfold mseq at 1. cbn [mfor]. unfold mseq at 1, mseq at 1, mlift. rewrite Hold. cbn. reflexivity.
  - apply stored_elem. rewrite value_info. cbn. apply lookup_insert_eq.
Qed.

(** ** A mint that moves *)

Definition moved (old new : MintUrl) (p : ProofInfo) : ProofInfo := if bool_decide (pi_mint_url p = old) then set_pi_url p new else p.

Lemma moved_y old new p : pi_y (moved old new p) = pi_y p.
Proof. unfold moved. by case_bool_decide. Qed.

Lemma url_filter old p : matches_conditions p (Some old) None None None = true <-> pi_mint_url p = old.
Proof. unfold matches_conditions, matches. rewrite !andb_true_r, bool_decide_eq_true. done. Qed.

Lemma moved_table old new (m : gmap pubkey ProofValue) :
  stored_proofs (fold_left (fun m p => <[pi_y p := value_of p]> m)
    ((fun p => set_pi_url p new) <$> filter (fun p => matches_conditions p (Some old) None None None = true) (stored_proofs m)) m) ≡ₚ
  (moved old new <$> stored_proofs m).
Proof.
  set (F := filter _ _). assert (HF : forall p, p ∈ F <-> pi_mint_url p = old /\ m !! pi_y p = Some (value_of p)).
  { intros p. unfold F. by rewrite list_elem_of_filter, url_filter, stored_elem. }
  assert (Hk : pi_y <$> ((fun p => set_pi_url p new) <$> F) = pi_y <$> F) by (by rewrite <- list_fmap_compose).
  assert (Hnd : NoDup (pi_y <$> ((fun p => set_pi_url p new) <$> F))) by (rewrite Hk; apply NoDup_map_filter, stored_NoDup).
  apply perm_by_key; [apply stored_NoDup| |].
  { rewrite <- list_fmap_compose, (list_fmap_ext _ pi_y) by (intros _ i _; apply moved_y). apply stored_NoDup. }
  intros i. rewrite (list_elem_of_fmap (moved old new)), stored_elem, (fold_insert_Some pi_y value_of), Hk by done. unfold moved. split.
  - intros [(a & (p & -> & [Hu Hp]%HF)%list_elem_of_fmap & Hy & Hv)|[Hno Hm]].
    + exists p. rewrite stored_elem, bool_decide_true by done. split; [|done]. by rewrite <- (info_value i), <- Hy, <- Hv, info_value.
    + exists i. rewrite stored_elem. split; [|done]. rewrite bool_decide_false; [done|]. intros Hu. apply Hno, list_elem_of_fmap_2, HF. done.
  - intros (p & -> & Hp%stored_elem). case_bool_decide as Hu.
    + left. exists (set_pi_url p new). split; [|done]. by apply (list_elem_of_fmap_2 (fun p => set_pi_url p new)), HF.
    + right. split; [|done]. intros (q & Hy & [Hq Hmq]%HF)%list_elem_of_fmap. rewrite <- Hy, Hp in Hmq.
      apply (f_equal (fmap pv_mint_url)) in Hmq. injection Hmq as Hmq. apply Hu. cbn in Hmq. congruence.
Qed.

(** The proofs of a mint that moves are found under its new URL, and no other
    proof is changed. *)
Theorem redb_proofs_move now old new (s s' : Redb) (Hrun : update_mint_url now old new s = (Ok tt, s')) :
  proofs_of s' ≡ₚ (moved old new <$> proofs_of s).
Proof.
  unfold update_mint_url in Hrun. apply mseq_Ok in Hrun as (ps & s1 & [-> H1]%read_Ok & Hrun). cbn zeta in Hrun.
  apply mseq_Ok in Hrun as ([] & s2 & H2 & Hrun). apply mseq_Ok in Hrun as (qs & s3 & [_ H3]%read_Ok & Hrun).
  assert (Hp : rt_proofs (rd_tables s') = rt_proofs (rd_tables s3)).
  { assert (K : keeps (on_tables quiet_t) (mfor (fun q => add_mint_quote (set_wq_url q new)) (filter (fun q => wq_expiry q < now) qs) : Op _)).
    { apply keeps_for; [apply _|]. intros q. unfold add_mint_quote. apply write_keeps; [apply _|keep]. }
    apply (keeps_run _ _ _ _ _ K Hrun). }
  cbn. rewrite Hp, H3, <- (moved_table old new). clear Hrun Hp H3. destruct (_ <$> _) as [|p ps] eqn:E; [injection H2 as <-; by rewrite H1|].
  apply update_proofs_tables in H2. by rewrite H2, H1.
Qed.

(** So are the mint quotes that have expired, also those of other mints. *)
Theorem redb_moves_foreign_quotes {QL : QuoteJsonLaws CR QJ} now old new q t (Hq : rt_mint_quotes t = {[wq_id q := mint_quote_to_json q]})
    (Hp : rt_proofs t = ∅) (Hold : wq_expiry q < now) (Hurl : wq_mint_url q <> old) :
  exists t', (update_mint_url now old new : Op _) (mkRedb t []) = (Ok tt, mkRedb t' []) /\
    (get_mint_quote (wq_id q) : Op _) (mkRedb t' []) = (Ok (Some (set_wq_url q new)), mkRedb t' []).
Proof.
  assert (Hr : rows text (rt_mint_quotes t) = [(wq_id q, mint_quote_to_json q)]) by (unfold rows; rewrite Hq, map_to_list_singleton; done).
  exists (set_mint_quotes t (<[wq_id q := mint_quote_to_json (set_wq_url q new)]> (rt_mint_quotes t))). split.
  - unfold update_mint_url, mseq at 1. unfold get_proofs, read at 1, mseq at 1. cbn [fault rd_faults]. unfold from_table at 1, mgets at 1. cbn [rd_tables]. rewrite Hp.
    change (stored_proofs ∅) with (@nil ProofInfo). change (filter _ []) with (@nil ProofInfo). cbn [fmap list_fmap map]. cbn zeta.
    unfold mseq at 1, mret at 1. unfold mseq at 1, get_mint_quotes, read at 1, mseq at 1. cbn [fault rd_faults]. unfold from_table at 1, mgets at 1. cbn [rd_tables].
    rewrite Hr. cbn [omap list_omap snd]. rewrite mint_quote_json. rewrite filter_cons_True by done. reflexivity.
  - unfold get_mint_quote, mseq, read. cbn. rewrite lookup_insert_eq. cbn. by rewrite mint_quote_json.
Qed.

(** ** Migrations *)

Lemma insert_ids_run ids : forall b (s s' : Redb), insert_ids ids b s = (Ok false, s') -> b = false /\
  exists m, rd_tables s' = set_u32 (rd_tables s) m /\ rt_u32 (rd_tables s) ⊆ m /\ (forall id, id ∈ ids -> exists n, m !! n = Some id) /\
    (map_Forall (fun n id => id_u32 id = Ok n) (rt_u32 (rd_tables s)) -> map_Forall (fun n id => id_u32 id = Ok n) m).
Proof.
  induction ids as [|id ids IH]; intros b s s'; cbn [insert_ids].
  { intros [= -> <-]. split; [done|]. exists (rt_u32 (rd_tables s)). split_and!; [by destruct (rd_tables s)|done|by intros i ?%not_elem_of_nil|done]. }
  intros (ex & s1 & (n & Hn & -> & H1)%insert_u32_run & H)%mseq_Ok. apply IH in H as [Hb (m & Hm & Hsub & Hin & Hok)].
  apply orb_false_iff in Hb as [-> Hb%bool_decide_eq_false]. apply eq_None_not_Some in Hb. split; [done|]. exists m. rewrite H1 in *. cbn in *.
  split_and!; [done| | |].
  - etrans; [|done]. by apply insert_subseteq.
  - intros i [->|Hi]%elem_of_cons; [|by apply Hin]. exists n. eapply lookup_weaken; [|done]. apply lookup_insert_eq.
  - intros Hf. apply Hok. by apply map_Forall_insert_2.
Qed.

Lemma readable_own id k : key_of id = Some k -> readable_id id = Some id.
Proof. unfold key_of, readable_id. destruct (id_try_from id) as [k'| |]; [|done..]. case_decide; [|done]. intros [= <-]. by f_equal. Qed.

Lemma all_ids_stored (t : Tables) id : is_Some (key_of id) -> stored_id t id -> id ∈ elements (all_ids t).
Proof.
  intros [k Hk%readable_own] Hs. apply elem_of_elements. unfold all_ids. rewrite elem_of_list_to_set, list_elem_of_omap. exists id. split; [|done].
  rewrite elem_of_app. destruct Hs as [[x Hx]|[x Hx]]; [left|right]; apply list_elem_of_fmap; exists (id, x); (split; [done|]); by apply elem_of_map_to_list.
Qed.

(** The third version of the file gives every known keyset its number, or the
    migration fails and leaves the file as it was. *)
Theorem migration_numbers_keysets (s s' : Redb) r (Hrun : migrate_02_to_03 s = (r, s'))
    (Hu32 : map_Forall (fun n id => id_u32 id = Ok n) (rt_u32 (rd_tables s)))
    (Hkeysets : map_Forall (fun id k => ki_id k = id) (rt_keysets (rd_tables s)))
    (Hids : forall id, stored_id (rd_tables s) id -> is_Some (key_of id)) :
  (r = Ok 3 /\ numbered (rd_tables s')) \/ ((forall v, r <> Ok v) /\ rd_tables s' = rd_tables s).
Proof.
  apply write_run in Hrun as [(v & s1 & s2 & -> & H1 & Hrun & H2)|Hrun]; [left|by right]. rewrite <- H1 in *.
  apply mseq_Ok in Hrun as (ids & s3 & [= <- <-] & Hrun). apply mseq_Ok in Hrun as (d & s4 & H4 & Hrun).
  apply mseq_Ok in Hrun as ([] & s5 & [-> ->]%refuse_Ok & [= <- <-]). apply insert_ids_run in H4 as (_ & m & Hm & _ & Hin & Hok).
  split; [done|]. rewrite H2, Hm. split_and!; [by apply Hok|done|]. cbn. intros id Hid. apply Hin. by apply all_ids_stored; [apply Hids|].
Qed.

(** Two spellings of a URL: the keysets filed under the first are dropped when
    the second is normalised. *)
Theorem migration_drops_keysets (t : Tables) (a b : Id)
    (Ht : rt_mint_keysets t = {["HTTPS://mint" := {[a]}; "https://mint" := {[b]}]}) :
  exists t', (migrate_mint_keyset_table_01_to_02 : Op _) (mkRedb t []) = (Ok tt, mkRedb t' []) /\
    rt_mint_keysets t' = {["https://mint" := {[b]}]}.
Proof.
  assert (Hr : rows text (rt_mint_keysets t) = [("HTTPS://mint", {[a]}); ("https://mint", {[b]})]) by (rewrite Ht; vm_compute; reflexivity).
  assert (U1 : parse_url "HTTPS://mint" = Ok "https://mint"%string) by reflexivity.
  assert (U2 : parse_url "https://mint" = Ok "https://mint"%string) by reflexivity.
  eexists. split.
  - unfold migrate_mint_keyset_table_01_to_02, mseq at 1, read, mseq at 1. cbn [fault rd_faults]. unfold from_table, mgets. cbn [rd_tables]. rewrite Hr.
    cbn [mfor]. unfold write, mseq, mlift, table, mmodify. cbn [fault rd_faults rd_tables fst snd]. rewrite U1. cbn [rd_tables rd_faults]. rewrite U2.
    cbn [fault rd_faults]. reflexivity.
  - cbn [rt_mint_keysets set_mint_keysets]. rewrite Ht, !elements_singleton. cbn [fold_left]. unfold insert_multi. rewrite lookup_delete_eq. cbn [default]. rewrite (right_id_L ∅ (∪)).
    apply map_eq. intros k. destruct (decide (k = "https://mint")) as [->|Hk]; [by rewrite lookup_insert_eq, lookup_singleton_eq|].
    unfold insert_multi. rewrite lookup_insert_ne, lookup_delete_ne, lookup_insert_ne, lookup_singleton_ne by done.
    destruct (decide (k = "HTTPS://mint")) as [->|Hk']; [by rewrite lookup_delete_eq|].
    by rewrite lookup_delete_ne, lookup_insert_ne, lookup_singleton_ne by done.
Qed.

(** ** Opening *)

(** Proofs and transactions survive whatever happens when a file is opened. *)
Definition kept_t : relation Tables := fun t t' => rt_proofs t' = rt_proofs t /\ rt_transactions t' = rt_transactions t.
#[local] Instance kept_t_preorder : PreOrder kept_t.
Proof. split; [by intros t|]. intros t1 t2 t3 [] []. split; congruence. Qed.
#[local] Hint Extern 1 (keeps (along rd_tables kept_t) (table _)) => (apply table_keeps; intros ?; by split) : keeps.

Lemma insert_ids_kept ids b : keeps (on_tables kept_t) (insert_ids ids b : Op _).
Proof. revert b. induction ids as [|id ids IH]; intros b; cbn [insert_ids]; unfold insert_u32; keep. Qed.
#[local] Hint Resolve insert_ids_kept : keeps.

Ltac keep_writes := repeat (keep; try (apply write_keeps; [apply _|])).

Lemma migrate_kept v : keeps (on_tables kept_t) (migrate v : Op _).
Proof.
  unfold migrate, when_version, migrate_00_to_01, migrate_01_to_02, migrate_02_to_03, migrate_03_to_04, migrate_mint_quotes_00_to_01,
    migrate_melt_quotes_00_to_01, migrate_mints_table_01_to_02, migrate_mint_keyset_table_01_to_02, write_version. keep_writes.
Qed.

#[local] Hint Resolve migrate_kept : keeps.

Lemma write_version_run (s s' : Redb) : write_version s = (Ok tt, s') -> rt_version (rd_tables s') = Some "4"%string.
Proof. by intros (s1 & s2 & _ & [= <-] & ->)%write_Ok. Qed.

Lemma fault_Ok (s s' : Redb) : fault s = (Ok tt, s') -> rd_tables s' = rd_tables s.
Proof. intros H. by rewrite <- (redb_fault_same s), H. Qed.

Lemma file_version_run (s s' : Redb) o : file_version s = (Ok o, s') -> rd_tables s' = rd_tables s /\ (o = rt_version (rd_tables s) \/ o = None).
Proof.
  intros ([] & s1 & H1%fault_Ok & H)%mseq_Ok. apply mseq_Ok in H as (x & s2 & H2 & H).
  assert (rd_tables s2 = rd_tables s1) as E. { rewrite <- (redb_fault_same s1). unfold mtry in H2. destruct (fault s1) as [[[]| |] ?]; injection H2 as _ <-; done. }
  destruct x as [[]|]; [|injection H as <- <-; by rewrite E, H1; auto].
  apply mseq_Ok in H as ([] & s3 & H3%fault_Ok & [= <- <-]). by rewrite H3, E, H1; auto.
Qed.

(** Opening a file keeps its proofs and its transactions, also when it fails on
    the way, and a file that was opened has the current version. *)
Theorem redb_open_result p p' (s s' : Redb) r (Hrun : open p p' s = (r, s')) :
  rt_proofs (rd_tables s') = rt_proofs (rd_tables s) /\ rt_transactions (rd_tables s') = rt_transactions (rd_tables s) /\
  (r = Ok tt -> rt_version (rd_tables s') ≫= u32_parse = Some DATABASE_VERSION).
Proof.
  assert (K : keeps (on_tables kept_t) (open p p' : Op _)).
  { unfold open, file_version, write_version. keep_writes. }
  destruct (keeps_run _ _ _ _ _ K Hrun) as [K1 K2]. split_and!; [done..|]. intros ->. unfold open in Hrun.
  apply mseq_Ok in Hrun as ([] & s1 & [_ ->]%mlift_Ok & Hrun). apply mseq_Ok in Hrun as ([] & s2 & H2%fault_Ok & Hrun).
  apply mseq_Ok in Hrun as (o & s3 & [H3 Ho]%file_version_run & Hrun). apply mseq_Ok in Hrun as ([] & s4 & H4 & Hrun).
  apply mseq_Ok in Hrun as ([] & s5 & [_ ->]%mlift_Ok & Hrun). apply mseq_Ok in Hrun as ([] & s6 & H6%fault_Ok & Hrun%fault_Ok).
  rewrite Hrun, H6. destruct o as [v|]; [|by rewrite (write_version_run _ _ H4)].
  destruct Ho as [Ho|]; [|done]. apply mseq_Ok in H4 as (n & s7 & [Hn ->]%mlift_Ok & H4).
  destruct (N.compare_spec n DATABASE_VERSION) as [->|Hlt|Hgt]; [| |done].
  - injection H4 as <-. rewrite H3, <- Ho. cbn. destruct (u32_parse v); [|done]. by injection Hn as ->.
  - unfold migrate in H4. do 5 (apply mseq_Ok in H4 as (? & ? & _ & H4)). by rewrite (write_version_run _ _ H4).
Qed.

(** A file of a later version is refused and left alone. *)
Theorem redb_newer_refused t v n (Hv : rt_version t = Some v) (Hn : u32_parse v = Some n) (Hnew : DATABASE_VERSION < n) :
  (open true true : Op _) (mkRedb t []) = (Err UnknownDatabaseVersion, mkRedb t []).
Proof.
  unfold open, mseq at 1. cbn [mlift ensure]. unfold mseq at 1, mlift. cbn [ensure]. unfold mseq at 1. cbn [fault rd_faults].
  unfold mseq at 1, file_version. cbn. rewrite Hv. unfold mseq, mlift. rewrite Hn. cbn [ok_or].
  apply N.compare_gt_iff in Hnew. by rewrite Hnew.
Qed.

(** From version 3 on, a counter is the next index and no longer the last one:
    each counter that was used moves by one. *)
Theorem redb_open_version_3 t (Hv : rt_version t = Some "3"%string) :
  (open true true : Op _) (mkRedb t []) = (Ok tt, mkRedb (set_version (set_counters t (bump <$> rt_counters t)) (Some "4"%string)) []).
Proof.
  unfold open, mseq at 1, mlift. cbn [ensure]. unfold mseq at 1. cbn [fault rd_faults]. unfold mseq at 1, file_version. cbn. rewrite Hv. reflexivity.
Qed.

End facts.
End RedbWalletFacts.
