(* ===== verification/SqlWallet.v ===== *)
(** * The wallet's SQL store (crates/cdk-sql-common/src/wallet/mod.rs)

    [SQLWalletDatabase] on SQLite: the tables of its migrations as finite maps,
    with their constraints (primary keys, [NOT NULL] amounts, the [CHECK] on the
    state of a melt quote, the unique [keyset_u32], the foreign key from keysets
    to mints that cascades on deletion), and one definition per method of the
    trait [WalletDatabase].  A statement is atomic; [in_tx] is a transaction,
    and a method that makes several statements without one can stop between
    them.  [sq_faults] decides which of the calls to the pool and the database
    fail.

    Numbers are stored as [i64]: an amount above [i64::MAX] becomes negative and
    can not be read back.  Values stored as text or JSON are read back as
    themselves; mint quotes are kept as rows of cells, since their two readers
    select different columns. *)
From stdpp Require Import base numbers list sorting strings gmap fin_maps.
From S2P Require Import Prelude Amount Hex Nuts KeysetId Conditions States MintDb MintUrl WalletDb Token Posts WalletStore.
Import Nut00 KeysetId WalletDb.

Local Open Scope N_scope.
Local Open Scope res_scope.
Local Open Scope mint_scope.

Module SqlWallet.

(** nut06.rs: the information document of a mint; versions, contacts and the
    table of supported NUTs are kept abstract. *)
Record MintInfo {CR : Crypto} {Version Contact Nuts : Type} := mkMintInfo {
  mi_name : option string;
  mi_pubkey : option pubkey;
  mi_version : option Version;
  mi_desc : option string;
  mi_desc_long : option string;
  mi_contact : option (list Contact);
  mi_nuts : Nuts;
  mi_icon_url : option string;
  mi_urls : option (list string);
  mi_motd : option string;
  mi_unix_time : option N;
  mi_tos_url : option string;
}.
Arguments MintInfo {CR} Version Contact Nuts.

(** [serde_json] on the column of the mint's key. *)
Class KeyJson (CR : Crypto) := { key_from_json : string -> option pubkey }.
(** The bytes of a key, the first of which is 2 or 3, are no JSON text. *)
Class KeyJsonLaws (CR : Crypto) (KJ : KeyJson CR) : Prop := { key_bytes_not_json k : key_from_json (Nut01.to_bytes k) = None }.

Section defs.
Context {CR : Crypto} {KJ : KeyJson CR} {Version Contact Nuts : Type} (Nuts_default : Nuts).
Abbreviation Info := (MintInfo Version Contact Nuts).

Inductive SqlError := Database | Conversion | MissingColumn (required found : nat) | BadKeysetId (e : KeysetId.Error).

(** ** Tables *)

Record MintRow := mkMintRow {
  mw_name : option string;
  mw_pubkey : option string;
  mw_version : option Version;
  mw_desc : option string;
  mw_desc_long : option string;
  mw_contact : option (list Contact);
  mw_nuts : option Nuts;
  mw_icon_url : option string;
  mw_urls : option (list string);
  mw_motd : option string;
  mw_time : option Z;
  mw_tos_url : option string;
}.

Record KeysetRow := mkKeysetRow {
  kw_mint_url : MintUrl;
  kw_unit : Amount.CurrencyUnit;
  kw_active : bool;
  kw_counter : Z;
  kw_input_fee_ppk : Z;
  kw_final_expiry : option Z;
  kw_u32 : N;
}.

Record KeyRow := mkKeyRow { yw_keys : Keys; yw_u32 : N }.

(** A cell of a mint quote. *)
Inductive Cell :=
| CNull
| CInt (z : Z)
| CText (s : string)
| CUrl (u : MintUrl)
| CUnit (u : Amount.CurrencyUnit)
| CState (st : MintTypes.MintQuoteState)
| CKey (k : seckey)
| CMethod (m : MintTypes.PaymentMethod).

Record QuoteRow := mkQuoteRow {
  qw_id : Cell;
  qw_mint_url : Cell;
  qw_amount : Cell;
  qw_unit : Cell;
  qw_request : Cell;
  qw_state : Cell;
  qw_expiry : Cell;
  qw_secret_key : Cell;
  qw_payment_method : Cell;
  qw_amount_issued : Cell;
  qw_amount_paid : Cell;
}.

Record MeltRow := mkMeltRow {
  ew_unit : Amount.CurrencyUnit;
  ew_amount : Z;
  ew_request : string;
  ew_fee_reserve : Z;
  ew_state : StateRules.MeltQuoteState;
  ew_expiry : Z;
  ew_payment_preimage : option string;
  ew_payment_method : MintTypes.PaymentMethod;
}.

Record ProofRow := mkProofRow {
  pw_mint_url : MintUrl;
  pw_state : Nut07.State;
  pw_spending_condition : option Nut11.SpendingConditions;
  pw_unit : Amount.CurrencyUnit;
  pw_amount : Z;
  pw_keyset_id : Id;
  pw_secret : string;
  pw_c : pubkey;
  pw_witness : option Witness;
  pw_dleq : option ProofDleq;
}.

Record TransactionRow := mkTransactionRow {
  tw_mint_url : MintUrl;
  tw_direction : TransactionDirection;
  tw_unit : Amount.CurrencyUnit;
  tw_amount : Z;
  tw_fee : Z;
  tw_ys : list pubkey;
  tw_timestamp : Z;
  tw_memo : option string;
  tw_metadata : gmap string string;
  tw_quote_id : option string;
  tw_payment_request : option string;
  tw_payment_proof : option string;
}.

Record Tables := mkTables {
  tb_mint : gmap MintUrl MintRow;
  tb_keyset : gmap Id KeysetRow;
  tb_key : gmap Id KeyRow;
  tb_mint_quote : gmap string QuoteRow;
  tb_melt_quote : gmap string MeltRow;
  tb_proof : gmap pubkey ProofRow;
  tb_transactions : gmap string TransactionRow;
}.

Definition set_mint (t : Tables) m := mkTables m (tb_keyset t) (tb_key t) (tb_mint_quote t) (tb_melt_quote t) (tb_proof t) (tb_transactions t).
Definition set_keyset (t : Tables) m := mkTables (tb_mint t) m (tb_key t) (tb_mint_quote t) (tb_melt_quote t) (tb_proof t) (tb_transactions t).
Definition set_key (t : Tables) m := mkTables (tb_mint t) (tb_keyset t) m (tb_mint_quote t) (tb_melt_quote t) (tb_proof t) (tb_transactions t).
Definition set_mint_quote (t : Tables) m := mkTables (tb_mint t) (tb_keyset t) (tb_key t) m (tb_melt_quote t) (tb_proof t) (tb_transactions t).
Definition set_melt_quote (t : Tables) m := mkTables (tb_mint t) (tb_keyset t) (tb_key t) (tb_mint_quote t) m (tb_proof t) (tb_transactions t).
Definition set_proof (t : Tables) m := mkTables (tb_mint t) (tb_keyset t) (tb_key t) (tb_mint_quote t) (tb_melt_quote t) m (tb_transactions t).
Definition set_transactions (t : Tables) m := mkTables (tb_mint t) (tb_keyset t) (tb_key t) (tb_mint_quote t) (tb_melt_quote t) (tb_proof t) m.

(** ** Statements and transactions *)

Record Sql := mkSql { sq_tables : Tables; sq_faults : list bool }.
Definition Stmt (A : Type) : Type := M Tables SqlError A.
Definition Op (A : Type) : Type := M Sql SqlError A.

(** A call that can fail. *)
Definition fault : Op unit := fun s =>
  match sq_faults s with
  | [] => (Ok tt, s)
  | b :: l => ((if b then Err Database else Ok tt) : res SqlError unit, mkSql (sq_tables s) l)
  end.
Definition run {A} (c : Stmt A) : Op A := fun s =>
  match c (sq_tables s) with
  | (Ok a, t) => (Ok a, mkSql t (sq_faults s))
  | (r, _) => (r, s)
  end.
Definition exec {A} (c : Stmt A) : Op A := do_ fault ; run c.
(** [pool.get()], then one statement. *)
Definition on_conn {A} (c : Stmt A) : Op A := do_ fault ; exec c.
(** [ConnectionWithTransaction]: dropped without [commit], it rolls back. *)
Definition in_tx {A} (c : Op A) : Op A := fun s =>
  match (do_ fault ; do_ fault ; do a <- c ; do_ fault ; mret a) s with
  | (Ok a, s') => (Ok a, s')
  | (r, s') => (r, mkSql (sq_tables s) (sq_faults s'))
  end.
Definition constraint (b : bool) : Stmt unit := mlift (ensure b Database).

(** Numbers. *)
Definition as_i64 (n : N) : Z := MintDb.u64_as_i64 n.
Definition number (z : Z) : res SqlError N := if (0 <=? z)%Z then Ok (Z.to_N z) else Err Conversion.
Definition number_u32 (z : Z) : res SqlError N := if (0 <=? z)%Z && (z <? 2 ^ 32)%Z then Ok (Z.to_N z) else Err Conversion.
Definition nullable_number (o : option Z) : res SqlError (option N) :=
  match o with Some z => let? n := number z in Ok (Some n) | None => Ok None end.
(** [u32::from(id)]. *)
Definition id_u32 (id : Id) : res SqlError N := match key_of id with Some k => Ok (id_to_u32 k) | None => Panic end.

(** ** Mints *)

Definition mint_row (info : option Info) : MintRow :=
  match info with
  | Some i => mkMintRow (mi_name i) (Nut01.to_bytes <$> mi_pubkey i) (mi_version i) (mi_desc i) (mi_desc_long i) (mi_contact i)
      (Some (mi_nuts i)) (mi_icon_url i) (mi_urls i) (mi_motd i) (as_i64 <$> mi_unix_time i) (mi_tos_url i)
  | None => mkMintRow None None None None None None None None None None None None
  end.

(** The key is written as bytes and read as JSON. *)
Definition sql_row_to_mint_info (r : MintRow) : res SqlError Info :=
  let? time := nullable_number (mw_time r) in
  Ok (mkMintInfo _ _ _ _ (mw_name r) (mw_pubkey r ≫= key_from_json) (mw_version r) (mw_desc r) (mw_desc_long r) (mw_contact r)
    (default Nuts_default (mw_nuts r)) (mw_icon_url r) (mw_urls r) (mw_motd r) time (mw_tos_url r)).

Definition add_mint (mint_url : MintUrl) (mint_info : option Info) : Op unit :=
  on_conn (mmodify (fun t => set_mint t (<[mint_url := mint_row mint_info]> (tb_mint t)))).

(** The keysets of the mint are deleted with it. *)
Definition remove_mint (mint_url : MintUrl) : Op unit :=
  on_conn (mmodify (fun t => set_keyset (set_mint t (delete mint_url (tb_mint t)))
    (filter (fun kv => kw_mint_url kv.2 <> mint_url) (tb_keyset t)))).

Definition transpose {A} (o : option (res SqlError A)) : res SqlError (option A) :=
  match o with None => Ok None | Some r => let? a := r in Ok (Some a) end.

Definition get_mint (mint_url : MintUrl) : Op (option Info) :=
  do row <- on_conn (mgets (fun t => tb_mint t !! mint_url)) ;
  mlift (transpose (sql_row_to_mint_info <$> row)).

Definition get_mints : Op (gmap MintUrl (option Info)) :=
  do rows <- on_conn (mgets tb_mint) ;
  mret ((fun r => match sql_row_to_mint_info r with Ok i => Some i | _ => None end) <$> rows).

(** Two statements; mints, keysets and transactions keep the old URL. *)
Definition quote_of_url (old_mint_url new_mint_url : MintUrl) (r : QuoteRow) : QuoteRow :=
  match qw_mint_url r with
  | CUrl u => if decide (u = old_mint_url)
              then mkQuoteRow (qw_id r) (CUrl new_mint_url) (qw_amount r) (qw_unit r) (qw_request r) (qw_state r) (qw_expiry r)
                     (qw_secret_key r) (qw_payment_method r) (qw_amount_issued r) (qw_amount_paid r)
              else r
  | _ => r
  end.
Definition set_pw_url (r : ProofRow) (u : MintUrl) : ProofRow :=
  mkProofRow u (pw_state r) (pw_spending_condition r) (pw_unit r) (pw_amount r) (pw_keyset_id r) (pw_secret r) (pw_c r)
    (pw_witness r) (pw_dleq r).
Definition update_mint_url (old_mint_url new_mint_url : MintUrl) : Op unit :=
  do_ fault ;
  do_ exec (mmodify (fun t => set_mint_quote t (quote_of_url old_mint_url new_mint_url <$> tb_mint_quote t))) ;
  exec (mmodify (fun t => set_proof t
    ((fun r => if decide (pw_mint_url r = old_mint_url) then set_pw_url r new_mint_url else r) <$> tb_proof t))).

(** ** Keysets *)

Definition set_kw (r : KeysetRow) (active : bool) (fee : Z) : KeysetRow :=
  mkKeysetRow (kw_mint_url r) (kw_unit r) active (kw_counter r) fee (kw_final_expiry r) (kw_u32 r).
Definition set_kw_counter (r : KeysetRow) (c : Z) : KeysetRow :=
  mkKeysetRow (kw_mint_url r) (kw_unit r) (kw_active r) c (kw_input_fee_ppk r) (kw_final_expiry r) (kw_u32 r).

Definition u32_free (m : gmap Id KeysetRow) (n : N) : bool := bool_decide (map_Forall (fun _ r => kw_u32 r <> n) m).

(** One [INSERT .. ON CONFLICT(id)]: a keyset that is known keeps its mint, unit,
    expiry and counter. *)
Definition insert_keyset (mint_url : MintUrl) (keyset : KeySetInfo) : Stmt unit :=
  do n <- mlift (id_u32 (ki_id keyset)) ;
  do row <- mgets (fun t => tb_keyset t !! ki_id keyset) ;
  match row with
  | Some r => mmodify (fun t => set_keyset t
      (<[ki_id keyset := set_kw r (ki_active keyset) (as_i64 (ki_input_fee_ppk keyset))]> (tb_keyset t)))
  | None =>
      do ok <- mgets (fun t => u32_free (tb_keyset t) n && bool_decide (is_Some (tb_mint t !! mint_url))) ;
      do_ constraint ok ;
      mmodify (fun t => set_keyset t (<[ki_id keyset := mkKeysetRow mint_url (ki_unit keyset) (ki_active keyset) 0
        (as_i64 (ki_input_fee_ppk keyset)) (as_i64 <$> ki_final_expiry keyset) n]> (tb_keyset t)))
  end.
Definition add_mint_keysets (mint_url : MintUrl) (keysets : list KeySetInfo) : Op unit :=
  do_ fault ; mfor (fun k => exec (insert_keyset mint_url k)) keysets.

Definition sql_row_to_keyset (id : Id) (r : KeysetRow) : res SqlError KeySetInfo :=
  let? fee := number (kw_input_fee_ppk r) in
  let? final_expiry := nullable_number (kw_final_expiry r) in
  Ok (mkKeySetInfo id (kw_unit r) (kw_active r) fee final_expiry).

Definition get_mint_keysets (mint_url : MintUrl) : Op (option (list KeySetInfo)) :=
  do rows <- on_conn (mgets (fun t => map_to_list (filter (fun kv => kw_mint_url kv.2 = mint_url) (tb_keyset t)))) ;
  do keysets <- mlift (collect (fun kv => sql_row_to_keyset kv.1 kv.2) rows) ;
  mret (match keysets with [] => None | _ => Some keysets end).

Definition get_keyset_by_id (keyset_id : Id) : Op (option KeySetInfo) :=
  do row <- on_conn (mgets (fun t => tb_keyset t !! keyset_id)) ;
  mlift (transpose (sql_row_to_keyset keyset_id <$> row)).

(** The row is locked; a keyset without a row counts from zero and is not
    written. *)
Definition increment_keyset_counter (keyset_id : Id) (count : N) : Op N :=
  in_tx (do row <- exec (mgets (fun t => tb_keyset t !! keyset_id)) ;
         do current <- mlift (match row with Some r => number_u32 (kw_counter r) | None => Ok 0 end) ;
         let new_counter := (current + count) mod 2 ^ 32 in
         do_ exec (mmodify (fun t => set_keyset t
           (alter (fun r => set_kw_counter r (Z.of_N new_counter)) keyset_id (tb_keyset t)))) ;
         mret new_counter).

(** ** Keys *)

Definition add_keys (keyset : KeySet) : Op unit :=
  do_ fault ;
  do_ mlift (map_err BadKeysetId (verify_id keyset)) ;
  exec (do ok <- mgets (fun t => bool_decide (tb_key t !! id_to_string (kset_id keyset) = None) &&
                   bool_decide (map_Forall (fun _ r => yw_u32 r <> id_to_u32 (kset_id keyset)) (tb_key t))) ;
        do_ constraint ok ;
        mmodify (fun t => set_key t
          (<[id_to_string (kset_id keyset) := mkKeyRow (kset_keys keyset) (id_to_u32 (kset_id keyset))]> (tb_key t)))).
Definition get_keys (keyset_id : Id) : Op (option Keys) :=
  on_conn (mgets (fun t => yw_keys <$> tb_key t !! keyset_id)).
Definition remove_keys (id : Id) : Op unit := on_conn (mmodify (fun t => set_key t (delete id (tb_key t)))).

(** ** Quotes *)

Definition int_or_null (o : option N) : Cell := match o with Some n => CInt (Z.of_N n) | None => CNull end.
Definition quote_row (q : WMintQuote) : QuoteRow :=
  mkQuoteRow (CText (wq_id q)) (CUrl (wq_mint_url q)) (int_or_null (wq_amount q ≫= Amount.to_i64)) (CUnit (wq_unit q))
    (CText (wq_request q)) (CState (wq_state q)) (CInt (as_i64 (wq_expiry q)))
    (match wq_secret_key q with Some k => CKey k | None => CNull end) (CMethod (wq_payment_method q))
    (int_or_null (Amount.to_i64 (wq_amount_issued q))) (int_or_null (Amount.to_i64 (wq_amount_paid q))).
Definition not_null (c : Cell) : bool := match c with CNull => false | _ => true end.

Definition add_mint_quote (quote : WMintQuote) : Op unit :=
  on_conn (let r := quote_row quote in
           do_ constraint (not_null (qw_amount_issued r) && not_null (qw_amount_paid r)) ;
           mmodify (fun t => set_mint_quote t (<[wq_id quote := r]> (tb_mint_quote t)))).

(** The columns in the order of [get_mint_quote], and in that of
    [get_mint_quotes]: a comma is missing there, and [secret_key payment_method]
    is the secret key under another name. *)
Definition quote_columns (r : QuoteRow) : list Cell :=
  [qw_id r; qw_mint_url r; qw_amount r; qw_unit r; qw_request r; qw_state r; qw_expiry r; qw_secret_key r;
   qw_payment_method r; qw_amount_issued r; qw_amount_paid r].
Definition quotes_columns (r : QuoteRow) : list Cell :=
  [qw_id r; qw_mint_url r; qw_amount r; qw_unit r; qw_request r; qw_state r; qw_expiry r; qw_secret_key r;
   qw_amount_issued r; qw_amount_paid r].

Definition cell_number (c : Cell) : res SqlError N := match c with CInt z => number z | _ => Err Conversion end.
Definition cell_nullable (c : Cell) : res SqlError (option Z) :=
  match c with CInt z => Ok (Some z) | CNull => Ok None | _ => Err Conversion end.
Definition sql_row_to_mint_quote (row : list Cell) : res SqlError WMintQuote :=
  match row with
  | id :: mint_url :: amount :: unit :: request :: state :: expiry :: secret_key :: row_method :: row_amount_minted ::
    row_amount_paid :: _ =>
      let? amount := cell_nullable amount in
      let? amount_paid := cell_number row_amount_paid in
      let? amount_minted := cell_number row_amount_minted in
      let? expiry := cell_number expiry in
      match row_method, id, mint_url, unit, request, state, secret_key with
      | CMethod m, CText id, CUrl url, CUnit u, CText req, CState st, CKey k =>
          Ok (mkWMintQuote id url m (amount ≫= Amount.from_i64) u req st expiry (Some k) amount_minted amount_paid)
      | CMethod m, CText id, CUrl url, CUnit u, CText req, CState st, CNull =>
          Ok (mkWMintQuote id url m (amount ≫= Amount.from_i64) u req st expiry None amount_minted amount_paid)
      | _, _, _, _, _, _, _ => Err Conversion
      end
  | _ => Err (MissingColumn 11 (length row))
  end.

Definition get_mint_quote (quote_id : string) : Op (option WMintQuote) :=
  do row <- on_conn (mgets (fun t => tb_mint_quote t !! quote_id)) ;
  mlift (transpose ((fun r => sql_row_to_mint_quote (quote_columns r)) <$> row)).
Definition get_mint_quotes : Op (list WMintQuote) :=
  do rows <- on_conn (mgets (fun t => (map_to_list (tb_mint_quote t)).*2)) ;
  mlift (collect (fun r => sql_row_to_mint_quote (quotes_columns r)) rows).
Definition remove_mint_quote (quote_id : string) : Op unit :=
  on_conn (mmodify (fun t => set_mint_quote t (delete quote_id (tb_mint_quote t)))).

(** The preimage is not written. *)
Definition melt_row (preimage : option string) (q : WMeltQuote) : MeltRow :=
  mkMeltRow (wm_unit q) (as_i64 (wm_amount q)) (wm_request q) (as_i64 (wm_fee_reserve q)) (wm_state q) (as_i64 (wm_expiry q))
    preimage (wm_payment_method q).
Definition add_melt_quote (quote : WMeltQuote) : Op unit :=
  on_conn (do_ constraint (MintDb.storable_state (wm_state quote)) ;
           mmodify (fun t => set_melt_quote t
             (<[wm_id quote := melt_row (tb_melt_quote t !! wm_id quote ≫= ew_payment_preimage) quote]> (tb_melt_quote t)))).

Definition sql_row_to_melt_quote (id : string) (r : MeltRow) : res SqlError WMeltQuote :=
  let? amount := number (ew_amount r) in
  let? fee_reserve := number (ew_fee_reserve r) in
  let? expiry := number (ew_expiry r) in
  Ok (mkWMeltQuote id (ew_unit r) amount (ew_request r) fee_reserve (ew_state r) expiry (ew_payment_preimage r)
    (ew_payment_method r)).
Definition get_melt_quote (quote_id : string) : Op (option WMeltQuote) :=
  do row <- on_conn (mgets (fun t => tb_melt_quote t !! quote_id)) ;
  mlift (transpose (sql_row_to_melt_quote quote_id <$> row)).
Definition get_melt_quotes : Op (list WMeltQuote) :=
  do rows <- on_conn (mgets (fun t => map_to_list (tb_melt_quote t))) ;
  mlift (collect (fun kv => sql_row_to_melt_quote kv.1 kv.2) rows).
Definition remove_melt_quote (quote_id : string) : Op unit :=
  on_conn (mmodify (fun t => set_melt_quote t (delete quote_id (tb_melt_quote t)))).

(** ** Proofs *)

Definition proof_row (p : ProofInfo) : ProofRow :=
  let pr := pi_proof p in
  mkProofRow (pi_mint_url p) (pi_state p) (pi_spending_condition p) (pi_unit p) (as_i64 (amount pr)) (keyset_id pr) (secret pr)
    (c pr) (witness pr) (dleq pr).
Definition sql_row_to_proof_info (y : pubkey) (r : ProofRow) : res SqlError ProofInfo :=
  let? a := number (pw_amount r) in
  Ok (mkProofInfo (mkProof a (pw_keyset_id r) (pw_secret r) (pw_c r) (pw_witness r) (pw_dleq r)) y (pw_mint_url r) (pw_state r)
    (pw_spending_condition r) (pw_unit r)).

(** The new proofs are written first, the removed ones deleted after. *)
Definition update_proofs (added : list ProofInfo) (removed_ys : list pubkey) : Op unit :=
  in_tx (do_ mfor (fun p => exec (mmodify (fun t => set_proof t (<[pi_y p := proof_row p]> (tb_proof t))))) added ;
         exec (mmodify (fun t => set_proof t (filter (fun kv => kv.1 ∉ removed_ys) (tb_proof t))))).

(** The rows that can be read. *)
Definition readable (m : gmap pubkey ProofRow) : list ProofInfo :=
  omap (fun kv => match sql_row_to_proof_info kv.1 kv.2 with Ok i => Some i | _ => None end) (map_to_list m).
Definition get_proofs (mint_url : option MintUrl) (unit : option Amount.CurrencyUnit) (state : option (list Nut07.State))
    (spending_conditions : option (list Nut11.SpendingConditions)) : Op (list ProofInfo) :=
  do rows <- on_conn (mgets tb_proof) ;
  mret (filter (fun p => matches_conditions p mint_url unit state spending_conditions = true) (readable rows)).

(** [SELECT COALESCE(SUM(amount), 0)]: a sum that is no [i64] is an error.  No
    states and an empty list of states are the same here. *)
Definition sumZ (l : list Z) : Z := foldr Z.add 0%Z l.
Definition i64_range (z : Z) : bool := (- 2 ^ 63 <=? z)%Z && (z <? 2 ^ 63)%Z.
Definition counts_for (mint_url : option MintUrl) (unit : option Amount.CurrencyUnit) (states : option (list Nut07.State)) (r : ProofRow)
    : bool :=
  matches (fun u => bool_decide (u = pw_mint_url r)) mint_url && matches (fun u => bool_decide (u = pw_unit r)) unit &&
  match default [] states with [] => true | l => bool_decide (pw_state r ∈ l) end.
Definition get_balance (mint_url : option MintUrl) (unit : option Amount.CurrencyUnit) (states : option (list Nut07.State)) : Op N :=
  on_conn (do sum <- mgets (fun t => sumZ (pw_amount <$> filter (fun r => counts_for mint_url unit states r = true)
                              (map_to_list (tb_proof t)).*2)) ;
           do_ constraint (i64_range sum) ;
           mret (Z.to_N (sum mod 2 ^ 64))).

Definition set_pw_state (r : ProofRow) (st : Nut07.State) : ProofRow :=
  mkProofRow (pw_mint_url r) st (pw_spending_condition r) (pw_unit r) (pw_amount r) (pw_keyset_id r) (pw_secret r) (pw_c r)
    (pw_witness r) (pw_dleq r).
Definition update_proofs_state (ys : list pubkey) (state : Nut07.State) : Op unit :=
  on_conn (mmodify (fun t => set_proof t
    (map_imap (fun y r => Some (if bool_decide (y ∈ ys) then set_pw_state r state else r)) (tb_proof t)))).

(** ** Transactions *)

Definition transaction_row (ys : list pubkey) (x : Transaction) : TransactionRow :=
  mkTransactionRow (tr_mint_url x) (tr_direction x) (tr_unit x) (as_i64 (tr_amount x)) (as_i64 (tr_fee x)) ys
    (as_i64 (tr_timestamp x)) (tr_memo x) (tr_metadata x) (tr_quote_id x) (tr_payment_request x) (tr_payment_proof x).
(** A transaction that is known keeps its keys. *)
Definition add_transaction (x : Transaction) : Op unit :=
  let id := digest_bytes (transaction_id (tr_ys x)) in
  on_conn (mmodify (fun t => set_transactions t
    (<[id := transaction_row (default (tr_ys x) (tw_ys <$> tb_transactions t !! id)) x]> (tb_transactions t)))).

Definition sql_row_to_transaction (r : TransactionRow) : res SqlError Transaction :=
  let? amount := number (tw_amount r) in
  let? fee := number (tw_fee r) in
  let? timestamp := number (tw_timestamp r) in
  Ok (mkTransaction (tw_mint_url r) (tw_direction r) amount fee (tw_unit r) (tw_ys r) timestamp (tw_memo r) (tw_metadata r)
    (tw_quote_id r) (tw_payment_request r) (tw_payment_proof r)).
Definition get_transaction (id : digest) : Op (option Transaction) :=
  do row <- on_conn (mgets (fun t => tb_transactions t !! digest_bytes id)) ;
  mlift (transpose (sql_row_to_transaction <$> row)).
Definition list_transactions (mint_url : option MintUrl) (direction : option TransactionDirection) (unit : option Amount.CurrencyUnit)
    : Op (list Transaction) :=
  do rows <- on_conn (mgets (fun t => (map_to_list (tb_transactions t)).*2)) ;
  mret (filter (fun x => transaction_matches x mint_url direction unit = true)
    (omap (fun r => match sql_row_to_transaction r with Ok x => Some x | _ => None end) rows)).
Definition remove_transaction (id : digest) : Op unit :=
  on_conn (mmodify (fun t => set_transactions t (delete (digest_bytes id) (tb_transactions t)))).

End defs.
End SqlWallet.
