(* ===== verification/SqlWalletFacts.v ===== *)
(** * Properties of the wallet's SQL store

    The store implements the interface of the wallet; a mint quote is read back
    as it was written, the list of mint quotes is not. *)
From stdpp Require Import base numbers list sorting strings gmap fin_maps.
From S2P Require Import Prelude Amount Hex Nuts KeysetId Conditions States MintDb MintFacts MintUrl WalletDb Token Posts WalletStore BrowserStore SqlWallet RedbWallet RedbWalletFacts.
Import Nut00 KeysetId WalletDb WalletStore MintFacts SqlWallet.

Local Open Scope N_scope.
Local Open Scope res_scope.
Local Open Scope mint_scope.

Module SqlWalletFacts.
Section facts.
Context {CR : Crypto} {KJ : KeyJson CR} {Version Contact Nuts : Type} (Nuts_default : Nuts).
Abbreviation Info := (MintInfo Version Contact Nuts).
Abbreviation Sql := (Sql (Version:=Version) (Contact:=Contact) (Nuts:=Nuts)).
Abbreviation Tables := (Tables (Version:=Version) (Contact:=Contact) (Nuts:=Nuts)).
Abbreviation Op A := (M Sql SqlError A).
Abbreviation Stmt A := (M Tables SqlError A).

Definition sql_store : WalletStore CR Info Sql SqlError := {|
  st_add_mint := add_mint;
  st_remove_mint := remove_mint;
  st_get_mint := get_mint Nuts_default;
  st_get_mints := get_mints Nuts_default;
  st_update_mint_url := update_mint_url;
  st_add_mint_keysets := add_mint_keysets;
  st_get_mint_keysets := get_mint_keysets;
  st_get_keyset_by_id := get_keyset_by_id;
  st_add_mint_quote := add_mint_quote;
  st_get_mint_quote := get_mint_quote;
  st_get_mint_quotes := get_mint_quotes;
  st_remove_mint_quote := remove_mint_quote;
  st_add_melt_quote := add_melt_quote;
  st_get_melt_quote := get_melt_quote;
  st_get_melt_quotes := get_melt_quotes;
  st_remove_melt_quote := remove_melt_quote;
  st_add_keys := add_keys;
  st_get_keys := get_keys;
  st_remove_keys := remove_keys;
  st_update_proofs := update_proofs;
  st_get_proofs := get_proofs;
  st_get_balance := get_balance;
  st_update_proofs_state := update_proofs_state;
  st_increment_keyset_counter := increment_keyset_counter;
  st_add_transaction := add_transaction;
  st_get_transaction := get_transaction;
  st_list_transactions := list_transactions;
  st_remove_transaction := remove_transaction;
|}.

(** The counter of a keyset, zero without a row. *)
Definition counter_in (t : Tables) (id : Id) : N := default 0 (Z.to_N ∘ kw_counter <$> tb_keyset t !! id).

#[local] Instance sql_view : WalletView CR Sql := {
  proofs_of s := readable (tb_proof (sq_tables s));
  counter_of s id := counter_in (sq_tables s) id;
  counted s id := is_Some (tb_keyset (sq_tables s) !! id);
}.

(** ** Frames *)

Definition quiet_t : relation Tables := fun t t' => tb_proof t' = tb_proof t /\ (forall id, counter_in t' id = counter_in t id) /\
  (forall id, is_Some (tb_keyset t !! id) -> is_Some (tb_keyset t' !! id)).
#[local] Instance quiet_t_preorder : PreOrder quiet_t.
Proof. split; [by intros t|]. intros t1 t2 t3 (H1 & H2 & H3) (H4 & H5 & H6). split_and!; [congruence|intros id; by rewrite H5|auto]. Qed.

Lemma fault_same s : sq_tables (snd ((fault : Op _) s)) = sq_tables s.
Proof. unfold fault. by destruct (sq_faults s) as [|[] ?]. Qed.
Lemma fault_keeps (R : relation Sql) : (forall s l, R s (mkSql (sq_tables s) l)) -> keeps R (fault : Op _).
Proof. intros H s. unfold fault. destruct s as [t [|b l]]; cbn; [apply (H (mkSql t []))|apply (H (mkSql t (b :: l)))]. Qed.
Lemma fault_quiet : keeps quiet (fault : Op _).
Proof. apply fault_keeps. intros s l. by split. Qed.

Lemma run_quiet {A} (c : Stmt A) : keeps quiet_t c -> keeps quiet (run c : Op A).
Proof.
  intros H s. specialize (H (sq_tables s)). unfold run. destruct (c (sq_tables s)) as [[a| |] t]; cbn in *; [|done..].
  destruct H as (H1 & H2 & H3). unfold quiet, counts_kept. cbn. by rewrite H1.
Qed.
#[local] Hint Resolve fault_quiet run_quiet : keeps.
Lemma exec_quiet {A} (c : Stmt A) : keeps quiet_t c -> keeps quiet (exec c : Op A).
Proof. intros H. unfold exec. keep. Qed.
Lemma on_conn_quiet {A} (c : Stmt A) : keeps quiet_t c -> keeps quiet (on_conn c : Op A).
Proof. intros H. unfold on_conn, exec. keep. Qed.
#[local] Hint Resolve exec_quiet on_conn_quiet : keeps.
Lemma modify_quiet (f : Tables -> Tables) : (forall t, quiet_t t (f t)) -> keeps quiet_t (mmodify f : Stmt _).
Proof. intros H t. apply H. Qed.
#[local] Hint Extern 1 (keeps quiet_t (mmodify _)) => (apply modify_quiet; intros ?; split; [done|by split]) : keeps.
Lemma constraint_quiet b : keeps quiet_t (constraint b : Stmt _).
Proof. unfold constraint. keep. Qed.
#[local] Hint Resolve constraint_quiet : keeps.

Lemma insert_keyset_quiet u k : keeps quiet_t (insert_keyset u k : Stmt _).
Proof.
  intros t. unfold insert_keyset, mseq, mlift, mgets. destruct (id_u32 (ki_id k)) as [n| |]; [|done..].
  destruct (tb_keyset t !! ki_id k) as [r|] eqn:Hr; [|destruct (_ && _); [|done]]; cbn; unfold quiet_t, counter_in; cbn.
  all: split_and!; [done| |]; intros id; (destruct (decide (ki_id k = id)) as [<-|Hne]; [rewrite lookup_insert_eq|rewrite lookup_insert_ne by done; done]).
  - by rewrite Hr.
  - by eexists.
  - by rewrite Hr.
  - by eexists.
Qed.
#[local] Hint Resolve insert_keyset_quiet : keeps.

(** Counters only. *)
Lemma fault_counts : keeps counts_kept (fault : Op _).
Proof. apply fault_keeps. intros s l. by split. Qed.

(** A transaction keeps what its body keeps, or does nothing. *)
Lemma in_tx_run {A} (c : Op A) s r s' : in_tx c s = (r, s') ->
  (exists a s1 s2, r = Ok a /\ sq_tables s1 = sq_tables s /\ c s1 = (Ok a, s2) /\ sq_tables s' = sq_tables s2) \/
  ((forall a, r <> Ok a) /\ sq_tables s' = sq_tables s).
Proof.
  unfold in_tx. destruct ((do_ fault; do_ fault; do a <- c; do_ fault; mret a) s) as [[a| |] s1] eqn:H; intros [= <- <-]; [|by right..].
  left. apply mseq_Ok in H as ([] & s2 & H2 & H). apply mseq_Ok in H as ([] & s3 & H3 & H).
  apply mseq_Ok in H as (a' & s4 & H4 & H). apply mseq_Ok in H as ([] & s5 & H5 & [= <- <-]).
  exists a', s3, s4. pose proof (fault_same s) as F1. pose proof (fault_same s2) as F2. pose proof (fault_same s4) as F3.
  rewrite H2 in F1. rewrite H3 in F2. rewrite H5 in F3. cbn in *. by rewrite F2, F1.
Qed.

Lemma exec_run {A} (c : Stmt A) s a s' : exec c s = (Ok a, s') -> c (sq_tables s) = (Ok a, sq_tables s').
Proof.
  unfold exec. intros ([] & s1 & H1 & H)%mseq_Ok. pose proof (fault_same s) as F. rewrite H1 in F. cbn in F.
  unfold run in H. rewrite <- F. destruct (c (sq_tables s1)) as [[x| |] t]; [|done..]. by injection H as <- <-.
Qed.
Lemma on_conn_run {A} (c : Stmt A) s a s' : on_conn c s = (Ok a, s') -> c (sq_tables s) = (Ok a, sq_tables s').
Proof.
  unfold on_conn. intros ([] & s1 & H1 & H)%mseq_Ok. pose proof (fault_same s) as F. rewrite H1 in F. cbn in F.
  rewrite <- F. by apply exec_run.
Qed.

Lemma on_conn_same {A} (c : Stmt A) s r s' : on_conn c s = (r, s') -> (forall a, r <> Ok a) -> sq_tables s' = sq_tables s.
Proof.
  unfold on_conn, exec. intros H Hr. pose proof (fault_same s) as F1.
  apply seq_run in H as [([] & s1 & H1 & H)|[(e & H1 & ->)|[H1 ->]]]; rewrite H1 in F1; cbn in F1; [|done..].
  pose proof (fault_same s1) as F2.
  apply seq_run in H as [([] & s2 & H2 & H)|[(e & H2 & ->)|[H2 ->]]]; rewrite H2 in F2; cbn in F2; [|congruence..].
  unfold run in H. destruct (c (sq_tables s2)) as [[x| |] t]; injection H as <- <-; [by destruct (Hr x)|congruence..].
Qed.

(** ** Proofs *)

Lemma readable_elem m i : i ∈ readable m <-> exists r, m !! pi_y i = Some r /\ sql_row_to_proof_info (pi_y i) r = Ok i.
Proof.
  unfold readable. rewrite list_elem_of_omap. split.
  - intros ([k r] & Hin%elem_of_map_to_list & H). cbn in H. destruct (sql_row_to_proof_info k r) as [i'| |] eqn:E; [|done..].
    injection H as ->. assert (pi_y i = k) as ->; [|eauto]. unfold sql_row_to_proof_info in E. destruct (number _); [|done..]. by injection E as <-.
  - intros (r & Hr & E). exists (pi_y i, r). split; [by apply elem_of_map_to_list|]. cbn. by rewrite E.
Qed.

Lemma readable_NoDup m : NoDup (pi_y <$> readable m).
Proof.
  unfold readable. pose proof (NoDup_fst_map_to_list m) as H. induction (map_to_list m) as [|[k r] l IH]; [constructor|].
  rewrite fmap_cons, NoDup_cons in H. destruct H as [Hn H]. cbn [omap list_omap]. specialize (IH H). cbn [fst snd] in *.
  destruct (sql_row_to_proof_info k r) as [i| |] eqn:E; [|done..].
  assert (pi_y i = k) as Hk by (unfold sql_row_to_proof_info in E; destruct (number _); [|done..]; by injection E as <-).
  rewrite fmap_cons, NoDup_cons. split; [|done]. rewrite Hk. intros (j & Hj & Hin)%list_elem_of_fmap. apply Hn.
  apply list_elem_of_omap in Hin as ([k' r'] & Hin & E'). cbn in E'. apply list_elem_of_fmap. exists (k', r'). split; [|done].
  destruct (sql_row_to_proof_info k' r') as [j'| |] eqn:E2; [|done..]. injection E' as ->. unfold sql_row_to_proof_info in E2.
  destruct (number _); [|done..]. injection E2 as <-. done.
Qed.

Lemma row_roundtrip i : amount (pi_proof i) <= I64_MAX -> sql_row_to_proof_info (pi_y i) (proof_row i) = Ok i.
Proof.
  intros H. unfold sql_row_to_proof_info, proof_row, as_i64, MintDb.u64_as_i64, number. cbn.
  rewrite (proj2 (N.leb_le _ _) H). destruct (Z.leb_spec 0 (Z.of_N (amount (pi_proof i)))); [|lia]. rewrite N2Z.id. by destruct i as [[]].
Qed.

Lemma insert_proofs_run added s a s' :
  (mfor (fun p => exec (mmodify (fun t => set_proof t (<[pi_y p := proof_row p]> (tb_proof t))))) added : Op _) s = (Ok a, s') ->
  sq_tables s' = set_proof (sq_tables s) (fold_left (fun m p => <[pi_y p := proof_row p]> m) added (tb_proof (sq_tables s))).
Proof.
  revert s. induction added as [|p added IH]; intros s; cbn [mfor fold_left]; [intros [= _ <-]; by destruct (sq_tables s)|].
  intros ([] & s1 & H1 & H)%mseq_Ok. apply exec_run in H1. injection H1 as H1. apply IH in H. rewrite H, <- H1. done.
Qed.

Lemma update_proofs_run added removed (s s' : Sql) : fresh added removed (proofs_of s) ->
  update_proofs added removed s = (Ok tt, s') -> proofs_of s' ≡ₚ without removed (proofs_of s) ++ added.
Proof.
  intros [Hnd Hf] H. unfold update_proofs in H. apply in_tx_run in H as [([] & s1 & s2 & _ & H1 & H & H2)|[H _]]; [|by destruct (H tt)].
  apply mseq_Ok in H as ([] & s3 & H3%insert_proofs_run & H). apply exec_run in H. injection H as H. cbn.
  rewrite H2, <- H, H3, H1. cbn. set (m := tb_proof (sq_tables s)). apply perm_by_key.
  - apply readable_NoDup.
  - rewrite fmap_app. apply NoDup_app. split_and!; [|intros k Hk Hin|done].
    + apply NoDup_map_filter, readable_NoDup.
    + apply list_elem_of_fmap in Hin as (p & -> & Hp). destruct (Hf p Hp) as (_ & Hx & _). apply Hx. apply list_elem_of_fmap in Hk as (i & Hi & Hk).
      rewrite Hi. apply list_elem_of_fmap_2. by apply list_elem_of_filter in Hk as [_ ?].
  - intros i. rewrite elem_of_app. unfold without. rewrite list_elem_of_filter. cbn. fold m. rewrite !readable_elem. split.
    + intros (r & [Hr Hrm]%map_lookup_filter_Some & E). apply fold_insert_Some in Hr as [(p & Hp & Hy & <-)|[_ Hr]]; [|left; eauto|done].
      rewrite <- Hy, row_roundtrip in E by (by apply Hf). injection E as <-. by right.
    + intros [[Hrm (r & Hr & E)]|Hp].
      * exists r. split; [|done]. apply map_lookup_filter_Some. split; [|done]. apply fold_insert_Some; [done|]. right. split; [|done].
        intros (p & Hy & Hp)%list_elem_of_fmap. destruct (Hf p Hp) as (_ & Hx & _). apply Hx. rewrite <- Hy.
        apply list_elem_of_fmap_2. cbn. apply readable_elem. eauto.
      * destruct (Hf i Hp) as (Hrm & _ & Ha). exists (proof_row i). split; [|by apply row_roundtrip].
        apply map_lookup_filter_Some. split; [|done]. apply fold_insert_Some; [done|]. left. eauto.
Qed.

Lemma update_state_run ks st (s s' : Sql) : update_proofs_state ks st s = (Ok tt, s') ->
  proofs_of s' ≡ₚ (restate ks st <$> proofs_of s).
Proof.
  unfold update_proofs_state. intros H%on_conn_run. injection H as H. cbn. rewrite <- H. cbn. set (m := tb_proof (sq_tables s)).
  assert (Hy : forall i, pi_y (restate ks st i) = pi_y i) by (intros i; unfold restate; by case_bool_decide).
  apply perm_by_key; [apply readable_NoDup| |].
  { rewrite <- list_fmap_compose. rewrite (list_fmap_ext _ pi_y) by (intros _ i _; apply Hy). apply readable_NoDup. }
  intros i. rewrite list_elem_of_fmap, readable_elem. setoid_rewrite map_lookup_imap. split.
  - intros (r & Hr & E). destruct (m !! pi_y i) as [r0|] eqn:Hm; [|done]. cbn in Hr. injection Hr as <-.
    unfold sql_row_to_proof_info in E. destruct (number (pw_amount _)) as [a| |] eqn:Hn; [|done..]. injection E as E.
    exists (mkProofInfo (mkProof a (pw_keyset_id r0) (pw_secret r0) (pw_c r0) (pw_witness r0) (pw_dleq r0)) (pi_y i) (pw_mint_url r0)
      (pw_state r0) (pw_spending_condition r0) (pw_unit r0)).
    unfold restate. rewrite readable_elem. cbn [pi_y]. case_bool_decide; (split; [by symmetry|]); exists r0; (split; [done|]);
      unfold sql_row_to_proof_info; cbn in Hn; by rewrite Hn.
  - intros (j & -> & (r & Hr & E)%readable_elem). rewrite Hy, Hr. cbn. eexists. split; [done|].
    unfold sql_row_to_proof_info in *. destruct (number (pw_amount r)) as [a| |] eqn:Hn; [|done..]. injection E as <-. unfold restate. cbn.
    case_bool_decide; cbn; by rewrite Hn.
Qed.

Lemma get_proofs_run u c st sc (s s' : Sql) l : get_proofs u c st sc s = (Ok l, s') ->
  l = filter (fun p => matches_conditions p u c st sc = true) (proofs_of s).
Proof. unfold get_proofs. intros (rows & s1 & H1%on_conn_run & [= <- <-])%mseq_Ok. injection H1 as <- _. done. Qed.

(** ** Counters *)

Lemma sql_increment_run id n (s s' : Sql) r : increment_keyset_counter id n s = (r, s') ->
  tb_proof (sq_tables s') = tb_proof (sq_tables s) /\
  (forall id', id' <> id -> tb_keyset (sq_tables s') !! id' = tb_keyset (sq_tables s) !! id') /\
  (is_Some (tb_keyset (sq_tables s) !! id) -> is_Some (tb_keyset (sq_tables s') !! id)) /\
  forall c, r = Ok c -> is_Some (tb_keyset (sq_tables s) !! id) ->
    c = (counter_in (sq_tables s) id + n) mod 2 ^ 32 /\ counter_in (sq_tables s') id = c.
Proof.
  unfold increment_keyset_counter. intros H. apply in_tx_run in H as [(c & s1 & s2 & -> & H1 & H & H2)|[Hr ->]]; cycle 1.
  { split_and!; [done..|]. intros c ->. by destruct (Hr c). }
  apply mseq_Ok in H as (row & s3 & H3%exec_run & H). injection H3 as Hrow H3. apply mseq_Ok in H as (cur & s4 & [Hcur ->]%mlift_Ok & H).
  cbn zeta in H. apply mseq_Ok in H as ([] & s5 & H5%exec_run & [= <- <-]). injection H5 as H5.
  rewrite H1 in Hrow. rewrite H2, <- H5, <- H3, H1. cbn. unfold counter_in. cbn. split_and!; [done| | |].
  - intros id' Hne. by rewrite lookup_alter_ne.
  - intros [kr Hk]. rewrite lookup_alter_eq, Hk. by eexists.
  - intros c [= <-] [kr Hk]. rewrite lookup_alter_eq, Hk in *. subst row. cbn. unfold number_u32 in Hcur.
    destruct (_ && _); [|done]. injection Hcur as <-. by rewrite N2Z.id.
Qed.

Lemma add_keysets_counted u l (s s' : Sql) : add_mint_keysets u l s = (Ok tt, s') ->
  Forall (fun k => is_Some (tb_keyset (sq_tables s') !! ki_id k)) l.
Proof.
  unfold add_mint_keysets. intros ([] & s1 & _ & H)%mseq_Ok. revert s1 H. induction l as [|k l IH]; intros s1; cbn [mfor]; [constructor|].
  intros ([] & s2 & H2 & H)%mseq_Ok. constructor; [|by eapply IH].
  assert (Hk : is_Some (tb_keyset (sq_tables s2) !! ki_id k)).
  { apply exec_run in H2. revert H2. unfold insert_keyset, mseq, mlift, mgets. destruct (id_u32 (ki_id k)) as [n| |]; [|done..].
    destruct (tb_keyset (sq_tables s1) !! ki_id k) as [r|]; [|unfold constraint, mlift; destruct (ensure _ _); [|done..]].
    all: intros [= <-]; cbn; rewrite lookup_insert_eq; by eexists. }
  assert (Q : quiet s2 s'). { revert H. apply keeps_run. keep. }
  by apply Q.
Qed.

(** ** The interface *)

(** Removing a mint removes the rows of its keysets, with their counters. *)
Lemma sql_remove_mint u (s s' : Sql) r : remove_mint u s = (r, s') ->
  proofs_of s' = proofs_of s /\ forall id, counted s' id -> counted s id /\ counter_of s' id = counter_of s id.
Proof.
  unfold remove_mint. intros H. destruct r as [[]|e|].
  - apply on_conn_run in H. injection H as H. cbn. unfold counter_in. rewrite <- H. cbn. split; [done|]. intros id [row Hr].
    apply map_lookup_filter_Some in Hr as [Hr Hu]. rewrite Hr. split; [by eexists|]. by rewrite (map_lookup_filter_Some_2 _ _ _ row).
  - apply on_conn_same in H; [|done]. cbn. by rewrite H.
  - apply on_conn_same in H; [|done]. cbn. by rewrite H.
Qed.

(** A change of URL keeps what the rows are read as but for the URL. *)
Lemma readable_url u u' m :
  coin_of <$> readable ((fun r => if decide (pw_mint_url r = u) then set_pw_url r u' else r) <$> m) = coin_of <$> readable m.
Proof.
  unfold readable. rewrite map_to_list_fmap. induction (map_to_list m) as [|[k r] l IH]; [done|]. cbn.
  assert (Hr : forall r' : ProofRow, r' = (if decide (pw_mint_url r = u) then set_pw_url r u' else r) ->
    option_map coin_of (match sql_row_to_proof_info k r' with Ok i => Some i | _ => None end) =
    option_map coin_of (match sql_row_to_proof_info k r with Ok i => Some i | _ => None end)).
  { intros r' ->. unfold sql_row_to_proof_info. case_decide; cbn; by destruct (number (pw_amount r)). }
  specialize (Hr _ eq_refl). destruct (sql_row_to_proof_info k (if decide _ then _ else _)), (sql_row_to_proof_info k r); try done; cbn in *.
  injection Hr as H1 H2 H3. unfold coin_of at 1 3. by rewrite H1, H2, H3, IH.
Qed.
Lemma sql_update_url u u' : keeps moved (update_mint_url u u' : Op _).
Proof.
  unfold update_mint_url. apply (keeps_seq moved); [apply quiet_moved, fault_quiet|intros _]. apply (keeps_seq moved); [apply quiet_moved; keep|intros _].
  unfold exec. apply (keeps_seq moved); [apply quiet_moved, fault_quiet|intros _]. intros s. unfold moved, counts_kept. cbn. by rewrite readable_url.
Qed.

Lemma sql_laws : WalletStoreLaws CR Info Sql SqlError sql_store sql_view.
Proof.
  constructor; unfold st_add_mint, st_remove_mint, st_get_mint, st_get_mints, st_update_mint_url, st_remove_keys, st_add_mint_keysets, st_get_mint_keysets, st_get_keyset_by_id,
    st_add_mint_quote, st_get_mint_quote, st_get_mint_quotes, st_remove_mint_quote, st_add_melt_quote, st_get_melt_quote,
    st_get_melt_quotes, st_remove_melt_quote, st_add_keys, st_get_keys, st_get_proofs, st_get_balance, st_add_transaction,
    st_get_transaction, st_list_transactions, st_remove_transaction, st_update_proofs, st_update_proofs_state,
    st_increment_keyset_counter, sql_store.
  - intros. unfold add_mint. keep.
  - intros. unfold get_mint. keep.
  - unfold get_mints. keep.
  - intros. unfold add_mint_keysets. keep.
  - intros u l w w'. apply add_keysets_counted.
  - intros. unfold get_mint_keysets. keep.
  - intros. unfold get_keyset_by_id. keep.
  - intros. apply on_conn_quiet. keep.
  - intros. unfold get_mint_quote. keep.
  - intros. unfold get_mint_quotes. keep.
  - intros. unfold remove_mint_quote. keep.
  - intros. apply on_conn_quiet. keep.
  - intros. unfold get_melt_quote. keep.
  - intros. unfold get_melt_quotes. keep.
  - intros. unfold remove_melt_quote. keep.
  - intros. unfold add_keys. apply (keeps_seq quiet); [keep|intros _]. apply (keeps_seq quiet); [keep|intros _]. apply exec_quiet. keep.
  - intros. unfold get_keys. keep.
  - intros. unfold remove_keys. keep.
  - intros. unfold get_proofs. keep.
  - intros. apply on_conn_quiet. keep.
  - intros. unfold add_transaction. keep.
  - intros. unfold get_transaction. keep.
  - intros. unfold list_transactions. keep.
  - intros. unfold remove_transaction. keep.
  - intros u w w' r. apply sql_remove_mint.
  - intros u u'. apply sql_update_url.
  - intros u c s w l w' ->%get_proofs_run. by rewrite (list_filter_iff _ _ _ (matches_wanted u c s)).
  - intros u c s sc w l w' ->%get_proofs_run p [Hp Hin]%list_elem_of_filter. apply list_elem_of_filter. split; [|done].
    by eapply matches_subset.
  - intros added removed w w'. apply update_proofs_run.
  - intros added removed w. destruct (update_proofs added removed w) as [r w'] eqn:H. cbn [snd]. unfold update_proofs in H.
    apply in_tx_run in H as [([] & s1 & s2 & _ & H1 & H & H2)|[_ H]].
    + apply mseq_Ok in H as ([] & s3 & H3%insert_proofs_run & H). apply exec_run in H. injection H as H.
      unfold counts_kept, counter_of, counted, sql_view, counter_in. rewrite H2, <- H, H3, H1. by split.
    + unfold counts_kept, counter_of, counted, sql_view. rewrite H. by split.
  - intros ks st w w'. apply update_state_run.
  - intros ks st. unfold update_proofs_state. apply (keeps_weaken _ counts_kept _ (fun s s' H => H)). intros w.
    destruct (on_conn _ w) as [[[]|e|] w'] eqn:H; cbn [snd].
    + apply on_conn_run in H. injection H as H. unfold counts_kept, counter_of, counted, sql_view, counter_in. rewrite <- H. by split.
    + apply on_conn_same in H; [|done]. unfold counts_kept, counter_of, counted, sql_view. rewrite H. by split.
    + apply on_conn_same in H; [|done]. unfold counts_kept, counter_of, counted, sql_view. rewrite H. by split.
  - intros id n w c w' Hc (_ & _ & _ & H)%sql_increment_run. by apply H.
  - intros id n w w' r (Hp & Ho & Hs & _)%sql_increment_run. cbn. rewrite Hp. split_and!; [done| |].
    + intros id' Hne. unfold counter_in. by rewrite Ho.
    + intros id' H. destruct (decide (id' = id)) as [->|Hne]; [by apply Hs|by rewrite Ho].
Qed.

(** C25. The three stores keep the contract of the wallet's store: the
    browser's local storage, the SQL tables and the redb file implement
    [WalletDatabase] as the wallet relies on it, each with its own view of
    proofs and counters and whatever calls to the storage or the database fail,
    so that what is proved of the wallet for the interface holds with any of
    them.  Changes of proofs, of their states and of counters that succeed do
    what the laws say; removing a mint keeps the proofs and changes no counter
    that it leaves; a change of URL keeps proofs, keys, states and counters;
    all other calls keep proofs and counters, also when they fail. *)
Theorem stores_implement_interface {MInfo S : Type} {J : StateJson CR MInfo} {QJ : RedbWallet.QuoteJson CR} (now : N) :
  WalletStoreLaws CR MInfo (Page MInfo S) StoreError BrowserStore.browser_store BrowserStore.browser_view /\
  WalletStoreLaws CR Info Sql SqlError sql_store sql_view /\
  WalletStoreLaws CR MInfo (RedbWallet.Redb MInfo) RedbWallet.RedbError (RedbWalletFacts.redb_store now) RedbWalletFacts.redb_view.
Proof. split_and!; [apply BrowserStore.browser_laws|apply sql_laws|apply RedbWalletFacts.redb_laws]. Qed.

(** ** Mint quotes *)

Lemma on_conn_clear {A} (c : Stmt A) t : on_conn c (mkSql t []) = match c t with (Ok a, t') => (Ok a, mkSql t' []) | (r, _) => (r, mkSql t []) end.
Proof. done. Qed.

Lemma number_as_i64 n : n <= I64_MAX -> number (as_i64 n) = Ok n.
Proof.
  intros H. unfold number, as_i64, MintDb.u64_as_i64. rewrite (proj2 (N.leb_le _ _) H).
  destruct (Z.leb_spec 0 (Z.of_N n)); [|lia]. by rewrite N2Z.id.
Qed.

Lemma int_or_null_number n : not_null (int_or_null (Amount.to_i64 n)) = true -> int_or_null (Amount.to_i64 n) = CInt (Z.of_N n).
Proof. unfold Amount.to_i64. by destruct (n <=? I64_MAX). Qed.

(** A mint quote that the SQL store has taken is read back as it was
    written, when its amount and expiry fit a signed number; a quote whose paid
    or issued amount does not fit is refused when it is written. *)
Theorem sql_mint_quote_roundtrip q t t'
    (Hadd : (add_mint_quote q : Op _) (mkSql t []) = (Ok tt, mkSql t' []))
    (Hexp : wq_expiry q <= I64_MAX) (Hamt : default 0 (wq_amount q) <= I64_MAX) :
  (get_mint_quote (wq_id q) : Op _) (mkSql t' []) = (Ok (Some q), mkSql t' []).
Proof.
  unfold add_mint_quote in Hadd. rewrite on_conn_clear in Hadd. cbn zeta in Hadd. unfold constraint, mseq, mlift, mmodify in Hadd.
  destruct (not_null (qw_amount_issued (quote_row q)) && _) eqn:Hn; [|done]. cbn [ensure] in Hadd. injection Hadd as <-.
  apply andb_true_iff in Hn as [H1%int_or_null_number H2%int_or_null_number].
  unfold get_mint_quote, mseq. rewrite on_conn_clear. unfold mgets. cbn [tb_mint_quote set_mint_quote]. rewrite lookup_insert_eq. cbn [fmap option_fmap option_map].
  unfold quote_row, quote_columns, mlift. cbn [qw_id qw_mint_url qw_amount qw_unit qw_request qw_state qw_expiry qw_secret_key qw_payment_method
    qw_amount_issued qw_amount_paid]. rewrite H1, H2. unfold sql_row_to_mint_quote, cell_number. rewrite number_as_i64 by done.
  assert (Hz : forall n, number (Z.of_N n) = Ok n) by (intros n; unfold number; destruct (Z.leb_spec 0 (Z.of_N n)); [by rewrite N2Z.id|lia]).
  rewrite !Hz. destruct q as [id url m am u rq st ex sk isd pd]. cbn in *.
  assert (Ha : exists z, cell_nullable (int_or_null (am ≫= Amount.to_i64)) = Ok z /\ z ≫= Amount.from_i64 = am).
  { destruct am as [a|]; [|by exists None]. cbn in *. unfold Amount.to_i64. rewrite (proj2 (N.leb_le _ _) Hamt). exists (Some (Z.of_N a)).
    split; [done|]. cbn. unfold Amount.from_i64. destruct (Z.leb_spec 0 (Z.of_N a)); [by rewrite N2Z.id|lia]. }
  destruct Ha as (z & -> & Hz'). rewrite Hz'. by destruct sk.
Qed.

(** The list of mint quotes can not be read: every row has ten columns, and
    eleven are asked for. *)
Theorem mint_quotes_unreadable t (Hsome : tb_mint_quote t <> ∅) :
  (get_mint_quotes : Op _) (mkSql t []) = (Err (MissingColumn 11 10), mkSql t []).
Proof.
  unfold get_mint_quotes, mseq. rewrite on_conn_clear. unfold mgets. destruct (map_to_list (tb_mint_quote t)) as [|[k r] l] eqn:H; [|done].
  by apply map_to_list_empty_iff in H.
Qed.

(** A melt quote that the mint reports as failed or unknown can not be stored. *)
Theorem failed_melt_quote_refused q t (Hst : wm_state q = StateRules.Failed \/ wm_state q = StateRules.Unknown) :
  (add_melt_quote q : Op _) (mkSql t []) = (Err Database, mkSql t []).
Proof. unfold add_melt_quote. rewrite on_conn_clear. unfold constraint, mseq, mlift. by destruct Hst as [-> | ->]. Qed.

(** ** Mints *)

(** Removing a mint forgets the counters of its keysets: when it is added
    again, outputs are derived from zero on. *)
Theorem readded_mint_counts_from_zero u info k r t n
    (Hrow : tb_keyset t !! ki_id k = Some r) (Hurl : kw_mint_url r = u) (Hu32 : id_u32 (ki_id k) = Ok n)
    (Hfree : u32_free (filter (fun kv => kw_mint_url kv.2 <> u) (tb_keyset t)) n = true) :
  exists t', (do_ remove_mint u ; do_ add_mint u info ; add_mint_keysets u [k] : Op _) (mkSql t []) = (Ok tt, mkSql t' []) /\
    counter_in t' (ki_id k) = 0.
Proof.
  eexists. split.
  - unfold mseq at 1, remove_mint. rewrite on_conn_clear. cbn [mmodify]. unfold mseq at 1, add_mint. rewrite on_conn_clear. cbn [mmodify].
    unfold add_mint_keysets, mseq at 1. cbn [fault sq_faults mfor]. unfold mseq at 1, exec, mseq at 1. cbn [fault sq_faults].
    unfold run. cbn [sq_tables]. unfold insert_keyset, mseq at 1, mlift. rewrite Hu32. unfold mseq at 1, mgets. cbn [tb_keyset set_mint set_keyset].
    rewrite (proj2 (map_lookup_filter_None _ _ _)) by (right; intros x Hx Hne; rewrite Hrow in Hx; injection Hx as <-; by apply Hne).
    unfold mseq at 1. cbn [tb_keyset tb_mint set_mint set_keyset]. rewrite Hfree, lookup_insert_eq. cbn. reflexivity.
  - unfold counter_in. cbn. by rewrite lookup_insert_eq.
Qed.

(** The key of a mint is lost. *)
Theorem mint_key_lost {KL : KeyJsonLaws CR KJ} u (i : Info) t t'
    (Hadd : (add_mint u (Some i) : Op _) (mkSql t []) = (Ok tt, mkSql t' [])) (Htime : default 0 (mi_unix_time i) <= I64_MAX) :
  exists i', (get_mint Nuts_default u : Op _) (mkSql t' []) = (Ok (Some i'), mkSql t' []) /\ mi_pubkey i' = None /\ mi_nuts i' = mi_nuts i /\
    mi_unix_time i' = mi_unix_time i.
Proof.
  unfold add_mint in Hadd. rewrite on_conn_clear in Hadd. injection Hadd as <-. unfold get_mint, mseq. rewrite on_conn_clear. unfold mgets.
  cbn [tb_mint set_mint]. rewrite lookup_insert_eq. cbn [fmap option_fmap option_map]. unfold mlift, transpose, sql_row_to_mint_info.
  assert (Ht : nullable_number (mw_time (mint_row (Some i))) = Ok (mi_unix_time i)).
  { cbn. destruct (mi_unix_time i) as [n|]; [|done]. cbn. by rewrite number_as_i64. }
  cbn [mint_row mw_time] in *. rewrite Ht. eexists. split; [done|]. cbn. split; [|done]. destruct (mi_pubkey i); [cbn; apply key_bytes_not_json|done].
Qed.

End facts.
End SqlWalletFacts.
