(* ===== verification/WalletEnds.v ===== *)
(** * Termination of the wallet's operations

    The loops of the code that are not bounded by a list are the [while] loop
    of [split_targeted] for a target value, the retries of [split_with_fee], and
    three loops of the choice of proofs.  In the model they take fuel:
    [Diverges] is the error of a wallet operation whose loop has not ended with
    it.  The loops of [Amount] end within [U64_MAX] rounds, since each adds to a
    sum that is checked against it; those of the choice are given as many rounds
    as they can use. *)
From stdpp Require Import base numbers list sorting strings gmap.
From S2P Require Import Prelude Amount Hex Nuts KeysetId Bdhke Conditions Spending States Keysets Melt Secrets Selection SelectionFacts MintUrl WalletDb Posts WalletStore Token MintFacts Wallet WalletFacts WalletPay WalletPayFacts.
Import Nut00 Requests KeysetId Bdhke Nut11 Keysets Secrets WalletDb WalletStore Token MintFacts Wallet WalletFacts WalletPay WalletPayFacts.

Local Open Scope N_scope.
Local Open Scope list_scope.
Local Open Scope res_scope.
Local Open Scope mint_scope.

Module Loops.
Import Amount.

(** A split target that the denominations [fa] can reach: a single value is
    not zero, and there is a denomination of one. *)
Definition reachable (t : SplitTarget) (fa : FeeAndAmounts) : Prop := forall v, t = STValue v -> 0 < v /\ 1 ∈ amounts fa.

(** Fuel that is enough: no counter of the loops passes [U64_MAX]. *)
Definition enough (fuel : nat) : Prop := U64_MAX < N.of_nat fuel.

Lemma greedy_some ds n : 1 ∈ ds -> 0 < n -> greedy ds n <> [].
Proof.
  intros H1 Hn. induction ds as [|a ds IH]; [set_solver|]. cbn [greedy]. destruct (N.leb_spec a n) as [Ha|Ha]; [done|].
  apply elem_of_cons in H1 as [<-|H1]; [lia|]. rewrite N.mod_small by done. by apply IH.
Qed.

Lemma split_Ok_greedy n fa parts : split n fa = Ok parts ->
  parts = greedy (rev (amounts fa)) n /\ Forall (fun a => 0 < a) (rev (amounts fa)).
Proof.
  intros H. assert (Hpos : Forall (fun a => 0 < a) (rev (amounts fa))).
  { unfold split in H. destruct (fold_left _ _ _) as [r| |] eqn:E; [|done..]. by apply fold_split_step_pos in E. }
  split; [|done]. rewrite split_greedy in H by (rewrite <- (rev_involutive (amounts fa)); by apply Forall_rev). by injection H as <-.
Qed.
Lemma split_Ok_pos n fa parts : split n fa = Ok parts -> Forall (fun a => 0 < a) parts.
Proof. intros [-> Hpos]%split_Ok_greedy. apply Forall_forall. intros x Hx. by eapply greedy_pos. Qed.
Lemma split_some n fa parts : 1 ∈ amounts fa -> 0 < n -> split n fa = Ok parts -> 0 < sumN parts /\ parts <> [].
Proof.
  intros H1 Hn H. pose proof (split_Ok_pos _ _ _ H) as Hpos. apply split_Ok_greedy in H as [H _].
  assert (Hne : parts <> []) by (subst; apply greedy_some; [by rewrite list_elem_of_In, <- in_rev, <- list_elem_of_In|done]).
  split; [|done]. destruct Hpos as [|x l Hx _]; [done|]. rewrite sumN_cons. lia.
Qed.

(** A pass over the parts of the value adds at least one, or fails. *)
Lemma split_value_for_grows self fa pov : 1 ∈ amounts fa -> Forall (fun a => 0 < a) pov -> forall parts tot parts' tot',
  tot = sumN parts -> tot < self -> split_value_for self fa pov parts tot = Ok (parts', tot') ->
  tot' = sumN parts' /\ (pov = [] /\ tot' = tot \/ tot < tot' <= U64_MAX).
Proof.
  intros H1 Hpos. induction Hpos as [|part pov Hp _ IH]; intros parts tot parts' tot' Htot Hlt H; cbn [split_value_for] in H.
  { injection H as <- <-. auto. }
  destruct (add part tot) as [s| |] eqn:Hs; [|done..]. unfold add, checked_add, expect in Hs.
  destruct (u64_checked_add part tot) as [s'|] eqn:Ha; [|done]. injection Hs as ->. apply u64_checked_add_Some in Ha as [-> Hb].
  assert (Hstep : exists p1, sumN parts < sumN p1 <= self /\
    (let? t1 := try_sum p1 in if t1 =? self then Ok (p1, t1) else split_value_for self fa pov p1 t1) = Ok (parts', tot')).
  { destruct (N.leb_spec (part + tot) self) as [Hle|Hle].
    - exists (parts ++ [part]). rewrite sumN_app, sumN_cons. change (sumN []) with 0. split; [lia|done].
    - destruct (sub self tot) as [left| |] eqn:Hl; [|done..]. unfold sub, checked_sub, u64_checked_sub, expect in Hl.
      destruct (tot <=? self); [|done]. injection Hl as <-. destruct (split (self - tot) fa) as [lp| |] eqn:Hsp; [|done..].
      pose proof (split_Ok_le _ _ _ Hsp). apply split_some in Hsp as [Hsp _]; [|done|lia].
      exists (parts ++ lp). rewrite sumN_app. split; [lia|done]. }
  destruct Hstep as (p1 & Hp1 & Hr). destruct (try_sum p1) as [t1| |] eqn:Ht1; [|done..]. apply try_sum_Ok in Ht1 as [-> Hm].
  destruct (N.eqb_spec (sumN p1) self) as [He|He]. { injection Hr as <- <-. split; [done|right; lia]. }
  apply IH in Hr as [-> [[_ Hr]|Hr]]; [| |done|lia]; (split; [done|right; lia]).
Qed.

Lemma split_value_while_ends self fa pov : 1 ∈ amounts fa -> Forall (fun a => 0 < a) pov -> pov <> [] -> forall fuel parts tot,
  tot = sumN parts -> tot <= U64_MAX -> U64_MAX < N.of_nat fuel + tot -> exists r, split_value_while fuel self fa pov parts tot = Some r.
Proof.
  intros H1 Hpos Hne. induction fuel as [|fuel IH]; intros parts tot Htot Hm Hf; cbn [split_value_while];
    (destruct (N.leb_spec self tot) as [Hle|Hlt]; [by eexists|]).
  - lia.
  - destruct (split_value_for _ _ _ _ _) as [[p' t']|e|] eqn:Hs; [|by eexists..].
    apply split_value_for_grows in Hs as [-> [[? _]|Hs]]; [done| |done|done|done|done]. apply IH; [done|lia|lia].
Qed.

Lemma split_targeted_ends fuel a t fa : enough fuel -> reachable t fa -> exists r, split_targeted fuel a t fa = Some r.
Proof.
  intros Hf Ht. destruct t as [|v|vs]; cbn [split_targeted]; [by eexists| |by eexists]. destruct (Ht v eq_refl) as [Hv H1].
  destruct (N.leb_spec a v); [by eexists|]. destruct (split v fa) as [pov|e|] eqn:Hs; [|by eexists..].
  assert (Hp : Forall (fun a => 0 < a) pov) by (by apply split_Ok_pos in Hs). apply split_some in Hs as [_ Hne]; [|done|done].
  destruct (split_value_while_ends a fa pov H1 Hp Hne fuel [] ZERO) as [r ->]; [done|unfold ZERO; lia|unfold enough, ZERO in *; lia|].
  destruct r; by eexists.
Qed.

Lemma split_with_fee_ends fa : forall fuel a, U64_MAX < N.of_nat fuel + a -> exists r, split_with_fee fuel a fa = Some r.
Proof.
  induction fuel as [|fuel IH]; intros a Hf; cbn [split_with_fee];
    (destruct (split_with_fee_round a fa) as [[l|]|e|]; [by eexists| |by eexists..]);
    (destruct (checked_add a ONE) as [n|] eqn:Ha; [|by eexists]); apply u64_checked_add_Some in Ha as [-> Ha]; unfold ONE in *.
  - lia.
  - apply IH. lia.
Qed.

(** Without a denomination of one the loop need not end: 6 is not made of fours. *)
Theorem split_targeted_without_one_diverges fuel : split_targeted fuel 6 (STValue 4) (mkFeeAndAmounts 0 [4]) = None.
Proof.
  cbn -[split_value_while]. destruct fuel as [|fuel]; [done|]. cbn -[split_value_while]. 
  assert (H : forall n, split_value_while n 6 (mkFeeAndAmounts 0 [4]) [4] [4] 4 = None) by (induction n as [|n IH]; [done|exact IH]).
  change (split_value_while (S fuel) 6 (mkFeeAndAmounts 0 [4]) [4] [] ZERO) with (split_value_while fuel 6 (mkFeeAndAmounts 0 [4]) [4] [4] 4).
  by rewrite H.
Qed.
End Loops.

Module WalletEnds.
Import Loops.
Section ends.
Context {CR : Crypto} {CV : Curve CR} {BP : Bip32 CR} {KDF : SeedKdf CR BP} {SD : Serde} {PD : EqDecision Proof}.
Context {MintInfo W StoreErr S NetErr : Type} {ST : WalletStore CR MintInfo W StoreErr}.
Context {MC : WalletConnector CR MintInfo S NetErr} {MI : MintInfoView MintInfo}.
Context (iter : list Proof -> list Proof) (iter_fees : Selection.KeysetFeeAndAmounts -> Selection.KeysetFeeAndAmounts).
Context (iter_keys : list seckey -> list seckey) (fuel : nat) (Hfuel : enough fuel) (self : Wallet).

Local Abbreviation WM := (Wm (W:=W) (StoreErr:=StoreErr) (S:=S) (NetErr:=NetErr)).
Local Abbreviation Client := (Client W S).

(** The computation does not run out of fuel. *)
Local Abbreviation ends := (avoids Diverges).

Lemma store_ends {A} (c : M W StoreErr A) : ends (store c : WM A).
Proof. by apply avoids_map_err. Qed.
Lemma net_ends {A} (c : M S NetErr A) : ends (net c : WM A).
Proof. by apply avoids_map_err. Qed.
Lemma amt_ends {A} (r : res Amount.Error A) : ends (Wallet.amt r : WM A).
Proof. unfold Wallet.amt. avoid. Qed.
Lemma dhke_ends {A} (r : res Dhke.Error A) : ends (dhke r : WM A).
Proof. unfold dhke. avoid. Qed.
Lemma key_id_ends id : ends (key_id id : WM _).
Proof. unfold key_id. avoid. Qed.
Lemma split_for_ends a t fa : reachable t fa -> ends (split_for fuel a t fa : WM _).
Proof.
  intros Ht. unfold split_for, fueled. destruct (split_targeted_ends fuel a t fa Hfuel Ht) as [r ->]. avoid.
Qed.
Lemma from_seed_for_ends kid c a t fa : reachable t fa -> ends (from_seed_for fuel self kid c a t fa : WM _).
Proof.
  intros Ht. unfold from_seed_for, fueled, from_seed. destruct (split_targeted_ends fuel a t fa Hfuel Ht) as [r ->]. cbn [mbind option_bind]. avoid.
Qed.
Lemma with_conditions_ends {rnd kid a t sc fa} : reachable t fa ->
  ends (fueled SecretsFailed (with_conditions fuel kid (rnd_secret rnd) (rnd_factor rnd) a t sc fa) : WM _).
Proof.
  intros Ht. unfold fueled, with_conditions, Secrets.random. destruct (split_targeted_ends fuel a t fa Hfuel Ht) as [r ->].
  cbn [mbind option_bind]. avoid.
Qed.
Lemma reachable_none fa : reachable Amount.STNone fa.
Proof. done. Qed.
Hint Resolve store_ends net_ends amt_ends dhke_ends key_id_ends split_for_ends from_seed_for_ends with_conditions_ends reachable_none : avoids.

Lemma load_keyset_keys_ends id : ends (load_keyset_keys id : WM _).
Proof. unfold load_keyset_keys. avoid. Qed.
Hint Resolve load_keyset_keys_ends : avoids.
Lemma refresh_keysets_ends now : ends (refresh_keysets self now : WM _).
Proof. unfold refresh_keysets, fetch_mint_info. avoid. Qed.
Hint Resolve refresh_keysets_ends : avoids.
Lemma load_mint_keysets_ends now : ends (load_mint_keysets self now : WM _).
Proof. unfold load_mint_keysets. avoid. Qed.
Lemma fetch_active_keyset_ends now : ends (fetch_active_keyset self now : WM _).
Proof. unfold fetch_active_keyset. avoid. Qed.
Lemma get_active_keyset_ends : ends (get_active_keyset self : WM _).
Proof. unfold get_active_keyset. avoid. Qed.
Lemma get_mint_keysets_ends : ends (get_mint_keysets self : WM _).
Proof. unfold get_mint_keysets. avoid. Qed.
Lemma fees_and_amounts_ends l : forall fees, ends (fees_and_amounts l fees : WM _).
Proof. induction l as [|k l IH]; intros fees; cbn [fees_and_amounts]; avoid. Qed.
Hint Resolve load_mint_keysets_ends fetch_active_keyset_ends get_active_keyset_ends get_mint_keysets_ends fees_and_amounts_ends : avoids.
Lemma get_keyset_fees_ends : ends (get_keyset_fees_and_amounts self : WM _).
Proof. unfold get_keyset_fees_and_amounts. avoid. Qed.
Hint Resolve get_keyset_fees_ends : avoids.
Lemma get_fees_by_id_ends id : ends (get_keyset_fees_and_amounts_by_id self id : WM _).
Proof. unfold get_keyset_fees_and_amounts_by_id. avoid. Qed.
Lemma fees_of_keysets_ends ids : forall m, ends (fees_of_keysets ids m : WM _).
Proof. induction ids as [|id ids IH]; intros m; cbn [fees_of_keysets]; avoid. Qed.
Hint Resolve get_fees_by_id_ends fees_of_keysets_ends : avoids.
Lemma get_proofs_fee_ends ps : ends (get_proofs_fee ps : WM _).
Proof. unfold get_proofs_fee, get_proofs_fee_by_count. avoid. Qed.
Lemma get_proofs_with_ends st sc : ends (get_proofs_with self st sc : WM _).
Proof. unfold get_proofs_with. avoid. Qed.
Lemma total_ends l : ends (total l : WM _).
Proof. unfold total. avoid. Qed.
Lemma proof_infos_ends st u l : ends (proof_infos self st u l : WM _).
Proof. unfold proof_infos. avoid. Qed.
Hint Resolve get_proofs_fee_ends get_proofs_with_ends total_ends proof_infos_ends : avoids.

(** ** Swaps *)

Lemma add_redeem_fee_ends id a c fa : ends (add_redeem_fee fuel id a c fa : WM _).
Proof.
  unfold add_redeem_fee, get_keyset_count_fee. avoid.
  - unfold fueled. apply avoids_lift. cbn. by destruct (Amount.split _ _).
  - apply avoids_lift. destruct a; [|done]. by destruct (Amount.checked_add _ _).
Qed.
Lemma secrets_needed_ends sc s c t fa : reachable t fa -> ends (secrets_needed fuel sc s c t fa : WM _).
Proof. intros Ht. unfold secrets_needed. avoid. Qed.
Lemma swap_outputs_for_ends rnd kid c sc s ch t fa : reachable t fa -> ends (swap_outputs_for fuel self rnd kid c sc s ch t fa : WM _).
Proof. intros Ht. unfold swap_outputs_for. avoid. Qed.
Lemma reserve_counters_ends id n : ends (reserve_counters id n : WM _).
Proof. unfold reserve_counters. avoid. Qed.
Hint Resolve add_redeem_fee_ends secrets_needed_ends swap_outputs_for_ends reserve_counters_ends : avoids.

(** The split of the change is one of several values, or the target given. *)
Lemma change_target_reachable t c fa fa' (w w' : Client) t' : reachable t fa ->
  (match t with Amount.STNone => determine_split_target_values self c fa' | s => mret s end : WM _) w = (Ok t', w') -> reachable t' fa.
Proof.
  intros Ht. destruct t as [|v|vs]; [|by intros [= <- _]..].
  unfold determine_split_target_values. intros (l & w1 & _ & H)%mseq_Ok. apply mseq_Ok in H as (vs & w2 & _ & [= <- _]). intros v. discriminate.
Qed.
Lemma determine_ends c fa : ends (determine_split_target_values self c fa : WM _).
Proof. unfold determine_split_target_values, amounts_needed_for_state_target, get_unspent_proofs. avoid. Qed.
Hint Resolve determine_ends : avoids.

(** A run from one client: what was read on the way can be used. *)
Definition ends_in {A} (w : Client) (c : WM A) : Prop := fst (c w) <> Err Diverges.
Lemma ends_in_of {A} (c : WM A) w : ends c -> ends_in w c.
Proof. intros H. apply H. Qed.
Lemma ends_in_seq {A B} (c : WM A) (k : A -> WM B) w : ends_in w c -> (forall a w', c w = (Ok a, w') -> ends_in w' (k a)) -> ends_in w (mseq c k).
Proof. unfold ends_in, mseq. intros Hc Hk. destruct (c w) as [[a|e|] w'] eqn:H; [by apply Hk| |done]. cbn in *. intros [= ->]. by apply Hc. Qed.

Lemma create_swap_ends now rnd a t ps sc incl w :
  (forall fee fa, fst (swap_terms self now ps w) = Ok (fee, fa) -> reachable t fa) ->
  ends_in w (create_swap fuel self now rnd a t ps sc incl).
Proof.
  intros Ht. unfold create_swap. apply ends_in_seq; [apply ends_in_of; avoid|]. intros k w1 Hk. cbv zeta.
  unfold swap_terms, mseq at 1 in Ht. rewrite Hk in Ht.
  apply ends_in_seq; [apply ends_in_of; avoid|]. intros kid w2 [_ ->]%mlift_Ok.
  apply ends_in_seq; [apply ends_in_of; avoid|]. intros tot w2' [_ ->]%total_run.
  apply ends_in_seq; [apply ends_in_of; avoid|]. intros pys w2' [Hys ->]%lifted_Ok. unfold mseq at 1, dhke, mlift in Ht. rewrite Hys in Ht. cbn [map_err] in Ht.
  apply ends_in_seq; [apply ends_in_of; avoid|]. intros [] w3 Hst. unfold mseq at 1 in Ht. rewrite Hst in Ht.
  apply ends_in_seq; [apply ends_in_of; avoid|]. intros fee w4 Hfee. unfold mseq at 1 in Ht. rewrite Hfee in Ht.
  apply ends_in_seq; [apply ends_in_of; avoid|]. intros sub w5 [_ ->]%mlift_Ok.
  apply ends_in_seq; [apply ends_in_of; avoid|]. intros chg w5' [_ ->]%mlift_Ok.
  apply ends_in_seq; [apply ends_in_of; avoid|]. intros fa w6 Hfa. unfold mseq in Ht. rewrite Hfa in Ht. specialize (Ht fee fa eq_refl).
  apply ends_in_of. apply avoids_seq; [avoid|]. intros [sa ca].
  apply avoids_seq_run; [destruct t; avoid|]. intros t' v v' Hrun%(change_target_reachable t ca fa); [|done]. avoid.
Qed.

(** A swap splits by the denominations that it finds at the start and, for an
    amount to send, those that it finds when the mint has answered. *)
Lemma swap_ends now rnd a t ps sc incl w :
  (forall fee fa, fst (swap_charge self now ps w) = Ok (fee, fa) -> reachable t fa) ->
  (forall fa, a <> None -> fst (swap_parts fuel self now rnd a t ps sc incl w) = Ok fa -> reachable t fa) ->
  ends_in w (swap fuel self now rnd a t ps sc incl).
Proof.
  intros Ht Hp. unfold swap. apply ends_in_seq; [apply ends_in_of; avoid|]. intros l w1 Hl.
  unfold swap_charge, mseq at 1 in Ht. rewrite Hl in Ht. unfold swap_parts, mseq at 1 in Hp. rewrite Hl in Hp.
  apply ends_in_seq; [by apply create_swap_ends|]. intros pre w2 Hpre. cbv zeta. unfold mseq at 1 in Hp. rewrite Hpre in Hp.
  apply ends_in_seq; [apply ends_in_of; avoid|]. intros sigs w3 Hs. unfold mseq at 1 in Hp. rewrite Hs in Hp.
  apply ends_in_seq; [apply ends_in_of; avoid|]. intros fa w4 Hfa. rewrite Hfa in Hp.
  apply ends_in_of. destruct a as [b|]; [specialize (Hp fa ltac:(done) eq_refl)|clear Hp]; unfold divide_proofs; avoid.
Qed.
Lemma plain_swap_ends now rnd a ps sc incl : ends (swap fuel self now rnd a Amount.STNone ps sc incl : WM _).
Proof. intros w. by apply swap_ends. Qed.
Hint Resolve plain_swap_ends : avoids.
Lemma reclaim_unspent_ends now rnd ps : ends (reclaim_unspent fuel self now rnd ps : WM _).
Proof. unfold reclaim_unspent. avoid. Qed.
Hint Resolve reclaim_unspent_ends : avoids.
Lemma swap_from_unspent_ends now rnd a sc incl : ends (swap_from_unspent iter iter_fees fuel self now rnd a sc incl : WM _).
Proof. unfold swap_from_unspent, get_unspent_proofs. avoid. Qed.

(** ** Sending, receiving, minting and melting *)

Lemma split_with_fee_for_ends a fa : ends (fueled AmountFailed (Amount.split_with_fee fuel a fa) : WM _).
Proof. unfold fueled. destruct (split_with_fee_ends fa fuel a) as [r ->]; [unfold enough in Hfuel; lia|]. avoid. Qed.
Hint Resolve split_with_fee_for_ends : avoids.
Lemma internal_prepare_send_ends a opts ps force : ends (internal_prepare_send fuel self a opts ps force : WM _).
Proof. unfold internal_prepare_send, get_proofs_fee_by_count. avoid. Qed.
Hint Resolve internal_prepare_send_ends : avoids.
Lemma prepare_send_ends now a opts : ends (prepare_send iter iter_fees fuel self now a opts : WM _).
Proof. unfold prepare_send. avoid. Qed.
Lemma hand_out_ends now rnd m p : ends (hand_out fuel self now rnd m p : WM _).
Proof. unfold hand_out, swapped_to_send. avoid. Qed.
Lemma cancel_ends p : ends (cancel self p : WM _).
Proof. unfold cancel, get_reserved_proofs. avoid. Qed.

Lemma prepare_proofs_ends pre sk l : ends (prepare_proofs pre sk l : WM _).
Proof. induction l as [|p l IH]; cbn [prepare_proofs]; unfold prepare_proof, check_dleq; avoid. Qed.
Hint Resolve prepare_proofs_ends : avoids.
Lemma claim_proofs_ends now rnd id keys t sk ps w :
  (forall fee fa, fst (claim_charge self now ps w) = Ok (fee, fa) -> reachable t fa) ->
  ends_in w (claim_proofs fuel self now rnd id keys t sk ps).
Proof.
  intros Ht. unfold claim_proofs. apply ends_in_seq; [apply ends_in_of; avoid|]. intros infos w1 Hi.
  apply ends_in_seq; [apply ends_in_of; avoid|]. intros [] w2 Hu.
  unfold claim_charge, mseq at 1 in Ht. rewrite Hi in Ht. unfold mseq in Ht at 1. rewrite Hu in Ht.
  apply ends_in_seq; [by apply create_swap_ends|]. intros pre w3 _. apply ends_in_of. avoid.
Qed.
Lemma hash_preimages_ends l : ends (mlift (collect hash_preimage l) : WM _).
Proof. apply avoids_lift, collect_avoids. intros p. unfold hash_preimage. by destruct (Hex.decode p). Qed.
Hint Resolve hash_preimages_ends : avoids.
Lemma receive_proofs_ends now rnd ps opts memo w :
  (forall fee fa, fst (receive_charge self now ps opts w) = Ok (fee, fa) -> reachable (ro_amount_split_target opts) fa) ->
  ends_in w (receive_proofs iter_keys fuel self now rnd ps opts memo).
Proof.
  intros Ht. unfold receive_proofs, receive_charge in *. apply ends_in_seq; [apply ends_in_of; avoid|]. intros l w1 H1.
  unfold mseq at 1 in Ht. rewrite H1 in Ht. apply ends_in_seq; [apply ends_in_of; avoid|]. intros k w2 H2. cbv zeta.
  unfold mseq at 1 in Ht. rewrite H2 in Ht. apply ends_in_seq; [apply ends_in_of; avoid|]. intros keys w3 H3.
  unfold mseq at 1 in Ht. rewrite H3 in Ht. apply ends_in_seq; [apply ends_in_of; avoid|]. intros tot w4 [_ ->]%total_run.
  apply ends_in_seq; [apply ends_in_of; avoid|]. intros pys w4' [_ ->]%lifted_Ok.
  apply ends_in_seq; [apply ends_in_of; avoid|]. intros hs w5 [Hhs ->]%mlift_Ok. unfold mseq at 1, mlift in Ht. rewrite Hhs in Ht. cbv zeta in Ht.
  apply ends_in_seq; [apply ends_in_of; avoid|]. intros [qs b] w6 H6. unfold mseq at 1 in Ht. rewrite H6 in Ht.
  apply ends_in_seq; [by apply claim_proofs_ends|]. intros n w7 _. apply ends_in_of. avoid.
Qed.

Lemma mint_outputs_for_ends rnd id kid a t sc fa : reachable t fa -> ends (mint_outputs_for fuel self rnd id kid a t sc fa : WM _).
Proof. intros Ht. unfold mint_outputs_for. avoid. Qed.
Lemma check_signatures_ends l : ends (check_signatures l : WM _).
Proof. induction l as [|[sig pm] l IH]; cbn [check_signatures]; avoid. Qed.
Hint Resolve mint_outputs_for_ends check_signatures_ends : avoids.
(** The denominations of the active keyset that a mint works with. *)
Definition mint_parts (now : N) (quote_id : string) : WM Amount.FeeAndAmounts :=
  do_ refresh_keysets self now ;
  do_ store (st_get_mint_quote quote_id) ;
  do k <- fetch_active_keyset self now ;
  get_keyset_fees_and_amounts_by_id self (ki_id k).
Lemma mint_ends now rnd id t sc w : (forall fa, fst (mint_parts now id w) = Ok fa -> reachable t fa) ->
  ends_in w (mint fuel self now rnd id t sc).
Proof.
  intros Ht. unfold mint, mint_parts in *. apply ends_in_seq; [apply ends_in_of; avoid|]. intros l w1 H1.
  unfold mseq at 1 in Ht. rewrite H1 in Ht. apply ends_in_seq; [apply ends_in_of; avoid|]. intros q w2 H2.
  unfold mseq at 1 in Ht. rewrite H2 in Ht. apply ends_in_seq; [apply ends_in_of; avoid|]. intros qi w3 [_ ->]%mlift_Ok.
  apply ends_in_seq; [apply ends_in_of; avoid|]. intros [] w3' [_ ->]%mlift_Ok. cbv zeta.
  apply ends_in_seq; [apply ends_in_of; avoid|]. intros [] w3' [_ ->]%mlift_Ok.
  apply ends_in_seq; [apply ends_in_of; avoid|]. intros k w4 H4. unfold mseq in Ht. rewrite H4 in Ht.
  apply ends_in_seq; [apply ends_in_of; avoid|]. intros kid w4' [_ ->]%mlift_Ok.
  apply ends_in_seq; [apply ends_in_of; avoid|]. intros fa w5 H5. rewrite H5 in Ht. specialize (Ht fa eq_refl).
  apply ends_in_of. unfold request_proofs, keep_minted. avoid.
Qed.
Lemma mint_bolt12_ends now rnd id a t sc w : (forall fa, fst (mint_parts now id w) = Ok fa -> reachable t fa) ->
  ends_in w (mint_bolt12 fuel self now rnd id a t sc).
Proof.
  intros Ht. unfold mint_bolt12, mint_parts in *. apply ends_in_seq; [apply ends_in_of; avoid|]. intros l w1 H1.
  unfold mseq at 1 in Ht. rewrite H1 in Ht. apply ends_in_seq; [apply ends_in_of; avoid|]. intros q w2 H2.
  unfold mseq at 1 in Ht. rewrite H2 in Ht. apply ends_in_seq; [apply ends_in_of; avoid|]. intros qi w3 [_ ->]%mlift_Ok.
  apply ends_in_seq; [apply ends_in_of; avoid|]. intros k w4 H4. unfold mseq in Ht. rewrite H4 in Ht. cbv zeta.
  apply ends_in_seq; [apply ends_in_of; avoid|]. intros kid w4' [_ ->]%mlift_Ok.
  apply ends_in_seq; [apply ends_in_of; avoid|]. intros fa w5 H5. rewrite H5 in Ht. specialize (Ht fa eq_refl).
  apply ends_in_of. unfold mint_bolt12_quote_state, request_proofs, keep_minted. avoid.
Qed.

(** The error of a refused melt is that of the mint. *)
Lemma or_reclaim_ends now rnd ps c : ends (or_reclaim fuel self now rnd ps c : WM _).
Proof.
  unfold or_reclaim. apply avoids_seq_run; [avoid|]. intros [response|e] w w' H; [avoid|]. apply avoids_seq; [avoid|]. intros _.
  apply avoids_fail. unfold mtry, net, mmap_err in H. destruct (c (cl_mint w)) as [[a|e'|] m]; cbn in H; [done| |done]. by injection H as <- _.
Qed.
Hint Resolve or_reclaim_ends : avoids.
Lemma melt_proofs_ends now rnd id ps md : ends (melt_proofs_with_metadata fuel self now rnd id ps md : WM _).
Proof. unfold melt_proofs_with_metadata, blank_outputs_for, send_melt, settle_melt, change_proofs_of. avoid. Qed.
Hint Resolve melt_proofs_ends : avoids.
Lemma melt_ends now rnd id md : ends (melt_with_metadata iter iter_fees fuel self now rnd id md : WM _).
Proof. unfold melt_with_metadata, get_unspent_proofs. avoid. Qed.

(** C36. Every loop ends.  With fuel above [U64_MAX] no operation of the wallet
    runs out of it, for every store and every mint, fees of the receiver
    included: a swap, a receive and a mint for a single target value when that is
    not zero and the denominations that the operation works with contain one
    (otherwise the loop of [split_targeted] need not end), all others
    unconditionally.  The loops of the choice of proofs end within the rounds
    that the model gives them: more rounds give the same result, and dropping
    superfluous proofs never runs out. *)
Theorem wallet_operations_end now rnd amount quote_id m (t : Amount.SplitTarget) (sc : option SpendingConditions) proofs memo metadata
    (p : PreparedSend) (sopts : SendOptions) (ropts : ReceiveOptions) (w : Client) :
  (forall a incl, (forall fee fa, fst (swap_charge self now proofs w) = Ok (fee, fa) -> reachable t fa) ->
     (forall fa, a <> None -> fst (swap_parts fuel self now rnd a t proofs sc incl w) = Ok fa -> reachable t fa) ->
     fst ((swap fuel self now rnd a t proofs sc incl : WM _) w) <> Err Diverges) /\
  fst ((prepare_send iter iter_fees fuel self now amount sopts : WM _) w) <> Err Diverges /\
  fst ((hand_out fuel self now rnd m p : WM _) w) <> Err Diverges /\
  ((forall fee fa, fst (receive_charge self now proofs ropts w) = Ok (fee, fa) -> reachable (ro_amount_split_target ropts) fa) ->
   fst ((receive_proofs iter_keys fuel self now rnd proofs ropts memo : WM _) w) <> Err Diverges) /\
  ((forall fa, fst (mint_parts now quote_id w) = Ok fa -> reachable t fa) ->
   fst ((mint fuel self now rnd quote_id t sc : WM _) w) <> Err Diverges /\
   forall a, fst ((mint_bolt12 fuel self now rnd quote_id a t sc : WM _) w) <> Err Diverges) /\
  fst ((melt_with_metadata iter iter_fees fuel self now rnd quote_id metadata : WM _) w) <> Err Diverges /\
  fst ((reclaim_unspent fuel self now rnd proofs : WM _) w) <> Err Diverges /\
  (forall l target n, (length l <= n)%nat -> Selection.least_over n l target = Selection.select_least_amount_over l target /\
     Selection.select_least_amount_over l target <> Panic) /\
  (forall ps target k s n, (length ps < n)%nat ->
     Selection.select_n n ps target k s = Selection.select_n (1 + length ps) ps target k s) /\
  (forall ps target k s n, target <= U64_MAX -> (64 <= n)%nat ->
     Selection.select_halves n ps target k s = Selection.select_halves 64 ps target k s).
Proof.
  split_and!; intros; [by apply swap_ends|by apply prepare_send_ends|by apply hand_out_ends|by apply receive_proofs_ends|
    split; intros; [by apply mint_ends|by apply mint_bolt12_ends]|by apply melt_ends|by apply reclaim_unspent_ends| | |].
  - unfold Selection.select_least_amount_over. destruct (SelectionFacts.least_over_ends target (length l) n l) as [-> H']; [done|done|].
    split; [done|]. by destruct (SelectionFacts.least_over_ends target n n l).
  - pose proof (length_filter (fun q => q ∉ s) ps). apply SelectionFacts.select_n_ends; unfold SelectionFacts.left_over; cbn; lia.
  - apply (SelectionFacts.select_halves_ends ps 64); [change (2 ^ N.of_nat 64) with (1 + U64_MAX); lia|done|lia].
Qed.
End ends.
End WalletEnds.
