(* ===== verification/WalletMint.v ===== *)
(** * The wallet at the mint

    The wallet library against the mint of this development: a connector whose
    swaps and mint requests are handled by [process_swap_request] and
    [process_mint_request].  What a run leaves in the wallet's store and what
    it leaves in the mint's tables fit together. *)
From stdpp Require Import base numbers list sorting strings gmap.
From S2P Require Import Prelude Amount Hex Nuts KeysetId Bdhke Conditions Spending States MintDb MintDbSpec Mint MintFacts Keysets Secrets Swap SwapFacts Issue IssueFacts Melt Selection MintUrl WalletDb CheckerFacts Posts WalletStore Token Wallet WalletFacts WalletPay WalletPayFacts.
Import Nut00 Requests KeysetId Bdhke Nut11 MintTypes MintDb Mint MintFacts Swap SwapFacts Issue IssueFacts Secrets WalletDb WalletStore Token Wallet WalletFacts WalletPay WalletPayFacts.

Local Open Scope N_scope.
Local Open Scope list_scope.

Module WalletMint.

(** ** The mint is touched by the requests only *)
Section frame.
Context {CR : Crypto} {CV : Curve CR} {BP : Keysets.Bip32 CR} {KDF : SeedKdf CR BP} {SD : Serde} {PD : EqDecision Proof}.
Context {MintInfo W StoreErr S NetErr : Type} {ST : WalletStore CR MintInfo W StoreErr}.
Context {MC : WalletConnector CR MintInfo S NetErr} {MI : MintInfoView MintInfo}.
Context (fuel : nat) (self : Wallet).

Local Abbreviation Client := (Client W S).
Local Abbreviation WM := (Wm (W:=W) (StoreErr:=StoreErr) (S:=S) (NetErr:=NetErr)).

Context (Q : relation S) {PO : PreOrder Q}.
Context (info_still : keeps Q cl_get_mint_info) (keyset_still : forall id, keeps Q (cl_get_mint_keyset id)).
Context (keysets_still : keeps Q cl_get_mint_keysets).

Definition still : relation Client := along (cl_mint : Client -> S) Q.
#[local] Instance still_preorder : PreOrder still.
Proof. apply along_preorder, _. Qed.

Lemma store_still {A} (c : M W StoreErr A) : keeps still (store c : WM A).
Proof. intros w. unfold store, mmap_err, still, along. by destruct (c (cl_store w)). Qed.
Lemma net_still {A} (c : M S NetErr A) : keeps Q c -> keeps still (net c : WM A).
Proof. intros H w. specialize (H (cl_mint w)). unfold net, mmap_err, still, along. by destruct (c (cl_mint w)). Qed.
#[local] Hint Resolve store_still net_still info_still keyset_still keysets_still : keeps.

Lemma load_keyset_keys_still id : keeps still (load_keyset_keys id : WM _).
Proof. unfold load_keyset_keys. keep. Qed.
#[local] Hint Resolve load_keyset_keys_still : keeps.
Lemma refresh_keysets_still now : keeps still (refresh_keysets self now : WM _).
Proof. unfold refresh_keysets, fetch_mint_info. keep. Qed.
#[local] Hint Resolve refresh_keysets_still : keeps.
Lemma fetch_active_keyset_still now : keeps still (fetch_active_keyset self now : WM _).
Proof. unfold fetch_active_keyset. keep. Qed.
Lemma fees_and_amounts_still l : forall fees, keeps still (fees_and_amounts l fees : WM _).
Proof. induction l as [|k l IH]; intros fees; cbn [fees_and_amounts]; keep. Qed.
#[local] Hint Resolve fetch_active_keyset_still fees_and_amounts_still : keeps.
Lemma get_fees_by_id_still id : keeps still (get_keyset_fees_and_amounts_by_id self id : WM _).
Proof. unfold get_keyset_fees_and_amounts_by_id, get_keyset_fees_and_amounts. keep. Qed.
Lemma fees_of_keysets_still ids : forall m, keeps still (fees_of_keysets ids m : WM _).
Proof. induction ids as [|id ids IH]; intros m; cbn [fees_of_keysets]; keep. Qed.
#[local] Hint Resolve get_fees_by_id_still fees_of_keysets_still : keeps.

Lemma create_swap_still now rnd a t ps sc incl : keeps still (create_swap fuel self now rnd a t ps sc incl : WM _).
Proof.
  unfold create_swap, key_id, total, dhke, get_proofs_fee, get_proofs_fee_by_count, add_redeem_fee, get_keyset_count_fee,
    determine_split_target_values, amounts_needed_for_state_target, get_unspent_proofs, get_proofs_with, secrets_needed, split_for,
    reserve_counters, swap_outputs_for, from_seed_for, Wallet.amt, fueled. keep.
Qed.
#[local] Hint Resolve create_swap_still : keeps.

(** A swap that returns: what is before and after its request to the mint. *)
Lemma swap_request now rnd amount ast proofs sc incl (w w' : Client) r :
  (swap fuel self now rnd amount ast proofs sc incl : WM _) w = (Ok r, w') ->
  exists l w0 pre w1 sigs w2, (refresh_keysets self now : WM _) w = (Ok l, w0) /\
    (create_swap fuel self now rnd amount ast proofs sc incl : WM _) w0 = (Ok pre, w1) /\
    cl_post_swap (ps_swap_request pre) (cl_mint w1) = (Ok sigs, cl_mint w2) /\ still w w1 /\ still w2 w'.
Proof.
  unfold swap. intros (l & w0 & H0 & H)%mseq_Ok. apply mseq_Ok in H as (pre & w1 & H1 & H). cbv zeta in H.
  apply mseq_Ok in H as (sigs & w2 & [H2 _]%net_Ok & H). exists l, w0, pre, w1, sigs, w2. do 3 (split; [done|]). split.
  - etrans; [by eapply keeps_run; [apply refresh_keysets_still|exact H0]|]. by eapply keeps_run; [apply create_swap_still|exact H1].
  - revert H. apply keeps_run. unfold divide_proofs, split_for, total, proof_infos, dhke, Wallet.amt, fueled. keep.
Qed.

Lemma check_signatures_still l : keeps still (check_signatures l : WM _).
Proof. induction l as [|[sig pm] l IH]; cbn [check_signatures]; keep. Qed.
#[local] Hint Resolve check_signatures_still : keeps.

(** The same for a mint. *)
Lemma mint_request now rnd quote_id target sc (w w' : Client) l :
  (mint fuel self now rnd quote_id target sc : WM _) w = (Ok l, w') ->
  exists w1 req sigs w2, cl_post_mint req (cl_mint w1) = (Ok sigs, cl_mint w2) /\ mint_quote_id req = quote_id /\
    Nut00.amount <$> l = bs_amount <$> sigs /\ still w w1 /\ still w2 w'.
Proof.
  unfold mint. intros H. apply mseq_Ok in H as (ks & v1 & H1 & H). apply (keeps_run still) in H1; [|keep].
  apply mseq_Ok in H as (found & v2 & H2 & H). apply (keeps_run still) in H2; [|keep].
  apply mlift_seq in H as (q & _ & H). apply mlift_seq in H as ([] & _ & H). cbv zeta in H. apply mlift_seq in H as ([] & _ & H).
  apply mseq_Ok in H as (ak & v3 & H3 & H). apply (keeps_run still) in H3; [|keep]. cbv zeta in H.
  apply mseq_Ok in H as (kid & v4 & [_ ->]%mlift_Ok & H). apply mseq_Ok in H as (fa & v5 & H5 & H). apply (keeps_run still) in H5; [|keep].
  apply mseq_Ok in H as (pms & v6 & H6 & H).
  apply (keeps_run still) in H6; [|unfold mint_outputs_for, split_for, from_seed_for, fueled; keep].
  apply mseq_Ok in H as (l' & v7 & Hr & H). unfold request_proofs in Hr. apply mseq_Ok in Hr as (sigs & w2 & [Hp _]%net_Ok & Hr).
  apply mseq_Ok in Hr as (keys & v8 & H8 & Hr). apply (keeps_run still) in H8; [|keep].
  apply mseq_Ok in Hr as ([] & v9 & H9 & Hr). apply (keeps_run still) in H9; [|keep]. apply lifted_Ok in Hr as [Hc ->].
  apply mseq_Ok in H as ([] & v10 & H10 & H). apply (keeps_run still) in H10; [|keep].
  apply mseq_Ok in H as ([] & v11 & H11 & [= -> <-]).
  apply (keeps_run still) in H11; [|unfold keep_minted, proof_infos, dhke, total, Wallet.amt; keep].
  eexists v6, _, sigs, w2. split; [exact Hp|]. split; [by destruct (wq_secret_key q)|].
  split; [exact (CheckerFacts.construct_amounts _ _ _ _ _ Hc)|]. split; repeat (etrans; [eassumption|]); reflexivity.
Qed.

End frame.

(** ** Requests handled by the mint *)
Section served.
Context {CR : Crypto} {CV : Curve CR} {BP : Keysets.Bip32 CR} {KDF : SeedKdf CR BP} {SD : Serde} {PD : EqDecision Proof}.
Context {SG : Signatory} {SGL : SignatoryLaws SG} {PY : Payments}.
Context {MintInfo W StoreErr S NetErr : Type} {ST : WalletStore CR MintInfo W StoreErr}.
Context {MC : WalletConnector CR MintInfo S NetErr} {MI : MintInfoView MintInfo}.
Context {WV : WalletView CR W} {SL : WalletStoreLaws CR MintInfo W StoreErr ST WV}.
Context (fuel : nat) (self : Wallet).

Local Abbreviation Client := (Client W S).
Local Abbreviation WM := (Wm (W:=W) (StoreErr:=StoreErr) (S:=S) (NetErr:=NetErr)).

(** The mint that is in the state of the connector: its keysets and, for a
    state, its world.  The answers of the two handlers come from it, whatever
    the connector adds to a call that fails; asking for keys and information
    does not touch its tables. *)
Record Served (keysets : Keysets) (world : S -> World) : Prop := {
  served_swap r s sigs s' : cl_post_swap r s = (Ok sigs, s') ->
    exists now id, process_swap_request now keysets id r (world s) = (Ok sigs, world s');
  served_mint r s sigs s' : cl_post_mint r s = (Ok sigs, s') ->
    exists now id, process_mint_request now keysets id r (world s) = (Ok sigs, world s');
  served_info : keeps (along (w_store ∘ world) eq) cl_get_mint_info;
  served_keyset id : keeps (along (w_store ∘ world) eq) (cl_get_mint_keyset id);
  served_keysets : keeps (along (w_store ∘ world) eq) cl_get_mint_keysets;
}.

Context (keysets : Keysets) (world : S -> World) (HS : Served keysets world).
Definition tables (w : Client) : Db := w_store (world (cl_mint w)).

Lemma ys_without_dleqs l : ys (without_dleqs l) = ys l.
Proof. unfold ys, without_dleqs. induction l as [|p l IH]; [done|]. cbn [map collect]. by rewrite IH. Qed.
Lemma amounts_without_dleqs l : map Nut00.amount (without_dleqs l) = Nut00.amount <$> l.
Proof. unfold without_dleqs. rewrite map_map. done. Qed.

(** C31. A swap of the wallet at the mint conserves value: when it returns, the
    inputs, which the mint had not seen, are spent at the mint and have left
    the wallet's store, the new proofs, which are in it, and the fee that the
    mint charges are together worth exactly the inputs, whatever the
    denominations; and no other proof has changed at the mint. *)
Theorem wallet_swap_at_mint now rnd amount ast proofs sc incl (w w' : Client) r
    (Hrun : (swap fuel self now rnd amount ast proofs sc incl : WM _) w = (Ok r, w')) (Hplain : plain_seed self) :
  exists sent kept fee send_infos keep_infos dys,
    r = (fun _ => sent) <$> amount /\ ys proofs = Ok dys /\ Mint.get_proofs_fee keysets (without_dleqs proofs) = Ok fee /\
    sumN (Nut00.amount <$> sent ++ kept) + fee = sumN (Nut00.amount <$> proofs) /\
    infos_of self Nut07.Reserved sent send_infos /\ infos_of self Nut07.Unspent kept keep_infos /\
    (fresh (send_infos ++ keep_infos) dys (proofs_of (cl_store w)) ->
     proofs_of (cl_store w') ≡ₚ without dys (proofs_of (cl_store w)) ++ send_infos ++ keep_infos) /\
    (forall y, y ∈ dys -> db_proof (tables w) !! y = None /\
       exists row, db_proof (tables w') !! y = Some row /\ pr_state row = Nut07.Spent) /\
    (forall y, y ∉ dys -> db_proof (tables w') !! y = db_proof (tables w) !! y).
Proof.
  destruct (swap_request fuel self (along (w_store ∘ world) eq) (served_info _ _ HS) (served_keyset _ _ HS) (served_keysets _ _ HS)
    _ _ _ _ _ _ _ _ _ _ Hrun) as (l & v0 & pre' & v1 & sigs' & v2 & Hl & Hc & Hq & Hb & Ha).
  apply swap_settled in Hrun as (w0 & w1 & w2 & pre & p & sigs & sent & kept & new & si & ki & fa2 & w4 & (((l' & Hl') & Hc') & Hpost & _) &
    (Hp & _) & (Hr & _ & Hperm & Ham & _) & (Hsi & Hki & Hst) & _ & _); [|done].
  rewrite Hl in Hl'. injection Hl' as -> ->. rewrite Hc in Hc'. injection Hc' as -> ->. rewrite Hq in Hpost. injection Hpost as -> Hv.
  destruct Hp as ((_ & Hys) & _ & _ & _ & _ & _ & Hreq).
  destruct (served_swap _ _ HS _ _ _ _ Hq) as (t & id & (ys' & fee & Hys' & _ & _ & _ & Hfee & Hsum & Hspent & Hother & _)%swap_effect).
  rewrite Hreq in Hys', Hfee, Hsum. cbn [swap_inputs SwapRequest_new] in Hys', Hfee, Hsum. rewrite ys_without_dleqs, Hys in Hys'. injection Hys' as <-.
  rewrite amounts_without_dleqs in Hsum. exists sent, kept, fee, si, ki, (pl_ys p).
  assert (Hb' : w_store (world (cl_mint w1)) = tables w) by (symmetry; exact Hb).
  assert (Ha' : w_store (world (cl_mint v2)) = tables w') by exact Ha. rewrite Hb', Ha' in *.
  split_and!; try done. by rewrite Hperm, Ham.
Qed.

(** A mint of the wallet at the mint is backed: the proofs that the wallet
    has got are worth exactly what the mint has booked as issued on the quote,
    which stays within what was paid for it, and no proof of the mint's tables
    has changed. *)
Theorem wallet_mint_at_mint now rnd quote_id target sc (w w' : Client) l
    (Hrun : (mint fuel self now rnd quote_id target sc : WM _) w = (Ok l, w')) :
  exists q issued, mq_amount_issued <$> db_mint_quote (tables w) !! quote_id = Some issued /\
    db_mint_quote (tables w') !! quote_id = Some q /\ mq_amount_issued q = issued + sumN (Nut00.amount <$> l) /\
    mq_amount_issued q <= mq_amount_paid q /\ db_proof (tables w') = db_proof (tables w).
Proof.
  destruct (mint_request fuel self (along (w_store ∘ world) eq) (served_info _ _ HS) (served_keyset _ _ HS) (served_keysets _ _ HS)
    _ _ _ _ _ _ _ _ Hrun) as (w1 & req & sigs & w2 & Hq & <- & Ham & Hb & Ha).
  assert (Hb' : w_store (world (cl_mint w1)) = tables w) by (symmetry; exact Hb).
  assert (Ha' : w_store (world (cl_mint w2)) = tables w') by exact Ha.
  destruct (served_mint _ _ HS _ _ _ _ Hq) as (t & id & (q & issued & Htot & Hi & Hq' & Hiss & Hle & _ & _ & _ & _ & _ & _ & _ & Hpr)%mint_effect).
  rewrite Hb', Ha' in *. exists q, issued. rewrite Ham. change (bs_amount <$> sigs) with (map bs_amount sigs). by rewrite Htot.
Qed.

End served.
End WalletMint.
