(* ===== verification/ConcreteWallet.v ===== *)
(** * The wallet at concrete values

    A wallet with the SQL store on a concrete curve, against a mint that signs
    what it is asked to sign, and the theorems on tokens and the wallet applied
    to its runs. *)
From Stdlib Require Import Ascii.
From stdpp Require Import base numbers list sorting strings gmap.
From S2P Require Import Prelude Amount Hex Nuts KeysetId Bdhke Conditions Concrete Spending States MintDb Mint MintFacts Keysets ConcreteCurve Melt Secrets SecretsFacts Selection MintUrl WalletDb ConcreteChecker Posts WalletStore BrowserStore Token TokenFacts Wallet WalletFacts WalletPay WalletPayFacts SqlWallet SqlWalletFacts WalletEnds.
Import Nut00 Requests KeysetId Bdhke Nut11 Keysets Secrets WalletDb WalletStore ConcreteCurve ConcreteSecrets Token Wallet WalletFacts WalletPay WalletPayFacts SqlWallet SqlWalletFacts WalletEnds.

Local Open Scope string_scope.
Local Open Scope list_scope.
Local Open Scope N_scope.

Module ConcreteWallet.

(** ** Parameters *)

(** Secrets of NUT-10 are marked, so that derived ones are not among them. *)
#[export] Instance serde : Serde := {|
  nut10_from_json s := match s with String "["%char s' => @nut10_from_json Concrete.serde s' | _ => None end;
  nut10_to_json s := String "["%char (@nut10_to_json Concrete.serde s);
|}.

#[export] Instance seckey_eq : EqDecision (@seckey crypto) := Ascii.ascii_dec.
#[export] Instance ProofDleq_eq : EqDecision ProofDleq.
Proof. solve_decision. Defined.
#[export] Instance Proof_eq : EqDecision Proof.
Proof. solve_decision. Defined.

#[export] Instance key_json : KeyJson crypto := {| key_from_json _ := None |}.
Definition Doc : Type := MintInfo (CR:=crypto) unit unit unit.
Definition doc : Doc := mkMintInfo _ _ _ _ (Some "mint") None None None None None tt None None None None None.
#[export] Instance doc_view : MintInfoView Doc := {| mi_time i := mi_unix_time i; mi_description _ _ _ := Some true |}.

Definition SqlStore : Type := Sql (CR:=crypto) (Version:=unit) (Contact:=unit) (Nuts:=unit).
#[export] Instance store_ops : WalletStore crypto Doc SqlStore SqlError := sql_store tt.
#[export] Instance store_view : WalletView crypto SqlStore := sql_view.
#[export] Instance store_laws : WalletStoreLaws crypto Doc SqlStore SqlError store_ops store_view := sql_laws tt.

(** A codec for version 4 tokens of satoshis without witnesses: a token is
    written as the bits of its number. *)
Definition ProofRow : Type := N * string * ascii.
Definition TokenRow : Type := string * option string * list (bool * string * list ProofRow).
Definition proof_row (p : ProofV4) : option ProofRow :=
  match p with mkProofV4 a s c None None => Some (a, s, c) | _ => None end.
Definition group_row (t : TokenV4Token) : option (bool * string * list ProofRow) :=
  rows ← mapM proof_row (t4_proofs t);
  Some (match sh_version (t4_keyset_id t) with Version00 => true | Version01 => false end, KeysetId.prefix (t4_keyset_id t), rows).
Definition token_row (t : TokenV4) : option TokenRow :=
  match v4_unit t with
  | Amount.Sat => groups ← mapM group_row (v4_token t); Some (v4_mint_url t, v4_memo t, groups)
  | _ => None
  end.
Definition proof_of (r : ProofRow) : ProofV4 := let '(a, s, c) := r in mkProofV4 a s c None None.
Definition group_of (r : bool * string * list ProofRow) : TokenV4Token :=
  let '(v, p, rows) := r in mkTokenV4Token (mkShort (if v then Version00 else Version01) p) (proof_of <$> rows).
Definition token_of (r : TokenRow) : TokenV4 :=
  let '(url, memo, groups) := r in mkTokenV4 url Amount.Sat memo (group_of <$> groups).

Lemma mapM_reads {A B} (f : A -> option B) (g : B -> A) (H : forall a b, f a = Some b -> g b = a) l k :
  mapM f l = Some k -> g <$> k = l.
Proof. intros Hm%mapM_Some. induction Hm as [|a b l k Ha _ IH]; [done|]. by rewrite fmap_cons, (H _ _ Ha), IH. Qed.
Lemma proof_of_row p r : proof_row p = Some r -> proof_of r = p.
Proof. destruct p as [a s c [] []]; by intros [= <-]. Qed.
Lemma group_of_row t r : group_row t = Some r -> group_of r = t.
Proof.
  destruct t as [[v p] l]. unfold group_row. cbn [t4_proofs t4_keyset_id sh_version KeysetId.prefix].
  destruct (mapM proof_row l) as [rows|] eqn:Hm; [|done]. intros [= <-]. unfold group_of.
  rewrite (mapM_reads _ _ proof_of_row _ _ Hm). by destruct v.
Qed.
Lemma token_of_row t r : token_row t = Some r -> token_of r = t.
Proof.
  destruct t as [url u m l]. unfold token_row. cbn [v4_unit v4_token v4_mint_url v4_memo]. destruct u; try done.
  destruct (mapM group_row l) as [rows|] eqn:Hm; [|done]. intros [= <-]. unfold token_of.
  by rewrite (mapM_reads _ _ group_of_row _ _ Hm).
Qed.

#[export] Instance codec : TokenCodec crypto := {|
  b64_encode s := s;
  b64_decode s := Some s;
  is_utf8 _ := true;
  v3_to_json _ := None;
  v3_from_json _ := None;
  v4_to_cbor t := Concrete.bits_of_pos ∘ encode <$> token_row t;
  v4_from_cbor s := token_of <$> (Concrete.pos_of_bits s ≫= decode (A:=TokenRow));
|}.
#[export] Instance codec_laws : TokenCodecLaws crypto codec.
Proof.
  split; try done. intros t c _. cbn. destruct (token_row t) as [r|] eqn:Hr; [|done]. intros [= <-].
  rewrite Concrete.pos_of_bits_of_pos. cbn. rewrite decode_encode. cbn. by rewrite (token_of_row _ _ Hr).
Qed.

(** ** The mint *)

Definition keys : Keys := list_to_map [(1, "k"%char); (2, "l"%char); (4, "m"%char); (8, "n"%char); (16, "o"%char)].
Definition no_id : KeyId := mkKeyId Version00 (V1 "none").
Definition keyset_kid : KeyId := match v1_from_keys keys with Ok k => k | _ => no_id end.
Definition kid : Id := id_to_string keyset_kid.
Definition keyset : KeySet := mkKeySet keyset_kid Amount.Sat keys None.
Definition keyset_info : KeySetInfo := mkKeySetInfo kid Amount.Sat true 0 None.

Definition sign_output (m : BlindedMessage) : BlindSignature :=
  mkBlindSignature (bm_amount m) (bm_keyset_id m)
    (match keys !! bm_amount m with
     | Some k => match sign_message k (blinded_secret m) with Ok c => c | _ => "?"%char end
     | None => "?"%char
     end) None.

(** A melt of 5 that costs nothing: the change comes back in the first blank
    outputs. *)
Definition give_back (r : MeltRequest) (amount : N) : list BlindSignature :=
  match Amount.split amount (Amount.mkFeeAndAmounts 0 (Amount.pow2_amounts 5)) with
  | Ok parts => (fun p => sign_output (set_bm_amount p.2 p.1)) <$> zip parts (default [] (melt_outputs r))
  | _ => []
  end.
Definition paid_quote (r : MeltRequest) : MeltQuoteResponse :=
  mkMeltQuoteResponse (Requests.melt_quote r) 5 1 StateRules.Paid 9000 (Some "preimage")
    (Some (give_back r (sumN (amount <$> melt_inputs r) - 5))).

#[export] Instance mint_node : WalletConnector crypto Doc bool string := {|
  cl_get_mint_info s := (Ok doc, s);
  cl_get_mint_keyset _ s := (Ok keyset, s);
  cl_get_mint_keysets s := (Ok [keyset_info], s);
  cl_post_swap r s := (if (s : bool) then Ok (sign_output <$> swap_outputs r) else Err "refused", s);
  cl_post_check_state ks s := (Ok ((fun y => Nut07.mkProofState _ y Nut07.Unspent None) <$> ks), s);
  cl_post_restore _ s := (Ok ([], []), s);
  cl_post_mint_quote r s := (Ok (mkMintQuoteResponse "quote" "invoice" (Some (nq_amount r)) (Some (nq_unit r)) MintTypes.QUnpaid (Some 9000) (nq_pubkey r)), s);
  cl_get_mint_quote_status q s := (Ok (mkMintQuoteResponse q "invoice" None None MintTypes.QPaid (Some 9000) None), s);
  cl_post_mint r s := (Ok (sign_output <$> mint_outputs r), s);
  cl_post_melt_quote _ s := (Ok (mkMeltQuoteResponse "melt" 5 1 StateRules.Unpaid 9000 None None), s);
  cl_get_melt_quote_status q s := (Ok (mkMeltQuoteResponse q 5 1 StateRules.Paid 9000 None None), s);
  cl_post_melt r s := (Ok (paid_quote r), s);
  cl_post_mint_bolt12_quote r s := (Err "no", s);
  cl_get_mint_quote_bolt12_status _ s := (Err "no", s);
  cl_post_melt_bolt12_quote _ s := (Err "no", s);
  cl_get_melt_bolt12_quote_status _ s := (Err "no", s);
  cl_post_melt_bolt12 _ s := (Err "no", s);
|}.

(** ** The wallet *)

Definition url : MintUrl := "https://mint.example".
Definition purse : Wallet := mkWallet url Amount.Sat 1 "seed".
Definition rnd : Random := mkRandom (fun i => String (ascii_of_nat (65 + i)) "") (fun i => ascii_of_nat (40 + 9 * i)).
Definition coin (a : N) (s : string) : Proof := mkProof a kid s "c"%char None None.
Definition info (a : N) (s : string) : ProofInfo :=
  mkProofInfo (coin a s) (match y (coin a s) with Ok k => k | _ => "?"%char end) url Nut07.Unspent None Amount.Sat.
Definition empty_tables : Tables (CR:=crypto) (Version:=unit) (Contact:=unit) (Nuts:=unit) := mkTables ∅ ∅ ∅ ∅ ∅ ∅ ∅.
Definition W : Type := Client SqlStore bool.
Definition WM (A : Type) : Type := Wm (W:=SqlStore) (StoreErr:=SqlError) (S:=bool) (NetErr:=string) A.

Definition blank : W := mkClient (mkSql empty_tables []) true.
Definition filled : W := snd ((store (st_update_proofs [info 4 "four"; info 1 "one"; info 8 "eight"] []) : WM _) blank).

(** Computed by the virtual machine only. *)
#[local] Strategy opaque [keyset_kid kid filled].

Lemma ran {T E A} (m : M T E A) p : (match fst (m p) with Ok _ => true | _ => false end) = true ->
  exists a, m p = (Ok a, snd (m p)).
Proof. destruct (m p) as [[a| |] ?]; [by exists a|done..]. Qed.

Lemma ran_with {T E A} (P : A -> bool) (m : M T E A) p : (match fst (m p) with Ok a => P a | _ => false end) = true ->
  exists a, m p = (Ok a, snd (m p)) /\ P a = true.
Proof. destruct (m p) as [[a| |] ?]; [by exists a|done..]. Qed.

Lemma Ok_named {E A} (r : res E A) : (match r with Ok _ => true | _ => false end) = true -> exists a, r = Ok a.
Proof. destruct r as [a| |]; [by exists a|done..]. Qed.
Lemma result_of {T E A} (m : M T E A) p r w : m p = (r, w) -> fst (m p) = r.
Proof. by intros ->. Qed.

Lemma mint_signs : signs_swaps (MC:=mint_node).
Proof.
  intros r [] sigs m'; cbn; intros [= <- _]. unfold sign_output. rewrite <- list_fmap_compose. by apply list_fmap_ext.
Qed.
Lemma mint_issues : signs_mints (MC:=mint_node).
Proof. intros r m sigs m'. cbn. intros [= <- _]. rewrite <- list_fmap_compose. by apply list_fmap_ext. Qed.

Lemma Ok_inj {E A} (a b : A) : @Ok E A a = Ok b -> a = b.
Proof. by intros [= ->]. Qed.

(** A printed byte does not start a NUT-10 secret. *)
Lemma encode_plain s : nut10_from_json (Hex.encode s) = None.
Proof. destruct s as [|b s]; [done|]. by destruct b as [[] [] [] [] [] [] [] []]. Qed.
Lemma purse_plain : plain_seed purse.
Proof.
  intros k n s. unfold derived_at, secret_from_seed. destruct (version k).
  - destruct (legacy_key _ _ _ _); [|done..]. intros <-%Ok_inj. apply encode_plain.
  - intros <-%Ok_inj. apply encode_plain.
Qed.

Definition keyed (l : list ProofInfo) : bool :=
  bool_decide (NoDup (pi_y <$> l)) &&
  forallb (fun i => match y (pi_proof i) with Ok k => bool_decide (k = pi_y i) | _ => false end) l.
Lemma keyed_ok l : keyed l = true -> well_keyed l.
Proof.
  unfold keyed. rewrite andb_true_iff, bool_decide_eq_true, forallb_forall. intros [Hnd Hy]. split; [done|].
  apply Forall_forall. intros i Hi%list_elem_of_In%Hy. destruct (y _) as [k| |]; [|done..]. by apply bool_decide_eq_true in Hi as <-.
Qed.

(** ** Swaps *)

Definition split_eight : WM (option (list Proof)) := swap 20 purse 1000 rnd (Some 5) Amount.STNone [coin 8 "eight"] None false.

(** The keyset charges nothing and has five powers of two. *)
Definition free_terms (t : N * Amount.FeeAndAmounts) : bool := (t.1 =? 0) && bool_decide (Amount.amounts t.2 = Amount.pow2_amounts 5).
Lemma free_terms_ok {E} (r : res E (N * Amount.FeeAndAmounts)) fee fa :
  (match r with Ok t => free_terms t | _ => false end) = true -> r = Ok (fee, fa) -> fee = 0 /\ Amount.amounts fa = Amount.pow2_amounts 5.
Proof. intros H ->. unfold free_terms in H. by rewrite andb_true_iff, N.eqb_eq, bool_decide_eq_true in H. Qed.

Lemma wallet_swap_success_witness :
  exists sent kept, fst (split_eight filled) = Ok (Some sent) /\ sumN (Nut00.amount <$> sent ++ kept) = 8 /\
    sumN (Nut00.amount <$> sent) = 5.
Proof.
  destruct (ran split_eight filled) as [r Hr]; [vm_compute; reflexivity|].
  destruct (wallet_swap_success 20 purse 1000 rnd (Some 5) Amount.STNone [coin 8 "eight"] None false filled _ r Hr mint_signs purse_plain)
    as (sent & kept & fee & fa & ? & ? & ? & -> & _ & _ & _ & _ & _ & Hch & _ & Hex).
  apply free_terms_ok in Hch as [-> Hfa]; [|vm_compute; reflexivity].
  destruct (Hex 5%nat Hfa eq_refl) as [Hsum Hsent]. destruct (Hsent eq_refl eq_refl eq_refl 5 eq_refl) as (fa2 & Hfa2 & Hfive).
  exists sent, kept. rewrite Hr. split; [reflexivity|]. rewrite N.add_0_r in Hsum. split; [exact Hsum|]. apply Hfive.
  assert (Hok : match fst (swap_parts 20 purse 1000 rnd (Some 5) Amount.STNone [coin 8 "eight"] None false filled) with
    Ok fa => bool_decide (Amount.amounts fa = Amount.pow2_amounts 5) | _ => false end = true) by (vm_compute; reflexivity).
  rewrite Hfa2 in Hok. by apply bool_decide_eq_true in Hok.
Defined.
(** Two swaps of one client: the later outputs are derived above the earlier. *)
Definition opened : W := snd ((refresh_keysets purse 1000 : WM _) filled).
Definition plan (a : N) (p : Proof) : WM PreSwap := create_swap 20 purse 1000 rnd (Some a) Amount.STNone [p] None false.
Definition later : W := snd (plan 5 (coin 8 "eight") opened).

#[local] Strategy opaque [opened later].

Definition counters_below (n : N) (w : W) : bool :=
  bool_decide (map_Forall (fun _ r => Z.to_N (kw_counter r) <= n) (tb_keyset (sq_tables (cl_store w)))).
Lemma counters_room n w k id : counters_below n w = true -> n + k < 2 ^ 32 -> counter_of (cl_store w) id + k < 2 ^ 32.
Proof.
  unfold counters_below. rewrite bool_decide_eq_true. intros H Hk. cbn [counter_of store_view sql_view]. unfold counter_in.
  destruct (tb_keyset _ !! id) as [r|] eqn:Hr; [|change (default 0 _) with 0; lia].
  apply H in Hr. change (default 0 _) with (Z.to_N (kw_counter r)). lia.
Qed.

Definition of_keyset (p : PreSwap) : bool :=
  bool_decide (pms_keyset_id (ps_pre_mint_secrets p) = keyset_kid) && (0 <? N.of_nat (length (pms_secrets (ps_pre_mint_secrets p)))) &&
  (N.of_nat (length (pms_secrets (ps_pre_mint_secrets p))) <? 100).
Lemma of_keyset_ok p : of_keyset p = true -> pms_keyset_id (ps_pre_mint_secrets p) = keyset_kid /\
  (exists q, q ∈ pms_secrets (ps_pre_mint_secrets p)) /\ N.of_nat (length (pms_secrets (ps_pre_mint_secrets p))) < 100.
Proof.
  unfold of_keyset. rewrite !andb_true_iff, bool_decide_eq_true, !N.ltb_lt. intros [[H1 H2] H3]. repeat split; [done| |done].
  destruct (pms_secrets _) as [|q l]; [done|]. exists q. apply list_elem_of_here.
Qed.

Lemma swaps_use_new_counters_witness :
  exists p1 p2 cs1 cs2, fst (plan 5 (coin 8 "eight") opened) = Ok p1 /\ fst (plan 3 (coin 4 "four") later) = Ok p2 /\
    NoDup (cs1 ++ cs2) /\ derived_all (wl_seed purse) keyset_kid (pms_secrets (ps_pre_mint_secrets p1)) cs1 /\
    derived_all (wl_seed purse) keyset_kid (pms_secrets (ps_pre_mint_secrets p2)) cs2.
Proof.
  destruct (ran_with of_keyset (plan 5 (coin 8 "eight")) opened) as (p1 & H1 & (Hk1 & _ & Hn1)%of_keyset_ok); [vm_compute; reflexivity|].
  destruct (ran_with of_keyset (plan 3 (coin 4 "four")) later) as (p2 & H2 & (Hk2 & _ & Hn2)%of_keyset_ok); [vm_compute; reflexivity|].
  destruct (swaps_use_new_counters 20 purse 1000 rnd (Some 5) Amount.STNone [coin 8 "eight"] false opened later p1
    1000 rnd (Some 3) Amount.STNone [coin 4 "four"] false later (snd (plan 3 (coin 4 "four") later)) p2 H1 H2)
    as (cs1 & cs2 & Hnd & Hd1 & Hd2 & _).
  - by rewrite Hk1, Hk2.
  - intros id. reflexivity.
  - intros id. apply (counters_room 100); [vm_compute; reflexivity|lia].
  - intros id. apply (counters_room 100); [vm_compute; reflexivity|lia].
  - exists p1, p2, cs1, cs2. rewrite <- Hk1.
    split; [exact (result_of _ _ _ _ H1)|]. split; [exact (result_of _ _ _ _ H2)|]. split; [exact Hnd|]. split; [exact Hd1|exact Hd2].
Defined.

(** ** Sending and receiving *)

Definition no_options : SendOptions := mkSendOptions None None Amount.STNone OnlineExact false None ∅.
Definition prepare_five : WM PreparedSend := prepare_send (fun l => l) (fun l => l) 20 purse 1000 5 no_options.

Lemma prepare_cancel_restores_witness :
  exists p w', prepare_five filled = (Ok p, w') /\ fst ((cancel purse p : WM _) w') = Ok tt /\
    proofs_of (cl_store (snd ((cancel purse p : WM _) w'))) ≡ₚ proofs_of (cl_store filled).
Proof.
  destruct (ran_with (fun p => match fst ((cancel purse p : WM _) (snd (prepare_five filled))) with Ok _ => true | _ => false end)
    prepare_five filled) as (p & Hp & Hc); [vm_compute; reflexivity|].
  exists p, (snd (prepare_five filled)). apply ConcreteChecker.run_Ok in Hc. split; [exact Hp|]. split; [by rewrite Hc|].
  apply (prepare_cancel_restores (fun l => l) ltac:(done) (fun l => l) 20 purse 1000 5 no_options filled _ _ p (Ok tt) Hp);
    [|exact Hc|reflexivity].
  apply keyed_ok. vm_compute. reflexivity.
Defined.

Definition PM (A : Type) : Type := Pm (W:=SqlStore) (StoreErr:=SqlError) (S:=bool) (NetErr:=string) A.
Definition prepared : W := snd (prepare_five filled).
Definition confirm_five (p : PreparedSend) : PM Token := confirm (fun _ l => l) 20 purse 1000 rnd None p.
Definition handed (p : PreparedSend) : W := snd (confirm_five p prepared).
#[local] Strategy opaque [prepared handed].

Definition confirms (p : PreparedSend) : bool :=
  (pd_amount p =? 5) && match fst (confirm_five p prepared) with Ok _ => true | _ => false end && keyed (proofs_of (cl_store (handed p))).

Lemma send_hands_out_witness :
  exists p tok l, fst (prepare_five filled) = Ok p /\ fst (confirm_five p prepared) = Ok tok /\ 5 <= sumN (Nut00.amount <$> l) /\
    exists memo, TokenOps.Token_new (fun _ l => l) url l memo Amount.Sat = Ok tok.
Proof.
  destruct (ran_with confirms prepare_five filled) as (p & Hp & [[Ha%N.eqb_eq Hc]%andb_true_iff Hk]%andb_true_iff);
    [vm_compute; reflexivity|].
  apply ran in Hc as [tok Hc].
  destruct (send_hands_out 20 purse (fun _ l => l) 1000 rnd None p prepared (handed p) tok Hc (keyed_ok _ Hk))
    as (l & memo & ks & Htok & Hamount & _).
  exists p, tok, l. rewrite Ha in Hamount. split; [exact (result_of _ _ _ _ Hp)|]. split; [exact (result_of _ _ _ _ Hc)|]. split; [exact Hamount|by exists memo].
Defined.

Definition plain_receive : ReceiveOptions := mkReceiveOptions Amount.STNone [] [] ∅.
Definition take_gift : WM N := receive_proofs (fun l => l) 20 purse 1000 rnd [coin 4 "gift"] plain_receive None.

Lemma receive_takes_over_witness : fst (take_gift filled) = Ok 4.
Proof.
  destruct (ran take_gift filled) as [n Hn]; [vm_compute; reflexivity|].
  destruct (receive_takes_over 20 purse (fun l => l) 1000 rnd [coin 4 "gift"] plain_receive None
    filled _ n Hn mint_signs) as (ks & infos & fee & fa & _ & _ & Hch & _ & Hex & _).
  apply free_terms_ok in Hch as [-> Hfa]; [|vm_compute; reflexivity]. specialize (Hex 5%nat Hfa eq_refl). rewrite N.add_0_r in Hex.
  rewrite (result_of _ _ _ _ Hn), Hex. reflexivity.
Defined.

(** Fuel for every loop of 64-bit amounts. *)
Definition plenty : nat := N.to_nat (2 ^ 64).
Lemma plenty_enough : Loops.enough plenty.
Proof. unfold Loops.enough, plenty. rewrite N2Nat.id. reflexivity. Qed.
#[local] Strategy opaque [plenty].
Definition receive_twos : ReceiveOptions := mkReceiveOptions (Amount.STValue 2) [] [] ∅.

Lemma wallet_operations_end_witness :
  fst ((swap plenty purse 1000 rnd None (Amount.STValue 2) [coin 8 "eight"] None false : WM _) filled) <> Err Diverges /\
  fst ((receive_proofs (fun l => l) plenty purse 1000 rnd [coin 8 "eight"] receive_twos None : WM _) filled) <> Err Diverges.
Proof.
  destruct (wallet_operations_end (fun l => l) (fun l => l) (fun l => l) plenty plenty_enough purse 1000 rnd 5 "quote" None (Amount.STValue 2) None
    [coin 8 "eight"] None ∅ (mkPreparedSend 0 no_options [] 0 [] 0) no_options receive_twos filled) as (Hswap & _ & _ & Hreceive & _).
  split; [apply (Hswap None false)|apply Hreceive]; [|congruence|]; intros fee fa Hch;
    (apply free_terms_ok in Hch as [_ Hfa]; [|vm_compute; reflexivity]); intros v [= <-]; (split; [lia|]); rewrite Hfa; apply list_elem_of_here.
Defined.

(** ** Minting and melting *)

Definition quoted : W := snd ((WalletPay.mint_quote purse 1000 "q"%char 6 None : WM _) filled).
Definition mint_six : WM (list Proof) := WalletPay.mint 20 purse 1000 rnd "quote" Amount.STNone None.
#[local] Strategy opaque [quoted].

Lemma mint_gets_paid_amount_witness :
  exists l infos q, fst (mint_six quoted) = Ok l /\ kept_as purse (wq_unit q) l infos /\ sumN (Nut00.amount <$> l) <= wq_amount_mintable q.
Proof.
  destruct (ran mint_six quoted) as [l Hl]; [vm_compute; reflexivity|].
  destruct (mint_gets_paid_amount 20 purse 1000 rnd "quote" Amount.STNone None quoted _ l Hl mint_issues)
    as (q & infos & _ & _ & _ & _ & _ & Hkept & _ & Hsum & _).
  exists l, infos, q. split; [exact (result_of _ _ _ _ Hl)|]. split; [exact Hkept|exact Hsum].
Defined.

Definition melting : W := snd ((WalletPay.melt_quote (fun _ => Some (Some 5000)) purse 1000 "invoice" None : WM _) filled).
Definition pay_five : WM Melted :=
  melt_proofs_with_metadata 20 purse 1000 rnd "melt" [coin 8 "eight"; coin 1 "one"] ∅.
#[local] Strategy opaque [melting].

Lemma melt_balances_witness :
  exists m infos, fst (pay_five melting) = Ok m /\ md_amount m + md_fee_paid m + sumN (amounts_of infos) = 9.
Proof.
  destruct (ran pay_five melting) as [m Hm]; [vm_compute; reflexivity|].
  destruct (melt_balances 20 purse 1000 rnd "melt" [coin 8 "eight"; coin 1 "one"] ∅ melting _ m Hm)
    as (q & infos & ks & _ & _ & _ & _ & _ & _ & _ & _ & Hsum & _).
  exists m, infos. split; [exact (result_of _ _ _ _ Hm)|exact Hsum].
Defined.

Lemma blank_outputs_suffice_witness :
  exists pms amounts, from_seed_blank keyset_kid 7 "seed" 9 = Ok pms /\
    sumN (bm_amount <$> Melt.change_messages amounts (blinded_messages pms)) = 6.
Proof.
  destruct (Ok_named (from_seed_blank keyset_kid 7 "seed" 9)) as [pms H]; [vm_compute; reflexivity|].
  destruct (blank_outputs_suffice keyset_kid 7 "seed" 9 pms 5 0 6 H) as (amounts & _ & _ & Hsum); [lia|reflexivity|].
  exists pms, amounts. split; [exact H|exact Hsum].
Defined.

(** ** Tokens *)

Definition given : list Proof := [coin 8 "eight"; coin 1 "one"].
Definition made : res TokenOps.Error Token := TokenOps.Token_new (fun _ l => rev l) url given (Some "thanks") Amount.Sat.
#[local] Strategy opaque [made].

Lemma token_carries_proofs_witness :
  exists t ps, made = Ok t /\ TokenOps.proofs t [keyset_info] = Ok ps /\ ps ≡ₚ given /\ TokenOps.memo t = Some "thanks".
Proof.
  destruct (Ok_named made) as [t Ht]; [vm_compute; reflexivity|].
  destruct (TokenFacts.token_carries_proofs (fun _ l => rev l) url given (Some "thanks") Amount.Sat t [keyset_info] [keyset_kid])
    as ((ps & Hps & Hperm) & _ & Hmemo & _).
  - intros A l. rewrite <- Permutation_rev. reflexivity.
  - exact Ht.
  - constructor; [|constructor]. apply (bool_decide_eq_true_1 _). vm_compute. reflexivity.
  - constructor; [|constructor]. vm_compute. reflexivity.
  - intros i j ->%list_elem_of_singleton ->%list_elem_of_singleton _. reflexivity.
  - apply (bool_decide_eq_true_1 _). vm_compute. reflexivity.
  - exists t, ps. split; [exact Ht|]. split; [exact Hps|]. split; [exact Hperm|exact Hmemo].
Defined.

Definition bare_token : Token := TV4 (mkTokenV4 url Amount.Sat (Some "thanks") [mkTokenV4Token (mkShort Version00 "short") [mkProofV4 8 "eight" "c"%char None None]]).
Definition printed : string := match TokenOps.to_string bare_token with Ok s => s | _ => "" end.

Lemma token_roundtrip_witness : TokenOps.to_string bare_token = Ok printed /\ TokenOps.from_str printed = Ok bare_token.
Proof.
  split; [vm_compute; reflexivity|]. apply (TokenFacts.token_roundtrip bare_token printed); [|vm_compute; reflexivity].
  split; vm_compute; reflexivity.
Defined.

(** A proof locked to two keys, both to sign. *)
Definition both : SpendingConditions :=
  P2PKConditions "A"%char (Some (mkConditions None (Some ["B"%char]) None (Some 2) SigInputs None)).
Definition locked : Proof := coin 4 (sc_into_secret "nonce" both).
Definition locked_token : Token := TV4 (mkTokenV4 url Amount.Sat None
  [mkTokenV4Token (mkShort Version00 (match id keyset_kid with V1 b => b | V2 b => b end)) [TokenOps.p4_from_proof locked]]).

Lemma verified_token_grants_witness :
  exists keysets proofs, TokenOps.proofs locked_token keysets = Ok proofs /\ Forall (grants (terms_of both)) proofs.
Proof.
  apply (verified_token_grants purse 1000 locked_token both filled (snd ((verify_token_p2pk purse 1000 locked_token both : PM _) filled))).
  - apply ConcreteChecker.run_Ok. vm_compute. reflexivity.
  - apply (bool_decide_eq_true_1 _). vm_compute. reflexivity.
Defined.
End ConcreteWallet.
