(* ===== verification/ConcreteServed.v ===== *)
(** * The wallet at the mint, at concrete values

    A connector that hands the requests of a wallet to the mint of this
    development, with a signatory that signs and verifies on the concrete
    curve; the theorems on the wallet at the mint applied to its runs. *)
From Stdlib Require Import Ascii.
From stdpp Require Import base numbers list sorting strings gmap.
From S2P Require Import Prelude Amount Hex Nuts KeysetId Bdhke Conditions Concrete Spending States MintDb Mint MintFacts Keysets ConcreteCurve Melt Secrets SecretsFacts Swap Issue Selection MintUrl WalletDb ConcreteChecker Posts WalletStore Token Wallet WalletFacts WalletPay WalletPayFacts SqlWallet SqlWalletFacts WalletMint ConcreteWallet.
Import Nut00 Requests KeysetId Bdhke Nut11 MintTypes MintDb Mint Swap Issue Secrets WalletDb WalletStore ConcreteCurve ConcreteSecrets Token Wallet WalletFacts WalletPay WalletPayFacts SqlWallet SqlWalletFacts WalletMint ConcreteWallet.

Local Open Scope string_scope.
Local Open Scope list_scope.
Local Open Scope N_scope.

Module ConcreteServed.

(** ** The mint *)

Definition valid (p : Proof) : bool :=
  match keys !! Nut00.amount p with
  | Some k => match verify_message k (Nut00.c p) (secret p) with Ok _ => true | _ => false end
  | None => false
  end.
#[local] Instance signatory : Signatory := {|
  signatory_blind_sign ms := Ok (sign_output <$> ms);
  signatory_verify_proofs ps := if forallb valid ps then Ok tt else Err MSignatory;
|}.
#[local] Instance signatory_laws : SignatoryLaws signatory.
Proof. split. intros ms ss [= <-]. induction ms as [|m ms IH]; [by constructor|]. constructor; [done|exact IH]. Qed.
#[local] Instance payments : Payments := {|
  check_incoming_payment_status _ _ := None;
  create_incoming_payment_request _ _ := None;
  invoice_description _ _ := true;
|}.

Definition loaded : Mint.Keysets := [mkKeysetInfo kid Amount.Sat true 100 [1; 2; 4; 8; 16]].
Definition listed : KeySetInfo := mkKeySetInfo kid Amount.Sat true 100 None.

(** ** The connector *)

#[local] Instance at_mint : WalletConnector crypto Doc World MError := {|
  cl_get_mint_info s := (Ok doc, s);
  cl_get_mint_keyset _ s := (Ok keyset, s);
  cl_get_mint_keysets s := (Ok [listed], s);
  cl_post_swap r s := process_swap_request 1000 loaded 7 r s;
  cl_post_check_state ks s := check_state ks s;
  cl_post_restore outputs s := match Mint.restore outputs s with
                               | (Ok l, s') => (Ok (l.*1, l.*2), s')
                               | (Err e, s') => (Err e, s')
                               | (Panic, s') => (Panic, s')
                               end;
  cl_post_mint_quote _ s := (Err Mint.UnsupportedUnit, s);
  cl_get_mint_quote_status _ s := (Err Mint.UnknownQuote, s);
  cl_post_mint r s := process_mint_request 1000 loaded 8 r s;
  cl_post_melt_quote _ s := (Err Mint.UnsupportedUnit, s);
  cl_get_melt_quote_status _ s := (Err Mint.UnknownQuote, s);
  cl_post_melt _ s := (Err Mint.UnsupportedUnit, s);
  cl_post_mint_bolt12_quote _ s := (Err Mint.UnsupportedUnit, s);
  cl_get_mint_quote_bolt12_status _ s := (Err Mint.UnknownQuote, s);
  cl_post_melt_bolt12_quote _ s := (Err Mint.UnsupportedUnit, s);
  cl_get_melt_bolt12_quote_status _ s := (Err Mint.UnknownQuote, s);
  cl_post_melt_bolt12 _ s := (Err Mint.UnsupportedUnit, s);
|}.

Lemma at_mint_served : Served (MC:=at_mint) loaded (fun w => w).
Proof.
  split.
  - intros r s sigs s' H. by exists 1000, 7.
  - intros r s sigs s' H. by exists 1000, 8.
  - by intros s.
  - by intros id s.
  - by intros s.
Qed.

(** ** The wallet *)

(** A coin with the mint's signature, a paid quote at the mint and in the
    wallet. *)
Definition real (a : N) (s : string) : Proof :=
  mkProof a kid s (match keys !! a with
                   | Some k => match y (coin a s) with
                               | Ok h => match sign_message k h with Ok c => c | _ => "?"%char end
                               | _ => "?"%char
                               end
                   | None => "?"%char
                   end) None None.
Definition real_info (a : N) (s : string) : ProofInfo := mkProofInfo (real a s) (pi_y (info a s)) url Nut07.Unspent None Amount.Sat.
Definition paid : MintQuote :=
  mkMintQuote "quote" (Some 6) Amount.Sat "invoice" 9000 (PCustomId "lookup") None 900 6 0 [] Bolt11 [].
Definition mint_tables : Db := MintDb.set_mint_quote empty_db {["quote" := paid]}.
Definition C : Type := Client SqlStore World.
Definition CM (A : Type) : Type := Wm (W:=SqlStore) (StoreErr:=SqlError) (S:=World) (NetErr:=MError) A.
Definition first : C := mkClient (mkSql empty_tables []) (mkWorld mint_tables mint_tables [] []).
Definition quote : WMintQuote := WMintQuote_new "quote" url Bolt11 (Some 6) Amount.Sat "invoice" 9000 None.
Definition stocked : C :=
  snd ((mseq (store (st_update_proofs [real_info 8 "eight"; real_info 1 "one"] []))
     (fun _ => store (st_add_mint_quote quote)) : CM _) first).

Definition swap_eight : CM (option (list Proof)) := swap 20 purse 1000 rnd (Some 5) Amount.STNone [real 8 "eight"] None false.
Definition mint_quoted : CM (list Proof) := WalletPay.mint 20 purse 1000 rnd "quote" Amount.STNone None.
#[local] Strategy opaque [stocked].

Lemma wallet_swap_at_mint_witness :
  exists sent kept, fst (swap_eight stocked) = Ok (Some sent) /\ sumN (Nut00.amount <$> sent ++ kept) + 1 = 8.
Proof.
  destruct (ran swap_eight stocked) as [r Hr]; [vm_compute; reflexivity|].
  destruct (wallet_swap_at_mint 20 purse loaded (fun w => w) at_mint_served 1000 rnd (Some 5) Amount.STNone [real 8 "eight"] None false stocked _ r
    Hr purse_plain) as (sent & kept & fee & ? & ? & ? & -> & _ & Hfee & Hsum & _).
  assert (Mint.get_proofs_fee loaded (without_dleqs [real 8 "eight"]) = Ok 1) as Hone by (vm_compute; reflexivity).
  rewrite Hone in Hfee. injection Hfee as <-. exists sent, kept. split; [exact (result_of _ _ _ _ Hr)|exact Hsum].
Defined.

Lemma wallet_mint_at_mint_witness :
  exists l q, fst (mint_quoted stocked) = Ok l /\ mq_amount_issued q = 0 + sumN (Nut00.amount <$> l) /\ mq_amount_issued q <= mq_amount_paid q.
Proof.
  destruct (ran mint_quoted stocked) as [l Hl]; [vm_compute; reflexivity|].
  destruct (wallet_mint_at_mint 20 purse loaded (fun w => w) at_mint_served 1000 rnd "quote" Amount.STNone None stocked _ l Hl)
    as (q & issued & Hi & _ & Hq & Hle & _).
  assert (mq_amount_issued <$> db_mint_quote (tables (fun w => w) stocked) !! "quote" = Some 0) as Hz by (vm_compute; reflexivity).
  rewrite Hz in Hi. injection Hi as <-. exists l, q. split; [exact (result_of _ _ _ _ Hl)|]. split; [exact Hq|exact Hle].
Defined.
End ConcreteServed.
