(* ===== verification/ConcreteAuthWallet.v ===== *)
(** * The wallet's authentication at concrete values

    A wallet with the SQL store mints blind tokens with a clear token of a
    provider, and gives them away. *)
From Stdlib Require Import Ascii.
From stdpp Require Import base numbers list sorting strings gmap.
From S2P Require Import Prelude Amount Hex Nuts KeysetId Bdhke Conditions Concrete Spending States MintDb Mint MintFacts Keysets ConcreteCurve Auth Melt Secrets Selection MintUrl WalletDb Posts WalletStore Wallet WalletFacts SqlWallet SqlWalletFacts ConcreteWallet AuthWallet AuthWalletFacts.
Import Oidc Nut00 Requests KeysetId Bdhke Nut11 Nut21 Nut22 Keysets Secrets WalletDb WalletStore ConcreteCurve Wallet WalletFacts SqlWallet ConcreteWallet AuthWallet AuthWalletFacts.

Local Open Scope string_scope.
Local Open Scope list_scope.
Local Open Scope N_scope.

Module ConcreteAuthWallet.

(** ** The mint and the provider *)

(** The keyset of blind tokens has the amount 1 only; the mint signs for the
    clear token it is told, and proves its signatures. *)
Definition auth_keys : Keys := list_to_map [(1, "k"%char)].
Definition auth_kid : KeyId := match v1_from_keys auth_keys with Ok k => k | _ => no_id end.
Definition auth_keyset : KeySet := mkKeySet auth_kid Amount.Auth auth_keys None.
Definition retired : KeySetInfo := mkKeySetInfo (id_to_string auth_kid) Amount.Auth false 0 None.
Definition sign_bat (m : BlindedMessage) : BlindSignature :=
  match sign_message "k"%char (blinded_secret m) with
  | Ok c =>
      let sig := mkBlindSignature (bm_amount m) (bm_keyset_id m) c None in
      match add_dleq_proof "n"%char sig (blinded_secret m) "k"%char with Ok s => s | _ => sig end
  | _ => mkBlindSignature (bm_amount m) (bm_keyset_id m) "?"%char None
  end.

#[export] Instance auth_mint : AuthTransport crypto Doc string string := {|
  tr_info t := (Ok doc, t);
  tr_blind_keys _ t := (Ok [auth_keyset], t);
  tr_blind_keysets t := (Ok [retired], t);
  tr_blind_mint token outputs t :=
    (match token with
     | Some (ClearAuth c) => if String.eqb c t then Ok (sign_bat <$> outputs) else Err "unauthorized"
     | _ => Err "unauthorized"
     end, t);
|}.

(** A provider that accepts two clear tokens, gives the second one for a refresh
    token, and no new refresh token. *)
#[export] Instance oidc_lib : OidcLib := {|
  jwt_alg := unit;
  jwk_set := list string;
  decoding_key := string;
  decode_header s := Some (Some "k", tt);
  jwks_find set kid := if bool_decide (kid ∈ set) then Some (RSA kid "e") else None;
  from_rsa_components n _ := Some n;
  from_ec_components _ _ := None;
  jwt_decode s _ _ _ _ := if String.eqb s "first" || String.eqb s "second" then Some {["client_id" := Some "wallet"]} else None;
|}.
#[export] Instance endpoint : TokenEndpoint := fun _ client r =>
  if String.eqb client "wallet" && String.eqb r "refresh" then Some ("second", None) else None.
#[export] Instance doc_client : MintAuthView Doc := fun _ => Some "wallet".
Definition provider : nat -> Provider := fun _ =>
  mkProvider (fun _ => Some (mkOidcConfig "uri" "issuer" "endpoint")) (fun _ _ => Some ["k"]).

Definition Http : Type := AuthHttpClient crypto string.
Definition State : Type := AuthState (W:=SqlStore) (S:=Http).
Definition AM (A : Type) : Type := AuthWallet.Am (W:=SqlStore) (StoreErr:=SqlError) (S:=Http) (NetErr:=string) A.
Definition swap_endpoint : ProtectedEndpoint := mkEndpoint Post Nut21.Swap.

(** The wallet knows the mint; the mint expects the clear token [expected]. *)
Definition known_mint : SqlStore := snd (st_add_mint url None (mkSql empty_tables [])).
Definition begin_with (db : SqlStore) (expected : string) (refresh : option string) : State :=
  mkAuthState (mkClient db (new_http_client (Some (ClearAuth "first")) expected)) refresh (Some (OidcClient_new "url" (Some "wallet"))) {[swap_endpoint := Blind]}.
Definition begin : string -> option string -> State := begin_with known_mint.

(** ** Minting and giving away *)

Definition mint_two : AM (list Proof) := mint_blind_auth 20 url provider 50 rnd 2.
Definition secrets_of (l : list ProofInfo) : list string := (fun i => secret (pi_proof i)) <$> l.
Definition left (s : State) : list string := secrets_of (proofs_of (cl_store (aw_client s))).
Definition given {E} (r : res E (option AuthToken)) : option string :=
  match r with Ok (Some (BlindAuth t)) => Some (ap_secret (auth_proof t)) | _ => None end.
(** The errors of the runs, as texts. *)
Definition failure {A} (r : res (AwError (StoreErr:=SqlError) (NetErr:=string)) A) : string :=
  match r with
  | Ok _ => ""
  | Err InsufficientBlindAuthTokens => "insufficient tokens"
  | Err (OidcFailed Reqwest) => "provider"
  | Err (WalletErr (StoreFailed Database)) => "store"
  | _ => "?"
  end.
Definition use : AM (option AuthToken) := get_auth_for_request url swap_endpoint.

Definition rich : State := snd (mint_two (begin "first" None)).
Example two_tokens_minted : left rich = ["A"; "B"].
Proof. vm_compute. reflexivity. Qed.
Example two_tokens_given :
  given (fst (use rich)) = Some "A" /\ left (snd (use rich)) = ["B"] /\
  given (fst (use (snd (use rich)))) = Some "B" /\ left (snd (use (snd (use rich)))) = [] /\
  failure (fst (use (snd (use (snd (use rich)))))) = "insufficient tokens".
Proof. split_and!; vm_compute; reflexivity. Qed.

(** With a refresh token the clear token is replaced though the provider accepts
    it, and the refresh token is gone afterwards. *)
Definition refreshed : State := snd (mint_two (begin "second" (Some "refresh"))).
Example token_replaced : left refreshed = ["A"; "B"] /\ aw_refresh_token refreshed = None /\
  match cat (cl_mint (aw_client refreshed)) with ClearAuth t => t | _ => "" end = "second".
Proof. split_and!; vm_compute; reflexivity. Qed.

(** A refresh token that the provider no longer takes stops a wallet whose clear
    token is still good. *)
Example good_token_useless : failure (fst (mint_two (begin "first" (Some "revoked")))) = "provider".
Proof. vm_compute. reflexivity. Qed.


(** A store that does not have the mint: its information is asked for and not
    stored, and the keysets find no mint to belong to. *)
Example unknown_mint_stays_unknown : failure (fst (mint_two (begin_with (mkSql empty_tables []) "first" None))) = "store".
Proof. vm_compute. reflexivity. Qed.
End ConcreteAuthWallet.
